(* ===== verification/_CoqProject ===== *)
-Q . S2P
Prelude.v
Bytes.v
ModbusTypes.v
ModbusNames.v
ModbusFrame.v
ModbusProtocol.v
ModbusStore.v
ModbusHandlers.v
ModbusSpec.v
NetStream.v
ModbusServer.v
ModbusLife.v
ModbusTransaction.v
ModbusConn.v
ModbusSend.v
Transport.v
Plc.v
Floats.v
ModbusClient.v
MonitorCluster.v
ClusterFlight.v
MonitorSubs.v
MonitorEvents.v
MonitorClose.v
EipCodec.v
Cip.v
CipObjects.v
EipServer.v
EipLife.v
EipSession.v
IORuntime.v
IOLife.v
Pccc.v
PcccClient.v
CipTags.v
Hexdump.v
EipClient.v
CipTypes.v
EipPlant.v
LuaVM.v
LuaModbus.v
LuaEip.v
TagServer.v
IOScanner.v
ScanLife.v
Adapter.v
Options.v
Logging.v
Displays.v
Console.v
ModbusTools.v
ModbusToolsOk.v
ModbusDemo.v
EipTools.v
EipProbe.v
EipBrowse.v
EipToolsOk.v
ConditionMonitor.v
PcccTools.v
PlcPrograms.v
IoTools.v
LuaModules.v
ServerTools.v
TestUtil.v
