(* ===== verification/Prelude.v ===== *)
(** * goindustrial: a verification of its protocol core

    goindustrial is a Go library for talking to industrial controllers: a Modbus
    TCP client and server, an EtherNet/IP (CIP) client, server, I/O scanner and
    cyclic I/O runtime, PCCC for older controllers, connection transports, a monitor
    that polls points and clusters reads, bindings for Lua scripts, and programs
    that use them.  This development models that code and proves what makes it
    correct.

    ** The program and the files that model it

    Every Go function is a function here, with its guards, early returns and
    error values; what a function changes is a state it takes and returns.  A Go
    error is a value of [error]; a run-time panic is the outcome [Panic], so that
    "does not panic" is a statement one can prove.  Integers are [Z], with
    conversions ([u8], [u16], [u32], ...) where the code converts.

    - [Prelude], [Bytes]: errors, outcomes, stateful calls, machine integers; Go
      slices with their bounds checks, [encoding/binary], readers, bit packing.
    - [NetStream]: what a goroutine can observe of a [net.Conn] it reads.
    - [ModbusTypes] (types.go, errors.go, pdu.go), [ModbusFrame] (mbap.go,
      request.go, response.go), [ModbusProtocol] (protocol.go, device.go): codes,
      frames, request generation and response parsing.  [ModbusNames] (types.go,
      errors.go): names and messages.
    - [ModbusStore] (datastore.go): the [DataStore] interface as a class, its laws
      against an abstract memory, and [MemoryStore] as an instance.
    - [ModbusHandlers] (server_protocol.go), [ModbusServer] (server.go): the
      handlers, the dispatch table and the connection loop.  [ModbusLife]
      (server.go): [Start], [Stop], the accept loop and the table of clients, as
      the steps of interleaved goroutines.
    - [ModbusSpec]: abstract Modbus operations; client and server code refine them.
    - [ModbusTransaction] (transaction.go), [ModbusConn] (conn.go): transactions
      as shared heap objects, the pool, the read and write loops, connect and
      teardown across generations.  [ModbusSend] (conn.go): calls of [Send], the
      two loops and the teardown of one generation, interleaved step by step.
    - [Transport] (transport/), [Plc] (plc.go), [ModbusClient] (client.go,
      datapoint.go): connection management, values, the client with its retries.
      [Floats]: Go's conversions between 32 and 64 bit floats, on their bits.
    - [MonitorCluster] (monitor/cluster_plan.go, cluster.go): merging points into
      windows, reading windows, cutting points out of them, the cache;
      [ClusterFlight] (cluster.go): concurrent reads that share a window.
    - [MonitorSubs] (monitor/monitor.go, subscriber.go, options.go, change.go):
      subscriptions, subscribers and handlers as goroutines that share channels;
      [MonitorEvents]: what subscribers see; [MonitorClose]: stopping and closing.
    - [EipCodec] (ethernetip/eip): encapsulation, common packet format, discovery.
    - [Cip] (ethernetip/cip path, message, services, router), [CipObjects]
      (objects/assembly, objects/connmgr): paths, messages, dispatch to stateful
      objects, the assembly and connection manager objects.
    - [EipServer] (ethernetip/server.go), [EipSession] (conn.go, session.go): the
      command loop, sessions across connections, the client end; [EipLife]
      (server.go): [Start], [Stop] and the accept loop.
    - [IORuntime] (ethernetip/runtime): the table of I/O connections, the
      watchdog, the packets of the scheduler and their consumption.  [IOLife]:
      [Start], [Stop] and the goroutines of runtime and scheduler, and who closes
      the channels of connections.
    - [Pccc] (ethernetip/pccc/address.go, frame.go), [PcccClient] (frame.go,
      client.go, timer.go, datapoint.go): SLC addresses, and the PCCC client over
      an executor of commands.
    - [CipTags] (cip/tag.go, symbol.go, timer.go, counter.go, vendor/rockwell):
      tag paths, symbol enumeration, Logix structures.
    - [EipClient] (ethernetip/client.go, pccc.go, encode.go): the client's retry
      loop and operations, against a transport of sessions; [CipTypes] (cip/decode.go,
      registry.go, types.go, client.go): decoding into Go values of any fixed shape,
      the registry of types, typed reads; [EipPlant]
      (connector.go): that transport over [EipSession] and [EipServer], so that
      the client's theorems hold of the two ends joined.
    - [IOScanner] (ethernetip/io.go), [Adapter] (examples/ethernetip/adapter):
      the two ends of an I/O connection, joined in [Adapter].  [ScanLife] (io.go):
      the scanner's receiver and producers and the steps of [Shutdown].
    - [TagServer] (examples/ethernetip/server): a tag database behind the router, an
      instance of what the client's tag operations ask of a device.
    - [Hexdump] (hexdump): the text of a dump, and reading it back.
    - [LuaVM] (lua/helpers.go), [LuaModbus] (lua/modbus.go), [LuaEip]
      (lua/ethernetip.go): the methods Lua scripts call, over an interface of the
      interpreter, which is third-party code, with the laws they rely on.
    - [Options] (the options.go files, client.go, server.go): options, their
      routing, the constructors, callbacks and dial addresses; [Logging] (logging);
      [Displays]: the remaining names, summaries and dumps.
    - [LuaModules] (lua/lua.go and the [open] functions): registering the modules
      and the tables a script is handed.
    - [Console]: what the programs under examples/ share: a state that carries the
      lines printed, the ways a program ends, and weakest preconditions for them.
      [ModbusTools], [ModbusDemo] (examples/modbus), with [ModbusToolsOk] for their
      theorems; [EipTools], [EipBrowse], [EipProbe] (examples/ethernetip), with
      [EipToolsOk]; [PcccTools] (the pccc programs); [IoTools] (io_scanner, and what
      the adapter prints); [PlcPrograms] (plc_interface, monitor_subscriber,
      monitor_polling); [ConditionMonitor] (examples/lua/condition_monitor);
      [ServerTools] (the server and hexdump programs).  [TestUtil]: the mock logger.

    Interfaces of the program are classes or parameters: [DataStore] between the
    Modbus handlers and their store, [Transport] and [Link] below the Modbus
    client, [Wire] below the EtherNet/IP session, [Object] behind the CIP router,
    the interpreter below the Lua bindings ([LuaVM], [NativeVM]), [PLC] with its laws
    [PLCLaws] below the protocol-agnostic programs, the sort function and the visiting order
    below the clustering plan.  Clients'
    theorems are proved against the interface, and the implementation's instance
    discharges it.

    ** What the theorems show

    - Refinement: a Modbus client talking to the server over the wire behaves as
      an abstract device ([session_refinement], [operation_refinement]); a CIP
      session behaves as direct calls of the message router
      ([cip_session_refinement]), and so does the client over a dialled session
      ([client_end_to_end], [typed_write_read], [list_tags_complete],
      [pccc_words_over_cip]); clustered reads without a cache equal direct reads
      ([clustering_transparent]).
    - Totality: no input makes a handler, a connection loop (over objects that do
      not panic), the connection manager or the packet receiver crash, and the loops
      return
      ([dispatch_total], [connection_total], [eip_connection_total],
      [io_packet_total], [scanner_well_formed]).
    - Invariants under interleaving: responses reach the request they answer and
      stay, an identifier in flight is not given out again, and every [Send] returns
      its own or none ([no_crosstalk], [response_final], [responses_routed],
      [send_returns_own]); dialled sockets are closed once, an injected connection
      once by each generation ([socket_lifecycle]); hooks alternate ([reconnecting_hooks],
      [direct_once]); sessions are isolated ([session_isolation]); connections
      are accounted for ([connections_tracked]); a server's connections have an
      owner and their callbacks an order ([server_life], [stop_closes_all]), and
      nothing is served after the EtherNet/IP server's [Stop] ([eip_stop_final]);
      reads in flight are shared only within a plan ([single_flight]); the
      monitor's channels are closed once and never written to afterwards, its only
      panic is that of an oversized variance, its events keep their order
      ([monitor_safe], [events_in_order]); no connection's channel is closed twice
      ([stopchan_closed_once]).
    - Liveness: when a connection is torn down, a server, a runtime or a scanner
      stopped, the goroutines make a bounded number of moves and whoever waits for
      them returns ([sends_drain], [stop_returns], [scanner_shutdown_returns],
      [eip_stop_final]); closing a monitor gets through unless handlers wait for
      each other or for themselves ([close_completes], [handlers_deadlock]).
    - Behaviour of operations: placement, timeouts, closing, retries, exceptions,
      reads and writes of points, the read plan, Forward_Open and Forward_Close,
      tag paths and SLC addresses, the life of an I/O connection and its cyclic
      data through scanner and adapter, options and constructors, log lines, and round
      trips of the codecs, up to what a Lua script writes and reads
      ([marshal_roundtrip], [lua_write_read], [lua_tag_write_read]).
    - Programs: run against the devices modelled here, they do and print what they
      say: the I/O scanner with a positive interval drives the adapter, closes its
      connection and sees its goroutines end ([scanner_program_on_adapter]), a write through the PLC interface is confirmed
      by reading it back ([agnostic_confirms]), the probe lists the assemblies there
      are ([probe_lists_assemblies]), writes of tags and registers verify
      ([write_tag_verified], [write_registers_verified]), the tour of the data types
      succeeds on every lawful store ([demo_succeeds]), a script's coils are the
      device's ([script_coils]), and the condition monitor's verdicts are what the
      history of its inputs says, reported in turn ([conditions_meaning],
      [callbacks_alternate]).
    - Deviations, as theorems about the code as it is: desynchronisation after a
      bad header or a deadline, a wrapped cluster window, a stale cache entry, an
      exceeded client limit, an oversized assembly, an adapter that never sends, a
      subscription that cannot stop itself, a variance and an interval that panic
      ([variance_panics], [zero_interval_panics], [zero_rpi_program]), a connection served after [Stop],
      restarts that spin, a tag server whose tags cannot be reached, a [Send] that hangs
      after identifiers wrap ([send_can_hang]), a runtime started twice
      ([double_start_hangs]), a connection opened after [Shutdown]
      ([open_after_shutdown]), Lua numbers that wrap and strings that cannot be
      written ([lua_write_wraps], [lua_string_write_fails]), a documented callback
      that panics on reconnection ([documented_wiring_panics]), IPv6 addresses
      without a port ([dial_addresses]), a probe that crashes on a long device name or
      never ends ([identity_crash], [scan_endless]), strings the tag writer cannot
      write ([write_string_fails]), register values that wrap on the command line
      ([write_register_wraps]), a machine reported safe on a stale input
      ([stale_safe_to_run]), unchanged values printed as changes
      ([every_poll_printed]).

    ** Bounds and fuel

    A connection loop runs on a finite list of events; each iteration that goes
    round again consumes one, so the length of the list plus one is enough fuel
    ([loop_fuel], [conn_fuel]) and the totality theorems show that the loop ends
    by returning.  Loops over data recurse on the data.  Searching a transaction
    identifier makes the code's own 16 attempts.  Theorems about counters that
    wrap (session handles, connection identifiers) assume fewer than 2^32 steps.
    Termination of interleaved goroutines is a measure of the moves they have left
    ([work], [life_work], [scan_work]) that every move decreases.

    ** What is not modelled

    Sockets, goroutine scheduling and timers appear only through what the code
    observes of them: event streams, steps in any order, a time argument.  A
    connection's mutexes are the atomicity of the steps; data races on single fields
    are not modelled, and in two places what the code does under two locks is one
    step: [IOScanner.Close] stops a connection and takes it out of the table, and
    [Start] of [ModbusLife] reads the injected connection twice in one step after it
    has released its mutex.  Changing the
    case of an SLC address is that of ASCII letters.  Floats are their bits: conversions are exact, arithmetic on
    them (scaling of PCCC values, time-outs given in seconds) is a parameter or left
    out.  Formatting with [fmt] is written out where the text matters and a
    parameter elsewhere.  Flags of the programs are arguments of their models, and
    closing a monitor or waiting for it is, in the programs, a parameter that stands
    for the completed run modelled in [MonitorClose].  Not modelled: the Lua
    interpreter and the Lua scripts other than the condition monitor's, that
    script's periodic status line, and the loopback helper of the tests. *)

From stdpp Require Export base option list strings gmap.
From Stdlib Require Export ZArith Lia.

#[global] Open Scope Z_scope.

(** ** Errors

    Go errors as values.  A sentinel made with [errors.New] is its message, an
    error made with [fmt.Errorf] is its format string ([Wrapf] when the format
    wraps an error with [%w]; the other arguments carry no behaviour), and the
    protocol errors are the struct values the packages define. *)
Inductive error : Type :=
| EOF                                   (** io.EOF *)
| ErrUnexpectedEOF                      (** io.ErrUnexpectedEOF *)
| NetTimeout                            (** a net.Error with Timeout() = true *)
| NetClosed                             (** any other network failure *)
| CtxDone                               (** ctx.Err() of a finished context *)
| Sentinel (msg : string)
| Errorf (fmt : string)
| Wrapf (fmt : string) (wrapped : error)
| ModbusErr (FunctionCode ExceptionCode : Z)
| CipErr (Status : Z) (ExtStatus : list Z)
| PcccErr (STS ExtSTS : Z).

#[export] Instance error_EqDecision : EqDecision error.
Proof.
  unfold EqDecision, Decision. decide equality;
    match goal with |- {?x = ?y} + {_} => exact (decide (x = y)) end.
Defined.

(** ** Outcomes of a Go call: a value, an error, or a run-time panic. *)
Inductive outcome (A : Type) : Type :=
| Ok (a : A)
| Err (e : error)
| Panic.
Arguments Ok {A} a.
Arguments Err {A} e.
Arguments Panic {A}.

#[export] Instance outcome_ret : MRet outcome := fun _ a => Ok a.
#[export] Instance outcome_bind : MBind outcome := fun _ _ f m =>
  match m with Ok a => f a | Err e => Err e | Panic => Panic end.
#[export] Instance outcome_fmap : FMap outcome := fun _ _ f m =>
  match m with Ok a => Ok (f a) | Err e => Err e | Panic => Panic end.

#[export] Instance outcome_EqDecision `{EqDecision A} : EqDecision (outcome A).
Proof. solve_decision. Defined.

Definition no_panic {A} (m : outcome A) : Prop := m <> Panic.

Definition is_ok {A} (m : outcome A) : bool :=
  match m with Ok _ => true | _ => false end.

(** [mapO f l]: run [f] on the elements in order, stopping at the first error. *)
Fixpoint mapO {A B} (f : A -> outcome B) (l : list A) : outcome (list B) :=
  match l with
  | [] => Ok []
  | x :: l => y ← f x; ys ← mapO f l; Ok (y :: ys)
  end.

(** ** Machine-width integers

    Every Go integer is a [Z]; a conversion to a w-bit unsigned type is the
    reduction modulo [2^w], to a signed type the two's complement reading. *)
Definition u8 (z : Z) : Z := z mod 256.
Definition u16 (z : Z) : Z := z mod 65536.
Definition u32 (z : Z) : Z := z mod 4294967296.
Definition u64 (z : Z) : Z := z mod 18446744073709551616.
Definition i16 (z : Z) : Z := (z + 32768) mod 65536 - 32768.
Definition i32 (z : Z) : Z := (z + 2147483648) mod 4294967296 - 2147483648.

Definition is_u8 (z : Z) : Prop := 0 <= z < 256.
Definition is_u16 (z : Z) : Prop := 0 <= z < 65536.
Definition is_u32 (z : Z) : Prop := 0 <= z < 4294967296.
Definition is_i16 (z : Z) : Prop := -32768 <= z < 32768.
Definition is_i32 (z : Z) : Prop := -2147483648 <= z < 2147483648.

#[export] Instance is_u8_dec z : Decision (is_u8 z).
Proof. unfold is_u8. apply _. Defined.
#[export] Instance is_u16_dec z : Decision (is_u16 z).
Proof. unfold is_u16. apply _. Defined.
#[export] Instance is_u32_dec z : Decision (is_u32 z).
Proof. unfold is_u32. apply _. Defined.

Abbreviation bytes := (list Z) (only parsing).
Abbreviation bytes_ok := (Forall is_u8).

Definition len {A} (l : list A) : Z := Z.of_nat (length l).

(** ** Arithmetic automation *)
Ltac dlia := zify; Z.to_euclidean_division_equations; lia.
Ltac widths :=
  unfold is_u8, is_u16, is_u32, is_i16, is_i32, u8, u16, u32, u64, i16, i32, len in *.
Ltac width_lia := widths; first [lia | dlia].

(** A closed decidable proposition, by running its decision procedure. *)
Ltac decided := match goal with |- ?P => apply (bool_decide_unpack P); vm_compute; exact I end.

Create HintDb go discriminated.
Create Rewrite HintDb golen.

Lemma u8_range z : is_u8 (u8 z).
Proof. width_lia. Qed.
Lemma u16_range z : is_u16 (u16 z).
Proof. width_lia. Qed.
Lemma u32_range z : is_u32 (u32 z).
Proof. width_lia. Qed.
Lemma u8_small z : is_u8 z -> u8 z = z.
Proof. width_lia. Qed.
Lemma u16_small z : is_u16 z -> u16 z = z.
Proof. width_lia. Qed.
Lemma u32_small z : is_u32 z -> u32 z = z.
Proof. width_lia. Qed.
Lemma u8_is_u16 z : is_u8 z -> is_u16 z.
Proof. width_lia. Qed.
Lemma u16_add_l a b : u16 (u16 a + b) = u16 (a + b).
Proof. unfold u16. apply Zplus_mod_idemp_l. Qed.
#[export] Hint Resolve u8_range u16_range u32_range u8_is_u16 : go.

(** ** Outcome lemmas *)
Lemma bind_Ok {A B} (m : outcome A) (f : A -> outcome B) b :
  (m ≫= f) = Ok b <-> exists a, m = Ok a /\ f a = Ok b.
Proof.
  destruct m; unfold mbind, outcome_bind; split; try naive_solver.
Qed.

Lemma mapO_ext {A B} (f g : A -> outcome B) l :
  (forall x, x ∈ l -> f x = g x) -> mapO f l = mapO g l.
Proof.
  induction l as [|x l IH]; intros H; [done|]. simpl.
  rewrite (H x) by (apply list_elem_of_here).
  rewrite IH; [done|]. intros y Hy. apply H. by apply list_elem_of_further.
Qed.

Lemma mapO_Ok {A B} (f : A -> B) l : mapO (fun x => Ok (f x)) l = Ok (map f l).
Proof. induction l as [|x l IH]; [done|]. simpl. by rewrite IH. Qed.

Lemma mapO_total {A B} (f : A -> outcome B) (g : A -> B) l :
  (forall x, x ∈ l -> f x = Ok (g x)) -> mapO f l = Ok (map g l).
Proof. intros H. rewrite (mapO_ext f (fun x => Ok (g x)) l H). apply mapO_Ok. Qed.

Lemma NoDup_map_inj {A B} (f : A -> B) l x y :
  NoDup (map f l) -> x ∈ l -> y ∈ l -> f x = f y -> x = y.
Proof.
  induction l as [|z l IH]; simpl; intros Hn Hx Hy E; [by apply elem_of_nil in Hx|].
  apply NoDup_cons in Hn as [Hz Hn].
  apply elem_of_cons in Hx as [->|Hx], Hy as [->|Hy]; [done| | |by apply IH];
    destruct Hz; apply list_elem_of_fmap; eauto.
Qed.

(** One step of symbolic execution of an outcome computation. *)
Ltac go_bind := unfold mbind, outcome_bind; cbn [mret outcome_ret].

(** Replacing an element changes a weighted sum by the difference of the weights. *)
Lemma sum_list_insert {A} (f : A -> nat) xs : forall i x x', xs !! i = Some x ->
  (sum_list_with f (<[i := x']> xs) + f x = sum_list_with f xs + f x')%nat.
Proof.
  induction xs as [|x0 xs IH]; intros [|i] x x' E; try done; cbn in E |- *.
  - injection E as ->. lia.
  - change (@insert _ _ _ _ i x' xs) with (<[i := x']> xs). specialize (IH i x x' E). lia.
Qed.

(** ** Stateful calls: an outcome and the state it leaves, also after an error *)
Definition SM (S A : Type) : Type := S -> outcome A * S.
#[export] Instance SM_ret {S} : MRet (SM S) := fun _ a s => (Ok a, s).
#[export] Instance SM_bind {S} : MBind (SM S) := fun _ _ f m s =>
  match m s with
  | (Ok a, s') => f a s'
  | (Err e, s') => (Err e, s')
  | (Panic, s') => (Panic, s')
  end.
(** A call that does not touch the state. *)
Definition pure {S A} (m : outcome A) : SM S A := fun s => (m, s).

Lemma SM_bind_pure_Ok {S A B} (a : A) (f : A -> SM S B) s :
  (pure (Ok a) ≫= f) s = f a s.
Proof. done. Qed.
Lemma SM_bind_Ok {S A B} (m : SM S A) (f : A -> SM S B) s a s' :
  m s = (Ok a, s') -> (m ≫= f) s = f a s'.
Proof. intros E. unfold mbind, SM_bind. by rewrite E. Qed.
