(* ===== verification/Bytes.v ===== *)
(** * Byte slices, byte orders and bit packing

    The parts of the Go language and of [encoding/binary] that every codec of
    the library uses: indexing and slicing with their bounds checks,
    [BigEndian]/[LittleEndian] accessors, [io.ReadFull] on an in-memory reader,
    and the LSB-first packing of booleans into bytes that the Modbus client,
    the Modbus server and the clustering reader each write as a loop.

    A slice is the list of its elements.  Slicing is bounded by the length:
    every slice the code re-slices here was made by [make] or ends where its
    backing array ends, so its capacity is its length. *)
From S2P Require Import Prelude.

(** ** Indexing and slicing, with Go's run-time checks *)
Definition go_index {A} (l : list A) (i : Z) : outcome A :=
  if decide (0 <= i) then
    match l !! Z.to_nat i with Some x => Ok x | None => Panic end
  else Panic.

Definition go_set {A} (l : list A) (i : Z) (x : A) : outcome (list A) :=
  if decide (0 <= i < len l) then Ok (<[Z.to_nat i := x]> l) else Panic.

Definition go_slice {A} (l : list A) (i j : Z) : outcome (list A) :=
  if decide (0 <= i <= j /\ j <= len l)
  then Ok (take (Z.to_nat (j - i)) (drop (Z.to_nat i) l)) else Panic.

(** [make([]byte, n)] *)
Definition go_make (n : Z) : outcome bytes :=
  if decide (0 <= n) then Ok (replicate (Z.to_nat n) 0) else Panic.

(** [copy(l[i:i+len(bs)], bs)], which is also what a [Put] of [bs] does. *)
Definition put_at (l : bytes) (i : Z) (bs : bytes) : outcome bytes :=
  if decide (0 <= i /\ i + len bs <= len l)
  then Ok (take (Z.to_nat i) l ++ bs ++ drop (Z.to_nat (i + len bs)) l) else Panic.

(** ** Byte orders *)
Definition be16 (v : Z) : bytes := [u8 (Z.shiftr v 8); u8 v].
Definition le16 (v : Z) : bytes := [u8 v; u8 (Z.shiftr v 8)].
Definition le32 (v : Z) : bytes :=
  [u8 v; u8 (Z.shiftr v 8); u8 (Z.shiftr v 16); u8 (Z.shiftr v 24)].

Definition get_be16 (b : bytes) : outcome Z :=
  match b with b0 :: b1 :: _ => Ok (Z.lor b1 (Z.shiftl b0 8)) | _ => Panic end.
Definition get_le16 (b : bytes) : outcome Z :=
  match b with b0 :: b1 :: _ => Ok (Z.lor b0 (Z.shiftl b1 8)) | _ => Panic end.
Definition get_le32 (b : bytes) : outcome Z :=
  match b with
  | b0 :: b1 :: b2 :: b3 :: _ =>
      Ok (Z.lor (Z.lor (Z.lor b0 (Z.shiftl b1 8)) (Z.shiftl b2 16)) (Z.shiftl b3 24))
  | _ => Panic
  end.

(** [BigEndian.Uint16(l[i:j])] *)
Definition be16_at (l : bytes) (i j : Z) : outcome Z := b ← go_slice l i j; get_be16 b.

(** ** Readers

    [io.ReadFull] on a [bytes.Reader] whose unread part is [r]: a read of zero
    bytes always succeeds, an exhausted reader gives [io.EOF], a short one
    [io.ErrUnexpectedEOF]. *)
Definition read_full (n : nat) (r : bytes) : outcome (bytes * bytes) :=
  if decide (n = 0%nat) then Ok ([], r)
  else match r with
       | [] => Err EOF
       | _ => if decide (length r < n)%nat then Err ErrUnexpectedEOF
              else Ok (take n r, drop n r)
       end.

Definition read_u8 (r : bytes) : outcome (Z * bytes) :=
  '(b, r) ← read_full 1 r; v ← go_index b 0; Ok (v, r).
Definition read_be16 (r : bytes) : outcome (Z * bytes) :=
  '(b, r) ← read_full 2 r; v ← get_be16 b; Ok (v, r).
Definition read_le16 (r : bytes) : outcome (Z * bytes) :=
  '(b, r) ← read_full 2 r; v ← get_le16 b; Ok (v, r).
Definition read_le32 (r : bytes) : outcome (Z * bytes) :=
  '(b, r) ← read_full 4 r; v ← get_le32 b; Ok (v, r).

(** ** Bit packing *)

(** [int(math.Ceil(float64(n) / 8.0))] and [(n + 7) / 8]: for the counts the
    code uses (below 2^53) the quotient by 8 is exact in binary64. *)
Definition ceil8 (n : Z) : Z := (n + 7) / 8.

(** [if v { buf[off+i/8] |= 1 << uint(i%8) }] *)
Definition pack_bit (off i : Z) (v : bool) (buf : bytes) : outcome bytes :=
  if v then
    b ← go_index buf (off + i / 8);
    go_set buf (off + i / 8) (Z.lor b (u8 (Z.shiftl 1 (i mod 8))))
  else Ok buf.

(** [for i, v := range vals { ... }] over [pack_bit], resumed at index [i]. *)
Fixpoint pack_bits (off i : Z) (vals : list bool) (buf : bytes) : outcome bytes :=
  match vals with
  | [] => Ok buf
  | v :: vals => buf' ← pack_bit off i v buf; pack_bits off (i + 1) vals buf'
  end.

(** [(buf[off+i/8] >> uint(i%8)) & 1 == 1] *)
Definition unpack_bit (buf : bytes) (off i : Z) : outcome bool :=
  b ← go_index buf (off + i / 8); Ok (Z.land (Z.shiftr b (i mod 8)) 1 =? 1).

(** Reference: byte [k] of the packed form holds values [8k .. 8k+7], value
    [8k+j] in bit [j], absent values as 0. *)
Fixpoint byte_of_bits (l : list bool) : Z :=
  match l with [] => 0 | b :: l => 2 * byte_of_bits l + Z.b2z b end.
Definition bits_to_bytes (vals : list bool) : bytes :=
  map (fun k => byte_of_bits (take 8 (drop (8 * k) vals)))
      (seq 0 (Z.to_nat (ceil8 (len vals)))).

(** ** Lemmas: slices *)
Lemma len_nonneg {A} (l : list A) : 0 <= len l.
Proof. width_lia. Qed.
Lemma len_app {A} (l k : list A) : len (l ++ k) = len l + len k.
Proof. unfold len. rewrite length_app. lia. Qed.
Lemma len_cons {A} (x : A) l : len (x :: l) = 1 + len l.
Proof. unfold len. simpl. lia. Qed.
Lemma len_nil {A} : len (@nil A) = 0.
Proof. done. Qed.
Lemma len_replicate {A} n (x : A) : len (replicate n x) = Z.of_nat n.
Proof. unfold len. by rewrite length_replicate. Qed.
#[export] Hint Rewrite @len_app @len_cons @len_nil @len_replicate : golen.
Ltac lens := autorewrite with golen in *.

Lemma go_index_Some {A} (l : list A) i x :
  0 <= i -> l !! Z.to_nat i = Some x -> go_index l i = Ok x.
Proof. intros Hi Hx. unfold go_index. rewrite decide_True by done. by rewrite Hx. Qed.

Lemma go_index_in {A} (l : list A) i :
  0 <= i < len l -> exists x, l !! Z.to_nat i = Some x /\ go_index l i = Ok x.
Proof.
  intros Hi. assert (Z.to_nat i < length l)%nat as Hlt by width_lia.
  destruct (lookup_lt_is_Some_2 l _ Hlt) as [x Hx]. exists x.
  split; [done|]. apply go_index_Some; [lia|done].
Qed.

Lemma go_index_app_r {A} (l k : list A) i :
  0 <= i -> go_index (l ++ k) (len l + i) = go_index k i.
Proof.
  intros Hi. unfold go_index. pose proof (len_nonneg l).
  rewrite !decide_True by lia. rewrite lookup_app_r by width_lia.
  replace (Z.to_nat (len l + i) - length l)%nat with (Z.to_nat i) by width_lia. done.
Qed.

Lemma go_slice_mid {A} (p m s : list A) i j :
  i = len p -> j = len p + len m -> go_slice (p ++ m ++ s) i j = Ok m.
Proof.
  intros -> ->. unfold go_slice. pose proof (len_nonneg p). pose proof (len_nonneg m).
  pose proof (len_nonneg s). lens. rewrite decide_True by lia.
  replace (Z.to_nat (len p)) with (length p) by width_lia.
  rewrite drop_app_length.
  replace (Z.to_nat (len p + len m - len p)) with (length m) by width_lia.
  by rewrite take_app_length.
Qed.

Lemma go_slice_prefix {A} (m s : list A) j : j = len m -> go_slice (m ++ s) 0 j = Ok m.
Proof. intros ->. by apply (go_slice_mid [] m s). Qed.

Lemma go_slice_suffix {A} (p s : list A) i j :
  i = len p -> j = len p + len s -> go_slice (p ++ s) i j = Ok s.
Proof. intros Hi Hj. rewrite <-(app_nil_r s) at 1. by apply go_slice_mid. Qed.

Lemma put_at_mid (p m s bs : bytes) i :
  i = len p -> length m = length bs -> put_at (p ++ m ++ s) i bs = Ok (p ++ bs ++ s).
Proof.
  intros -> Hm. unfold put_at. pose proof (len_nonneg p). pose proof (len_nonneg s).
  assert (len m = len bs) by width_lia. lens. rewrite decide_True by lia.
  replace (Z.to_nat (len p)) with (length p) by width_lia.
  rewrite take_app_length. f_equal. f_equal. f_equal.
  replace (Z.to_nat (len p + len bs)) with (length p + length m)%nat by width_lia.
  rewrite app_assoc, <-length_app. apply drop_app_length.
Qed.

Lemma read_full_app n (a r : bytes) : length a = n -> read_full n (a ++ r) = Ok (a, r).
Proof.
  intros <-. unfold read_full. destruct a as [|x a]; [done|].
  rewrite decide_False by done. simpl. rewrite decide_False by (rewrite length_app; lia).
  by rewrite take_app_length, drop_app_length.
Qed.

(** ** Lemmas: byte orders *)
Lemma lor_shift_add a b n :
  0 <= n -> 0 <= a < 2 ^ n -> Z.lor a (Z.shiftl b n) = a + b * 2 ^ n.
Proof.
  intros Hn Ha. rewrite <-Z.add_nocarry_lor.
  - by rewrite Z.shiftl_mul_pow2.
  - apply Z.bits_inj'. intros k Hk. rewrite Z.land_spec, Z.bits_0.
    destruct (Z.lt_ge_cases k n) as [Hlt|Hge].
    + rewrite (Z.shiftl_spec_low b n k) by done. by rewrite andb_false_r.
    + rewrite <-(Z.mod_small a (2 ^ n)) by done.
      by rewrite Z.mod_pow2_bits_high by lia.
Qed.

Lemma be16_ok v : bytes_ok (be16 v).
Proof. repeat constructor; auto with go; apply u8_range. Qed.
Lemma le16_ok v : bytes_ok (le16 v).
Proof. repeat constructor; auto with go; apply u8_range. Qed.
Lemma le32_ok v : bytes_ok (le32 v).
Proof. repeat constructor; auto with go; apply u8_range. Qed.
Lemma length_be16 v : length (be16 v) = 2%nat.
Proof. done. Qed.
Lemma len_be16 v : len (be16 v) = 2.
Proof. done. Qed.
Lemma len_le16 v : len (le16 v) = 2.
Proof. done. Qed.
Lemma len_le32 v : len (le32 v) = 4.
Proof. done. Qed.
#[export] Hint Rewrite len_be16 len_le16 len_le32 : golen.
#[export] Hint Resolve be16_ok le16_ok le32_ok : go.

Ltac byte_arith :=
  rewrite ?lor_shift_add by (widths; lia);
  rewrite ?Z.shiftr_div_pow2 by lia; widths;
  change (2 ^ 8) with 256 in *; change (2 ^ 16) with 65536 in *;
  change (2 ^ 24) with 16777216 in *.

Lemma get_be16_be16 v r : is_u16 v -> get_be16 (be16 v ++ r) = Ok v.
Proof.
  intros Hv. unfold be16, get_be16; simpl. f_equal.
  rewrite lor_shift_add by (pose proof (u8_range v); widths; lia). byte_arith. dlia.
Qed.
Lemma get_be16_exact v : is_u16 v -> get_be16 (be16 v) = Ok v.
Proof. apply (get_be16_be16 v []). Qed.
Lemma get_le16_le16 v r : is_u16 v -> get_le16 (le16 v ++ r) = Ok v.
Proof.
  intros Hv. unfold le16, get_le16; simpl. f_equal.
  rewrite lor_shift_add by (pose proof (u8_range v); widths; lia). byte_arith. dlia.
Qed.
Lemma be16_get b0 b1 : is_u8 b0 -> is_u8 b1 -> be16 (Z.lor b1 (Z.shiftl b0 8)) = [b0; b1].
Proof.
  intros H0 H1. rewrite lor_shift_add by (widths; lia). unfold be16.
  byte_arith. repeat f_equal; dlia.
Qed.
Lemma get_be16_range b0 b1 r v :
  is_u8 b0 -> is_u8 b1 -> get_be16 (b0 :: b1 :: r) = Ok v -> is_u16 v.
Proof.
  intros H0 H1 [= <-]. rewrite lor_shift_add by (widths; lia). byte_arith. lia.
Qed.
Lemma get_le32_le32 v r : is_u32 v -> get_le32 (le32 v ++ r) = Ok v.
Proof.
  intros Hv. unfold le32, get_le32; simpl. f_equal.
  rewrite (lor_shift_add (u8 v)) by (pose proof (u8_range v); widths; lia).
  rewrite (lor_shift_add _ _ 16), (lor_shift_add _ _ 24); byte_arith; dlia.
Qed.

Lemma read_be16_be16 v r : is_u16 v -> read_be16 (be16 v ++ r) = Ok (v, r).
Proof.
  intros Hv. unfold read_be16. rewrite read_full_app by done. go_bind.
  by rewrite get_be16_exact.
Qed.
Lemma read_le16_le16 v r : is_u16 v -> read_le16 (le16 v ++ r) = Ok (v, r).
Proof.
  intros Hv. unfold read_le16. rewrite read_full_app by done. go_bind.
  rewrite <-(app_nil_r (le16 v)). by rewrite get_le16_le16.
Qed.
Lemma read_le32_le32 v r : is_u32 v -> read_le32 (le32 v ++ r) = Ok (v, r).
Proof.
  intros Hv. unfold read_le32. rewrite read_full_app by done. go_bind.
  rewrite <-(app_nil_r (le32 v)). by rewrite get_le32_le32.
Qed.
Lemma read_u8_cons b r : read_u8 (b :: r) = Ok (b, r).
Proof. unfold read_u8. change (b :: r) with ([b] ++ r). by rewrite read_full_app. Qed.

(** A computation whose only failures are those of an in-memory reader. *)
Definition io_only {A} (m : outcome A) : Prop :=
  match m with Ok _ => True | Err e => e = EOF \/ e = ErrUnexpectedEOF | Panic => False end.

Lemma io_only_bind {A B} (m : outcome A) (f : A -> outcome B) :
  io_only m -> (forall a, io_only (f a)) -> io_only (m ≫= f).
Proof. destruct m; intros Hm Hf; [apply Hf|exact Hm|done]. Qed.
Lemma read_full_io n r : io_only (read_full n r).
Proof. unfold read_full. repeat case_match; simpl; auto. Qed.
Lemma read_u8_io r : io_only (read_u8 r).
Proof. destruct r; [by left|]. by rewrite read_u8_cons. Qed.
Lemma read_le16_io r : io_only (read_le16 r).
Proof. destruct r as [|? [|??]]; simpl; auto. Qed.
Lemma read_le32_io r : io_only (read_le32 r).
Proof. destruct r as [|? [|? [|? [|??]]]]; simpl; auto. Qed.
#[export] Hint Resolve read_full_io read_u8_io read_le16_io read_le32_io : go.

(** A decoder that is a sequence of reads fails only as its reader does. *)
Ltac reads_io :=
  repeat first
    [ exact I
    | apply io_only_bind; [solve [auto with go]|intros; repeat case_match] ].

(** ** Lemmas: bit packing *)
Definition byte_at (l : bytes) (k : nat) : Z := default 0 (l !! k).
Definition val_at (vals : list bool) (k : nat) : bool := default false (vals !! k).

Lemma byte_of_bits_testbit l (j : nat) :
  Z.testbit (byte_of_bits l) (Z.of_nat j) = val_at l j.
Proof.
  unfold val_at. revert j. induction l as [|b l IH]; intros j; simpl byte_of_bits.
  - by rewrite Z.bits_0, lookup_nil.
  - destruct j as [|j].
    + apply Z.testbit_0_r.
    + rewrite Nat2Z.inj_succ, Z.testbit_succ_r by lia. apply IH.
Qed.

Lemma byte_of_bits_bound l : 0 <= byte_of_bits l < 2 ^ len l.
Proof.
  induction l as [|b l IH]; simpl; [done|]. rewrite len_cons.
  rewrite Z.pow_add_r by (pose proof (len_nonneg l); lia). destruct b; simpl; lia.
Qed.

Lemma bits_to_bytes_ok vals : bytes_ok (bits_to_bytes vals).
Proof.
  unfold bits_to_bytes. apply Forall_map, Forall_forall. intros k _.
  pose proof (byte_of_bits_bound (take 8 (drop (8 * k) vals))) as Hb. unfold is_u8.
  assert (2 ^ len (take 8 (drop (8 * k) vals)) <= 2 ^ 8); [|simpl in *; lia].
  apply Z.pow_le_mono_r; [lia|]. unfold len. rewrite length_take. lia.
Qed.

Lemma length_bits_to_bytes vals :
  length (bits_to_bytes vals) = Z.to_nat (ceil8 (len vals)).
Proof. unfold bits_to_bytes. by rewrite length_map, length_seq. Qed.

Lemma ceil8_nonneg n : 0 <= n -> 0 <= ceil8 n.
Proof. unfold ceil8. dlia. Qed.

Lemma len_bits_to_bytes vals : len (bits_to_bytes vals) = ceil8 (len vals).
Proof.
  unfold len at 1. rewrite length_bits_to_bytes.
  pose proof (ceil8_nonneg (len vals) (len_nonneg vals)). lia.
Qed.

Lemma bits_to_bytes_testbit vals (k j : nat) :
  (j < 8)%nat ->
  Z.testbit (byte_at (bits_to_bytes vals) k) (Z.of_nat j) = val_at vals (8 * k + j).
Proof.
  intros Hj. unfold byte_at, bits_to_bytes.
  destruct (decide (k < Z.to_nat (ceil8 (len vals)))%nat) as [Hk|Hk].
  - rewrite list_lookup_fmap, lookup_seq_lt by done. simpl default.
    rewrite byte_of_bits_testbit. unfold val_at.
    rewrite lookup_take_lt by done. by rewrite lookup_drop.
  - rewrite list_lookup_fmap, lookup_seq_ge by lia. simpl. rewrite Z.bits_0.
    unfold val_at. rewrite lookup_ge_None_2; [done|].
    unfold ceil8, len in *. dlia.
Qed.

(** Two byte strings of the same length with the same bits are equal. *)
Lemma bytes_ext (a b : bytes) :
  length a = length b -> bytes_ok a -> bytes_ok b ->
  (forall (k j : nat), (j < 8)%nat ->
     Z.testbit (byte_at a k) (Z.of_nat j) = Z.testbit (byte_at b k) (Z.of_nat j)) ->
  a = b.
Proof.
  intros Hl Ha Hb Hbits. apply (list_eq_same_length a b (length a)); [done..|].
  intros k x y Hk Hx Hy. apply Z.bits_inj'. intros j Hj.
  pose proof (Forall_lookup_1 _ _ _ _ Ha Hx) as Hxr.
  pose proof (Forall_lookup_1 _ _ _ _ Hb Hy) as Hyr.
  destruct (decide (j < 8)) as [Hj8|Hj8].
  - specialize (Hbits k (Z.to_nat j)). unfold byte_at in Hbits.
    rewrite Hx, Hy, Z2Nat.id in Hbits by lia. apply Hbits. lia.
  - unfold is_u8 in *. rewrite <-(Z.mod_small x (2 ^ 8)), <-(Z.mod_small y (2 ^ 8)) by lia.
    by rewrite !Z.mod_pow2_bits_high by lia.
Qed.

Lemma byte_at_insert (l : bytes) i x k :
  (i < length l)%nat -> byte_at (<[i := x]> l) k = if decide (k = i) then x else byte_at l k.
Proof.
  intros Hi. unfold byte_at. case_decide as Hk.
  - subst. by rewrite list_lookup_insert_eq.
  - by rewrite list_lookup_insert_ne.
Qed.

Lemma lor_is_u8 a b : is_u8 a -> is_u8 b -> is_u8 (Z.lor a b).
Proof.
  unfold is_u8. intros Ha Hb. split; [apply Z.lor_nonneg; lia|].
  destruct (decide (Z.lor a b = 0)) as [->|Hne]; [lia|].
  assert (Z.lor a b < 2 ^ 8); [|lia].
  apply Z.log2_lt_pow2; [pose proof (proj2 (Z.lor_nonneg a b)); lia|].
  rewrite Z.log2_lor by lia.
  assert (forall c, 0 <= c < 256 -> Z.log2 c < 8) as Hlog.
  { intros c Hc. destruct (decide (c = 0)) as [->|]; [done|]. apply Z.log2_lt_pow2; lia. }
  pose proof (Hlog a Ha). pose proof (Hlog b Hb). lia.
Qed.

Lemma bit_mask_u8 j : 0 <= j < 8 -> u8 (Z.shiftl 1 j) = 2 ^ j.
Proof.
  intros Hj. rewrite Z.shiftl_mul_pow2 by lia. rewrite Z.mul_1_l. apply u8_small.
  split; [lia|]. change 256 with (2 ^ 8). apply Z.pow_lt_mono_r; lia.
Qed.

(** What one step of the packing loop does to every bit of the buffer. *)
Lemma pack_bit_spec off i v buf :
  0 <= off -> 0 <= i -> off + i / 8 < len buf -> bytes_ok buf ->
  exists buf1, pack_bit off i v buf = Ok buf1 /\ length buf1 = length buf /\ bytes_ok buf1 /\
    forall (k j : nat), (j < 8)%nat ->
      Z.testbit (byte_at buf1 k) (Z.of_nat j) =
      Z.testbit (byte_at buf k) (Z.of_nat j) ||
      (v && bool_decide (8 * (Z.of_nat k - off) + Z.of_nat j = i)).
Proof.
  intros Hoff Hi Hidx Hok. assert (0 <= i / 8) by dlia. unfold pack_bit. destruct v.
  - set (q := Z.to_nat (off + i / 8)).
    destruct (go_index_in buf (off + i / 8)) as (b & Hb & ->); [lia|].
    fold q in Hb. go_bind. unfold go_set. rewrite decide_True by lia. fold q.
    pose proof (Forall_lookup_1 _ _ _ _ Hok Hb) as Hbr.
    pose proof (lookup_lt_Some _ _ _ Hb) as Hq.
    exists (<[q := Z.lor b (u8 (Z.shiftl 1 (i mod 8)))]> buf).
    repeat split; [by rewrite length_insert| |].
    + apply Forall_insert; [done|]. apply lor_is_u8; [done|apply u8_range].
    + intros k j Hj. rewrite byte_at_insert by done.
      rewrite bit_mask_u8 by dlia. simpl andb. case_decide as Hk.
      * subst k. unfold byte_at at 1. rewrite Hb. simpl default.
        rewrite Z.lor_spec, Z.pow2_bits_eqb by dlia. f_equal. unfold q.
        apply eq_true_iff_eq. rewrite Z.eqb_eq, bool_decide_eq_true. dlia.
      * rewrite bool_decide_false; [by rewrite orb_false_r|].
        intros Heq. apply Hk. unfold q. dlia.
  - exists buf. repeat split; auto. intros k j Hj. by rewrite orb_false_r.
Qed.

(** What a whole run of the loop does to every bit of the buffer. *)
Lemma pack_bits_inv off vals : forall i buf,
  0 <= off -> 0 <= i -> off + ceil8 (i + len vals) <= len buf -> bytes_ok buf ->
  exists buf', pack_bits off i vals buf = Ok buf' /\ length buf' = length buf /\
    bytes_ok buf' /\
    forall (k j : nat), (j < 8)%nat ->
      Z.testbit (byte_at buf' k) (Z.of_nat j) =
      Z.testbit (byte_at buf k) (Z.of_nat j) ||
      (bool_decide (i <= 8 * (Z.of_nat k - off) + Z.of_nat j) &&
       val_at vals (Z.to_nat (8 * (Z.of_nat k - off) + Z.of_nat j - i))).
Proof.
  induction vals as [|v vals IH]; intros i buf Hoff Hi Hlen Hok; simpl.
  - exists buf. repeat split; auto. intros k j Hj. unfold val_at.
    by rewrite lookup_nil, andb_false_r, orb_false_r.
  - lens. pose proof (len_nonneg vals).
    assert (off + i / 8 < len buf) as Hidx by (unfold ceil8 in *; dlia).
    destruct (pack_bit_spec off i v buf) as (buf1 & -> & Hl1 & Hok1 & Hbit1); [done..|].
    go_bind. destruct (IH (i + 1) buf1) as (buf' & -> & Hl' & Hok' & Hbit');
      [lia|lia| |done|].
    { replace (i + 1 + len vals) with (i + (1 + len vals)) by lia. unfold len in *. lia. }
    exists buf'. repeat split; [lia|done|]. intros k j Hj.
    rewrite Hbit', Hbit1 by done. rewrite <-orb_assoc. f_equal.
    set (p := 8 * (Z.of_nat k - off) + Z.of_nat j) in *.
    destruct (Z.lt_trichotomy p i) as [Hlt|[Heq|Hgt]].
    + rewrite !bool_decide_false by lia. by destruct v.
    + rewrite (bool_decide_true (p = i)), (bool_decide_true (i <= p)),
        (bool_decide_false (i + 1 <= p)) by lia.
      replace (Z.to_nat (p - i)) with 0%nat by lia. unfold val_at. simpl. by destruct v.
    + rewrite (bool_decide_false (p = i)), (bool_decide_true (i <= p)),
        (bool_decide_true (i + 1 <= p)) by lia.
      rewrite andb_false_r. simpl. unfold val_at.
      replace (Z.to_nat (p - i)) with (S (Z.to_nat (p - (i + 1)))) by lia. done.
Qed.

Lemma byte_at_app_l (a b : bytes) k : (k < length a)%nat -> byte_at (a ++ b) k = byte_at a k.
Proof. intros Hk. unfold byte_at. by rewrite lookup_app_l. Qed.
Lemma byte_at_app_r (a b : bytes) k :
  (length a <= k)%nat -> byte_at (a ++ b) k = byte_at b (k - length a).
Proof. intros Hk. unfold byte_at. by rewrite lookup_app_r. Qed.
Lemma byte_at_replicate n k : byte_at (replicate n 0) k = 0.
Proof.
  unfold byte_at. destruct (replicate n 0 !! k) eqn:E; [|done].
  by apply lookup_replicate_1 in E as [-> _].
Qed.

(** The packing loops of the library, run on a fresh buffer behind a header
    [pre], produce exactly the reference packing. *)
Lemma pack_bits_fresh (pre : bytes) vals off m :
  bytes_ok pre -> off = len pre -> m = Z.to_nat (ceil8 (len vals)) ->
  pack_bits off 0 vals (pre ++ replicate m 0) = Ok (pre ++ bits_to_bytes vals).
Proof.
  intros Hpre -> ->. pose proof (ceil8_nonneg (len vals) (len_nonneg vals)).
  destruct (pack_bits_inv (len pre) vals 0
    (pre ++ replicate (Z.to_nat (ceil8 (len vals))) 0)) as (buf & -> & Hl & Hok & Hbit).
  - apply len_nonneg.
  - lia.
  - rewrite Z.add_0_l. lens. lia.
  - apply Forall_app; split; [done|]. apply Forall_replicate. unfold is_u8; lia.
  - f_equal. apply bytes_ext; [|done| |].
    + rewrite Hl, !length_app, length_replicate, length_bits_to_bytes. done.
    + apply Forall_app; split; [done|apply bits_to_bytes_ok].
    + intros k j Hj. rewrite Hbit by done. rewrite Z.sub_0_r.
      destruct (decide (k < length pre)%nat) as [Hk|Hk].
      * rewrite !byte_at_app_l by done.
        rewrite bool_decide_false by (unfold len; lia). by rewrite orb_false_r.
      * rewrite !byte_at_app_r by lia. rewrite byte_at_replicate, Z.bits_0.
        rewrite bits_to_bytes_testbit by done.
        rewrite bool_decide_true by (unfold len; lia). simpl. f_equal. unfold len. lia.
Qed.

Lemma land1_testbit b j : 0 <= j -> (Z.land (Z.shiftr b j) 1 =? 1) = Z.testbit b j.
Proof.
  intros Hj. rewrite (Z.land_ones _ 1) by lia.
  pose proof (Z.testbit_spec' b j Hj) as Hs. rewrite Z.shiftr_div_pow2 by lia.
  change (2 ^ 1) with 2. rewrite <-Hs. by destruct (Z.testbit b j).
Qed.

(** Reading value [i] back from a packed buffer. *)
Lemma unpack_bit_packed (pre : bytes) vals off i :
  off = len pre -> 0 <= i < len vals ->
  unpack_bit (pre ++ bits_to_bytes vals) off i = Ok (val_at vals (Z.to_nat i)).
Proof.
  intros -> Hi. unfold unpack_bit. rewrite go_index_app_r by dlia.
  destruct (go_index_in (bits_to_bytes vals) (i / 8)) as (b & Hb & ->).
  { rewrite len_bits_to_bytes. unfold ceil8. dlia. }
  go_bind. rewrite land1_testbit by dlia.
  pose proof (bits_to_bytes_testbit vals (Z.to_nat (i / 8)) (Z.to_nat (i mod 8))) as H.
  unfold byte_at in H. rewrite Hb in H. simpl in H. rewrite Z2Nat.id in H by dlia.
  rewrite H by dlia. repeat f_equal. dlia.
Qed.

(** [for i := 0; i < n; i++ { values[i] = ... }] over a packed buffer. *)
Definition iota (n : Z) : list Z := map Z.of_nat (seq 0 (Z.to_nat n)).

Lemma elem_of_iota n i : i ∈ iota n <-> 0 <= i < n.
Proof.
  unfold iota. rewrite list_elem_of_fmap. split.
  - intros (k & -> & Hk%elem_of_seq). lia.
  - intros Hi. exists (Z.to_nat i). split; [lia|]. apply elem_of_seq. lia.
Qed.
Lemma len_iota n : 0 <= n -> len (iota n) = n.
Proof. intros Hn. unfold len, iota. rewrite length_map, length_seq. lia. Qed.


Lemma map_default_iota {A} (d : A) (vals : list A) :
  map (fun i => default d (vals !! Z.to_nat i)) (iota (len vals)) = vals.
Proof.
  unfold iota, len. rewrite Nat2Z.id, map_map.
  apply (list_eq_same_length _ _ (length vals)); [done|by rewrite length_map, length_seq|].
  intros k x y Hk. rewrite list_lookup_fmap, lookup_seq_lt by done. simpl.
  intros [= <-] Hy. rewrite Nat2Z.id. by rewrite Hy.
Qed.

Lemma unpack_packed (pre : bytes) vals off :
  off = len pre ->
  mapO (unpack_bit (pre ++ bits_to_bytes vals) off) (iota (len vals)) = Ok vals.
Proof.
  intros Hoff. rewrite (mapO_total _ (fun i => val_at vals (Z.to_nat i))).
  - apply f_equal, map_default_iota.
  - intros i Hi%elem_of_iota. by apply unpack_bit_packed.
Qed.

(** ** Register packing *)

(** [for i, v := range vals { PutUint16(buf[off+i*2:off+i*2+2], v) }],
    resumed at index [i]. *)
Fixpoint pack_regs (off i : Z) (vals : list Z) (buf : bytes) : outcome bytes :=
  match vals with
  | [] => Ok buf
  | v :: vals => buf' ← put_at buf (off + i * 2) (be16 v); pack_regs off (i + 1) vals buf'
  end.

(** [BigEndian.Uint16(buf[off+i*2 : off+i*2+2])] *)
Definition get_reg (buf : bytes) (off i : Z) : outcome Z :=
  b ← go_slice buf (off + i * 2) (off + i * 2 + 2); get_be16 b.

Definition regs_to_bytes (vals : list Z) : bytes := flat_map be16 vals.

Lemma len_regs_to_bytes vals : len (regs_to_bytes vals) = 2 * len vals.
Proof.
  induction vals as [|v vals IH]; [done|]. cbn [regs_to_bytes flat_map].
  fold (regs_to_bytes vals). lens. lia.
Qed.
#[export] Hint Rewrite len_bits_to_bytes len_regs_to_bytes : golen.

Lemma regs_to_bytes_ok vals : bytes_ok (regs_to_bytes vals).
Proof.
  induction vals as [|v vals IH]; [constructor|]. apply Forall_app; auto with go.
Qed.
Lemma regs_to_bytes_app a b : regs_to_bytes (a ++ b) = regs_to_bytes a ++ regs_to_bytes b.
Proof. apply flat_map_app. Qed.
#[export] Hint Resolve regs_to_bytes_ok bits_to_bytes_ok : go.

Lemma pack_regs_fresh vals : forall (pre : bytes) off i m,
  off + i * 2 = len pre -> m = (2 * length vals)%nat ->
  pack_regs off i vals (pre ++ replicate m 0) = Ok (pre ++ regs_to_bytes vals).
Proof.
  induction vals as [|v vals IH]; intros pre off i m Hoff ->; [done|].
  cbn [pack_regs length]. replace (2 * S (length vals))%nat with (2 + 2 * length vals)%nat by lia.
  rewrite replicate_add, put_at_mid by done. go_bind. rewrite app_assoc.
  rewrite (IH (pre ++ be16 v)) by (try done; lens; lia).
  by rewrite <-app_assoc.
Qed.

Lemma regs_to_bytes_split vals i v :
  vals !! i = Some v ->
  regs_to_bytes vals =
    regs_to_bytes (take i vals) ++ be16 v ++ regs_to_bytes (drop (S i) vals).
Proof.
  intros Hv. rewrite <-(take_drop_middle vals i v Hv) at 1. by rewrite regs_to_bytes_app.
Qed.

Lemma get_reg_packed (pre suf : bytes) vals off i v :
  off = len pre -> 0 <= i -> vals !! Z.to_nat i = Some v -> is_u16 v ->
  get_reg (pre ++ regs_to_bytes vals ++ suf) off i = Ok v.
Proof.
  intros -> Hi Hv Hr. unfold get_reg. rewrite (regs_to_bytes_split _ _ _ Hv).
  pose proof (lookup_lt_Some _ _ _ Hv) as Hlt.
  assert (len (take (Z.to_nat i) vals) = i) as Hli.
  { unfold len. rewrite length_take. lia. }
  rewrite <-!app_assoc, app_assoc. rewrite go_slice_mid by (lens; lia).
  go_bind. by apply get_be16_exact.
Qed.

Lemma lookup_iota {A} (vals : list A) i :
  i ∈ iota (len vals) -> exists v, vals !! Z.to_nat i = Some v /\ 0 <= i.
Proof.
  intros Hi%elem_of_iota. destruct (go_index_in vals i) as (v & Hv & _); [lia|]. eauto with lia.
Qed.

Lemma get_regs_packed (pre suf : bytes) vals off :
  off = len pre -> Forall is_u16 vals ->
  mapO (get_reg (pre ++ regs_to_bytes vals ++ suf) off) (iota (len vals)) = Ok vals.
Proof.
  intros Hoff Hok. rewrite (mapO_total _ (fun i => default 0 (vals !! Z.to_nat i))).
  - by rewrite map_default_iota.
  - intros i Hi. destruct (lookup_iota vals i Hi) as (v & Hv & H0). rewrite Hv. simpl.
    apply get_reg_packed; auto. by eapply Forall_lookup_1.
Qed.

(** ** Reading fields of a structured payload *)
Lemma be16_at_mid (p s : bytes) v i j :
  i = len p -> j = i + 2 -> is_u16 v -> be16_at (p ++ be16 v ++ s) i j = Ok v.
Proof.
  intros -> -> Hv. unfold be16_at. rewrite go_slice_mid by (lens; lia). go_bind.
  by apply get_be16_exact.
Qed.
Lemma be16_at_head (s : bytes) v : is_u16 v -> be16_at (be16 v ++ s) 0 2 = Ok v.
Proof. intros Hv. by apply (be16_at_mid [] s). Qed.
Lemma go_index_mid {A} (p s : list A) x i : i = len p -> go_index (p ++ [x] ++ s) i = Ok x.
Proof.
  intros ->. rewrite <-(Z.add_0_r (len p)). by rewrite go_index_app_r.
Qed.

(** Two leading bytes are the encoding of some 16-bit value. *)
Lemma split_be16 (l : bytes) :
  bytes_ok l -> 2 <= len l ->
  exists v r, is_u16 v /\ bytes_ok r /\ l = be16 v ++ r /\ len r = len l - 2.
Proof.
  intros Hok Hl. destruct l as [|b0 [|b1 r]]; lens; try lia.
  inversion_clear Hok as [|? ? H0 Hok']. inversion_clear Hok' as [|? ? H1 Hr].
  exists (Z.lor b1 (Z.shiftl b0 8)), r. rewrite be16_get by done.
  split; [by apply (get_be16_range b0 b1 r)|]. repeat split; [done|]. lia.
Qed.
Lemma split_byte (l : bytes) :
  bytes_ok l -> 1 <= len l -> exists b r, is_u8 b /\ bytes_ok r /\ l = [b] ++ r /\ len r = len l - 1.
Proof.
  intros Hok Hl. destruct l as [|b r]; lens; [lia|]. inversion_clear Hok.
  exists b, r. repeat split; try done; widths; lia.
Qed.

(** Bytes of a string literal *)
Definition str (s : string) : bytes :=
  map (fun a => Z.of_N (Ascii.N_of_ascii a)) (String.list_ascii_of_string s).

(** An even-length byte string is the encoding of some registers. *)
Lemma bytes_are_regs n : forall (r : bytes),
  bytes_ok r -> len r = 2 * Z.of_nat n ->
  exists vs, len vs = Z.of_nat n /\ Forall is_u16 vs /\ r = regs_to_bytes vs.
Proof.
  induction n as [|n IH]; intros r Hok Hl.
  - exists []. destruct r; [repeat split; constructor|lens; pose proof (len_nonneg r); lia].
  - destruct (split_be16 r Hok) as (v & r' & Hv & Hok' & -> & Hl'); [lia|].
    destruct (IH r' Hok') as (vs & Hvs & Hall & ->); [lia|].
    exists (v :: vs). repeat split; [lens; lia|by constructor].
Qed.

Lemma mapO_exists {A B} (P : B -> Prop) (f : A -> outcome B) l :
  (forall x, x ∈ l -> exists y, f x = Ok y /\ P y) ->
  exists ys, mapO f l = Ok ys /\ len ys = len l /\ Forall P ys.
Proof.
  induction l as [|x l IH]; intros Hf; [exists []; repeat split; constructor|].
  destruct (Hf x) as (y & Hy & Py); [apply list_elem_of_here|].
  destruct IH as (ys & Hys & Hl & Pys); [intros z Hz; apply Hf; by apply list_elem_of_further|].
  exists (y :: ys). simpl. rewrite Hy, Hys. lens. repeat split; [lia|by constructor].
Qed.

Lemma payload4 (l : bytes) :
  bytes_ok l -> len l = 4 -> exists a q, is_u16 a /\ is_u16 q /\ l = be16 a ++ be16 q.
Proof.
  intros Hok Hl. destruct (split_be16 l Hok) as (a & r & Ha & Hr & -> & Hlr); [lia|].
  destruct (split_be16 r Hr) as (q & r' & Hq & _ & -> & Hlr'); [lia|].
  exists a, q. destruct r'; [by rewrite app_nil_r|lens; pose proof (len_nonneg r'); lia].
Qed.

Lemma payload5 (l : bytes) :
  bytes_ok l -> 5 <= len l ->
  exists a q bc r, is_u16 a /\ is_u16 q /\ is_u8 bc /\ bytes_ok r /\
    l = be16 a ++ be16 q ++ [bc] ++ r /\ len r = len l - 5.
Proof.
  intros Hok Hl. destruct (split_be16 l Hok) as (a & r & Ha & Hr & -> & Hlr); [lia|].
  destruct (split_be16 r Hr) as (q & r' & Hq & Hr' & -> & Hlr'); [lia|].
  destruct (split_byte r' Hr') as (bc & r'' & Hbc & Hr'' & -> & Hlr''); [lia|].
  exists a, q, bc, r''. repeat split; try done; try (apply Ha || apply Hq || apply Hbc). lia.
Qed.
