(* ===== verification/ModbusTypes.v ===== *)
(** * Modbus data types, constants and errors

    Models [protocol/modbus/types.go], [pdu.go] and [errors.go]: the function
    and exception codes, the specification limits, the exception-bit helpers
    and the error values.  The integer types of [types.go] ([TransactionID],
    [Address], [Quantity], [FunctionCode], ...) are [Z] with the ranges
    [is_u16] and [is_u8]. *)
From S2P Require Import Prelude Bytes.

Module Fc.
Definition FuncReadCoils : Z := 0x01.
Definition FuncReadDiscreteInputs : Z := 0x02.
Definition FuncReadHoldingRegisters : Z := 0x03.
Definition FuncReadInputRegisters : Z := 0x04.
Definition FuncWriteSingleCoil : Z := 0x05.
Definition FuncWriteSingleRegister : Z := 0x06.
Definition FuncReadExceptionStatus : Z := 0x07.
Definition FuncWriteMultipleCoils : Z := 0x0F.
Definition FuncWriteMultipleRegisters : Z := 0x10.
Definition FuncReadWriteMultipleRegisters : Z := 0x17.
Definition FuncReadDeviceIdentification : Z := 0x2B.
End Fc.
Export Fc.

Module Exc.
Definition ExceptionFunctionCodeNotSupported : Z := 0x01.
Definition ExceptionDataAddressNotAvailable : Z := 0x02.
Definition ExceptionInvalidDataValue : Z := 0x03.
Definition ExceptionServerDeviceFailure : Z := 0x04.
Definition ExceptionAcknowledge : Z := 0x05.
Definition ExceptionServerDeviceBusy : Z := 0x06.
Definition ExceptionMemoryParityError : Z := 0x08.
Definition ExceptionGatewayPathUnavailable : Z := 0x0A.
Definition ExceptionGatewayTargetNoResponse : Z := 0x0B.
End Exc.
Export Exc.

Definition MEIReadDeviceID : Z := 0x0E.
Definition ReadDeviceIDBasicStream : Z := 0x01.
Definition ReadDeviceIDRegularStream : Z := 0x02.
Definition ReadDeviceIDExtendedStream : Z := 0x03.
Definition ReadDeviceIDSpecificObject : Z := 0x04.
Definition ConformityLevelBasic : Z := 0x01.
Definition MoreFollowsNo : Z := 0x00.
Definition DeviceIDVendorName : Z := 0x00.
Definition DeviceIDProductCode : Z := 0x01.
Definition DeviceIDMajorMinorRevision : Z := 0x02.
Definition DeviceIDVendorURL : Z := 0x03.
Definition DeviceIDProductName : Z := 0x04.
Definition DeviceIDModelName : Z := 0x05.
Definition DeviceIDUserAppName : Z := 0x06.

Definition TCPHeaderLength : Z := 7.
Definition MaxPDULength : Z := 253.
Definition MaxADULength : Z := 260.
Definition MaxCoilCount : Z := 2000.
Definition MaxWriteCoilCount : Z := 1968.
Definition MaxRegisterCount : Z := 125.
Definition MaxWriteRegisterCount : Z := 123.
Definition MaxReadWriteReadCount : Z := 125.
Definition MaxReadWriteWriteCount : Z := 121.
Definition CoilOnU16 : Z := 0xFF00.
Definition CoilOffU16 : Z := 0x0000.
Definition TCPProtocolIdentifier : Z := 0.
Definition ExceptionBit : Z := 0x80.

(** ** Exception-bit helpers (types.go) *)
Definition IsException (functionCode : Z) : bool :=
  negb (Z.land functionCode ExceptionBit =? 0).
Definition IsFunctionException (functionCode : Z) : bool := IsException functionCode.
Definition GetOriginalFunctionCode (exceptionCode : Z) : Z :=
  Z.land exceptionCode (u8 (Z.lnot ExceptionBit)).
Definition GetOriginalFunction (exceptionCode : Z) : Z :=
  GetOriginalFunctionCode exceptionCode.

(** ** Errors (errors.go) *)
Definition ErrNotConnected := Sentinel "client not connected".
Definition ErrAlreadyConnected := Sentinel "client already connected".
Definition ErrInvalidQuantity := Sentinel "invalid quantity".
Definition ErrInvalidRequestLength := Sentinel "invalid request length".
Definition ErrInvalidResponseLength := Sentinel "invalid response length".
Definition ErrInvalidValue := Sentinel "invalid value".
Definition ErrInvalidResponseFormat := Sentinel "invalid response format".
Definition ErrInvalidProtocolHeader := Sentinel "invalid protocol header".
Definition ErrEmptyResponse := Sentinel "empty response".
Definition ErrTransactionTimeout := Sentinel "transaction timeout".
Definition ErrTransportClosing := Sentinel "transport closing".

Definition NewModbusError (functionCode exceptionCode : Z) : error :=
  ModbusErr functionCode exceptionCode.
Definition IsModbusError (err : error) : bool :=
  match err with ModbusErr _ _ => true | _ => false end.
Definition IsExceptionError (err : error) (exceptionCode : Z) : bool :=
  match err with ModbusErr _ ec => ec =? exceptionCode | _ => false end.
Definition IsFunctionNotSupportedError (err : error) : bool :=
  IsExceptionError err ExceptionFunctionCodeNotSupported.

(** ** PDU (pdu.go) *)
Record PDU : Type := mkPDU { FunctionCode : Z; Data : bytes }.

Definition pdu_ok (p : PDU) : Prop := is_u8 (FunctionCode p) /\ bytes_ok (Data p).

(** ** Lemmas on the exception bit *)

(** Every property of a byte that can be decided holds once it has been checked
    on the 256 bytes. *)
Lemma u8_cases (P : Z -> bool) : forallb P (iota 256) = true -> forall z, is_u8 z -> P z = true.
Proof.
  intros H z Hz. rewrite forallb_forall in H. apply H, list_elem_of_In, elem_of_iota.
  unfold is_u8 in Hz. lia.
Qed.

Lemma set_exception_bit fc :
  is_u8 fc ->
  IsException (Z.lor fc ExceptionBit) = true /\ is_u8 (Z.lor fc ExceptionBit) /\
  GetOriginalFunctionCode (Z.lor fc ExceptionBit) = GetOriginalFunctionCode fc.
Proof.
  intros Hfc.
  pose proof (u8_cases (fun z => IsException (Z.lor z ExceptionBit) &&
     (Z.lor z ExceptionBit <? 256) && (0 <=? Z.lor z ExceptionBit) &&
     (GetOriginalFunctionCode (Z.lor z ExceptionBit) =? GetOriginalFunctionCode z))) as H.
  specialize (H ltac:(vm_compute; reflexivity) fc Hfc). simpl in H.
  rewrite !andb_true_iff, Z.ltb_lt, Z.leb_le, Z.eqb_eq in H. unfold is_u8. intuition lia.
Qed.

Lemma no_exception_bit fc : is_u8 fc -> IsException fc = (128 <=? fc).
Proof.
  intros Hfc. apply eqb_prop.
  exact (u8_cases (fun z => eqb (IsException z) (128 <=? z))
    ltac:(vm_compute; reflexivity) fc Hfc).
Qed.
