(* ===== verification/ModbusNames.v ===== *)
(** * Names and messages of the Modbus package

    Models the [String] methods of [protocol/modbus/types.go], the rest of its
    constants, and the messages of [errors.go].  A [switch] over constants is a
    table; formatting a byte with [%02X] and [%#x] is written out. *)
From S2P Require Import Prelude Bytes ModbusTypes.

(** ** More constants *)
Definition ConformityLevelRegular : Z := 0x02.
Definition ConformityLevelExtended : Z := 0x03.
Definition ConformityLevelBasicIndividual : Z := 0x81.
Definition ConformityLevelRegularIndividual : Z := 0x82.
Definition ConformityLevelExtendedIndividual : Z := 0x83.
Definition MoreFollowsYes : Z := 0xFF.
Definition ReadDeviceIDBasic : Z := ReadDeviceIDBasicStream.
Definition ReadDeviceIDRegular : Z := ReadDeviceIDRegularStream.
Definition ReadDeviceIDExtended : Z := ReadDeviceIDExtendedStream.
Definition ReadDeviceIDSpecific : Z := ReadDeviceIDSpecificObject.
Definition DefaultTCPPort : Z := 502.
Definition BytesPerCoil : Z := 1.
Definition BytesPerDiscreteInput : Z := 1.
Definition BytesPerRegister : Z := 2.
Definition BytesPerInputRegister : Z := 2.

(** ** Formatting a byte *)
Definition digit (base10 : Z) (n : Z) : Ascii.ascii :=
  Ascii.ascii_of_N (Z.to_N (if n <? 10 then 48 + n else base10 + n - 10)).
(** [%02X] *)
Definition hex02 (b : Z) : string :=
  String (digit 65 (b / 16)) (String (digit 65 (b mod 16)) EmptyString).
(** [%#x] *)
Definition hex0x (b : Z) : string :=
  "0x" +:+ (if b <? 16 then String (digit 97 b) EmptyString
            else String (digit 97 (b / 16)) (String (digit 97 (b mod 16)) EmptyString)).

Fixpoint named (table : list (Z * string)) (code : Z) (otherwise : string) : string :=
  match table with
  | [] => otherwise
  | (c, name) :: table => if code =? c then name else named table code otherwise
  end.

(** ** [String] methods *)
Definition ConformityLevel_String (c : Z) : string :=
  named [(ConformityLevelBasic, "Basic (stream)"); (ConformityLevelRegular, "Regular (stream)");
         (ConformityLevelExtended, "Extended (stream)");
         (ConformityLevelBasicIndividual, "Basic (stream+individual)");
         (ConformityLevelRegularIndividual, "Regular (stream+individual)");
         (ConformityLevelExtendedIndividual, "Extended (stream+individual)")]%string
    c ("Unknown(0x" +:+ hex02 c +:+ ")").

Definition MoreFollows_String (m : Z) : string :=
  named [(MoreFollowsNo, "No"); (MoreFollowsYes, "Yes")]%string m ("Unknown(0x" +:+ hex02 m +:+ ")").

Definition function_names : list (Z * string) :=
  [(FuncReadCoils, "ReadCoils"); (FuncReadDiscreteInputs, "ReadDiscreteInputs");
   (FuncReadHoldingRegisters, "ReadHoldingRegisters"); (FuncReadInputRegisters, "ReadInputRegisters");
   (FuncWriteSingleCoil, "WriteSingleCoil"); (FuncWriteSingleRegister, "WriteSingleRegister");
   (FuncReadExceptionStatus, "ReadExceptionStatus"); (FuncWriteMultipleCoils, "WriteMultipleCoils");
   (FuncWriteMultipleRegisters, "WriteMultipleRegisters");
   (FuncReadWriteMultipleRegisters, "ReadWriteMultipleRegisters");
   (FuncReadDeviceIdentification, "ReadDeviceIdentification")]%string.
(** The method calls itself on the code without the exception bit; [fuel] bounds
    the depth, [None] when it is not enough. *)
Fixpoint function_string (fuel : nat) (f : Z) : option string :=
  match fuel with
  | O => None
  | S fuel =>
      match (list_find (fun cn => f = cn.1) function_names : option (nat * (Z * string))) with
      | Some (_, (_, name)) => Some name
      | None =>
          if IsException f
          then (fun s => "Exception(" +:+ s +:+ ")") <$> function_string fuel (GetOriginalFunctionCode f)
          else Some ("Unknown(0x" +:+ hex02 f +:+ ")")
      end
  end.
Definition FunctionCode_String (f : Z) : string := default EmptyString (function_string 2 f).

Definition ExceptionCode_String (e : Z) : string :=
  named [(ExceptionFunctionCodeNotSupported, "FunctionCodeNotSupported");
         (ExceptionDataAddressNotAvailable, "DataAddressNotAvailable");
         (ExceptionInvalidDataValue, "InvalidDataValue");
         (ExceptionServerDeviceFailure, "ServerDeviceFailure");
         (ExceptionAcknowledge, "Acknowledge"); (ExceptionServerDeviceBusy, "ServerDeviceBusy");
         (ExceptionMemoryParityError, "MemoryParityError");
         (ExceptionGatewayPathUnavailable, "GatewayPathUnavailable");
         (ExceptionGatewayTargetNoResponse, "GatewayTargetNoResponse")]%string
    e ("Unknown(0x" +:+ hex02 e +:+ ")").

Definition MEIType_String (m : Z) : string :=
  named [(MEIReadDeviceID, "ReadDeviceIdentification"%string)] m ("UnknownMEIType(0x" +:+ hex02 m +:+ ")").

Definition ReadDeviceIDCode_String (c : Z) : string :=
  named [(ReadDeviceIDBasicStream, "BasicStream"); (ReadDeviceIDRegularStream, "RegularStream");
         (ReadDeviceIDExtendedStream, "ExtendedStream"); (ReadDeviceIDSpecificObject, "SpecificObject")]%string
    c ("UnknownReadDeviceIDCode(0x" +:+ hex02 c +:+ ")").

Definition DeviceIDObjectCode_String (c : Z) : string :=
  named [(DeviceIDVendorName, "VendorName"); (DeviceIDProductCode, "ProductCode");
         (DeviceIDMajorMinorRevision, "MajorMinorRevision"); (DeviceIDVendorURL, "VendorURL");
         (DeviceIDProductName, "ProductName"); (DeviceIDModelName, "ModelName");
         (DeviceIDUserAppName, "UserApplicationName")]%string
    c (if 0x80 <=? c then "ExtendedObject(0x" +:+ hex02 c +:+ ")"
       else "UnknownObject(0x" +:+ hex02 c +:+ ")").

(** The bits that are set, in order. *)
Definition status_bits (s : Z) : list Z :=
  filter (fun i => negb (Z.land s (Z.shiftl 1 i) =? 0) = true) (iota 8).
(** [%v] of a slice of one-digit numbers. *)
Fixpoint join_digits (bits : list Z) : string :=
  match bits with
  | [] => EmptyString
  | [i] => String (digit 97 i) EmptyString
  | i :: bits => String (digit 97 i) (" " +:+ join_digits bits)
  end.
Definition ExceptionStatus_String (s : Z) : string :=
  match status_bits s with
  | [] => "ExceptionStatus(None)"
  | bits => "ExceptionStatus(Bits: [" +:+ join_digits bits +:+ "], Value: 0x" +:+ hex02 s +:+ ")"
  end.

(** ** Messages (errors.go) *)
Definition ErrInvalidAddress := Sentinel "invalid address".
Definition ErrInvalidCRC := Sentinel "invalid CRC".
Definition ErrInvalidFunction := Sentinel "invalid function code".
Definition ErrTimeout := Sentinel "timeout".
Definition ErrContextCanceled := Sentinel "context canceled".
Definition ErrTooManyRegisters := Sentinel "too many registers requested".
Definition ErrTooManyCoils := Sentinel "too many coils requested".
Definition ErrResponseTooLarge := Sentinel "response too large".
Definition ErrRequestTooLarge := Sentinel "request too large".
Definition ErrServerDeviceFailure := Sentinel "server device failure".
Definition ErrNoResponse := Sentinel "no response from server".

Definition GetExceptionString (e : Z) : string :=
  named [(ExceptionFunctionCodeNotSupported, "function code not supported");
         (ExceptionDataAddressNotAvailable, "data address not available");
         (ExceptionInvalidDataValue, "invalid data value");
         (ExceptionServerDeviceFailure, "server device failure");
         (ExceptionAcknowledge, "acknowledge"); (ExceptionServerDeviceBusy, "server device busy");
         (ExceptionMemoryParityError, "memory parity error");
         (ExceptionGatewayPathUnavailable, "gateway path unavailable");
         (ExceptionGatewayTargetNoResponse, "gateway target no response")]%string
    e ("unknown exception code: " +:+ hex0x e).

(** [ModbusError.Error] *)
Definition ModbusError_Error (functionCode exceptionCode : Z) : string :=
  "modbus: exception response: function: " +:+ FunctionCode_String functionCode +:+
  ", exception code: " +:+ hex0x exceptionCode +:+ " (" +:+ GetExceptionString exceptionCode +:+ ")".

(** ** Lemmas *)
Lemma byte_in_iota b : is_u8 b -> b ∈ iota 256.
Proof. intros Hb. apply elem_of_iota. widths. lia. Qed.

(** Names that differ pairwise on all bytes are injective. *)
Lemma names_distinct (f : Z -> string) :
  NoDup (map f (iota 256)) -> forall a b, is_u8 a -> is_u8 b -> f a = f b -> a = b.
Proof.
  intros Hnd a b Ha%byte_in_iota Hb%byte_in_iota E.
  apply list_elem_of_lookup in Ha as [i Hi], Hb as [j Hj].
  assert (i = j) as ->; [|congruence]. eapply (NoDup_lookup (map f (iota 256)) i j (f a)); [done| |].
  - change (map f (iota 256)) with (f <$> iota 256). by rewrite list_lookup_fmap, Hi.
  - change (map f (iota 256)) with (f <$> iota 256). rewrite list_lookup_fmap, Hj. cbn. congruence.
Qed.

(** ** Properties *)

(** The recursion of [FunctionCode.String] ends: one call on the code without
    its exception bit is enough for every byte. *)
Theorem function_string_total f : is_u8 f -> is_Some (function_string 2 f).
Proof.
  intros Hf%byte_in_iota. revert f Hf. apply Forall_forall.
  apply (bool_decide_unpack (Forall (fun f => is_Some (function_string 2 f)) (iota 256))).
  vm_compute. exact I.
Qed.

(** A displayed code can be told from every other: the names of function codes
    (exception responses included), exception codes, object codes, conformity
    levels, access codes and the more-follows flag are injective on bytes. *)
Theorem names_injective a b :
  is_u8 a -> is_u8 b ->
  (FunctionCode_String a = FunctionCode_String b -> a = b) /\
  (ExceptionCode_String a = ExceptionCode_String b -> a = b) /\
  (DeviceIDObjectCode_String a = DeviceIDObjectCode_String b -> a = b) /\
  (ConformityLevel_String a = ConformityLevel_String b -> a = b) /\
  (ReadDeviceIDCode_String a = ReadDeviceIDCode_String b -> a = b) /\
  (MoreFollows_String a = MoreFollows_String b -> a = b).
Proof.
  intros Ha Hb. repeat split; (apply names_distinct; [|done|done]);
    match goal with |- ?P => apply (bool_decide_unpack P) end; vm_compute; exact I.
Qed.

(** The displayed exception status lists exactly the bits that are set. *)
Theorem status_bits_spec s i : is_u8 s -> i ∈ status_bits s <-> 0 <= i < 8 /\ Z.testbit s i = true.
Proof.
  intros Hs. unfold status_bits. rewrite list_elem_of_filter, elem_of_iota.
  assert (0 <= i -> (Z.land s (Z.shiftl 1 i) =? 0) = negb (Z.testbit s i)) as E.
  { intros Hi. rewrite Z.shiftl_1_l. destruct (Z.testbit s i) eqn:Et.
    - apply Z.eqb_neq. intros E. apply (f_equal (fun x => Z.testbit x i)) in E.
      rewrite Z.land_spec, Z.pow2_bits_true, Et, Z.bits_0 in E by lia. done.
    - apply Z.eqb_eq, Z.bits_inj'. intros k Hk. rewrite Z.land_spec, Z.bits_0.
      destruct (Z.eqb_spec k i) as [->|Hne]; [by rewrite Et|].
      rewrite Z.pow2_bits_false by lia. apply andb_false_r. }
  split.
  - intros [Hb Hi]. split; [lia|]. rewrite E in Hb by lia. by rewrite negb_involutive in Hb.
  - intros [Hi Hb]. split; [|lia]. rewrite E by lia. by rewrite Hb.
Qed.

Example message_illegal_address :
  ModbusError_Error 0x83 2 =
    "modbus: exception response: function: Exception(ReadHoldingRegisters), exception code: 0x2 (data address not available)"%string.
Proof. reflexivity. Qed.
Lemma function_string_total_witness : is_Some (function_string 2 0xE3).
Proof. apply (function_string_total 0xE3). decided. Defined.
Lemma names_injective_witness : FunctionCode_String 0x83 = FunctionCode_String 0x83 -> 0x83 = 0x83.
Proof. apply (names_injective 0x83 0x83); decided. Defined.
Lemma status_bits_spec_witness : 7 ∈ status_bits 0x81 <-> 0 <= 7 < 8 /\ Z.testbit 0x81 7 = true.
Proof. apply (status_bits_spec 0x81 7). decided. Defined.
