(* ===== verification/ModbusFrame.v ===== *)
(** * Modbus TCP framing: MBAP header, requests and responses

    Models [protocol/modbus/mbap.go], [request.go] and [response.go].  An ADU is
    the 7-byte MBAP header (transaction, protocol, length, unit) followed by the
    PDU; [Encode] and [Decode] work on the whole ADU. *)
From S2P Require Import Prelude Bytes ModbusTypes.

Record MBAP : Type := mkMBAP { TransactionID : Z; ProtocolID : Z; UnitID : Z }.

Definition mbap_ok (m : MBAP) : Prop :=
  is_u16 (TransactionID m) /\ is_u16 (ProtocolID m) /\ is_u8 (UnitID m).

(** [MBAP.Encode]: appends the header to the buffer; writes to a
    [bytes.Buffer] do not fail. *)
Definition MBAP_Encode (m : MBAP) (buf : bytes) (pduLength : Z) : outcome bytes :=
  let length := u16 (1 + pduLength) in
  Ok (buf ++ be16 (TransactionID m) ++ be16 (ProtocolID m) ++ be16 length ++ [u8 (UnitID m)]).

(** [MBAP.Decode]: the header, the length field and the unread rest. *)
Definition MBAP_Decode (r : bytes) : outcome (MBAP * Z * bytes) :=
  '(tid, r) ← read_be16 r;
  '(pid, r) ← read_be16 r;
  '(length, r) ← read_be16 r;
  '(unit, r) ← read_u8 r;
  Ok (mkMBAP tid pid unit, length, r).

Record Request : Type := mkRequest { req_MBAP : MBAP; req_PDU : PDU; req_Create : Z }.
Record Response : Type := mkResponse { resp_MBAP : MBAP; resp_PDU : PDU }.

Definition request_ok (r : Request) : Prop := mbap_ok (req_MBAP r) /\ pdu_ok (req_PDU r).
Definition response_ok (r : Response) : Prop := mbap_ok (resp_MBAP r) /\ pdu_ok (resp_PDU r).

#[export] Instance request_ok_dec r : Decision (request_ok r).
Proof. unfold request_ok, mbap_ok, pdu_ok. apply _. Defined.

(** [NewRequest], at clock value [now]. *)
Definition NewRequest (now unitID functionCode : Z) (data : bytes) : Request :=
  mkRequest (mkMBAP 0 TCPProtocolIdentifier unitID) (mkPDU functionCode data) now.

Definition GetTransactionID (r : Request) : Z := TransactionID (req_MBAP r).
Definition GetUnitID (r : Request) : Z := UnitID (req_MBAP r).
Definition SetTransactionID (r : Request) (id : Z) : Request :=
  mkRequest (mkMBAP id (ProtocolID (req_MBAP r)) (UnitID (req_MBAP r)))
            (req_PDU r) (req_Create r).

Definition NewResponse (transactionID unitID functionCode : Z) (data : bytes) : Response :=
  mkResponse (mkMBAP transactionID TCPProtocolIdentifier unitID) (mkPDU functionCode data).

Definition Request_Encode (r : Request) : outcome bytes :=
  buffer ← MBAP_Encode (req_MBAP r) [] (1 + len (Data (req_PDU r)));
  Ok (buffer ++ [u8 (FunctionCode (req_PDU r))] ++ Data (req_PDU r)).

(** [Request.Decode] on receiver [r]: the fields it populates on success. *)
Definition Request_Decode (r : Request) (data : bytes) : outcome Request :=
  if len data <? TCPHeaderLength then Err ErrInvalidResponseLength else
  '(m, length, buffer) ← MBAP_Decode data;
  '(functionCode, buffer) ← read_u8 buffer;
  if length <? 2 then Err ErrInvalidRequestLength else
  '(pduData, _) ← read_full (Z.to_nat (u16 (length - 2))) buffer;
  Ok (mkRequest m (mkPDU functionCode pduData) (req_Create r)).

Definition Response_Encode (r : Response) : outcome bytes :=
  buffer ← MBAP_Encode (resp_MBAP r) [] (1 + len (Data (resp_PDU r)));
  Ok (buffer ++ [u8 (FunctionCode (resp_PDU r))] ++ Data (resp_PDU r)).

Definition Response_Decode (data : bytes) : outcome Response :=
  if len data <? TCPHeaderLength then Err ErrInvalidResponseLength else
  '(m, length, buffer) ← MBAP_Decode data;
  '(functionCode, buffer) ← read_u8 buffer;
  let pduDataLength := length - 2 in
  if pduDataLength <? 0 then Err ErrInvalidResponseLength else
  '(pduData, _) ← read_full (Z.to_nat pduDataLength) buffer;
  Ok (mkResponse m (mkPDU functionCode pduData)).

Definition Response_IsException (r : Response) : bool :=
  IsFunctionException (FunctionCode (resp_PDU r)).

Definition Response_GetException (r : Response) : outcome Z :=
  if Response_IsException r && (0 <? len (Data (resp_PDU r)))
  then go_index (Data (resp_PDU r)) 0 else Ok 0.

(** [Response.ToError]: [None] is Go's nil error. *)
Definition Response_ToError (r : Response) : outcome (option error) :=
  if Response_IsException r then
    ec ← Response_GetException r;
    Ok (Some (NewModbusError (FunctionCode (resp_PDU r)) ec))
  else Ok None.

(** ** Lemmas *)

(** The bytes of an ADU. *)
Definition adu (m : MBAP) (p : PDU) : bytes :=
  be16 (TransactionID m) ++ be16 (ProtocolID m) ++ be16 (u16 (2 + len (Data p))) ++
  [u8 (UnitID m)] ++ [u8 (FunctionCode p)] ++ Data p.

Lemma Request_Encode_adu r : Request_Encode r = Ok (adu (req_MBAP r) (req_PDU r)).
Proof.
  unfold Request_Encode, MBAP_Encode, adu. go_bind. rewrite app_nil_l, <-!app_assoc.
  by replace (1 + (1 + len (Data (req_PDU r)))) with (2 + len (Data (req_PDU r))) by lia.
Qed.
Lemma Response_Encode_adu r : Response_Encode r = Ok (adu (resp_MBAP r) (resp_PDU r)).
Proof.
  unfold Response_Encode, MBAP_Encode, adu. go_bind. rewrite app_nil_l, <-!app_assoc.
  by replace (1 + (1 + len (Data (resp_PDU r)))) with (2 + len (Data (resp_PDU r))) by lia.
Qed.

Lemma len_adu m p : len (adu m p) = 8 + len (Data p).
Proof. unfold adu. lens. lia. Qed.

Lemma adu_ok m p : bytes_ok (Data p) -> bytes_ok (adu m p).
Proof.
  intros Hd. unfold adu. rewrite !Forall_app. repeat split; auto with go;
    repeat constructor; auto with go; apply u8_range.
Qed.

Lemma MBAP_Decode_adu m p r :
  mbap_ok m -> MBAP_Decode (adu m p ++ r) =
    Ok (m, u16 (2 + len (Data p)), [u8 (FunctionCode p)] ++ Data p ++ r).
Proof.
  intros (Ht & Hp & Hu). unfold MBAP_Decode, adu. rewrite <-!app_assoc.
  rewrite read_be16_be16 by done. go_bind. rewrite read_be16_be16 by done.
  rewrite read_be16_be16 by apply u16_range. simpl app at 1.
  rewrite read_u8_cons, u8_small by done. by destruct m.
Qed.

(** A frame whose PDU fits the 16-bit length field. *)
Definition frame_fits (p : PDU) : Prop := len (Data p) <= 65533.

#[export] Instance frame_fits_dec p : Decision (frame_fits p).
Proof. unfold frame_fits. apply _. Defined.

Lemma frame_length p : frame_fits p -> u16 (2 + len (Data p)) = 2 + len (Data p).
Proof.
  intros Hf. apply u16_small. unfold frame_fits in Hf. pose proof (len_nonneg (Data p)).
  unfold is_u16. lia.
Qed.

Lemma Request_Decode_adu r r0 rest :
  request_ok r -> frame_fits (req_PDU r) ->
  Request_Decode r0 (adu (req_MBAP r) (req_PDU r) ++ rest) =
    Ok (mkRequest (req_MBAP r) (req_PDU r) (req_Create r0)).
Proof.
  intros [Hm [Hfc Hd]] Hf. unfold Request_Decode. pose proof (len_nonneg rest).
  pose proof (len_nonneg (Data (req_PDU r))).
  rewrite len_app, len_adu. destruct (Z.ltb_spec (8 + len (Data (req_PDU r)) + len rest)
    TCPHeaderLength) as [Hlt|_]; [unfold TCPHeaderLength in Hlt; lia|].
  rewrite MBAP_Decode_adu by done. go_bind. simpl app at 1. rewrite read_u8_cons.
  rewrite frame_length by done. destruct (Z.ltb_spec (2 + len (Data (req_PDU r))) 2); [lia|].
  rewrite u16_small by (unfold is_u16, frame_fits in *; lia).
  rewrite read_full_app by (unfold len; lia). rewrite u8_small by done.
  by destruct (req_PDU r).
Qed.

(** A request of up to 65533 data bytes survives the wire: decoding the
    encoding of a well-formed request gives back the header and PDU it was
    built from, whatever receiver it is decoded into and whatever follows it. *)
Theorem request_roundtrip (r r0 : Request) (rest : bytes) :
  request_ok r -> frame_fits (req_PDU r) ->
  exists b, Request_Encode r = Ok b /\ len b = 8 + len (Data (req_PDU r)) /\ bytes_ok b /\
    Request_Decode r0 (b ++ rest) = Ok (mkRequest (req_MBAP r) (req_PDU r) (req_Create r0)).
Proof.
  intros Hr Hf. exists (adu (req_MBAP r) (req_PDU r)).
  split; [apply Request_Encode_adu|]. split; [apply len_adu|].
  split; [apply adu_ok, Hr|]. by apply Request_Decode_adu.
Qed.

Lemma request_roundtrip_witness :
  Request_Decode (NewRequest 9 0 0 [])
    [0x12; 0x34; 0; 0; 0; 6; 1; 3; 0; 0x6B; 0; 3; 0xEE] =
  Ok (mkRequest (mkMBAP 0x1234 0 1) (mkPDU 3 [0; 0x6B; 0; 3]) 9).
Proof.
  pose proof (request_roundtrip
    (mkRequest (mkMBAP 0x1234 0 1) (mkPDU 3 [0; 0x6B; 0; 3]) 5) (NewRequest 9 0 0 []) [0xEE])
    as (b & Hb & _ & _ & Hd).
  - decided.
  - decided.
  - vm_compute in Hb. injection Hb as <-. exact Hd.
Defined.

Lemma Response_Decode_adu m p rest :
  mbap_ok m -> pdu_ok p -> frame_fits p ->
  Response_Decode (adu m p ++ rest) = Ok (mkResponse m p).
Proof.
  intros Hm [Hfc Hd] Hf. unfold Response_Decode. pose proof (len_nonneg rest).
  pose proof (len_nonneg (Data p)). rewrite len_app, len_adu.
  destruct (Z.ltb_spec (8 + len (Data p) + len rest) TCPHeaderLength) as [Hlt|_];
    [unfold TCPHeaderLength in Hlt; lia|].
  rewrite MBAP_Decode_adu by done. go_bind. simpl app at 1. rewrite read_u8_cons.
  rewrite frame_length by done. destruct (Z.ltb_spec (2 + len (Data p) - 2) 0); [lia|].
  rewrite read_full_app by (unfold len; lia). rewrite u8_small by done. by destruct p.
Qed.
