(* ===== verification/ModbusProtocol.v ===== *)
(** * Modbus protocol handler: request generation and response parsing

    Models [protocol/modbus/protocol.go] (the [ProtocolHandler] of the client)
    and the device-identification data of [device.go].  Logging calls are left
    out: they do not influence the returned values.  The conversions between
    [[]bool] and [[]CoilValue], [[]uint16] and [[]RegisterValue] that the code
    writes as loops copy element by element between identical types. *)
From S2P Require Import Prelude Bytes ModbusTypes.

Module Handler.

Definition generateReadRequest (address quantity maxQuantity : Z) : outcome bytes :=
  if (quantity =? 0) || (maxQuantity <? quantity) then Err ErrInvalidQuantity else
  data ← go_make 4;
  data ← put_at data 0 (be16 (u16 address));
  put_at data 2 (be16 (u16 quantity)).

Definition parseBitResponse (data : bytes) (quantity : Z) : outcome (list bool) :=
  if len data =? 0 then Err ErrEmptyResponse else
  byteCount ← go_index data 0;
  if negb (len data =? byteCount + 1) then Err ErrInvalidResponseLength else
  let expectedByteCount := ceil8 quantity in
  if negb (byteCount =? expectedByteCount) then Err ErrInvalidResponseLength else
  mapO (unpack_bit data 1) (iota quantity).

Definition parseRegisterResponse (data : bytes) (quantity : Z) : outcome (list Z) :=
  if len data =? 0 then Err ErrEmptyResponse else
  byteCount ← go_index data 0;
  if negb (len data =? byteCount + 1) then Err ErrInvalidResponseLength else
  let expectedByteCount := quantity * 2 in
  if negb (byteCount =? expectedByteCount) then Err ErrInvalidResponseLength else
  mapO (get_reg data 1) (iota quantity).

Definition GenerateReadCoilsRequest (address quantity : Z) : outcome bytes :=
  generateReadRequest address quantity MaxCoilCount.
Definition ParseReadCoilsResponse (data : bytes) (quantity : Z) : outcome (list bool) :=
  values ← parseBitResponse data quantity; Ok (map (fun v => v) values).
Definition GenerateReadDiscreteInputsRequest (address quantity : Z) : outcome bytes :=
  generateReadRequest address quantity MaxCoilCount.
Definition ParseReadDiscreteInputsResponse (data : bytes) (quantity : Z) : outcome (list bool) :=
  values ← parseBitResponse data quantity; Ok (map (fun v => v) values).
Definition GenerateReadHoldingRegistersRequest (address quantity : Z) : outcome bytes :=
  generateReadRequest address quantity MaxRegisterCount.
Definition ParseReadHoldingRegistersResponse (data : bytes) (quantity : Z) : outcome (list Z) :=
  values ← parseRegisterResponse data quantity; Ok (map (fun v => v) values).
Definition GenerateReadInputRegistersRequest (address quantity : Z) : outcome bytes :=
  generateReadRequest address quantity MaxRegisterCount.
Definition ParseReadInputRegistersResponse (data : bytes) (quantity : Z) : outcome (list Z) :=
  values ← parseRegisterResponse data quantity; Ok (map (fun v => v) values).

Definition GenerateWriteSingleCoilRequest (address : Z) (value : bool) : outcome bytes :=
  data ← go_make 4;
  data ← put_at data 0 (be16 (u16 address));
  if value then put_at data 2 (be16 CoilOnU16) else put_at data 2 (be16 CoilOffU16).

(** The returned address and value accompany the error when there is one. *)
Definition ParseWriteSingleCoilResponse (data : bytes)
  : outcome (Z * bool * option error) :=
  if negb (len data =? 4) then Ok (0, false, Some ErrInvalidResponseLength) else
  address ← be16_at data 0 2;
  value ← be16_at data 2 4;
  if value =? CoilOnU16 then Ok (address, true, None)
  else if value =? CoilOffU16 then Ok (address, false, None)
  else Ok (address, false, Some (Errorf "invalid coil value: %d")).

Definition GenerateWriteSingleRegisterRequest (address value : Z) : outcome bytes :=
  data ← go_make 4;
  data ← put_at data 0 (be16 (u16 address));
  put_at data 2 (be16 value).

(** The echo parser shared by FC 0x06, 0x0F and 0x10: the two 16-bit fields. *)
Definition parse_echo (data : bytes) : outcome (Z * Z) :=
  if negb (len data =? 4) then Err ErrInvalidResponseLength else
  address ← be16_at data 0 2;
  value ← be16_at data 2 4;
  Ok (address, value).
Definition ParseWriteSingleRegisterResponse (data : bytes) : outcome (Z * Z) := parse_echo data.

Definition GenerateWriteMultipleCoilsRequest (address : Z) (values : list bool)
  : outcome bytes :=
  if (len values =? 0) || (MaxWriteCoilCount <? len values) then Err ErrInvalidQuantity else
  let byteCount := ceil8 (len values) in
  data ← go_make (5 + byteCount);
  data ← put_at data 0 (be16 (u16 address));
  data ← put_at data 2 (be16 (u16 (len values)));
  data ← go_set data 4 (u8 byteCount);
  pack_bits 5 0 values data.
Definition ParseWriteMultipleCoilsResponse (data : bytes) : outcome (Z * Z) := parse_echo data.

Definition GenerateWriteMultipleRegistersRequest (address : Z) (values : list Z)
  : outcome bytes :=
  if (len values =? 0) || (MaxWriteRegisterCount <? len values)
  then Err ErrInvalidQuantity else
  let byteCount := len values * 2 in
  data ← go_make (5 + byteCount);
  data ← put_at data 0 (be16 (u16 address));
  data ← put_at data 2 (be16 (u16 (len values)));
  data ← go_set data 4 (u8 byteCount);
  pack_regs 5 0 values data.
Definition ParseWriteMultipleRegistersResponse (data : bytes) : outcome (Z * Z) :=
  parse_echo data.

Definition GenerateReadWriteMultipleRegistersRequest
  (readAddress readQuantity writeAddress : Z) (writeValues : list Z) : outcome bytes :=
  if (readQuantity =? 0) || (MaxReadWriteReadCount <? readQuantity)
  then Err ErrInvalidQuantity else
  if (len writeValues =? 0) || (MaxReadWriteWriteCount <? len writeValues)
  then Err ErrInvalidQuantity else
  let byteCount := len writeValues * 2 in
  data ← go_make (9 + byteCount);
  data ← put_at data 0 (be16 (u16 readAddress));
  data ← put_at data 2 (be16 (u16 readQuantity));
  data ← put_at data 4 (be16 (u16 writeAddress));
  data ← put_at data 6 (be16 (u16 (len writeValues)));
  data ← go_set data 8 (u8 byteCount);
  pack_regs 9 0 writeValues data.
Definition ParseReadWriteMultipleRegistersResponse (data : bytes) (readQuantity : Z)
  : outcome (list Z) := ParseReadHoldingRegistersResponse data readQuantity.

Definition GenerateReadExceptionStatusRequest : outcome bytes := Ok [].
Definition ParseReadExceptionStatusResponse (data : bytes) : outcome Z :=
  if negb (len data =? 1) then Err ErrInvalidResponseLength else go_index data 0.

Definition GenerateReadDeviceIdentificationRequest (readDeviceIDCode objectID : Z)
  : outcome bytes :=
  if (readDeviceIDCode <? ReadDeviceIDBasicStream)
     || (ReadDeviceIDSpecificObject <? readDeviceIDCode)
  then Err ErrInvalidValue
  else Ok [u8 MEIReadDeviceID; u8 readDeviceIDCode; u8 objectID].

(** ** Device identification (device.go); a Go string is its bytes *)
Record DeviceIDObject : Type := mkObj { obj_ID : Z; obj_Length : Z; obj_Value : bytes }.
Record DeviceIdentification : Type := mkDevID {
  dev_ReadDeviceIDCode : Z; dev_ConformityLevel : Z; dev_MoreFollows : Z;
  dev_NextObjectID : Z; dev_NumberOfObjects : Z; dev_Objects : list DeviceIDObject }.

#[global] Instance DeviceIDObject_EqDecision : EqDecision DeviceIDObject.
Proof. solve_decision. Defined.
#[global] Instance DeviceIdentification_EqDecision : EqDecision DeviceIdentification.
Proof. solve_decision. Defined.

(** [GetObject]: the first object with the identifier; nil is [None]. *)
Fixpoint GetObject (objs : list DeviceIDObject) (id : Z) : option DeviceIDObject :=
  match objs with
  | [] => None
  | o :: objs => if obj_ID o =? id then Some o else GetObject objs id
  end.
(** The seven getters [GetVendorName] ... [GetUserApplicationName]. *)
Definition object_value (d : DeviceIdentification) (id : Z) : bytes :=
  match GetObject (dev_Objects d) id with Some o => obj_Value o | None => [] end.
Definition GetVendorName d := object_value d DeviceIDVendorName.
Definition GetProductCode d := object_value d DeviceIDProductCode.
Definition GetRevision d := object_value d DeviceIDMajorMinorRevision.
Definition GetVendorURL d := object_value d DeviceIDVendorURL.
Definition GetProductName d := object_value d DeviceIDProductName.
Definition GetModelName d := object_value d DeviceIDModelName.
Definition GetUserApplicationName d := object_value d DeviceIDUserAppName.

(** The object loop, [n] iterations from [offset]. *)
Fixpoint parse_objects (n : nat) (data : bytes) (offset : Z) : outcome (list DeviceIDObject) :=
  match n with
  | O => Ok []
  | S n =>
      if len data <? offset + 2 then Err ErrInvalidResponseFormat else
      objectID ← go_index data offset;
      objectLength ← go_index data (offset + 1);
      let offset := offset + 2 in
      if len data <? offset + objectLength then Err ErrInvalidResponseFormat else
      objectValue ← go_slice data offset (offset + objectLength);
      rest ← parse_objects n data (offset + objectLength);
      Ok (mkObj objectID objectLength objectValue :: rest)
  end.

Definition ParseReadDeviceIdentificationResponse (data : bytes)
  : outcome DeviceIdentification :=
  if len data <? 6 then Err ErrInvalidResponseLength else
  mei ← go_index data 0;
  if negb (mei =? MEIReadDeviceID) then Err ErrInvalidValue else
  code ← go_index data 1;
  conf ← go_index data 2;
  more ← go_index data 3;
  next ← go_index data 4;
  num ← go_index data 5;
  objs ← parse_objects (Z.to_nat num) data 6;
  Ok (mkDevID code conf more next num objs).

(** ** Lemmas: generated request payloads *)

Lemma make_app n m : 0 <= n -> 0 <= m ->
  go_make (n + m) = Ok (replicate (Z.to_nat n) 0 ++ replicate (Z.to_nat m) 0).
Proof.
  intros Hn Hm. unfold go_make. rewrite decide_True by lia.
  by rewrite Z2Nat.inj_add, replicate_add by lia.
Qed.

Lemma go_set_mid (p s : bytes) i y :
  i = len p -> go_set (p ++ replicate 1 0 ++ s) i y = Ok (p ++ [y] ++ s).
Proof.
  intros ->. change (replicate 1 0) with [0]. unfold go_set. pose proof (len_nonneg p). pose proof (len_nonneg s). lens.
  rewrite decide_True by lia. f_equal.
  replace (Z.to_nat (len p)) with (length p + 0)%nat by width_lia.
  by rewrite insert_app_r.
Qed.

(** Filling a fresh header: a [Put] at the boundary between what has been
    written and the zeroes that are left. *)
Lemma put_at_zeros (p s bs : bytes) i n k :
  i = len p -> n = (length bs + k)%nat ->
  put_at (p ++ replicate n 0 ++ s) i bs = Ok ((p ++ bs) ++ replicate k 0 ++ s).
Proof.
  intros Hi ->. rewrite replicate_add, <-app_assoc.
  rewrite put_at_mid by (try done; by rewrite length_replicate).
  by rewrite <-app_assoc.
Qed.

Lemma read_request_bytes a q max :
  0 < q <= max -> generateReadRequest a q max = Ok (be16 (u16 a) ++ be16 (u16 q)).
Proof.
  intros Hq. unfold generateReadRequest.
  destruct (Z.eqb_spec q 0), (Z.ltb_spec max q); try lia. reflexivity.
Qed.

Lemma write_coils_bytes a vs :
  0 < len vs <= MaxWriteCoilCount ->
  GenerateWriteMultipleCoilsRequest a vs =
    Ok ((be16 (u16 a) ++ be16 (u16 (len vs)) ++ [u8 (ceil8 (len vs))]) ++ bits_to_bytes vs).
Proof.
  intros Hl. unfold GenerateWriteMultipleCoilsRequest.
  destruct (Z.eqb_spec (len vs) 0), (Z.ltb_spec MaxWriteCoilCount (len vs)); try lia.
  simpl orb. cbv iota. rewrite make_app by (pose proof (ceil8_nonneg (len vs)); lia). go_bind.
  rewrite <-(app_nil_l (replicate _ _ ++ _)). change (Z.to_nat 5) with 5%nat.
  rewrite (put_at_zeros [] _ (be16 _) _ _ 3) by done.
  rewrite (put_at_zeros _ _ (be16 _) _ _ 1) by done. rewrite go_set_mid by done.
  rewrite (app_assoc _ [u8 _]), pack_bits_fresh; [|..|done|done].
  - by rewrite app_nil_l, <-!app_assoc.
  - rewrite !Forall_app. repeat split; auto with go; repeat constructor; apply u8_range.
Qed.

Lemma write_regs_bytes a vs :
  0 < len vs <= MaxWriteRegisterCount ->
  GenerateWriteMultipleRegistersRequest a vs =
    Ok ((be16 (u16 a) ++ be16 (u16 (len vs)) ++ [u8 (len vs * 2)]) ++ regs_to_bytes vs).
Proof.
  intros Hl. unfold GenerateWriteMultipleRegistersRequest.
  destruct (Z.eqb_spec (len vs) 0), (Z.ltb_spec MaxWriteRegisterCount (len vs)); try lia.
  simpl orb. cbv iota. rewrite make_app by lia. go_bind.
  rewrite <-(app_nil_l (replicate _ _ ++ _)). change (Z.to_nat 5) with 5%nat.
  rewrite (put_at_zeros [] _ (be16 _) _ _ 3) by done.
  rewrite (put_at_zeros _ _ (be16 _) _ _ 1) by done. rewrite go_set_mid by done.
  rewrite (app_assoc _ [u8 _]), pack_regs_fresh by (try done; unfold len; lia).
  by rewrite app_nil_l, <-!app_assoc.
Qed.

Lemma read_write_bytes ra rq wa vs :
  0 < rq <= MaxReadWriteReadCount -> 0 < len vs <= MaxReadWriteWriteCount ->
  GenerateReadWriteMultipleRegistersRequest ra rq wa vs =
    Ok ((be16 (u16 ra) ++ be16 (u16 rq) ++ be16 (u16 wa) ++ be16 (u16 (len vs)) ++
         [u8 (len vs * 2)]) ++ regs_to_bytes vs).
Proof.
  intros Hr Hl. unfold GenerateReadWriteMultipleRegistersRequest.
  destruct (Z.eqb_spec rq 0), (Z.ltb_spec MaxReadWriteReadCount rq); try lia.
  destruct (Z.eqb_spec (len vs) 0), (Z.ltb_spec MaxReadWriteWriteCount (len vs)); try lia.
  simpl orb. cbv iota. rewrite make_app by lia. go_bind.
  rewrite <-(app_nil_l (replicate _ _ ++ _)). change (Z.to_nat 9) with 9%nat.
  rewrite (put_at_zeros [] _ (be16 _) _ _ 7) by done.
  rewrite (put_at_zeros _ _ (be16 _) _ _ 5) by done.
  rewrite (put_at_zeros _ _ (be16 _) _ _ 3) by done.
  rewrite (put_at_zeros _ _ (be16 _) _ _ 1) by done. rewrite go_set_mid by done.
  rewrite (app_assoc _ [u8 _]), pack_regs_fresh by (try done; unfold len; lia).
  by rewrite app_nil_l, <-!app_assoc.
Qed.

(** ** Lemmas: parsing what a server packed *)

Lemma parse_bits_packed vs q :
  q = len vs -> q <= MaxCoilCount ->
  parseBitResponse ([u8 (ceil8 q)] ++ bits_to_bytes vs) q = Ok vs.
Proof.
  intros -> Hq. unfold parseBitResponse, MaxCoilCount in *.
  pose proof (len_nonneg vs). pose proof (ceil8_nonneg (len vs)).
  assert (ceil8 (len vs) <= 250) by (unfold ceil8; dlia).
  rewrite u8_small by (unfold is_u8; lia). lens.
  destruct (Z.eqb_spec (1 + 0 + ceil8 (len vs)) 0); [lia|]. cbn [go_index]. go_bind. simpl.
  destruct (Z.eqb_spec (1 + 0 + ceil8 (len vs)) (ceil8 (len vs) + 1)); [|lia].
  rewrite Z.eqb_refl. simpl negb. cbv iota. by apply (unpack_packed [ceil8 (len vs)]).
Qed.

Lemma parse_regs_packed vs q :
  q = len vs -> q <= MaxRegisterCount -> Forall is_u16 vs ->
  parseRegisterResponse ([u8 (q * 2)] ++ regs_to_bytes vs) q = Ok vs.
Proof.
  intros -> Hq Hok. unfold parseRegisterResponse, MaxRegisterCount in *.
  pose proof (len_nonneg vs). rewrite u8_small by (unfold is_u8; lia). lens.
  destruct (Z.eqb_spec (1 + 0 + 2 * len vs) 0); [lia|]. cbn [go_index]. go_bind. simpl.
  destruct (Z.eqb_spec (1 + 0 + 2 * len vs) (len vs * 2 + 1)); [|lia].
  rewrite Z.eqb_refl. simpl negb. cbv iota.
  rewrite <-(app_nil_r (regs_to_bytes vs)). by apply (get_regs_packed [len vs * 2] []).
Qed.

Lemma parse_echo_bytes a v :
  is_u16 a -> is_u16 v -> parse_echo (be16 a ++ be16 v) = Ok (a, v).
Proof.
  intros Ha Hv. unfold parse_echo. lens. simpl Z.add. simpl Z.eqb. simpl negb. cbv iota.
  rewrite be16_at_head by done. go_bind.
  rewrite <-(app_nil_r (be16 v)). by rewrite be16_at_mid.
Qed.

End Handler.
