(* ===== verification/ModbusStore.v ===== *)
(** * The Modbus data store: interface, abstract memory, in-memory store

    Models [protocol/modbus/datastore.go].  [DataStore] is the Go interface a
    server is backed by; [DataStoreLaws] is what the rest of the development
    relies on, stated against an abstract Modbus memory ([Memory], four total
    functions on 16-bit addresses); [MemoryStore] is the map-backed
    implementation and its instance discharges the laws.  The mutex of
    [MemoryStore] makes each operation atomic: an operation is one function. *)
From S2P Require Import Prelude Bytes ModbusTypes.

(** ** The interface *)
Class DataStore (S : Type) : Type := {
  ReadCoils : Z -> Z -> S -> outcome (list bool) * S;
  ReadDiscreteInputs : Z -> Z -> S -> outcome (list bool) * S;
  ReadHoldingRegisters : Z -> Z -> S -> outcome (list Z) * S;
  ReadInputRegisters : Z -> Z -> S -> outcome (list Z) * S;
  WriteSingleCoil : Z -> bool -> S -> outcome unit * S;
  WriteSingleRegister : Z -> Z -> S -> outcome unit * S;
  WriteMultipleCoils : Z -> list bool -> S -> outcome unit * S;
  WriteMultipleRegisters : Z -> list Z -> S -> outcome unit * S
}.

(** ** Abstract memory *)
Record Memory : Type := mkMem {
  coil : Z -> bool; discrete : Z -> bool; holding : Z -> Z; input : Z -> Z }.

(** Memories are compared on the 16-bit addresses only. *)
Definition mem_equiv (m n : Memory) : Prop :=
  forall a, is_u16 a -> coil m a = coil n a /\ discrete m a = discrete n a /\
                        holding m a = holding n a /\ input m a = input n a.
#[export] Instance mem_Equiv : Equiv Memory := mem_equiv.
#[export] Instance mem_Equivalence : Equivalence (≡@{Memory}).
Proof.
  split.
  - intros m a _. auto.
  - intros m n H a Ha. destruct (H a Ha) as (? & ? & ? & ?). auto.
  - intros m n o H1 H2 a Ha. destruct (H1 a Ha) as (-> & -> & -> & ->). by apply H2.
Qed.

(** [q] consecutive cells from [a], wrapping at the end of the address space. *)
Definition cells {A} (f : Z -> A) (a q : Z) : list A := map (fun i => f (u16 (a + i))) (iota q).

(** The cells from [a] replaced by [vs]. *)
Definition write_cells {A} (f : Z -> A) (a : Z) (vs : list A) : Z -> A :=
  fun x => default (f x) (vs !! Z.to_nat (u16 (x - a))).

Definition write_coils (m : Memory) a vs :=
  mkMem (write_cells (coil m) a vs) (discrete m) (holding m) (input m).
Definition write_holding (m : Memory) a vs :=
  mkMem (coil m) (discrete m) (write_cells (holding m) a vs) (input m).

#[export] Instance write_holding_Proper : Proper ((≡) ==> (=) ==> (=) ==> (≡)) write_holding.
Proof.
  intros m n H a _ <- vs _ <- x Hx. destruct (H x Hx) as (? & ? & Hh & ?).
  simpl. unfold write_cells. rewrite Hh. auto.
Qed.
#[export] Instance write_coils_Proper : Proper ((≡) ==> (=) ==> (=) ==> (≡)) write_coils.
Proof.
  intros m n H a _ <- vs _ <- x Hx. destruct (H x Hx) as (Hh & ? & ? & ?).
  simpl. unfold write_cells. rewrite Hh. auto.
Qed.

(** ** What a store promises *)
Class DataStoreLaws (S : Type) `{DataStore S} : Type := {
  store_ok : S -> Prop;
  view : S -> Memory;
  view_u16 : forall s a, store_ok s -> is_u16 (holding (view s) a) /\ is_u16 (input (view s) a);
  ReadCoils_spec : forall s a q, store_ok s -> 0 < q <= MaxCoilCount ->
    ReadCoils a q s = (Ok (cells (coil (view s)) a q), s);
  ReadDiscreteInputs_spec : forall s a q, store_ok s -> 0 < q <= MaxCoilCount ->
    ReadDiscreteInputs a q s = (Ok (cells (discrete (view s)) a q), s);
  ReadHoldingRegisters_spec : forall s a q, store_ok s -> 0 < q <= MaxRegisterCount ->
    ReadHoldingRegisters a q s = (Ok (cells (holding (view s)) a q), s);
  ReadInputRegisters_spec : forall s a q, store_ok s -> 0 < q <= MaxRegisterCount ->
    ReadInputRegisters a q s = (Ok (cells (input (view s)) a q), s);
  WriteSingleCoil_spec : forall s a v, store_ok s -> is_u16 a ->
    exists s', WriteSingleCoil a v s = (Ok tt, s') /\ store_ok s' /\
      view s' ≡ write_coils (view s) a [v];
  WriteSingleRegister_spec : forall s a v, store_ok s -> is_u16 a -> is_u16 v ->
    exists s', WriteSingleRegister a v s = (Ok tt, s') /\ store_ok s' /\
      view s' ≡ write_holding (view s) a [v];
  WriteMultipleCoils_spec : forall s a vs, store_ok s -> is_u16 a ->
    0 < len vs <= MaxWriteCoilCount ->
    exists s', WriteMultipleCoils a vs s = (Ok tt, s') /\ store_ok s' /\
      view s' ≡ write_coils (view s) a vs;
  WriteMultipleRegisters_spec : forall s a vs, store_ok s -> is_u16 a ->
    0 < len vs <= MaxWriteRegisterCount -> Forall is_u16 vs ->
    exists s', WriteMultipleRegisters a vs s = (Ok tt, s') /\ store_ok s' /\
      view s' ≡ write_holding (view s) a vs
}.

(** ** Lemmas on cells *)
Lemma len_cells {A} (f : Z -> A) a q : 0 <= q -> len (cells f a q) = q.
Proof. intros Hq. unfold cells, len. rewrite length_map. by apply len_iota. Qed.

Lemma cells_ext {A} (f g : Z -> A) a q :
  (forall x, is_u16 x -> f x = g x) -> cells f a q = cells g a q.
Proof. intros H. unfold cells. apply map_ext. intros i. apply H, u16_range. Qed.

Lemma cells_Forall {A} (P : A -> Prop) f a q : (forall x, P (f x)) -> Forall P (cells f a q).
Proof. intros H. unfold cells. apply Forall_map, Forall_forall. intros i _. apply H. Qed.

(** Reading back exactly what was written. *)
Lemma cells_write_same {A} (f : Z -> A) a vs :
  len vs <= 65536 -> cells (write_cells f a vs) a (len vs) = vs.
Proof.
  intros Hl. unfold cells. destruct vs as [|d vs'] eqn:E; [done|]. rewrite <-E in *. clear E.
  etransitivity; [|apply (map_default_iota d vs)]. apply map_ext_in.
  intros i Hi%list_elem_of_In%elem_of_iota. unfold write_cells.
  replace (u16 (u16 (a + i) - a)) with i by (widths; dlia).
  destruct (go_index_in vs i) as (v & -> & _); [lia|]. done.
Qed.

(** Cells outside the written range keep their value. *)
Lemma write_cells_other {A} (f : Z -> A) a vs x :
  len vs <= u16 (x - a) -> write_cells f a vs x = f x.
Proof. intros H. unfold write_cells. rewrite lookup_ge_None_2; [done|]. unfold len in H. lia. Qed.

(** ** MemoryStore *)
Record MemoryStore : Type := mkStore {
  coils : gmap Z bool;
  discreteInputs : gmap Z bool;
  holdingRegisters : gmap Z Z;
  inputRegisters : gmap Z Z }.

Definition NewMemoryStore : MemoryStore := mkStore ∅ ∅ ∅ ∅.

(** The read loop: addresses absent from the map keep the zero value. *)
Definition map_read {A} (zero : A) (m : gmap Z A) (address quantity : Z) : list A :=
  map (fun i => let addr := u16 (address + u16 i) in
                match m !! addr with Some value => value | None => zero end)
      (iota quantity).

(** The write loop, resumed at index [i]. *)
Fixpoint map_write {A} (m : gmap Z A) (address i : Z) (values : list A) : gmap Z A :=
  match values with
  | [] => m
  | value :: values =>
      let addr := u16 (address + u16 i) in
      map_write (<[addr := value]> m) address (i + 1) values
  end.

Module Mem.
Definition ReadCoils (address quantity : Z) (s : MemoryStore)
  : outcome (list bool) * MemoryStore :=
  if (quantity =? 0) || (MaxCoilCount <? quantity) then (Err ErrInvalidQuantity, s)
  else (Ok (map_read false (coils s) address quantity), s).
Definition ReadDiscreteInputs (address quantity : Z) (s : MemoryStore)
  : outcome (list bool) * MemoryStore :=
  if (quantity =? 0) || (MaxCoilCount <? quantity) then (Err ErrInvalidQuantity, s)
  else (Ok (map_read false (discreteInputs s) address quantity), s).
Definition ReadHoldingRegisters (address quantity : Z) (s : MemoryStore)
  : outcome (list Z) * MemoryStore :=
  if (quantity =? 0) || (MaxRegisterCount <? quantity) then (Err ErrInvalidQuantity, s)
  else (Ok (map_read 0 (holdingRegisters s) address quantity), s).
Definition ReadInputRegisters (address quantity : Z) (s : MemoryStore)
  : outcome (list Z) * MemoryStore :=
  if (quantity =? 0) || (MaxRegisterCount <? quantity) then (Err ErrInvalidQuantity, s)
  else (Ok (map_read 0 (inputRegisters s) address quantity), s).

Definition SetCoil (address : Z) (value : bool) (s : MemoryStore) : MemoryStore :=
  mkStore (<[address := value]> (coils s)) (discreteInputs s) (holdingRegisters s)
          (inputRegisters s).
Definition SetDiscreteInput (address : Z) (value : bool) (s : MemoryStore) : MemoryStore :=
  mkStore (coils s) (<[address := value]> (discreteInputs s)) (holdingRegisters s)
          (inputRegisters s).
Definition SetHoldingRegister (address value : Z) (s : MemoryStore) : MemoryStore :=
  mkStore (coils s) (discreteInputs s) (<[address := value]> (holdingRegisters s))
          (inputRegisters s).
Definition SetInputRegister (address value : Z) (s : MemoryStore) : MemoryStore :=
  mkStore (coils s) (discreteInputs s) (holdingRegisters s)
          (<[address := value]> (inputRegisters s)).

(** The getters return the value and whether the address is present. *)
Definition GetCoil (address : Z) (s : MemoryStore) : bool * bool :=
  match coils s !! address with Some v => (v, true) | None => (false, false) end.
Definition GetDiscreteInput (address : Z) (s : MemoryStore) : bool * bool :=
  match discreteInputs s !! address with Some v => (v, true) | None => (false, false) end.
Definition GetHoldingRegister (address : Z) (s : MemoryStore) : Z * bool :=
  match holdingRegisters s !! address with Some v => (v, true) | None => (0, false) end.
Definition GetInputRegister (address : Z) (s : MemoryStore) : Z * bool :=
  match inputRegisters s !! address with Some v => (v, true) | None => (0, false) end.

Definition WriteSingleCoil (address : Z) (value : bool) (s : MemoryStore)
  : outcome unit * MemoryStore :=
  (Ok tt, mkStore (<[address := value]> (coils s)) (discreteInputs s)
                  (holdingRegisters s) (inputRegisters s)).
Definition WriteSingleRegister (address value : Z) (s : MemoryStore)
  : outcome unit * MemoryStore :=
  (Ok tt, mkStore (coils s) (discreteInputs s)
                  (<[address := value]> (holdingRegisters s)) (inputRegisters s)).
Definition WriteMultipleCoils (address : Z) (values : list bool) (s : MemoryStore)
  : outcome unit * MemoryStore :=
  if (len values =? 0) || (MaxWriteCoilCount <? len values)
  then (Err ErrInvalidQuantity, s)
  else (Ok tt, mkStore (map_write (coils s) address 0 values) (discreteInputs s)
                       (holdingRegisters s) (inputRegisters s)).
Definition WriteMultipleRegisters (address : Z) (values : list Z) (s : MemoryStore)
  : outcome unit * MemoryStore :=
  if (len values =? 0) || (MaxWriteRegisterCount <? len values)
  then (Err ErrInvalidQuantity, s)
  else (Ok tt, mkStore (coils s) (discreteInputs s)
                       (map_write (holdingRegisters s) address 0 values)
                       (inputRegisters s)).
End Mem.

#[export] Instance MemoryStore_DataStore : DataStore MemoryStore := {
  ReadCoils := Mem.ReadCoils;
  ReadDiscreteInputs := Mem.ReadDiscreteInputs;
  ReadHoldingRegisters := Mem.ReadHoldingRegisters;
  ReadInputRegisters := Mem.ReadInputRegisters;
  WriteSingleCoil := Mem.WriteSingleCoil;
  WriteSingleRegister := Mem.WriteSingleRegister;
  WriteMultipleCoils := Mem.WriteMultipleCoils;
  WriteMultipleRegisters := Mem.WriteMultipleRegisters }.

(** The type invariant of the register maps and the memory a store stands for. *)
Definition mstore_ok (s : MemoryStore) : Prop :=
  map_Forall (fun _ v => is_u16 v) (holdingRegisters s) /\
  map_Forall (fun _ v => is_u16 v) (inputRegisters s).
Definition mview (s : MemoryStore) : Memory :=
  mkMem (fun a => default false (coils s !! a)) (fun a => default false (discreteInputs s !! a))
        (fun a => default 0 (holdingRegisters s !! a))
        (fun a => default 0 (inputRegisters s !! a)).

Lemma map_read_cells {A} (zero : A) m a q :
  q <= 65536 -> map_read zero m a q = cells (fun x => default zero (m !! x)) a q.
Proof.
  intros Hq. unfold map_read, cells. apply map_ext_in.
  intros i Hi%list_elem_of_In%elem_of_iota. rewrite (u16_small i) by (unfold is_u16; lia). done.
Qed.

(** What the write loop leaves at each 16-bit address. *)
Lemma map_write_lookup {A} vs : forall (m : gmap Z A) a i x,
  0 <= i -> i + len vs <= 65536 -> is_u16 x -> is_u16 a ->
  map_write m a i vs !! x =
    if decide (i <= u16 (x - a) < i + len vs)
    then vs !! Z.to_nat (u16 (x - a) - i) else m !! x.
Proof.
  induction vs as [|v vs IH]; intros m a i x Hi Hl Hx Ha; cbn [map_write].
  - rewrite decide_False by (rewrite len_nil; lia). done.
  - rewrite len_cons in Hl. pose proof (len_nonneg vs).
    rewrite IH by (done || lia). rewrite len_cons.
    rewrite (u16_small i) by (unfold is_u16; lia).
    destruct (decide (u16 (x - a) = i)) as [Heq|Hne].
    + replace (u16 (a + i)) with x by (subst i; widths; dlia).
      rewrite (decide_False (P := i + 1 <= _ < _)) by lia. rewrite decide_True by lia.
      rewrite lookup_insert_eq, Heq, Z.sub_diag. done.
    + rewrite lookup_insert_ne by (intros E; apply Hne; subst x; widths; dlia).
      repeat case_decide; try lia; [|done].
      replace (Z.to_nat (u16 (x - a) - i)) with (S (Z.to_nat (u16 (x - a) - (i + 1)))) by lia.
      done.
Qed.

Lemma map_write_view {A} (d : A) m a vs x :
  len vs <= 65536 -> is_u16 x -> is_u16 a ->
  default d (map_write m a 0 vs !! x) =
    write_cells (fun y => default d (m !! y)) a vs x.
Proof.
  intros Hl Hx Ha. rewrite map_write_lookup by (done || lia). unfold write_cells.
  rewrite Z.sub_0_r, Z.add_0_l. pose proof (u16_range (x - a)) as Hr. unfold is_u16 in Hr.
  case_decide as Hd.
  - destruct (go_index_in vs (u16 (x - a))) as (v & -> & _); [lia|]. done.
  - rewrite (lookup_ge_None_2 vs); [done|]. unfold len in *. lia.
Qed.

Lemma map_write_Forall {A} (P : A -> Prop) vs : forall m a i,
  Forall P vs -> map_Forall (fun (_ : Z) v => P v) m ->
  map_Forall (fun _ v => P v) (map_write m a i vs).
Proof.
  induction vs as [|v vs IH]; intros m a i Hvs Hm; [done|]. inversion_clear Hvs.
  cbn [map_write]. apply IH; [done|]. by apply map_Forall_insert_2.
Qed.

Lemma insert_view {A} (d : A) (m : gmap Z A) a v x :
  is_u16 x -> is_u16 a ->
  default d (<[a := v]> m !! x) = write_cells (fun y => default d (m !! y)) a [v] x.
Proof.
  intros Hx Ha. unfold write_cells. destruct (decide (a = x)) as [->|Hne].
  - rewrite lookup_insert_eq, Z.sub_diag. done.
  - rewrite lookup_insert_ne by done. rewrite (lookup_ge_None_2 [v]); [done|]. simpl.
    widths. dlia.
Qed.

Lemma map_default_u16 (m : gmap Z Z) a :
  map_Forall (fun _ v => is_u16 v) m -> is_u16 (default 0 (m !! a)).
Proof.
  intros H. destruct (m !! a) eqn:E; [by apply (H a)|]. simpl. unfold is_u16; lia.
Qed.

Ltac quantity_ok :=
  match goal with
  | |- context [(?q =? 0) || (?m <? ?q)] =>
      destruct (Z.eqb_spec q 0), (Z.ltb_spec m q); try lia; cbn [orb]; cbv iota
  end.

#[export] Instance MemoryStore_Laws : DataStoreLaws MemoryStore.
Proof.
  refine (Build_DataStoreLaws MemoryStore _ mstore_ok mview _ _ _ _ _ _ _ _ _).
  - intros s a [Hh Hi]. split; by apply map_default_u16.
  - intros s a q _ Hq. cbn. unfold Mem.ReadCoils. quantity_ok. unfold MaxCoilCount in Hq.
    by rewrite map_read_cells by lia.
  - intros s a q _ Hq. cbn. unfold Mem.ReadDiscreteInputs. quantity_ok.
    unfold MaxCoilCount in Hq. by rewrite map_read_cells by lia.
  - intros s a q _ Hq. cbn. unfold Mem.ReadHoldingRegisters. quantity_ok.
    unfold MaxRegisterCount in Hq. by rewrite map_read_cells by lia.
  - intros s a q _ Hq. cbn. unfold Mem.ReadInputRegisters. quantity_ok.
    unfold MaxRegisterCount in Hq. by rewrite map_read_cells by lia.
  - intros s a v Hs Ha. eexists. split; [reflexivity|]. split; [exact Hs|].
    intros x Hx. cbn. by rewrite insert_view.
  - intros s a v [Hh Hi] Ha Hv. eexists. split; [reflexivity|].
    split; [split; [by apply map_Forall_insert_2|done]|].
    intros x Hx. cbn. by rewrite insert_view.
  - intros s a vs Hs Ha Hl. cbn. unfold Mem.WriteMultipleCoils. quantity_ok. eexists.
    split; [reflexivity|]. split; [exact Hs|]. unfold MaxWriteCoilCount in Hl.
    intros x Hx. cbn. by rewrite map_write_view by (done || lia).
  - intros s a vs [Hh Hi] Ha Hl Hvs. cbn. unfold Mem.WriteMultipleRegisters. quantity_ok.
    eexists. split; [reflexivity|]. split; [split; [by apply map_write_Forall|done]|].
    unfold MaxWriteRegisterCount in Hl.
    intros x Hx. cbn. by rewrite map_write_view by (done || lia).
Defined.
