(* ===== verification/ModbusHandlers.v ===== *)
(** * The Modbus server's protocol handlers

    Models [protocol/modbus/server_protocol.go]: for each function code, the
    validation of the request payload, the call into the [DataStore], the
    translation of store errors into exceptions and the response encoding.
    Handlers are stateful calls on the store. *)
From S2P Require Import Prelude Bytes ModbusTypes ModbusFrame ModbusProtocol ModbusStore.

Section Handlers.
Context {S : Type} `{DataStore S}.

Definition fc_of (req : Request) : Z := FunctionCode (req_PDU req).
Definition data_of (req : Request) : bytes := Data (req_PDU req).

(** [return nil, NewModbusError(req.GetPDU().FunctionCode, ec)] *)
Definition except {A} (req : Request) (ec : Z) : SM S A :=
  pure (Err (NewModbusError (fc_of req) ec)).

(** [if err == ErrInvalidQuantity { ... } return ... ServerDeviceFailure] *)
Definition store_err {A} (req : Request) (m : SM S A) : SM S A := fun s =>
  match m s with
  | (Err e, s') =>
      if decide (e = ErrInvalidQuantity) then except req ExceptionInvalidDataValue s'
      else except req ExceptionServerDeviceFailure s'
  | r => r
  end.

(** The single-cell writes map every store error to a device failure. *)
Definition store_failure {A} (req : Request) (m : SM S A) : SM S A := fun s =>
  match m s with (Err _, s') => except req ExceptionServerDeviceFailure s' | r => r end.

(** [NewResponse(req.GetTransactionID(), req.GetUnitID(), fc, data)] *)
Definition reply (req : Request) (data : bytes) : Response :=
  NewResponse (GetTransactionID req) (GetUnitID req) (fc_of req) data.

Definition handleReadBitValues (req : Request) (maxQuantity : Z)
  (readFunc : Z -> Z -> SM S (list bool)) : SM S Response :=
  if negb (len (data_of req) =? 4) then except req ExceptionInvalidDataValue else
  address ← pure (be16_at (data_of req) 0 2);
  quantity ← pure (be16_at (data_of req) 2 4);
  if (quantity =? 0) || (maxQuantity <? quantity)
  then except req ExceptionInvalidDataValue else
  values ← store_err req (readFunc address quantity);
  let byteCount := ceil8 quantity in
  responseData ← pure (go_make (1 + byteCount));
  responseData ← pure (go_set responseData 0 (u8 byteCount));
  responseData ← pure (pack_bits 1 0 values responseData);
  mret (reply req responseData).

Definition handleReadRegisterValues (req : Request) (maxQuantity : Z)
  (readFunc : Z -> Z -> SM S (list Z)) : SM S Response :=
  if negb (len (data_of req) =? 4) then except req ExceptionInvalidDataValue else
  address ← pure (be16_at (data_of req) 0 2);
  quantity ← pure (be16_at (data_of req) 2 4);
  if (quantity =? 0) || (maxQuantity <? quantity)
  then except req ExceptionInvalidDataValue else
  values ← store_err req (readFunc address quantity);
  let byteCount := len values * 2 in
  responseData ← pure (go_make (1 + byteCount));
  responseData ← pure (go_set responseData 0 (u8 byteCount));
  responseData ← pure (pack_regs 1 0 values responseData);
  mret (reply req responseData).

Definition HandleReadCoils (req : Request) : SM S Response :=
  handleReadBitValues req MaxCoilCount ReadCoils.
Definition HandleReadDiscreteInputs (req : Request) : SM S Response :=
  handleReadBitValues req MaxCoilCount ReadDiscreteInputs.
Definition HandleReadHoldingRegisters (req : Request) : SM S Response :=
  handleReadRegisterValues req MaxRegisterCount ReadHoldingRegisters.
Definition HandleReadInputRegisters (req : Request) : SM S Response :=
  handleReadRegisterValues req MaxRegisterCount ReadInputRegisters.

Definition HandleWriteSingleCoil (req : Request) : SM S Response :=
  if negb (len (data_of req) =? 4) then except req ExceptionInvalidDataValue else
  address ← pure (be16_at (data_of req) 0 2);
  value ← pure (be16_at (data_of req) 2 4);
  coilValue ← (if value =? CoilOnU16 then mret true
               else if value =? CoilOffU16 then mret false
               else except req ExceptionInvalidDataValue);
  _ ← store_failure req (WriteSingleCoil address coilValue);
  mret (reply req (data_of req)).

Definition HandleWriteSingleRegister (req : Request) : SM S Response :=
  if negb (len (data_of req) =? 4) then except req ExceptionInvalidDataValue else
  address ← pure (be16_at (data_of req) 0 2);
  value ← pure (be16_at (data_of req) 2 4);
  _ ← store_failure req (WriteSingleRegister address value);
  mret (reply req (data_of req)).

(** [responseData := make([]byte, 4)] with the address and quantity echoed. *)
Definition echo_address_quantity (address quantity : Z) : outcome bytes :=
  responseData ← go_make 4;
  responseData ← put_at responseData 0 (be16 (u16 address));
  put_at responseData 2 (be16 (u16 quantity)).

(** [(Data[5+byteIndex] >> uint(bitOffset)) & 0x01 != 0], with [i] and the
    index arithmetic in uint16. *)
Definition coil_value (data : bytes) (i : Z) : outcome bool :=
  let byteIndex := u16 (i / 8) in
  let bitOffset := u16 (i mod 8) in
  b ← go_index data (u16 (5 + byteIndex));
  Ok (negb (Z.land (Z.shiftr b bitOffset) 1 =? 0)).

Definition HandleWriteMultipleCoils (req : Request) : SM S Response :=
  if len (data_of req) <? 5 then except req ExceptionInvalidDataValue else
  address ← pure (be16_at (data_of req) 0 2);
  quantity ← pure (be16_at (data_of req) 2 4);
  byteCount ← pure (go_index (data_of req) 4);
  if negb (len (data_of req) =? 5 + byteCount)
  then except req ExceptionInvalidDataValue else
  if (quantity =? 0) || (MaxWriteCoilCount <? quantity)
  then except req ExceptionInvalidDataValue else
  let expectedByteCount := ceil8 quantity in
  if negb (byteCount =? expectedByteCount)
  then except req ExceptionInvalidDataValue else
  values ← pure (mapO (coil_value (data_of req)) (iota quantity));
  _ ← store_err req (WriteMultipleCoils address values);
  responseData ← pure (echo_address_quantity address quantity);
  mret (reply req responseData).

(** [BigEndian.Uint16(Data[off+i*2 : off+i*2+2])] with uint16 index arithmetic. *)
Definition register_value (data : bytes) (off i : Z) : outcome Z :=
  be16_at data (u16 (off + u16 (i * 2))) (u16 (u16 (off + u16 (i * 2)) + 2)).

Definition HandleWriteMultipleRegisters (req : Request) : SM S Response :=
  if len (data_of req) <? 5 then except req ExceptionInvalidDataValue else
  address ← pure (be16_at (data_of req) 0 2);
  quantity ← pure (be16_at (data_of req) 2 4);
  byteCount ← pure (go_index (data_of req) 4);
  if negb (len (data_of req) =? 5 + byteCount)
  then except req ExceptionInvalidDataValue else
  if (quantity =? 0) || (MaxWriteRegisterCount <? quantity)
  then except req ExceptionInvalidDataValue else
  if negb (byteCount =? quantity * 2) then except req ExceptionInvalidDataValue else
  values ← pure (mapO (register_value (data_of req) 5) (iota quantity));
  _ ← store_err req (WriteMultipleRegisters address values);
  responseData ← pure (echo_address_quantity address quantity);
  mret (reply req responseData).

Definition HandleReadWriteMultipleRegisters (req : Request) : SM S Response :=
  if len (data_of req) <? 9 then except req ExceptionInvalidDataValue else
  readAddress ← pure (be16_at (data_of req) 0 2);
  readQuantity ← pure (be16_at (data_of req) 2 4);
  writeAddress ← pure (be16_at (data_of req) 4 6);
  writeQuantity ← pure (be16_at (data_of req) 6 8);
  byteCount ← pure (go_index (data_of req) 8);
  if negb (len (data_of req) =? 9 + byteCount)
  then except req ExceptionInvalidDataValue else
  if (readQuantity =? 0) || (MaxReadWriteReadCount <? readQuantity)
     || (writeQuantity =? 0) || (MaxReadWriteWriteCount <? writeQuantity)
  then except req ExceptionInvalidDataValue else
  if negb (byteCount =? writeQuantity * 2) then except req ExceptionInvalidDataValue else
  writeValues ← pure (mapO (register_value (data_of req) 9) (iota writeQuantity));
  _ ← store_err req (WriteMultipleRegisters writeAddress writeValues);
  readValues ← store_err req (ReadHoldingRegisters readAddress readQuantity);
  let respByteCount := len readValues * 2 in
  responseData ← pure (go_make (1 + respByteCount));
  responseData ← pure (go_set responseData 0 (u8 respByteCount));
  responseData ← pure (pack_regs 1 0 readValues responseData);
  mret (reply req responseData).

(** ** Device identification *)

(** The [objectValues] map literal. *)
Definition objectValues (id : Z) : option bytes :=
  if id =? DeviceIDVendorName then Some (str "goindustrial")
  else if id =? DeviceIDProductCode then Some (str "GI-001")
  else if id =? DeviceIDMajorMinorRevision then Some (str "1.0")
  else if id =? DeviceIDVendorURL then Some (str "https://github.com/iceisfun/goindustrial")
  else if id =? DeviceIDProductName then Some (str "goindustrial Modbus Server")
  else if id =? DeviceIDModelName then Some (str "Modbus TCP Server")
  else if id =? DeviceIDUserAppName then Some (str "Modbus Server")
  else if id =? 0x80 then Some (str "Extended Object")
  else None.

Definition objectsToInclude (readDeviceIDCode objectID : Z) : list Z :=
  let basic := [DeviceIDVendorName; DeviceIDProductCode; DeviceIDMajorMinorRevision] in
  let regular := [DeviceIDVendorURL; DeviceIDProductName; DeviceIDModelName;
                  DeviceIDUserAppName] in
  if readDeviceIDCode =? ReadDeviceIDSpecificObject then [objectID]
  else if readDeviceIDCode =? ReadDeviceIDRegularStream then basic ++ regular
  else if readDeviceIDCode =? ReadDeviceIDExtendedStream then basic ++ regular ++ [0x80]
  else basic.

(** [for _, id := range objectsToInclude { if exists { append } }] *)
Fixpoint collect_objects (ids : list Z) : list Handler.DeviceIDObject :=
  match ids with
  | [] => []
  | id :: ids =>
      match objectValues id with
      | Some value => Handler.mkObj id (u8 (len value)) value :: collect_objects ids
      | None => collect_objects ids
      end
  end.

Definition responseSize (objs : list Handler.DeviceIDObject) : Z :=
  fold_left (fun n o => n + (2 + Handler.obj_Length o)) objs 6.

(** The object encoding loop, from [offset]. *)
Fixpoint encode_objects (objs : list Handler.DeviceIDObject) (offset : Z) (buf : bytes)
  : outcome bytes :=
  match objs with
  | [] => Ok buf
  | obj :: objs =>
      buf ← go_set buf offset (u8 (Handler.obj_ID obj));
      buf ← go_set buf (offset + 1) (Handler.obj_Length obj);
      buf ← put_at buf (offset + 2)
              (take (Z.to_nat (Handler.obj_Length obj)) (Handler.obj_Value obj));
      encode_objects objs (offset + (2 + Handler.obj_Length obj)) buf
  end.

Definition encode_device_id (d : Handler.DeviceIdentification) : outcome bytes :=
  buf ← go_make (responseSize (Handler.dev_Objects d));
  buf ← go_set buf 0 (u8 MEIReadDeviceID);
  buf ← go_set buf 1 (u8 (Handler.dev_ReadDeviceIDCode d));
  buf ← go_set buf 2 (u8 (Handler.dev_ConformityLevel d));
  buf ← go_set buf 3 (u8 (Handler.dev_MoreFollows d));
  buf ← go_set buf 4 (u8 (Handler.dev_NextObjectID d));
  buf ← go_set buf 5 (Handler.dev_NumberOfObjects d);
  encode_objects (Handler.dev_Objects d) 6 buf.

Definition device_id (readDeviceIDCode objectID : Z) : Handler.DeviceIdentification :=
  let objs := collect_objects (objectsToInclude readDeviceIDCode objectID) in
  Handler.mkDevID readDeviceIDCode ConformityLevelBasic MoreFollowsNo 0x00
    (u8 (len objs)) objs.

Definition HandleReadDeviceIdentification (req : Request) : SM S Response :=
  if len (data_of req) <? 3 then except req ExceptionInvalidDataValue else
  mei ← pure (go_index (data_of req) 0);
  if negb (mei =? MEIReadDeviceID) then except req ExceptionInvalidDataValue else
  readDeviceIDCode ← pure (go_index (data_of req) 1);
  objectID ← pure (go_index (data_of req) 2);
  responseData ← pure (encode_device_id (device_id readDeviceIDCode objectID));
  mret (reply req responseData).

(** ** The handler table of the server (server.go) *)
Definition HandlerFunc : Type := Request -> SM S Response.

Definition SetHandler (functionCode : Z) (handler : HandlerFunc) (handlers : gmap Z HandlerFunc)
  : gmap Z HandlerFunc := <[functionCode := handler]> handlers.

Definition setupDefaultHandlers : gmap Z HandlerFunc :=
  let handlers := ∅ in
  let handlers := SetHandler FuncReadCoils HandleReadCoils handlers in
  let handlers := SetHandler FuncReadDiscreteInputs HandleReadDiscreteInputs handlers in
  let handlers := SetHandler FuncReadHoldingRegisters HandleReadHoldingRegisters handlers in
  let handlers := SetHandler FuncReadInputRegisters HandleReadInputRegisters handlers in
  let handlers := SetHandler FuncWriteSingleCoil HandleWriteSingleCoil handlers in
  let handlers := SetHandler FuncWriteSingleRegister HandleWriteSingleRegister handlers in
  let handlers := SetHandler FuncWriteMultipleCoils HandleWriteMultipleCoils handlers in
  let handlers := SetHandler FuncWriteMultipleRegisters HandleWriteMultipleRegisters handlers in
  let handlers :=
    SetHandler FuncReadWriteMultipleRegisters HandleReadWriteMultipleRegisters handlers in
  SetHandler FuncReadDeviceIdentification HandleReadDeviceIdentification handlers.

Definition dispatchRequest (handlers : gmap Z HandlerFunc) (request : Request) : SM S Response :=
  match handlers !! fc_of request with
  | None => except request ExceptionFunctionCodeNotSupported
  | Some handler => handler request
  end.

(** ** Lemmas *)

Ltac sm_step := rewrite SM_bind_pure_Ok.
(** The guards of the handlers that an accepted request passes. *)
Ltac pass_eq := lazymatch goal with |- context [negb (?x =? ?y)] =>
  replace (x =? y) with true by (symmetry; apply Z.eqb_eq; lia); cbn [negb] end.
Ltac pass_lt := lazymatch goal with |- context [if ?x <? ?y then _ else _] =>
  replace (x <? y) with false by (symmetry; apply Z.ltb_ge; lia) end.

Lemma fresh_header n x :
  0 <= n -> (buf ← go_make (1 + n); go_set buf 0 x) = Ok ([x] ++ replicate (Z.to_nat n) 0).
Proof.
  intros Hn. rewrite Handler.make_app by lia. go_bind.
  by apply (Handler.go_set_mid [] (replicate (Z.to_nat n) 0)).
Qed.

Lemma bits_reply req q vals (s : S) :
  len vals = q -> 0 <= q ->
  (responseData ← pure (go_make (1 + ceil8 q));
   responseData ← pure (go_set responseData 0 (u8 (ceil8 q)));
   responseData ← pure (pack_bits 1 0 vals responseData);
   mret (reply req responseData)) s =
  (Ok (reply req ([u8 (ceil8 q)] ++ bits_to_bytes vals)), s).
Proof.
  intros <- Hq. pose proof (ceil8_nonneg (len vals) Hq) as Hc.
  pose proof (fresh_header _ (u8 (ceil8 (len vals))) Hc) as Hh. unfold mbind, outcome_bind in Hh.
  destruct (go_make _) as [buf| |] in Hh |- *; try done. sm_step. rewrite Hh. sm_step.
  rewrite pack_bits_fresh by (try done; repeat constructor; apply u8_range). by sm_step.
Qed.

Lemma regs_reply req vals (s : S) :
  (responseData ← pure (go_make (1 + len vals * 2));
   responseData ← pure (go_set responseData 0 (u8 (len vals * 2)));
   responseData ← pure (pack_regs 1 0 vals responseData);
   mret (reply req responseData)) s =
  (Ok (reply req ([u8 (len vals * 2)] ++ regs_to_bytes vals)), s).
Proof.
  pose proof (len_nonneg vals). assert (0 <= len vals * 2) as Hc by lia.
  pose proof (fresh_header _ (u8 (len vals * 2)) Hc) as Hh. unfold mbind, outcome_bind in Hh.
  destruct (go_make _) as [buf| |] in Hh |- *; try done. sm_step. rewrite Hh. sm_step.
  rewrite pack_regs_fresh by (try done; unfold len; lia). by sm_step.
Qed.

Lemma store_err_Ok {A} req (m : SM S A) s a s' : m s = (Ok a, s') -> store_err req m s = (Ok a, s').
Proof. intros E. unfold store_err. by rewrite E. Qed.
Lemma store_failure_Ok {A} req (m : SM S A) s a s' :
  m s = (Ok a, s') -> store_failure req m s = (Ok a, s').
Proof. intros E. unfold store_failure. by rewrite E. Qed.

(** *** Accepted requests *)
Lemma read_bits_accept req max rf s s' a q vals :
  data_of req = be16 a ++ be16 q -> is_u16 a -> is_u16 q -> 0 < q <= max ->
  rf a q s = (Ok vals, s') -> len vals = q ->
  handleReadBitValues req max rf s =
    (Ok (reply req ([u8 (ceil8 q)] ++ bits_to_bytes vals)), s').
Proof.
  intros Hd Ha Hq Hr Hrf Hl. unfold handleReadBitValues. rewrite Hd. lens. pass_eq. rewrite be16_at_head by done. sm_step.
  rewrite <-(app_nil_r (be16 q)). rewrite be16_at_mid by done. sm_step. quantity_ok.
  rewrite (SM_bind_Ok _ _ _ vals s') by (by apply store_err_Ok).
  apply bits_reply; lia.
Qed.

Lemma read_regs_accept req max rf s s' a q vals :
  data_of req = be16 a ++ be16 q -> is_u16 a -> is_u16 q -> 0 < q <= max ->
  rf a q s = (Ok vals, s') -> len vals = q ->
  handleReadRegisterValues req max rf s =
    (Ok (reply req ([u8 (q * 2)] ++ regs_to_bytes vals)), s').
Proof.
  intros Hd Ha Hq Hr Hrf <-. unfold handleReadRegisterValues. rewrite Hd. lens. pass_eq. rewrite be16_at_head by done. sm_step.
  rewrite <-(app_nil_r (be16 (len vals))). rewrite be16_at_mid by done. sm_step. quantity_ok.
  rewrite (SM_bind_Ok _ _ _ vals s') by (by apply store_err_Ok). apply regs_reply.
Qed.

Lemma echo_bytes a q : is_u16 a -> is_u16 q -> echo_address_quantity a q = Ok (be16 a ++ be16 q).
Proof. intros Ha Hq. rewrite <-(u16_small a Ha) at 2. rewrite <-(u16_small q Hq) at 2. reflexivity. Qed.

Lemma coil_value_unpack data i : 0 <= i <= 2000 -> coil_value data i = unpack_bit data 5 i.
Proof.
  intros Hi. unfold coil_value, unpack_bit.
  rewrite (u16_small (i / 8)), (u16_small (i mod 8)), u16_small by (unfold is_u16; dlia).
  destruct (go_index data (5 + i / 8)) as [b| |]; [|done..]. go_bind. f_equal.
  rewrite (Z.land_ones _ 1) by lia. change (2 ^ 1) with 2.
  pose proof (Z.mod_pos_bound (Z.shiftr b (i mod 8)) 2).
  destruct (Z.eqb_spec (Z.shiftr b (i mod 8) mod 2) 0),
           (Z.eqb_spec (Z.shiftr b (i mod 8) mod 2) 1); simpl; (done || lia).
Qed.

Lemma register_value_get data off i :
  0 <= off <= 9 -> 0 <= i <= 125 -> register_value data off i = get_reg data off i.
Proof.
  intros Ho Hi. unfold register_value, get_reg, be16_at.
  rewrite (u16_small (i * 2)) by (unfold is_u16; lia).
  by rewrite !u16_small by (unfold is_u16; lia).
Qed.

Lemma write_regs_accept req s s' a vs :
  data_of req = be16 a ++ be16 (len vs) ++ [len vs * 2] ++ regs_to_bytes vs ->
  is_u16 a -> 0 < len vs <= MaxWriteRegisterCount -> Forall is_u16 vs ->
  WriteMultipleRegisters a vs s = (Ok tt, s') ->
  HandleWriteMultipleRegisters req s = (Ok (reply req (be16 a ++ be16 (len vs))), s').
Proof.
  intros Hd Ha Hl Hvs Hw. unfold HandleWriteMultipleRegisters. rewrite Hd.
  assert (is_u16 (len vs)) by (unfold is_u16, MaxWriteRegisterCount in *; lia).
  lens. pass_lt.
  rewrite be16_at_head by done. sm_step. rewrite be16_at_mid by done. sm_step.
  rewrite (app_assoc (be16 a)). rewrite go_index_mid by done. sm_step.
  pass_eq. quantity_ok. pass_eq.
  rewrite (mapO_ext _ (get_reg (((be16 a ++ be16 (len vs)) ++ [len vs * 2]) ++
    regs_to_bytes vs ++ []) 5)).
  - rewrite get_regs_packed by done. sm_step.
    rewrite (SM_bind_Ok _ _ _ tt s') by (by apply store_err_Ok).
    rewrite echo_bytes by done. by sm_step.
  - intros i Hi%elem_of_iota. unfold MaxWriteRegisterCount in *.
    rewrite app_nil_r, <-(app_assoc (_ ++ _) [_]). apply register_value_get; lia.
Qed.

Lemma write_coils_accept req s s' a q r vs :
  data_of req = be16 a ++ be16 q ++ [ceil8 q] ++ r ->
  is_u16 a -> 0 < q <= MaxWriteCoilCount -> len r = ceil8 q ->
  mapO (unpack_bit (be16 a ++ be16 q ++ [ceil8 q] ++ r) 5) (iota q) = Ok vs ->
  WriteMultipleCoils a vs s = (Ok tt, s') ->
  HandleWriteMultipleCoils req s = (Ok (reply req (be16 a ++ be16 q)), s').
Proof.
  intros Hd Ha Hl Hr Hvs Hw. unfold HandleWriteMultipleCoils. rewrite Hd.
  assert (is_u16 q) by (unfold is_u16, MaxWriteCoilCount in *; lia).
  pose proof (ceil8_nonneg q). lens.
  pass_lt.
  rewrite be16_at_head by done. sm_step. rewrite be16_at_mid by done. sm_step.
  rewrite (app_assoc (be16 a) (be16 q)), go_index_mid by done. sm_step.
  pass_eq. quantity_ok. pass_eq.
  rewrite (mapO_ext _ (unpack_bit (be16 a ++ be16 q ++ [ceil8 q] ++ r) 5)).
  - rewrite Hvs. sm_step. rewrite (SM_bind_Ok _ _ _ tt s') by (by apply store_err_Ok).
    rewrite echo_bytes by done. by sm_step.
  - intros i Hi%elem_of_iota. unfold MaxWriteCoilCount in *.
    rewrite <-(app_assoc (be16 a)). apply coil_value_unpack. lia.
Qed.

Lemma write_coil_accept req s s' a (v : bool) :
  data_of req = be16 a ++ be16 (if v then CoilOnU16 else CoilOffU16) -> is_u16 a ->
  WriteSingleCoil a v s = (Ok tt, s') ->
  HandleWriteSingleCoil req s = (Ok (reply req (data_of req)), s').
Proof.
  intros Hd Ha Hw. unfold HandleWriteSingleCoil. rewrite Hd. lens. pass_eq.
  rewrite be16_at_head by done. sm_step.
  rewrite <-(app_nil_r (be16 (if v then _ else _))).
  rewrite be16_at_mid by (try done; unfold is_u16, CoilOnU16, CoilOffU16; destruct v; lia).
  sm_step. rewrite (SM_bind_Ok _ _ s v s) by (by destruct v).
  by rewrite (SM_bind_Ok _ _ _ tt s') by (by apply store_failure_Ok).
Qed.

Lemma write_reg_accept req s s' a v :
  data_of req = be16 a ++ be16 v -> is_u16 a -> is_u16 v ->
  WriteSingleRegister a v s = (Ok tt, s') ->
  HandleWriteSingleRegister req s = (Ok (reply req (data_of req)), s').
Proof.
  intros Hd Ha Hv Hw. unfold HandleWriteSingleRegister. rewrite Hd. lens. pass_eq.
  rewrite be16_at_head by done. sm_step.
  rewrite <-(app_nil_r (be16 v)). rewrite be16_at_mid by done. sm_step.
  by rewrite (SM_bind_Ok _ _ _ tt s') by (by apply store_failure_Ok).
Qed.

Lemma read_write_accept req s s' s'' ra rq wa vs rvs :
  data_of req = be16 ra ++ be16 rq ++ be16 wa ++ be16 (len vs) ++ [len vs * 2] ++
                regs_to_bytes vs ->
  is_u16 ra -> is_u16 wa -> 0 < rq <= MaxReadWriteReadCount ->
  0 < len vs <= MaxReadWriteWriteCount -> Forall is_u16 vs ->
  WriteMultipleRegisters wa vs s = (Ok tt, s') ->
  ReadHoldingRegisters ra rq s' = (Ok rvs, s'') ->
  HandleReadWriteMultipleRegisters req s =
    (Ok (reply req ([u8 (len rvs * 2)] ++ regs_to_bytes rvs)), s'').
Proof.
  intros Hd Hra Hwa Hrq Hl Hvs Hw Hr. unfold HandleReadWriteMultipleRegisters. rewrite Hd.
  unfold MaxReadWriteReadCount, MaxReadWriteWriteCount in *.
  assert (is_u16 (len vs)) by (unfold is_u16; lia).
  assert (is_u16 rq) by (unfold is_u16; lia).
  lens. pass_lt. rewrite be16_at_head by done. sm_step. rewrite (be16_at_mid _ _ _ 2 4) by done. sm_step.
  rewrite (app_assoc (be16 ra)). rewrite (be16_at_mid _ _ _ 4 6) by done. sm_step.
  rewrite (app_assoc (be16 ra ++ _)). rewrite (be16_at_mid _ _ _ 6 8) by done. sm_step.
  rewrite (app_assoc ((be16 ra ++ _) ++ _)). rewrite go_index_mid by done. sm_step.
  pass_eq. destruct (Z.eqb_spec rq 0), (Z.eqb_spec (len vs) 0), (Z.ltb_spec 125 rq),
    (Z.ltb_spec 121 (len vs)); try lia. cbn [orb]. cbv iota. pass_eq.
  set (data := (((be16 ra ++ be16 rq) ++ be16 wa) ++ be16 (len vs)) ++ [len vs * 2] ++
    regs_to_bytes vs).
  assert (mapO (register_value data 9) (iota (len vs)) = Ok vs) as ->.
  { rewrite (mapO_ext _ (get_reg (((((be16 ra ++ be16 rq) ++ be16 wa) ++ be16 (len vs)) ++
      [len vs * 2]) ++ regs_to_bytes vs ++ []) 9)).
    - by rewrite get_regs_packed.
    - intros i Hi%elem_of_iota. rewrite app_nil_r, <-(app_assoc _ [_]).
      apply register_value_get; lia. }
  sm_step. rewrite (SM_bind_Ok _ _ _ tt s') by (by apply store_err_Ok).
  rewrite (SM_bind_Ok _ _ _ rvs s'') by (by apply store_err_Ok). apply regs_reply.
Qed.

(** *** Rejected requests: what a handler does not accept leaves the store alone *)
Definition rejected {A} (req : Request) (s : S) : outcome A * S :=
  (Err (NewModbusError (fc_of req) ExceptionInvalidDataValue), s).

Ltac reject := right; reflexivity.

Lemma read_bits_total req max rf s :
  bytes_ok (data_of req) ->
  (exists a q, data_of req = be16 a ++ be16 q /\ is_u16 a /\ is_u16 q /\ 0 < q <= max) \/
  handleReadBitValues req max rf s = rejected req s.
Proof.
  intros Hok. unfold handleReadBitValues. destruct (Z.eqb_spec (len (data_of req)) 4); [|reject].
  destruct (payload4 _ Hok) as (a & q & Ha & Hq & ->); [done|].
  cbn [negb]. rewrite be16_at_head by done. sm_step.
  rewrite <-(app_nil_r (be16 q)). rewrite be16_at_mid by done. sm_step.
  destruct (Z.eqb_spec q 0), (Z.ltb_spec max q); try reject.
  left. exists a, q. rewrite app_nil_r. unfold is_u16 in *. eauto with lia.
Qed.

Lemma read_regs_total req max rf s :
  bytes_ok (data_of req) ->
  (exists a q, data_of req = be16 a ++ be16 q /\ is_u16 a /\ is_u16 q /\ 0 < q <= max) \/
  handleReadRegisterValues req max rf s = rejected req s.
Proof.
  intros Hok. unfold handleReadRegisterValues.
  destruct (Z.eqb_spec (len (data_of req)) 4); [|reject].
  destruct (payload4 _ Hok) as (a & q & Ha & Hq & ->); [done|].
  cbn [negb]. rewrite be16_at_head by done. sm_step.
  rewrite <-(app_nil_r (be16 q)). rewrite be16_at_mid by done. sm_step.
  destruct (Z.eqb_spec q 0), (Z.ltb_spec max q); try reject.
  left. exists a, q. rewrite app_nil_r. unfold is_u16 in *. eauto with lia.
Qed.

Lemma write_coil_total req s :
  bytes_ok (data_of req) ->
  (exists a (v : bool), is_u16 a /\
     data_of req = be16 a ++ be16 (if v then CoilOnU16 else CoilOffU16)) \/
  HandleWriteSingleCoil req s = rejected req s.
Proof.
  intros Hok. unfold HandleWriteSingleCoil. destruct (Z.eqb_spec (len (data_of req)) 4); [|reject].
  destruct (payload4 _ Hok) as (a & q & Ha & Hq & ->); [done|].
  cbn [negb]. rewrite be16_at_head by done. sm_step.
  rewrite <-(app_nil_r (be16 q)). rewrite be16_at_mid by done. sm_step. rewrite app_nil_r.
  destruct (Z.eqb_spec q CoilOnU16) as [->|]; [left; by exists a, true|].
  destruct (Z.eqb_spec q CoilOffU16) as [->|]; [left; by exists a, false|reject].
Qed.

Lemma write_reg_total req s :
  bytes_ok (data_of req) ->
  (exists a v, is_u16 a /\ is_u16 v /\ data_of req = be16 a ++ be16 v) \/
  HandleWriteSingleRegister req s = rejected req s.
Proof.
  intros Hok. unfold HandleWriteSingleRegister.
  destruct (Z.eqb_spec (len (data_of req)) 4); [|reject].
  left. destruct (payload4 _ Hok) as (a & q & Ha & Hq & ->); [done|]. by exists a, q.
Qed.

(** The bit loop over any payload of the right length gives some values. *)
Lemma unpack_total (p r : bytes) q :
  0 <= q -> len r = ceil8 q ->
  exists vs, mapO (unpack_bit (p ++ r) (len p)) (iota q) = Ok vs /\ len vs = q.
Proof.
  intros Hq Hr. destruct (mapO_exists (fun _ => True) (unpack_bit (p ++ r) (len p)) (iota q))
    as (vs & Hvs & Hl & _).
  - intros i Hi%elem_of_iota. unfold unpack_bit. rewrite go_index_app_r by dlia.
    destruct (go_index_in r (i / 8)) as (b & _ & ->); [unfold ceil8 in Hr; dlia|].
    go_bind. eauto.
  - exists vs. rewrite len_iota in Hl by done. done.
Qed.

Lemma write_coils_total req s :
  bytes_ok (data_of req) ->
  (exists a r vs, is_u16 a /\ 0 < len vs <= MaxWriteCoilCount /\
     data_of req = be16 a ++ be16 (len vs) ++ [ceil8 (len vs)] ++ r /\
     len r = ceil8 (len vs) /\
     mapO (unpack_bit (data_of req) 5) (iota (len vs)) = Ok vs) \/
  HandleWriteMultipleCoils req s = rejected req s.
Proof.
  intros Hok. unfold HandleWriteMultipleCoils.
  destruct (Z.ltb_spec (len (data_of req)) 5); [reject|].
  destruct (payload5 _ Hok) as (a & q & bc & r & Ha & Hq & Hbc & Hr & -> & Hlr); [done|].
  rewrite be16_at_head by done. sm_step. rewrite be16_at_mid by done. sm_step.
  rewrite (app_assoc (be16 a) (be16 q)), go_index_mid by done. sm_step.
  destruct (Z.eqb_spec (len ((be16 a ++ be16 q) ++ [bc] ++ r)) (5 + bc)); [|reject].
  destruct (Z.eqb_spec q 0), (Z.ltb_spec MaxWriteCoilCount q); try reject.
  destruct (Z.eqb_spec bc (ceil8 q)) as [->|]; [|reject]. left. cbn [orb negb].
  lens. unfold is_u16 in Hq.
  destruct (unpack_total ((be16 a ++ be16 q) ++ [ceil8 q]) r q) as (vs & Hvs & Hl); [lia..|].
  exists a, r, vs. rewrite Hl, <-!app_assoc in *. repeat split; try done; try apply Ha; lia.
Qed.

Lemma write_regs_total req s :
  bytes_ok (data_of req) ->
  (exists a vs, is_u16 a /\ 0 < len vs <= MaxWriteRegisterCount /\ Forall is_u16 vs /\
     data_of req = be16 a ++ be16 (len vs) ++ [len vs * 2] ++ regs_to_bytes vs) \/
  HandleWriteMultipleRegisters req s = rejected req s.
Proof.
  intros Hok. unfold HandleWriteMultipleRegisters.
  destruct (Z.ltb_spec (len (data_of req)) 5); [reject|].
  destruct (payload5 _ Hok) as (a & q & bc & r & Ha & Hq & Hbc & Hr & -> & Hlr); [done|].
  rewrite be16_at_head by done. sm_step. rewrite be16_at_mid by done. sm_step.
  rewrite (app_assoc (be16 a) (be16 q)), go_index_mid by done. sm_step.
  destruct (Z.eqb_spec (len ((be16 a ++ be16 q) ++ [bc] ++ r)) (5 + bc)); [|reject].
  destruct (Z.eqb_spec q 0), (Z.ltb_spec MaxWriteRegisterCount q); try reject.
  destruct (Z.eqb_spec bc (q * 2)) as [->|]; [|reject]. left. cbn [orb negb].
  lens. unfold is_u16 in Hq.
  destruct (bytes_are_regs (Z.to_nat q) r Hr) as (vs & Hl & Hvs & ->); [lia|].
  rewrite Z2Nat.id in Hl by lia. subst q.
  exists a, vs. rewrite <-!app_assoc. repeat split; try done; try apply Ha; lia.
Qed.

Lemma read_write_total req s :
  bytes_ok (data_of req) ->
  (exists ra rq wa vs, is_u16 ra /\ is_u16 wa /\ 0 < rq <= MaxReadWriteReadCount /\
     0 < len vs <= MaxReadWriteWriteCount /\ Forall is_u16 vs /\
     data_of req = be16 ra ++ be16 rq ++ be16 wa ++ be16 (len vs) ++ [len vs * 2] ++
                   regs_to_bytes vs) \/
  HandleReadWriteMultipleRegisters req s = rejected req s.
Proof.
  intros Hok. unfold HandleReadWriteMultipleRegisters.
  destruct (Z.ltb_spec (len (data_of req)) 9); [reject|].
  destruct (split_be16 _ Hok) as (ra & d & Hra & Hok' & Hd & Hl'); [lia|].
  destruct (split_be16 d Hok') as (rq & d' & Hrq & Hok'' & -> & Hl''); [lia|].
  destruct (payload5 d' Hok'') as (wa & q & bc & r & Hwa & Hq & Hbc & Hr & -> & Hlr); [lia|].
  rewrite Hd. rewrite be16_at_head by done. sm_step.
  rewrite (be16_at_mid _ _ _ 2 4) by done. sm_step.
  rewrite (app_assoc (be16 ra)). rewrite (be16_at_mid _ _ _ 4 6) by done. sm_step.
  rewrite (app_assoc (be16 ra ++ _)). rewrite (be16_at_mid _ _ _ 6 8) by done. sm_step.
  rewrite (app_assoc ((be16 ra ++ _) ++ _)). rewrite go_index_mid by done. sm_step.
  destruct (Z.eqb_spec (len ((((be16 ra ++ be16 rq) ++ be16 wa) ++ be16 q) ++ [bc] ++ r))
    (9 + bc)); [|reject].
  destruct (Z.eqb_spec rq 0), (Z.ltb_spec MaxReadWriteReadCount rq), (Z.eqb_spec q 0),
    (Z.ltb_spec MaxReadWriteWriteCount q); try reject.
  destruct (Z.eqb_spec bc (q * 2)) as [->|]; [|reject]. left. cbn [orb negb].
  lens. unfold is_u16 in Hq, Hrq.
  destruct (bytes_are_regs (Z.to_nat q) r Hr) as (vs & Hl & Hvs & ->); [lia|].
  rewrite Z2Nat.id in Hl by lia. subst q.
  exists ra, rq, wa, vs. rewrite <-!app_assoc. repeat split; try done; try apply Hra;
    try apply Hwa; lia.
Qed.

(** The generated device identification: its size and that the client's parser
    reads back what was encoded, checked on every pair of argument bytes. *)
Definition device_id_check (code id : Z) : bool :=
  match encode_device_id (device_id code id) with
  | Ok d => forallb (fun b => bool_decide (is_u8 b)) d && (len d <=? 252) &&
            bool_decide (Handler.ParseReadDeviceIdentificationResponse d = Ok (device_id code id))
  | _ => false
  end.

Lemma device_id_check_all code id : is_u8 code -> is_u8 id -> device_id_check code id = true.
Proof.
  intros Hc Hi. destruct (decide (code = ReadDeviceIDSpecificObject)) as [->|Hne].
  - exact (u8_cases (device_id_check ReadDeviceIDSpecificObject)
      ltac:(vm_compute; reflexivity) id Hi).
  - pose proof (u8_cases (fun c => (c =? ReadDeviceIDSpecificObject) || device_id_check c 0)
      ltac:(vm_compute; reflexivity) code Hc) as Hall. cbv beta in Hall.
    unfold device_id_check, device_id, objectsToInclude in *.
    destruct (Z.eqb_spec code ReadDeviceIDSpecificObject); [done|exact Hall].
Qed.

Lemma device_id_encodes code id :
  is_u8 code -> is_u8 id ->
  exists d, encode_device_id (device_id code id) = Ok d /\ bytes_ok d /\ len d <= 252 /\
    Handler.ParseReadDeviceIdentificationResponse d = Ok (device_id code id).
Proof.
  intros Hc Hi. pose proof (device_id_check_all code id Hc Hi) as Hck. unfold device_id_check in Hck.
  destruct (encode_device_id _) as [d| |]; [|done..]. exists d.
  rewrite !andb_true_iff in Hck. destruct Hck as [[Hok Hl] Hp]. split; [done|].
  split; [|split; [lia|by apply bool_decide_eq_true in Hp]].
  apply Forall_forall. intros b Hb. rewrite forallb_forall in Hok.
  apply list_elem_of_In, Hok in Hb. by apply bool_decide_eq_true in Hb.
Qed.

Lemma device_id_total req s :
  bytes_ok (data_of req) ->
  (exists code id d r, data_of req = [MEIReadDeviceID; code; id] ++ r /\
     encode_device_id (device_id code id) = Ok d /\ bytes_ok d /\ len d <= 252 /\
     Handler.ParseReadDeviceIdentificationResponse d = Ok (device_id code id) /\
     HandleReadDeviceIdentification req s = (Ok (reply req d), s)) \/
  HandleReadDeviceIdentification req s = rejected req s.
Proof.
  intros Hok. unfold HandleReadDeviceIdentification.
  destruct (Z.ltb_spec (len (data_of req)) 3); [reject|].
  destruct (data_of req) as [|mei [|code [|id r]]] eqn:E;
    rewrite ?len_cons, ?len_nil in *; try (cbn in *; lia).
  change (go_index (mei :: code :: id :: r) 0) with (Ok mei). sm_step.
  destruct (Z.eqb_spec mei MEIReadDeviceID) as [->|]; [|reject]. cbn [negb].
  change (go_index (MEIReadDeviceID :: code :: id :: r) 1) with (Ok code). sm_step.
  change (go_index (MEIReadDeviceID :: code :: id :: r) 2) with (Ok id). sm_step.
  inversion_clear Hok as [|? ? _ Hok']. inversion_clear Hok' as [|? ? Hc Hok''].
  inversion_clear Hok'' as [|? ? Hi _].
  destruct (device_id_encodes code id Hc Hi) as (d & Hd & Hdok & Hdl & Hp).
  left. exists code, id, d, r. rewrite Hd. by repeat split.
Qed.

End Handlers.
