(* ===== verification/ModbusSpec.v ===== *)
(** * What a Modbus operation means: abstract operations and their refinement

    An abstract operation ([op]) is one of the nine data operations of the
    protocol with its arguments.  [effect] and [answer] say what it does to the
    abstract [Memory] of a device and what the caller learns.  The client side
    ([generate], [parse]) and the server side ([handle]) of the code are shown
    to implement it, against any lawful [DataStore]. *)
From S2P Require Import Prelude Bytes ModbusTypes ModbusFrame ModbusProtocol ModbusStore ModbusHandlers.
Import Handler.

Inductive op : Type :=
| OpReadCoils (address quantity : Z)
| OpReadDiscreteInputs (address quantity : Z)
| OpReadHoldingRegisters (address quantity : Z)
| OpReadInputRegisters (address quantity : Z)
| OpWriteSingleCoil (address : Z) (value : bool)
| OpWriteSingleRegister (address value : Z)
| OpWriteMultipleCoils (address : Z) (values : list bool)
| OpWriteMultipleRegisters (address : Z) (values : list Z)
| OpReadWriteMultipleRegisters (readAddress readQuantity writeAddress : Z) (values : list Z).

(** What the caller of an operation gets back. *)
Inductive result : Type :=
| RBits (vs : list bool)
| RRegs (vs : list Z)
| RCoil (address : Z) (value : bool)
| RPair (address value : Z).

Definition op_fc (o : op) : Z :=
  match o with
  | OpReadCoils _ _ => FuncReadCoils
  | OpReadDiscreteInputs _ _ => FuncReadDiscreteInputs
  | OpReadHoldingRegisters _ _ => FuncReadHoldingRegisters
  | OpReadInputRegisters _ _ => FuncReadInputRegisters
  | OpWriteSingleCoil _ _ => FuncWriteSingleCoil
  | OpWriteSingleRegister _ _ => FuncWriteSingleRegister
  | OpWriteMultipleCoils _ _ => FuncWriteMultipleCoils
  | OpWriteMultipleRegisters _ _ => FuncWriteMultipleRegisters
  | OpReadWriteMultipleRegisters _ _ _ _ => FuncReadWriteMultipleRegisters
  end.

(** The argument ranges the Modbus specification allows. *)
Definition op_ok (o : op) : Prop :=
  match o with
  | OpReadCoils a q | OpReadDiscreteInputs a q => is_u16 a /\ 0 < q <= MaxCoilCount
  | OpReadHoldingRegisters a q | OpReadInputRegisters a q =>
      is_u16 a /\ 0 < q <= MaxRegisterCount
  | OpWriteSingleCoil a _ => is_u16 a
  | OpWriteSingleRegister a v => is_u16 a /\ is_u16 v
  | OpWriteMultipleCoils a vs => is_u16 a /\ 0 < len vs <= MaxWriteCoilCount
  | OpWriteMultipleRegisters a vs =>
      is_u16 a /\ 0 < len vs <= MaxWriteRegisterCount /\ Forall is_u16 vs
  | OpReadWriteMultipleRegisters ra rq wa vs =>
      is_u16 ra /\ 0 < rq <= MaxReadWriteReadCount /\ is_u16 wa /\
      0 < len vs <= MaxReadWriteWriteCount /\ Forall is_u16 vs
  end.

#[export] Instance op_ok_dec o : Decision (op_ok o).
Proof. destruct o; apply _. Defined.

Definition effect (o : op) (m : Memory) : Memory :=
  match o with
  | OpWriteSingleCoil a v => write_coils m a [v]
  | OpWriteSingleRegister a v => write_holding m a [v]
  | OpWriteMultipleCoils a vs => write_coils m a vs
  | OpWriteMultipleRegisters a vs => write_holding m a vs
  | OpReadWriteMultipleRegisters _ _ wa vs => write_holding m wa vs
  | _ => m
  end.

(** [answer o m]: the reply of a device whose memory after the operation is [m]. *)
Definition answer (o : op) (m : Memory) : result :=
  match o with
  | OpReadCoils a q => RBits (cells (coil m) a q)
  | OpReadDiscreteInputs a q => RBits (cells (discrete m) a q)
  | OpReadHoldingRegisters a q => RRegs (cells (holding m) a q)
  | OpReadInputRegisters a q => RRegs (cells (input m) a q)
  | OpWriteSingleCoil a v => RCoil a v
  | OpWriteSingleRegister a v => RPair a v
  | OpWriteMultipleCoils a vs => RPair a (len vs)
  | OpWriteMultipleRegisters a vs => RPair a (len vs)
  | OpReadWriteMultipleRegisters ra rq _ _ => RRegs (cells (holding m) ra rq)
  end.

(** ** The client's and the server's code for an operation *)
Definition generate (o : op) : outcome bytes :=
  match o with
  | OpReadCoils a q => GenerateReadCoilsRequest a q
  | OpReadDiscreteInputs a q => GenerateReadDiscreteInputsRequest a q
  | OpReadHoldingRegisters a q => GenerateReadHoldingRegistersRequest a q
  | OpReadInputRegisters a q => GenerateReadInputRegistersRequest a q
  | OpWriteSingleCoil a v => GenerateWriteSingleCoilRequest a v
  | OpWriteSingleRegister a v => GenerateWriteSingleRegisterRequest a v
  | OpWriteMultipleCoils a vs => GenerateWriteMultipleCoilsRequest a vs
  | OpWriteMultipleRegisters a vs => GenerateWriteMultipleRegistersRequest a vs
  | OpReadWriteMultipleRegisters ra rq wa vs =>
      GenerateReadWriteMultipleRegistersRequest ra rq wa vs
  end.

Definition parse (o : op) (data : bytes) : outcome result :=
  match o with
  | OpReadCoils _ q => RBits <$> ParseReadCoilsResponse data q
  | OpReadDiscreteInputs _ q => RBits <$> ParseReadDiscreteInputsResponse data q
  | OpReadHoldingRegisters _ q => RRegs <$> ParseReadHoldingRegistersResponse data q
  | OpReadInputRegisters _ q => RRegs <$> ParseReadInputRegistersResponse data q
  | OpWriteSingleCoil _ _ =>
      '(a, v, err) ← ParseWriteSingleCoilResponse data;
      match err with Some e => Err e | None => Ok (RCoil a v) end
  | OpWriteSingleRegister _ _ =>
      '(a, v) ← ParseWriteSingleRegisterResponse data; Ok (RPair a v)
  | OpWriteMultipleCoils _ _ =>
      '(a, v) ← ParseWriteMultipleCoilsResponse data; Ok (RPair a v)
  | OpWriteMultipleRegisters _ _ =>
      '(a, v) ← ParseWriteMultipleRegistersResponse data; Ok (RPair a v)
  | OpReadWriteMultipleRegisters _ rq _ _ =>
      RRegs <$> ParseReadWriteMultipleRegistersResponse data rq
  end.

(** ** The wire form of an operation and of its reply *)
Definition payload (o : op) : bytes :=
  match o with
  | OpReadCoils a q | OpReadDiscreteInputs a q | OpReadHoldingRegisters a q
  | OpReadInputRegisters a q => be16 a ++ be16 q
  | OpWriteSingleCoil a v => be16 a ++ be16 (if v then CoilOnU16 else CoilOffU16)
  | OpWriteSingleRegister a v => be16 a ++ be16 v
  | OpWriteMultipleCoils a vs =>
      be16 a ++ be16 (len vs) ++ [ceil8 (len vs)] ++ bits_to_bytes vs
  | OpWriteMultipleRegisters a vs =>
      be16 a ++ be16 (len vs) ++ [len vs * 2] ++ regs_to_bytes vs
  | OpReadWriteMultipleRegisters ra rq wa vs =>
      be16 ra ++ be16 rq ++ be16 wa ++ be16 (len vs) ++ [len vs * 2] ++ regs_to_bytes vs
  end.

(** [carries o data]: the payload [data] asks for [o].  The padding bits of the
    last byte of a coil write are ignored. *)
Definition carries (o : op) (data : bytes) : Prop :=
  match o with
  | OpWriteMultipleCoils a vs =>
      exists r, data = be16 a ++ be16 (len vs) ++ [ceil8 (len vs)] ++ r /\
        len r = ceil8 (len vs) /\ mapO (unpack_bit data 5) (iota (len vs)) = Ok vs
  | _ => data = payload o
  end.

Definition reply_bytes (o : op) (m : Memory) : bytes :=
  match o, answer o m with
  | OpWriteSingleCoil _ _, _ => payload o
  | _, RBits vs => [u8 (ceil8 (len vs))] ++ bits_to_bytes vs
  | _, RRegs vs => [u8 (len vs * 2)] ++ regs_to_bytes vs
  | _, RPair a v => be16 a ++ be16 v
  | _, RCoil _ _ => []
  end.

Ltac op_limits := unfold MaxCoilCount, MaxRegisterCount, MaxWriteCoilCount,
  MaxWriteRegisterCount, MaxReadWriteReadCount, MaxReadWriteWriteCount, is_u16, is_u8 in *.

Lemma ceil8_bound n m : 0 <= n <= 8 * m -> 0 <= ceil8 n <= m.
Proof. unfold ceil8. intros. dlia. Qed.

Lemma generate_payload o : op_ok o -> generate o = Ok (payload o).
Proof.
  destruct o as [a q|a q|a q|a q|a v|a v|a vs|a vs|ra rq wa vs]; cbn [op_ok generate payload]; intros Ho.
  1-4: unfold GenerateReadCoilsRequest, GenerateReadDiscreteInputsRequest,
    GenerateReadHoldingRegistersRequest, GenerateReadInputRegistersRequest;
    rewrite read_request_bytes by apply Ho; rewrite !u16_small by (op_limits; lia); done.
  - transitivity (Ok (be16 (u16 a) ++ be16 (if v then CoilOnU16 else CoilOffU16)));
      [by destruct v|by rewrite u16_small].
  - destruct Ho as [Ha Hv]. rewrite <-(u16_small a Ha) at 2. reflexivity.
  - destruct Ho as [Ha Hl]. rewrite write_coils_bytes by done.
    pose proof (ceil8_bound (len vs) 246).
    rewrite !u16_small, u8_small by (op_limits; lia). by rewrite <-!app_assoc.
  - destruct Ho as (Ha & Hl & Hvs). rewrite write_regs_bytes by done.
    rewrite !u16_small, u8_small by (op_limits; lia). by rewrite <-!app_assoc.
  - destruct Ho as (Ha & Hrq & Hwa & Hl & Hvs). rewrite read_write_bytes by done.
    rewrite !u16_small, u8_small by (op_limits; lia). by rewrite <-!app_assoc.
Qed.

Lemma payload_carries o : op_ok o -> carries o (payload o).
Proof.
  destruct o as [| | | | | |a vs| |]; try done. intros [Ha Hl]. exists (bits_to_bytes vs).
  repeat split; [by lens|]. cbn [payload]. rewrite !app_assoc. by apply unpack_packed.
Qed.

Lemma payload_fits o : op_ok o -> bytes_ok (payload o) /\ 4 <= len (payload o) <= 252.
Proof.
  intros Ho. split.
  - destruct o; cbn [op_ok payload] in *; rewrite ?Forall_app; repeat split; auto with go;
      repeat constructor; destruct_and?; try (op_limits; lia);
      pose proof (ceil8_bound (len values) 246); op_limits; lia.
  - destruct o; cbn [op_ok payload] in *; lens; try lia; destruct_and?; op_limits; try lia.
    pose proof (ceil8_bound (len values) 246). lia.
Qed.

#[export] Instance answer_Proper o : Proper ((≡) ==> (=)) (answer o).
Proof.
  intros m n Hmn. destruct o; simpl; try done;
    (f_equal; apply cells_ext; intros x Hx; by destruct (Hmn x Hx) as (? & ? & ? & ?)).
Qed.

Lemma parse_reply o m :
  op_ok o -> (forall x, is_u16 (holding m x) /\ is_u16 (input m x)) ->
  parse o (reply_bytes o m) = Ok (answer o m).
Proof.
  intros Ho Hm. assert (forall f a q, (forall x, is_u16 (f x)) -> Forall is_u16 (cells f a q))
    by (intros; by apply cells_Forall).
  destruct o as [a q|a q|a q|a q|a v|a v|a vs|a vs|ra rq wa vs];
    cbn [op_ok parse reply_bytes answer payload] in *; destruct_and?.
  1-2: unfold ParseReadCoilsResponse, ParseReadDiscreteInputsResponse;
    rewrite !len_cells by lia; rewrite parse_bits_packed by (rewrite ?len_cells; lia);
    simpl; by rewrite map_id.
  1-2: unfold ParseReadHoldingRegistersResponse, ParseReadInputRegistersResponse;
    rewrite !len_cells by lia; rewrite parse_regs_packed by
      (rewrite ?len_cells; try lia; auto; intros; apply H; intros; apply Hm);
    simpl; by rewrite map_id.
  - unfold ParseWriteSingleCoilResponse. lens. simpl negb. cbv iota.
    rewrite be16_at_head by done. go_bind. rewrite <-(app_nil_r (be16 (if v then _ else _))).
    rewrite be16_at_mid by (try done; unfold is_u16, CoilOnU16, CoilOffU16; destruct v; lia).
    by destruct v.
  - unfold ParseWriteSingleRegisterResponse. by rewrite parse_echo_bytes.
  - unfold ParseWriteMultipleCoilsResponse. by rewrite parse_echo_bytes by (op_limits; lia).
  - unfold ParseWriteMultipleRegistersResponse. by rewrite parse_echo_bytes by (op_limits; lia).
  - unfold ParseReadWriteMultipleRegistersResponse, ParseReadHoldingRegistersResponse.
    rewrite !len_cells by lia; rewrite parse_regs_packed by
      (rewrite ?len_cells; op_limits; try lia; auto; intros; apply H; intros; apply Hm).
    simpl; by rewrite map_id.
Qed.

(** ** The server implements the operations *)
Section Refinement.
Context {S : Type} `{DataStoreLaws S}.

Definition op_handler (o : op) : Request -> SM S Response :=
  match o with
  | OpReadCoils _ _ => HandleReadCoils
  | OpReadDiscreteInputs _ _ => HandleReadDiscreteInputs
  | OpReadHoldingRegisters _ _ => HandleReadHoldingRegisters
  | OpReadInputRegisters _ _ => HandleReadInputRegisters
  | OpWriteSingleCoil _ _ => HandleWriteSingleCoil
  | OpWriteSingleRegister _ _ => HandleWriteSingleRegister
  | OpWriteMultipleCoils _ _ => HandleWriteMultipleCoils
  | OpWriteMultipleRegisters _ _ => HandleWriteMultipleRegisters
  | OpReadWriteMultipleRegisters _ _ _ _ => HandleReadWriteMultipleRegisters
  end.

Lemma dispatch_op o req s :
  fc_of req = op_fc o -> dispatchRequest setupDefaultHandlers req s = op_handler o req s.
Proof. intros E. unfold dispatchRequest. rewrite E. by destruct o. Qed.

(** A request that carries a valid operation is executed and answered. *)
Lemma op_accept o req s :
  op_ok o -> carries o (data_of req) -> store_ok s ->
  exists s', op_handler o req s = (Ok (reply req (reply_bytes o (view s'))), s') /\
    store_ok s' /\ view s' ≡ effect o (view s).
Proof.
  intros Ho Hd Hs.
  destruct o as [a q|a q|a q|a q|a v|a v|a vs|a vs|ra rq wa vs];
    cbn [op_ok carries op_handler effect reply_bytes answer] in *; destruct_and?.
  - exists s. rewrite len_cells by lia. repeat split; auto.
    apply (read_bits_accept _ _ _ s s a q); try done; try (op_limits; lia).
    + by apply ReadCoils_spec. + apply len_cells; lia.
  - exists s. rewrite len_cells by lia. repeat split; auto.
    apply (read_bits_accept _ _ _ s s a q); try done; try (op_limits; lia).
    + by apply ReadDiscreteInputs_spec. + apply len_cells; lia.
  - exists s. rewrite len_cells by lia. repeat split; auto.
    apply (read_regs_accept _ _ _ s s a q); try done; try (op_limits; lia).
    + by apply ReadHoldingRegisters_spec. + apply len_cells; lia.
  - exists s. rewrite len_cells by lia. repeat split; auto.
    apply (read_regs_accept _ _ _ s s a q); try done; try (op_limits; lia).
    + by apply ReadInputRegisters_spec. + apply len_cells; lia.
  - destruct (WriteSingleCoil_spec s a v) as (s' & Hw & Hs' & Hv); [done..|].
    exists s'. split; [|done]. rewrite <-Hd. by apply (write_coil_accept _ _ _ a v).
  - destruct (WriteSingleRegister_spec s a v) as (s' & Hw & Hs' & Hv); [done..|].
    exists s'. split; [|done]. change (be16 a ++ be16 v) with (payload (OpWriteSingleRegister a v)).
    rewrite <-Hd. by apply (write_reg_accept _ _ _ a v).
  - destruct Hd as (r & Hd & Hr & Hvs).
    destruct (WriteMultipleCoils_spec s a vs) as (s' & Hw & Hs' & Hv); [done..|].
    exists s'. split; [|done]. apply (write_coils_accept _ _ _ _ _ r vs); try done. by rewrite <-Hd.
  - destruct (WriteMultipleRegisters_spec s a vs) as (s' & Hw & Hs' & Hv); [done..|].
    exists s'. split; [|done]. by apply (write_regs_accept _ _ _ a vs).
  - destruct (WriteMultipleRegisters_spec s wa vs) as (s' & Hw & Hs' & Hv);
      [done|done|op_limits; lia|done|].
    exists s'. split; [|done]. apply (read_write_accept _ _ s' _ ra rq wa vs); try done.
    apply ReadHoldingRegisters_spec; [done|op_limits; lia].
Qed.

(** C2: End-to-end refinement.  For every valid operation and every lawful data
    store, the payload the client generates, dispatched by the server's default
    handler table, changes the store exactly as the abstract operation changes
    the device's memory, and the client's parser turns the server's reply into
    the abstract answer (for a read/write, computed after the write). *)
Theorem operation_refinement (o : op) (txID unitID now : Z) (s : S) :
  op_ok o -> store_ok s ->
  exists data d s',
    generate o = Ok data /\
    let req := SetTransactionID (NewRequest now unitID (op_fc o) data) txID in
    dispatchRequest setupDefaultHandlers req s = (Ok (reply req d), s') /\
    store_ok s' /\ view s' ≡ effect o (view s) /\
    parse o d = Ok (answer o (effect o (view s))).
Proof.
  intros Ho Hs. exists (payload o).
  set (req := SetTransactionID (NewRequest now unitID (op_fc o) (payload o)) txID).
  destruct (op_accept o req s) as (s' & Hh & Hs' & Hv); [done|by apply payload_carries|done|].
  exists (reply_bytes o (view s')), s'. split; [by apply generate_payload|].
  cbv zeta. fold req. rewrite (dispatch_op o) by done.
  split; [done|]. split; [done|]. split; [done|]. rewrite <-Hv. apply parse_reply; [done|]. intros x. by apply view_u16.
Qed.

Lemma reply_fits o m : op_ok o -> bytes_ok (reply_bytes o m) /\ len (reply_bytes o m) <= 252.
Proof.
  intros Ho. split.
  - destruct o; cbn [reply_bytes answer payload]; rewrite ?Forall_app; repeat split;
      auto with go; repeat constructor; apply u8_range.
  - destruct o; cbn [op_ok reply_bytes answer payload] in *; destruct_and?; op_limits; lens;
      rewrite ?len_cells by lia; try lia;
      pose proof (ceil8_bound quantity 250); lia.
Qed.

(** The case of function code [F], whose handler is classified by [lem]: a
    rejected request is answered with exception 3, otherwise [T] is what is known
    of the payload. *)
Ltac on_fc req F lem :=
  destruct (decide (fc_of req = F)) as [E|?];
  [ rewrite E; let Hr := fresh in destruct lem as [T|Hr];
    [ right; right
    | left; unfold rejected in Hr; rewrite E in Hr;
      exists ExceptionInvalidDataValue; split; [set_solver|exact Hr] ]
  | ].

(** Every request is unsupported, malformed, a device-identification request or
    carries a valid operation. *)
Lemma dispatch_cases req (s : S) :
  bytes_ok (data_of req) ->
  (exists ec, ec ∈ [ExceptionFunctionCodeNotSupported; ExceptionInvalidDataValue] /\
     dispatchRequest setupDefaultHandlers req s = (Err (NewModbusError (fc_of req) ec), s)) \/
  (fc_of req = FuncReadDeviceIdentification /\ exists d,
     dispatchRequest setupDefaultHandlers req s = (Ok (reply req d), s) /\
     bytes_ok d /\ len d <= 252) \/
  (exists o, op_ok o /\ fc_of req = op_fc o /\ carries o (data_of req)).
Proof.
  intros Hok. unfold dispatchRequest.
  on_fc req FuncReadCoils (read_bits_total req MaxCoilCount ReadCoils s Hok).
  { destruct T as (a & q & Hd & Ha & _ & Hq). by exists (OpReadCoils a q). }
  on_fc req FuncReadDiscreteInputs (read_bits_total req MaxCoilCount ReadDiscreteInputs s Hok).
  { destruct T as (a & q & Hd & Ha & _ & Hq). by exists (OpReadDiscreteInputs a q). }
  on_fc req FuncReadHoldingRegisters
    (read_regs_total req MaxRegisterCount ReadHoldingRegisters s Hok).
  { destruct T as (a & q & Hd & Ha & _ & Hq). by exists (OpReadHoldingRegisters a q). }
  on_fc req FuncReadInputRegisters
    (read_regs_total req MaxRegisterCount ReadInputRegisters s Hok).
  { destruct T as (a & q & Hd & Ha & _ & Hq). by exists (OpReadInputRegisters a q). }
  on_fc req FuncWriteSingleCoil (write_coil_total req s Hok).
  { destruct T as (a & v & Ha & Hd). by exists (OpWriteSingleCoil a v). }
  on_fc req FuncWriteSingleRegister (write_reg_total req s Hok).
  { destruct T as (a & v & Ha & Hv & Hd). by exists (OpWriteSingleRegister a v). }
  on_fc req FuncWriteMultipleCoils (write_coils_total req s Hok).
  { destruct T as (a & r & vs & Ha & Hl & Hd & Hr & Hvs).
    exists (OpWriteMultipleCoils a vs). split; [done|]. split; [done|]. by exists r. }
  on_fc req FuncWriteMultipleRegisters (write_regs_total req s Hok).
  { destruct T as (a & vs & Ha & Hl & Hvs & Hd). by exists (OpWriteMultipleRegisters a vs). }
  on_fc req FuncReadWriteMultipleRegisters (read_write_total req s Hok).
  { destruct T as (ra & rq & wa & vs & Hra & Hwa & Hrq & Hl & Hvs & Hd).
    by exists (OpReadWriteMultipleRegisters ra rq wa vs). }
  destruct (decide (fc_of req = FuncReadDeviceIdentification)) as [E|N].
  { rewrite E. destruct (device_id_total req s Hok) as
      [(code & id & d & r & Hd & He & Hok' & Hl & _ & Hr)|Hr].
    - right; left. split; [done|]. by exists d.
    - left. unfold rejected in Hr. rewrite E in Hr.
      exists ExceptionInvalidDataValue. split; [set_solver|exact Hr]. }
  left. exists ExceptionFunctionCodeNotSupported. split; [set_solver|].
  unfold setupDefaultHandlers, SetHandler.
  rewrite !lookup_insert_ne by (intros F; by rewrite F in *). by rewrite lookup_empty.
Qed.

(** C4: No request can make the default handlers panic or corrupt the store.
    For every function code and every payload, the dispatcher either rejects the
    request with exception 1 (unknown function) or 3 (malformed payload) and
    leaves the store untouched, or the payload carries a valid operation (or is a
    device-identification request) and the reply is within the 252 data bytes of
    a Modbus PDU. *)
Theorem dispatch_total (req : Request) (s : S) :
  bytes_ok (data_of req) -> store_ok s ->
  (exists ec, ec ∈ [ExceptionFunctionCodeNotSupported; ExceptionInvalidDataValue] /\
     dispatchRequest setupDefaultHandlers req s = (Err (NewModbusError (fc_of req) ec), s)) \/
  exists d s', dispatchRequest setupDefaultHandlers req s = (Ok (reply req d), s') /\
    store_ok s' /\ bytes_ok d /\ len d <= 252 /\
    ((fc_of req = FuncReadDeviceIdentification /\ s' = s) \/
     exists o, op_ok o /\ op_fc o = fc_of req /\ carries o (data_of req) /\
       d = reply_bytes o (view s') /\ view s' ≡ effect o (view s)).
Proof.
  intros Hok Hs. destruct (dispatch_cases req s Hok) as [(ec & Hec & E)|[(Hf & d & E & Hd & Hl)|Ho]].
  - left. by exists ec.
  - right. exists d, s. rewrite E. repeat split; try done. by left.
  - right. destruct Ho as (o & Ho & Hf & Hc). rewrite (dispatch_op o) by done.
    destruct (op_accept o req s Ho Hc Hs) as (s' & E & Hs' & Hv).
    destruct (reply_fits o (view s') Ho) as [Hd Hl].
    exists (reply_bytes o (view s')), s'. repeat split; try done. right. by exists o.
Qed.
End Refinement.

(** A read/write of an empty in-memory store: register 11 is written and the
    read of registers 10 and 11 sees it. *)
Lemma operation_refinement_witness :
  exists data d (s' : MemoryStore),
    generate (OpReadWriteMultipleRegisters 10 2 11 [7]) = Ok data /\
    dispatchRequest setupDefaultHandlers
      (SetTransactionID (NewRequest 0 1 0x17 data) 5) NewMemoryStore =
      (Ok (reply (SetTransactionID (NewRequest 0 1 0x17 data) 5) d), s') /\
    parse (OpReadWriteMultipleRegisters 10 2 11 [7]) d = Ok (RRegs [0; 7]).
Proof.
  destruct (operation_refinement (OpReadWriteMultipleRegisters 10 2 11 [7]) 5 1 0
    (NewMemoryStore)) as (data & d & s' & Hg & Hd & _ & _ & Hp).
  - decided.
  - split; apply map_Forall_empty.
  - exists data, d, s'. split; [exact Hg|]. split; [exact Hd|]. exact Hp.
Defined.

Lemma dispatch_total_witness :
  (exists ec, ec ∈ [ExceptionFunctionCodeNotSupported; ExceptionInvalidDataValue] /\
     dispatchRequest setupDefaultHandlers (NewRequest 0 1 3 [0; 0; 0]) NewMemoryStore =
       (Err (NewModbusError 3 ec), NewMemoryStore)) \/
  exists d s', dispatchRequest setupDefaultHandlers (NewRequest 0 1 3 [0; 0; 0])
      NewMemoryStore = (Ok (reply (NewRequest 0 1 3 [0; 0; 0]) d), s').
Proof.
  destruct (dispatch_total (NewRequest 0 1 3 [0; 0; 0]) NewMemoryStore) as [E|(d & s' & E & _)].
  - repeat constructor; unfold is_u8; lia.
  - split; apply map_Forall_empty.
  - left. exact E.
  - right. by exists d, s'.
Defined.
