(* ===== verification/NetStream.v ===== *)
(** * The receiving side of a network connection

    What a goroutine that reads a [net.Conn] can observe, as a list of events:
    a byte arrives, the read deadline passes, or the read fails because the
    connection was closed locally.  The end of the list is the peer's close
    (EOF).  [conn_read_full] is [io.ReadFull] on such a connection: bytes
    consumed before an error are lost to the caller. *)
From S2P Require Import Prelude Bytes.

Inductive rx : Type := Byte (b : Z) | Deadline | Closed.

#[export] Instance rx_EqDecision : EqDecision rx.
Proof. solve_decision. Defined.

(** [n] bytes still to read, [acc] already read. *)
Fixpoint conn_read (n : nat) (acc : bytes) (evs : list rx) : outcome bytes * list rx :=
  match n with
  | O => (Ok acc, evs)
  | S n =>
      match evs with
      | [] => (Err (match acc with [] => EOF | _ => ErrUnexpectedEOF end), [])
      | Byte b :: evs => conn_read n (acc ++ [b]) evs
      | Deadline :: evs => (Err NetTimeout, evs)
      | Closed :: evs => (Err NetClosed, evs)
      end
  end.
Definition conn_read_full (n : nat) (evs : list rx) : outcome bytes * list rx :=
  conn_read n [] evs.

(** Bytes arriving without interruption. *)
Definition arrive (bs : bytes) : list rx := map Byte bs.

(** Every event carries a byte value. *)
Definition rx_ok (e : rx) : Prop := match e with Byte b => is_u8 b | _ => True end.

Lemma arrive_app a b : arrive (a ++ b) = arrive a ++ arrive b.
Proof. apply map_app. Qed.
Lemma arrive_ok bs : bytes_ok bs -> Forall rx_ok (arrive bs).
Proof. intros H. by apply Forall_map. Qed.

Lemma conn_read_arrive bs : forall acc evs n,
  n = length bs -> conn_read n acc (arrive bs ++ evs) = (Ok (acc ++ bs), evs).
Proof.
  induction bs as [|b bs IH]; intros acc evs n ->; simpl; [by rewrite app_nil_r|].
  rewrite IH by done. by rewrite <-app_assoc.
Qed.
Lemma conn_read_full_arrive bs evs n :
  n = length bs -> conn_read_full n (arrive bs ++ evs) = (Ok bs, evs).
Proof. intros Hn. by apply conn_read_arrive. Qed.

(** A read never panics, keeps the later events, makes progress, and on success
    returns exactly [n] byte values. *)
Lemma conn_read_spec n : forall acc evs r evs',
  conn_read n acc evs = (r, evs') ->
  (exists pre, evs = pre ++ evs' /\ ((n > 0)%nat -> evs <> [] -> pre <> [])) /\
  match r with
  | Ok bs => length bs = (length acc + n)%nat /\
             (Forall rx_ok evs -> bytes_ok acc -> bytes_ok bs)
  | Err e => (n > 0)%nat
  | Panic => False
  end.
Proof.
  induction n as [|n IH]; intros acc evs r evs' E; simpl in E.
  - injection E as <- <-. split; [by exists []; split; [|lia]|]. split; [lia|done].
  - destruct evs as [|[b| |] evs].
    + injection E as <- <-. split; [by exists []|lia].
    + destruct (IH _ _ _ _ E) as ((pre & -> & _) & Hr).
      split; [by exists (Byte b :: pre)|]. destruct r as [bs|e|]; [|lia|done].
      destruct Hr as [Hl Hok]. rewrite length_app in Hl. simpl in Hl. split; [lia|].
      intros [Hb Hevs]%Forall_cons Hacc. apply Hok; [done|]. apply Forall_app; auto.
    + injection E as <- <-. split; [by exists [Deadline]|lia].
    + injection E as <- <-. split; [by exists [Closed]|lia].
Qed.

Lemma conn_read_full_spec n evs r evs' :
  conn_read_full n evs = (r, evs') -> Forall rx_ok evs ->
  (length evs' <= length evs)%nat /\ Forall rx_ok evs' /\
  ((n > 0)%nat -> evs <> [] -> (length evs' < length evs)%nat) /\
  match r with Ok bs => length bs = n /\ bytes_ok bs | Err _ => True | Panic => False end.
Proof.
  intros E Hok. destruct (conn_read_spec _ _ _ _ _ E) as ((pre & -> & Hp) & Hr).
  pose proof (proj1 (Forall_app _ _ _) Hok) as [Hpre Hevs]. rewrite length_app.
  split; [lia|]. split; [done|]. split.
  - intros Hn Hne. specialize (Hp Hn Hne). destruct pre; [done|simpl; lia].
  - destruct r as [bs|e|]; [|done|done]. destruct Hr as [Hl Hb]. split; [done|]. by apply Hb.
Qed.

(** Too few bytes before the deadline: they are consumed and lost. *)
Lemma conn_read_deadline bs evs n :
  (length bs < n)%nat -> conn_read_full n (arrive bs ++ Deadline :: evs) = (Err NetTimeout, evs).
Proof.
  unfold conn_read_full. generalize (@nil Z). revert n.
  induction bs as [|b bs IH]; intros [|n] acc Hl; simpl in *; try lia; [done|]. apply IH. lia.
Qed.
