(* ===== verification/ModbusServer.v ===== *)
(** * The Modbus TCP server

    Models [protocol/modbus/server.go]: the per-connection loop
    [handleConnection] over an event stream: framing, dispatch, exception
    replies, counters. *)
From S2P Require Import Prelude Bytes ModbusTypes ModbusFrame ModbusProtocol ModbusStore ModbusHandlers.
From S2P Require Import ModbusSpec NetStream.

(** ** Per-connection state *)

(** [clientConn]: the counters and the frames handed to [conn.Write], whose
    error [sendResponse] only logs. A function code absent from [fcCount] has
    count zero. *)
Record clientConn : Type := mkClient {
  rxCount : Z; txCount : Z; fcCount : gmap Z Z; sent : list bytes }.

Definition NewClient : clientConn := mkClient 0 0 ∅ [].

Definition count_rx (c : clientConn) (functionCode : Z) : clientConn :=
  mkClient (u64 (rxCount c + 1)) (txCount c)
    (<[functionCode := u64 (default 0 (fcCount c !! functionCode) + 1)]> (fcCount c)) (sent c).
Definition count_tx (c : clientConn) : clientConn :=
  mkClient (rxCount c) (u64 (txCount c + 1)) (fcCount c) (sent c).

Definition sendResponse (c : clientConn) (response : Response) : clientConn :=
  match Response_Encode response with
  | Ok data => mkClient (rxCount c) (txCount c) (fcCount c) (sent c ++ [data])
  | _ => c
  end.

(** [fcSnapshot]: the codes with a positive count. *)
Definition fcSnapshot (c : clientConn) : gmap Z Z := filter (fun kv => 0 < kv.2) (fcCount c).

(** What one iteration of the loop does: go round again, return, or crash. *)
Inductive loop : Type := Next | Return | Crash.

Section Connection.
Context {S : Type} `{DataStore S}.
(** [time.Now()] at the n-th received request. *)
Variable clock : Z -> Z.

Definition conn_state : Type := (clientConn * S)%type.

(** The body of the loop once a frame has been read. *)
Definition process (handlers : gmap Z HandlerFunc) (transactionID unitID functionCode : Z)
  (pduData : bytes) (st : conn_state) : loop * conn_state :=
  let '(c, s) := st in
  let request :=
    SetTransactionID (NewRequest (clock (rxCount c)) unitID functionCode pduData)
      transactionID in
  let c := count_rx c functionCode in
  match dispatchRequest handlers request s with
  | (Ok response, s') => (Next, (count_tx (sendResponse c response), s'))
  | (Err (ModbusErr _ exceptionCode), s') =>
      let exceptionResponse :=
        NewResponse transactionID unitID (Z.lor functionCode ExceptionBit) [u8 exceptionCode] in
      (Next, (count_tx (sendResponse c exceptionResponse), s'))
  | (Err _, s') => (Return, (c, s'))
  | (Panic, s') => (Crash, (c, s'))
  end.

(** One iteration of the [for] loop. *)
Definition serve_once (handlers : gmap Z HandlerFunc) (evs : list rx) (st : conn_state)
  : loop * list rx * conn_state :=
  match conn_read_full (Z.to_nat TCPHeaderLength) evs with
  | (Err NetTimeout, evs) => (Next, evs, st)
  | (Err _, evs) => (Return, evs, st)
  | (Panic, evs) => (Crash, evs, st)
  | (Ok header, evs) =>
      match be16_at header 0 2, be16_at header 2 4, be16_at header 4 6, go_index header 6 with
      | Ok transactionID, Ok protocolID, Ok length, Ok unitID =>
          if negb (protocolID =? TCPProtocolIdentifier) then (Next, evs, st) else
          let dataLength := length - 1 in
          if dataLength <=? 0 then (Next, evs, st) else
          match conn_read_full (Z.to_nat dataLength) evs with
          | (Err _, evs) => (Return, evs, st)
          | (Panic, evs) => (Crash, evs, st)
          | (Ok data, evs) =>
              match data with
              | functionCode :: pduData =>
                  let '(l, st) := process handlers transactionID unitID functionCode pduData st
                  in (l, evs, st)
              | [] => (Crash, evs, st)
              end
          end
      | _, _, _, _ => (Crash, evs, st)
      end
  end.

(** The loop; [None] when the fuel runs out before it returns. *)
Fixpoint handleConnection (fuel : nat) (handlers : gmap Z HandlerFunc) (evs : list rx)
  (st : conn_state) : option (loop * conn_state) :=
  match fuel with
  | O => None
  | Datatypes.S fuel =>
      match serve_once handlers evs st with
      | (Next, evs, st) => handleConnection fuel handlers evs st
      | (l, _, st) => Some (l, st)
      end
  end.

(** Enough fuel: an iteration that goes round again has consumed an event. *)
Definition loop_fuel (evs : list rx) : nat := Datatypes.S (length evs).
End Connection.
Arguments conn_state : clear implicits.

(** ** Lemmas: one frame in, one frame out *)

(** A well-formed Modbus TCP frame with header [m], at most 260 bytes long. *)
Definition frame_ok (m : MBAP) (f : bytes) : Prop :=
  exists p, f = adu m p /\ mbap_ok m /\ pdu_ok p /\ len (Data p) <= 252.

Lemma frame_ok_length m f : frame_ok m f -> 8 <= len f <= MaxADULength.
Proof.
  intros (p & -> & _ & _ & Hl). rewrite len_adu. pose proof (len_nonneg (Data p)).
  unfold MaxADULength. lia.
Qed.

Definition answered (c : clientConn) (functionCode : Z) (f : bytes) : clientConn :=
  let c := count_rx c functionCode in
  count_tx (mkClient (rxCount c) (txCount c) (fcCount c) (sent c ++ [f])).

Lemma sendResponse_adu c r :
  sendResponse c r =
    mkClient (rxCount c) (txCount c) (fcCount c) (sent c ++ [adu (resp_MBAP r) (resp_PDU r)]).
Proof. unfold sendResponse. by rewrite Response_Encode_adu. Qed.

Section ConnectionLemmas.
Context {S : Type} `{DataStoreLaws S}.
Variable clock : Z -> Z.

(** The request the loop builds from the [n]-th frame. *)
Definition stamped (n : Z) (r : Request) : Request :=
  mkRequest (req_MBAP r) (req_PDU r) (clock n).

(** The frame the loop sends for the outcome of a dispatch. *)
Definition reply_frame (r : Request) (o : outcome Response) : bytes :=
  match o with
  | Ok response => adu (resp_MBAP response) (resp_PDU response)
  | Err (ModbusErr _ ec) =>
      adu (mkMBAP (GetTransactionID r) TCPProtocolIdentifier (GetUnitID r))
          (mkPDU (Z.lor (fc_of r) ExceptionBit) [u8 ec])
  | _ => []
  end.

Lemma dispatch_safe req (s : S) :
  is_u8 (fc_of req) -> bytes_ok (data_of req) -> store_ok s ->
  exists o s', dispatchRequest setupDefaultHandlers req s = (o, s') /\ store_ok s' /\
    ((exists d, o = Ok (reply req d) /\ bytes_ok d /\ len d <= 252) \/
     (exists ec, o = Err (ModbusErr (fc_of req) ec))).
Proof.
  intros Hfc Hok Hs.
  destruct (dispatch_cases req s Hok) as [(ec & _ & E)|[(Hf & d & E & Hd & Hl)|Ho]].
  - eexists _, s. split; [exact E|]. split; [done|]. right. by exists ec.
  - eexists _, s. split; [exact E|]. split; [done|]. left. by exists d.
  - destruct Ho as (o & Ho & Hf & Hc).
    destruct (op_accept o req s Ho Hc Hs) as (s' & E & Hs' & _).
    rewrite <-(dispatch_op o) in E by done.
    eexists _, s'. split; [exact E|]. split; [done|]. left.
    eexists. split; [done|]. by apply reply_fits.
Qed.

Definition server_request (r : Request) : Prop :=
  request_ok r /\ ProtocolID (req_MBAP r) = TCPProtocolIdentifier.

#[export] Instance server_request_dec r : Decision (server_request r).
Proof. unfold server_request. apply _. Defined.

(** A processed request is answered by exactly one well-formed frame, which
    carries the request's transaction and unit identifiers. *)
Lemma process_answers r c (s : S) o s' :
  server_request r -> store_ok s ->
  dispatchRequest setupDefaultHandlers (stamped (rxCount c) r) s = (o, s') ->
  process clock setupDefaultHandlers (GetTransactionID r) (GetUnitID r) (fc_of r) (data_of r)
    (c, s) = (Next, (answered c (fc_of r) (reply_frame r o), s')) /\
  store_ok s' /\ frame_ok (req_MBAP r) (reply_frame r o).
Proof.
  intros [[[Ht [Hp Hu]] [Hfc Hd]] Hpid] Hs Ho.
  destruct (dispatch_safe (stamped (rxCount c) r) s) as (o' & s0 & E & Hs' & Hcase); [done..|].
  rewrite Ho in E. injection E as <- <-.
  assert (SetTransactionID (NewRequest (clock (rxCount c)) (GetUnitID r) (fc_of r) (data_of r))
    (GetTransactionID r) = stamped (rxCount c) r) as Heq.
  { destruct r as [[t p u] [f d] cr]. simpl in *. by subst p. }
  assert (mkMBAP (GetTransactionID r) TCPProtocolIdentifier (GetUnitID r) = req_MBAP r) as Hm.
  { destruct r as [[t p u] [f d] cr]. simpl in *. by subst p. }
  unfold process. rewrite Heq, Ho. split; [|split; [done|]].
  - destruct Hcase as [(d & -> & _)|(ec & ->)]; rewrite sendResponse_adu; done.
  - destruct Hcase as [(d & -> & Hd' & Hl)|(ec & ->)]; simpl reply_frame.
    + exists (mkPDU (fc_of r) d). split; [by rewrite <-Hm|]. done.
    + rewrite Hm. eexists. split; [done|]. split; [done|]. split; [|done].
      split; [by apply set_exception_bit|]. constructor; [apply u8_range|constructor].
Qed.

(** What follows the header of a frame that has arrived. *)
Definition header_bytes (tid pid n u : Z) : bytes :=
  be16 tid ++ be16 pid ++ be16 n ++ [u].

Lemma serve_header handlers tid pid n u evs (st : conn_state S) :
  is_u16 tid -> is_u16 pid -> is_u16 n ->
  serve_once clock handlers (arrive (header_bytes tid pid n u) ++ evs) st =
  if negb (pid =? TCPProtocolIdentifier) then (Next, evs, st) else
  if n - 1 <=? 0 then (Next, evs, st) else
  match conn_read_full (Z.to_nat (n - 1)) evs with
  | (Ok (fc :: pduData), evs) =>
      ((process clock handlers tid u fc pduData st).1, evs,
       (process clock handlers tid u fc pduData st).2)
  | (Err _, evs) => (Return, evs, st)
  | (_, evs) => (Crash, evs, st)
  end.
Proof.
  intros Ht Hp Hl. unfold serve_once. rewrite conn_read_full_arrive by done.
  unfold header_bytes. rewrite be16_at_head by done.
  rewrite (be16_at_mid _ _ _ 2 4) by done. rewrite (app_assoc (be16 tid)).
  rewrite (be16_at_mid _ _ _ 4 6) by done. rewrite (app_assoc (be16 tid ++ _)).
  rewrite <-(app_nil_r [u]), go_index_mid by done.
  destruct (negb (pid =? _)), (n - 1 <=? 0),
    (conn_read_full (Z.to_nat (n - 1)) evs) as [[[|fc d]|e|] evs']; try done.
  by destruct (process clock handlers tid u fc d st).
Qed.

(** Seven received bytes are a header. *)
Lemma header_split (h : bytes) :
  length h = 7%nat -> bytes_ok h -> exists tid pid n u,
    is_u16 tid /\ is_u16 pid /\ is_u16 n /\ is_u8 u /\ h = header_bytes tid pid n u.
Proof.
  intros Hl Hok. assert (len h = 7) by (unfold len; lia).
  destruct (split_be16 h Hok) as (t & r1 & Ht & Hr1 & -> & Hl1); [lia|].
  destruct (split_be16 r1 Hr1) as (p & r2 & Hp & Hr2 & -> & Hl2); [lia|].
  destruct (split_be16 r2 Hr2) as (n & r3 & Hn & Hr3 & -> & Hl3); [lia|].
  destruct (split_byte r3 Hr3) as (u & r4 & Hu & _ & -> & Hl4); [lia|].
  exists t, p, n, u. repeat (split; [done|]). unfold header_bytes.
  destruct r4; [by rewrite app_nil_r|]. rewrite len_cons in Hl4. pose proof (len_nonneg r4). lia.
Qed.

(** One iteration on any events: no crash, progress, at most one reply. *)
Lemma serve_once_total evs c (s : S) :
  Forall rx_ok evs -> store_ok s ->
  exists l evs' c' s',
    serve_once clock setupDefaultHandlers evs (c, s) = (l, evs', (c', s')) /\
    l <> Crash /\ store_ok s' /\ Forall rx_ok evs' /\
    (l = Next -> (length evs' < length evs)%nat) /\
    (c' = c \/ exists fc m f, c' = answered c fc f /\ frame_ok m f).
Proof.
  intros Hok Hs. destruct (conn_read_full 7 evs) as [r evs1] eqn:E.
  destruct (conn_read_full_spec _ _ _ _ E Hok) as (Hle & Hok1 & Hprog & Hr).
  destruct r as [h|e|]; [| |done].
  - destruct Hr as [Hl Hh].
    assert (length evs1 < length evs)%nat as Hlt.
    { destruct evs as [|e evs]; [discriminate E|]. apply Hprog; [lia|done]. }
    destruct (header_split h Hl Hh) as (tid & pid & n & unit & Ht & Hp & Hn & Hu & ->).
    assert (serve_once clock setupDefaultHandlers evs (c, s) =
      serve_once clock setupDefaultHandlers
        (arrive (header_bytes tid pid n unit) ++ evs1) (c, s)) as ->.
    { unfold serve_once. change (Z.to_nat TCPHeaderLength) with 7%nat.
      by rewrite E, conn_read_full_arrive. }
    rewrite serve_header by done.
    destruct (Z.eqb_spec pid TCPProtocolIdentifier) as [->|]; cbn [negb];
      [|eexists _, _, c, s; repeat split; try done; by left].
    destruct (Z.leb_spec (n - 1) 0); [eexists _, _, c, s; repeat split; try done; by left|].
    destruct (conn_read_full (Z.to_nat (n - 1)) evs1) as [r evs2] eqn:E2.
    destruct (conn_read_full_spec _ _ _ _ E2 Hok1) as (Hle2 & Hok2 & _ & Hr2).
    destruct r as [data|e|]; [|eexists _, _, c, s; repeat split; try done; by left|done].
    destruct Hr2 as [Hl2 Hd]. destruct data as [|fc d]; [simpl in Hl2; lia|].
    inversion_clear Hd as [|? ? Hfc Hdata].
    set (r := mkRequest (mkMBAP tid 0 unit) (mkPDU fc d) 0).
    destruct (dispatchRequest setupDefaultHandlers (stamped (rxCount c) r) s)
      as [o s'] eqn:Eo.
    destruct (process_answers r c s o s') as (Hproc & Hs' & Hf);
      [|done|done|].
    { split; [|done]. by repeat split; try apply Ht; try apply Hu; try apply Hfc. }
    change (process clock setupDefaultHandlers tid unit fc d (c, s)) with
      (process clock setupDefaultHandlers (GetTransactionID r) (GetUnitID r) (fc_of r)
        (data_of r) (c, s)).
    rewrite Hproc. eexists _, _, _, s'. repeat split; try done; [lia|].
    right. by eexists _, _, _.
  - unfold serve_once. change (Z.to_nat TCPHeaderLength) with 7%nat. rewrite E.
    destruct (decide (e = NetTimeout)) as [->|Hne].
    + eexists _, _, c, s. repeat split; try done; [|by left]. intros _.
      destruct evs as [|ev evs]; [discriminate E|]. apply Hprog; [lia|done].
    + exists Return, evs1, c, s. destruct e; try done; repeat split; try done; by left.
Qed.

(** Every frame received so far has been answered and counted. *)
Definition balanced (c : clientConn) : Prop :=
  rxCount c = u64 (len (sent c)) /\ txCount c = u64 (len (sent c)).

Lemma answered_balanced c fc f : balanced c -> balanced (answered c fc f).
Proof.
  intros [Hr Ht]. unfold balanced, answered. simpl. rewrite Hr, Ht. lens.
  unfold u64. rewrite Zplus_mod_idemp_l. by rewrite Z.add_0_r.
Qed.

(** The loop with enough fuel returns, whatever arrives. *)
Lemma connection_runs fuel : forall evs c (s : S),
  (length evs < fuel)%nat -> Forall rx_ok evs -> store_ok s -> balanced c ->
  exists c' s' fs,
    handleConnection clock fuel setupDefaultHandlers evs (c, s) = Some (Return, (c', s')) /\
    store_ok s' /\ balanced c' /\ sent c' = sent c ++ fs /\
    Forall (fun f => exists m, frame_ok m f) fs.
Proof.
  induction fuel as [|fuel IH]; intros evs c s Hf Hok Hs Hb; [lia|]. cbn [handleConnection].
  destruct (serve_once_total evs c s Hok Hs) as (l & evs' & c' & s' & -> & Hl & Hs' & Hok' & Hp & Hc).
  assert (balanced c' /\ exists fs, sent c' = sent c ++ fs /\
    Forall (fun f => exists m, frame_ok m f) fs) as (Hb' & fs & Hsent & Hfs).
  { destruct Hc as [->|(fc & m & f & -> & Hfr)].
    - split; [done|]. exists []. by rewrite app_nil_r.
    - split; [by apply answered_balanced|]. exists [f]. split; [done|].
      constructor; [by exists m|constructor]. }
  destruct l; [|by exists c', s', fs|done].
  destruct (IH evs' c' s') as (c'' & s'' & fs' & E & Hs'' & Hb'' & Hsent' & Hfs');
    [specialize (Hp eq_refl); lia|done..|].
  exists c'', s'', (fs ++ fs'). repeat (split; [done|]).
  rewrite Hsent', Hsent, <-app_assoc. split; [done|]. by apply Forall_app.
Qed.

(** *** A stream of well-formed requests *)

(** The whole frame of a request, arriving. *)
Lemma serve_frame r c (s : S) evs :
  server_request r -> frame_fits (req_PDU r) ->
  serve_once clock setupDefaultHandlers (arrive (adu (req_MBAP r) (req_PDU r)) ++ evs) (c, s) =
  ((process clock setupDefaultHandlers (GetTransactionID r) (GetUnitID r) (fc_of r) (data_of r)
     (c, s)).1, evs,
   (process clock setupDefaultHandlers (GetTransactionID r) (GetUnitID r) (fc_of r) (data_of r)
     (c, s)).2).
Proof.
  intros [[(Ht & Hp & Hu) [Hfc Hd]] Hpid] Hf.
  pose proof (len_nonneg (Data (req_PDU r))). pose proof Hf as Hf'. unfold frame_fits in Hf'.
  replace (adu (req_MBAP r) (req_PDU r)) with
    (header_bytes (GetTransactionID r) (ProtocolID (req_MBAP r)) (2 + len (data_of r))
       (GetUnitID r) ++ (fc_of r :: data_of r)).
  2:{ unfold adu, header_bytes, fc_of, data_of, GetTransactionID, GetUnitID.
      rewrite frame_length by done. rewrite !u8_small by done. by rewrite <-!app_assoc. }
  rewrite arrive_app, <-app_assoc.
  rewrite serve_header by (try done; unfold is_u16, data_of; lia). rewrite Hpid. cbn [negb Z.eqb].
  destruct (Z.leb_spec (2 + len (data_of r) - 1) 0) as [Hle|_]; [unfold data_of in Hle; lia|].
  by rewrite conn_read_full_arrive by (unfold len, data_of; simpl; lia).
Qed.

(** The reference server: one request after the other, by the dispatcher. *)
Fixpoint serve_all (n : Z) (rs : list Request) (s : S) : list bytes * S :=
  match rs with
  | [] => ([], s)
  | r :: rs =>
      let '(o, s') := dispatchRequest setupDefaultHandlers (stamped n r) s in
      let '(fs, s'') := serve_all (u64 (n + 1)) rs s' in
      (reply_frame r o :: fs, s'')
  end.

Definition wire (rs : list Request) : bytes := flat_map (fun r => adu (req_MBAP r) (req_PDU r)) rs.

Lemma connection_serves rs : forall fuel c (s : S) fs s',
  Forall (fun r => server_request r /\ frame_fits (req_PDU r)) rs -> store_ok s ->
  (length (wire rs) < fuel)%nat ->
  serve_all (rxCount c) rs s = (fs, s') ->
  exists c', handleConnection clock fuel setupDefaultHandlers (arrive (wire rs)) (c, s) =
      Some (Return, (c', s')) /\ sent c' = sent c ++ fs /\ store_ok s' /\
    Forall2 (fun r f => frame_ok (req_MBAP r) f) rs fs.
Proof.
  induction rs as [|r rs IH]; intros fuel c s fs s' Hrs Hs Hfuel E.
  - injection E as <- <-. destruct fuel; [lia|]. exists c. by rewrite app_nil_r.
  - apply Forall_cons in Hrs as [[Hr Hf] Hrs]. cbn [serve_all] in E.
    destruct (dispatchRequest setupDefaultHandlers (stamped (rxCount c) r) s) as [o s1] eqn:Eo.
    destruct (serve_all (u64 (rxCount c + 1)) rs s1) as [fs1 s2] eqn:E1.
    injection E as <- <-. destruct fuel as [|fuel]; [lia|].
    destruct (process_answers r c s o s1 Hr Hs Eo) as (Hproc & Hs1 & Hfr).
    cbn [wire flat_map handleConnection]. rewrite arrive_app, serve_frame by done.
    rewrite Hproc. cbn [fst snd].
    destruct (IH fuel (answered c (fc_of r) (reply_frame r o)) s1 fs1 s2) as
      (c' & Hc' & Hsent & Hs2 & Hall); [done|done| |exact E1|].
    + cbn [wire flat_map] in Hfuel. rewrite length_app in Hfuel.
      pose proof (len_adu (req_MBAP r) (req_PDU r)). pose proof (len_nonneg (Data (req_PDU r))).
      fold (wire rs) in Hfuel. unfold len in *. lia.
    + exists c'. split; [exact Hc'|]. rewrite Hsent. simpl. rewrite <-app_assoc.
      split; [done|]. split; [done|]. by constructor.
Qed.

End ConnectionLemmas.

(** ** Sessions: a client's operations over one connection *)

#[export] Instance effect_Proper o : Proper ((≡) ==> (≡)) (effect o).
Proof. intros m n Hmn. destruct o; simpl; by rewrite ?Hmn. Qed.

(** The abstract device runs the operations in order. *)
Fixpoint run_ops (ops : list op) (m : Memory) : list result :=
  match ops with
  | [] => []
  | o :: ops => answer o (effect o m) :: run_ops ops (effect o m)
  end.
Definition final_memory (ops : list op) (m : Memory) : Memory :=
  fold_left (fun m o => effect o m) ops m.

#[export] Instance run_ops_Proper ops : Proper ((≡) ==> (=)) (run_ops ops).
Proof.
  induction ops as [|o ops IH]; intros m n Hmn; [done|]. simpl.
  f_equal; [by rewrite Hmn|]. apply IH. by rewrite Hmn.
Qed.
#[export] Instance final_memory_Proper ops : Proper ((≡) ==> (≡)) (final_memory ops).
Proof.
  induction ops as [|o ops IH]; intros m n Hmn; [done|]. apply IH. by rewrite Hmn.
Qed.

(** What the client puts on the wire for an operation, and what it makes of a
    received frame. *)
Definition client_frame (now unitID txID : Z) (o : op) : outcome bytes :=
  data ← generate o;
  Request_Encode (SetTransactionID (NewRequest now unitID (op_fc o) data) txID).
Definition client_result (o : op) (f : bytes) : outcome (Z * result) :=
  r ← Response_Decode f;
  v ← parse o (Data (resp_PDU r));
  Ok (TransactionID (resp_MBAP r), v).

Section Session.
Context {S : Type} `{DataStoreLaws S}.
Variables (clock : Z -> Z) (now unitID : Z).

Definition op_request (t : Z * op) : Request :=
  SetTransactionID (NewRequest now unitID (op_fc t.2) (payload t.2)) t.1.

Lemma client_frame_request t :
  op_ok t.2 -> client_frame now unitID t.1 t.2 =
    Ok (adu (req_MBAP (op_request t)) (req_PDU (op_request t))).
Proof.
  intros Ho. unfold client_frame. rewrite generate_payload by done. go_bind.
  apply Request_Encode_adu.
Qed.

Lemma client_frames ops :
  Forall (fun t : Z * op => op_ok t.2) ops ->
  mapO (fun t => client_frame now unitID t.1 t.2) ops =
    Ok (map (fun t => adu (req_MBAP (op_request t)) (req_PDU (op_request t))) ops).
Proof.
  intros Hops. apply mapO_total. intros t Ht. apply client_frame_request.
  rewrite Forall_forall in Hops. by apply Hops.
Qed.

Lemma op_fc_u8 o : is_u8 (op_fc o).
Proof. destruct o; decided. Qed.

Lemma op_request_ok t :
  is_u16 t.1 -> op_ok t.2 -> is_u8 unitID ->
  server_request (op_request t) /\ frame_fits (req_PDU (op_request t)).
Proof.
  intros Ht Ho Hu. destruct (payload_fits t.2 Ho) as [Hok Hl]. split.
  - split; [|done]. split; [by repeat split; try apply Ht; try apply Hu|].
    split; [apply op_fc_u8|exact Hok].
  - unfold frame_fits. simpl. lia.
Qed.

Lemma wire_requests ops :
  wire (map op_request ops) =
    concat (map (fun t => adu (req_MBAP (op_request t)) (req_PDU (op_request t))) ops).
Proof. unfold wire. by rewrite flat_map_concat_map, map_map. Qed.

Lemma session_serves ops : forall n (s : S),
  Forall (fun t => is_u16 t.1 /\ op_ok t.2) ops -> is_u8 unitID -> store_ok s ->
  exists fs s', serve_all clock n (map op_request ops) s = (fs, s') /\
    view s' ≡ final_memory (map snd ops) (view s) /\
    zip_with client_result (map snd ops) fs =
      zip_with (fun t r => Ok (t, r)) (map fst ops) (run_ops (map snd ops) (view s)).
Proof.
  induction ops as [|t ops IH]; intros n s Hops Hu Hs; [by exists [], s|].
  apply Forall_cons in Hops as [[Ht Ho] Hops].
  destruct (op_accept t.2 (stamped clock n (op_request t)) s) as (s1 & E & Hs1 & Hv1);
    [done|by apply payload_carries|done|].
  rewrite <-(dispatch_op t.2) in E by done.
  destruct (IH (u64 (n + 1)) s1 Hops Hu Hs1) as (fs & s' & E' & Hv' & Hz).
  eexists _, s'. cbn [map serve_all]. rewrite E, E'. split; [reflexivity|].
  split; [by rewrite Hv', Hv1|]. cbn [map zip_with run_ops]. rewrite Hz, (run_ops_Proper _ _ _ Hv1). f_equal.
  unfold client_result. cbn [reply_frame].
  destruct (reply_fits t.2 (view s1) Ho) as [Hd Hl].
  rewrite <-(app_nil_r (adu _ _)). rewrite Response_Decode_adu; simpl.
  - go_bind. rewrite parse_reply by (try done; intros x; by apply view_u16). go_bind.
    by rewrite (answer_Proper _ _ _ Hv1).
  - by repeat split; try apply Ht; try apply Hu.
  - split; [apply op_fc_u8|done].
  - unfold frame_fits. simpl. lia.
Qed.
End Session.

(** ** Properties *)
Section Properties.
Context {S : Type} `{DataStoreLaws S}.
Variable clock : Z -> Z.

(** C5: The connection loop is total and safe.  Whatever bytes, deadlines and
    closes a peer produces, the loop returns (as many iterations as there are
    events suffice), never crashes, keeps the store well formed, and every frame
    it wrote is a well-formed Modbus TCP frame of at most 260 bytes; the receive
    and transmit counters both equal the number of frames written. *)
Theorem connection_total (evs : list rx) (s : S) :
  Forall rx_ok evs -> store_ok s ->
  exists c' s',
    handleConnection clock (loop_fuel evs) setupDefaultHandlers evs (NewClient, s) =
      Some (Return, (c', s')) /\
    store_ok s' /\ Forall (fun f => exists m, frame_ok m f) (sent c') /\
    rxCount c' = u64 (len (sent c')) /\ txCount c' = u64 (len (sent c')).
Proof.
  intros Hok Hs. destruct (connection_runs clock (loop_fuel evs) evs NewClient s)
    as (c' & s' & fs & E & Hs' & [Hr Ht] & Hsent & Hfs); [unfold loop_fuel; lia|done..|].
  exists c', s'. simpl in Hsent. subst fs. done.
Qed.

(** Pipelined requests are answered one for one, in order, each by a frame
    with the request's own transaction and unit identifiers, and with the effect
    and content of dispatching the requests one after the other. *)
Theorem connection_in_order (rs : list Request) (s : S) fs s' :
  Forall (fun r => server_request r /\ frame_fits (req_PDU r)) rs -> store_ok s ->
  serve_all clock 0 rs s = (fs, s') ->
  exists c', handleConnection clock (loop_fuel (arrive (wire rs))) setupDefaultHandlers
      (arrive (wire rs)) (NewClient, s) = Some (Return, (c', s')) /\
    sent c' = fs /\ Forall2 (fun r f => frame_ok (req_MBAP r) f) rs fs.
Proof.
  intros Hrs Hs E. destruct (connection_serves clock rs (loop_fuel (arrive (wire rs)))
    NewClient s fs s') as (c' & Hc & Hsent & _ & Hall); [done|done| |done|by exists c'].
  unfold loop_fuel, arrive. rewrite length_map. lia.
Qed.

(** C1: Session refinement.  A client that encodes any sequence of valid
    operations, each with its own transaction identifier, and decodes the frames
    the server's connection loop writes back, obtains in order exactly the
    answers of the abstract device run on those operations, and the store ends
    in the abstract device's final memory. *)
Theorem session_refinement (now unitID : Z) (ops : list (Z * op)) (s : S) :
  Forall (fun t => is_u16 t.1 /\ op_ok t.2) ops -> is_u8 unitID -> store_ok s ->
  exists frames c' s',
    mapO (fun t => client_frame now unitID t.1 t.2) ops = Ok frames /\
    handleConnection clock (loop_fuel (arrive (concat frames))) setupDefaultHandlers
      (arrive (concat frames)) (NewClient, s) = Some (Return, (c', s')) /\
    zip_with client_result (map snd ops) (sent c') =
      zip_with (fun t r => Ok (t, r)) (map fst ops) (run_ops (map snd ops) (view s)) /\
    view s' ≡ final_memory (map snd ops) (view s).
Proof.
  intros Hops Hu Hs.
  destruct (session_serves clock now unitID ops 0 s Hops Hu Hs) as (fs & s' & E & Hv & Hz).
  destruct (connection_serves clock (map (op_request now unitID) ops)
    (loop_fuel (arrive (wire (map (op_request now unitID) ops)))) NewClient s fs s')
    as (c' & Hc & Hsent & _); [|done|unfold loop_fuel, arrive; rewrite length_map; lia|done|].
  { apply Forall_map. eapply Forall_impl; [exact Hops|]. intros t [Ht Ho].
    by apply op_request_ok. }
  eexists _, c', s'. split; [apply client_frames; by eapply Forall_impl; [exact Hops|]; intros t []|].
  simpl in Hsent. subst fs. rewrite wire_requests in Hc. done.
Qed.

(** A frame with a protocol identifier other than 0 is not skipped: the loop
    drops its 7-byte header only, and parses the frame's body as the next
    header. *)
Theorem bad_protocol_desync (m : MBAP) (p : PDU) (evs : list rx) fuel (st : conn_state S) :
  mbap_ok m -> pdu_ok p -> ProtocolID m <> TCPProtocolIdentifier -> frame_fits p ->
  handleConnection clock (Datatypes.S fuel) setupDefaultHandlers (arrive (adu m p) ++ evs) st =
  handleConnection clock fuel setupDefaultHandlers
    (arrive (FunctionCode p :: Data p) ++ evs) st.
Proof.
  intros (Ht & Hp & Hu) [Hfc Hd] Hpid Hf.
  replace (adu m p) with (header_bytes (TransactionID m) (ProtocolID m) (2 + len (Data p))
    (UnitID m) ++ (FunctionCode p :: Data p)).
  2:{ unfold adu, header_bytes. rewrite frame_length by done. rewrite !u8_small by done.
      by rewrite <-!app_assoc. }
  pose proof (len_nonneg (Data p)). unfold frame_fits in Hf.
  rewrite arrive_app, <-app_assoc. cbn [handleConnection].
  rewrite serve_header by (try done; unfold is_u16; lia).
  by destruct (Z.eqb_spec (ProtocolID m) TCPProtocolIdentifier).
Qed.
End Properties.

Lemma empty_store_ok : store_ok NewMemoryStore.
Proof. split; apply map_Forall_empty. Qed.

(** A half header, a timeout, three stray bytes and a close. *)
Lemma connection_total_witness :
  exists c' s', handleConnection (fun _ => 0) 9 setupDefaultHandlers
      [Byte 0; Byte 1; Byte 0; Deadline; Byte 0; Byte 0; Byte 9; Closed]
      (NewClient, NewMemoryStore) = Some (Return, (c', s')) /\ rxCount c' = u64 (len (sent c')).
Proof.
  destruct (connection_total (fun _ => 0)
    [Byte 0; Byte 1; Byte 0; Deadline; Byte 0; Byte 0; Byte 9; Closed] NewMemoryStore)
    as (c' & s' & E & _ & _ & Hr & _).
  - repeat constructor; unfold rx_ok, is_u8; lia.
  - apply empty_store_ok.
  - exists c', s'. by split.
Defined.

Lemma connection_in_order_witness :
  exists c' s', handleConnection (fun _ => 0)
      (loop_fuel (arrive (wire [mkRequest (mkMBAP 7 0 1) (mkPDU 6 [0; 5; 1; 2]) 0;
                                mkRequest (mkMBAP 8 0 1) (mkPDU 0x63 []) 0])))
      setupDefaultHandlers
      (arrive (wire [mkRequest (mkMBAP 7 0 1) (mkPDU 6 [0; 5; 1; 2]) 0;
                     mkRequest (mkMBAP 8 0 1) (mkPDU 0x63 []) 0]))
      (NewClient, NewMemoryStore) = Some (Return, (c', s')) /\
    sent c' = [[0; 7; 0; 0; 0; 6; 1; 6; 0; 5; 1; 2]; [0; 8; 0; 0; 0; 3; 1; 0xE3; 1]].
Proof.
  destruct (connection_in_order (fun _ => 0)
    [mkRequest (mkMBAP 7 0 1) (mkPDU 6 [0; 5; 1; 2]) 0;
     mkRequest (mkMBAP 8 0 1) (mkPDU 0x63 []) 0] NewMemoryStore
    [[0; 7; 0; 0; 0; 6; 1; 6; 0; 5; 1; 2]; [0; 8; 0; 0; 0; 3; 1; 0xE3; 1]]
    (serve_all (fun _ => 0) 0 [mkRequest (mkMBAP 7 0 1) (mkPDU 6 [0; 5; 1; 2]) 0;
     mkRequest (mkMBAP 8 0 1) (mkPDU 0x63 []) 0] NewMemoryStore).2) as (c' & E & Hs & _).
  - decided.
  - apply empty_store_ok.
  - vm_compute. reflexivity.
  - exists c', (serve_all (fun _ => 0) 0 [mkRequest (mkMBAP 7 0 1) (mkPDU 6 [0; 5; 1; 2]) 0;
     mkRequest (mkMBAP 8 0 1) (mkPDU 0x63 []) 0] NewMemoryStore).2. split; [exact E|exact Hs].
Defined.

Lemma session_refinement_witness :
  exists frames c' s',
    mapO (fun t => client_frame 0 1 t.1 t.2)
      [(1, OpWriteMultipleCoils 3 [true; false; true]); (2, OpReadCoils 2 4)] = Ok frames /\
    handleConnection (fun _ => 0) (loop_fuel (arrive (concat frames))) setupDefaultHandlers
      (arrive (concat frames)) (NewClient, NewMemoryStore) = Some (Return, (c', s')) /\
    zip_with client_result [OpWriteMultipleCoils 3 [true; false; true]; OpReadCoils 2 4]
      (sent c') = [Ok (1, RPair 3 3); Ok (2, RBits [false; true; false; true])].
Proof.
  destruct (session_refinement (fun _ => 0) 0 1
    [(1, OpWriteMultipleCoils 3 [true; false; true]); (2, OpReadCoils 2 4)] NewMemoryStore)
    as (frames & c' & s' & Hf & Hc & Hz & _).
  - decided.
  - decided.
  - apply empty_store_ok.
  - exists frames, c', s'. split; [exact Hf|]. split; [exact Hc|]. exact Hz.
Defined.

(** A 10-byte body whose protocol identifier is 1, followed by a valid request:
    the request is swallowed with the tail of the body and never answered. *)
Lemma bad_protocol_desync_witness :
  handleConnection (fun _ => 0) 40 setupDefaultHandlers
    (arrive (adu (mkMBAP 1 1 1) (mkPDU 0 [0; 0; 0; 0; 12; 0; 1; 2; 3])) ++
     arrive (adu (mkMBAP 2 0 1) (mkPDU 3 [0; 0; 0; 1]))) (NewClient, NewMemoryStore) =
  handleConnection (fun _ => 0) 39 setupDefaultHandlers
    (arrive [0; 0; 0; 0; 0; 12; 0; 1; 2; 3] ++
     arrive (adu (mkMBAP 2 0 1) (mkPDU 3 [0; 0; 0; 1]))) (NewClient, NewMemoryStore).
Proof.
  exact (bad_protocol_desync (fun _ => 0) (mkMBAP 1 1 1)
    (mkPDU 0 [0; 0; 0; 0; 12; 0; 1; 2; 3])
    (arrive (adu (mkMBAP 2 0 1) (mkPDU 3 [0; 0; 0; 1]))) 39 (NewClient, NewMemoryStore)
    ltac:(by repeat split) ltac:(split; [decided|decided]) ltac:(done) ltac:(done)).
Defined.
