(* ===== verification/ModbusLife.v ===== *)
(** * The life cycle of the Modbus server

    Models [Start], [Stop], the accept loop and the client table of
    [protocol/modbus/server.go].  Sockets, listeners, stop channels and accept
    loops are numbered; what a connection is told is the subject of
    [ModbusServer] and here only that its goroutine runs.  Goroutines interleave
    at every access to shared state: a critical section of [clientsMutex] is one
    step, and [Stop], which holds [mutex] throughout, takes three, between which
    the other goroutines run.  A step that is not possible is [None]. *)
From S2P Require Import Prelude.

(** Where an accept loop is; [Start] with an injected connection runs [LInject]
    and the last two positions itself. *)
Inductive lpc : Type :=
| LStart                          (** before it captures the listener *)
| LCheck                          (** at the select on [stopChan] *)
| LAccept                         (** in [Accept] *)
| LFailed                         (** [Accept] failed, not by a timeout *)
| LInject (c : nat) (addr : Z)    (** [Start] has seen the injected connection and released [mutex] *)
| LGot (c : nat) (addr : Z)       (** accepted, before the limit is checked *)
| LAdd (c : nat) (addr : Z)       (** before the record is entered *)
| LSpawn (c : nat) (addr : Z).    (** before the callback and the goroutine *)
Record loop : Type := mkLoop { ln : option nat; l_pc : lpc }.

(** How far [Stop] is. *)
Inductive spc : Type := NotStopping | StopListener | StopClients.
(** A connection's goroutine: in its loop, or in its deferred function. *)
Inductive hpc : Type := Serving | Leaving.
Inductive hook : Type := OnConnect (c : nat) | OnDisconnect (c : nat).

Record Server : Type := mkServer {
  maxClients : Z;
  running : bool;
  stopping : spc;
  injectedConn : option (nat * Z);
  stopChan : nat;
  closed_chans : gset nat;
  listener : option nat;
  closed_lns : gset nat;
  next : nat;                     (** the next number *)
  clients : gmap Z nat;           (** by remote address *)
  loops : gmap nat loop;
  handlers : gmap nat (Z * hpc);  (** the goroutines, by connection *)
  open_conns : gset nat;
  hooks : list hook;
  served : list nat               (** connections in the order their requests were answered *)
}.

(** With an injected connection or a listener, when the options supply one. *)
Definition NewServer (max : Z) (injected : option Z) (given : bool) : Server :=
  mkServer max false NotStopping (match injected with Some a => Some (0%nat, a) | None => None end)
    0 ∅ (if given then Some 0%nat else None) ∅ 1 ∅ ∅ ∅ (match injected with Some _ => {[0%nat]} | None => ∅ end) [] [].

Definition set_loop (l : nat) (p : option loop) (s : Server) : Server :=
  mkServer (maxClients s) (running s) (stopping s) (injectedConn s) (stopChan s) (closed_chans s)
    (listener s) (closed_lns s) (next s) (clients s)
    (match p with Some p => <[l := p]> (loops s) | None => delete l (loops s) end)
    (handlers s) (open_conns s) (hooks s) (served s).
Definition set_clients (c : gmap Z nat) (s : Server) : Server :=
  mkServer (maxClients s) (running s) (stopping s) (injectedConn s) (stopChan s) (closed_chans s)
    (listener s) (closed_lns s) (next s) c (loops s) (handlers s) (open_conns s) (hooks s) (served s).
Definition set_open (o : gset nat) (s : Server) : Server :=
  mkServer (maxClients s) (running s) (stopping s) (injectedConn s) (stopChan s) (closed_chans s)
    (listener s) (closed_lns s) (next s) (clients s) (loops s) (handlers s) o (hooks s) (served s).
Definition set_handlers (h : gmap nat (Z * hpc)) (e : list hook) (s : Server) : Server :=
  mkServer (maxClients s) (running s) (stopping s) (injectedConn s) (stopChan s) (closed_chans s)
    (listener s) (closed_lns s) (next s) (clients s) (loops s) h (open_conns s) (hooks s ++ e) (served s).

(** ** Start and Stop *)

(** [Start] starts a loop: at the listener, or at the injected connection.
    [listen] says whether [net.Listen] succeeds. *)
Definition started (l : loop) (lnr : option nat) (s : Server) : Server :=
  mkServer (maxClients s) true (stopping s) (injectedConn s) (next s) (closed_chans s)
    lnr (closed_lns s) (S (S (next s))) (clients s) (<[S (next s) := l]> (loops s)) (handlers s)
    (open_conns s) (hooks s) (served s).
Definition set_next (n : nat) (s : Server) : Server :=
  mkServer (maxClients s) (running s) (stopping s) (injectedConn s) (stopChan s) (closed_chans s)
    (listener s) (closed_lns s) n (clients s) (loops s) (handlers s) (open_conns s) (hooks s) (served s).
Definition Start (listen : bool) (s : Server) : outcome unit * Server :=
  if running s then (Err (Errorf "server already running"), s) else
  match injectedConn s with
  | Some (c, addr) => (Ok tt, started (mkLoop None (LInject c addr)) (listener s) s)
  | None =>
      match listener s with
      | Some l => (Ok tt, started (mkLoop None LStart) (Some l) s)
      | None =>
          if listen then
            let l := next s in (Ok tt, started (mkLoop None LStart) (Some l) (set_next (S l) s))
          else (Err (Errorf "listen"), s)
      end
  end.

Definition set_stopping (p : spc) (chans : gset nat) (lnr : option nat) (lns : gset nat) (s : Server) : Server :=
  mkServer (maxClients s) (running s) p (injectedConn s) (stopChan s) chans lnr lns (next s) (clients s)
    (loops s) (handlers s) (open_conns s) (hooks s) (served s).
(** The connections of the table are closed, the table is emptied. *)
Definition close_clients (s : Server) : Server :=
  mkServer (maxClients s) false NotStopping None (stopChan s) (closed_chans s) (listener s) (closed_lns s)
    (next s) ∅ (loops s) (handlers s)
    (open_conns s ∖ list_to_set (map snd (map_to_list (clients s)))) (hooks s) (served s).

Definition stop_step (s : Server) : option (outcome Server) :=
  match stopping s with
  | NotStopping =>
      if negb (running s) then Some (Ok s)
      else if decide (stopChan s ∈ closed_chans s) then Some Panic
      else Some (Ok (set_stopping StopListener ({[stopChan s]} ∪ closed_chans s) (listener s) (closed_lns s) s))
  | StopListener =>
      Some (Ok (set_stopping StopClients (closed_chans s) None
        (match listener s with Some l => {[l]} ∪ closed_lns s | None => closed_lns s end) s))
  | StopClients => Some (Ok (close_clients s))
  end.

(** ** Steps *)
Inductive act : Type :=
| AStart (listen : bool)
| AStop
| LGo (l : nat)
| LAccepted (l : nat) (addr : Z)
| LTimeout (l : nat)
| LError (l : nat)
| HServe (c : nat)
| HEnd (c : nat)
| HLeave (c : nat).

Definition is_stopped (s : Server) : bool := bool_decide (stopChan s ∈ closed_chans s).
Definition listening (l : option nat) (s : Server) : bool :=
  match l with Some l => negb (bool_decide (l ∈ closed_lns s)) | None => false end.

(** [Start] reads the field again after it has released [mutex], and calls a
    method of what it reads. *)
Definition reads_nil (p : loop) (s : Server) : bool :=
  match l_pc p, injectedConn s with LInject _ _, None => true | _, _ => false end.

(** The next step of an accept loop where it does not wait for a connection. *)
Definition loop_step (l : nat) (p : loop) (s : Server) : option Server :=
  match l_pc p with
  | LStart =>
      match stopping s, listener s with
      | NotStopping, None => Some (set_loop l None s)
      | NotStopping, Some n => Some (set_loop l (Some (mkLoop (Some n) LCheck)) s)
      | _, _ => None
      end
  | LCheck => Some (set_loop l (if is_stopped s then None else Some (mkLoop (ln p) LAccept)) s)
  | LFailed => Some (set_loop l (if is_stopped s then None else Some (mkLoop (ln p) LCheck)) s)
  | LAccept => None
  | LGot c addr =>
      if (0 <? maxClients s) && (maxClients s <=? Z.of_nat (size (clients s)))
      then Some (set_loop l (Some (mkLoop (ln p) LCheck)) (set_open (open_conns s ∖ {[c]}) s))
      else Some (set_loop l (Some (mkLoop (ln p) (LAdd c addr))) s)
  | LInject c addr => Some (set_loop l (Some (mkLoop (ln p) (LAdd c addr))) s)
  | LAdd c addr =>
      Some (set_loop l (Some (mkLoop (ln p) (LSpawn c addr))) (set_clients (<[addr := c]> (clients s)) s))
  | LSpawn c addr =>
      Some (set_loop l (match ln p with Some _ => Some (mkLoop (ln p) LCheck) | None => None end)
        (set_handlers (<[c := (addr, Serving)]> (handlers s)) [OnConnect c] s))
  end.

(** [Accept] returns: a connection, a timeout, or another error. *)
Definition accept (l : nat) (p : loop) (addr : Z) (s : Server) : Server :=
  set_loop l (Some (mkLoop (ln p) (LGot (next s) addr)))
    (set_open ({[next s]} ∪ open_conns s) (set_next (S (next s)) s)).

Definition step (a : act) (s : Server) : option (outcome Server) :=
  match a with
  | AStart listen =>
      match stopping s with NotStopping => Some (Ok (Start listen s).2) | _ => None end
  | AStop => stop_step s
  | LGo l =>
      p ← loops s !! l;
      if reads_nil p s then Some Panic else s' ← loop_step l p s; Some (Ok s')
  | LAccepted l addr =>
      p ← loops s !! l;
      match l_pc p with
      | LAccept => if listening (ln p) s then Some (Ok (accept l p addr s)) else None
      | _ => None
      end
  | LTimeout l =>
      p ← loops s !! l;
      match l_pc p with
      | LAccept => Some (Ok (set_loop l (Some (mkLoop (ln p) LCheck)) s))
      | _ => None
      end
  | LError l =>
      p ← loops s !! l;
      match l_pc p with
      | LAccept => Some (Ok (set_loop l (Some (mkLoop (ln p) LFailed)) s))
      | _ => None
      end
  | HServe c =>
      h ← handlers s !! c;
      match h.2 with
      | Serving =>
          if decide (c ∈ open_conns s) then
            Some (Ok (mkServer (maxClients s) (running s) (stopping s) (injectedConn s) (stopChan s)
              (closed_chans s) (listener s) (closed_lns s) (next s) (clients s) (loops s) (handlers s)
              (open_conns s) (hooks s) (served s ++ [c])))
          else None
      | Leaving => None
      end
  | HEnd c =>
      h ← handlers s !! c;
      match h.2 with
      | Serving => Some (Ok (set_handlers (<[c := (h.1, Leaving)]> (handlers s)) [OnDisconnect c] s))
      | Leaving => None
      end
  | HLeave c =>
      h ← handlers s !! c;
      match h.2 with
      | Leaving =>
          Some (Ok (set_handlers (delete c (handlers s)) []
            (set_open (open_conns s ∖ {[c]}) (set_clients (delete h.1 (clients s)) s))))
      | Serving => None
      end
  end.

Inductive reach (s0 : Server) : Server -> Prop :=
| reach_new : reach s0 s0
| reach_step a s s' : reach s0 s -> step a s = Some (Ok s') -> reach s0 s'.
Fixpoint exec (acts : list act) (s : Server) : option Server :=
  match acts with
  | [] => Some s
  | a :: acts => match step a s with Some (Ok s) => exec acts s | _ => None end
  end.

(** ** The invariant *)
Definition holds (p : loop) : option nat :=
  match l_pc p with LInject c _ | LGot c _ | LAdd c _ | LSpawn c _ => Some c | _ => None end.
(** The injected connection before [Start]. *)
Definition waiting (s : Server) : option nat :=
  if running s then None else fst <$> injectedConn s.
Definition hook_conn (h : hook) : nat := match h with OnConnect c | OnDisconnect c => c end.
Definition hooks_of (c : nat) (s : Server) : list hook :=
  filter (fun h => hook_conn h = c) (hooks s).
(** A goroutine is responsible for the connection. *)
Definition owned (c : nat) (s : Server) : Prop :=
  (exists l p, loops s !! l = Some p /\ holds p = Some c) \/ is_Some (handlers s !! c) \/ waiting s = Some c.

Record linv (s : Server) : Prop := {
  li_chan : running s = true -> stopping s = NotStopping -> stopChan s ∉ closed_chans s;
  li_current : (stopChan s < next s)%nat;
  li_chans : forall n, n ∈ closed_chans s -> (n < next s)%nat;
  li_stopping : stopping s <> NotStopping -> running s = true;
  li_held : forall l p c, loops s !! l = Some p -> holds p = Some c ->
    (c < next s)%nat /\ handlers s !! c = None /\ waiting s <> Some c /\ hooks_of c s = [] /\
    (forall l' p', loops s !! l' = Some p' -> holds p' = Some c -> l' = l);
  li_waiting : forall c, waiting s = Some c -> (c < next s)%nat /\ handlers s !! c = None /\ hooks_of c s = [];
  li_loops : forall l, is_Some (loops s !! l) -> (l < next s)%nat;
  li_handlers : forall c a h, handlers s !! c = Some (a, h) -> (c < next s)%nat /\
    hooks_of c s = match h with Serving => [OnConnect c] | Leaving => [OnConnect c; OnDisconnect c] end;
  li_gone : forall c, ~ owned c s -> hooks_of c s = [] \/ hooks_of c s = [OnConnect c; OnDisconnect c];
  li_open : forall c, c ∈ open_conns s -> (c < next s)%nat /\ owned c s;
  li_fresh : forall c, (next s <= c)%nat -> hooks_of c s = []
}.

Lemma hooks_of_app c s h e : hooks_of c (set_handlers h e s) =
  hooks_of c s ++ filter (fun h => hook_conn h = c) e.
Proof. unfold hooks_of. cbn. by rewrite filter_app. Qed.

Lemma new_linv max inj given : linv (NewServer max inj given).
Proof.
  destruct inj as [a|]; split; cbn; try done; try set_solver; try (by intros l [x Hx]).
  intros c ->%elem_of_singleton. split; [lia|]. right; right. done.
Qed.

(** A loop moves on and holds the same connection. *)
Definition held_by (o : option loop) : option nat := match o with Some p => holds p | None => None end.
Lemma set_loop_lookup l o s l' p' :
  loops (set_loop l o s) !! l' = Some p' <->
  (l' = l /\ o = Some p') \/ (l' <> l /\ loops s !! l' = Some p').
Proof.
  destruct o as [p|]; cbn.
  - rewrite lookup_insert_Some. naive_solver.
  - rewrite lookup_delete_Some. naive_solver.
Qed.
Lemma set_loop_inv l p o s :
  linv s -> loops s !! l = Some p -> held_by o = holds p -> linv (set_loop l o s).
Proof.
  intros I Hl Ho.
  assert (forall l' p' c, loops (set_loop l o s) !! l' = Some p' -> holds p' = Some c ->
    exists p0, loops s !! l' = Some p0 /\ holds p0 = Some c) as Hback.
  { intros l' p' c [[-> ->]|[Hne H]]%set_loop_lookup Hh; [exists p; by rewrite <-Ho|by exists p']. }
  assert (forall c, owned c s <-> owned c (set_loop l o s)) as Hown.
  { intros c. unfold owned. apply or_iff_compat_r. split.
    - intros (l' & p' & H1 & H2). destruct (decide (l' = l)) as [->|Hne].
      + simplify_eq. rewrite H2 in Ho. destruct o as [p1|]; [|done]. exists l, p1.
        split; [apply set_loop_lookup; auto|done].
      + exists l', p'. split; [apply set_loop_lookup; auto|done].
    - intros (l' & p' & H1 & H2). destruct (Hback l' p' c H1 H2) as (p0 & H3 & H4). by exists l', p0. }
  destruct I. split; try done.
  - intros l' p' c H1 H2. destruct (Hback l' p' c H1 H2) as (p0 & H3 & H4).
    destruct (li_held0 l' p0 c H3 H4) as (A1 & A2 & A3 & A4 & A5). split_and!; try done.
    intros l2 p2 H5 H6. destruct (Hback l2 p2 c H5 H6) as (p3 & H7 & H8). by apply (A5 l2 p3).
  - intros l' [p' H1]. apply set_loop_lookup in H1 as [[-> _]|[_ H1]]; apply li_loops0; by eexists.
  - intros c Hn. apply li_gone0. by rewrite Hown.
  - intros c Hc. rewrite <-Hown. by apply li_open0.
Qed.
Lemma set_clients_inv c s : linv s -> linv (set_clients c s).
Proof. intros I. destruct I. by split. Qed.

(** A connection that its loop closes. *)
Lemma reject_inv l p p' c s :
  linv s -> loops s !! l = Some p -> holds p = Some c -> holds p' = None ->
  linv (set_loop l (Some p') (set_open (open_conns s ∖ {[c]}) s)).
Proof.
  intros I Hl Hh Hn. destruct (li_held _ I l p c Hl Hh) as (A1 & A2 & A3 & A4 & A5).
  assert (forall l' p1 c1, loops (set_loop l (Some p') (set_open (open_conns s ∖ {[c]}) s)) !! l' = Some p1 ->
    holds p1 = Some c1 -> l' <> l /\ loops s !! l' = Some p1) as Hback.
  { intros l' p1 c1 [[-> [= <-]]|[Hne H]]%set_loop_lookup H1; [congruence|done]. }
  assert (forall c1, c1 <> c -> owned c1 s -> owned c1 (set_loop l (Some p') (set_open (open_conns s ∖ {[c]}) s))) as Hown.
  { intros c1 Hne [(l' & p1 & H1 & H2)|H]; [|by right]. left. exists l', p1. split; [|done].
    apply set_loop_lookup. right. split; [|done]. intros ->. congruence. }
  destruct I. split; try done.
  - intros l' p1 c1 H1 H2. destruct (Hback l' p1 c1 H1 H2) as [Hne H3].
    destruct (li_held0 l' p1 c1 H3 H2) as (B1 & B2 & B3 & B4 & B5). split_and!; try done.
    intros l2 p2 H5 H6. destruct (Hback l2 p2 c1 H5 H6) as [_ H7]. by apply (B5 l2 p2).
  - intros l' [p1 H1]. apply set_loop_lookup in H1 as [[-> _]|[_ H1]]; apply li_loops0; by eexists.
  - intros c1 Hn1. destruct (decide (c1 = c)) as [->|Hne]; [by left|]. apply li_gone0. intros Ho.
    by apply Hn1, Hown.
  - intros c1 [H1 H2]%elem_of_difference. destruct (li_open0 c1 H1) as [B1 B2]. split; [done|].
    apply Hown; [set_solver|done].
Qed.

(** The record is entered and the goroutine started. *)
Lemma spawn_inv l p o c addr s :
  linv s -> loops s !! l = Some p -> holds p = Some c -> held_by o = None ->
  linv (set_loop l o (set_handlers (<[c := (addr, Serving)]> (handlers s)) [OnConnect c] s)).
Proof.
  intros I Hl Hh Hn. destruct (li_held _ I l p c Hl Hh) as (A1 & A2 & A3 & A4 & A5).
  set (s' := set_loop l o _).
  assert (forall c1, hooks_of c1 s' = hooks_of c1 s ++ (if decide (c1 = c) then [OnConnect c] else [])) as Hhk.
  { intros c1. change (hooks_of c1 s') with (hooks_of c1 (set_handlers (<[c := (addr, Serving)]> (handlers s)) [OnConnect c] s)).
    rewrite hooks_of_app. f_equal. case_decide as Hd; [subst; by rewrite filter_cons_True|].
    rewrite filter_cons_False; [done|]. cbn. congruence. }
  assert (forall l' p1 c1, loops s' !! l' = Some p1 -> holds p1 = Some c1 -> l' <> l /\ loops s !! l' = Some p1) as Hback.
  { intros l' p1 c1 [[-> ->]|[Hne H]]%set_loop_lookup H1; [cbn in Hn; congruence|done]. }
  assert (forall c1, owned c1 s -> owned c1 s') as Hown.
  { intros c1 [(l' & p1 & H1 & H2)|[H|H]].
    - destruct (decide (l' = l)) as [->|Hne].
      + assert (c1 = c) as -> by congruence. right; left. cbn. rewrite lookup_insert_eq. by eexists.
      + left. exists l', p1. split; [apply set_loop_lookup; auto|done].
    - right; left. cbn. rewrite lookup_insert. by case_decide.
    - by right; right. }
  destruct I. split; try done.
  - intros l' p1 c1 H1 H2. destruct (Hback l' p1 c1 H1 H2) as [Hne H3].
    destruct (li_held0 l' p1 c1 H3 H2) as (B1 & B2 & B3 & B4 & B5).
    assert (c1 <> c) as Hc1 by (intros ->; by apply Hne, (A5 l' p1)).
    rewrite Hhk, decide_False, app_nil_r by done. split_and!; try done.
    + cbn. by rewrite lookup_insert_ne.
    + intros l2 p2 H5 H6. destruct (Hback l2 p2 c1 H5 H6) as [_ H7]. by apply (B5 l2 p2).
  - intros c1 Hw. destruct (li_waiting0 c1 Hw) as (B1 & B2 & B3).
    assert (c1 <> c) as Hc1 by (intros ->; by apply A3).
    rewrite Hhk, decide_False, app_nil_r by done. split_and!; try done. cbn. by rewrite lookup_insert_ne.
  - intros l' [p1 H1]. apply set_loop_lookup in H1 as [[-> _]|[_ H1]]; apply li_loops0; by eexists.
  - intros c1 a h H0. rewrite Hhk. cbn in H0. apply lookup_insert_Some in H0 as [[<- [= <- <-]]|[Hne H1]].
    + split; [done|]. by rewrite A4, decide_True.
    + rewrite decide_False, app_nil_r by congruence. by apply (li_handlers0 c1 a h).
  - intros c1 Hn1. assert (c1 <> c) as Hc1.
    { intros ->. apply Hn1, Hown. left. by exists l, p. }
    rewrite Hhk, decide_False, app_nil_r by done. apply li_gone0. intros Ho. by apply Hn1, Hown.
  - intros c1 Hc. destruct (li_open0 c1 Hc) as [B1 B2]. split; [done|]. by apply Hown.
  - intros c1 Hc. rewrite Hhk, decide_False, app_nil_r; [by apply li_fresh0|]. cbn in Hc. lia.
Qed.

(** A new connection. *)
Lemma accepted_inv l p addr s :
  linv s -> loops s !! l = Some p -> holds p = None -> linv (accept l p addr s).
Proof.
  intros I Hl Hn. set (c := next s). set (s' := accept l p addr s).
  assert (forall l' p1 c1, loops s' !! l' = Some p1 -> holds p1 = Some c1 ->
    (l' = l /\ c1 = c) \/ (l' <> l /\ loops s !! l' = Some p1)) as Hback.
  { intros l' p1 c1 [[-> [= <-]]|[Hne H]]%set_loop_lookup H1; [cbn in H1; by simplify_eq; left|by right]. }
  assert (forall c1, owned c1 s -> owned c1 s') as Hown.
  { intros c1 [(l' & p1 & H1 & H2)|H]; [|by right]. left. exists l', p1. split; [|done].
    apply set_loop_lookup. right. split; [|done]. intros ->. congruence. }
  assert (next s' = S c) as Enext by done.
  destruct I. split; try done; rewrite ?Enext.
  - unfold c. change (stopChan s' < S (next s))%nat with (stopChan s < S (next s))%nat. lia.
  - intros n Hin. specialize (li_chans0 n Hin). unfold c. lia.
  - intros l' p1 c1 H1 H2. destruct (Hback l' p1 c1 H1 H2) as [[-> ->]|[Hne H3]].
    + split_and!; [lia| | |by apply li_fresh0|].
      * change (handlers s !! c = None). destruct (handlers s !! c) as [[a h]|] eqn:E; [|done].
        destruct (li_handlers0 c a h E). unfold c in *. lia.
      * change (waiting s <> Some c). intros Hw. destruct (li_waiting0 c Hw). unfold c in *. lia.
      * intros l2 p2 H5 H6. destruct (Hback l2 p2 c H5 H6) as [[-> _]|[Hne H7]]; [done|].
        destruct (li_held0 l2 p2 c H7 H6). unfold c in *. lia.
    + destruct (li_held0 l' p1 c1 H3 H2) as (B1 & B2 & B3 & B4 & B5). split_and!; try done; [unfold c; lia|].
      intros l2 p2 H5 H6. destruct (Hback l2 p2 c1 H5 H6) as [[-> ->]|[_ H7]]; [unfold c in B1; lia|].
      by apply (B5 l2 p2).
  - intros c1 Hw. destruct (li_waiting0 c1 Hw) as (B1 & B2 & B3). split_and!; try done. unfold c. lia.
  - intros l' [p1 H1]. apply set_loop_lookup in H1 as [[-> _]|[_ H1]].
    + assert (l < next s)%nat by (apply li_loops0; by eexists). unfold c. lia.
    + assert (l' < next s)%nat by (apply li_loops0; by eexists). unfold c. lia.
  - intros c1 a h H1. destruct (li_handlers0 c1 a h H1) as [B1 B2]. split; [unfold c; lia|done].
  - intros c1 Hn1. apply li_gone0. intros Ho. by apply Hn1, Hown.
  - intros c1 H1. change (c1 ∈ {[c]} ∪ open_conns s) in H1.
    apply elem_of_union in H1 as [->%elem_of_singleton|H1].
    + split; [lia|]. left. exists l. eexists. split; [apply set_loop_lookup; by left|done].
    + destruct (li_open0 c1 H1) as [B1 B2]. split; [unfold c; lia|by apply Hown].
  - intros c1 Hc. apply li_fresh0. unfold c in Hc. lia.
Qed.

(** A loop of [Start]. *)
Lemma started_inv p lnr s :
  linv s -> running s = false -> (forall c, holds p = Some c -> waiting s = Some c) ->
  (forall c, waiting s = Some c -> holds p = Some c) -> linv (started p lnr s).
Proof.
  intros I Hr Hp Hw. set (s' := started p lnr s).
  assert (loops s !! S (next s) = None) as Hfree.
  { destruct (loops s !! S (next s)) eqn:E; [|done].
    assert (S (next s) < next s)%nat by (apply (li_loops _ I); by eexists). lia. }
  assert (forall l' p1, loops s' !! l' = Some p1 ->
    (l' = S (next s) /\ p1 = p) \/ (l' <> S (next s) /\ loops s !! l' = Some p1)) as Hback.
  { intros l' p1 H. cbn in H. apply lookup_insert_Some in H as [[<- <-]|[Hne H]]; auto. }
  assert (forall c, owned c s -> owned c s') as Hown.
  { intros c [(l' & p1 & H1 & H2)|[H|H]].
    - left. exists l', p1. split; [|done]. cbn. rewrite lookup_insert_ne; [done|]. intros <-. congruence.
    - by right; left.
    - left. exists (S (next s)), p. split; [cbn; apply lookup_insert_eq|by apply Hw]. }
  destruct I. split; try done.
  - intros _ _ Hin. specialize (li_chans0 _ Hin). cbn in li_chans0. lia.
  - cbn. lia.
  - intros n Hin. specialize (li_chans0 n Hin). cbn. lia.
  - intros l' p1 c H1 H2. destruct (Hback l' p1 H1) as [[-> ->]|[Hne H3]].
    + destruct (li_waiting0 c (Hp c H2)) as (B1 & B2 & B3). split_and!; try done; [cbn; lia|].
      intros l2 p2 H5 H6. destruct (Hback l2 p2 H5) as [[-> _]|[Hne H7]]; [done|].
      destruct (li_held0 l2 p2 c H7 H6) as (_ & _ & B4 & _). by destruct B4; apply Hp.
    + destruct (li_held0 l' p1 c H3 H2) as (B1 & B2 & B3 & B4 & B5). split_and!; try done; [cbn; lia|].
      intros l2 p2 H5 H6. destruct (Hback l2 p2 H5) as [[-> ->]|[_ H7]]; [by destruct B3; apply Hp|].
      by apply (B5 l2 p2).
  - intros l' [p1 H1]. destruct (Hback l' p1 H1) as [[-> _]|[_ H2]]; [cbn; lia|].
    assert (l' < next s)%nat by (apply li_loops0; by eexists). cbn. lia.
  - intros c a h H1. destruct (li_handlers0 c a h H1) as [B1 B2]. split; [cbn; lia|done].
  - intros c Hn. apply li_gone0. intros Ho. by apply Hn, Hown.
  - intros c Hc. destruct (li_open0 c Hc) as [B1 B2]. split; [cbn; lia|by apply Hown].
  - intros c Hc. apply li_fresh0. cbn in Hc. lia.
Qed.
Lemma set_next_inv s : linv s -> linv (set_next (S (next s)) s).
Proof.
  intros I. destruct I. split; try done; cbn.
  - lia.
  - intros n Hn. specialize (li_chans0 n Hn). lia.
  - intros l p c H1 H2. destruct (li_held0 l p c H1 H2) as (B1 & B2). split; [lia|done].
  - intros c Hc. destruct (li_waiting0 c Hc) as (B1 & B2). split; [lia|done].
  - intros l Hl. specialize (li_loops0 l Hl). lia.
  - intros c a h Hc. destruct (li_handlers0 c a h Hc) as (B1 & B2). split; [lia|done].
  - intros c Hc. destruct (li_open0 c Hc) as (B1 & B2). split; [lia|done].
  - intros c Hc. apply li_fresh0. lia.
Qed.

Lemma Start_inv listen s : linv s -> linv (Start listen s).2.
Proof.
  intros I. unfold Start. destruct (running s) eqn:Hr; [done|].
  assert (waiting s = fst <$> injectedConn s) as Hw by (unfold waiting; by rewrite Hr).
  destruct (injectedConn s) as [[c a]|].
  - apply started_inv; try done; intros c' E; cbn in *; congruence.
  - assert (forall s1, linv s1 -> running s1 = false -> waiting s1 = None -> forall lnr,
      linv (started (mkLoop None LStart) lnr s1)) as Hgo.
    { intros s1 I1 Hr1 Hw1 lnr. apply started_inv; try done. congruence. }
    destruct (listener s); [by apply Hgo|]. destruct listen; [|done].
    apply Hgo; [by apply set_next_inv|done|exact Hw].
Qed.

Lemma stop_step_inv s :
  linv s -> match stop_step s with Some (Ok s') => linv s' | Some Panic => False | _ => True end.
Proof.
  intros I. unfold stop_step. destruct (stopping s) eqn:Es.
  - destruct (running s) eqn:Hr; [|done]. cbn.
    destruct (decide (stopChan s ∈ closed_chans s)) as [Hin|Hout]; [by apply (li_chan _ I)|].
    destruct I. split; try done; cbn.
    intros n [->%elem_of_singleton|Hn]%elem_of_union; [|by apply li_chans0].
    exact li_current0.
  - destruct I. split; try done; cbn. intros _. apply li_stopping0. congruence.
  - assert (running s = true) as Hr by (apply (li_stopping _ I); congruence).
    assert (forall c, waiting s <> Some c) as Hw by (intros c; unfold waiting; by rewrite Hr).
    assert (forall c, owned c s <-> owned c (close_clients s)) as Hown.
    { intros c. unfold owned, waiting. rewrite Hr. cbn. done. }
    destruct I. split; try done; cbn.
    + intros l p c H1 H2. destruct (li_held0 l p c H1 H2) as (B1 & B2 & _ & B3). split; [done|]. split; [done|]. split; [done|]. exact B3.
    + intros c Hn. apply li_gone0. by rewrite Hown.
    + intros c [Hc _]%elem_of_difference. rewrite <-Hown. by apply li_open0.
Qed.

Lemma end_inv c a s :
  linv s -> handlers s !! c = Some (a, Serving) ->
  linv (set_handlers (<[c := (a, Leaving)]> (handlers s)) [OnDisconnect c] s).
Proof.
  intros I Hc. set (s' := set_handlers _ _ s).
  assert (forall c1, hooks_of c1 s' = hooks_of c1 s ++ (if decide (c1 = c) then [OnDisconnect c] else [])) as Hhk.
  { intros c1. unfold s'. rewrite hooks_of_app. f_equal. case_decide as Hd; [subst; by rewrite filter_cons_True|].
    rewrite filter_cons_False; [done|]. cbn. congruence. }
  assert (forall c1, owned c1 s -> owned c1 s') as Hown.
  { intros c1 [H|[H|H]]; [by left| |by right; right]. right; left. cbn. rewrite lookup_insert. by case_decide. }
  destruct (li_handlers _ I c a Serving Hc) as [A1 A2]. destruct I. split; try done.
  - intros l p c1 H1 H2. destruct (li_held0 l p c1 H1 H2) as (B1 & B2 & B3 & B4 & B5).
    assert (c1 <> c) as Hne by congruence. rewrite Hhk, decide_False, app_nil_r by done.
    split; [done|]. split; [cbn; by rewrite lookup_insert_ne|]. by split.
  - intros c1 Hw. destruct (li_waiting0 c1 Hw) as (B1 & B2 & B3).
    assert (c1 <> c) as Hne by congruence. rewrite Hhk, decide_False, app_nil_r by done.
    split; [done|]. split; [cbn; by rewrite lookup_insert_ne|done].
  - intros c1 a1 h H0. rewrite Hhk. cbn in H0. apply lookup_insert_Some in H0 as [[<- [= <- <-]]|[Hne H1]].
    + split; [done|]. by rewrite A2, decide_True.
    + rewrite decide_False, app_nil_r by congruence. by apply (li_handlers0 c1 a1 h).
  - intros c1 Hn. assert (c1 <> c) as Hne.
    { intros ->. apply Hn, Hown. right; left. by eexists. }
    rewrite Hhk, decide_False, app_nil_r by done. apply li_gone0. intros Ho. by apply Hn, Hown.
  - intros c1 H1. destruct (li_open0 c1 H1) as [B1 B2]. split; [done|by apply Hown].
  - intros c1 H1. rewrite Hhk, decide_False, app_nil_r; [by apply li_fresh0|]. cbn in H1. lia.
Qed.

Lemma left_inv c a m s :
  linv s -> handlers s !! c = Some (a, Leaving) ->
  linv (set_handlers (delete c (handlers s)) [] (set_open (open_conns s ∖ {[c]}) (set_clients m s))).
Proof.
  intros I Hc. set (s' := set_handlers _ _ _).
  assert (forall c1, hooks_of c1 s' = hooks_of c1 s) as Hhk.
  { intros c1. unfold s'. rewrite hooks_of_app. cbn. by rewrite app_nil_r. }
  assert (forall c1, c1 <> c -> owned c1 s -> owned c1 s') as Hown.
  { intros c1 Hne [H|[H|H]]; [by left| |by right; right]. right; left. cbn. by rewrite lookup_delete_ne. }
  destruct (li_handlers _ I c a Leaving Hc) as [A1 A2]. destruct I. split; try done.
  - intros l p c1 H1 H2. destruct (li_held0 l p c1 H1 H2) as (B1 & B2 & B3 & B4 & B5). rewrite Hhk.
    split; [done|]. split; [cbn; by apply lookup_delete_None; right|]. by split.
  - intros c1 Hw. destruct (li_waiting0 c1 Hw) as (B1 & B2 & B3). rewrite Hhk.
    split; [done|]. split; [cbn; by apply lookup_delete_None; right|done].
  - intros c1 a1 h H0. rewrite Hhk. cbn in H0. apply lookup_delete_Some in H0 as [_ H1].
    by apply (li_handlers0 c1 a1 h).
  - intros c1 Hn. rewrite Hhk. destruct (decide (c1 = c)) as [->|Hne]; [by right|].
    apply li_gone0. intros Ho. by apply Hn, Hown.
  - intros c1 [H1 H2]%elem_of_difference. destruct (li_open0 c1 H1) as [B1 B2]. split; [done|].
    apply Hown; [set_solver|done].
  - intros c1 H1. rewrite Hhk. by apply li_fresh0.
Qed.

Lemma loop_step_inv l p s s' :
  linv s -> loops s !! l = Some p -> loop_step l p s = Some s' -> linv s'.
Proof.
  intros I Hl. unfold loop_step. destruct (l_pc p) as [| | | |c a|c a|c a|c a] eqn:Hp.
  - destruct (stopping s), (listener s); try done; intros [= <-]; apply (set_loop_inv l p); try done; unfold holds; by rewrite Hp.
  - intros [= <-]. apply (set_loop_inv l p); try done. unfold holds. rewrite Hp. by destruct (is_stopped s).
  - done.
  - intros [= <-]. apply (set_loop_inv l p); try done. unfold holds. rewrite Hp. by destruct (is_stopped s).
  - assert (holds p = Some c) as Hh by (unfold holds; by rewrite Hp). intros [= <-].
    by apply (set_loop_inv l p).
  - assert (holds p = Some c) as Hh by (unfold holds; by rewrite Hp).
    destruct (_ && _); intros [= <-]; [by apply (reject_inv l p)|]. apply (set_loop_inv l p); try done.
  - assert (holds p = Some c) as Hh by (unfold holds; by rewrite Hp). intros [= <-].
    apply (set_loop_inv l p); try done. by apply set_clients_inv.
  - assert (holds p = Some c) as Hh by (unfold holds; by rewrite Hp). intros [= <-].
    apply (spawn_inv l p); try done. by destruct (ln p).
Qed.

(** The one panic: [Stop] has cleared the injected connection under [Start]. *)
Definition start_raced (a : act) (s : Server) : Prop :=
  exists l p, a = LGo l /\ loops s !! l = Some p /\ reads_nil p s = true.
Definition safe (a : act) (s : Server) : Prop :=
  match step a s with Some (Ok s') => linv s' | Some Panic => start_raced a s | _ => True end.
Lemma step_safe a s : linv s -> safe a s.
Proof.
  intros I. unfold safe. destruct a as [listen| |l|l addr|l|l|c|c|c]; cbn [step].
  - destruct (stopping s); [|exact Logic.I..]. by apply Start_inv.
  - pose proof (stop_step_inv s I) as H. destruct (stop_step s) as [[]|]; done.
  - destruct (loops s !! l) as [p|] eqn:Hl; [|exact Logic.I]. cbn.
    destruct (reads_nil p s) eqn:Er; [by exists l, p|].
    destruct (loop_step l p s) as [s'|] eqn:E; [|exact Logic.I]. by eapply loop_step_inv.
  - destruct (loops s !! l) as [p|] eqn:Hl; [|exact Logic.I]. cbn.
    destruct (l_pc p) eqn:Hp; try exact Logic.I. destruct (listening _ _); [|exact Logic.I].
    apply accepted_inv; try done. unfold holds. by rewrite Hp.
  - destruct (loops s !! l) as [p|] eqn:Hl; [|exact Logic.I]. cbn.
    destruct (l_pc p) eqn:Hp; try exact Logic.I. apply (set_loop_inv l p); try done. unfold holds. by rewrite Hp.
  - destruct (loops s !! l) as [p|] eqn:Hl; [|exact Logic.I]. cbn.
    destruct (l_pc p) eqn:Hp; try exact Logic.I. apply (set_loop_inv l p); try done. unfold holds. by rewrite Hp.
  - destruct (handlers s !! c) as [[a h]|]; [|exact Logic.I]. cbn. destruct h; [|exact Logic.I].
    destruct (decide (c ∈ open_conns s)); [|exact Logic.I]. destruct I. by split.
  - destruct (handlers s !! c) as [[a h]|] eqn:Hc; [|exact Logic.I]. cbn. destruct h; [|exact Logic.I].
    by apply end_inv.
  - destruct (handlers s !! c) as [[a h]|] eqn:Hc; [|exact Logic.I]. cbn. destruct h; [exact Logic.I|].
    by eapply left_inv.
Qed.
Lemma reach_linv max inj given s : reach (NewServer max inj given) s -> linv s.
Proof.
  induction 1 as [|a s s' _ IH E]; [apply new_linv|]. pose proof (step_safe a s IH) as H. unfold safe in H. by rewrite E in H.
Qed.

(** ** The life of a connection *)
Lemma reach_trans s0 s1 s2 : reach s0 s1 -> reach s1 s2 -> reach s0 s2.
Proof. intros H1 H2. induction H2; [done|by eapply reach_step]. Qed.
Lemma life_exec_reach acts s s' : exec acts s = Some s' -> reach s s'.
Proof.
  revert s. induction acts as [|a acts IH]; intros s; cbn; [intros [= ->]; apply reach_new|].
  destruct (step a s) as [[s1| |]|] eqn:E; try done. intros H.
  eapply reach_trans; [|by apply IH]. eapply reach_step; [apply reach_new|done].
Qed.

(** What a connection's callbacks have seen, by the goroutine that has it. *)
Definition told (c : nat) (s : Server) : list hook :=
  match handlers s !! c with
  | Some (_, Serving) => [OnConnect c]
  | _ => [OnConnect c; OnDisconnect c]
  end.

(** C6: whatever calls of [Start] and [Stop], accepted connections, listener
    errors and interleaving of the accept loops, the connection goroutines and
    [Stop]: no stop channel is closed twice, and the only panic is that of a
    [Start] whose injected connection a concurrent [Stop] cleared; a connection that is open has a
    goroutine (or the pending [Start]) that closes it, [onClientConnect] has
    been called before the requests of a connection are served and
    [onClientDisconnect] is called once, after it, and no callback is called for
    a connection that was refused at the limit. *)
Theorem server_life max inj given s a :
  reach (NewServer max inj given) s ->
  (step a s = Some Panic -> start_raced a s) /\
  (forall c, c ∈ open_conns s -> owned c s) /\
  (forall c, hooks_of c s = [] \/ hooks_of c s = told c s) /\
  (forall c, is_Some (handlers s !! c) -> hooks_of c s = told c s) /\
  (forall l p c, loops s !! l = Some p -> holds p = Some c -> hooks_of c s = []).
Proof.
  intros I%reach_linv. split_and!.
  - intros E. pose proof (step_safe a s I) as H. unfold safe in H. by rewrite E in H.
  - intros c Hc. by apply (li_open _ I).
  - intros c. unfold told. destruct (handlers s !! c) as [[x h]|] eqn:E.
    + right. destruct (li_handlers _ I c x h E) as [_ ->]. by destruct h.
    + destruct (decide (hooks_of c s = [])) as [|Hne]; [by left|]. right.
      destruct (li_gone _ I c) as [H|H]; [|done..].
      intros [(l & p & H1 & H2)|[[y H]|H]]; [|congruence|].
      * by destruct (li_held _ I l p c H1 H2) as (_ & _ & _ & ? & _).
      * by destruct (li_waiting _ I c H) as (_ & _ & ?).
  - intros c [[x h] E]. unfold told. rewrite E. destruct (li_handlers _ I c x h E) as [_ ->]. by destruct h.
  - intros l p c H1 H2. by destruct (li_held _ I l p c H1 H2) as (_ & _ & _ & ? & _).
Qed.

(** A listening server (its loop has number 3), and what an accepted
    connection's loop does until the goroutine runs. *)
Definition listening_trace : list act := [AStart true; LGo 3; LGo 3].
Definition accepted_trace (l : nat) (addr : Z) : list act := [LAccepted l addr; LGo l; LGo l; LGo l; LGo l].
Definition stop_trace : list act := [AStop; AStop; AStop].
Definition state_after (acts : list act) : Server :=
  default (NewServer 1 None false) (exec acts (NewServer 1 None false)).
Lemma state_after_reach acts :
  is_Some (exec acts (NewServer 1 None false)) -> reach (NewServer 1 None false) (state_after acts).
Proof. intros [s E]. apply (life_exec_reach acts). unfold state_after. by rewrite E. Qed.

Definition one_client : list act := listening_trace ++ accepted_trace 3 7 ++ [HServe 4; HEnd 4].
Lemma server_life_witness :
  reach (NewServer 1 None false) (state_after one_client) /\
  hooks_of 4 (state_after one_client) = [OnConnect 4; OnDisconnect 4] /\
  owned 4 (state_after one_client).
Proof.
  assert (reach (NewServer 1 None false) (state_after one_client)) as R
    by (apply state_after_reach; vm_compute; eauto).
  destruct (server_life 1 None false (state_after one_client) (HLeave 4) R) as (_ & H1 & _ & H2 & _).
  split; [exact R|split].
  - rewrite H2; [vm_compute; reflexivity|vm_compute; eauto].
  - apply H1. by apply (bool_decide_unpack (4%nat ∈ _)); vm_compute.
Defined.

(** Stop closes every connection of the table: when no accept loop has one in
    hand and the addresses are distinct, none stays open. *)
Definition registered (s : Server) : Prop :=
  forall c addr h, handlers s !! c = Some (addr, h) -> c ∈ open_conns s -> clients s !! addr = Some c.

(** when the last step of [Stop] runs while no accept loop holds a connection
    and every connection is in the table under its address, no connection is
    left open, the table is empty and the server is not running; after that
    [Stop] does nothing and [Start] is possible again. *)
Theorem stop_closes_all max inj given s s' :
  reach (NewServer max inj given) s -> stopping s = StopClients ->
  (forall l p, loops s !! l = Some p -> holds p = None) -> registered s ->
  step AStop s = Some (Ok s') ->
  open_conns s' = ∅ /\ clients s' = ∅ /\ running s' = false /\
  step AStop s' = Some (Ok s') /\ (Start true s').1 = Ok tt.
Proof.
  intros I%reach_linv Es Hl Hr. cbn. unfold stop_step. rewrite Es. intros [= <-]. split_and!; try done.
  - apply set_eq. intros c. split; [|set_solver]. intros [Hc Hn]%elem_of_difference. exfalso.
    destruct (li_open _ I c Hc) as [_ [(l & p & H1 & H2)|[[[a h] H]|H]]].
    + rewrite (Hl l p H1) in H2. done.
    + apply Hn, elem_of_list_to_set, list_elem_of_fmap. exists (a, c). split; [done|].
      apply elem_of_map_to_list. by eapply Hr.
    + unfold waiting in H. rewrite (li_stopping _ I) in H by congruence. done.
  - unfold Start. cbn. by destruct (listener s).
Qed.
Definition serving_one : list act := listening_trace ++ accepted_trace 3 7 ++ [HServe 4; AStop; AStop].
Lemma stop_closes_all_witness :
  4%nat ∈ open_conns (state_after serving_one) /\
  step AStop (state_after serving_one) = Some (Ok (state_after (serving_one ++ [AStop]))) /\
  open_conns (state_after (serving_one ++ [AStop])) = ∅.
Proof.
  assert (step AStop (state_after serving_one) = Some (Ok (state_after (serving_one ++ [AStop])))) as E
    by (vm_compute; reflexivity).
  split; [by apply (bool_decide_unpack (4%nat ∈ _)); vm_compute|split; [exact E|]].
  apply (stop_closes_all 1 None false (state_after serving_one)).
  - apply state_after_reach. vm_compute. eauto.
  - vm_compute. reflexivity.
  - change (map_Forall (fun _ p => holds p = None) (loops (state_after serving_one))).
    apply (bool_decide_unpack _). vm_compute. done.
  - assert (map_Forall (fun c (x : Z * hpc) => clients (state_after serving_one) !! x.1 = Some c)
      (handlers (state_after serving_one))) as F by (apply (bool_decide_unpack _); vm_compute; done).
    intros c addr h H _. by apply (F c (addr, h)).
  - exact E.
Defined.

(** ** What the conditions are for *)

(** A connection that the loop had accepted before [Stop] is entered and served
    after [Stop] has returned, and nothing closes it. *)
Definition late_trace : list act :=
  listening_trace ++ [LAccepted 3 7] ++ stop_trace ++ [LGo 3; LGo 3; LGo 3; HServe 4; LGo 3].
Example served_after_stop :
  let s := state_after late_trace in
  exec late_trace (NewServer 1 None false) = Some s /\
  running s = false /\ loops s = ∅ /\ served s = [4%nat] /\ clients s = {[7 := 4%nat]} /\
  open_conns s = {[4%nat]} /\ step AStop s = Some (Ok s).
Proof. vm_compute. split_and!; reflexivity. Qed.

(** Of two connections with one address the record of the later is deleted when
    the earlier one ends; [Stop] does not close it. *)
Definition shared_trace : list act :=
  listening_trace ++ accepted_trace 3 7 ++ accepted_trace 3 7 ++ [HEnd 4; HLeave 4].
Example same_address_lost :
  exists s, exec (shared_trace ++ stop_trace) (NewServer 0 None false) = Some s /\
  running s = false /\ open_conns s = {[5%nat]} /\ handlers s = {[5%nat := (7, Serving)]}.
Proof. eexists. split; [vm_compute; reflexivity|]. vm_compute. split_and!; reflexivity. Qed.

(** A loop in [Accept] during [Stop] and a new [Start] sees the new channel and
    the closed listener, and turns without end. *)
Definition restarted : Server := state_after (listening_trace ++ stop_trace ++ [AStart true]).
Example restart_spins :
  exec [LError 3; LGo 3; LGo 3] restarted = Some restarted /\
  loops restarted !! 3%nat = Some (mkLoop (Some 1%nat) LAccept) /\ listening (Some 1%nat) restarted = false.
Proof. vm_compute. split_and!; reflexivity. Qed.

(** [Stop] between the two reads of the injected connection. *)
Example start_stop_panics :
  (exec (AStart true :: stop_trace) (NewServer 0 (Some 7) false) ≫= step (LGo 2)) = Some Panic.
Proof. vm_compute. reflexivity. Qed.
