(* ===== verification/ModbusTransaction.v ===== *)
(** * Transactions and the transaction pool of the Modbus client

    Models [protocol/modbus/transaction.go].  Transactions are heap objects: the
    pool maps identifiers to locations, callers keep locations, and completing a
    transaction mutates the heap object both sides see.  The one-element
    channels are [option]s: a send on a full channel takes the [default]
    branch.  Every pool operation runs under [transactionsMu], so it is one
    atomic function; iterating a Go map in any order is iterating
    [map_to_list], because the operations on different entries commute.  A
    transaction holds its request as [Place] left it: the code holds a pointer, so
    the model is of callers that do not hand one [*Request] to two calls whose
    transactions are alive at the same time. *)
From S2P Require Import Prelude Bytes ModbusTypes ModbusFrame.

Abbreviation loc := positive (only parsing).

Record Transaction : Type := mkTx {
  tx_Request : Request;
  ResponseCh : option Response;
  ErrCh : option error;
  tx_cancelled : bool;          (** the transaction's context is done *)
  createTime : Z }.

Abbreviation heap := (gmap loc Transaction).

(** [NewTransaction], at clock value [now]. *)
Definition NewTransaction (now : Z) (request : Request) : Transaction :=
  mkTx request None None false now.

(** [Transaction.Complete]; [inl] is the response case, [inr] the error case. *)
Definition Complete (t : Transaction) (result : Response + error) : Transaction :=
  match result with
  | inr err =>
      mkTx (tx_Request t) (ResponseCh t)
        (match ErrCh t with None => Some err | full => full end) true (createTime t)
  | inl response =>
      mkTx (tx_Request t)
        (match ResponseCh t with None => Some response | full => full end) (ErrCh t) true
        (createTime t)
  end.
Definition Cancel (t : Transaction) (err : error) : Transaction := Complete t (inr err).
Definition GetLifetime (now : Z) (t : Transaction) : Z := now - createTime t.

Definition maxIDAttempts : nat := 16.
Definition DefaultTransactionTimeout : Z := 5000000000.

Record TransactionPool : Type := mkPool {
  transactions : gmap Z loc;
  nextID : Z;                   (** atomic.Uint32 *)
  done_closed : bool;           (** the done channel is closed *)
  timeoutDuration : Z }.

Definition set_transactions (p : TransactionPool) (m : gmap Z loc) : TransactionPool :=
  mkPool m (nextID p) (done_closed p) (timeoutDuration p).

(** [NewTransactionPool] with the timeout of [WithPoolTimeout], if any. *)
Definition NewTransactionPool (timeout : option Z) : TransactionPool :=
  mkPool ∅ 0 false
    (match timeout with
     | Some t => if 0 <? t then t else DefaultTransactionTimeout
     | None => DefaultTransactionTimeout
     end).

Definition pool_state : Type := (heap * TransactionPool)%type.

(** Cancel with [err] the transactions of a list of map entries. *)
Definition cancel_all (err : error) (entries : list (Z * loc)) (h : heap) : heap :=
  fold_left (fun h e => alter (fun t => Cancel t err) e.2 h) entries h.

Definition pool_Close (st : pool_state) : pool_state :=
  let '(h, p) := st in
  if done_closed p then (h, p) else
  (cancel_all ErrTransportClosing (map_to_list (transactions p)) h,
   mkPool ∅ (nextID p) true (timeoutDuration p)).

Definition unsafeRelease (txID : Z) (p : TransactionPool) : TransactionPool :=
  set_transactions p (delete txID (transactions p)).

(** One iteration of the loop of [checkTimeouts] on the entry [e]. *)
Definition check_timeout (now : Z) (st : pool_state) (e : Z * loc) : pool_state :=
  let '(h, p) := st in
  match h !! e.2 with
  | Some tx =>
      if timeoutDuration p <? GetLifetime now tx
      then (<[e.2 := Cancel tx ErrTransactionTimeout]> h, unsafeRelease e.1 p)
      else (h, p)
  | None => (h, p)
  end.
Definition checkTimeouts (now : Z) (st : pool_state) : pool_state :=
  fold_left (check_timeout now) (map_to_list (transactions st.2)) st.

Definition GetCount (st : pool_state) : Z := Z.of_nat (size (transactions st.2)).

(** The identifier search of [Place], [n] attempts left: the identifier found,
    if any, and the counter. *)
Fixpoint find_id (n : nat) (next : Z) (m : gmap Z loc) : option Z * Z :=
  match n with
  | O => (None, next)
  | S n =>
      let id := next in
      let next := u32 (next + 1) in
      let candidate := Z.land id 0xFFFF in
      match m !! candidate with
      | None => (Some candidate, next)
      | Some _ => find_id n next m
      end
  end.

Definition Place (now : Z) (request : Request) (st : pool_state)
  : outcome (loc * Request) * pool_state :=
  let '(h, p) := st in
  if done_closed p then (Err (Errorf "transaction pool is closed"), (h, p)) else
  match find_id maxIDAttempts (nextID p) (transactions p) with
  | (None, next) =>
      (Err (Errorf "transaction pool is full (no free IDs after %d attempts)"),
       (h, mkPool (transactions p) next (done_closed p) (timeoutDuration p)))
  | (Some txID, next) =>
      let request := SetTransactionID request txID in
      let l := fresh (dom h) in
      (Ok (l, request),
       (<[l := NewTransaction now request]> h,
        mkPool (<[txID := l]> (transactions p)) next (done_closed p) (timeoutDuration p)))
  end.

Definition pool_Get (txID : Z) (st : pool_state) : option loc := transactions st.2 !! txID.

Definition Release (txID : Z) (st : pool_state) : option loc * pool_state :=
  let '(h, p) := st in
  match transactions p !! txID with
  | Some l => (Some l, (h, unsafeRelease txID p))
  | None => (None, (h, p))
  end.

Definition unsafeReset (st : pool_state) : pool_state :=
  let '(h, p) := st in
  (cancel_all ErrTransportClosing (map_to_list (transactions p)) h, set_transactions p ∅).

(** [tx.Complete(result)] on the object at [l]. *)
Definition complete_at (l : loc) (result : Response + error) (h : heap) : heap :=
  alter (fun t => Complete t result) l h.

(** [processError] of conn.go: release, then complete with the error. *)
Definition processError (txID : Z) (err : error) (st : pool_state) : pool_state :=
  match Release txID st with
  | (Some l, (h, p)) => (complete_at l (inr err) h, p)
  | (None, st) => st
  end.

(** ** Lemmas on heaps *)
Lemma Cancel_idemp t err : Cancel (Cancel t err) err = Cancel t err.
Proof. destruct t as [r [rc|] [ec|] c ct]; done. Qed.

Lemma cancel_all_lookup err entries : forall h l,
  cancel_all err entries h !! l =
    if decide (l ∈ entries.*2) then (fun t => Cancel t err) <$> h !! l else h !! l.
Proof.
  induction entries as [|e entries IH]; intros h l; [done|].
  change (cancel_all err (e :: entries) h) with
    (cancel_all err entries (alter (fun t => Cancel t err) e.2 h)).
  rewrite IH. cbn [fmap list_fmap]. destruct (decide (l = e.2)) as [->|Hne].
  - rewrite lookup_alter_eq. rewrite (decide_True (P := e.2 ∈ e.2 :: _)) by set_solver.
    case_decide; [|done]. destruct (h !! e.2); [|done]. simpl. by rewrite Cancel_idemp.
  - rewrite lookup_alter_ne by done.
    destruct (decide (l ∈ entries.*2)), (decide (l ∈ e.2 :: entries.*2)); set_solver.
Qed.

(** ** The invariant

    [held] are the transactions a goroutine has released and not yet completed.
    Transactions may carry an error while they are still in the pool (a write
    that failed), never a response. *)
Definition txid (t : Transaction) : Z := GetTransactionID (tx_Request t).
Definition routed (t : Transaction) : Prop :=
  forall r, ResponseCh t = Some r -> TransactionID (resp_MBAP r) = txid t.
Definition awaiting (h : heap) (l : loc) (id : Z) : Prop :=
  exists t, h !! l = Some t /\ txid t = id /\ ResponseCh t = None.

Record pool_inv (h : heap) (p : TransactionPool) (held : gmap loc Z) : Prop := {
  inv_pool : forall id l, transactions p !! id = Some l -> is_u16 id /\ awaiting h l id;
  inv_held : forall l id, held !! l = Some id -> awaiting h l id;
  inv_apart : forall id l, transactions p !! id = Some l -> held !! l = None;
  inv_heap : forall l t, h !! l = Some t -> routed t;
  inv_next : is_u32 (nextID p);
  inv_closed : done_closed p = true -> transactions p = ∅ }.

Lemma awaiting_unique h l id id' : awaiting h l id -> awaiting h l id' -> id = id'.
Proof. intros (t & E & <- & _) (t' & E' & <- & _). congruence. Qed.

Lemma pool_injective h p held id id' l :
  pool_inv h p held -> transactions p !! id = Some l -> transactions p !! id' = Some l -> id = id'.
Proof.
  intros I E E'. eapply awaiting_unique; [apply (inv_pool _ _ _ I id l E)|apply (inv_pool _ _ _ I id' l E')].
Qed.

(** A heap change that completes transactions with errors only. *)
Definition errs_only (h h' : heap) : Prop :=
  forall l, match h !! l, h' !! l with
            | Some t, Some t' => txid t' = txid t /\ ResponseCh t' = ResponseCh t
            | None, None => True
            | _, _ => False
            end.

Lemma errs_only_awaiting h h' l id : errs_only h h' -> awaiting h l id -> awaiting h' l id.
Proof.
  intros H (t & E & Hid & Hr). specialize (H l). rewrite E in H.
  destruct (h' !! l) as [t'|] eqn:E'; [|done]. destruct H as [Hid' Hr'].
  exists t'. by rewrite Hid', Hr'.
Qed.

Lemma errs_only_inv h h' p held : errs_only h h' -> pool_inv h p held -> pool_inv h' p held.
Proof.
  intros He I. split.
  - intros id l E. destruct (inv_pool _ _ _ I id l E). split; [done|].
    by eapply errs_only_awaiting.
  - intros l id E. eapply errs_only_awaiting; [done|]. by apply (inv_held _ _ _ I).
  - apply (inv_apart _ _ _ I).
  - intros l t' E. specialize (He l). rewrite E in He. destruct (h !! l) as [t|] eqn:E'; [|done].
    intros r Hr. destruct He as [-> Hr']. rewrite Hr' in Hr. by apply (inv_heap _ _ _ I l t E').
  - apply (inv_next _ _ _ I).
  - apply (inv_closed _ _ _ I).
Qed.

Lemma cancel_all_errs err entries h : errs_only h (cancel_all err entries h).
Proof.
  intros l. rewrite cancel_all_lookup. case_decide; destruct (h !! l) as [t|]; done.
Qed.
Lemma complete_errs h l err : errs_only h (complete_at l (inr err) h).
Proof.
  intros l'. unfold complete_at. destruct (decide (l = l')) as [<-|Hne].
  - rewrite lookup_alter_eq. by destruct (h !! l).
  - rewrite lookup_alter_ne by done. by destruct (h !! l').
Qed.

(** Removing entries keeps the invariant. *)
Lemma pool_inv_shrink h p held m c :
  pool_inv h p held -> m ⊆ transactions p -> (c = true -> m = ∅) ->
  pool_inv h (mkPool m (nextID p) c (timeoutDuration p)) held.
Proof.
  intros I Hm Hc. split; simpl; try apply I; try done.
  - intros id l E. apply (inv_pool _ _ _ I). by eapply lookup_weaken.
  - intros id l E. eapply (inv_apart _ _ _ I). by eapply lookup_weaken.
Qed.

(** ** The identifier search *)
Lemma candidate_u16 id : Z.land id 0xFFFF = u16 id.
Proof. change 0xFFFF with (Z.ones 16). by rewrite Z.land_ones. Qed.

Lemma find_id_spec n : forall next m r next',
  is_u32 next -> find_id n next m = (r, next') ->
  is_u32 next' /\
  match r with
  | Some id => is_u16 id /\ m !! id = None
  | None => forall i, 0 <= i < Z.of_nat n -> m !! u16 (next + i) <> None
  end.
Proof.
  induction n as [|n IH]; intros next m r next' Hn E; cbn [find_id] in E.
  - injection E as <- <-. split; [done|lia].
  - rewrite candidate_u16 in E. destruct (m !! u16 next) as [l|] eqn:El.
    + destruct (IH _ _ _ _ (u32_range _) E) as [Hn' Hr]. split; [done|].
      destruct r; [done|]. intros i Hi. destruct (decide (i = 0)) as [->|Hi0].
      { by rewrite Z.add_0_r, El. }
      specialize (Hr (i - 1)). replace (u16 (u32 (next + 1) + (i - 1))) with (u16 (next + i)) in Hr
        by (widths; dlia). apply Hr. lia.
    + injection E as <- <-. split; [apply u32_range|]. split; [apply u16_range|done].
Qed.

(** Sixteen taken candidates are sixteen transactions in flight. *)
Lemma all_taken_size (m : gmap Z loc) next :
  (forall i, 0 <= i < 16 -> m !! u16 (next + i) <> None) -> (16 <= size m)%nat.
Proof.
  intros H. set (ids := map (fun i => u16 (next + i)) (iota 16)).
  assert (NoDup ids) as Hnd.
  { apply NoDup_fmap_2_strong; [|by vm_compute; repeat constructor; set_solver].
    intros i j Hi%elem_of_iota Hj%elem_of_iota Heq. widths. dlia. }
  change 16%nat with (length ids). rewrite <-(size_list_to_set (C := gset Z) ids Hnd).
  rewrite <-size_dom. apply subseteq_size. intros id Hid%elem_of_list_to_set.
  apply list_elem_of_fmap in Hid as (i & -> & Hi%elem_of_iota).
  apply elem_of_dom. specialize (H i Hi). by destruct (m !! _).
Qed.

Lemma Place_Ok now req h p h' p' l req' :
  Place now req (h, p) = (Ok (l, req'), (h', p')) -> is_u32 (nextID p) ->
  h !! l = None /\ h' = <[l := NewTransaction now req']> h /\
  req' = SetTransactionID req (GetTransactionID req') /\ is_u16 (GetTransactionID req') /\
  transactions p !! GetTransactionID req' = None /\
  transactions p' = <[GetTransactionID req' := l]> (transactions p) /\
  is_u32 (nextID p') /\ done_closed p = false /\ done_closed p' = false /\
  timeoutDuration p' = timeoutDuration p.
Proof.
  intros E Hn. unfold Place in E. destruct (done_closed p) eqn:Ed; [done|].
  destruct (find_id _ _ _) as [[id|] next] eqn:Ef; [|done].
  destruct (find_id_spec _ _ _ _ _ Hn Ef) as [Hn' [Hid Hfree]].
  injection E as <- <- <- <-. simpl. split; [apply not_elem_of_dom, is_fresh|].
  by repeat (split; [done|]).
Qed.

Lemma Place_Err now req h p h' p' e :
  Place now req (h, p) = (Err e, (h', p')) -> is_u32 (nextID p) ->
  h' = h /\ transactions p' = transactions p /\ done_closed p' = done_closed p /\
  is_u32 (nextID p') /\
  (done_closed p = true \/ (done_closed p = false /\ 16 <= size (transactions p))%nat).
Proof.
  intros E Hn. unfold Place in E. destruct (done_closed p) eqn:Ed.
  { injection E as <- <- <-. auto 10. }
  destruct (find_id _ _ _) as [[id|] next] eqn:Ef; [done|].
  destruct (find_id_spec _ _ _ _ _ Hn Ef) as [Hn' Hfull]. injection E as <- <- <-.
  repeat split; try done; try apply Hn'. right. split; [done|].
  apply (all_taken_size _ (nextID p)), Hfull.
Qed.

Lemma Place_no_panic now req st : (Place now req st).1 <> Panic.
Proof.
  destruct st as [h p]. unfold Place. destruct (done_closed p); [done|].
  by destruct (find_id _ _ _) as [[id|] next].
Qed.

Lemma place_inv now req h p held h' p' l req' :
  Place now req (h, p) = (Ok (l, req'), (h', p')) -> pool_inv h p held -> pool_inv h' p' held.
Proof.
  intros E I. apply Place_Ok in E as (Hl & -> & Hreq & Hid & Hfree & Htx & Hn & Hd & Hd' & _);
    [|apply I]. assert (forall l' id, awaiting h l' id -> l' <> l) as Hne.
  { intros l' id (t & Et & _) ->. congruence. }
  assert (forall l' id, awaiting h l' id ->
    awaiting (<[l := NewTransaction now req']> h) l' id) as Hext.
  { intros l' id Ha. pose proof (Hne _ _ Ha). destruct Ha as (t & Et & Ha).
    exists t. by rewrite lookup_insert_ne. }
  split.
  - intros id l'. rewrite Htx. destruct (decide (id = GetTransactionID req')) as [->|Hid'].
    + rewrite lookup_insert_eq. intros [= <-]. split; [done|].
      exists (NewTransaction now req'). by rewrite lookup_insert_eq.
    + rewrite lookup_insert_ne by done. intros El. destruct (inv_pool _ _ _ I id l' El). auto.
  - intros l' id El. apply Hext. by apply (inv_held _ _ _ I).
  - intros id l'. rewrite Htx. destruct (decide (id = GetTransactionID req')) as [->|Hid'].
    + rewrite lookup_insert_eq. intros [= <-]. destruct (held !! l) as [id'|] eqn:Eh; [|done].
      by destruct (Hne l id' (inv_held _ _ _ I l id' Eh)).
    + rewrite lookup_insert_ne by done. apply (inv_apart _ _ _ I).
  - intros l' t. destruct (decide (l = l')) as [->|Hne'].
    + rewrite lookup_insert_eq. intros [= <-] r. done.
    + rewrite lookup_insert_ne by done. apply (inv_heap _ _ _ I).
  - done.
  - by rewrite Hd'.
Qed.

(** ** Timeouts *)
Definition expired (now timeout : Z) (h : heap) (l : loc) : bool :=
  match h !! l with Some t => timeout <? GetLifetime now t | None => false end.

(** The loop over entries with distinct locations, entry by entry. *)
Lemma check_timeout_fold now entries : forall h p,
  NoDup (entries.*2) -> NoDup (entries.*1) ->
  (forall id l, (id, l) ∈ entries -> transactions p !! id = Some l) ->
  exists h' m', fold_left (check_timeout now) entries (h, p) = (h', set_transactions p m') /\
    (forall l, h' !! l =
       if bool_decide (l ∈ entries.*2) && expired now (timeoutDuration p) h l
       then (fun t => Cancel t ErrTransactionTimeout) <$> h !! l else h !! l) /\
    (forall id l, m' !! id = Some l <-> transactions p !! id = Some l /\
       ~ ((id, l) ∈ entries /\ expired now (timeoutDuration p) h l = true)).
Proof.
  induction entries as [|[id0 l0] entries IH]; intros h p Hl Hi Hent.
  { exists h, (transactions p). split; [by destruct p|]. split; [done|].
    intros id l. split; [|tauto]. intros E. split; [done|]. intros [H _]. set_solver. }
  cbn [fmap list_fmap fst snd] in *. apply NoDup_cons in Hl as [Hl0 Hl], Hi as [Hi0 Hi].
  pose proof (Hent id0 l0 ltac:(set_solver)) as Hp0.
  cbn [fold_left]. destruct (expired now (timeoutDuration p) h l0) eqn:Ex.
  - pose proof Ex as Ex'. unfold expired in Ex'. destruct (h !! l0) as [t0|] eqn:E0; [|done].
    assert (check_timeout now (h, p) (id0, l0) =
      (<[l0 := Cancel t0 ErrTransactionTimeout]> h, unsafeRelease id0 p)) as ->.
    { unfold check_timeout. simpl. by rewrite E0, Ex'. }
    destruct (IH (<[l0 := Cancel t0 ErrTransactionTimeout]> h) (unsafeRelease id0 p) Hl Hi)
      as (h' & m' & E & Hh & Hm).
    { intros id l Hin. simpl. rewrite lookup_delete_ne; [apply Hent; by right|].
      intros ->. apply Hi0, list_elem_of_fmap. by exists (id, l). }
    simpl timeoutDuration in *. simpl transactions in *.
    assert (forall l, l <> l0 -> expired now (timeoutDuration p)
      (<[l0 := Cancel t0 ErrTransactionTimeout]> h) l =
      expired now (timeoutDuration p) h l) as Hexp.
    { intros l Hne. unfold expired. by rewrite lookup_insert_ne. }
    exists h', m'. split; [exact E|]. split.
    + intros l. rewrite Hh. destruct (decide (l = l0)) as [->|Hne].
      * rewrite bool_decide_false by done. rewrite bool_decide_true, Ex by left. simpl.
        by rewrite lookup_insert_eq, E0.
      * rewrite Hexp, lookup_insert_ne by done.
        by rewrite (bool_decide_ext (l ∈ entries.*2) (l ∈ l0 :: entries.*2)) by set_solver.
    + intros id l. rewrite Hm, lookup_delete_Some. destruct (decide (l = l0)) as [->|Hne].
      * split; [|intros [E1 Hn]; split; [|set_solver]; split; [|done]].
        -- intros [[Hid E1] _]. split; [done|]. intros [Hin _].
           apply elem_of_cons in Hin as [[= ->]|Hin]; [done|].
           apply Hl0, list_elem_of_fmap. by exists (id, l0).
        -- intros <-. apply Hn. split; [left|done].
      * rewrite Hexp by done. rewrite elem_of_cons. split.
        -- intros [[Hid E1] Hn]. split; [done|]. intros [[[= -> ->]|Hin] Hx]; [done|auto].
        -- intros [E1 Hn]. split; [split; [intros <-; congruence|done]|].
           intros [Hin Hx]. apply Hn. auto.
  - assert (check_timeout now (h, p) (id0, l0) = (h, p)) as ->.
    { unfold check_timeout. simpl. unfold expired in Ex. destruct (h !! l0); [by rewrite Ex|done]. }
    destruct (IH h p Hl Hi) as (h' & m' & E & Hh & Hm); [intros; apply Hent; by right|].
    exists h', m'. split; [exact E|]. split.
    + intros l. rewrite Hh. destruct (decide (l = l0)) as [->|Hne].
      * by rewrite Ex, !andb_false_r.
      * by rewrite (bool_decide_ext (l ∈ entries.*2) (l ∈ l0 :: entries.*2)) by set_solver.
    + intros id l. rewrite Hm, elem_of_cons. split; intros [E1 Hn]; split; try done.
      * intros [[[= -> ->]|Hin] Hx]; [congruence|auto].
      * intros [Hin Hx]. apply Hn. auto.
Qed.

Lemma map_entries_NoDup_snd h p held :
  pool_inv h p held -> NoDup ((map_to_list (transactions p)).*2).
Proof.
  intros I. apply (NoDup_fmap_2_strong snd); [|apply NoDup_map_to_list].
  intros [id l] [id' l'] Hin%elem_of_map_to_list Hin'%elem_of_map_to_list E. simpl in E. subst l'.
  f_equal. by eapply pool_injective.
Qed.

(** What [checkTimeouts] does to a pool that satisfies the invariant. *)
Lemma checkTimeouts_spec now h p held :
  pool_inv h p held ->
  exists h' m', checkTimeouts now (h, p) = (h', set_transactions p m') /\ errs_only h h' /\
    (forall id l, m' !! id = Some l <->
       transactions p !! id = Some l /\ expired now (timeoutDuration p) h l = false) /\
    (forall id l, transactions p !! id = Some l ->
       h' !! l = (if expired now (timeoutDuration p) h l
                  then (fun t => Cancel t ErrTransactionTimeout) <$> h !! l else h !! l)).
Proof.
  intros I. destruct (check_timeout_fold now (map_to_list (transactions p)) h p)
    as (h' & m' & E & Hh & Hm).
  - by eapply map_entries_NoDup_snd.
  - apply NoDup_fst_map_to_list.
  - intros id l. apply elem_of_map_to_list.
  - exists h', m'. split; [exact E|]. split; [|split].
    + intros l. rewrite Hh. destruct (_ && _), (h !! l); done.
    + intros id l. rewrite Hm, elem_of_map_to_list. split; intros [E1 Hx]; split; try done.
      * destruct (expired _ _ _ _); [|done]. by destruct Hx.
      * intros [_ Hx']. congruence.
    + intros id l Hl. rewrite Hh, bool_decide_true; [done|].
      apply list_elem_of_fmap. exists (id, l). split; [done|]. by apply elem_of_map_to_list.
Qed.

(** ** Interleavings

    The steps the goroutines of a connection take on its pool.  A reader
    releases a transaction and completes it in two steps, with its own
    response, between which anything may happen. *)
Definition world : Type := (heap * TransactionPool * gmap loc Z)%type.

Inductive pool_step : world -> world -> Prop :=
| st_place now req r h p held h' p' :
    Place now req (h, p) = (r, (h', p')) -> pool_step (h, p, held) (h', p', held)
| st_release id l h p held h' p' :
    Release id (h, p) = (Some l, (h', p')) ->
    pool_step (h, p, held) (h', p', <[l := id]> held)
| st_respond l id resp h p held :
    held !! l = Some id -> TransactionID (resp_MBAP resp) = id ->
    pool_step (h, p, held) (complete_at l (inl resp) h, p, delete l held)
| st_fail l id err h p held :
    held !! l = Some id ->
    pool_step (h, p, held) (complete_at l (inr err) h, p, delete l held)
| st_abandon id r h p held h' p' :
    Release id (h, p) = (r, (h', p')) -> pool_step (h, p, held) (h', p', held)
| st_write_error l err h p held :
    pool_step (h, p, held) (complete_at l (inr err) h, p, held)
| st_timeouts now h p held h' p' :
    checkTimeouts now (h, p) = (h', p') -> pool_step (h, p, held) (h', p', held)
| st_reset h p held h' p' :
    unsafeReset (h, p) = (h', p') -> pool_step (h, p, held) (h', p', held)
| st_close h p held h' p' :
    pool_Close (h, p) = (h', p') -> pool_step (h, p, held) (h', p', held).

Definition world_inv (w : world) : Prop := pool_inv w.1.1 w.1.2 w.2.

Lemma release_inv id h p held r h' p' :
  Release id (h, p) = (r, (h', p')) -> pool_inv h p held ->
  h' = h /\ pool_inv h' p' held /\
  match r with
  | Some l => transactions p !! id = Some l /\ transactions p' !! id = None /\
              pool_inv h' p' (<[l := id]> held)
  | None => p' = p
  end.
Proof.
  intros E I. unfold Release in E. destruct (transactions p !! id) as [l|] eqn:El;
    injection E as <- <- <-; [|done].
  assert (pool_inv h (unsafeRelease id p) held) as I'.
  { apply pool_inv_shrink; [done|apply delete_subseteq|]. intros Hc.
    rewrite (inv_closed _ _ _ I Hc) in El. by rewrite lookup_empty in El. }
  split; [done|]. split; [done|]. split; [done|]. split; [apply lookup_delete_eq|].
  split; try apply I'.
  - intros l' id'. destruct (decide (l = l')) as [<-|Hne].
    + rewrite lookup_insert_eq. intros [= <-]. by apply (inv_pool _ _ _ I).
    + rewrite lookup_insert_ne by done. apply (inv_held _ _ _ I).
  - intros id' l' El'. pose proof El' as Hd. cbn in Hd.
    apply lookup_delete_Some in Hd as [Hid Hl']. rewrite lookup_insert_ne.
    + by apply (inv_apart _ _ _ I' id' l').
    + intros <-. apply Hid. exact (pool_injective _ _ _ _ _ _ I El Hl').
Qed.

(** A held transaction completed with its own response. *)
Lemma respond_inv l id resp h p held :
  held !! l = Some id -> TransactionID (resp_MBAP resp) = id -> pool_inv h p held ->
  pool_inv (complete_at l (inl resp) h) p (delete l held).
Proof.
  intros Hl Hid I. destruct (inv_held _ _ _ I l id Hl) as (t & Et & Hti & Hr).
  assert (forall l', l <> l' -> complete_at l (inl resp) h !! l' = h !! l') as Hother.
  { intros l' Hne. unfold complete_at. by rewrite lookup_alter_ne. }
  assert (forall l' i, l <> l' -> awaiting h l' i -> awaiting (complete_at l (inl resp) h) l' i)
    as Haw. { intros l' i Hne (t' & ?). exists t'. by rewrite Hother. }
  split; try apply I.
  - intros i l' El. destruct (inv_pool _ _ _ I i l' El) as [Hi Ha]. split; [done|].
    apply Haw; [|done]. intros <-. rewrite (inv_apart _ _ _ I i l El) in Hl. done.
  - intros l' i [Hne Hl']%lookup_delete_Some. apply Haw; [done|]. by apply (inv_held _ _ _ I).
  - intros i l' El. apply lookup_delete_None. right. by apply (inv_apart _ _ _ I i).
  - intros l' t' E'. destruct (decide (l = l')) as [<-|Hne].
    + unfold complete_at in E'. rewrite lookup_alter_eq, Et in E'. injection E' as <-.
      intros r. simpl. rewrite Hr. intros [= <-]. by rewrite Hid.
    + rewrite Hother in E' by done. by apply (inv_heap _ _ _ I l').
Qed.

Lemma held_delete_inv l h p held : pool_inv h p held -> pool_inv h p (delete l held).
Proof.
  intros I. split; try apply I.
  - intros l' i [_ Hl']%lookup_delete_Some. by apply (inv_held _ _ _ I).
  - intros i l' El. apply lookup_delete_None. right. by apply (inv_apart _ _ _ I i).
Qed.

Lemma pool_step_inv w w' : pool_step w w' -> world_inv w -> world_inv w'.
Proof.
  intros Hs I. unfold world_inv in *. destruct Hs as
    [now req r h p held h' p' E|id l h p held h' p' E|l id resp h p held Hl Hid
    |l id err h p held Hl|id r h p held h' p' E|l err h p held|now h p held h' p' E
    |h p held h' p' E|h p held h' p' E]; cbn [fst snd] in *.
  - destruct r as [[l req']|e|].
    + by eapply place_inv.
    + destruct (Place_Err _ _ _ _ _ _ _ E (inv_next _ _ _ I)) as (-> & Ht & Hd & Hn & _).
      split; rewrite ?Ht, ?Hd; try apply I. done.
    + by destruct (Place_no_panic now req (h, p)); rewrite E.
  - by destruct (release_inv _ _ _ _ _ _ _ E I) as (_ & _ & _ & _ & ?).
  - by eapply respond_inv.
  - apply held_delete_inv. by eapply errs_only_inv; [apply complete_errs|].
  - by destruct (release_inv _ _ _ _ _ _ _ E I) as (_ & ? & _).
  - by eapply errs_only_inv; [apply complete_errs|].
  - destruct (checkTimeouts_spec now h p held I) as (h1 & m1 & E1 & He & Hm & _).
    rewrite E1 in E. injection E as <- <-. apply pool_inv_shrink.
    + by eapply errs_only_inv.
    + apply map_subseteq_spec. intros id l. rewrite Hm. by intros [].
    + intros Hc. apply map_eq. intros id. rewrite lookup_empty.
      destruct (m1 !! id) as [l|] eqn:El; [|done]. apply Hm in El as [El _].
      by rewrite (inv_closed _ _ _ I Hc), lookup_empty in El.
  - injection E as <- <-. apply pool_inv_shrink; [|apply map_empty_subseteq|done].
    eapply errs_only_inv; [apply cancel_all_errs|done].
  - unfold pool_Close in E. destruct (done_closed p); injection E as <- <-; [done|].
    apply pool_inv_shrink; [|apply map_empty_subseteq|done].
    eapply errs_only_inv; [apply cancel_all_errs|done].
Qed.

Lemma pool_steps_inv w w' : rtc pool_step w w' -> world_inv w -> world_inv w'.
Proof. induction 1; eauto using pool_step_inv. Qed.

Lemma new_pool_inv t : world_inv (∅, NewTransactionPool t, ∅).
Proof.
  unfold world_inv. split; cbn [fst snd NewTransactionPool transactions nextID done_closed];
    try (intros *; rewrite lookup_empty); try done.
Qed.

(** A step keeps every response that was delivered. *)
Lemma pool_step_keeps w w' l t r :
  pool_step w w' -> world_inv w -> w.1.1 !! l = Some t -> ResponseCh t = Some r ->
  exists t', w'.1.1 !! l = Some t' /\ ResponseCh t' = Some r /\ txid t' = txid t.
Proof.
  intros Hs I E Hr.
  assert (forall h h', errs_only h h' -> h !! l = Some t -> exists t',
    h' !! l = Some t' /\ ResponseCh t' = Some r /\ txid t' = txid t) as Herr.
  { intros h h' He E'. specialize (He l). rewrite E' in He. destruct (h' !! l) as [t'|]; [|done].
    exists t'. destruct He as [Hi Hc]. by rewrite Hc. }
  unfold world_inv in I. destruct Hs as
    [now req o h p held h' p' Ep|id l0 h p held h' p' Er|l0 id resp h p held Hl Hid
    |l0 id err h p held Hl|id o h p held h' p' Er|l0 err h p held|now h p held h' p' Et
    |h p held h' p' Et|h p held h' p' Et]; cbn [fst snd] in *.
  - destruct o as [[l0 req']|e|].
    + apply Place_Ok in Ep as (Hl & -> & _); [|apply I].
      exists t. by rewrite lookup_insert_ne by congruence.
    + apply Place_Err in Ep as (-> & _); [|apply I]. by exists t.
    + by destruct (Place_no_panic now req (h, p)); rewrite Ep.
  - destruct (release_inv _ _ _ _ _ _ _ Er I) as (-> & _). by exists t.
  - destruct (inv_held _ _ _ I l0 id Hl) as (t0 & E0 & _ & Hr0).
    exists t. unfold complete_at. rewrite lookup_alter_ne; [done|]. intros <-. congruence.
  - apply (Herr h); [apply complete_errs|done].
  - destruct (release_inv _ _ _ _ _ _ _ Er I) as (-> & _). by exists t.
  - apply (Herr h); [apply complete_errs|done].
  - destruct (checkTimeouts_spec now h p held I) as (h1 & m1 & E1 & He & _).
    rewrite E1 in Et. injection Et as <- <-. by apply (Herr h).
  - injection Et as <- <-. apply (Herr h); [apply cancel_all_errs|done].
  - unfold pool_Close in Et. destruct (done_closed p); injection Et as <- <-; [by exists t|].
    apply (Herr h); [apply cancel_all_errs|done].
Qed.

(** ** Properties *)

(** Placing a request takes nothing away from those in flight. *)
Lemma place_keeps now req h p held h' p' r :
  Place now req (h, p) = (r, (h', p')) -> pool_inv h p held ->
  forall id l, transactions p !! id = Some l -> transactions p' !! id = Some l.
Proof.
  intros E I id l El. destruct r as [[l0 req']|e|].
  - apply Place_Ok in E as (_ & _ & _ & _ & Hfree & -> & _); [|apply I]. rewrite lookup_insert_ne; [done|congruence].
  - by apply Place_Err in E as (_ & -> & _); [|apply I].
  - by destruct (Place_no_panic now req (h, p)); rewrite E.
Qed.
(** No step gives an identifier that is in flight to another transaction. *)
Lemma pool_step_owner w w' id l l' : pool_step w w' -> world_inv w ->
  transactions w.1.2 !! id = Some l -> transactions w'.1.2 !! id = Some l' -> l' = l.
Proof.
  intros Hs I E. unfold world_inv in I.
  assert (forall m : gmap Z loc, m ⊆ transactions w.1.2 -> m !! id = Some l' -> l' = l) as Hsub.
  { intros m Hm El. pose proof (lookup_weaken _ _ _ _ El Hm). congruence. }
  destruct Hs as
    [now req o h p held h' p' Ep|i l0 h p held h' p' Er|l0 i resp h p held Hl Hid
    |l0 i err h p held Hl|i o h p held h' p' Er|l0 err h p held|now h p held h' p' Et
    |h p held h' p' Et|h p held h' p' Et]; cbn [fst snd] in *; try congruence.
  - intros E'. pose proof (place_keeps _ _ _ _ _ _ _ _ Ep I id l E). congruence.
  - apply Hsub. unfold Release in Er. destruct (transactions p !! i); [|done]. injection Er as _ <- <-. apply delete_subseteq.
  - apply Hsub. unfold Release in Er. destruct (transactions p !! i); injection Er as _ <- <-; [apply delete_subseteq|done].
  - destruct (checkTimeouts_spec now h p held I) as (h1 & m1 & E1 & _ & Hm & _). rewrite E1 in Et.
    injection Et as <- <-. cbn. intros [? _]%Hm. congruence.
  - injection Et as <- <-. apply Hsub, map_empty_subseteq.
  - unfold pool_Close in Et. destruct (done_closed p); injection Et as <- <-; [congruence|]. apply Hsub, map_empty_subseteq.
Qed.

(** C12: No cross-talk between concurrent requests.  In every state reached by an
    interleaving of placing, reading responses, write failures, timeouts, resets and
    closing: a response found in a transaction's channel carries the transaction
    identifier its own request was sent with; a transaction in flight is found under
    that identifier, a 16-bit number, and has no response yet; a request that is
    placed gets an identifier that no transaction in flight has, and all of these
    stay in flight under theirs; and no step whatever passes an identifier in flight
    on to another transaction: it is taken out of the pool first. *)
Theorem no_crosstalk timeout h p held :
  rtc pool_step (∅, NewTransactionPool timeout, ∅) (h, p, held) ->
  (forall l t r, h !! l = Some t -> ResponseCh t = Some r ->
     TransactionID (resp_MBAP r) = GetTransactionID (tx_Request t)) /\
  (forall id l, transactions p !! id = Some l -> is_u16 id /\
     exists t, h !! l = Some t /\ GetTransactionID (tx_Request t) = id /\ ResponseCh t = None) /\
  (forall now req l req' h' p', Place now req (h, p) = (Ok (l, req'), (h', p')) ->
     transactions p' !! GetTransactionID req' = Some l /\
     forall id l0, transactions p !! id = Some l0 ->
       transactions p' !! id = Some l0 /\ id <> GetTransactionID req' /\ l0 <> l) /\
  (forall w' id l l', pool_step (h, p, held) w' ->
     transactions p !! id = Some l -> transactions w'.1.2 !! id = Some l' -> l' = l).
Proof.
  intros H%pool_steps_inv; [|apply new_pool_inv]. split; [|split; [|split]].
  - intros l t r E Hr. by apply (inv_heap _ _ _ H l t).
  - intros id l E. by apply (inv_pool _ _ _ H).
  - intros now req l req' h' p' E. pose proof (place_keeps _ _ _ _ _ _ _ _ E H) as Hk.
    apply Place_Ok in E as (Hl & _ & _ & _ & Hfree & Ht & _); [|apply H]. split; [by rewrite Ht, lookup_insert_eq|].
    intros id l0 E0. split; [by apply Hk|]. split; [congruence|]. intros ->.
    destruct (inv_pool _ _ _ H id l E0) as (_ & t & Et & _). cbn in Et. congruence.
  - intros w' id l l' Hs. by apply (pool_step_owner _ _ id l l' Hs).
Qed.

(** A response is delivered at most once and for good: once a transaction
    holds a response, it holds that same response in every later state, whatever
    happens to the pool. *)
Theorem response_final timeout w w' l t r :
  rtc pool_step (∅, NewTransactionPool timeout, ∅) w -> rtc pool_step w w' ->
  w.1.1 !! l = Some t -> ResponseCh t = Some r ->
  exists t', w'.1.1 !! l = Some t' /\ ResponseCh t' = Some r.
Proof.
  intros H0%pool_steps_inv Hs; [|apply new_pool_inv]. revert t.
  induction Hs as [w|w w1 w2 H1 Hs IH]; intros t E Hr; [by exists t|].
  destruct (pool_step_keeps _ _ _ _ _ H1 H0 E Hr) as (t1 & E1 & Hr1 & _).
  eapply IH; [by eapply pool_step_inv|exact E1|done].
Qed.

(** Placing a request.  On an open pool with fewer than 16 requests in
    flight it always succeeds; a success uses a 16-bit identifier no request in
    flight has, writes it into the request, and adds exactly that entry; it fails
    only on a closed pool or with at least 16 requests in flight, and then the
    requests in flight are unchanged. *)
Theorem place_spec timeout h p held now req :
  rtc pool_step (∅, NewTransactionPool timeout, ∅) (h, p, held) ->
  match Place now req (h, p) with
  | (Ok (l, req'), (h', p')) =>
      done_closed p = false /\ h !! l = None /\
      h' = <[l := NewTransaction now req']> h /\
      req' = SetTransactionID req (GetTransactionID req') /\ is_u16 (GetTransactionID req') /\
      transactions p !! GetTransactionID req' = None /\
      transactions p' = <[GetTransactionID req' := l]> (transactions p)
  | (Err _, (h', p')) =>
      h' = h /\ transactions p' = transactions p /\ (done_closed p = true \/ 16 <= GetCount (h, p))
  | (Panic, _) => False
  end.
Proof.
  intros I%pool_steps_inv; [|apply new_pool_inv]. pose proof (inv_next _ _ _ I) as Hn.
  destruct (Place now req (h, p)) as [[[l req']|e|] [h' p']] eqn:E.
  - apply Place_Ok in E; [|done]. naive_solver.
  - apply Place_Err in E as (-> & -> & _ & _ & Hc); [|done]. repeat split; try done.
    destruct Hc as [?|[_ ?]]; [by left|right]. unfold GetCount. simpl. lia.
  - by destruct (Place_no_panic now req (h, p)); rewrite E.
Qed.

(** Closing the pool cancels every request in flight (its error channel is
    filled, with [ErrTransportClosing] unless an earlier error is already there),
    empties the pool, and no request can be placed afterwards. *)
Theorem close_spec timeout h p held :
  rtc pool_step (∅, NewTransactionPool timeout, ∅) (h, p, held) ->
  let '(h', p') := pool_Close (h, p) in
  GetCount (h', p') = 0 /\
  (forall id l t, transactions p !! id = Some l -> h !! l = Some t ->
     exists t', h' !! l = Some t' /\ tx_cancelled t' = true /\
       ErrCh t' = Some (default ErrTransportClosing (ErrCh t))) /\
  forall now req, (Place now req (h', p')).1 = Err (Errorf "transaction pool is closed").
Proof.
  intros I%pool_steps_inv; [|apply new_pool_inv]. unfold pool_Close.
  destruct (done_closed p) eqn:Ed; unfold Place; [rewrite Ed|]; cbn [done_closed].
  - pose proof (inv_closed _ _ _ I Ed) as E0. cbn [fst snd] in E0. unfold GetCount.
    cbn [snd]. rewrite E0. split; [by rewrite map_size_empty|]. split; [|done].
    intros id l t. by rewrite lookup_empty.
  - split; [unfold GetCount; cbn [snd transactions]; by rewrite map_size_empty|]. split; [|done].
    intros id l t E Et. rewrite cancel_all_lookup, decide_True, Et.
    + eexists. split; [reflexivity|]. split; [done|]. simpl. by destruct (ErrCh t).
    + apply list_elem_of_fmap. exists (id, l). split; [done|]. by apply elem_of_map_to_list.
Qed.

(** The timeout monitor releases and cancels with [ErrTransactionTimeout]
    exactly the requests that have been in flight for longer than the pool's
    timeout, and leaves the others alone. *)
Theorem timeouts_spec timeout h p held now :
  rtc pool_step (∅, NewTransactionPool timeout, ∅) (h, p, held) ->
  let '(h', p') := checkTimeouts now (h, p) in
  forall id l t, transactions p !! id = Some l -> h !! l = Some t ->
    if timeoutDuration p <? GetLifetime now t
    then transactions p' !! id = None /\ h' !! l = Some (Cancel t ErrTransactionTimeout)
    else transactions p' !! id = Some l /\ h' !! l = Some t.
Proof.
  intros I%pool_steps_inv; [|apply new_pool_inv].
  destruct (checkTimeouts_spec now h p held I) as (h' & m' & -> & _ & Hm & Hh).
  intros id l t E Et. pose proof (Hh id l E) as Hl.
  unfold expired in Hl. rewrite Et in Hl. cbn [transactions set_transactions].
  destruct (timeoutDuration p <? GetLifetime now t) eqn:Ex; (split; [|done]).
  - destruct (m' !! id) as [l'|] eqn:E'; [|done]. apply Hm in E' as [E1 E2].
    unfold expired in E2. rewrite E in E1. injection E1 as <-. by rewrite Et, Ex in E2.
  - apply Hm. split; [done|]. unfold expired. by rewrite Et.
Qed.

(** ** Concrete states: a request in flight, and the same request answered *)
Definition ex_request : Request := NewRequest 0 1 3 [0; 0; 0; 1].
Definition ex_response : Response := NewResponse 0 1 3 [2; 0; 7].
Definition in_flight : world :=
  ((Place 10 ex_request (∅, NewTransactionPool None)).2, ∅).
Definition answered_world : world :=
  (complete_at 1%positive (inl ex_response) in_flight.1.1,
   (Release 0 in_flight.1).2.2, ∅).

Lemma in_flight_reachable : rtc pool_step (∅, NewTransactionPool None, ∅) in_flight.
Proof. apply rtc_once. by eapply (st_place 10 ex_request). Qed.

Lemma answered_reachable : rtc pool_step in_flight answered_world.
Proof.
  eapply rtc_l; [by eapply (st_release 0 1%positive)|].
  eapply rtc_l; [apply (st_respond 1%positive 0 ex_response); done|].
  apply rtc_refl.
Qed.

(** A second request, placed while the first is in flight after the counter went
    round: the candidate 0 is taken, and the request gets 1. *)
Definition wrapped : pool_state := (in_flight.1.1, mkPool (transactions in_flight.1.2) 65536 false 5000000000).
Example place_skips_taken : transactions (Place 11 ex_request wrapped).2.2 = {[0 := 1%positive; 1 := 2%positive]}.
Proof. by vm_compute. Qed.

Lemma no_crosstalk_witness :
  transactions in_flight.1.2 !! 0 = Some 1%positive /\
  transactions (Place 11 ex_request in_flight.1).2.2 !! 0 = Some 1%positive /\
  transactions (Place 11 ex_request in_flight.1).2.2 !! 1 = Some 2%positive.
Proof.
  split; [reflexivity|].
  destruct (no_crosstalk None in_flight.1.1 in_flight.1.2 ∅ in_flight_reachable) as (_ & _ & H & _).
  destruct (H 11 ex_request 2%positive (SetTransactionID ex_request 1) _ _ eq_refl) as [H1 H2].
  split; [by apply H2|exact H1].
Defined.

Lemma response_final_witness :
  exists t', answered_world.1.1 !! 1%positive = Some t' /\ ResponseCh t' = Some ex_response.
Proof.
  apply (response_final None answered_world answered_world 1%positive
    (Complete (NewTransaction 10 ex_request) (inl ex_response))).
  - etransitivity; [apply in_flight_reachable|apply answered_reachable].
  - apply rtc_refl.
  - reflexivity.
  - reflexivity.
Defined.

Lemma place_spec_witness :
  transactions in_flight.1.2 !! GetTransactionID (SetTransactionID ex_request 1) = None.
Proof.
  exact (proj1 (proj2 (proj2 (proj2 (proj2 (proj2
    (place_spec None in_flight.1.1 in_flight.1.2 ∅ 11 ex_request in_flight_reachable))))))).
Defined.

Lemma close_spec_witness :
  exists t', (pool_Close in_flight.1).1 !! 1%positive = Some t' /\ tx_cancelled t' = true /\
    ErrCh t' = Some ErrTransportClosing.
Proof.
  exact (proj1 (proj2 (close_spec None in_flight.1.1 in_flight.1.2 ∅ in_flight_reachable))
    0 1%positive (NewTransaction 10 (SetTransactionID ex_request 0)) eq_refl eq_refl).
Defined.

Lemma timeouts_spec_witness :
  transactions (checkTimeouts 5000000011 in_flight.1).2 !! 0 = None.
Proof.
  exact (proj1 (timeouts_spec None in_flight.1.1 in_flight.1.2 ∅ 5000000011 in_flight_reachable
    0 1%positive (NewTransaction 10 (SetTransactionID ex_request 0)) eq_refl eq_refl)).
Defined.
