(* ===== verification/ModbusConn.v ===== *)
(** * The Modbus client connection

    Models [protocol/modbus/conn.go].  [Module ReadLoop] is the read goroutine
    over an event stream: framing, routing of responses to transactions, and
    the ways the loop tears the connection down.  [Module Conn] is the
    connection object across reconnects: generations, the connected flag, the
    teardown that runs once per generation, with the loops of old generations
    still running. *)
From S2P Require Import Prelude Bytes ModbusTypes ModbusFrame NetStream ModbusTransaction.

Module ReadLoop.

(** What an iteration ends with: another round, or the connection's teardown
    with an error ([setDisconnected]) and the loop's return. *)
Inductive verdict : Type := Again | Down (err : error) | Crashed.

(** The delivery of a response: [pool.Release] and [tx.Complete]; an unknown
    identifier is ignored. *)
Definition deliver (response : Response) (st : pool_state) : pool_state :=
  match Release (TransactionID (resp_MBAP response)) st with
  | (Some l, (h, p)) => (complete_at l (inl response) h, p)
  | (None, st) => st
  end.

(** One iteration of the loop, with the generation's done channel open. *)
Definition read_once (evs : list rx) (st : pool_state) : verdict * list rx * pool_state :=
  match conn_read_full (Z.to_nat TCPHeaderLength) evs with
  | (Err NetTimeout, evs) => (Again, evs, st)
  | (Err err, evs) => (Down (Wrapf "read error: %w" err), evs, st)
  | (Panic, evs) => (Crashed, evs, st)
  | (Ok header, evs) =>
      match be16_at header 0 2, be16_at header 2 4, be16_at header 4 6, go_index header 6 with
      | Ok transactionID, Ok protocolID, Ok length, Ok unitID =>
          if negb (protocolID =? TCPProtocolIdentifier)
          then (Down ErrInvalidProtocolHeader, evs,
                processError transactionID ErrInvalidProtocolHeader st) else
          let bodyLength := length - 1 in
          if bodyLength <=? 0
          then (Down ErrInvalidResponseLength, evs,
                processError transactionID ErrInvalidResponseLength st) else
          match conn_read_full (Z.to_nat bodyLength) evs with
          | (Err NetTimeout, evs) => (Again, evs, st)
          | (Err err, evs) =>
              (Down err, evs, processError transactionID (Wrapf "read body error: %w" err) st)
          | (Panic, evs) => (Crashed, evs, st)
          | (Ok body, evs) =>
              match body with
              | functionCode :: responseData =>
                  let response := NewResponse transactionID unitID functionCode responseData in
                  (Again, evs, deliver response st)
              | [] => (Crashed, evs, st)
              end
          end
      | _, _, _, _ => (Crashed, evs, st)
      end
  end.

(** The loop; [None] when the fuel runs out before it returns. *)
Fixpoint readLoop (fuel : nat) (evs : list rx) (st : pool_state)
  : option (verdict * pool_state) :=
  match fuel with
  | O => None
  | S fuel =>
      match read_once evs st with
      | (Again, evs, st) => readLoop fuel evs st
      | (v, _, st) => Some (v, st)
      end
  end.

(** ** Lemmas *)
Definition wire_responses (rs : list Response) : bytes :=
  flat_map (fun r => adu (resp_MBAP r) (resp_PDU r)) rs.

Definition server_response (r : Response) : Prop :=
  response_ok r /\ ProtocolID (resp_MBAP r) = TCPProtocolIdentifier /\ frame_fits (resp_PDU r).

#[global] Instance server_response_dec r : Decision (server_response r).
Proof. unfold server_response, response_ok, mbap_ok, pdu_ok. apply _. Defined.

Lemma header_fields tid pid n u :
  is_u16 tid -> is_u16 pid -> is_u16 n ->
  let header := be16 tid ++ be16 pid ++ be16 n ++ [u] in
  be16_at header 0 2 = Ok tid /\ be16_at header 2 4 = Ok pid /\ be16_at header 4 6 = Ok n /\
  go_index header 6 = Ok u.
Proof.
  intros Ht Hp Hn header. unfold header. rewrite be16_at_head by done.
  rewrite (be16_at_mid _ _ _ 2 4) by done. rewrite (app_assoc (be16 tid)).
  rewrite (be16_at_mid _ _ _ 4 6) by done. rewrite (app_assoc (be16 tid ++ _)).
  by rewrite <-(app_nil_r [u]), go_index_mid by done.
Qed.

Lemma adu_split m p :
  mbap_ok m -> pdu_ok p -> frame_fits p ->
  adu m p = (be16 (TransactionID m) ++ be16 (ProtocolID m) ++ be16 (2 + len (Data p)) ++
             [UnitID m]) ++ (FunctionCode p :: Data p).
Proof.
  intros (Ht & Hp & Hu) [Hfc _] Hf. unfold adu. rewrite frame_length by done.
  rewrite !u8_small by done. by rewrite <-!app_assoc.
Qed.

Lemma read_frame r evs st :
  server_response r ->
  read_once (arrive (adu (resp_MBAP r) (resp_PDU r)) ++ evs) st = (Again, evs, deliver r st).
Proof.
  intros ([Hm Hp] & Hpid & Hf). rewrite adu_split by done.
  pose proof Hf as Hf'. unfold frame_fits in Hf'. pose proof (len_nonneg (Data (resp_PDU r))).
  destruct Hm as (Ht & Hpr & Hu). destruct Hp as [Hfc Hd].
  rewrite arrive_app, <-app_assoc. unfold read_once. rewrite conn_read_full_arrive by done.
  destruct (header_fields (TransactionID (resp_MBAP r)) (ProtocolID (resp_MBAP r))
    (2 + len (Data (resp_PDU r))) (UnitID (resp_MBAP r))) as (-> & -> & -> & ->);
    [done|done|unfold is_u16; lia|].
  rewrite Hpid. cbn [negb Z.eqb TCPProtocolIdentifier].
  destruct (Z.leb_spec (2 + len (Data (resp_PDU r)) - 1) 0); [lia|].
  rewrite conn_read_full_arrive by (unfold len; simpl; lia).
  destruct r as [[t p u] [f d]]. simpl in *. by subst p.
Qed.

Lemma readLoop_deliver rs : forall fuel st,
  Forall server_response rs -> (length (wire_responses rs) < fuel)%nat ->
  readLoop fuel (arrive (wire_responses rs)) st =
    Some (Down (Wrapf "read error: %w" EOF), fold_left (fun st r => deliver r st) rs st).
Proof.
  induction rs as [|r rs IH]; intros fuel st Hrs Hf; (destruct fuel as [|fuel]; [lia|]); [done|].
  apply Forall_cons in Hrs as [Hr Hrs]. cbn [wire_responses flat_map readLoop fold_left] in *.
  rewrite arrive_app, read_frame by done. apply IH; [done|].
  rewrite length_app in Hf. pose proof (len_adu (resp_MBAP r) (resp_PDU r)) as Hl.
  pose proof (len_nonneg (Data (resp_PDU r))). unfold len, wire_responses in *. lia.
Qed.

(** A delivery touches the entry with the response's identifier only. *)
Lemma deliver_known r h p l :
  transactions p !! TransactionID (resp_MBAP r) = Some l ->
  deliver r (h, p) = (complete_at l (inl r) h, unsafeRelease (TransactionID (resp_MBAP r)) p).
Proof. intros E. unfold deliver, Release. by rewrite E. Qed.
Lemma deliver_unknown r h p :
  transactions p !! TransactionID (resp_MBAP r) = None -> deliver r (h, p) = (h, p).
Proof. intros E. unfold deliver, Release. by rewrite E. Qed.

Lemma deliver_inv r h p held :
  pool_inv h p held -> pool_inv (deliver r (h, p)).1 (deliver r (h, p)).2 held.
Proof.
  intros I. destruct (transactions p !! TransactionID (resp_MBAP r)) as [l|] eqn:E.
  - rewrite (deliver_known _ _ _ l) by done. cbn [fst snd].
    assert (Release (TransactionID (resp_MBAP r)) (h, p) =
      (Some l, (h, unsafeRelease (TransactionID (resp_MBAP r)) p))) as Er
      by (unfold Release; by rewrite E).
    destruct (release_inv _ _ _ _ _ _ _ Er I) as (_ & _ & _ & _ & I').
    pose proof (respond_inv l _ r _ _ _ (lookup_insert_eq held l _) eq_refl I') as I''.
    rewrite delete_insert_id in I''; [done|]. by eapply inv_apart.
  - by rewrite deliver_unknown.
Qed.

(** A delivered response survives later deliveries. *)
Lemma deliver_keeps r h p held l t x :
  pool_inv h p held -> h !! l = Some t -> ResponseCh t = Some x ->
  (deliver r (h, p)).1 !! l = Some t.
Proof.
  intros I E Hx. destruct (transactions p !! TransactionID (resp_MBAP r)) as [l'|] eqn:El.
  - rewrite (deliver_known _ _ _ l') by done. cbn [fst]. unfold complete_at.
    rewrite lookup_alter_ne; [done|]. intros ->.
    destruct (inv_pool _ _ _ I _ _ El) as (_ & t' & E' & _ & Hn). congruence.
  - by rewrite deliver_unknown.
Qed.

Lemma deliver_pool r st : forall id, id <> TransactionID (resp_MBAP r) ->
  transactions (deliver r st).2 !! id = transactions st.2 !! id.
Proof.
  intros id Hid. destruct st as [h p].
  destruct (transactions p !! TransactionID (resp_MBAP r)) as [l|] eqn:El.
  - rewrite (deliver_known _ _ _ l) by done. cbn. by rewrite lookup_delete_ne.
  - by rewrite deliver_unknown.
Qed.

(** Folding deliveries: what happened to each response, and what did not change. *)
Lemma deliveries rs : forall h p held,
  pool_inv h p held -> NoDup (map (fun r => TransactionID (resp_MBAP r)) rs) ->
  let st' := fold_left (fun st r => deliver r st) rs (h, p) in
  (forall l t x, h !! l = Some t -> ResponseCh t = Some x -> st'.1 !! l = Some t) /\
  (forall id, id ∉ map (fun r => TransactionID (resp_MBAP r)) rs ->
     transactions st'.2 !! id = transactions p !! id) /\
  (forall r l, r ∈ rs -> transactions p !! TransactionID (resp_MBAP r) = Some l ->
     transactions st'.2 !! TransactionID (resp_MBAP r) = None /\
     exists t, st'.1 !! l = Some t /\ ResponseCh t = Some r).
Proof.
  induction rs as [|r0 rs IH]; intros h p held I Hnd; cbn [fold_left map] in *.
  { split; [done|]. split; [done|]. intros r l Hr. by apply not_elem_of_nil in Hr. }
  apply NoDup_cons in Hnd as [Hn Hnd].
  pose proof (deliver_inv r0 h p held I) as I'.
  destruct (deliver r0 (h, p)) as [h1 p1] eqn:E1. cbn [fst snd] in I'.
  destruct (IH h1 p1 held I' Hnd) as (Hk & Ho & Hd). split; [|split].
  - intros l t x El Hx. apply (Hk l t x); [|done].
    pose proof (deliver_keeps r0 h p held l t x I El Hx) as E. by rewrite E1 in E.
  - intros id Hid. rewrite Ho by set_solver.
    pose proof (deliver_pool r0 (h, p) id ltac:(set_solver)) as E. by rewrite E1 in E.
  - intros r l Hr El. apply elem_of_cons in Hr as [->|Hr].
    + rewrite (deliver_known _ _ _ l) in E1 by done. injection E1 as <- <-.
      split; [rewrite Ho by done; apply lookup_delete_eq|].
      destruct (inv_pool _ _ _ I _ _ El) as (_ & t & Et & _ & Hnone).
      exists (Complete t (inl r0)). assert (ResponseCh (Complete t (inl r0)) = Some r0) as Hc
        by (simpl; by rewrite Hnone). split; [|done].
      apply (Hk l _ r0); [|done]. unfold complete_at. by rewrite lookup_alter_eq, Et.
    + apply Hd; [done|]. pose proof (deliver_pool r0 (h, p) (TransactionID (resp_MBAP r))) as E.
      rewrite E1 in E. cbn [snd] in E. rewrite E; [done|]. intros Heq. apply Hn.
      rewrite <-Heq. by apply (list_elem_of_fmap_2 (fun r => TransactionID (resp_MBAP r))).
Qed.

(** ** Properties *)

(** Responses reach their own requests in whatever order the server sends
    them.  Read from the connection, each of a sequence of response frames with
    distinct identifiers is put into the channel of the request in flight with
    that identifier and the request leaves the pool; responses to unknown
    identifiers change nothing; the loop reads the whole stream and ends with
    the peer's close. *)
Theorem responses_routed timeout h p held rs :
  rtc pool_step (∅, NewTransactionPool timeout, ∅) (h, p, held) ->
  Forall server_response rs -> NoDup (map (fun r => TransactionID (resp_MBAP r)) rs) ->
  exists h' p',
    readLoop (S (length (wire_responses rs))) (arrive (wire_responses rs)) (h, p) =
      Some (Down (Wrapf "read error: %w" EOF), (h', p')) /\
    (forall r l, r ∈ rs -> transactions p !! TransactionID (resp_MBAP r) = Some l ->
       transactions p' !! TransactionID (resp_MBAP r) = None /\
       exists t, h' !! l = Some t /\ ResponseCh t = Some r) /\
    (forall id, id ∉ map (fun r => TransactionID (resp_MBAP r)) rs ->
       transactions p' !! id = transactions p !! id).
Proof.
  intros I%pool_steps_inv Hrs Hnd; [|apply new_pool_inv].
  destruct (deliveries rs h p held I Hnd) as (_ & Ho & Hd).
  destruct (fold_left (fun st r => deliver r st) rs (h, p)) as [h' p'] eqn:E.
  exists h', p'. split; [|by split]. rewrite readLoop_deliver by (done || lia). by rewrite E.
Qed.

(** A frame with a bad protocol identifier fails its own transaction and
    tears the connection down at once: the loop never parses the frame's body. *)
Theorem bad_protocol_tears_down m pdu evs fuel h p :
  mbap_ok m -> pdu_ok pdu -> frame_fits pdu -> ProtocolID m <> TCPProtocolIdentifier ->
  readLoop (S fuel) (arrive (adu m pdu) ++ evs) (h, p) =
    Some (Down ErrInvalidProtocolHeader,
          processError (TransactionID m) ErrInvalidProtocolHeader (h, p)).
Proof.
  intros Hm Hpdu Hf Hpid. rewrite adu_split by done. unfold frame_fits in Hf.
  pose proof (len_nonneg (Data pdu)). destruct Hm as (Ht & Hp & Hu).
  rewrite arrive_app, <-app_assoc. cbn [readLoop]. unfold read_once.
  rewrite conn_read_full_arrive by done.
  destruct (header_fields (TransactionID m) (ProtocolID m) (2 + len (Data pdu)) (UnitID m))
    as (-> & -> & -> & ->); [done|done|unfold is_u16; lia|].
  by destruct (Z.eqb_spec (ProtocolID m) TCPProtocolIdentifier).
Qed.

(** A read deadline that passes after a response's header has arrived drops
    the header and resumes at the body: the rest of the response is parsed as the
    next header, and the request stays in flight until it times out. *)
Theorem deadline_desync r k evs fuel st :
  server_response r -> (k < S (length (Data (resp_PDU r))))%nat ->
  let frame := adu (resp_MBAP r) (resp_PDU r) in
  readLoop (S fuel) (arrive (take (7 + k) frame) ++ Deadline :: arrive (drop (7 + k) frame) ++ evs) st
  = readLoop fuel (arrive (drop (7 + k) frame) ++ evs) st.
Proof.
  intros ([Hm Hp] & Hpid & Hf) Hk frame. unfold frame. rewrite adu_split by done.
  set (body := FunctionCode (resp_PDU r) :: Data (resp_PDU r)).
  set (hd := be16 _ ++ _). assert (length hd = 7%nat) as Hhd by done.
  pose proof Hf as Hf'. unfold frame_fits in Hf'. pose proof (len_nonneg (Data (resp_PDU r))).
  rewrite <-Hhd, take_app_add, drop_app_add, arrive_app, <-app_assoc.
  destruct Hm as (Ht & Hpr & Hu).
  cbn [readLoop]. unfold read_once. rewrite conn_read_full_arrive by done.
  destruct (header_fields (TransactionID (resp_MBAP r)) (ProtocolID (resp_MBAP r))
    (2 + len (Data (resp_PDU r))) (UnitID (resp_MBAP r))) as (E1 & E2 & E3 & E4);
    [done|done|unfold is_u16; lia|]. fold hd in E1, E2, E3, E4. rewrite E1, E2, E3, E4, Hpid.
  cbn [negb Z.eqb TCPProtocolIdentifier].
  destruct (Z.leb_spec (2 + len (Data (resp_PDU r)) - 1) 0); [lia|].
  rewrite conn_read_deadline; [done|]. rewrite length_take. unfold body, len. simpl. lia.
Qed.

Lemma responses_routed_witness :
  exists h' p', readLoop 12 (arrive [0; 0; 0; 0; 0; 5; 1; 3; 2; 0; 7]) in_flight.1 =
      Some (Down (Wrapf "read error: %w" EOF), (h', p')) /\
    exists t, h' !! 1%positive = Some t /\ ResponseCh t = Some ex_response.
Proof.
  destruct (responses_routed None in_flight.1.1 in_flight.1.2 ∅ [ex_response])
    as (h' & p' & E & Hr & _).
  - apply in_flight_reachable.
  - decided.
  - decided.
  - exists h', p'. split; [exact E|].
    apply (Hr ex_response 1%positive); [by left|reflexivity].
Defined.

Lemma bad_protocol_tears_down_witness :
  readLoop 1 (arrive (adu (mkMBAP 0 1 1) (mkPDU 3 [2; 0; 7])) ++ []) in_flight.1 =
    Some (Down ErrInvalidProtocolHeader, processError 0 ErrInvalidProtocolHeader in_flight.1).
Proof.
  apply (bad_protocol_tears_down (mkMBAP 0 1 1) (mkPDU 3 [2; 0; 7]) [] 0 in_flight.1.1
    in_flight.1.2).
  - by repeat split.
  - split; [decided|decided].
  - decided.
  - done.
Defined.

(** The body of the response to request 0 arrives after the deadline: the loop
    takes it for a header and the request stays unanswered. *)
Lemma deadline_desync_witness :
  readLoop 3 (arrive [0; 0; 0; 0; 0; 5; 1] ++ Deadline :: arrive [3; 2; 0; 7] ++ []) in_flight.1 =
    readLoop 2 (arrive [3; 2; 0; 7] ++ []) in_flight.1.
Proof.
  apply (deadline_desync ex_response 0 [] 2 in_flight.1); [decided|simpl; lia].
Defined.
End ReadLoop.

(** * The connection object *)
Module Conn.

(** A [net.Conn]: the one dialled by a generation, or the one given by [WithConn]. *)
Inductive net_conn : Type := Dialed (g : Z) | Injected.
#[export] Instance net_conn_EqDecision : EqDecision net_conn.
Proof. solve_decision. Defined.

(** [TCPConn]: whether a connection was injected, whether [closeOnce] has fired and
    the current done channel is closed.  [opened] and [closed_socks] record every
    connection taken into use and every [conn.Close]. *)
Record TCPConn : Type := mkConn {
  injectedConn : bool;
  connected : bool;
  gen : Z;
  once_fired : bool;
  done_chan_closed : bool;
  transactionPool : TransactionPool;
  socket : option net_conn;
  writeChan : list loc;
  opened : list net_conn;
  closed_socks : list net_conn }.

(** [NewTCPConn], with or without [WithConn]. *)
Definition NewTCPConn (injected : bool) : TCPConn :=
  mkConn injected false 0 false false (NewTransactionPool None) None [] [] [].

Definition state : Type := (heap * TCPConn)%type.

(** [unsafeTeardown]: closing a closed channel panics. *)
Definition unsafeTeardown (st : state) : outcome state :=
  let '(h, c) := st in
  if once_fired c then Ok (h, c) else
  if done_chan_closed c then Panic else
  let '(h, pool) := pool_Close (h, transactionPool c) in
  Ok (h, mkConn (injectedConn c) (connected c) (gen c) true true pool (socket c) (writeChan c) (opened c)
       (match socket c with Some s => s :: closed_socks c | None => closed_socks c end)).

Definition set_connected (c : TCPConn) (b : bool) : TCPConn :=
  mkConn (injectedConn c) b (gen c) (once_fired c) (done_chan_closed c) (transactionPool c) (socket c)
    (writeChan c) (opened c) (closed_socks c).

(** [connect]; [dial] is the outcome of [DialContext], if it is called. *)
Definition connect (dial : option error) (st : state) : outcome (option error * state) :=
  let '(h, c) := st in
  if connected c then Ok (Some ErrAlreadyConnected, (h, c)) else
  let '(h, pool) :=
    if done_closed (transactionPool c) then (h, NewTransactionPool None)
    else unsafeReset (h, transactionPool c) in
  let g := u64 (gen c + 1) in
  let up conn :=
    Ok (None, (h, mkConn (injectedConn c) true g false false pool (Some conn) [] (conn :: opened c)
      (closed_socks c))) in
  if injectedConn c then up Injected else
  match dial with
  | Some err =>
      let '(h, pool) := pool_Close (h, pool) in
      Ok (Some err, (h, mkConn (injectedConn c) (connected c) (gen c) (once_fired c) (done_chan_closed c) pool
        (socket c) (writeChan c) (opened c) (closed_socks c)))
  | None => up (Dialed g)
  end.

Definition Disconnect (st : state) : outcome state :=
  let '(h, c) := st in unsafeTeardown (h, set_connected c false).

(** [setDisconnected], called by a loop of generation [g]. *)
Definition setDisconnected (g : Z) (st : state) : outcome state :=
  let '(h, c) := st in
  if negb (g =? gen c) then Ok (h, c) else unsafeTeardown (h, set_connected c false).

(** [ResetTransactions] *)
Definition ResetTransactions (st : state) : state :=
  let '(h, c) := st in
  let '(h, pool) := unsafeReset (h, transactionPool c) in
  (h, mkConn (injectedConn c) (connected c) (gen c) (once_fired c) (done_chan_closed c) pool (socket c)
        (writeChan c) (opened c) (closed_socks c)).

(** The first half of [Send]: refuse when not connected, place the transaction
    and queue it, or give up because the context is done while the queue is full
    ([room = false]). *)
Definition send_queue (now : Z) (request : Request) (room : bool) (st : state)
  : outcome (loc * Request) * state :=
  let '(h, c) := st in
  if negb (connected c) then (Err ErrNotConnected, (h, c)) else
  match Place now request (h, transactionPool c) with
  | (Ok (l, request), (h, pool)) =>
      if room
      then (Ok (l, request), (h, mkConn (injectedConn c) (connected c) (gen c) (once_fired c)
             (done_chan_closed c) pool (socket c) (writeChan c ++ [l]) (opened c)
             (closed_socks c)))
      else
        let '(_, (h, pool)) := Release (GetTransactionID request) (h, pool) in
        (Err CtxDone, (h, mkConn (injectedConn c) (connected c) (gen c) (once_fired c) (done_chan_closed c) pool
          (socket c) (writeChan c) (opened c) (closed_socks c)))
  | (Err err, (h, pool)) =>
      (Err (Wrapf "failed to create transaction: %w" err),
       (h, mkConn (injectedConn c) (connected c) (gen c) (once_fired c) (done_chan_closed c) pool (socket c)
             (writeChan c) (opened c) (closed_socks c)))
  | (Panic, (h, pool)) => (Panic, (h, c))
  end.

(** Calls on the connection, in the order the mutex serialises them; a loop of
    any generation may call [setDisconnected] at any time. *)
Inductive call : Type :=
| CConnect (dial : option error)
| CDisconnect
| CSetDisconnected (g : Z)
| CReset
| CSend (now : Z) (request : Request) (room : bool).

Definition step (st : state) (e : call) : outcome state :=
  match e with
  | CConnect dial => '(_, st) ← connect dial st; Ok st
  | CDisconnect => Disconnect st
  | CSetDisconnected g => setDisconnected g st
  | CReset => Ok (ResetTransactions st)
  | CSend now request room =>
      match send_queue now request room st with (Panic, _) => Panic | (_, st) => Ok st end
  end.

Fixpoint run (st : state) (es : list call) : outcome state :=
  match es with
  | [] => Ok st
  | e :: es => st ← step st e; run st es
  end.

(** ** Lemmas *)
Definition max_generations : Z := 18446744073709551616.

(** The connection a generation uses. *)
Definition conn_of (injected : bool) (g : Z) : net_conn := if injected then Injected else Dialed g.

(** The invariant, with the generations that took a connection into use ([og]) and
    those whose connection was closed ([cg]): generations are numbered in order,
    and all but the current one have closed theirs, once. *)
Record ginv (c : TCPConn) (og cg : list Z) : Prop := {
  inv_gen : gen c = len og;
  inv_opened : og = reverse (map Z.of_nat (seq 1 (length og)));
  inv_closed_dup : NoDup cg;
  inv_closed_sub : forall g, g ∈ cg <-> g ∈ og /\ (g = gen c -> once_fired c = true);
  inv_opened_conns : opened c = map (conn_of (injectedConn c)) og;
  inv_closed_conns : closed_socks c = map (conn_of (injectedConn c)) cg;
  inv_socket : socket c = if decide (gen c = 0) then None else Some (conn_of (injectedConn c) (gen c));
  inv_done : done_chan_closed c = once_fired c;
  inv_connected : connected c = true -> once_fired c = false /\ 0 < gen c;
  inv_disconnected : connected c = false -> once_fired c = false -> gen c = 0 }.
Definition inv (c : TCPConn) : Prop := exists og cg, ginv c og cg.

Lemma opened_range c og cg g : ginv c og cg -> g ∈ og <-> 1 <= g <= gen c.
Proof.
  intros I. rewrite (inv_gen _ _ _ I), (inv_opened _ _ _ I) at 1. rewrite elem_of_reverse.
  unfold len. rewrite list_elem_of_fmap. split.
  - intros (k & -> & Hk%elem_of_seq). lia.
  - intros Hg. exists (Z.to_nat g). split; [lia|]. apply elem_of_seq. lia.
Qed.
Lemma opened_length c : inv c -> len (opened c) = gen c.
Proof. intros (og & cg & I). rewrite (inv_opened_conns _ _ _ I), (inv_gen _ _ _ I). unfold len. by rewrite length_map. Qed.

(** The invariant does not depend on the pool and the write queue. *)
Lemma inv_pool_irrelevant c pool q :
  inv c -> inv (mkConn (injectedConn c) (connected c) (gen c) (once_fired c) (done_chan_closed c) pool
    (socket c) q (opened c) (closed_socks c)).
Proof. intros (og & cg & I). exists og, cg. split; apply I. Qed.

Lemma teardown_inv h c :
  inv c -> exists h' c', unsafeTeardown (h, set_connected c false) = Ok (h', c') /\ inv c' /\
    opened c' = opened c /\ connected c' = false /\ once_fired c' = true /\ injectedConn c' = injectedConn c.
Proof.
  intros (og & cg & I). unfold unsafeTeardown, set_connected. cbn -[pool_Close].
  destruct (once_fired c) eqn:Eo.
  - eexists _, _. split; [reflexivity|]. split; [|done]. exists og, cg. pose proof I as []. rewrite Eo in *. by split.
  - rewrite (inv_done _ _ _ I), Eo. destruct (pool_Close _) as [h' pool].
    eexists _, _. split; [reflexivity|]. split; [|done].
    exists og, (if decide (gen c = 0) then cg else gen c :: cg). pose proof I as []. cbn.
    assert (gen c ∉ cg) as Hn.
    { rewrite inv_closed_sub0, Eo. intros [_ H]. by specialize (H eq_refl). }
    rewrite inv_socket0. split; cbn; try done; case_decide as Hg; try done.
    + by constructor.
    + intros g. rewrite inv_closed_sub0, Eo. split; intros [Hs Hx]; (split; [done|]); [done|].
      apply (opened_range c og cg g I) in Hs. lia.
    + intros g. rewrite elem_of_cons, inv_closed_sub0, Eo. split.
      * intros [->|[Hs _]]; [|done]. split; [|done]. apply (opened_range c og cg); [done|].
        pose proof (len_nonneg og). lia.
      * intros [Hs _]. destruct (decide (g = gen c)); [by left|right]. by split.
    + cbn. by rewrite inv_closed_conns0.
Qed.

Lemma connect_inv dial h c :
  inv c -> len (opened c) + 1 < max_generations ->
  exists r h' c', connect dial (h, c) = Ok (r, (h', c')) /\ inv c' /\
    len (opened c) <= len (opened c') <= len (opened c) + 1 /\ injectedConn c' = injectedConn c.
Proof.
  intros I Hmax. unfold connect. destruct (connected c) eqn:Ec.
  { eexists _, h, c. split; [reflexivity|]. split; [done|]. split; [lia|done]. }
  destruct (if done_closed (transactionPool c) then _ else _) as [h1 pool1].
  rewrite (opened_length c I) in *. pose proof (opened_length c I) as Hl.
  assert (u64 (gen c + 1) = gen c + 1) as Hg.
  { unfold u64, max_generations in *. pose proof (len_nonneg (opened c)). rewrite Z.mod_small; lia. }
  cbv zeta. rewrite Hg.
  assert (inv (mkConn (injectedConn c) true (gen c + 1) false false pool1 (Some (conn_of (injectedConn c) (gen c + 1))) []
    (conn_of (injectedConn c) (gen c + 1) :: opened c) (closed_socks c))) as Hup.
  { destruct I as (og & cg & I). exists (gen c + 1 :: og), cg. pose proof I as [].
    pose proof (len_nonneg og). split; cbn -[seq]; try done.
    - rewrite len_cons. lia.
    - rewrite seq_S, map_app, reverse_app. cbn [map reverse app]. rewrite <-inv_opened0.
      cbn. f_equal. unfold len in *. lia.
    - intros g. rewrite inv_closed_sub0, elem_of_cons, (opened_range c og cg) by done. split.
      + intros [Hs _]. split; [by right|]. lia.
      + intros [[->|Hs] Hx]; [by specialize (Hx eq_refl)|]. split; [done|]. intros ->.
        destruct (once_fired c) eqn:Eo; [done|]. specialize (inv_disconnected0 Ec eq_refl). lia.
    - by rewrite inv_opened_conns0.
    - rewrite decide_False by lia. done.
    - intros _. split; [done|]. lia. }
  destruct (injectedConn c) eqn:Ei; [|destruct dial as [err|]].
  - eexists _, h1, _. split; [reflexivity|]. split; [exact Hup|]. cbn. rewrite len_cons. split; [lia|done].
  - destruct (pool_Close _) as [h2 pool2]. eexists _, h2, _. split; [reflexivity|].
    pose proof (inv_pool_irrelevant c pool2 (writeChan c) I) as Hi. rewrite Ei, Ec in Hi.
    split; [exact Hi|]. cbn. split; [lia|done].
  - eexists _, h1, _. split; [reflexivity|]. split; [exact Hup|]. cbn. rewrite len_cons. split; [lia|done].
Qed.

Lemma step_inv e h c :
  inv c -> len (opened c) + 1 < max_generations ->
  exists h' c', step (h, c) e = Ok (h', c') /\ inv c' /\ len (opened c') <= len (opened c) + 1 /\
    injectedConn c' = injectedConn c.
Proof.
  intros I Hmax. destruct e as [dial| |g| |now request room]; cbn [step].
  - destruct (connect_inv dial h c I Hmax) as (r & h' & c' & -> & I' & Hl & Hi).
    eexists h', c'. split; [reflexivity|]. split; [done|]. split; [lia|done].
  - destruct (teardown_inv h c I) as (h' & c' & E & I' & Ho & _ & _ & Hi). exists h', c'.
    split; [exact E|]. split; [done|]. rewrite Ho. split; [lia|done].
  - unfold setDisconnected. destruct (negb _); [exists h, c; split_and!; [done|done|lia|done]|].
    destruct (teardown_inv h c I) as (h' & c' & E & I' & Ho & _ & _ & Hi). exists h', c'.
    split; [exact E|]. split; [done|]. rewrite Ho. split; [lia|done].
  - unfold ResetTransactions. destruct (unsafeReset _) as [h' pool]. eexists h', _.
    split; [reflexivity|]. split; [by apply inv_pool_irrelevant|]. cbn. split; [lia|done].
  - unfold send_queue. destruct (negb _); [exists h, c; split_and!; [done|done|lia|done]|].
    pose proof (Place_no_panic now request (h, transactionPool c)) as Hnp.
    destruct (Place _ _ _) as [[[l req']|err|] [h' pool]]; [| |done].
    + destruct room.
      * eexists h', _. split; [reflexivity|]. split; [by apply inv_pool_irrelevant|]. cbn. split; [lia|done].
      * destruct (Release _ _) as [o [h2 pool2]]. eexists h2, _. split; [reflexivity|].
        split; [by apply inv_pool_irrelevant|]. cbn. split; [lia|done].
    + eexists h', _. split; [reflexivity|]. split; [by apply inv_pool_irrelevant|]. cbn. split; [lia|done].
Qed.

Lemma new_inv injected : inv (NewTCPConn injected).
Proof.
  exists [], []. split; cbn; try done; [constructor|]. intros s. split; [intros Hs; by apply not_elem_of_nil in Hs|].
  intros [Hs _]. by apply not_elem_of_nil in Hs.
Qed.

Lemma run_inv es : forall h c,
  inv c -> len (opened c) + len es < max_generations ->
  exists h' c', run (h, c) es = Ok (h', c') /\ inv c' /\ injectedConn c' = injectedConn c.
Proof.
  induction es as [|e es IH]; intros h c I Hmax; [by exists h, c|]. rewrite len_cons in Hmax.
  pose proof (len_nonneg es).
  destruct (step_inv e h c I) as (h1 & c1 & E & I1 & Hl & Hi); [lia|].
  destruct (IH h1 c1 I1) as (h' & c' & E' & I' & Hi'); [lia|].
  exists h', c'. split; [|split; [done|congruence]]. cbn [run]. rewrite E. exact E'.
Qed.

Lemma gens_NoDup c og cg : ginv c og cg -> NoDup og.
Proof.
  intros I. rewrite (inv_opened _ _ _ I), reverse_Permutation. apply (NoDup_fmap_2 Z.of_nat), NoDup_seq.
Qed.
(** All generations but a live one have closed their connection. *)
Lemma closed_gens c og cg : ginv c og cg ->
  og ≡ₚ if connected c then gen c :: cg else cg.
Proof.
  intros I. pose proof (gens_NoDup _ _ _ I) as Hd. pose proof I as [].
  destruct (connected c) eqn:Ec.
  - destruct (inv_connected0 eq_refl) as [Eo Hg]. rewrite Eo in *. apply NoDup_Permutation; [done| |].
    + constructor; [|done]. rewrite inv_closed_sub0. intros [_ H]. by specialize (H eq_refl).
    + intros g. rewrite elem_of_cons, inv_closed_sub0. split.
      * intros Hs. destruct (decide (g = gen c)); [by left|right]. by split.
      * intros [->|[Hs _]]; [|done]. apply (opened_range c og cg); [done|lia].
  - apply NoDup_Permutation; [done|done|]. intros g. rewrite inv_closed_sub0. split; [|by intros []].
    intros Hs. split; [done|]. intros ->. destruct (once_fired c) eqn:Eo; [done|].
    specialize (inv_disconnected0 eq_refl eq_refl). apply (opened_range c og cg) in Hs; [lia|done].
Qed.
Lemma map_const {A B} (b : B) (xs : list A) : map (fun _ => b) xs = replicate (length xs) b.
Proof. induction xs as [|x xs IH]; cbn; congruence. Qed.

(** C19: Socket lifecycle.  After any sequence of connects (succeeding or
    failing), disconnects, sends, resets and teardowns requested by the loops of
    any generation, no channel is closed twice, and an up connection's done channel
    is open.  A connection that dials opens a new socket for every generation, and
    has closed each exactly once, except the one of the current generation while it
    is up.  A connection given by [WithConn] is used again by every generation: it
    has been closed once for each of them, the live one excepted. *)
Theorem socket_lifecycle injected h es :
  len es < max_generations ->
  exists h' c', run (h, NewTCPConn injected) es = Ok (h', c') /\
    (connected c' = true -> socket c' = Some (conn_of injected (gen c')) /\ done_chan_closed c' = false) /\
    let sockets := if connected c' then conn_of injected (gen c') :: closed_socks c' else closed_socks c' in
    opened c' ≡ₚ sockets /\
    if injected then opened c' = replicate (Z.to_nat (gen c')) Injected
    else NoDup sockets /\ opened c' = reverse (map (fun g => Dialed (Z.of_nat g)) (seq 1 (Z.to_nat (gen c')))).
Proof.
  intros Hmax. destruct (run_inv es h (NewTCPConn injected) (new_inv injected)) as (h' & c' & E & (og & cg & I) & Hi); [done|].
  cbn in Hi. exists h', c'. split; [exact E|]. pose proof (closed_gens c' og cg I) as Hp.
  pose proof (opened_range c' og cg) as Hr. pose proof I as []. rewrite Hi in *. split.
  { intros Ec. destruct (inv_connected0 Ec) as [Eo Hg]. rewrite inv_socket0, inv_done0, Eo, decide_False by lia. done. }
  cbv zeta. assert (opened c' ≡ₚ if connected c' then conn_of injected (gen c') :: closed_socks c' else closed_socks c') as Hp'.
  { rewrite inv_opened_conns0, inv_closed_conns0.
    destruct (connected c'); [change (conn_of injected (gen c') :: map (conn_of injected) cg)
      with (map (conn_of injected) (gen c' :: cg))|]; by apply Permutation_map. }
  split; [exact Hp'|]. destruct injected; rewrite inv_opened_conns0 in *.
  - change (conn_of true) with (fun _ : Z => Injected). rewrite map_const. f_equal. rewrite inv_gen0. unfold len. lia.
  - split; [rewrite <-Hp'; apply (NoDup_fmap_2_strong Dialed); [by intros ? ? _ _ [=]|by eapply gens_NoDup]|].
    rewrite inv_opened0, inv_gen0. unfold len. rewrite Nat2Z.id. change (map ?f ?l) with (f <$> l).
    by rewrite fmap_reverse, <-list_fmap_compose.
Qed.

(** Connect, a stale loop of generation 0, the read loop's teardown, a user's
    disconnect, reconnect, and a late teardown request of generation 1. *)
Definition reconnecting : list call :=
  [CConnect None; CSetDisconnected 0; CSetDisconnected 1; CDisconnect; CConnect None; CSetDisconnected 1].
Lemma socket_lifecycle_witness :
  (exists h' c', run (∅, NewTCPConn false) reconnecting = Ok (h', c') /\
     opened c' ≡ₚ Dialed 2 :: closed_socks c' /\ NoDup (Dialed 2 :: closed_socks c')) /\
  exists h' c', run (∅, NewTCPConn true) (reconnecting ++ [CSetDisconnected 2]) = Ok (h', c') /\
    closed_socks c' ≡ₚ [Injected; Injected].
Proof.
  split.
  - destruct (socket_lifecycle false ∅ reconnecting) as (h' & c' & E & _ & Hp & Hn & _); [decided|].
    vm_compute in E. injection E as <- <-. eexists _, _. split; [vm_compute; reflexivity|]. by split.
  - destruct (socket_lifecycle true ∅ (reconnecting ++ [CSetDisconnected 2])) as (h' & c' & E & _ & Hp & Ho); [decided|].
    vm_compute in E. injection E as <- <-. eexists _, _. split; [vm_compute; reflexivity|].
    symmetry. exact Hp.
Defined.
End Conn.

(** * The write goroutine *)
Module WriteLoop.

(** How one iteration ends: another round, return because the generation is
    done, or teardown after a failed write. *)
Inductive verdict : Type := Again | Finished | Down (err : error).

(** One iteration for the dequeued transaction at [l].  [done1] and [done2] say
    whether the done channel is closed at the two checks, [werr] is the outcome
    of [writer.Write] and [done3] the check after a failed write.  The result
    has the bytes handed to the writer, if any. *)
Definition write_once (l : loc) (done1 done2 done3 : bool) (werr : option error) (h : heap)
  : outcome (verdict * option bytes * heap) :=
  match h !! l with
  | None => Panic
  | Some tx =>
      if tx_cancelled tx then Ok (Again, None, h) else
      if done1 then Ok (Finished, None, complete_at l (inr ErrTransportClosing) h) else
      match Request_Encode (tx_Request tx) with
      | Panic => Panic
      | Err err => Ok (Again, None, complete_at l (inr err) h)
      | Ok data =>
          if done2 then Ok (Finished, None, complete_at l (inr ErrTransportClosing) h) else
          match werr with
          | None => Ok (Again, Some data, h)
          | Some err =>
              if done3
              then Ok (Finished, Some data, complete_at l (inr ErrTransportClosing) h)
              else Ok (Down (Wrapf "write error: %w" err), Some data, complete_at l (inr err) h)
          end
      end
  end.

(** What the write loop puts on the wire for a request in flight is that
    request: any server decodes the written bytes to the request's unit, function
    and payload and to the very identifier under which the pool awaits the
    response; a transaction that is already cancelled is not written. *)
Theorem written_request timeout h p held id l tx d1 d2 d3 werr v data h' r0 rest :
  rtc pool_step (∅, NewTransactionPool timeout, ∅) (h, p, held) ->
  transactions p !! id = Some l -> h !! l = Some tx ->
  request_ok (tx_Request tx) -> frame_fits (req_PDU (tx_Request tx)) ->
  write_once l d1 d2 d3 werr h = Ok (v, Some data, h') ->
  tx_cancelled tx = false /\
  exists r, Request_Decode r0 (data ++ rest) = Ok r /\ GetTransactionID r = id /\
    req_PDU r = req_PDU (tx_Request tx) /\ GetUnitID r = GetUnitID (tx_Request tx).
Proof.
  intros I%pool_steps_inv Hid Hl [Hm Hp] Hf E; [|apply new_pool_inv].
  change (pool_inv h p held) in I.
  unfold write_once in E. rewrite Hl, Request_Encode_adu in E.
  destruct (tx_cancelled tx) eqn:Ec; [done|]. split; [done|].
  assert (data = adu (req_MBAP (tx_Request tx)) (req_PDU (tx_Request tx))) as ->
    by (destruct d1, d2, werr, d3; by simplify_eq).
  eexists. split; [by apply Request_Decode_adu|]. cbn. repeat split.
  destruct (inv_pool _ _ _ I id l Hid) as (_ & t & Et & Hti & _).
  rewrite Hl in Et. injection Et as <-. exact Hti.
Qed.

Lemma written_request_witness :
  exists r, Request_Decode ex_request [0; 0; 0; 0; 0; 6; 1; 3; 0; 0; 0; 1] = Ok r /\
    GetTransactionID r = 0.
Proof.
  destruct (written_request None in_flight.1.1 in_flight.1.2 ∅ 0 1%positive
    (NewTransaction 10 (SetTransactionID ex_request 0)) false false false None Again
    [0; 0; 0; 0; 0; 6; 1; 3; 0; 0; 0; 1] in_flight.1.1 ex_request []) as (_ & r & E & Hr & _).
  - apply in_flight_reachable.
  - reflexivity.
  - reflexivity.
  - decided.
  - decided.
  - vm_compute. reflexivity.
  - exists r. split; [exact E|exact Hr].
Defined.
End WriteLoop.
