(* ===== verification/ModbusSend.v ===== *)
(** * Concurrent [Send] calls on one Modbus client connection

    Models [TCPConn.Send] of [protocol/modbus/conn.go] as a whole, with the
    goroutines it meets: any number of concurrent calls, the write loop, the read
    loop, the pool's timeout monitor, [ResetTransactions] and the teardown of the
    connection.  [gstate] is the state one connection generation shares between
    them (the pool and its transactions, the done channel, the write channel of
    capacity 100) together with the program counter of every goroutine.  [gstep]
    runs one atomic action of one goroutine and is a function: [None] means that
    the goroutine is blocked there.  A [select] is one label per ready case. *)
From S2P Require Import Prelude Bytes ModbusTypes ModbusFrame ModbusTransaction.

(** Where a call of [Send] is: before [pool.Place], at the first [select] (with
    its transaction and identifier), at the second, or returned; a returned call
    keeps the transaction it had, if it got that far. *)
Inductive send_pc : Type :=
| AtPlace (request : Request)
| AtQueue (l : loc) (id : Z)
| AtWait (l : loc) (id : Z)
| Returned (own : option (loc * Z)) (res : Response + error).

(** A call of [Send]; [s_ctx]: its context is done. *)
Record send : Type := mkSend { s_pc : send_pc; s_ctx : bool }.

(** The write loop: at its outer [select], with a dequeued transaction at the
    first inner [select], before the second, before the [Write], or gone. *)
Inductive writer_pc : Type :=
| WIdle | WGot (l : loc) | WReady (l : loc) | WWrite (l : loc) | WExited.

(** The read loop: reading, or between [pool.Release] and [tx.Complete]
    ([last]: it returns after that), or gone. *)
Inductive reader_pc : Type :=
| RIdle | RHolds (l : loc) (id : Z) (res : Response + error) (last : bool) | RExited.

(** [g_stolen] and [g_drawn] are history only, no step reads them: the
    transactions that a [Send] other than their own took out of the pool, and the
    number of identifiers drawn from the counter. *)
Record gstate : Type := mkG {
  g_ps : pool_state;
  g_connected : bool;
  g_done : bool;
  g_queue : list loc;
  g_sends : list send;
  g_writer : writer_pc;
  g_reader : reader_pc;
  g_stolen : gset loc;
  g_drawn : Z }.

Definition with_ps (g : gstate) (ps : pool_state) : gstate :=
  mkG ps (g_connected g) (g_done g) (g_queue g) (g_sends g) (g_writer g) (g_reader g)
    (g_stolen g) (g_drawn g).
Definition with_sends (g : gstate) (ss : list send) : gstate :=
  mkG (g_ps g) (g_connected g) (g_done g) (g_queue g) ss (g_writer g) (g_reader g)
    (g_stolen g) (g_drawn g).
Definition with_queue (g : gstate) (q : list loc) : gstate :=
  mkG (g_ps g) (g_connected g) (g_done g) q (g_sends g) (g_writer g) (g_reader g)
    (g_stolen g) (g_drawn g).
Definition with_writer (g : gstate) (w : writer_pc) : gstate :=
  mkG (g_ps g) (g_connected g) (g_done g) (g_queue g) (g_sends g) w (g_reader g)
    (g_stolen g) (g_drawn g).
Definition with_reader (g : gstate) (r : reader_pc) : gstate :=
  mkG (g_ps g) (g_connected g) (g_done g) (g_queue g) (g_sends g) (g_writer g) r
    (g_stolen g) (g_drawn g).

(** The call [i] moves to [pc]. *)
Definition goto (g : gstate) (i : nat) (s : send) (pc : send_pc) : gstate :=
  with_sends g (<[i := mkSend pc (s_ctx s)]> (g_sends g)).

Definition writeChan_cap : nat := 100.

(** The context of a transaction is a child of its caller's. *)
Definition ctx_done (t : Transaction) : Transaction :=
  mkTx (tx_Request t) (ResponseCh t) (ErrCh t) true (createTime t).
(** Receiving from the one-element channels empties them. *)
Definition take_response (t : Transaction) : Transaction :=
  mkTx (tx_Request t) None (ErrCh t) (tx_cancelled t) (createTime t).
Definition take_error (t : Transaction) : Transaction :=
  mkTx (tx_Request t) (ResponseCh t) None (tx_cancelled t) (createTime t).

(** The cases of the two [select]s of [Send] and of the first of the write loop. *)
Inductive queue_case : Type := QSend | QCtx | QDone.
Inductive wait_case : Type := WaitResponse | WaitErr | WaitCtx.
Inductive check_case : Type := CheckCtx | CheckDone | CheckDefault.

(** ** [Send], step by step *)

(** The snapshot under the mutex and the [connected] test. *)
Definition send_call (request : Request) (g : gstate) : gstate :=
  with_sends g (g_sends g ++
    [mkSend (if g_connected g then AtPlace request else Returned None (inr ErrNotConnected))
       false]).

(** [pool.Place(ctx, request)] *)
Definition send_place (i : nat) (now : Z) (g : gstate) : option gstate :=
  match g_sends g !! i with
  | Some (mkSend (AtPlace request) ctx as s) =>
      match Place now request (g_ps g) with
      | (Ok (l, request), (h, p)) =>
          let h := if ctx then alter ctx_done l h else h in
          let g' := goto (with_ps g (h, p)) i s (AtQueue l (GetTransactionID request)) in
          Some (mkG (g_ps g') (g_connected g') (g_done g') (g_queue g') (g_sends g') (g_writer g')
                  (g_reader g') (g_stolen g')
                  (g_drawn g + u32 (nextID p - nextID (g_ps g).2)))
      | (Err err, (h, p)) =>
          let g' := goto (with_ps g (h, p)) i s
            (Returned None (inr (Wrapf "failed to create transaction: %w" err))) in
          Some (mkG (g_ps g') (g_connected g') (g_done g') (g_queue g') (g_sends g') (g_writer g')
                  (g_reader g') (g_stolen g')
                  (g_drawn g + u32 (nextID p - nextID (g_ps g).2)))
      | (Panic, _) => None
      end
  | _ => None
  end.

(** Giving up: [pool.Release(request.GetTransactionID())] and return. *)
Definition send_give_up (i : nat) (s : send) (l : loc) (id : Z) (err : error) (g : gstate)
  : gstate :=
  let '(r, ps) := Release id (g_ps g) in
  let g' := goto (with_ps g ps) i s (Returned (Some (l, id)) (inr err)) in
  mkG (g_ps g') (g_connected g') (g_done g') (g_queue g') (g_sends g') (g_writer g') (g_reader g')
    (match r with
     | Some l' => if bool_decide (l' = l) then g_stolen g else {[l']} ∪ g_stolen g
     | None => g_stolen g
     end) (g_drawn g').

(** The first [select]. *)
Definition send_select (i : nat) (c : queue_case) (g : gstate) : option gstate :=
  match g_sends g !! i with
  | Some (mkSend (AtQueue l id) ctx as s) =>
      match c with
      | QSend =>
          if (length (g_queue g) <? writeChan_cap)%nat
          then Some (goto (with_queue g (g_queue g ++ [l])) i s (AtWait l id)) else None
      | QCtx => if ctx then Some (send_give_up i s l id CtxDone g) else None
      | QDone => if g_done g then Some (send_give_up i s l id ErrTransportClosing g) else None
      end
  | _ => None
  end.

(** The second [select]. *)
Definition send_wait (i : nat) (c : wait_case) (g : gstate) : option gstate :=
  match g_sends g !! i with
  | Some (mkSend (AtWait l id) ctx as s) =>
      let '(h, p) := g_ps g in
      match h !! l with
      | None => None
      | Some t =>
          match c with
          | WaitResponse =>
              match ResponseCh t with
              | Some response =>
                  Some (goto (with_ps g (<[l := take_response t]> h, p)) i s
                          (Returned (Some (l, id)) (inl response)))
              | None => None
              end
          | WaitErr =>
              match ErrCh t with
              | Some err =>
                  Some (goto (with_ps g (<[l := take_error t]> h, p)) i s
                          (Returned (Some (l, id)) (inr err)))
              | None => None
              end
          | WaitCtx =>
              if ctx then Some (goto g i s (Returned (Some (l, id)) (inr CtxDone))) else None
          end
      end
  | _ => None
  end.

(** The caller's context is cancelled: its transaction's is, too. *)
Definition cancel_ctx (i : nat) (g : gstate) : option gstate :=
  match g_sends g !! i with
  | Some s =>
      let h := match s_pc s with
               | AtQueue l _ | AtWait l _ => alter ctx_done l (g_ps g).1
               | _ => (g_ps g).1
               end in
      Some (with_sends (with_ps g (h, (g_ps g).2)) (<[i := mkSend (s_pc s) true]> (g_sends g)))
  | None => None
  end.

(** ** The write loop *)
Definition complete_tx (l : loc) (res : Response + error) (g : gstate) : gstate :=
  with_ps g (complete_at l res (g_ps g).1, (g_ps g).2).

(** The outer [select]: [done] is closed, or the next transaction. *)
Definition write_exit (g : gstate) : option gstate :=
  match g_writer g with
  | WIdle => if g_done g then Some (with_writer g WExited) else None
  | _ => None
  end.
Definition write_take (g : gstate) : option gstate :=
  match g_writer g, g_queue g with
  | WIdle, l :: q => Some (with_writer (with_queue g q) (WGot l))
  | _, _ => None
  end.
(** Cancelled before writing, connection gone, or go on. *)
Definition write_check (c : check_case) (g : gstate) : option gstate :=
  match g_writer g with
  | WGot l =>
      match (g_ps g).1 !! l with
      | None => None
      | Some tx =>
          match c with
          | CheckCtx => if tx_cancelled tx then Some (with_writer g WIdle) else None
          | CheckDone =>
              if g_done g
              then Some (with_writer (complete_tx l (inr ErrTransportClosing) g) WExited)
              else None
          | CheckDefault =>
              if tx_cancelled tx || g_done g then None else Some (with_writer g (WReady l))
          end
      end
  | _ => None
  end.
(** Encoding, and the second look at [done]. *)
Definition write_encode (g : gstate) : option gstate :=
  match g_writer g with
  | WReady l =>
      match (g_ps g).1 !! l with
      | None => None
      | Some tx =>
          match Request_Encode (tx_Request tx) with
          | Panic => None
          | Err err => Some (with_writer (complete_tx l (inr err) g) WIdle)
          | Ok _ =>
              if g_done g
              then Some (with_writer (complete_tx l (inr ErrTransportClosing) g) WExited)
              else Some (with_writer g (WWrite l))
          end
      end
  | _ => None
  end.
(** [writer.Write(data)] returns; after a failure the loop ends (its deferred
    [setDisconnected] is the label of the teardown). *)
Definition write_return (werr : option error) (g : gstate) : option gstate :=
  match g_writer g with
  | WWrite l =>
      Some (match werr with
            | None => with_writer g WIdle
            | Some err =>
                with_writer (complete_tx l
                  (inr (if g_done g then ErrTransportClosing else err)) g) WExited
            end)
  | _ => None
  end.

(** ** The read loop *)

(** A response is built from the frame, with the frame's identifier. *)
Definition frame_of (id : Z) (res : Response + error) : bool :=
  match res with
  | inl response => TransactionID (resp_MBAP response) =? id
  | inr _ => true
  end.

(** A frame of the server has been read: [pool.Release]; [res] is what the
    transaction will be completed with (a response, or the error of
    [processError], after which the loop returns). *)
Definition read_release (id : Z) (res : Response + error) (g : gstate) : option gstate :=
  match g_reader g with
  | RIdle =>
      if negb (frame_of id res) then None else
      let last := match res with inl _ => false | inr _ => true end in
      Some (match Release id (g_ps g) with
            | (Some l, ps) => with_reader (with_ps g ps) (RHolds l id res last)
            | (None, _) => if last then with_reader g RExited else g
            end)
  | _ => None
  end.
(** [tx.Complete] *)
Definition read_complete (g : gstate) : option gstate :=
  match g_reader g with
  | RHolds l id res last =>
      Some (with_reader (complete_tx l res g) (if last then RExited else RIdle))
  | _ => None
  end.
(** A read error, or [done]. *)
Definition read_exit (g : gstate) : option gstate :=
  match g_reader g with RIdle => Some (with_reader g RExited) | _ => None end.

(** ** Teardown, timeouts, reset *)
Definition tear_done (g : gstate) : option gstate :=
  if g_done g then None else
  Some (mkG (g_ps g) false true (g_queue g) (g_sends g) (g_writer g) (g_reader g) (g_stolen g)
          (g_drawn g)).
Definition tear_pool (g : gstate) : option gstate :=
  if g_done g && negb (done_closed (g_ps g).2) then Some (with_ps g (pool_Close (g_ps g)))
  else None.

(** ** One step of the system *)
Inductive label : Type :=
| LCall (request : Request)
| LCancel (i : nat)
| LPlace (i : nat) (now : Z)
| LQueue (i : nat) (c : queue_case)
| LWait (i : nat) (c : wait_case)
| LWriteExit | LWriteTake | LWriteCheck (c : check_case) | LWriteEncode
| LWriteReturn (werr : option error)
| LRead (id : Z) (res : Response + error) | LReadComplete | LReadExit
| LTearDone | LTearPool
| LTick (now : Z) | LReset.

Definition gstep (a : label) (g : gstate) : option gstate :=
  match a with
  | LCall request => Some (send_call request g)
  | LCancel i => cancel_ctx i g
  | LPlace i now => send_place i now g
  | LQueue i c => send_select i c g
  | LWait i c => send_wait i c g
  | LWriteExit => write_exit g
  | LWriteTake => write_take g
  | LWriteCheck c => write_check c g
  | LWriteEncode => write_encode g
  | LWriteReturn werr => write_return werr g
  | LRead id res => read_release id res g
  | LReadComplete => read_complete g
  | LReadExit => read_exit g
  | LTearDone => tear_done g
  | LTearPool => tear_pool g
  | LTick now => Some (with_ps g (checkTimeouts now (g_ps g)))
  | LReset => Some (with_ps g (unsafeReset (g_ps g)))
  end.

(** What the goroutines of the connection do by themselves, as opposed to what
    callers, the server, the clock and whoever ends the connection do. *)
Definition internal (a : label) : bool :=
  match a with
  | LPlace _ _ | LQueue _ _ | LWait _ _ | LWriteExit | LWriteTake | LWriteCheck _
  | LWriteEncode | LWriteReturn _ | LReadComplete | LTearPool => true
  | _ => false
  end.

Fixpoint grun (g : gstate) (sched : list label) : option gstate :=
  match sched with
  | [] => Some g
  | a :: sched => gstep a g ≫= fun g => grun g sched
  end.

(** A generation just after [connect]. *)
Definition fresh_generation (timeout : option Z) : gstate :=
  mkG (∅, NewTransactionPool timeout) true false [] [] WIdle RIdle ∅ 0.

(** ** The invariant *)

(** The transaction of a call, and the one of a call that has not returned. *)
Definition owns (s : send) : option (loc * Z) :=
  match s_pc s with
  | AtPlace _ => None
  | AtQueue l id | AtWait l id => Some (l, id)
  | Returned own _ => own
  end.
Definition waiting (s : send) : option (loc * Z) :=
  match s_pc s with AtQueue l id | AtWait l id => Some (l, id) | _ => None end.

(** The transaction between the read loop's [Release] and [Complete]. *)
Definition held (g : gstate) : gmap loc Z :=
  match g_reader g with RHolds l id _ _ => {[l := id]} | _ => ∅ end.

Definition writer_loc (w : writer_pc) : list loc :=
  match w with WGot l | WReady l | WWrite l => [l] | _ => [] end.

Definition filled (h : heap) (l : loc) : Prop :=
  exists t, h !! l = Some t /\ (is_Some (ResponseCh t) \/ is_Some (ErrCh t)).

(** Somebody will fill a channel of the transaction, or has. *)
Definition tended (w : world) (l : loc) (id : Z) : Prop :=
  transactions w.1.2 !! id = Some l \/ filled w.1.1 l \/ w.2 !! l = Some id.

Definition gworld (g : gstate) : world := (g_ps g, held g).

Definition returned_ok (s : send) : Prop :=
  forall own r, s_pc s = Returned own (inl r) ->
  exists l id, own = Some (l, id) /\ TransactionID (resp_MBAP r) = id.

(** With at most 65536 identifiers drawn, they are all different. *)
Definition early (g : gstate) : Prop :=
  g_stolen g = ∅ /\ forall l t, (g_ps g).1 !! l = Some t ->
    0 <= txid t < g_drawn g /\
    forall l' t', (g_ps g).1 !! l' = Some t' -> txid t = txid t' -> l = l'.

Definition drawn_limit : Z := 65536.

Record ginv (g : gstate) : Prop := {
  gi_pool : world_inv (gworld g);
  gi_owner : forall i s l id, g_sends g !! i = Some s -> owns s = Some (l, id) ->
    txid <$> (g_ps g).1 !! l = Some id;
  gi_uniq : forall i j s s' l id id', g_sends g !! i = Some s -> g_sends g !! j = Some s' ->
    owns s = Some (l, id) -> owns s' = Some (l, id') -> i = j;
  gi_tended : forall i s l id, g_sends g !! i = Some s -> waiting s = Some (l, id) ->
    tended (gworld g) l id \/ l ∈ g_stolen g;
  gi_reader : forall l id r last, g_reader g = RHolds l id (inl r) last ->
    TransactionID (resp_MBAP r) = id;
  gi_returned : forall i s, g_sends g !! i = Some s -> returned_ok s;
  gi_queue : forall l, l ∈ g_queue g ++ writer_loc (g_writer g) -> is_Some ((g_ps g).1 !! l);
  gi_done : done_closed (g_ps g).2 = true -> g_done g = true;
  gi_drawn : 0 <= g_drawn g /\ nextID (g_ps g).2 = u32 (g_drawn g);
  gi_early : g_drawn g <= drawn_limit -> early g }.

Lemma waiting_owns s l id : waiting s = Some (l, id) -> owns s = Some (l, id).
Proof. destruct s as [[] ?]; done. Qed.

(** Two heaps with the same transactions. *)
Definition same_ids (h h' : heap) : Prop := forall l, txid <$> h' !! l = txid <$> h !! l.

Lemma same_ids_refl h : same_ids h h.
Proof. done. Qed.
Lemma same_ids_errs h h' : errs_only h h' -> same_ids h h'.
Proof.
  intros H l. specialize (H l). destruct (h !! l), (h' !! l); try done. simpl. by destruct H as [-> _].
Qed.
Lemma same_ids_alter (f : Transaction -> Transaction) l h :
  (forall t, tx_Request (f t) = tx_Request t) -> same_ids h (alter f l h).
Proof.
  intros Hf l'. destruct (decide (l = l')) as [<-|Hne].
  - rewrite lookup_alter_eq. destruct (h !! l) as [t|]; [|done]. simpl. unfold txid. by rewrite Hf.
  - by rewrite lookup_alter_ne.
Qed.
Lemma same_ids_insert t t' l h :
  h !! l = Some t -> tx_Request t' = tx_Request t -> same_ids h (<[l := t']> h).
Proof.
  intros E Ht l'. destruct (decide (l = l')) as [<-|Hne].
  - rewrite lookup_insert_eq, E. simpl. unfold txid. by rewrite Ht.
  - by rewrite lookup_insert_ne.
Qed.
Lemma same_ids_dom h h' l : same_ids h h' -> is_Some (h !! l) -> is_Some (h' !! l).
Proof. intros H [t E]. specialize (H l). rewrite E in H. by destruct (h' !! l); eauto. Qed.

Create HintDb send_db.
#[export] Hint Resolve same_ids_refl same_ids_errs complete_errs cancel_all_errs : send_db.

(** Everything but the successful [Place]: calls keep their transactions, the
    heap keeps its objects. *)
Lemma frame_inv g g' :
  ginv g -> world_inv (gworld g') -> same_ids (g_ps g).1 (g_ps g').1 ->
  g_drawn g <= g_drawn g' -> nextID (g_ps g').2 = u32 (g_drawn g') ->
  (forall i s', g_sends g' !! i = Some s' -> (owns s' = None /\ returned_ok s') \/
     exists s, g_sends g !! i = Some s /\ owns s' = owns s /\
       (waiting s' = None \/ waiting s' = waiting s) /\ returned_ok s') ->
  (forall i s' l id, g_sends g' !! i = Some s' -> waiting s' = Some (l, id) ->
     tended (gworld g) l id -> tended (gworld g') l id \/ l ∈ g_stolen g') ->
  (forall l id r last, g_reader g' = RHolds l id (inl r) last -> TransactionID (resp_MBAP r) = id) ->
  (forall l, l ∈ g_queue g' ++ writer_loc (g_writer g') ->
     l ∈ g_queue g ++ writer_loc (g_writer g) \/ is_Some ((g_ps g').1 !! l)) ->
  (done_closed (g_ps g').2 = true -> g_done g' = true) ->
  (g_stolen g ⊆ g_stolen g') ->
  (g_drawn g <= drawn_limit -> early g -> g_stolen g' = ∅) -> ginv g'.
Proof.
  intros I Hw Hids Hdr Hn Hs Ht Hrd Hq Hd Hsub Hst.
  assert (forall i s' l id, g_sends g' !! i = Some s' -> owns s' = Some (l, id) ->
    exists s, g_sends g !! i = Some s /\ owns s = Some (l, id)) as Hold.
  { intros i s' l id E Eo. destruct (Hs i s' E) as [[? _]|(s & Es & Eq & _)]; [congruence|].
    exists s. by rewrite <-Eq. }
  destruct (gi_drawn g I) as [Hd0 _]. split; auto.
  - intros i s' l id E Eo. destruct (Hold _ _ _ _ E Eo) as (s & Es & Eo'). rewrite (Hids l).
    by eapply gi_owner.
  - intros i j s s' l id id' Ei Ej Ho Ho'. destruct (Hold _ _ _ _ Ei Ho) as (s1 & E1 & Ho1).
    destruct (Hold _ _ _ _ Ej Ho') as (s2 & E2 & Ho2). by eapply (gi_uniq g I i j).
  - intros i s' l id E Ew. pose proof (waiting_owns _ _ _ Ew) as Eo.
    destruct (Hs i s' E) as [[? _]|(s & Es & _ & Hw' & _)]; [congruence|].
    destruct Hw' as [?|Hw']; [congruence|]. rewrite Hw' in Ew.
    destruct (gi_tended g I i s l id Es Ew) as [Hc|Hc]; [|right; by apply Hsub].
    eapply Ht; [exact E|congruence|exact Hc].
  - intros i s' E. destruct (Hs i s' E) as [[_ ?]|(s & _ & _ & _ & ?)]; done.
  - intros l Hl. destruct (Hq l Hl) as [Hl'|]; [|done].
    eapply same_ids_dom; [exact Hids|]. by eapply gi_queue.
  - split; [lia|done].
  - intros Hlim. destruct (gi_early g I) as [He Hinj]; [lia|]. split; [apply Hst; [lia|done]|].
    assert (forall l t, (g_ps g').1 !! l = Some t -> exists t0, (g_ps g).1 !! l = Some t0 /\
      txid t0 = txid t) as Hb.
    { intros l t E. specialize (Hids l). rewrite E in Hids. destruct ((g_ps g).1 !! l) as [t0|];
        simpl in Hids; [|done]. exists t0. split; congruence. }
    intros l t E. destruct (Hb l t E) as (t0 & E0 & <-). destruct (Hinj l t0 E0) as [Hr Hu].
    split; [lia|]. intros l' t' E'. destruct (Hb l' t' E') as (t1 & E1 & <-). by apply Hu.
Qed.

(** Channels are only filled, as far as the heap is concerned. *)
Definition fills (h h' : heap) : Prop := forall l, filled h l -> filled h' l.

Lemma filled_complete h l res : is_Some (h !! l) -> filled (complete_at l res h) l.
Proof.
  intros [t E]. exists (Complete t res). unfold complete_at. rewrite lookup_alter_eq, E.
  split; [done|]. destruct res; simpl; [left|right]; by destruct (_ t); eauto.
Qed.
Lemma fills_alter (f : Transaction -> Transaction) l h :
  (forall t, is_Some (ResponseCh t) \/ is_Some (ErrCh t) ->
     is_Some (ResponseCh (f t)) \/ is_Some (ErrCh (f t))) -> fills h (alter f l h).
Proof.
  intros Hf l' (t & E & Ht). unfold filled. destruct (decide (l = l')) as [<-|Hne].
  - rewrite lookup_alter_eq, E. eauto.
  - rewrite lookup_alter_ne by done. eauto.
Qed.
Lemma fills_complete l res h : fills h (complete_at l res h).
Proof.
  apply fills_alter. intros t [[r E]|[e E]]; destruct res; simpl; rewrite ?E;
    try (by left; eauto); by right; eauto.
Qed.
Lemma fills_ctx l h : fills h (alter ctx_done l h).
Proof. by apply fills_alter. Qed.
Lemma Cancel_filled t err : is_Some (ErrCh (Cancel t err)).
Proof. simpl. destruct (ErrCh t); eauto. Qed.
Lemma fills_cancel err es h : fills h (cancel_all err es h).
Proof.
  intros l (t & E & Ht). unfold filled. rewrite cancel_all_lookup, E. case_decide; [|eauto].
  eexists. split; [done|]. right. apply Cancel_filled.
Qed.
Lemma cancel_pool_filled h p hd err id l :
  pool_inv h p hd -> transactions p !! id = Some l ->
  filled (cancel_all err (map_to_list (transactions p)) h) l.
Proof.
  intros I E. destruct (inv_pool _ _ _ I id l E) as [_ (t & Et & _)]. unfold filled.
  rewrite cancel_all_lookup, decide_True, Et; [eexists; split; [done|]; right; apply Cancel_filled|].
  apply list_elem_of_fmap. exists (id, l). split; [done|]. by apply elem_of_map_to_list.
Qed.

(** Locations outside the pool are not touched by the timeout monitor. *)
Lemma checkTimeouts_fills now h p hd :
  pool_inv h p hd -> fills h (checkTimeouts now (h, p)).1.
Proof.
  intros I. destruct (check_timeout_fold now (map_to_list (transactions p)) h p)
    as (h' & m' & E & Hh & _).
  - by eapply map_entries_NoDup_snd.
  - apply NoDup_fst_map_to_list.
  - intros id l. apply elem_of_map_to_list.
  - unfold checkTimeouts. cbn [snd]. rewrite E. intros l (t & Et & Ht). unfold filled. cbn [fst].
    rewrite Hh. destruct (_ && _); rewrite Et; [|eauto].
    eexists. split; [done|]. right. apply Cancel_filled.
Qed.

Lemma tended_mono h p hd h' p' hd' l id :
  tended (h, p, hd) l id -> fills h h' ->
  (transactions p !! id = Some l -> tended (h', p', hd') l id) ->
  (hd !! l = Some id -> tended (h', p', hd') l id) -> tended (h', p', hd') l id.
Proof. intros [?|[?|?]] Hf Hp Hh; auto. right. left. by apply Hf. Qed.

Lemma tick_tended now h p hd l id :
  pool_inv h p hd -> tended (h, p, hd) l id -> tended (checkTimeouts now (h, p), hd) l id.
Proof.
  intros I Ht. destruct (checkTimeouts_spec now h p hd I) as (h' & m' & E & _ & Hm & Hh).
  pose proof (checkTimeouts_fills now h p hd I) as Hf. rewrite E in Hf |- *.
  eapply tended_mono; [exact Ht|exact Hf| |].
  - intros El. destruct (expired now (timeoutDuration p) h l) eqn:Ex; [right; left|by left; apply Hm].
    destruct (inv_pool _ _ _ I id l El) as [_ (t & Et & _)].
    exists (Cancel t ErrTransactionTimeout). cbn [fst]. rewrite (Hh id l El), Ex, Et.
    split; [done|]. right. apply Cancel_filled.
  - intros El. by right; right.
Qed.

Lemma cancel_tended err p' h p hd l id :
  pool_inv h p hd -> tended (h, p, hd) l id ->
  tended (cancel_all err (map_to_list (transactions p)) h, p', hd) l id.
Proof.
  intros I Ht. eapply tended_mono; [exact Ht|apply fills_cancel| |].
  - intros El. right. left. by eapply cancel_pool_filled.
  - intros El. by right; right.
Qed.

(** ** Preservation, action by action *)

(** Steps that leave the calls alone. *)
Lemma quiet_inv g g' :
  ginv g -> world_inv (gworld g') -> same_ids (g_ps g).1 (g_ps g').1 ->
  g_drawn g' = g_drawn g -> nextID (g_ps g').2 = nextID (g_ps g).2 ->
  g_sends g' = g_sends g -> g_stolen g' = g_stolen g ->
  (forall l id, tended (gworld g) l id -> tended (gworld g') l id) ->
  (forall l id r last, g_reader g' = RHolds l id (inl r) last -> TransactionID (resp_MBAP r) = id) ->
  (forall l, l ∈ g_queue g' ++ writer_loc (g_writer g') ->
     l ∈ g_queue g ++ writer_loc (g_writer g)) ->
  (done_closed (g_ps g').2 = true -> g_done g' = true) -> ginv g'.
Proof.
  intros I Hw Hids Hdr Hn Hs Hst Ht Hr Hq Hd. destruct (gi_drawn g I) as [? Hn0].
  apply (frame_inv g); try done; try lia.
  - congruence.
  - rewrite Hs. intros i s' E. right. exists s'. split; [done|]. split; [done|].
    split; [by right|]. by eapply gi_returned.
  - intros i s' l id _ _ Hc. left. by apply Ht.
  - intros l Hl. left. by apply Hq.
  - by rewrite Hst.
  - intros _ [He _]. congruence.
Qed.

Lemma writer_inv g w :
  ginv g -> (forall l, l ∈ writer_loc w -> l ∈ g_queue g ++ writer_loc (g_writer g)) ->
  ginv (with_writer g w).
Proof.
  intros I Hw. apply (quiet_inv g); try done; try apply I.
  intros l. cbn. rewrite !elem_of_app. intros [?|Hl]; [by left|]. apply elem_of_app. by apply Hw.
Qed.

Lemma complete_err_inv g l err : ginv g -> ginv (complete_tx l (inr err) g).
Proof.
  intros I. apply (quiet_inv g); try done; try apply I.
  - exact (pool_step_inv (gworld g) _ (st_write_error l err _ _ _) (gi_pool g I)) ||
    (destruct g as [[h p] c d q ss w r st dr];
     exact (pool_step_inv _ _ (st_write_error l err h p _) (gi_pool _ I))).
  - cbn. eauto with send_db.
  - intros l' id Ht. destruct g as [[h p] c d q ss w r st dr].
    eapply tended_mono; [exact Ht|apply fills_complete| |]; intros E; [by left|by right; right].
Qed.

Lemma write_loop_inv a g g' :
  match a with
  | LWriteExit | LWriteTake | LWriteCheck _ | LWriteEncode | LWriteReturn _ => True
  | _ => False
  end -> gstep a g = Some g' -> ginv g -> ginv g'.
Proof.
  intros Ha E I. destruct a; try done; cbn [gstep] in E.
  - unfold write_exit in E. destruct (g_writer g); try done. destruct (g_done g); [|done].
    injection E as <-. apply writer_inv; [done|]. intros l Hl. by apply not_elem_of_nil in Hl.
  - unfold write_take in E. destruct (g_writer g) eqn:Ew; try done.
    destruct (g_queue g) as [|l q] eqn:Eq; [done|]. injection E as <-.
    apply (quiet_inv g); try done; try apply I. cbn. rewrite Ew, Eq. set_solver.
  - unfold write_check in E. destruct (g_writer g) as [|l| | |] eqn:Ew; try done.
    destruct ((g_ps g).1 !! l); [|done].
    destruct c; repeat case_match; try done; injection E as <-; apply writer_inv;
      rewrite ?Ew; auto using complete_err_inv; set_solver.
  - unfold write_encode in E. destruct (g_writer g) as [| |l| |] eqn:Ew; try done.
    destruct ((g_ps g).1 !! l); [|done]. destruct (Request_Encode _); [| |done].
    + destruct (g_done g); injection E as <-; apply writer_inv; rewrite ?Ew;
        auto using complete_err_inv; set_solver.
    + injection E as <-. apply writer_inv; auto using complete_err_inv. set_solver.
  - unfold write_return in E. destruct (g_writer g) as [| | |l|] eqn:Ew; try done.
    destruct werr; injection E as <-; apply writer_inv; auto using complete_err_inv; set_solver.
Qed.

Lemma read_loop_inv a g g' :
  match a with LRead _ _ | LReadComplete | LReadExit => True | _ => False end ->
  gstep a g = Some g' -> ginv g -> ginv g'.
Proof.
  intros Ha E I. destruct g as [[h p] c d q ss w r st dr]. pose proof (gi_pool _ I) as Hp.
  destruct a; try done; cbn [gstep] in E.
  - unfold read_release in E. cbn [g_reader g_ps] in E. destruct r; try done.
    destruct (frame_of id res) eqn:Er; [|done]. cbn [negb] in E.
    destruct (Release id (h, p)) as [[l|] [h' p']] eqn:El; injection E as <-.
    + pose proof (pool_step_inv _ _ (st_release id l h p ∅ h' p' El) Hp) as Hp'.
      unfold Release in El. destruct (transactions p !! id) as [l0|] eqn:E0; [|done].
      injection El as <- <- <-. apply (quiet_inv (mkG (h, p) c d q ss w RIdle st dr));
        try exact Hp'; try done; try apply I.
      * intros l id' Ht. eapply tended_mono; [exact Ht|by intros ?| |].
        -- cbn [transactions g_ps snd]. intros El. destruct (decide (id' = id)) as [->|Hne].
           ++ right. right. cbn. rewrite E0 in El. injection El as <-. apply lookup_singleton_eq.
           ++ left. cbn. by rewrite lookup_delete_ne.
        -- cbn. by rewrite lookup_empty.
      * cbn. intros l id' r last [= <- <- -> _]. cbn in Er. lia.
    + destruct res; [exact I|].
      by apply (quiet_inv (mkG (h, p) c d q ss w RIdle st dr)); try apply I.
  - unfold read_complete in E. cbn [g_reader] in E. destruct r as [|l id res last|]; try done.
    injection E as <-. assert (held (mkG (h, p) c d q ss w (RHolds l id res last) st dr) !! l = Some id)
      as Hl by apply lookup_singleton_eq.
    assert (delete l (held (mkG (h, p) c d q ss w (RHolds l id res last) st dr)) = ∅) as Hdel
      by apply delete_singleton_eq.
    apply (quiet_inv (mkG (h, p) c d q ss w (RHolds l id res last) st dr)); try done; try apply I.
    + unfold gworld, held. replace (match g_reader _ with RHolds _ _ _ _ => _ | _ => ∅ end)
        with (∅ : gmap loc Z) by (by destruct last). rewrite <-Hdel. destruct res as [r|err].
      * exact (pool_step_inv _ _ (st_respond l id r h p _ Hl (gi_reader _ I l id r last eq_refl)) Hp).
      * exact (pool_step_inv _ _ (st_fail l id err h p _ Hl) Hp).
    + cbn. apply same_ids_alter. by intros t; destruct res.
    + intros l' id' Ht. eapply tended_mono; [exact Ht|apply fills_complete| |].
      * intros El. by left.
      * intros El. cbn in El. apply lookup_singleton_Some in El as [<- <-]. right. left.
        apply filled_complete. destruct (inv_held _ _ _ Hp l id Hl) as (t & Et & _). eauto.
    + cbn. by destruct last.
  - unfold read_exit in E. cbn [g_reader] in E. destruct r; try done. injection E as <-.
    by apply (quiet_inv (mkG (h, p) c d q ss w RIdle st dr)); try apply I.
Qed.

Lemma pool_ops_inv a g g' :
  match a with LTearDone | LTearPool | LTick _ | LReset => True | _ => False end ->
  gstep a g = Some g' -> ginv g -> ginv g'.
Proof.
  intros Ha E I. pose proof (gi_pool _ I) as Hp. destruct g as [[h p] c d q ss w r st dr].
  destruct a; try done; cbn [gstep] in E.
  - unfold tear_done in E. cbn [g_done] in E. destruct d; [done|]. injection E as <-.
    apply (quiet_inv (mkG (h, p) c false q ss w r st dr)); try done; apply I.
  - unfold tear_pool in E. cbn [g_done g_ps snd] in E. destruct d; [|done].
    destruct (done_closed p) eqn:Ed; [done|]. cbn [andb negb] in E. injection E as <-.
    pose proof (pool_step_inv _ _ (st_close h p _ _ _ (surjective_pairing _)) Hp) as Hp'.
    rewrite <-surjective_pairing in Hp'. unfold pool_Close in *. rewrite Ed in *.
    apply (quiet_inv (mkG (h, p) c true q ss w r st dr)); try exact Hp'; try done; try apply I.
    + apply same_ids_errs, cancel_all_errs.
    + intros l id. by apply cancel_tended.
  - injection E as <-.
    pose proof (pool_step_inv _ _ (st_timeouts now h p _ _ _ (surjective_pairing _)) Hp) as Hp'.
    rewrite <-surjective_pairing in Hp'.
    assert (forall l id, tended (h, p, held (mkG (h, p) c d q ss w r st dr)) l id ->
      tended (checkTimeouts now (h, p), held (mkG (h, p) c d q ss w r st dr)) l id) as Ht
      by (intros; by apply tick_tended).
    destruct (checkTimeouts_spec now h p _ Hp) as (h' & m' & E' & He & _). rewrite E' in *.
    apply (quiet_inv (mkG (h, p) c d q ss w r st dr)); try exact Hp'; try exact Ht; try done;
      try apply I. by apply same_ids_errs.
  - injection E as <-.
    apply (quiet_inv (mkG (h, p) c d q ss w r st dr)); try done; try apply I.
    + exact (pool_step_inv _ _ (st_reset h p _ _ _ eq_refl) Hp).
    + apply same_ids_errs, cancel_all_errs.
    + intros l id. by apply cancel_tended.
Qed.

Lemma ctx_done_errs l h : errs_only h (alter ctx_done l h).
Proof.
  intros l'. destruct (decide (l = l')) as [<-|Hne].
  - rewrite lookup_alter_eq. by destruct (h !! l).
  - rewrite lookup_alter_ne by done. by destruct (h !! l').
Qed.
#[export] Hint Resolve ctx_done_errs : send_db.

(** One call moves; the others stay. *)
Lemma move_sends g i s pc j s' :
  ginv g -> g_sends g !! i = Some s ->
  owns (mkSend pc (s_ctx s)) = owns s ->
  (waiting (mkSend pc (s_ctx s)) = None \/ waiting (mkSend pc (s_ctx s)) = waiting s) ->
  returned_ok (mkSend pc (s_ctx s)) ->
  <[i := mkSend pc (s_ctx s)]> (g_sends g) !! j = Some s' ->
  (owns s' = None /\ returned_ok s') \/
  exists s0, g_sends g !! j = Some s0 /\ owns s' = owns s0 /\
    (waiting s' = None \/ waiting s' = waiting s0) /\ returned_ok s'.
Proof.
  intros I Ei Ho Hw Hr Hj. right. apply list_lookup_insert_Some in Hj as [(<- & <- & _)|[Hne Ej]].
  - by exists s.
  - exists s'. split; [done|]. split; [done|]. split; [by right|]. by eapply gi_returned.
Qed.

Lemma returned_err own e b : returned_ok (mkSend (Returned own (inr e)) b).
Proof. intros own' r. done. Qed.
Lemma not_returned pc b :
  match pc with Returned _ _ => False | _ => True end -> returned_ok (mkSend pc b).
Proof. intros H own r. simpl. by intros ->. Qed.
#[export] Hint Resolve returned_err not_returned : send_db.

Lemma call_inv request g : ginv g -> ginv (send_call request g).
Proof.
  intros I. destruct (gi_drawn _ I). apply (frame_inv g); try done; try apply I; eauto with send_db.
  - cbn. intros i s' [E|[_ E]]%lookup_app_Some.
    + right. exists s'. split; [done|]. split; [done|]. split; [by right|]. by eapply gi_returned.
    + apply list_lookup_singleton_Some in E as [_ <-]. left.
      destruct (g_connected g); split; eauto with send_db.
  - by intros _ [? _].
Qed.

Lemma cancel_ctx_inv i g g' : cancel_ctx i g = Some g' -> ginv g -> ginv g'.
Proof.
  intros E I. unfold cancel_ctx in E. destruct (g_sends g !! i) as [s|] eqn:Es; [|done].
  injection E as <-. set (h' := match s_pc s with AtPlace _ => _ | _ => _ end).
  assert (errs_only (g_ps g).1 h' /\ fills (g_ps g).1 h') as [He Hf].
  { assert (errs_only (g_ps g).1 (g_ps g).1) by (intros l; by destruct ((g_ps g).1 !! l)).
    unfold h'. destruct (s_pc s); split; auto using ctx_done_errs, fills_ctx; by intros l. }
  destruct (gi_drawn _ I). apply (frame_inv g); try done; try apply I; eauto with send_db.
  - exact (errs_only_inv _ _ _ _ He (gi_pool _ I)).
  - cbn. intros j s' [(<- & <- & _)|[Hne Ej]]%list_lookup_insert_Some; right.
    + exists s. pose proof (gi_returned g I i s Es). destruct s; cbn. auto.
    + exists s'. pose proof (gi_returned g I j s' Ej). auto.
  - intros j s' l id _ _ Ht. left. destruct g as [[h p] c d q ss w r st dr].
    eapply tended_mono; [exact Ht|exact Hf| |]; intros El; [by left|by right; right].
  - by intros _ [? _].
Qed.

Lemma give_up_inv i s l id err g :
  ginv g -> g_sends g !! i = Some s -> s_pc s = AtQueue l id -> ginv (send_give_up i s l id err g).
Proof.
  intros I Es Epc. pose proof (gi_pool _ I) as Hpool. destruct (gi_drawn _ I) as [Hdr Hnx].
  assert (owns s = Some (l, id)) as Hown by (unfold owns; by rewrite Epc).
  pose proof (gi_owner _ I i s l id Es Hown) as Hid.
  pose proof (fun j s' => move_sends g i s (Returned (Some (l, id)) (inr err)) j s' I Es) as Hmove.
  pose proof (fun j s' l' id' => gi_uniq g I i j s s' l' id id' Es) as Huniq.
  pose proof (gi_done _ I) as Hdone. pose proof (gi_reader _ I) as Hrd.
  destruct g as [[h p] cn d q ss w r st dr]. cbn in Es, Hdr, Hnx, Hid, Hmove, Huniq, Hdone, Hrd.
  unfold send_give_up. cbn [g_ps]. destruct (Release id (h, p)) as [o [h' p']] eqn:Er.
  pose proof (pool_step_inv _ _ (st_abandon id o h p _ h' p' Er) Hpool) as Hp.
  assert (h' = h /\ nextID p' = nextID p /\ done_closed p' = done_closed p /\
    (forall id', id' <> id -> transactions p' !! id' = transactions p !! id') /\
    o = transactions p !! id) as (-> & Hn & Hc & Ho & ->).
  { unfold Release in Er. destruct (transactions p !! id); injection Er as <- <- <-; try done.
    repeat split. intros id' Hne. cbn. by rewrite lookup_delete_ne. }
  apply (frame_inv (mkG (h, p) cn d q ss w r st dr)); try exact Hp; try done; cbn.
  - congruence.
  - intros j s'. apply Hmove; eauto with send_db.
  - intros j s' l' id' Hj Hw Ht. destruct (decide (transactions p !! id = Some l')) as [El|Hne].
    + rewrite El. apply list_lookup_insert_Some in Hj as [(<- & <- & _)|[Hne Hj]]; [done|].
      rewrite bool_decide_false; [right; set_solver|]. intros ->. apply Hne.
      by eapply Huniq; [exact Hj|exact Hown|apply waiting_owns].
    + left. eapply tended_mono; [exact Ht|by intros ?| |by right; right].
      cbn. intros El. left. cbn. rewrite Ho; [done|]. congruence.
  - auto.
  - by rewrite Hc.
  - destruct (transactions p !! id); [|done]. case_bool_decide; set_solver.
  - intros _ [He Hinj]. cbn in He, Hinj. destruct (transactions p !! id) as [l'|] eqn:El; [|done].
    rewrite bool_decide_true; [done|].
    destruct (inv_pool _ _ _ Hpool id l' El) as (_ & t' & Et' & Hid' & _).
    destruct (h !! l) as [t|] eqn:Et; [|done]. injection Hid as Hid.
    symmetry. apply (proj2 (Hinj l t Et) l' t' Et'). congruence.
Qed.

Lemma select_inv i c g g' : send_select i c g = Some g' -> ginv g -> ginv g'.
Proof.
  intros E I. unfold send_select in E.
  destruct (g_sends g !! i) as [[[|l id| |] ctx]|] eqn:Es; try done.
  destruct (gi_drawn _ I) as [Hdr Hnx].
  destruct c; case_match; try done; injection E as <-; try by apply give_up_inv.
  apply (frame_inv g); try done; try apply I; eauto with send_db.
  - cbn. intros j s'. apply (move_sends _ i (mkSend (AtQueue l id) ctx)); eauto with send_db.
  - cbn. intros l' [[Hl|Hl]%elem_of_app|Hl]%elem_of_app.
    + left. set_solver.
    + right. apply list_elem_of_singleton in Hl as ->.
      pose proof (gi_owner _ I i _ l id Es eq_refl) as Hown.
      destruct ((g_ps g).1 !! l); [eauto|done].
    + left. set_solver.
  - by intros _ [? _].
Qed.

(** Emptying a channel of the transaction of a call that returns. *)
Lemma receive_inv i s l id t t' res g :
  ginv g -> g_sends g !! i = Some s -> s_pc s = AtWait l id -> (g_ps g).1 !! l = Some t ->
  tx_Request t' = tx_Request t -> (ResponseCh t' = ResponseCh t \/ ResponseCh t' = None) ->
  (forall r, res = inl r -> ResponseCh t = Some r) ->
  ginv (goto (with_ps g (<[l := t']> (g_ps g).1, (g_ps g).2)) i s (Returned (Some (l, id)) res)).
Proof.
  intros I Es Ew Et Hreq Hch Hres. destruct (gi_drawn _ I) as [Hdr Hnx]. pose proof (gi_pool _ I) as Hp.
  assert (txid t' = txid t) as Hid by (unfold txid; by rewrite Hreq).
  assert (owns s = Some (l, id)) as Hown by (unfold owns; by rewrite Ew).
  assert (forall l' i', awaiting (g_ps g).1 l' i' -> awaiting (<[l := t']> (g_ps g).1) l' i') as Haw.
  { intros l' i' (t0 & E0 & H0 & Hr0). unfold awaiting. destruct (decide (l = l')) as [<-|Hne].
    - rewrite lookup_insert_eq. exists t'. rewrite E0 in Et. injection Et as ->.
      split; [done|]. split; [congruence|]. destruct Hch; congruence.
    - rewrite lookup_insert_ne by done. eauto. }
  apply (frame_inv g); try done; eauto with send_db; try apply I.
  - split; try apply Hp; cbn.
    + intros i' l' E'. destruct (inv_pool _ _ _ Hp i' l' E'). auto.
    + intros l' i' E'. apply Haw. by apply (inv_held _ _ _ Hp).
    + intros l' t0. destruct (decide (l = l')) as [<-|Hne].
      * rewrite lookup_insert_eq. intros [= <-] r Hr. rewrite Hid.
        apply (inv_heap _ _ _ Hp l t Et). destruct Hch; congruence.
      * rewrite lookup_insert_ne by done. apply (inv_heap _ _ _ Hp).
  - cbn. by eapply same_ids_insert.
  - cbn. intros j s'. apply (move_sends _ i s); auto.
    intros own r. simpl. intros [= <- ->]. exists l, id. split; [done|].
    rewrite (inv_heap _ _ _ Hp l t Et r) by auto.
    pose proof (gi_owner _ I i s l id Es Hown) as Ho. rewrite Et in Ho. by injection Ho.
  - intros j s' l' id' Hj Hw Ht. left. destruct g as [[h p] cn d q ss w r st dr]. cbn in *.
    apply list_lookup_insert_Some in Hj as [(<- & <- & _)|[Hne Hj]]; [done|].
    assert (l <> l') as Hl.
    { intros <-. apply Hne. eapply (gi_uniq _ I i j); [exact Es|exact Hj|done|by apply waiting_owns]. }
    destruct Ht as [Ht|[(t0 & Et0 & Ht)|Ht]]; [by left| |by right; right].
    right. left. exists t0. cbn. by rewrite lookup_insert_ne.
  - by intros _ [? _].
Qed.

Lemma wait_inv i c g g' : send_wait i c g = Some g' -> ginv g -> ginv g'.
Proof.
  intros E I. unfold send_wait in E.
  destruct (g_sends g !! i) as [[[| |l id|] ctx]|] eqn:Es; try done.
  destruct (g_ps g) as [h p] eqn:Eps. destruct (h !! l) as [t|] eqn:Et; [|done].
  assert ((g_ps g).1 !! l = Some t) as Et' by (by rewrite Eps). destruct c.
  - destruct (ResponseCh t) as [r|] eqn:Er; [|done]. injection E as <-.
    pose proof (receive_inv i _ l id t (take_response t) (inl r) g I Es eq_refl Et' eq_refl) as Hr.
    rewrite Eps in Hr. apply Hr; [by right|]. intros r' [= <-]. done.
  - destruct (ErrCh t) as [e|] eqn:Er; [|done]. injection E as <-.
    pose proof (receive_inv i _ l id t (take_error t) (inr e) g I Es eq_refl Et' eq_refl) as Hr.
    rewrite Eps in Hr. apply Hr; [by left|done].
  - destruct ctx; [|done]. injection E as <-.
    pose proof (receive_inv i _ l id t t (inr CtxDone) g I Es eq_refl Et' eq_refl) as Hr.
    rewrite insert_id in Hr by done. destruct g; cbn in *. subst. apply Hr; [by left|done].
Qed.

(** The identifiers drawn by a search. *)
Lemma find_id_draws n : forall next m r next', find_id n next m = (r, next') -> is_u32 next ->
  exists k, 0 <= k <= Z.of_nat n /\ next' = u32 (next + k) /\
    forall id, r = Some id -> 1 <= k /\ id = u16 (next + k - 1).
Proof.
  induction n as [|n IH]; intros next m r next' E Hn; cbn [find_id] in E.
  - injection E as <- <-. exists 0. split; [lia|]. split; [|done].
    rewrite Z.add_0_r. widths. dlia.
  - rewrite candidate_u16 in E. destruct (m !! u16 next).
    + destruct (IH _ _ _ _ E (u32_range _)) as (k & Hk & -> & Hr). exists (k + 1).
      split; [lia|]. split; [widths; dlia|]. intros id Hid. destruct (Hr id Hid) as [Hk1 ->].
      split; [lia|]. widths. dlia.
    + injection E as <- <-. exists 1. split; [lia|]. split; [done|]. intros id [= <-].
      split; [lia|]. f_equal. lia.
Qed.

Lemma Place_draws now req h p res h' p' :
  Place now req (h, p) = (res, (h', p')) -> is_u32 (nextID p) ->
  exists k, 0 <= k <= 16 /\ nextID p' = u32 (nextID p + k) /\ u32 (nextID p' - nextID p) = k /\
    forall l req', res = Ok (l, req') -> 1 <= k /\ GetTransactionID req' = u16 (nextID p + k - 1).
Proof.
  intros E Hn. unfold Place in E. destruct (done_closed p).
  { injection E as <- <- <-. exists 0. split; [lia|]. split; [rewrite Z.add_0_r; widths; dlia|].
    split; [|done]. widths. dlia. }
  destruct (find_id _ _ _) as [o next] eqn:Ef.
  destruct (find_id_draws _ _ _ _ _ Ef Hn) as (k & Hk & -> & Hr). exists k.
  change (Z.of_nat maxIDAttempts) with 16 in Hk.
  destruct o as [id|]; injection E as <- <- <-; cbn [nextID];
    (split; [lia|]); (split; [done|]); (split; [widths; dlia|]); [|done].
  intros l req' [= <- <-]. destruct (Hr id eq_refl). by split.
Qed.

Lemma sends_insert (ss : list send) i s j s' :
  <[i := s]> ss !! j = Some s' -> (j = i /\ s' = s) \/ (j <> i /\ ss !! j = Some s').
Proof.
  intros [(<- & <- & _)|[Hne Ej]]%list_lookup_insert_Some; [by left|right; by split].
Qed.

Lemma place_inv_send i now g g' : send_place i now g = Some g' -> ginv g -> ginv g'.
Proof.
  intros E I. unfold send_place in E.
  destruct (g_sends g !! i) as [[[request| | |] ctx]|] eqn:Es; try done.
  pose proof (gi_pool _ I) as Hp. destruct (gi_drawn _ I) as [Hdr Hnx].
  pose proof (inv_next _ _ _ Hp) as Hn. destruct g as [[h p] cn d q ss w r st dr].
  cbn [g_ps snd fst gworld] in *.
  destruct (Place now request (h, p)) as [[[l req']|err|] [h' p']] eqn:Ep; [| |done];
    injection E as <-; destruct (Place_draws _ _ _ _ _ _ _ Ep Hn) as (k & Hk & Hn' & -> & Hid).
  2: { destruct (Place_Err _ _ _ _ _ _ _ Ep Hn) as (-> & Ht & Hd & _).
    pose proof (pool_step_inv _ _ (st_place now request _ h p _ h p' Ep) Hp) as Hp'.
    apply (frame_inv (mkG (h, p) cn d q ss w r st dr)); try exact Hp'; try done; cbn in *.
    - lia.
    - rewrite Hn', Hnx. widths. dlia.
    - intros j s' [[-> ->]|[Hne Ej]]%sends_insert.
      + left. split; eauto with send_db.
      + right. exists s'. pose proof (gi_returned _ I j s' Ej). auto.
    - intros j s' l id _ _ Hc. left. eapply tended_mono; [exact Hc|by intros ?| |by right; right].
      intros El. left. cbn. by rewrite Ht.
    - apply (gi_reader _ I).
    - auto.
    - rewrite Hd. apply (gi_done _ I).
    - by intros _ [? _]. }
  pose proof (pool_step_inv _ _ (st_place now request _ h p _ h' p' Ep) Hp) as Hp'.
  destruct (Place_Ok _ _ _ _ _ _ _ _ Ep Hn) as (Hl & -> & Hreq & Hu & Hfree & Htx & _ & Hdc & Hdc' & _).
  destruct (Hid l req' eq_refl) as [Hk1 Hrid]. set (h' := <[l := NewTransaction now req']> h) in *.
  set (h2 := if ctx then alter ctx_done l h' else h').
  assert (errs_only h' h2 /\ fills h' h2) as [He Hf].
  { unfold h2. destruct ctx; [split; [apply ctx_done_errs|apply fills_ctx]|].
    split; [intros l'; by destruct (h' !! l')|by intros l']. }
  assert (txid <$> h2 !! l = Some (GetTransactionID req')) as Hnew.
  { rewrite (same_ids_errs _ _ He l). unfold h'. by rewrite lookup_insert_eq. }
  assert (forall l', l' <> l -> txid <$> h2 !! l' = txid <$> h !! l') as Hold.
  { intros l' Hne. rewrite (same_ids_errs _ _ He l'). unfold h'. by rewrite lookup_insert_ne. }
  assert (forall j s l' id, ss !! j = Some s -> owns s = Some (l', id) -> l' <> l) as Hown.
  { intros j s l' id Ej Ho ->. pose proof (gi_owner _ I j s l id Ej Ho) as Hc. cbn in Hc.
    by rewrite Hl in Hc. }
  split; cbn [g_ps g_sends g_reader g_queue g_writer g_done g_drawn g_stolen fst snd].
  - exact (errs_only_inv _ _ _ _ He Hp').
  - intros j s l' id [[-> ->]|[Hne Ej]]%sends_insert Ho.
    + injection Ho as <- <-. exact Hnew.
    + rewrite Hold by (by eapply Hown). exact (gi_owner _ I j s l' id Ej Ho).
  - intros j1 j2 s1 s2 l' id id' [[-> ->]|[Hne Ej]]%sends_insert
      [[-> ->]|[Hne' Ej']]%sends_insert Ho Ho'; try done.
    + injection Ho as <- <-. by destruct (Hown j2 s2 l id' Ej' Ho').
    + injection Ho' as <- <-. by destruct (Hown j1 s1 l id Ej Ho).
    + exact (gi_uniq _ I j1 j2 s1 s2 l' id id' Ej Ej' Ho Ho').
  - intros j s l' id [[-> ->]|[Hne Ej]]%sends_insert Hw.
    + injection Hw as <- <-. left. left. cbn. by rewrite Htx, lookup_insert_eq.
    + destruct (gi_tended _ I j s l' id Ej Hw) as [Ht|Ht]; [left|by right].
      eapply tended_mono; [exact Ht| | |by right; right].
      * intros l0 (t & Et & Hft). apply Hf. exists t. unfold h'.
        rewrite lookup_insert_ne; [done|]. congruence.
      * intros El. left. cbn. rewrite Htx, lookup_insert_ne; [done|]. intros <-. cbn in El. congruence.
  - apply (gi_reader _ I).
  - intros j s [[-> ->]|[Hne Ej]]%sends_insert; [eauto with send_db|exact (gi_returned _ I j s Ej)].
  - intros l' Hl'. destruct (gi_queue _ I l' Hl') as [t Et]. cbn in Et.
    assert (l' <> l) as Hne by congruence. specialize (Hold l' Hne). rewrite Et in Hold.
    destruct (h2 !! l'); [eauto|done].
  - cbn. by rewrite Hdc'.
  - cbn in *. split; [lia|]. rewrite Hn', Hnx. widths. dlia.
  - cbn in *. intros Hlim. destruct (gi_early _ I) as [Hst Hinj]; [cbn; lia|]. split; [exact Hst|].
    assert (GetTransactionID req' = dr + k - 1) as Hrid'.
    { rewrite Hrid, Hnx. unfold drawn_limit in Hlim. widths. dlia. }
    assert (forall l' t, h2 !! l' = Some t ->
      (l' = l /\ txid t = dr + k - 1) \/ (l' <> l /\ exists t0, h !! l' = Some t0 /\ txid t0 = txid t))
      as Hsplit.
    { intros l' t Et. destruct (decide (l' = l)) as [->|Hne].
      - left. rewrite Et in Hnew. injection Hnew as Hx. split; [done|congruence].
      - right. specialize (Hold l' Hne). rewrite Et in Hold. destruct (h !! l') as [t0|]; [|done].
        injection Hold as Hx. eauto. }
    cbn in Hinj. intros l1 t1 E1. cbn in E1.
    destruct (Hsplit l1 t1 E1) as [[-> Hx]|(Hne1 & t0 & E0 & <-)].
    + split; [cbn; lia|]. intros l2 t2 E2 Heq.
      destruct (Hsplit l2 t2 E2) as [[-> _]|(_ & t3 & E3 & Hx3)]; [done|].
      destruct (Hinj l2 t3 E3). cbn in *. lia.
    + destruct (Hinj l1 t0 E0) as [Hb Hu1]. split; [cbn in *; lia|]. intros l2 t2 E2 Heq.
      destruct (Hsplit l2 t2 E2) as [[-> Hx]|(_ & t3 & E3 & Hx3)]; [cbn in *; lia|].
      apply (Hu1 l2 t3 E3). congruence.
Qed.

Lemma gstep_inv a g g' : gstep a g = Some g' -> ginv g -> ginv g'.
Proof.
  intros E I. destruct a;
    try (refine (write_loop_inv _ g g' _ E I); done);
    try (refine (read_loop_inv _ g g' _ E I); done);
    try (refine (pool_ops_inv _ g g' _ E I); done); cbn [gstep] in E.
  - injection E as <-. by apply call_inv.
  - by eapply cancel_ctx_inv.
  - by eapply place_inv_send.
  - by eapply select_inv.
  - by eapply wait_inv.
Qed.

Lemma grun_inv sched : forall g g', grun g sched = Some g' -> ginv g -> ginv g'.
Proof.
  induction sched as [|a sched IH]; intros g g' E I; cbn in E; [by injection E as <-|].
  destruct (gstep a g) as [g1|] eqn:E1; [|done]. eapply IH; [exact E|]. by eapply gstep_inv.
Qed.

Lemma fresh_inv timeout : ginv (fresh_generation timeout).
Proof.
  split; try exact (new_pool_inv timeout); cbn; try done.
  intros l Hl. by apply not_elem_of_nil in Hl.
Qed.

(** ** Every action of the connection brings it closer to rest *)
Definition pc_weight (s : send) : nat :=
  match s_pc s with AtPlace _ => 12 | AtQueue _ _ => 8 | AtWait _ _ => 1 | Returned _ _ => 0 end.
Definition writer_weight (w : writer_pc) : nat :=
  match w with WGot _ => 4 | WReady _ => 3 | WWrite _ => 2 | WIdle => 1 | WExited => 0 end.
Definition reader_weight (r : reader_pc) : nat :=
  match r with RHolds _ _ _ _ => 1 | _ => 0 end.
Definition work (g : gstate) : nat :=
  sum_list_with pc_weight (g_sends g) + 4 * length (g_queue g) + writer_weight (g_writer g) +
  reader_weight (g_reader g) + (if done_closed (g_ps g).2 then 0 else 1).

Lemma Release_closed id st : done_closed (Release id st).2.2 = done_closed st.2.
Proof. destruct st as [h p]. unfold Release. by destruct (transactions p !! id). Qed.
Lemma Place_closed now req st r h' p' :
  Place now req st = (r, (h', p')) -> done_closed p' = done_closed st.2.
Proof.
  destruct st as [h p]. unfold Place. destruct (done_closed p) eqn:Ed.
  { by intros [= <- <- <-]. }
  destruct (find_id _ _ _) as [[id|] next]; by intros [= <- <- <-].
Qed.

Ltac weigh Es :=
  match goal with |- context [sum_list_with pc_weight (<[?i := ?s']> ?ss)] =>
    change (@insert _ _ _ _ i s' ss) with (<[i := s']> ss);
    pose proof (sum_list_insert pc_weight ss i _ s' Es);
    generalize dependent (sum_list_with pc_weight (<[i := s']> ss)); intros
  end.

Lemma work_decreases a g g' : internal a = true -> gstep a g = Some g' -> (work g' < work g)%nat.
Proof.
  intros Ha E. unfold work. destruct a; try done; cbn [gstep] in E.
  - unfold send_place in E. destruct (g_sends g !! i) as [[[request| | |] ctx]|] eqn:Es; try done.
    destruct (Place _ _ _) as [[[l req']|err|] [h' p']] eqn:Ep; [| |done]; injection E as <-;
      cbn; rewrite (Place_closed _ _ _ _ _ _ Ep); weigh Es; cbn in *; lia.
  - unfold send_select in E. destruct (g_sends g !! i) as [[[|l id| |] ctx]|] eqn:Es; try done.
    destruct c; case_match; try done; injection E as <-; unfold send_give_up;
      pose proof (Release_closed id (g_ps g)) as Hc; destruct (Release id (g_ps g)) as [o ps];
      cbn in Hc |- *; rewrite ?Hc, ?length_app; weigh Es; cbn in *; lia.
  - unfold send_wait in E. destruct (g_sends g !! i) as [[[| |l id|] ctx]|] eqn:Es; try done.
    destruct (g_ps g) as [h p] eqn:Eps. destruct (h !! l); [|done].
    destruct c; case_match; try done; injection E as <-; cbn; rewrite ?Eps; cbn; weigh Es;
      cbn in *; lia.
  - unfold write_exit in E. destruct (g_writer g); try done. destruct (g_done g); [|done].
    injection E as <-. cbn. lia.
  - unfold write_take in E. destruct (g_writer g) eqn:Ew; try done.
    destruct (g_queue g) eqn:Eq; [done|]. injection E as <-. cbn. lia.
  - unfold write_check in E. destruct (g_writer g); try done. destruct (_ !! l); [|done].
    destruct c; case_match; try done; injection E as <-; cbn; lia.
  - unfold write_encode in E. destruct (g_writer g); try done. destruct (_ !! l); [|done].
    destruct (Request_Encode _); [| |done]; [destruct (g_done g)|]; injection E as <-; cbn; lia.
  - unfold write_return in E. destruct (g_writer g); try done. injection E as <-.
    destruct werr; cbn; lia.
  - unfold read_complete in E. destruct (g_reader g) as [|l id res last|]; try done.
    injection E as <-. destruct last; cbn; lia.
  - unfold tear_pool in E. destruct (g_done g); [|done].
    destruct (done_closed (g_ps g).2) eqn:Ed; [done|]. injection E as <-. cbn.
    destruct (g_ps g) as [h p]. unfold pool_Close. cbn in Ed. rewrite Ed. cbn. lia.
Qed.

Lemma grun_app s1 s2 g : grun g (s1 ++ s2) = grun g s1 ≫= fun g => grun g s2.
Proof.
  revert g. induction s1 as [|a s1 IH]; intros g; [done|]. cbn.
  destruct (gstep a g); [apply IH|done].
Qed.

Lemma work_bounds sched : forall g g', Forall (fun a => internal a = true) sched ->
  grun g sched = Some g' -> (length sched + work g' <= work g)%nat.
Proof.
  induction sched as [|a sched IH]; intros g g' Hi E; cbn in E |- *; [by injection E as <-|].
  apply Forall_cons in Hi as [Ha Hi]. destruct (gstep a g) as [g1|] eqn:E1; [|done].
  pose proof (work_decreases a g g1 Ha E1). specialize (IH g1 g' Hi E). lia.
Qed.

Lemma done_stays a g g' : gstep a g = Some g' -> g_done g = true -> g_done g' = true.
Proof.
  intros E Hd. destruct a; cbn [gstep] in E.
  - by injection E as <-.
  - unfold cancel_ctx in E. destruct (_ !! _); [|done]. by injection E as <-.
  - unfold send_place in E. destruct (_ !! i) as [[[] ?]|]; try done.
    destruct (Place _ _ _) as [[[]| |] []]; try done; by injection E as <-.
  - unfold send_select in E. destruct (_ !! i) as [[[] ?]|]; try done.
    destruct c; case_match; try done; injection E as <-; try done; unfold send_give_up;
      by destruct (Release _ _).
  - unfold send_wait in E. destruct (_ !! i) as [[[] ?]|]; try done.
    destruct (g_ps g). destruct (_ !! l); [|done]. destruct c; case_match; try done; by injection E as <-.
  - unfold write_exit in E. destruct (g_writer g); try done. rewrite Hd in E. by injection E as <-.
  - unfold write_take in E. destruct (g_writer g), (g_queue g); try done. by injection E as <-.
  - unfold write_check in E. destruct (g_writer g); try done. destruct (_ !! l); [|done].
    destruct c; case_match; try done; by injection E as <-.
  - unfold write_encode in E. destruct (g_writer g); try done. destruct (_ !! l); [|done].
    destruct (Request_Encode _); [rewrite Hd in E| |done]; by injection E as <-.
  - unfold write_return in E. destruct (g_writer g); try done. injection E as <-. by destruct werr.
  - unfold read_release in E. destruct (g_reader g); try done. destruct (frame_of _ _); [|done].
    injection E as <-. destruct (Release _ _) as [[] ?]; [done|]. by destruct res.
  - unfold read_complete in E. destruct (g_reader g); try done. by injection E as <-.
  - unfold read_exit in E. destruct (g_reader g); try done. by injection E as <-.
  - unfold tear_done in E. by rewrite Hd in E.
  - unfold tear_pool in E. destruct (_ && _); [|done]. by injection E as <-.
  - by injection E as <-.
  - by injection E as <-.
Qed.

Lemma grun_done sched : forall g g', grun g sched = Some g' -> g_done g = true -> g_done g' = true.
Proof.
  induction sched as [|a sched IH]; intros g g' E Hd; cbn in E; [by injection E as <-|].
  destruct (gstep a g) as [g1|] eqn:E1; [|done]. eapply IH; [exact E|]. by eapply done_stays.
Qed.

(** The connection is at rest: no goroutine of it can move. *)
Definition at_rest (g : gstate) : Prop := forall a, internal a = true -> gstep a g = None.

(** A filled channel lets the waiting call return. *)
Lemma filled_returns g i s l id :
  g_sends g !! i = Some s -> s_pc s = AtWait l id -> filled (g_ps g).1 l ->
  exists c res g', send_wait i c g = Some g' /\
    g_sends g' !! i = Some (mkSend (Returned (Some (l, id)) res) (s_ctx s)).
Proof.
  intros Es Ew (t & Et & Hf). destruct s as [pc ctx]. cbn in Ew. subst pc.
  pose proof (lookup_lt_Some _ _ _ Es) as Hlt. unfold send_wait. rewrite Es.
  destruct (g_ps g) as [h p]. cbn in Et. rewrite Et. destruct Hf as [[r E]|[e E]].
  - eexists WaitResponse, (inl r), _. rewrite E. split; [done|]. cbn. by apply list_lookup_insert_eq.
  - eexists WaitErr, (inr e), _. rewrite E. split; [done|]. cbn. by apply list_lookup_insert_eq.
Qed.

Lemma rest_returned g i s :
  ginv g -> g_done g = true -> at_rest g -> g_sends g !! i = Some s ->
  (exists own res, s_pc s = Returned own res) \/
  (exists l id, s_pc s = AtWait l id /\ l ∈ g_stolen g).
Proof.
  intros I Hd Hr Es. pose proof (gi_pool _ I) as Hp.
  change (pool_inv (g_ps g).1 (g_ps g).2 (held g)) in Hp.
  assert (done_closed (g_ps g).2 = true) as Hc.
  { pose proof (Hr LTearPool eq_refl) as E. cbn in E. unfold tear_pool in E. rewrite Hd in E.
    by destruct (done_closed _). }
  assert (held g = ∅) as Hh.
  { pose proof (Hr LReadComplete eq_refl) as E. cbn in E. unfold read_complete, held in *.
    by destruct (g_reader g). }
  destruct (s_pc s) as [req|l id|l id|own res] eqn:Ew.
  - pose proof (Hr (LPlace i 0) eq_refl) as E. cbn in E. unfold send_place in E. rewrite Es in E.
    destruct s as [pc ctx]. cbn in Ew. subst pc. cbn in E.
    pose proof (Place_no_panic 0 req (g_ps g)) as Hn.
    by destruct (Place 0 req (g_ps g)) as [[[]| |] []].
  - pose proof (Hr (LQueue i QDone) eq_refl) as E. cbn in E. unfold send_select in E.
    rewrite Es, Hd in E. destruct s as [pc ctx]. cbn in Ew. by subst pc.
  - right. exists l, id. split; [done|]. destruct (gi_tended _ I i s l id Es) as [[Ht|[Ht|Ht]]|?];
      [unfold waiting; by rewrite Ew| | | |done].
    + cbn in Ht. rewrite (inv_closed _ _ _ Hp Hc), lookup_empty in Ht. done.
    + destruct (filled_returns g i s l id Es Ew Ht) as (c & res & g' & E & _).
      pose proof (Hr (LWait i c) eq_refl) as E'. cbn in E'. congruence.
    + cbn in Ht. by rewrite Hh, lookup_empty in Ht.
  - by left; eauto.
Qed.

(** ** Properties *)

(** C15: A [Send] returns the answer to its own request.  In every interleaving
    of concurrent calls with the read and write loops, timeouts, resets, context
    cancellations and the teardown, a call that returned a response owned a
    transaction of the pool, the response carries the identifier that transaction's
    request was sent with, and no other call ever owned that transaction. *)
Theorem send_returns_own timeout sched g i s own r :
  grun (fresh_generation timeout) sched = Some g ->
  g_sends g !! i = Some s -> s_pc s = Returned own (inl r) ->
  exists l t, own = Some (l, TransactionID (resp_MBAP r)) /\ (g_ps g).1 !! l = Some t /\
    GetTransactionID (tx_Request t) = TransactionID (resp_MBAP r) /\
    forall j s' id', g_sends g !! j = Some s' -> owns s' = Some (l, id') -> j = i.
Proof.
  intros I%grun_inv Es Epc; [|apply fresh_inv].
  destruct (gi_returned _ I i s Es own r Epc) as (l & id & -> & <-).
  assert (owns s = Some (l, TransactionID (resp_MBAP r))) as Ho by (unfold owns; by rewrite Epc).
  pose proof (gi_owner _ I i s l _ Es Ho) as Ht.
  destruct ((g_ps g).1 !! l) as [t|] eqn:Et; [|done]. injection Ht as Ht.
  exists l, t. repeat split; try done. intros j s' id' Ej Hj.
  exact (gi_uniq _ I j i s' s l id' _ Ej Es Hj Ho).
Qed.

(** C16: No call hangs after the connection is gone.  Once the done channel is
    closed, whatever the interleaving, the goroutines of the connection make at
    most [work g] further moves, and when none of them can move, every call of
    [Send] has returned, except a call whose transaction was released by another
    call; and that needs more than 65536 identifiers drawn on the connection. *)
Theorem sends_drain timeout sched g :
  grun (fresh_generation timeout) sched = Some g -> g_done g = true ->
  forall sched' g', Forall (fun a => internal a = true) sched' -> grun g sched' = Some g' ->
  (length sched' <= work g)%nat /\
  (at_rest g' -> forall i s, g_sends g' !! i = Some s ->
     (exists own res, s_pc s = Returned own res) \/
     (drawn_limit < g_drawn g' /\ exists l id, s_pc s = AtWait l id /\ l ∈ g_stolen g')).
Proof.
  intros I%grun_inv Hd sched' g' Hi E; [|apply fresh_inv]. split.
  { pose proof (work_bounds sched' g g' Hi E). lia. }
  intros Hr i s Es. pose proof (grun_inv _ _ _ E I) as I'.
  destruct (rest_returned g' i s I' (grun_done _ _ _ E Hd) Hr Es) as [?|(l & id & Ew & Hl)];
    [by left|right]. split; [|by eauto].
  destruct (Z_lt_le_dec drawn_limit (g_drawn g')) as [?|Hle]; [done|].
  destruct (gi_early _ I' Hle) as [He _]. rewrite He in Hl. by apply not_elem_of_empty in Hl.
Qed.

(** The timeout monitor unblocks a waiting call: at a tick after its
    transaction's timeout, a call whose response the read loop is not holding can
    return (if no other call released its transaction). *)
Theorem timeout_unblocks timeout sched g now i s l id :
  grun (fresh_generation timeout) sched = Some g ->
  g_sends g !! i = Some s -> s_pc s = AtWait l id -> g_reader g = RIdle ->
  g_drawn g <= drawn_limit ->
  (forall t, (g_ps g).1 !! l = Some t -> timeoutDuration (g_ps g).2 < GetLifetime now t) ->
  exists g1 c res g2, gstep (LTick now) g = Some g1 /\ gstep (LWait i c) g1 = Some g2 /\
    g_sends g2 !! i = Some (mkSend (Returned (Some (l, id)) res) (s_ctx s)).
Proof.
  intros I%grun_inv Es Ew Hrd Hdr Hold; [|apply fresh_inv]. pose proof (gi_pool _ I) as Hp.
  change (pool_inv (g_ps g).1 (g_ps g).2 (held g)) in Hp.
  destruct (gi_early _ I Hdr) as [Hst _].
  exists (with_ps g (checkTimeouts now (g_ps g))).
  assert (filled (checkTimeouts now (g_ps g)).1 l) as Hf.
  { destruct (g_ps g) as [h p] eqn:Eps. cbn [fst snd] in *.
    destruct (gi_tended _ I i s l id Es) as [[Ht|[Ht|Ht]]|Ht]; [unfold waiting; by rewrite Ew|..].
    - unfold gworld in Ht. rewrite Eps in Ht. cbn [fst snd] in Ht.
      destruct (checkTimeouts_spec now h p _ Hp) as (h' & m' & E & _ & _ & Hh). rewrite E.
      destruct (inv_pool _ _ _ Hp id l Ht) as [_ (t & Et & _)]. specialize (Hold t Et).
      exists (Cancel t ErrTransactionTimeout). cbn [fst]. rewrite (Hh id l Ht). unfold expired.
      rewrite Et, (proj2 (Z.ltb_lt _ _) Hold). split; [done|]. right. apply Cancel_filled.
    - apply (checkTimeouts_fills now h p _ Hp). unfold gworld in Ht. by rewrite Eps in Ht.
    - unfold gworld, held in Ht. rewrite Hrd in Ht. cbn in Ht. by rewrite lookup_empty in Ht.
    - rewrite Hst in Ht. by apply not_elem_of_empty in Ht. }
  destruct (filled_returns (with_ps g (checkTimeouts now (g_ps g))) i s l id Es Ew Hf)
    as (c & res & g2 & E & Hr). by exists c, res, g2.
Qed.

(** ** A call that is never woken

    A first call places identifier 0 and stays at its [select] while its
    transaction times out; 65535 other calls place and give up; the next call is
    given identifier 0 again, and the first call, giving up, releases it. *)
Definition quiet_pool (g : gstate) (n : Z) (l0 : loc) : Prop :=
  transactions (g_ps g).2 = ∅ /\ done_closed (g_ps g).2 = false /\ nextID (g_ps g).2 = u32 n /\
  g_connected g = true /\ g_done g = false /\ g_queue g = [] /\ g_writer g = WIdle /\
  g_reader g = RIdle /\
  exists rest, g_sends g = mkSend (AtQueue l0 0) false :: rest /\
    Forall (fun s => exists own res, s_pc s = Returned own res) rest.

Lemma Place_empty now req h p :
  transactions p = ∅ -> done_closed p = false ->
  Place now req (h, p) =
    (Ok (fresh (dom h), SetTransactionID req (u16 (nextID p))),
     (<[fresh (dom h) := NewTransaction now (SetTransactionID req (u16 (nextID p)))]> h,
      mkPool (<[u16 (nextID p) := fresh (dom h)]> ∅) (u32 (nextID p + 1)) false (timeoutDuration p))).
Proof.
  intros Ht Hd. unfold Place. rewrite Hd, Ht. unfold maxIDAttempts. cbn [find_id].
  by rewrite candidate_u16, lookup_empty.
Qed.

Definition give_up_round (i : nat) : list label :=
  [LCall ex_request; LCancel i; LPlace i 0; LQueue i QCtx].

Lemma lookup_last {A} (l : list A) x : (l ++ [x]) !! length l = Some x.
Proof. by rewrite lookup_app_r, Nat.sub_diag. Qed.
Lemma insert_last {A} (l : list A) x y : <[length l := y]> (l ++ [x]) = l ++ [y].
Proof. by rewrite insert_app_r_alt, Nat.sub_diag. Qed.

Lemma round_quiet g n l0 :
  quiet_pool g n l0 -> exists g', grun g (give_up_round (length (g_sends g))) = Some g' /\
    quiet_pool g' (n + 1) l0.
Proof.
  destruct g as [[h p] cn d q ss w r st dr].
  intros (Ht & Hc & Hn & Hcn & Hd & Hq & Hw & Hr & rest & Hs & Hrest). cbn in *. subst.
  eexists. split.
  - unfold give_up_round. cbn [grun gstep]. unfold send_call. cbn [mbind option_bind g_connected].
    unfold cancel_ctx. cbn [g_sends with_sends]. rewrite lookup_last. cbn [s_pc mbind option_bind].
    rewrite insert_last. unfold send_place. cbn [g_sends with_sends with_ps g_ps].
    rewrite lookup_last. cbn [fst snd]. rewrite Place_empty by done. cbn [mbind option_bind].
    unfold goto. cbn [g_sends with_ps with_sends s_ctx g_ps g_connected g_done g_queue g_writer
      g_reader g_stolen]. rewrite insert_last.
    unfold send_select. cbn [g_sends]. rewrite lookup_last. cbn [s_ctx].
    unfold send_give_up. cbn [g_ps]. unfold Release. cbn [transactions].
    cbn [GetTransactionID SetTransactionID req_MBAP TransactionID].
    rewrite lookup_insert_eq. cbn [mbind option_bind].
    unfold goto. cbn [g_sends with_ps with_sends s_ctx]. rewrite insert_last. reflexivity.
  - unfold quiet_pool. cbn [g_ps snd transactions done_closed nextID g_connected g_done g_queue
      g_writer g_reader g_sends unsafeRelease set_transactions with_sends with_ps].
    split; [apply delete_insert_id, lookup_empty|]. split; [done|]. split.
    { rewrite Hn. widths. dlia. }
    repeat (split; [done|]). eexists (rest ++ [_]). split; [done|].
    apply Forall_app. split; [done|]. apply Forall_singleton. cbn. eauto.
Qed.

Lemma rounds_quiet k : forall g n l0, quiet_pool g n l0 ->
  exists sched g', grun g sched = Some g' /\ quiet_pool g' (n + Z.of_nat k) l0.
Proof.
  induction k as [|k IH]; intros g n l0 Hq.
  - exists [], g. rewrite Z.add_0_r. done.
  - destruct (round_quiet g n l0 Hq) as (g1 & E1 & H1).
    destruct (IH g1 (n + 1) l0 H1) as (sched & g' & E & H').
    exists (give_up_round (length (g_sends g)) ++ sched), g'. rewrite grun_app, E1.
    split; [exact E|]. by replace (n + Z.of_nat (S k)) with (n + 1 + Z.of_nat k) by lia.
Qed.

(** A resting connection with all calls returned but one, whose channels are
    empty and whose context is alive. *)
Lemma stuck_at_rest g i l id t ss rest :
  g_sends g = ss :: rest ++ [mkSend (AtWait l id) false] -> i = S (length rest) ->
  Forall (fun s => exists own res, s_pc s = Returned own res) (ss :: rest) ->
  (g_ps g).1 !! l = Some t -> ResponseCh t = None -> ErrCh t = None ->
  g_writer g = WExited -> g_reader g = RIdle -> done_closed (g_ps g).2 = true -> at_rest g.
Proof.
  intros Hs Hi Hret Et Hr He Hw Hrd Hc a Ha.
  assert (forall j s, g_sends g !! j = Some s -> (exists own res, s_pc s = Returned own res) \/
    s = mkSend (AtWait l id) false) as Hall.
  { intros j s Ej. rewrite Hs in Ej. change (ss :: rest ++ ?x) with ((ss :: rest) ++ x) in Ej.
    apply lookup_app_Some in Ej as [Ej|[_ Ej]].
    - left. by eapply Forall_lookup_1 in Hret.
    - right. by apply list_lookup_singleton_Some in Ej as [_ <-]. }
  destruct a; try done; cbn [gstep].
  - unfold send_place. destruct (g_sends g !! i0) as [[pc ctx]|] eqn:E; [|done].
    destruct (Hall _ _ E) as [(own & res & Hp)|[= -> ->]]; [cbn in Hp; by subst pc|done].
  - unfold send_select. destruct (g_sends g !! i0) as [[pc ctx]|] eqn:E; [|done].
    destruct (Hall _ _ E) as [(own & res & Hp)|[= -> ->]]; [cbn in Hp; by subst pc|done].
  - unfold send_wait. destruct (g_sends g !! i0) as [[pc ctx]|] eqn:E; [|done].
    destruct (Hall _ _ E) as [(own & res & Hp)|[= -> ->]]; [cbn in Hp; by subst pc|].
    destruct (g_ps g) as [h p]. cbn in Et. rewrite Et. destruct c; by rewrite ?Hr, ?He.
  - unfold write_exit. by rewrite Hw.
  - unfold write_take. by rewrite Hw.
  - unfold write_check. by rewrite Hw.
  - unfold write_encode. by rewrite Hw.
  - unfold write_return. by rewrite Hw.
  - unfold read_complete. by rewrite Hrd.
  - unfold tear_pool. rewrite Hc. by destruct (g_done g).
Qed.

Definition steal (i : nat) : list label :=
  [LCall ex_request; LPlace i 0; LQueue i QSend; LCancel 0; LQueue 0 QCtx; LTearDone; LTearPool;
   LWriteExit].

Lemma steal_run g l0 :
  quiet_pool g 65536 l0 -> exists g', grun g (steal (length (g_sends g))) = Some g' /\
    g_done g' = true /\ at_rest g' /\
    exists l id, g_sends g' !! length (g_sends g) = Some (mkSend (AtWait l id) false).
Proof.
  destruct g as [[h p] cn d q ss w r st dr].
  intros (Ht & Hc & Hn & Hcn & Hd & Hq & Hw & Hr & rest & Hs & Hrest). cbn in Ht, Hc, Hn, Hs. cbn in *.
  subst. set (A := mkSend (AtQueue l0 0) false). set (lB := fresh (dom h)).
  set (tB := NewTransaction 0 (SetTransactionID ex_request 0)).
  assert (exists g', grun (mkG (h, p) true false [] (A :: rest) WIdle RIdle st dr)
    (steal (length (A :: rest))) = Some g' /\ g_done g' = true /\
    g_sends g' = mkSend (Returned (Some (l0, 0)) (inr CtxDone)) true ::
      rest ++ [mkSend (AtWait lB 0) false] /\
    (g_ps g').1 = alter ctx_done l0 (<[lB := tB]> h) /\ g_writer g' = WExited /\
    g_reader g' = RIdle /\ done_closed (g_ps g').2 = true) as (g' & E & Hd & Hsg & Hh & Hw & Hr & Hcl).
  { eexists. split.
    - unfold steal. cbn [grun gstep]. unfold send_call. cbn [mbind option_bind g_connected].
      unfold send_place. cbn [g_sends with_sends g_ps]. rewrite lookup_last.
      rewrite Place_empty by done. cbn [mbind option_bind]. rewrite Hn. change (u16 (u32 65536)) with 0.
      unfold goto. cbn [g_sends with_ps with_sends s_ctx g_ps g_connected g_done g_queue g_writer
        g_reader g_stolen]. rewrite insert_last.
      unfold send_select. cbn [g_sends]. rewrite lookup_last.
      cbn [g_queue]. change (@length loc [] <? writeChan_cap)%nat with true.
      cbn [mbind option_bind].
      unfold goto. cbn [g_sends with_queue with_sends s_ctx]. rewrite insert_last.
      cbn [GetTransactionID SetTransactionID req_MBAP TransactionID].
      unfold cancel_ctx. cbn [g_sends lookup list_lookup app insert list_insert with_sends s_pc A].
      cbn [mbind option_bind]. cbn [g_sends lookup list_lookup with_sends].
      unfold send_give_up. cbn [g_ps with_ps with_sends with_queue snd fst]. unfold Release.
      cbn [transactions g_ps with_queue snd fst]. by rewrite lookup_insert_eq.
    - by cbn. }
  exists g'. split; [exact E|]. split; [done|]. split.
  - assert (exists t, (g_ps g').1 !! lB = Some t /\ ResponseCh t = None /\ ErrCh t = None)
      as (t & Et & Hrt & Het).
    { rewrite Hh. destruct (decide (l0 = lB)) as [->|Hne].
      - rewrite lookup_alter_eq, lookup_insert_eq. by eexists.
      - rewrite lookup_alter_ne, lookup_insert_eq by done. by eexists. }
    eapply (stuck_at_rest g' _ lB 0 t _ rest Hsg eq_refl); try done.
    apply Forall_cons. split; [cbn; eauto|done].
  - exists lB, 0. rewrite Hsg. cbn. apply lookup_last.
Qed.

(** C17: The one way a call is lost.  There is a run in which a call of [Send]
    whose context is never done hangs although its connection is torn down and
    at rest: a call that gives up in its first [select] releases whatever
    transaction has its identifier, and after 65536 placements that is another
    call's (its own had timed out). *)
Theorem send_can_hang :
  exists sched g i l id, grun (fresh_generation None) sched = Some g /\ g_done g = true /\
    at_rest g /\ g_sends g !! i = Some (mkSend (AtWait l id) false).
Proof.
  destruct (grun (fresh_generation None) [LCall ex_request; LPlace 0 10; LTick 5000000011])
    as [g0|] eqn:E0; [|by vm_compute in E0].
  assert (quiet_pool g0 1 1%positive) as Hq.
  { vm_compute in E0. injection E0 as <-. unfold quiet_pool. cbn.
    repeat (split; [reflexivity|]). exists []. by split. }
  destruct (rounds_quiet (Z.to_nat 65535) g0 1 1%positive Hq) as (s1 & g1 & E1 & Hq1).
  rewrite Z2Nat.id in Hq1 by lia.
  destruct (steal_run g1 1%positive Hq1) as (g2 & E2 & Hd & Hr & l & id & Hl).
  exists ([LCall ex_request; LPlace 0 10; LTick 5000000011] ++ s1 ++ steal (length (g_sends g1))), g2.
  exists (length (g_sends g1)), l, id. rewrite grun_app, E0. cbn [mbind option_bind].
  rewrite grun_app, E1. done.
Qed.

(** ** Concrete runs *)
Definition one_send : list label := [LCall ex_request; LPlace 0 10; LQueue 0 QSend].
Definition answered_run : list label :=
  one_send ++ [LRead 0 (inl ex_response); LReadComplete; LWait 0 WaitResponse].
Definition after (sched : list label) : gstate :=
  default (fresh_generation None) (grun (fresh_generation None) sched).

Lemma send_returns_own_witness :
  exists l t, Some (1%positive, 0) = Some (l, 0) /\ (g_ps (after answered_run)).1 !! l = Some t /\
    GetTransactionID (tx_Request t) = 0.
Proof.
  destruct (send_returns_own None answered_run (after answered_run) 0
    (mkSend (Returned (Some (1%positive, 0)) (inl ex_response)) false) (Some (1%positive, 0))
    ex_response) as (l & t & Ho & Et & Hid & _).
  - vm_compute. reflexivity.
  - vm_compute. reflexivity.
  - reflexivity.
  - exists l, t. split; [exact Ho|]. split; [exact Et|exact Hid].
Defined.

Lemma sends_drain_witness :
  (3 <= work (after (one_send ++ [LTearDone])))%nat.
Proof.
  apply (sends_drain None (one_send ++ [LTearDone]) (after (one_send ++ [LTearDone]))) with
    (sched' := [LTearPool; LWait 0 WaitErr; LWriteExit])
    (g' := after (one_send ++ [LTearDone; LTearPool; LWait 0 WaitErr; LWriteExit])).
  - vm_compute. reflexivity.
  - vm_compute. reflexivity.
  - repeat constructor.
  - vm_compute. reflexivity.
Defined.

Lemma timeout_unblocks_witness :
  exists g1 c res g2, gstep (LTick 5000000011) (after one_send) = Some g1 /\
    gstep (LWait 0 c) g1 = Some g2 /\
    g_sends g2 !! 0%nat = Some (mkSend (Returned (Some (1%positive, 0)) res) false).
Proof.
  apply (timeout_unblocks None one_send (after one_send) 5000000011 0
    (mkSend (AtWait 1%positive 0) false) 1%positive 0).
  - vm_compute. reflexivity.
  - vm_compute. reflexivity.
  - reflexivity.
  - vm_compute. reflexivity.
  - vm_compute. discriminate.
  - intros t E. vm_compute in E. injection E as <-. vm_compute. reflexivity.
Defined.
