(* ===== verification/Transport.v ===== *)
(** * Transports: connection lifecycle management

    Models [transport/direct.go] and [transport/reconnecting.go].  The
    [Connector] and the [Closer] are supplied by a protocol, so they are
    parameters here; they act on the state of the outside world [W].  The
    lifecycle hooks of [options.go] are recorded in a log, with the connection
    they concern.  Every critical section is one function: [Conn] of the
    reconnecting transport is a fast path under the read lock and a slow path
    under the write lock, between which other goroutines may run. *)
From S2P Require Import Prelude.

(** What the hooks observe. *)
Inductive hook (C : Type) : Type :=
| OnConnect (c : C)
| OnDisconnect (c : C) (err : option error).
Arguments OnConnect {C} c.
Arguments OnDisconnect {C} c err.

(** The interface the protocol clients use. *)
Class Transport (C T : Type) : Type := {
  Conn : T -> outcome C * T;
  Reset : C -> T -> T;
  Close : T -> option error * T;
  Peek : T -> bool
}.

Section Transports.
Context {C W : Type} `{EqDecision C}.
Variable zero : C.
Variable connector : W -> outcome C * W.
Variable closer : C -> W -> option error * W.

Definition ErrClosed := Errorf "transport is closed".
Definition ErrReset := Errorf "transport connection was reset".

(** ** DirectTransport *)
Record DirectTransport : Type := mkDirect {
  d_conn : C; d_active : bool; d_closed : bool; d_world : W; d_hooks : list (hook C) }.

Definition NewDirectTransport (w : W) : outcome DirectTransport * W :=
  match connector w with
  | (Ok conn, w) => (Ok (mkDirect conn true false w [OnConnect conn]), w)
  | (Err err, w) => (Err (Wrapf "direct transport connect: %w" err), w)
  | (Panic, w) => (Panic, w)
  end.

Definition Direct_Conn (d : DirectTransport) : outcome C * DirectTransport :=
  if d_closed d then (Err ErrClosed, d)
  else if negb (d_active d) then (Err ErrReset, d)
  else (Ok (d_conn d), d).

Definition Direct_Peek (d : DirectTransport) : bool := d_active d && negb (d_closed d).

Definition Direct_Reset (stale : C) (d : DirectTransport) : DirectTransport :=
  if negb (d_active d) || bool_decide (d_conn d <> stale) then d else
  let '(err, w) := closer (d_conn d) (d_world d) in
  mkDirect zero false (d_closed d) w (d_hooks d ++ [OnDisconnect (d_conn d) err]).

Definition Direct_Close (d : DirectTransport) : option error * DirectTransport :=
  if d_closed d then (None, d) else
  if negb (d_active d)
  then (None, mkDirect (d_conn d) (d_active d) true (d_world d) (d_hooks d)) else
  let '(err, w) := closer (d_conn d) (d_world d) in
  (err, mkDirect zero false true w (d_hooks d ++ [OnDisconnect (d_conn d) err])).

#[export] Instance Direct_Transport : Transport C DirectTransport :=
  {| Conn := Direct_Conn; Reset := Direct_Reset; Close := Direct_Close; Peek := Direct_Peek |}.

(** ** ReconnectingTransport *)
Record ReconnectingTransport : Type := mkReconn {
  r_conn : C; r_closed : bool; r_world : W; r_hooks : list (hook C) }.

Definition NewReconnectingTransport (w : W) : ReconnectingTransport := mkReconn zero false w [].

(** The fast path of [Conn]: [None] sends the caller to the slow path. *)
Definition conn_fast (r : ReconnectingTransport) : option (outcome C) :=
  if r_closed r then Some (Err ErrClosed)
  else if bool_decide (r_conn r <> zero) then Some (Ok (r_conn r)) else None.

Definition conn_slow (r : ReconnectingTransport) : outcome C * ReconnectingTransport :=
  if r_closed r then (Err ErrClosed, r) else
  if bool_decide (r_conn r <> zero) then (Ok (r_conn r), r) else
  match connector (r_world r) with
  | (Ok conn, w) => (Ok conn, mkReconn conn (r_closed r) w (r_hooks r ++ [OnConnect conn]))
  | (Err err, w) => (Err err, mkReconn (r_conn r) (r_closed r) w (r_hooks r))
  | (Panic, w) => (Panic, mkReconn (r_conn r) (r_closed r) w (r_hooks r))
  end.

Definition Reconn_Conn (r : ReconnectingTransport) : outcome C * ReconnectingTransport :=
  match conn_fast r with Some res => (res, r) | None => conn_slow r end.

Definition DialReconnectingTransport (w : W) : outcome ReconnectingTransport * W :=
  match Reconn_Conn (NewReconnectingTransport w) with
  | (Ok _, r) => (Ok r, r_world r)
  | (Err err, r) => (Err (Wrapf "reconnecting transport dial: %w" err), r_world r)
  | (Panic, r) => (Panic, r_world r)
  end.

Definition Reconn_Peek (r : ReconnectingTransport) : bool :=
  negb (r_closed r) && bool_decide (r_conn r <> zero).

Definition Reconn_Reset (stale : C) (r : ReconnectingTransport) : ReconnectingTransport :=
  if bool_decide (r_conn r = zero) || bool_decide (r_conn r <> stale) then r else
  let '(err, w) := closer (r_conn r) (r_world r) in
  mkReconn zero (r_closed r) w (r_hooks r ++ [OnDisconnect (r_conn r) err]).

Definition Reconn_Close (r : ReconnectingTransport) : option error * ReconnectingTransport :=
  if r_closed r then (None, r) else
  if bool_decide (r_conn r = zero) then (None, mkReconn (r_conn r) true (r_world r) (r_hooks r))
  else
    let '(err, w) := closer (r_conn r) (r_world r) in
    (err, mkReconn zero true w (r_hooks r ++ [OnDisconnect (r_conn r) err])).

#[export] Instance Reconnecting_Transport : Transport C ReconnectingTransport :=
  {| Conn := Reconn_Conn; Reset := Reconn_Reset; Close := Reconn_Close; Peek := Reconn_Peek |}.

(** ** Hook logs

    [open_conn hs]: the connection a log leaves open; [None] when the log is not
    an alternation of connects and disconnects of the same connection. *)
Fixpoint log_state (cur : option C) (hs : list (hook C)) : option (option C) :=
  match hs with
  | [] => Some cur
  | OnConnect c :: hs =>
      match cur with None => log_state (Some c) hs | Some _ => None end
  | OnDisconnect c _ :: hs =>
      match cur with
      | Some c' => if decide (c = c') then log_state None hs else None
      | None => None
      end
  end.

Lemma log_state_snoc hs : forall cur x,
  log_state cur (hs ++ [x]) =
    match log_state cur hs with Some cur' => log_state cur' [x] | None => None end.
Proof.
  induction hs as [|[c|c e] hs IH]; intros cur x; cbn [app log_state]; [done| |].
  - destruct cur; [done|]. apply IH.
  - destruct cur as [c'|]; [|done]. destruct (decide (c = c')); [apply IH|done].
Qed.

(** The calls of any number of goroutines, critical section by critical section. *)
Inductive tcall : Type := TConnFast | TConnSlow | TReset (stale : C) | TClose.

Definition tstep (r : ReconnectingTransport) (t : tcall) : ReconnectingTransport :=
  match t with
  | TConnFast => r
  | TConnSlow => (conn_slow r).2
  | TReset stale => Reconn_Reset stale r
  | TClose => (Reconn_Close r).2
  end.

Definition trun (r : ReconnectingTransport) (ts : list tcall) : ReconnectingTransport :=
  fold_left tstep ts r.

(** The connector's contract: a successful [Connect] returns a connection. *)
Definition connector_ok : Prop := forall w c w', connector w = (Ok c, w') -> c <> zero.

Definition current (r : ReconnectingTransport) : option C :=
  if bool_decide (r_conn r = zero) then None else Some (r_conn r).

Definition reconn_inv (r : ReconnectingTransport) : Prop :=
  log_state None (r_hooks r) = Some (current r) /\ (r_closed r = true -> r_conn r = zero).

Lemma tstep_inv r t : connector_ok -> reconn_inv r -> reconn_inv (tstep r t).
Proof.
  intros Hc I. pose proof I as [Hl Hcl]. unfold current in Hl. destruct t as [| |stale|]; cbn [tstep].
  - done.
  - unfold conn_slow. destruct (r_closed r) eqn:Ec; [done|].
    destruct (bool_decide_reflect (r_conn r <> zero)) as [Hn|Hz]; [done|].
    apply dec_stable in Hz. destruct (connector (r_world r)) as [[c|e|] w] eqn:E;
      unfold reconn_inv, current; cbn; try done.
    rewrite log_state_snoc, Hl, (bool_decide_true (r_conn r = zero)) by done. cbn.
    rewrite bool_decide_false by by eapply Hc. split; [done|congruence].
  - unfold Reconn_Reset. destruct (bool_decide_reflect (r_conn r = zero)) as [Hz|Hn]; [done|].
    destruct (bool_decide_reflect (r_conn r <> stale)); [done|]. cbn [orb].
    destruct (closer _ _) as [err w]. unfold reconn_inv, current. cbn.
    rewrite log_state_snoc, Hl. cbn. rewrite decide_True by done.
    rewrite bool_decide_true by done. done.
  - unfold Reconn_Close. destruct (r_closed r) eqn:Ec; [done|].
    destruct (bool_decide_reflect (r_conn r = zero)) as [Hz|Hn].
    { unfold reconn_inv, current. cbn. by rewrite bool_decide_true. }
    destruct (closer _ _) as [err w]. unfold reconn_inv, current. cbn.
    rewrite log_state_snoc, Hl. cbn. rewrite decide_True, bool_decide_true by done. done.
Qed.

Lemma trun_inv ts : forall r, connector_ok -> reconn_inv r -> reconn_inv (trun r ts).
Proof. induction ts as [|t ts IH]; intros r Hc I; [done|]. apply IH; [done|]. by apply tstep_inv. Qed.

Lemma closed_stays ts : forall r, r_closed r = true -> r_closed (trun r ts) = true.
Proof.
  induction ts as [|t ts IH]; intros r E; [done|]. apply IH. destruct t; cbn [tstep].
  - done.
  - unfold conn_slow. by rewrite E.
  - unfold Reconn_Reset. destruct (_ || _); [done|]. by destruct (closer _ _).
  - unfold Reconn_Close. by rewrite E.
Qed.

(** C40: The reconnecting transport never holds two connections.  In any
    interleaving of the fast and slow paths of [Conn] with [Reset] and [Close],
    the hooks fire as an alternation of connect and disconnect of the same
    connection, and a connection is open exactly when [Peek] reports one. *)
Theorem reconnecting_hooks (w : W) (ts : list tcall) :
  connector_ok ->
  let r := trun (NewReconnectingTransport w) ts in
  log_state None (r_hooks r) = Some (if Reconn_Peek r then Some (r_conn r) else None).
Proof.
  intros Hc r. destruct (trun_inv ts (NewReconnectingTransport w)) as [Hl Hcl].
  - done.
  - unfold reconn_inv, current. cbn. by rewrite bool_decide_true.
  - fold r in Hl, Hcl. rewrite Hl. unfold current, Reconn_Peek.
    destruct (r_closed r); cbn [negb andb].
    + by rewrite bool_decide_true by auto.
    + destruct (bool_decide_reflect (r_conn r = zero)) as [Hz|Hn].
      * by rewrite bool_decide_false by auto.
      * by rewrite bool_decide_true.
Qed.

(** [Close] is permanent: after it, whatever other goroutines do, no
    connection is handed out on either path of [Conn] and none is created. *)
Theorem close_permanent (r : ReconnectingTransport) (ts : list tcall) :
  let r' := trun (Reconn_Close r).2 ts in
  conn_fast r' = Some (Err ErrClosed) /\ conn_slow r' = (Err ErrClosed, r') /\
  Reconn_Peek r' = false.
Proof.
  intros r'. assert (r_closed r' = true) as E.
  { apply closed_stays. unfold Reconn_Close. destruct (r_closed r) eqn:E; [done|].
    destruct (bool_decide _); [done|]. by destruct (closer _ _). }
  unfold conn_fast, conn_slow, Reconn_Peek. by rewrite E.
Qed.

(** A reset only hits the connection it names.  Resetting anything but the
    current connection changes nothing, so a goroutine that failed on an old
    connection cannot tear down its successor; resetting the current one closes
    it once and the next [Conn] dials again. *)
Theorem reset_stale (r : ReconnectingTransport) (stale : C) :
  (stale <> r_conn r -> Reconn_Reset stale r = r) /\
  (stale = r_conn r -> r_conn r <> zero ->
     let r' := Reconn_Reset stale r in
     r_hooks r' = r_hooks r ++ [OnDisconnect stale (closer stale (r_world r)).1] /\
     r_world r' = (closer stale (r_world r)).2 /\ Reconn_Peek r' = false /\
     (r_closed r = false -> Reconn_Conn r' = conn_slow r')).
Proof.
  split.
  - intros Hn. unfold Reconn_Reset. rewrite (bool_decide_true (r_conn r <> stale)) by congruence.
    by rewrite orb_true_r.
  - intros -> Hz r'. unfold r', Reconn_Reset. rewrite bool_decide_false by done.
    rewrite (bool_decide_false (r_conn r <> r_conn r)) by (intros H; by apply H). cbn [orb].
    destruct (closer _ _) as [err w]. cbn [r_hooks r_world fst snd]. split; [done|].
    split; [done|]. unfold Reconn_Peek, Reconn_Conn, conn_fast. cbn [r_conn r_closed].
    rewrite bool_decide_false by (intros H; by apply H). split; [apply andb_false_r|].
    intros E. by rewrite E.
Qed.

(** ** The direct transport *)
Definition dstep (d : DirectTransport) (t : tcall) : DirectTransport :=
  match t with
  | TConnFast | TConnSlow => (Direct_Conn d).2
  | TReset stale => Direct_Reset stale d
  | TClose => (Direct_Close d).2
  end.

Lemma dstep_shape c d t :
  (d_active d = true /\ d_closed d = false /\ d_conn d = c /\ d_hooks d = [OnConnect c]) \/
  (d_active d = false /\ exists e, d_hooks d = [OnConnect c; OnDisconnect c e]) ->
  let d' := dstep d t in
  (d_active d' = true /\ d_closed d' = false /\ d_conn d' = c /\ d_hooks d' = [OnConnect c]) \/
  (d_active d' = false /\ exists e, d_hooks d' = [OnConnect c; OnDisconnect c e]).
Proof.
  intros [(Ha & Hc & Hn & Hh)|(Ha & e & Hh)]; destruct t as [| |stale|]; cbn [dstep];
    unfold Direct_Conn, Direct_Reset, Direct_Close; rewrite Ha, ?Hc; cbn [negb orb].
  - by left.
  - by left.
  - destruct (bool_decide _); [by left|]. destruct (closer _ _) as [err w]. right. cbn.
    rewrite Hh, Hn. eauto.
  - destruct (closer _ _) as [err w]. right. cbn. rewrite Hh, Hn. eauto.
  - right. destruct (d_closed d); eauto.
  - right. destruct (d_closed d); eauto.
  - right. eauto.
  - right. destruct (d_closed d); cbn; eauto.
Qed.

(** The direct transport connects once: over its life it fires one connect
    hook and at most one disconnect hook for that connection, and [Conn] returns
    it exactly while it has been neither reset nor closed. *)
Theorem direct_once (w w0 : W) d (ts : list tcall) :
  NewDirectTransport w = (Ok d, w0) ->
  let d' := fold_left dstep ts d in
  (exists c, d_hooks d' = [OnConnect c] /\ Direct_Conn d' = (Ok c, d') /\ Direct_Peek d' = true) \/
  (exists c err e, d_hooks d' = [OnConnect c; OnDisconnect c err] /\
     Direct_Conn d' = (Err e, d') /\ Direct_Peek d' = false).
Proof.
  intros E d'. unfold NewDirectTransport in E.
  destruct (connector w) as [[c|e|] w1]; try discriminate. injection E as <- <-.
  assert (let d := d' in
    (d_active d = true /\ d_closed d = false /\ d_conn d = c /\ d_hooks d = [OnConnect c]) \/
    (d_active d = false /\ exists e, d_hooks d = [OnConnect c; OnDisconnect c e])) as H.
  { unfold d'. clear d'. match goal with |- context [fold_left dstep ts ?d] => set (d0 := d) end.
    assert ((d_active d0 = true /\ d_closed d0 = false /\ d_conn d0 = c /\
      d_hooks d0 = [OnConnect c]) \/ (d_active d0 = false /\ exists e,
      d_hooks d0 = [OnConnect c; OnDisconnect c e])) as H0 by (left; done).
    revert H0. generalize d0. induction ts as [|t ts IH]; intros d1 H1; [exact H1|].
    apply IH. by apply dstep_shape. }
  unfold Direct_Conn, Direct_Peek. destruct H as [(-> & -> & -> & Hh)|(-> & e & Hh)].
  - left. by exists c.
  - right. destruct (d_closed d'); eexists c, e, _; by rewrite Hh.
Qed.
End Transports.

(** A connector that hands out connections 1, 2, 3, ... *)
Definition counting (w : nat) : outcome nat * nat := (Ok (S w), S w).
Definition closing (_ w : nat) : option error * nat := (None, w).

Lemma reconnecting_hooks_witness :
  let r := trun 0%nat counting closing (NewReconnectingTransport 0%nat 0%nat)
    [TConnFast; TConnSlow; TReset 1%nat; TReset 1%nat; TConnSlow; TConnSlow] in
  log_state None (r_hooks r) = Some (Some 2%nat).
Proof.
  intros r. unfold r. rewrite (reconnecting_hooks 0%nat counting closing 0%nat
    [TConnFast; TConnSlow; TReset 1%nat; TReset 1%nat; TConnSlow; TConnSlow]).
  - vm_compute. reflexivity.
  - intros w c w' [= <- <-]. done.
Defined.

Lemma direct_once_witness :
  let d' := fold_left (dstep 0%nat closing) [TConnFast; TReset 7%nat; TReset 1%nat; TClose]
    (mkDirect 1%nat true false 1%nat [OnConnect 1%nat]) in
  (exists c, d_hooks d' = [OnConnect c] /\ Direct_Conn d' = (Ok c, d') /\ Direct_Peek d' = true) \/
  (exists c err e, d_hooks d' = [OnConnect c; OnDisconnect c err] /\
     Direct_Conn d' = (Err e, d') /\ Direct_Peek d' = false).
Proof.
  apply (direct_once 0%nat counting closing 0%nat 1%nat
    (mkDirect 1%nat true false 1%nat [OnConnect 1%nat])). reflexivity.
Defined.

Lemma reset_stale_witness :
  Reconn_Reset 0%nat closing 3%nat (mkReconn 4%nat false 4%nat [OnConnect 4%nat]) =
    mkReconn 4%nat false 4%nat [OnConnect 4%nat].
Proof.
  apply (reset_stale 0%nat counting closing (mkReconn 4%nat false 4%nat [OnConnect 4%nat]) 3%nat).
  done.
Defined.
