(* ===== verification/Plc.v ===== *)
(** * Protocol-agnostic values

    Models [plc/plc.go]: the [Value] a read returns and its integer
    interpretations.  A value is parameterised by the type [D] of data points;
    a nil [DataPoint] is [None].  [Float32]/[Float64] are the raw bits: the
    conversion of the bits to a floating-point number is not modelled. *)
From S2P Require Import Prelude Bytes.

Inductive DataType : Type :=
| TypeUnknown | TypeBool | TypeInt16 | TypeUint16 | TypeInt32 | TypeUint32 | TypeInt64
| TypeUint64 | TypeFloat32 | TypeFloat64 | TypeString | TypeBytes.

Inductive ByteOrder : Type :=
| ByteOrderUnspecified | ByteOrderBigEndian | ByteOrderLittleEndian.

#[export] Instance DataType_EqDecision : EqDecision DataType.
Proof. solve_decision. Defined.
#[export] Instance ByteOrder_EqDecision : EqDecision ByteOrder.
Proof. solve_decision. Defined.

Record Value (D : Type) : Type := mkValue {
  v_DataPoint : option D; Raw : bytes; v_Type : DataType; v_ByteOrder : ByteOrder }.
Arguments mkValue {D}.
Arguments v_DataPoint {D}.
Arguments Raw {D}.
Arguments v_Type {D}.
Arguments v_ByteOrder {D}.

#[export] Instance Value_EqDecision `{EqDecision D} : EqDecision (Value D).
Proof. solve_decision. Defined.

(** The zero [plc.Value{}]. *)
Definition zeroValue {D} : Value D := mkValue None [] TypeUnknown ByteOrderUnspecified.

(** The value of a byte string in either byte order: [order.Uint16/32/64] on a
    slice of exactly that many bytes. *)
Fixpoint le_uint (b : bytes) : Z :=
  match b with [] => 0 | x :: b => x + 256 * le_uint b end.
Definition be_uint (b : bytes) : Z := le_uint (reverse b).

Section Values.
Context {D : Type}.
Implicit Types v : Value D.

(** [byteOrder]: the decoder, or nil. *)
Definition byteOrder v : option (bytes -> Z) :=
  match v_ByteOrder v with
  | ByteOrderBigEndian => Some be_uint
  | ByteOrderLittleEndian => Some le_uint
  | ByteOrderUnspecified => None
  end.

Fixpoint any_nonzero (b : bytes) : bool :=
  match b with [] => false | x :: b => if x =? 0 then any_nonzero b else true end.
Definition Bool v : bool := any_nonzero (Raw v).

(** Conversion to an n-bit signed integer. *)
Definition signed (bits z : Z) : Z := (z + 2 ^ (bits - 1)) mod 2 ^ bits - 2 ^ (bits - 1).

Definition Int v : outcome Z :=
  let n := len (Raw v) in
  if n =? 1 then b ← go_index (Raw v) 0; Ok (signed 8 b)
  else if (n =? 2) || (n =? 4) || (n =? 8) then
    match byteOrder v with
    | None => Err (Errorf "plc: byte order required for %d-byte value")
    | Some order => Ok (signed (8 * n) (order (Raw v)))
    end
  else Err (Errorf "plc: cannot interpret %d bytes as integer").

Definition Uint v : outcome Z :=
  let n := len (Raw v) in
  if n =? 1 then go_index (Raw v) 0
  else if (n =? 2) || (n =? 4) || (n =? 8) then
    match byteOrder v with
    | None => Err (Errorf "plc: byte order required for %d-byte value")
    | Some order => Ok (order (Raw v))
    end
  else Err (Errorf "plc: cannot interpret %d bytes as unsigned integer").

(** [Float32] and [Float64] up to the conversion of the bits. *)
Definition Float32_bits v : outcome Z :=
  if negb (len (Raw v) =? 4) then Err (Errorf "plc: expected 4 bytes for float32, got %d") else
  match byteOrder v with
  | None => Err (Errorf "plc: byte order required for float32")
  | Some order => Ok (order (Raw v))
  end.
Definition Float64_bits v : outcome Z :=
  if negb (len (Raw v) =? 8) then Err (Errorf "plc: expected 8 bytes for float64, got %d") else
  match byteOrder v with
  | None => Err (Errorf "plc: byte order required for float64")
  | Some order => Ok (order (Raw v))
  end.
End Values.

(** ** Lemmas *)

(** [n] bytes of [z], least significant first. *)
Fixpoint le_bytes (n : nat) (z : Z) : bytes :=
  match n with O => [] | S n => u8 z :: le_bytes n (z / 256) end.

Lemma length_le_bytes n : forall z, length (le_bytes n z) = n.
Proof. induction n; intros z; simpl; [done|]. by rewrite IHn. Qed.

Lemma le_uint_le_bytes n : forall z, le_uint (le_bytes n z) = z mod 256 ^ Z.of_nat n.
Proof.
  induction n as [|n IH]; intros z; cbn [le_bytes le_uint].
  - by rewrite Z.mod_1_r.
  - rewrite IH. replace (Z.of_nat (S n)) with (1 + Z.of_nat n) by lia.
    rewrite Z.pow_add_r by lia. change (256 ^ 1) with 256. unfold u8.
    rewrite (Z.rem_mul_r z 256) by lia. done.
Qed.

Lemma le_uint_range b : bytes_ok b -> 0 <= le_uint b < 256 ^ len b.
Proof.
  induction 1 as [|x b Hx _ IH]; cbn [le_uint]; [by unfold len|].
  rewrite len_cons. pose proof (len_nonneg b). rewrite Z.pow_add_r by lia.
  unfold is_u8 in Hx. change (256 ^ 1) with 256. lia.
Qed.
Lemma be_uint_range b : bytes_ok b -> 0 <= be_uint b < 256 ^ len b.
Proof.
  intros H. unfold be_uint. replace (len b) with (len (reverse b)).
  - apply le_uint_range. by apply Forall_reverse.
  - unfold len. by rewrite length_reverse.
Qed.

Lemma order_range {D} (v : Value D) order :
  byteOrder v = Some order -> bytes_ok (Raw v) -> 0 <= order (Raw v) < 256 ^ len (Raw v).
Proof.
  unfold byteOrder. intros E H. destruct (v_ByteOrder v); simplify_eq;
    [by apply be_uint_range|by apply le_uint_range].
Qed.

Lemma signed_range bits z : 0 < bits -> - 2 ^ (bits - 1) <= signed bits z < 2 ^ (bits - 1).
Proof.
  intros Hb. unfold signed. pose proof (Z.mod_pos_bound (z + 2 ^ (bits - 1)) (2 ^ bits)).
  replace (2 ^ bits) with (2 * 2 ^ (bits - 1)) in *.
  - lia.
  - rewrite <-(Z.pow_succ_r 2) by lia. f_equal. lia.
Qed.
Lemma signed_mod bits z : 0 < bits -> (signed bits z) mod 2 ^ bits = z mod 2 ^ bits.
Proof.
  intros Hb. unfold signed. rewrite Zminus_mod_idemp_l. f_equal. lia.
Qed.

(** Signed and unsigned readings of a value agree: on any bytes of length 1,
    2, 4 or 8 with a byte order, [Uint] returns a number of that width, [Int] its
    two's complement reading, congruent modulo the width. *)
Theorem int_uint_agree {D} (v : Value D) :
  bytes_ok (Raw v) -> len (Raw v) ∈ [1; 2; 4; 8] -> v_ByteOrder v <> ByteOrderUnspecified ->
  exists u i, Uint v = Ok u /\ Int v = Ok i /\
    0 <= u < 2 ^ (8 * len (Raw v)) /\
    - 2 ^ (8 * len (Raw v) - 1) <= i < 2 ^ (8 * len (Raw v) - 1) /\
    i mod 2 ^ (8 * len (Raw v)) = u.
Proof.
  intros Hok Hlen Hord.
  assert (exists order, byteOrder v = Some order) as [order Ho].
  { unfold byteOrder. destruct (v_ByteOrder v); [done|eauto..]. }
  assert (exists u, Uint v = Ok u /\ Int v = Ok (signed (8 * len (Raw v)) u) /\
    0 <= u < 256 ^ len (Raw v)) as (u & Hu & Hi & Hr).
  { unfold Uint, Int. rewrite Ho. pose proof (order_range v order Ho Hok) as Hr.
    destruct (Z.eqb_spec (len (Raw v)) 1) as [E1|N1].
    - destruct (Raw v) as [|b [|b' r]] eqn:Er; rewrite ?len_cons, ?len_nil in *; try lia;
        [|pose proof (len_nonneg r); lia].
      inversion_clear Hok as [|? ? Hb _]. exists b. repeat split; apply Hb.
    - assert ((len (Raw v) =? 2) || (len (Raw v) =? 4) || (len (Raw v) =? 8) = true) as ->.
      { repeat (apply elem_of_cons in Hlen as [Hlen|Hlen]; [try lia|]); try lia.
        by apply not_elem_of_nil in Hlen. }
      eauto. }
  assert (0 < 8 * len (Raw v)) as Hpos.
  { pose proof (len_nonneg (Raw v)). destruct (decide (len (Raw v) = 0)) as [E|]; [|lia].
    rewrite E in Hlen. by repeat (apply elem_of_cons in Hlen as [Hlen|Hlen]; [lia|]);
      apply not_elem_of_nil in Hlen. }
  assert (256 ^ len (Raw v) = 2 ^ (8 * len (Raw v))) as Hp.
  { change 256 with (2 ^ 8). rewrite <-Z.pow_mul_r by lia. done. }
  rewrite Hp in Hr. exists u, (signed (8 * len (Raw v)) u).
  split; [done|]. split; [done|]. split; [done|]. split; [by apply signed_range|].
  rewrite signed_mod by done. by apply Z.mod_small.
Qed.

Lemma int_uint_agree_witness :
  exists u i,
    Uint (mkValue (D := unit) None [0xFE; 0xFF] TypeUint16 ByteOrderLittleEndian) = Ok u /\
    Int (mkValue (D := unit) None [0xFE; 0xFF] TypeUint16 ByteOrderLittleEndian) = Ok i /\
    i mod 65536 = u.
Proof.
  destruct (int_uint_agree (mkValue (D := unit) None [0xFE; 0xFF] TypeUint16
    ByteOrderLittleEndian)) as (u & i & Hu & Hi & _ & _ & Hm).
  - decided.
  - decided.
  - done.
  - exists u, i. split; [exact Hu|]. split; [exact Hi|exact Hm].
Defined.
