(* ===== verification/Floats.v ===== *)
(** * Conversions between [float32] and [float64]

    The two conversions of the Go language that the program uses, on IEEE 754
    bit patterns: [float64(x)] of a [float32] is exact, [float32(x)] of a
    [float64] rounds to the nearest representable value, ties to even, overflows
    to an infinity and rounds tiny values to subnormals or zero.  A NaN becomes a
    quiet NaN. *)
From S2P Require Import Prelude.

(** Sign, exponent field and mantissa field. *)
Definition sign32 (b : Z) : Z := b / 2147483648.
Definition exp32 (b : Z) : Z := b / 8388608 mod 256.
Definition man32 (b : Z) : Z := b mod 8388608.
Definition sign64 (b : Z) : Z := b / 9223372036854775808.
Definition exp64 (b : Z) : Z := b / 4503599627370496 mod 2048.
Definition man64 (b : Z) : Z := b mod 4503599627370496.

Definition bits64 (s e m : Z) : Z := s * 9223372036854775808 + e * 4503599627370496 + m.

Definition isNaN32 (b : Z) : bool := (exp32 b =? 255) && negb (man32 b =? 0).

(** [float64(x)] *)
Definition widen (b : Z) : Z :=
  let m := man32 b in
  if exp32 b =? 255
  then bits64 (sign32 b) 2047 (if m =? 0 then 0 else Z.lor (m * 536870912) 2251799813685248)
  else if exp32 b =? 0 then
    if m =? 0 then bits64 (sign32 b) 0 0
    else let k := Z.log2 m in bits64 (sign32 b) (k + 874) ((m - 2 ^ k) * 2 ^ (52 - k))
  else bits64 (sign32 b) (exp32 b + 896) (m * 536870912).

(** [M / 2^sh] rounded to the nearest integer, ties to even. *)
Definition round_even (M sh : Z) : Z :=
  let q := M / 2 ^ sh in
  let r := M mod 2 ^ sh in
  let half := 2 ^ (sh - 1) in
  if (half <? r) || ((r =? half) && Z.odd q) then q + 1 else q.

(** The [float32] nearest to [M * 2^E], without its sign: the unit in the last
    place is [2^u]; a carry out of the mantissa moves into the exponent field. *)
Definition round32 (M E : Z) : Z :=
  if M =? 0 then 0 else
  let u := Z.max (Z.log2 M + E - 23) (-149) in
  let sh := u - E in
  let q := if sh <=? 0 then M * 2 ^ (- sh) else round_even M sh in
  Z.min ((u + 149) * 8388608 + q) 2139095040.

(** [float32(x)] *)
Definition narrow (b : Z) : Z :=
  let m := man64 b in
  sign64 b * 2147483648 +
  (if exp64 b =? 2047
   then 2139095040 + (if m =? 0 then 0 else Z.lor (m / 536870912) 4194304)
   else if exp64 b =? 0 then round32 m (-1074)
   else round32 (4503599627370496 + m) (exp64 b - 1075)).

(** ** Lemmas *)
Lemma bits64_fields s e m :
  0 <= s <= 1 -> 0 <= e < 2048 -> 0 <= m < 4503599627370496 ->
  sign64 (bits64 s e m) = s /\ exp64 (bits64 s e m) = e /\ man64 (bits64 s e m) = m.
Proof. intros Hs He Hm. unfold sign64, exp64, man64, bits64. dlia. Qed.

Lemma fields32 b :
  0 <= b < 4294967296 ->
  b = sign32 b * 2147483648 + exp32 b * 8388608 + man32 b /\
  0 <= sign32 b <= 1 /\ 0 <= exp32 b < 256 /\ 0 <= man32 b < 8388608.
Proof. intros Hb. unfold sign32, exp32, man32. dlia. Qed.

(** Rounding an exact multiple. *)
Lemma round_even_exact q sh : 0 < sh -> round_even (q * 2 ^ sh) sh = q.
Proof.
  intros Hs. assert (0 < 2 ^ sh) by (apply Z.pow_pos_nonneg; lia).
  assert (0 < 2 ^ (sh - 1)) by (apply Z.pow_pos_nonneg; lia).
  unfold round_even. rewrite Z.div_mul, Z.mod_mul by lia.
  destruct (Z.ltb_spec (2 ^ (sh - 1)) 0); [lia|]. destruct (Z.eqb_spec 0 (2 ^ (sh - 1))); [lia|done].
Qed.

Lemma log2_scaled m k n : 0 <= n -> 2 ^ k <= m < 2 ^ (k + 1) -> 0 <= k -> Z.log2 (m * 2 ^ n) = k + n.
Proof.
  intros Hn Hm Hk. assert (0 < 2 ^ k) by (apply Z.pow_pos_nonneg; lia).
  rewrite Z.log2_mul_pow2 by lia. rewrite (Z.log2_unique m k) by lia. lia.
Qed.

(** A value with at most 24 significant bits above [2^-149] is not rounded. *)
Lemma round32_exact m k n E :
  0 <= k <= 23 -> 2 ^ k <= m < 2 ^ (k + 1) -> 0 < n -> -149 <= k + n + E - 23 \/ n + E = -149 ->
  k = 23 \/ n + E = -149 -> m < 16777216 -> n + E + 149 < 254 -> -149 <= n + E ->
  round32 (m * 2 ^ n) E = (n + E + 149) * 8388608 + m.
Proof.
  intros Hk Hm Hn Hu Hku Hm24 He Hlow. unfold round32.
  assert (0 < 2 ^ k) by (apply Z.pow_pos_nonneg; lia).
  assert (0 < 2 ^ n) by (apply Z.pow_pos_nonneg; lia).
  destruct (Z.eqb_spec (m * 2 ^ n) 0); [nia|]. rewrite (log2_scaled m k n) by lia.
  replace (Z.max (k + n + E - 23) (-149)) with (n + E) by lia.
  destruct (Z.leb_spec (n + E - E) 0); [lia|].
  replace (n + E - E) with n by lia. rewrite round_even_exact by lia. lia.
Qed.

(** ** Properties *)

(** Widening loses nothing: narrowing the widened value gives the same bits
    back, for every [float32] that is not a NaN, infinities, zeros of both signs
    and subnormals included. *)
Theorem narrow_widen b : 0 <= b < 4294967296 -> isNaN32 b = false -> narrow (widen b) = b.
Proof.
  intros Hb Hn. destruct (fields32 b Hb) as (Eb & Hs & He & Hm). unfold isNaN32 in Hn. unfold widen.
  destruct (Z.eqb_spec (exp32 b) 255) as [E|NE].
  { destruct (Z.eqb_spec (man32 b) 0) as [Em|]; [|done]. unfold narrow.
    destruct (bits64_fields (sign32 b) 2047 0) as (-> & -> & ->); [lia..|].
    change (2047 =? 2047) with true. cbn [Z.eqb]. lia. }
  destruct (Z.eqb_spec (exp32 b) 0) as [E0|NE0].
  - destruct (Z.eqb_spec (man32 b) 0) as [Em|NEm].
    + unfold narrow. destruct (bits64_fields (sign32 b) 0 0) as (-> & -> & ->); [lia..|].
      change (round32 0 (-1074)) with 0. cbn [Z.eqb]. lia.
    + set (k := Z.log2 (man32 b)). pose proof (Z.log2_spec (man32 b) ltac:(lia)) as Hk.
      fold k in Hk. assert (0 <= k <= 22) as Hk22.
      { split; [apply Z.log2_nonneg|]. assert (k < 23); [|lia]. apply Z.log2_lt_pow2; [lia|].
        change (2 ^ 23) with 8388608. lia. }
      assert (0 < 2 ^ k) by (apply Z.pow_pos_nonneg; lia).
      assert (0 < 2 ^ (52 - k)) by (apply Z.pow_pos_nonneg; lia).
      assert (2 ^ k * 2 ^ (52 - k) = 4503599627370496) as Hpow.
      { rewrite <-Z.pow_add_r by lia. by replace (k + (52 - k)) with 52 by lia. }
      rewrite <-Z.add_1_r in Hk. rewrite Z.pow_add_r in Hk by lia. change (2 ^ 1) with 2 in Hk.
      assert (0 <= (man32 b - 2 ^ k) * 2 ^ (52 - k) < 4503599627370496) as Hmm by nia.
      unfold narrow. destruct (bits64_fields (sign32 b) (k + 874) ((man32 b - 2 ^ k) * 2 ^ (52 - k)))
        as (-> & -> & ->); [lia..|].
      destruct (Z.eqb_spec (k + 874) 2047); [lia|]. destruct (Z.eqb_spec (k + 874) 0); [lia|].
      replace (4503599627370496 + (man32 b - 2 ^ k) * 2 ^ (52 - k)) with (man32 b * 2 ^ (52 - k))
        by (rewrite Z.mul_sub_distr_r; lia).
      rewrite (round32_exact (man32 b) k (52 - k)); try lia.
      rewrite Z.pow_add_r by lia. lia.
  - unfold narrow. destruct (bits64_fields (sign32 b) (exp32 b + 896) (man32 b * 536870912))
      as (-> & -> & ->); [lia..|].
    destruct (Z.eqb_spec (exp32 b + 896) 2047); [lia|]. destruct (Z.eqb_spec (exp32 b + 896) 0); [lia|].
    replace (4503599627370496 + man32 b * 536870912) with ((8388608 + man32 b) * 2 ^ 29) by lia.
    rewrite (round32_exact (8388608 + man32 b) 23 29); lia.
Qed.

(** 1/3 as a [float32], one past the largest [float32], the smallest subnormal,
    and a tie. *)
Example widen_third : widen 0x3EAAAAAB = 0x3FD5555560000000.
Proof. reflexivity. Qed.
Example narrow_overflow : narrow 0x47EFFFFFF0000000 = 0x7F800000 /\ narrow 0x47EFFFFFEFFFFFFF = 0x7F7FFFFF.
Proof. split; reflexivity. Qed.
Example narrow_tiny : narrow 0x36A0000000000000 = 1 /\ narrow 0x3690000000000000 = 0 /\ narrow 0x3690000000000001 = 1.
Proof. repeat split; reflexivity. Qed.
Example narrow_tie : narrow 0x3FF0000010000000 = 0x3F800000 /\ narrow 0x3FF0000030000000 = 0x3F800002.
Proof. split; reflexivity. Qed.

Lemma narrow_widen_witness : narrow (widen 0x80000001) = 0x80000001.
Proof. apply (narrow_widen 0x80000001); [lia|reflexivity]. Defined.
