(* ===== verification/ModbusClient.v ===== *)
(** * The Modbus client

    Models [protocol/modbus/client.go]: the retry loop [send], the Modbus
    operations and the [plc.PLC] view of the client, over the [Transport]
    interface.  A connection's [Send] is a parameter here ([Link]): what a call
    observes of [TCPConn.Send] is a response or an error.  Sleeping between
    attempts and the default deadline have no effect on the results. *)
From S2P Require Import Prelude Bytes ModbusTypes ModbusFrame ModbusProtocol Transport Plc.
From S2P Require Import ModbusStore ModbusHandlers ModbusSpec.
Import Handler.

(** ** Data points (datapoint.go); a type the client does not know is [OtherPoint] *)
Inductive DataPoint : Type :=
| HoldingRegister (Addr Qty : Z)
| InputRegister (Addr Qty : Z)
| Coil (Addr Qty : Z)
| DiscreteInput (Addr Qty : Z)
| OtherPoint (name : string).

#[export] Instance DataPoint_EqDecision : EqDecision DataPoint.
Proof. solve_decision. Defined.

(** What [TCPConn.Send] gives a caller that holds a connection of type [C]. *)
Class Link (C T : Type) : Type := Send : C -> Request -> T -> outcome Response * T.

Record Client : Type := mkClientCfg { unitID : Z; retries : Z }.

(** [registersToBytes] and [boolsToBytes]. *)
Definition registersToBytes (regs : list Z) : outcome bytes :=
  buf ← go_make (len regs * 2); pack_regs 0 0 regs buf.
Definition boolsToBytes (vals : list bool) : outcome bytes :=
  buf ← go_make ((len vals + 7) / 8); pack_bits 0 0 vals buf.

Section ClientOps.
Context {C T : Type} `{Transport C T} `{Link C T}.
Variable c : Client.
(** [time.Now()] when the request is built. *)
Variable now : Z.

(** One round of the loop in [send]: go round again with an error, or return. *)
Definition attempt (request : Request) (t : T) : (error + outcome Response) * T :=
  match Conn t with
  | (Err err, t) => (inl err, t)
  | (Panic, t) => (inr Panic, t)
  | (Ok conn, t) =>
      match Send conn request t with
      | (Panic, t) => (inr Panic, t)
      | (Err err, t) =>
          if IsModbusError err then (inr (Err err), t) else (inl err, Reset conn t)
      | (Ok response, t) =>
          if Response_IsException response then
            match Response_ToError response with
            | Ok (Some err) => (inr (Err err), t)
            | Ok None => (inr (Ok response), t)
            | _ => (inr Panic, t)
            end
          else (inr (Ok response), t)
      end
  end.

(** The loop, [n] attempts left; [lastErr] is nil before the first failure. *)
Fixpoint send_loop (n : nat) (request : Request) (lastErr : option error) (t : T)
  : outcome Response * T :=
  match n with
  | O => (match lastErr with
          | Some err => Err (Wrapf "modbus: all %d attempts failed: %w" err)
          | None => Err (Errorf "modbus: all %d attempts failed: %w")
          end, t)
  | S n =>
      match attempt request t with
      | (inr r, t) => (r, t)
      | (inl err, t) => send_loop n request (Some err) t
      end
  end.

Definition send (functionCode : Z) (data : bytes) : SM T Response :=
  send_loop (Z.to_nat (1 + retries c)) (NewRequest now (unitID c) functionCode data) None.

(** ** Operations *)
Definition Client_ReadCoils (address quantity : Z) : SM T (list bool) :=
  requestData ← pure (GenerateReadCoilsRequest address quantity);
  response ← send FuncReadCoils requestData;
  pure (ParseReadCoilsResponse (Data (resp_PDU response)) quantity).
Definition Client_ReadDiscreteInputs (address quantity : Z) : SM T (list bool) :=
  requestData ← pure (GenerateReadDiscreteInputsRequest address quantity);
  response ← send FuncReadDiscreteInputs requestData;
  pure (ParseReadDiscreteInputsResponse (Data (resp_PDU response)) quantity).
Definition Client_ReadHoldingRegisters (address quantity : Z) : SM T (list Z) :=
  requestData ← pure (GenerateReadHoldingRegistersRequest address quantity);
  response ← send FuncReadHoldingRegisters requestData;
  pure (ParseReadHoldingRegistersResponse (Data (resp_PDU response)) quantity).
Definition Client_ReadInputRegisters (address quantity : Z) : SM T (list Z) :=
  requestData ← pure (GenerateReadInputRegistersRequest address quantity);
  response ← send FuncReadInputRegisters requestData;
  pure (ParseReadInputRegistersResponse (Data (resp_PDU response)) quantity).
Definition Client_WriteSingleCoil (address : Z) (value : bool) : SM T unit :=
  requestData ← pure (GenerateWriteSingleCoilRequest address value);
  response ← send FuncWriteSingleCoil requestData;
  r ← pure (ParseWriteSingleCoilResponse (Data (resp_PDU response)));
  match r.2 with Some err => pure (Err err) | None => mret tt end.
Definition Client_WriteSingleRegister (address value : Z) : SM T unit :=
  requestData ← pure (GenerateWriteSingleRegisterRequest address value);
  response ← send FuncWriteSingleRegister requestData;
  _ ← pure (ParseWriteSingleRegisterResponse (Data (resp_PDU response)));
  mret tt.
Definition Client_WriteMultipleCoils (address : Z) (values : list bool) : SM T unit :=
  requestData ← pure (GenerateWriteMultipleCoilsRequest address values);
  response ← send FuncWriteMultipleCoils requestData;
  _ ← pure (ParseWriteMultipleCoilsResponse (Data (resp_PDU response)));
  mret tt.
Definition Client_WriteMultipleRegisters (address : Z) (values : list Z) : SM T unit :=
  requestData ← pure (GenerateWriteMultipleRegistersRequest address values);
  response ← send FuncWriteMultipleRegisters requestData;
  _ ← pure (ParseWriteMultipleRegistersResponse (Data (resp_PDU response)));
  mret tt.
Definition Client_ReadWriteMultipleRegisters
  (readAddress readQuantity writeAddress : Z) (writeValues : list Z) : SM T (list Z) :=
  requestData ← pure (GenerateReadWriteMultipleRegistersRequest readAddress readQuantity
                        writeAddress writeValues);
  response ← send FuncReadWriteMultipleRegisters requestData;
  pure (ParseReadWriteMultipleRegistersResponse (Data (resp_PDU response)) readQuantity).
Definition Client_ReadExceptionStatus : SM T Z :=
  requestData ← pure GenerateReadExceptionStatusRequest;
  response ← send FuncReadExceptionStatus requestData;
  pure (ParseReadExceptionStatusResponse (Data (resp_PDU response))).
Definition Client_ReadDeviceIdentification (readDeviceIDCode objectID : Z)
  : SM T DeviceIdentification :=
  requestData ← pure (GenerateReadDeviceIdentificationRequest readDeviceIDCode objectID);
  response ← send FuncReadDeviceIdentification requestData;
  pure (ParseReadDeviceIdentificationResponse (Data (resp_PDU response))).

(** ** The plc.PLC view *)
Definition reg_type (Qty : Z) : DataType := if 1 <? Qty then TypeBytes else TypeUint16.

Definition readDataPoint (dp : DataPoint) : SM T (Value DataPoint) :=
  match dp with
  | HoldingRegister Addr Qty =>
      regs ← Client_ReadHoldingRegisters Addr Qty;
      raw ← pure (registersToBytes regs);
      mret (mkValue None raw (reg_type Qty) ByteOrderBigEndian)
  | InputRegister Addr Qty =>
      regs ← Client_ReadInputRegisters Addr Qty;
      raw ← pure (registersToBytes regs);
      mret (mkValue None raw (reg_type Qty) ByteOrderBigEndian)
  | Coil Addr Qty =>
      vals ← Client_ReadCoils Addr Qty;
      raw ← pure (boolsToBytes vals);
      mret (mkValue None raw TypeBool ByteOrderBigEndian)
  | DiscreteInput Addr Qty =>
      vals ← Client_ReadDiscreteInputs Addr Qty;
      raw ← pure (boolsToBytes vals);
      mret (mkValue None raw TypeBool ByteOrderBigEndian)
  | OtherPoint _ => pure (Err (Errorf "modbus read: unsupported data point type %T"))
  end.

Definition set_point (v : Value DataPoint) (dp : DataPoint) : Value DataPoint :=
  mkValue (Some dp) (Raw v) (v_Type v) (v_ByteOrder v).

Fixpoint Client_Read (points : list DataPoint) : SM T (list (Value DataPoint)) :=
  match points with
  | [] => mret []
  | dp :: points =>
      val ← readDataPoint dp;
      rest ← Client_Read points;
      mret (set_point val dp :: rest)
  end.

(** [values[i] = (data[i/8] >> (i%8)) & 1 == 1] when the byte is there. *)
Definition coil_bit (data : bytes) (i : Z) : bool :=
  match data !! Z.to_nat (i / 8) with
  | Some b => Z.land (Z.shiftr b (i mod 8)) 1 =? 1
  | None => false
  end.

Definition Client_Write (point : DataPoint) (data : bytes) : SM T unit :=
  match point with
  | HoldingRegister Addr Qty =>
      if (Qty =? 1) && (len data =? 2) then
        value ← pure (get_be16 data); Client_WriteSingleRegister Addr value
      else if negb (len data mod 2 =? 0)
      then pure (Err (Errorf "modbus write: data length %d is not a multiple of 2"))
      else
        values ← pure (mapO (get_reg data 0) (iota (len data / 2)));
        Client_WriteMultipleRegisters Addr values
  | Coil Addr Qty =>
      if (Qty =? 1) && (1 <=? len data) then
        b ← pure (go_index data 0); Client_WriteSingleCoil Addr (negb (b =? 0))
      else Client_WriteMultipleCoils Addr (map (coil_bit data) (iota Qty))
  | _ => pure (Err (Errorf "modbus write: unsupported data point type %T"))
  end.

Definition Client_Connect : SM T unit := fun t =>
  match Conn t with (Ok _, t) => (Ok tt, t) | (Err e, t) => (Err e, t) | (Panic, t) => (Panic, t) end.
Definition Client_Disconnect : SM T unit := fun t =>
  match Close t with (Some e, t) => (Err e, t) | (None, t) => (Ok tt, t) end.
Definition Client_IsConnected (t : T) : bool := Peek t.
End ClientOps.

(** ** The retry loop *)
Section Retries.
Context {C T : Type} `{Transport C T} `{Link C T}.

(** [k] attempts in a row that all fail in a way that is retried. *)
Fixpoint failing (k : nat) (request : Request) (e : option error) (t : T)
  : option (option error * T) :=
  match k with
  | O => Some (e, t)
  | S k =>
      match attempt request t with
      | (inl err, t) => failing k request (Some err) t
      | _ => None
      end
  end.

Lemma send_loop_spec n request : forall e t r t',
  send_loop n request e t = (r, t') ->
  exists k e' tk, (k <= n)%nat /\ failing k request e t = Some (e', tk) /\
    ((k < n)%nat /\ attempt request tk = (inr r, t') \/
     k = n /\ t' = tk /\ (send_loop 0 request e' tk).1 = r).
Proof.
  induction n as [|n IH]; intros e t r t' E.
  - exists 0%nat, e, t. split; [lia|]. split; [done|]. right.
    cbn [send_loop] in E |- *. by injection E as <- <-.
  - cbn [send_loop] in E. destruct (attempt request t) as [[err|x] t1] eqn:Ea.
    + destruct (IH _ _ _ _ E) as (k & e' & tk & Hk & Hf & Hc).
      exists (S k), e', tk. split; [lia|]. split; [cbn [failing]; by rewrite Ea|].
      destruct Hc as [[Hk' Hc]|(-> & Hc)]; [left; split; [lia|done]|by right].
    + injection E as <- <-. exists 0%nat, e, t. split; [lia|]. split; [done|].
      left. split; [lia|done].
Qed.

(** The retry loop.  [send] makes at most [1 + retries] attempts; it returns
    the outcome of the first attempt that is not a transport failure, and only
    when all of them are transport failures the error wrapping the last one. *)
Theorem send_retries (c : Client) now fc data t r t' :
  send c now fc data t = (r, t') ->
  let request := NewRequest now (unitID c) fc data in
  let attempts := Z.to_nat (1 + retries c) in
  exists k e tk, (k <= attempts)%nat /\ failing k request None t = Some (e, tk) /\
    ((k < attempts)%nat /\ attempt request tk = (inr r, t') \/
     k = attempts /\ t' = tk /\
     r = match e with
         | Some err => Err (Wrapf "modbus: all %d attempts failed: %w" err)
         | None => Err (Errorf "modbus: all %d attempts failed: %w")
         end).
Proof.
  intros E request attempts. destruct (send_loop_spec _ _ _ _ _ _ E)
    as (k & e & tk & Hk & Hf & Hc). exists k, e, tk. split; [done|]. split; [done|].
  destruct Hc as [Hc|(-> & -> & <-)]; [by left|by right].
Qed.
End Retries.

(** ** What a client needs of its link

    [DeviceLink]: a link behind which a device executes valid operations on its
    memory.  The client's theorems are proved against it; [server_link] below
    discharges it with the server's dispatcher. *)
Class DeviceLink (C T : Type) `{Transport C T} `{Link C T} : Type := {
  link_ok : T -> Prop;
  device : T -> Memory;
  device_u16 : forall t x, link_ok t -> is_u16 (holding (device t) x) /\ is_u16 (input (device t) x);
  link_conn : forall t, link_ok t -> exists c, Conn t = (Ok c, t);
  link_exec : forall t c req o, link_ok t -> op_ok o -> carries o (data_of req) ->
    fc_of req = op_fc o ->
    exists t' tid u, Send c req t =
        (Ok (NewResponse tid u (op_fc o) (reply_bytes o (device t'))), t') /\
      link_ok t' /\ device t' ≡ effect o (device t)
}.

Lemma op_fc_normal o tid u d : Response_IsException (NewResponse tid u (op_fc o) d) = false.
Proof. by destruct o. Qed.

Lemma registersToBytes_spec regs : registersToBytes regs = Ok (regs_to_bytes regs).
Proof.
  unfold registersToBytes, go_make. pose proof (len_nonneg regs). rewrite decide_True by lia.
  go_bind. apply (pack_regs_fresh regs [] 0 0); [done|]. unfold len. lia.
Qed.
Lemma boolsToBytes_spec vals : boolsToBytes vals = Ok (bits_to_bytes vals).
Proof.
  unfold boolsToBytes, go_make. pose proof (ceil8_nonneg (len vals) (len_nonneg vals)).
  unfold ceil8 in *. rewrite decide_True by lia. go_bind.
  by apply (pack_bits_fresh [] vals 0).
Qed.

Section ClientLemmas.
Context {C T : Type} `{DeviceLink C T}.
Variable c : Client.
Variable now : Z.
Hypothesis retries_ok : 0 <= retries c.

(** A valid operation succeeds at the first attempt. *)
Lemma send_exec o t :
  op_ok o -> link_ok t ->
  exists resp t', send c now (op_fc o) (payload o) t = (Ok resp, t') /\
    Data (resp_PDU resp) = reply_bytes o (device t') /\ link_ok t' /\
    device t' ≡ effect o (device t).
Proof.
  intros Ho Ht. unfold send. destruct (Z.to_nat (1 + retries c)) as [|n] eqn:En; [lia|].
  destruct (link_conn t Ht) as [conn Hc].
  destruct (link_exec t conn (NewRequest now (unitID c) (op_fc o) (payload o)) o)
    as (t' & tid & u & Hs & Ht' & Hd); [done|done|by apply payload_carries|done|].
  eexists _, t'. cbn [send_loop]. unfold attempt. rewrite Hc, Hs, op_fc_normal.
  split; [done|]. done.
Qed.

(** The shape of every client operation: generate, send, continue with the
    response. *)
Lemma client_op {A} o (k : Response -> SM T A) t :
  op_ok o -> link_ok t ->
  exists resp t', (requestData ← pure (generate o);
                   response ← send c now (op_fc o) requestData;
                   k response) t = k resp t' /\
    parse o (Data (resp_PDU resp)) = Ok (answer o (device t')) /\
    link_ok t' /\ device t' ≡ effect o (device t).
Proof.
  intros Ho Ht. destruct (send_exec o t Ho Ht) as (resp & t' & Hs & Hd & Ht' & He).
  exists resp, t'. rewrite generate_payload, SM_bind_pure_Ok by done.
  rewrite (SM_bind_Ok _ _ _ _ _ Hs), Hd. split; [done|]. split; [|done].
  apply parse_reply; [done|]. intros x. by apply device_u16.
Qed.

Lemma ReadCoils_device a q t :
  is_u16 a -> 0 < q <= MaxCoilCount -> link_ok t ->
  exists t', Client_ReadCoils c now a q t = (Ok (cells (coil (device t)) a q), t') /\
    link_ok t' /\ device t' ≡ device t.
Proof.
  intros Ha Hq Ht. destruct (client_op (OpReadCoils a q)
    (fun r => pure (ParseReadCoilsResponse (Data (resp_PDU r)) q)) t)
    as (resp & t' & E & Hp & Ht' & He); [done|done|].
  exists t'. split; [|done]. etransitivity; [exact E|]. cbn [parse answer] in Hp.
  unfold pure. destruct (ParseReadCoilsResponse _ q); cbn in Hp; simplify_eq.
  f_equal. f_equal. apply cells_ext. intros x Hx. by apply (He x Hx).
Qed.
Lemma ReadDiscreteInputs_device a q t :
  is_u16 a -> 0 < q <= MaxCoilCount -> link_ok t ->
  exists t', Client_ReadDiscreteInputs c now a q t = (Ok (cells (discrete (device t)) a q), t') /\
    link_ok t' /\ device t' ≡ device t.
Proof.
  intros Ha Hq Ht. destruct (client_op (OpReadDiscreteInputs a q)
    (fun r => pure (ParseReadDiscreteInputsResponse (Data (resp_PDU r)) q)) t)
    as (resp & t' & E & Hp & Ht' & He); [done|done|].
  exists t'. split; [|done]. etransitivity; [exact E|]. cbn [parse answer] in Hp.
  unfold pure. destruct (ParseReadDiscreteInputsResponse _ q); cbn in Hp; simplify_eq.
  f_equal. f_equal. apply cells_ext. intros x Hx. by apply (He x Hx).
Qed.
Lemma ReadHoldingRegisters_device a q t :
  is_u16 a -> 0 < q <= MaxRegisterCount -> link_ok t ->
  exists t', Client_ReadHoldingRegisters c now a q t = (Ok (cells (holding (device t)) a q), t') /\
    link_ok t' /\ device t' ≡ device t.
Proof.
  intros Ha Hq Ht. destruct (client_op (OpReadHoldingRegisters a q)
    (fun r => pure (ParseReadHoldingRegistersResponse (Data (resp_PDU r)) q)) t)
    as (resp & t' & E & Hp & Ht' & He); [done|done|].
  exists t'. split; [|done]. etransitivity; [exact E|]. cbn [parse answer] in Hp.
  unfold pure. destruct (ParseReadHoldingRegistersResponse _ q); cbn in Hp; simplify_eq.
  f_equal. f_equal. apply cells_ext. intros x Hx. by apply (He x Hx).
Qed.
Lemma ReadInputRegisters_device a q t :
  is_u16 a -> 0 < q <= MaxRegisterCount -> link_ok t ->
  exists t', Client_ReadInputRegisters c now a q t = (Ok (cells (input (device t)) a q), t') /\
    link_ok t' /\ device t' ≡ device t.
Proof.
  intros Ha Hq Ht. destruct (client_op (OpReadInputRegisters a q)
    (fun r => pure (ParseReadInputRegistersResponse (Data (resp_PDU r)) q)) t)
    as (resp & t' & E & Hp & Ht' & He); [done|done|].
  exists t'. split; [|done]. etransitivity; [exact E|]. cbn [parse answer] in Hp.
  unfold pure. destruct (ParseReadInputRegistersResponse _ q); cbn in Hp; simplify_eq.
  f_equal. f_equal. apply cells_ext. intros x Hx. by apply (He x Hx).
Qed.

Lemma get_be16_regs v : is_u16 v -> get_be16 (regs_to_bytes [v]) = Ok v.
Proof. intros Hv. unfold regs_to_bytes. cbn [flat_map]. rewrite app_nil_r. by apply get_be16_exact. Qed.

Lemma WriteSingleRegister_device a v t :
  is_u16 a -> is_u16 v -> link_ok t ->
  exists t', Client_WriteSingleRegister c now a v t = (Ok tt, t') /\
    link_ok t' /\ device t' ≡ write_holding (device t) a [v].
Proof.
  intros Ha Hv Ht. destruct (client_op (OpWriteSingleRegister a v)
    (fun r => _ ← pure (ParseWriteSingleRegisterResponse (Data (resp_PDU r))); mret tt) t)
    as (resp & t' & E & Hp & Ht' & He); [done|done|].
  exists t'. split; [|done]. etransitivity; [exact E|]. cbn [parse] in Hp.
  by destruct (ParseWriteSingleRegisterResponse _).
Qed.
Lemma WriteMultipleRegisters_device a vs t :
  is_u16 a -> 0 < len vs <= MaxWriteRegisterCount -> Forall is_u16 vs -> link_ok t ->
  exists t', Client_WriteMultipleRegisters c now a vs t = (Ok tt, t') /\
    link_ok t' /\ device t' ≡ write_holding (device t) a vs.
Proof.
  intros Ha Hl Hvs Ht. destruct (client_op (OpWriteMultipleRegisters a vs)
    (fun r => _ ← pure (ParseWriteMultipleRegistersResponse (Data (resp_PDU r))); mret tt) t)
    as (resp & t' & E & Hp & Ht' & He); [done|done|].
  exists t'. split; [|done]. etransitivity; [exact E|]. cbn [parse] in Hp.
  by destruct (ParseWriteMultipleRegistersResponse _).
Qed.

Lemma write_regs_device a vs t :
  is_u16 a -> 0 < len vs <= MaxWriteRegisterCount -> Forall is_u16 vs -> link_ok t ->
  exists t', Client_Write c now (HoldingRegister a (len vs)) (regs_to_bytes vs) t = (Ok tt, t') /\
    link_ok t' /\ device t' ≡ write_holding (device t) a vs.
Proof.
  intros Ha Hl Hvs Ht. unfold Client_Write. rewrite len_regs_to_bytes.
  destruct (Z.eqb_spec (len vs) 1) as [E1|N1].
  - destruct vs as [|v [|v' vs]]; rewrite ?len_cons, ?len_nil in *; try lia;
      [|pose proof (len_nonneg vs); lia].
    inversion_clear Hvs as [|? ? Hv _]. rewrite get_be16_regs by done.
    by apply WriteSingleRegister_device.
  - cbn [andb]. rewrite (Z.mul_comm 2), Z.mod_mul by lia. cbn [Z.eqb negb].
    rewrite Z.div_mul by lia.
    pose proof (get_regs_packed [] [] vs 0 eq_refl Hvs) as E. rewrite app_nil_r in E.
    cbn [app] in E. rewrite E, SM_bind_pure_Ok. by apply WriteMultipleRegisters_device.
Qed.

(** ** Data points *)
Definition point_ok (dp : DataPoint) : Prop :=
  match dp with
  | HoldingRegister a q | InputRegister a q => is_u16 a /\ 0 < q <= MaxRegisterCount
  | Coil a q | DiscreteInput a q => is_u16 a /\ 0 < q <= MaxCoilCount
  | OtherPoint _ => False
  end.

(** What the device holds at a point, as the caller sees it. *)
Definition point_value (m : Memory) (dp : DataPoint) : Value DataPoint :=
  match dp with
  | HoldingRegister a q =>
      mkValue (Some dp) (regs_to_bytes (cells (holding m) a q)) (reg_type q) ByteOrderBigEndian
  | InputRegister a q =>
      mkValue (Some dp) (regs_to_bytes (cells (input m) a q)) (reg_type q) ByteOrderBigEndian
  | Coil a q => mkValue (Some dp) (bits_to_bytes (cells (coil m) a q)) TypeBool ByteOrderBigEndian
  | DiscreteInput a q =>
      mkValue (Some dp) (bits_to_bytes (cells (discrete m) a q)) TypeBool ByteOrderBigEndian
  | OtherPoint _ => zeroValue
  end.

#[export] Instance point_value_Proper : Proper ((≡) ==> (=) ==> (=)) point_value.
Proof.
  intros m n Hmn dp _ <-. destruct dp; simpl; try done; f_equal; f_equal; apply cells_ext;
    intros x Hx; by apply (Hmn x Hx).
Qed.

Lemma readDataPoint_device dp t :
  point_ok dp -> link_ok t ->
  exists v t', readDataPoint c now dp t = (Ok v, t') /\
    set_point v dp = point_value (device t) dp /\ link_ok t' /\ device t' ≡ device t.
Proof.
  intros Hp Ht. destruct dp as [a q|a q|a q|a q|nm]; [..|done]; destruct Hp as [Ha Hq];
    unfold readDataPoint.
  - destruct (ReadHoldingRegisters_device a q t Ha Hq Ht) as (t' & E & Ht' & Hd).
    eexists _, t'. rewrite (SM_bind_Ok _ _ _ _ _ E), registersToBytes_spec. by split.
  - destruct (ReadInputRegisters_device a q t Ha Hq Ht) as (t' & E & Ht' & Hd).
    eexists _, t'. rewrite (SM_bind_Ok _ _ _ _ _ E), registersToBytes_spec. by split.
  - destruct (ReadCoils_device a q t Ha Hq Ht) as (t' & E & Ht' & Hd).
    eexists _, t'. rewrite (SM_bind_Ok _ _ _ _ _ E), boolsToBytes_spec. by split.
  - destruct (ReadDiscreteInputs_device a q t Ha Hq Ht) as (t' & E & Ht' & Hd).
    eexists _, t'. rewrite (SM_bind_Ok _ _ _ _ _ E), boolsToBytes_spec. by split.
Qed.

Lemma Client_Read_device points : forall t,
  Forall point_ok points -> link_ok t ->
  exists t', Client_Read c now points t = (Ok (map (point_value (device t)) points), t') /\
    link_ok t' /\ device t' ≡ device t.
Proof.
  induction points as [|dp points IH]; intros t Hps Ht; [by exists t|].
  apply Forall_cons in Hps as [Hp Hps].
  destruct (readDataPoint_device dp t Hp Ht) as (v & t1 & E & Hv & Ht1 & Hd1).
  destruct (IH t1 Hps Ht1) as (t2 & E2 & Ht2 & Hd2). exists t2.
  cbn [Client_Read map]. rewrite (SM_bind_Ok _ _ _ _ _ E), (SM_bind_Ok _ _ _ _ _ E2), Hv.
  split; [|split; [done|by rewrite Hd2]]. unfold mret, SM_ret. do 2 f_equal. f_equal.
  apply map_ext. intros x. by rewrite Hd1.
Qed.
End ClientLemmas.

(** ** A server behind the link *)
Section Served.
Context {S : Type} `{DataStoreLaws S}.

#[local] Instance served_transport : Transport unit S :=
  {| Conn := fun s => (Ok tt, s); Reset := fun _ s => s; Close := fun s => (None, s);
     Peek := fun _ => true |}.

(** The request is dispatched by the server's default table; an exception comes
    back as an exception response, as [handleConnection] sends it. *)
#[local] Instance served_link : Link unit S := fun _ req s =>
  match dispatchRequest setupDefaultHandlers req s with
  | (Err (ModbusErr _ ec), s') =>
      (Ok (NewResponse (GetTransactionID req) (GetUnitID req)
             (Z.lor (fc_of req) ExceptionBit) [u8 ec]), s')
  | (Err _, s') => (Err EOF, s')
  | r => r
  end.

#[local] Instance served_device : DeviceLink unit S.
Proof.
  refine {| link_ok := store_ok; device := view |}.
  - intros t x Ht. by apply view_u16.
  - intros t _. by exists tt.
  - intros t [] req o Ht Ho Hc Hf.
    destruct (op_accept o req t Ho Hc Ht) as (s' & E & Hs' & Hv).
    exists s', (GetTransactionID req), (GetUnitID req). split; [|done].
    unfold Send, served_link. rewrite (dispatch_op o), E by done. by unfold reply; rewrite Hf.
Defined.

(** A Modbus exception reaches the caller as a [ModbusError] with the
    server's exception code and the marked function code, after a single attempt
    whatever number of retries is configured. *)
Theorem served_exception (c : Client) now fc data (s : S) ec s' :
  is_u8 fc -> 0 <= retries c ->
  dispatchRequest setupDefaultHandlers (NewRequest now (unitID c) fc data) s =
    (Err (ModbusErr fc ec), s') ->
  send c now fc data s = (Err (ModbusErr (Z.lor fc ExceptionBit) (u8 ec)), s').
Proof.
  intros Hfc Hr E. unfold send. destruct (Z.to_nat (1 + retries c)) as [|n] eqn:En; [lia|].
  cbn [send_loop]. unfold attempt. cbn [Conn served_transport]. unfold Send, served_link.
  rewrite E. unfold Response_IsException, IsFunctionException. cbn [resp_PDU FunctionCode NewResponse].
  unfold fc_of. cbn [req_PDU NewRequest FunctionCode].
  destruct (set_exception_bit fc Hfc) as (Hx & _ & _). rewrite Hx.
  unfold Response_ToError, Response_IsException, Response_GetException, IsFunctionException.
  cbn. unfold Response_IsException, IsFunctionException. cbn. by rewrite Hx.
Qed.
End Served.

(** ** Properties *)
Section ClientProperties.
Context {C T : Type} `{DeviceLink C T}.

(** Reading data points.  Over a link to a device, [Client.Read] of any list
    of valid points returns, in order, for each point the bytes the device holds
    there (registers big-endian, bits packed LSB first), tagged with the point,
    and does not change the device. *)
Theorem client_read_points (c : Client) now points t :
  0 <= retries c -> Forall point_ok points -> link_ok t ->
  exists t', Client_Read c now points t = (Ok (map (point_value (device t)) points), t') /\
    link_ok t' /\ device t' ≡ device t.
Proof. intros Hr Hps Ht. by apply Client_Read_device. Qed.

(** Writing holding registers through the PLC interface stores the bytes
    as big-endian registers at the point's address (one register with function
    6, more with function 16), and reading the point back returns the bytes. *)
Theorem client_write_read (c : Client) now a q data t :
  0 <= retries c -> is_u16 a -> 0 < q <= MaxWriteRegisterCount -> bytes_ok data ->
  len data = 2 * q -> link_ok t ->
  exists vs t' t'', data = regs_to_bytes vs /\
    Client_Write c now (HoldingRegister a q) data t = (Ok tt, t') /\
    device t' ≡ write_holding (device t) a vs /\
    readDataPoint c now (HoldingRegister a q) t' =
      (Ok (mkValue None data (reg_type q) ByteOrderBigEndian), t'').
Proof.
  intros Hr Ha Hq Hok Hl Ht. destruct (bytes_are_regs (Z.to_nat q) data Hok)
    as (vs & Hvl & Hvs & ->); [lia|]. rewrite Z2Nat.id in Hvl by lia. subst q.
  destruct (write_regs_device c now Hr a vs t) as (t' & E & Ht' & Hd); [done..|].
  destruct (ReadHoldingRegisters_device c now Hr a (len vs) t') as (t'' & E'' & _);
    [done|unfold MaxWriteRegisterCount, MaxRegisterCount in *; lia|done|].
  exists vs, t', t''. repeat (split; [done|]). unfold readDataPoint.
  rewrite (SM_bind_Ok _ _ _ _ _ E''), registersToBytes_spec.
  rewrite (cells_ext _ (write_cells (holding (device t)) a vs)) by (intros x Hx; apply (Hd x Hx)).
  by rewrite cells_write_same by (unfold MaxWriteRegisterCount in *; lia).
Qed.
End ClientProperties.

(** ** Concrete links *)

(** A client of an in-memory server. *)
Lemma client_read_points_witness :
  exists t', @Client_Read unit MemoryStore served_transport served_link (mkClientCfg 1 0) 0
      [HoldingRegister 5 2; Coil 0 3] NewMemoryStore =
    (Ok [mkValue (Some (HoldingRegister 5 2)) [0; 0; 0; 0] TypeBytes ByteOrderBigEndian;
         mkValue (Some (Coil 0 3)) [0] TypeBool ByteOrderBigEndian], t').
Proof.
  destruct (@client_read_points unit MemoryStore served_transport served_link served_device
    (mkClientCfg 1 0) 0 [HoldingRegister 5 2; Coil 0 3] NewMemoryStore) as (t' & E & _).
  - done.
  - repeat constructor; vm_compute; congruence.
  - split; apply map_Forall_empty.
  - exists t'. exact E.
Defined.

Lemma client_write_read_witness :
  exists vs t' t'', [1; 2; 3; 4] = regs_to_bytes vs /\
    @Client_Write unit MemoryStore served_transport served_link (mkClientCfg 1 0) 0
      (HoldingRegister 5 2) [1; 2; 3; 4] NewMemoryStore = (Ok tt, t') /\
    @readDataPoint unit MemoryStore served_transport served_link (mkClientCfg 1 0) 0
      (HoldingRegister 5 2) t' =
      (Ok (mkValue None [1; 2; 3; 4] TypeBytes ByteOrderBigEndian), t'').
Proof.
  destruct (@client_write_read unit MemoryStore served_transport served_link served_device
    (mkClientCfg 1 0) 0 5 2 [1; 2; 3; 4] NewMemoryStore) as (vs & t' & t'' & Hd & Hw & _ & Hr).
  - done.
  - decided.
  - done.
  - decided.
  - done.
  - split; apply map_Forall_empty.
  - exists vs, t', t''. split; [exact Hd|]. split; [exact Hw|exact Hr].
Defined.

Lemma served_exception_witness :
  @send unit MemoryStore served_transport served_link (mkClientCfg 1 3) 0 0x63 [] NewMemoryStore =
    (Err (ModbusErr 0xE3 1), NewMemoryStore).
Proof.
  apply (served_exception (mkClientCfg 1 3) 0 0x63 [] NewMemoryStore 1 NewMemoryStore).
  - decided.
  - done.
  - reflexivity.
Defined.

(** A link that is down: three attempts, then the last error, wrapped. *)
Lemma send_retries_witness :
  exists k e tk, (k <= 3)%nat /\
    @failing nat nat {| Conn := fun t => (Err NetClosed, S t); Reset := fun _ t => t;
      Close := fun t => (None, t); Peek := fun _ => false |} (fun _ _ t => (Err EOF, t))
      k (NewRequest 0 1 3 []) None 0%nat = Some (e, tk).
Proof.
  destruct (@send_retries nat nat {| Conn := fun t => (Err NetClosed, S t); Reset := fun _ t => t;
      Close := fun t => (None, t); Peek := fun _ => false |} (fun _ _ t => (Err EOF, t))
      (mkClientCfg 1 2) 0 3 [] 0%nat _ _ eq_refl) as (k & e & tk & Hk & Hf & _).
  exists k, e, tk. split; [exact Hk|exact Hf].
Defined.
