(* ===== verification/MonitorCluster.v ===== *)
(** * Read clustering

    Models [monitor/cluster_plan.go], the [Clusterable] methods of
    [protocol/modbus/datapoint.go] and the reader of [monitor/cluster.go]: nearby
    points are merged into windows, a window is read as one block and each point
    is cut out of it.  [sort.Slice] is not stable, so the plan is built with any
    function that sorts by address; the windows needed by a read are visited in
    any order (a Go map). *)
From stdpp Require Import sorting.
From S2P Require Import Prelude Bytes ModbusTypes Plc ModbusStore ModbusHandlers ModbusSpec.
From S2P Require Import Transport ModbusClient.

(** ** Clusterable data points (datapoint.go) *)
Definition is_Clusterable (p : DataPoint) : bool :=
  match p with OtherPoint _ => false | _ => true end.
Definition ClusterKey (p : DataPoint) : string :=
  match p with
  | HoldingRegister _ _ => "holding_register"
  | InputRegister _ _ => "input_register"
  | Coil _ _ => "coil"
  | DiscreteInput _ _ => "discrete_input"
  | OtherPoint _ => ""
  end.
Definition ClusterAddr (p : DataPoint) : Z :=
  match p with
  | HoldingRegister a _ | InputRegister a _ | Coil a _ | DiscreteInput a _ => u16 a
  | OtherPoint _ => 0
  end.
Definition ClusterQty (p : DataPoint) : Z :=
  match p with
  | HoldingRegister _ q | InputRegister _ q | Coil _ q | DiscreteInput _ q => u16 q
  | OtherPoint _ => 0
  end.
Definition ClusterBitsPerUnit (p : DataPoint) : Z :=
  match p with
  | HoldingRegister _ _ | InputRegister _ _ => 16
  | _ => 1
  end.
Definition ClusterMerge (p : DataPoint) (start count : Z) : DataPoint :=
  match p with
  | HoldingRegister _ _ => HoldingRegister start count
  | InputRegister _ _ => InputRegister start count
  | Coil _ _ => Coil start count
  | DiscreteInput _ _ => DiscreteInput start count
  | OtherPoint n => OtherPoint n
  end.

(** The extraction of a register range. *)
Definition extractRegisters (val : Value DataPoint) (addr qty clusterStart : Z)
  : outcome (Value DataPoint) :=
  let offset := u16 (addr - clusterStart) * 2 in
  let size := qty * 2 in
  raw ← go_slice (Raw val) offset (offset + size);
  Ok (mkValue None raw (if 1 <? qty then TypeBytes else TypeUint16) (v_ByteOrder val)).

(** The loop of [extractBits], from index [i], [n] rounds. *)
Fixpoint extract_loop (src : bytes) (bitOffset i : Z) (n : nat) (raw : bytes) : outcome bytes :=
  match n with
  | O => Ok raw
  | S n =>
      let srcBit := bitOffset + i in
      b ← go_index src (srcBit / 8);
      raw ← pack_bit 0 i (negb (Z.land b (u8 (Z.shiftl 1 (srcBit mod 8))) =? 0)) raw;
      extract_loop src bitOffset (i + 1) n raw
  end.
Definition extractBits (val : Value DataPoint) (addr qty clusterStart : Z)
  : outcome (Value DataPoint) :=
  let bitOffset := u16 (addr - clusterStart) in
  let outBytes := (qty + 7) / 8 in
  raw ← go_make outBytes;
  raw ← extract_loop (Raw val) bitOffset 0 (Z.to_nat qty) raw;
  Ok (mkValue None raw TypeBool (v_ByteOrder val)).

Definition ClusterExtract (p : DataPoint) (val : Value DataPoint) (clusterStart : Z)
  : outcome (Value DataPoint) :=
  match p with
  | HoldingRegister a q | InputRegister a q => extractRegisters val (u16 a) q clusterStart
  | Coil a q | DiscreteInput a q => extractBits val (u16 a) (u16 q) clusterStart
  | OtherPoint _ => Ok zeroValue
  end.

(** ** The plan (cluster_plan.go) *)
Record ClusterConfig : Type := mkClusterConfig {
  GapThreshold : Z; MaxRegistersPerRead : Z; MaxCoilsPerRead : Z; CacheTTL : Z; Enabled : bool }.

Definition DefaultClusterConfig : ClusterConfig := mkClusterConfig 32 120 2000 0 true.

Record readWindow : Type := mkWindow {
  w_key : string; w_start : Z; w_count : Z; w_merged : DataPoint; w_points : list DataPoint }.

Definition flush (key : string) (winStart winEnd : Z) (winPoints : list DataPoint) : readWindow :=
  let count := u16 (winEnd - winStart) in
  mkWindow key winStart count
    (match winPoints with p :: _ => ClusterMerge p winStart count | [] => OtherPoint "" end)
    winPoints.

Definition maxPerRead (cfg : ClusterConfig) (p : DataPoint) : Z :=
  if ClusterBitsPerUnit p =? 1 then MaxCoilsPerRead cfg else MaxRegistersPerRead cfg.

(** The merge pass over the remaining points of an area. *)
Fixpoint merge_pass (cfg : ClusterConfig) (key : string) (max winStart winEnd : Z)
  (winPoints pts : list DataPoint) : list readWindow :=
  match pts with
  | [] => [flush key winStart winEnd winPoints]
  | p :: pts =>
      let pEnd := u16 (ClusterAddr p + ClusterQty p) in
      let gap := if winEnd <? ClusterAddr p then u16 (ClusterAddr p - winEnd) else 0 in
      let mergedCount :=
        if pEnd <? winStart then u16 (winEnd - winStart) else u16 (pEnd - winStart) in
      if (gap <=? GapThreshold cfg) && (mergedCount <=? max) then
        merge_pass cfg key max winStart (if winEnd <? pEnd then pEnd else winEnd)
          (winPoints ++ [p]) pts
      else
        flush key winStart winEnd winPoints ::
        merge_pass cfg key max (ClusterAddr p) pEnd [p] pts
  end.

(** The byte order of strings, for [sort.Strings]. *)
Definition string_le (a b : string) : Prop := String.leb a b = true.
#[export] Instance string_le_dec : RelDecision string_le.
Proof. intros a b. unfold string_le. apply _. Defined.

Section Plan.
(** [sort.Slice(pts, by ClusterAddr)] *)
Variable sortSlice : list DataPoint -> list DataPoint.

Definition area_keys (points : list DataPoint) : list string :=
  merge_sort string_le (remove_dups (map ClusterKey points)).

Definition buildWindows (points : list DataPoint) (cfg : ClusterConfig) : list readWindow :=
  flat_map (fun key =>
      match sortSlice (filter (fun p => ClusterKey p = key) points) with
      | [] => []
      | p0 :: pts =>
          merge_pass cfg key (maxPerRead cfg p0) (ClusterAddr p0)
            (u16 (ClusterAddr p0 + ClusterQty p0)) [p0] pts
      end)
    (area_keys points).
End Plan.

(** [findWindow], the index of the first window that covers the point. *)
Fixpoint findWindow_from (i : nat) (windows : list readWindow) (p : DataPoint) : option nat :=
  match windows with
  | [] => None
  | w :: windows =>
      let addr := ClusterAddr p in
      let pend := u16 (addr + ClusterQty p) in
      if negb (String.eqb (w_key w) (ClusterKey p)) then findWindow_from (S i) windows p
      else
        let wEnd := u16 (w_start w + w_count w) in
        if (w_start w <=? addr) && (pend <=? wEnd) then Some i
        else findWindow_from (S i) windows p
  end.
Definition findWindow := findWindow_from 0.

(** ** Lemmas: the windows cover the points *)

(** A point whose end does not wrap around the 16-bit address space. *)
Definition point_fits (p : DataPoint) : Prop :=
  is_Clusterable p = true /\ 0 < ClusterQty p /\ ClusterAddr p + ClusterQty p < 65536.

Definition covers (w : readWindow) (p : DataPoint) : Prop :=
  w_key w = ClusterKey p /\ w_start w <= ClusterAddr p /\
  ClusterAddr p + ClusterQty p <= w_start w + w_count w.

Record window_ok (max : Z) (w : readWindow) : Prop := {
  wo_start : 0 <= w_start w;
  wo_count : 0 < w_count w <= max;
  wo_end : w_start w + w_count w < 65536;
  wo_points : Forall (covers w) (w_points w);
  wo_merged : exists p, p ∈ w_points w /\ is_Clusterable p = true /\
    w_merged w = ClusterMerge p (w_start w) (w_count w) }.

Definition by_addr (p q : DataPoint) : Prop := ClusterAddr p <= ClusterAddr q.

(** What holds of the window being built. *)
Record open_ok (key : string) (max winStart winEnd : Z) (winPoints : list DataPoint) : Prop := {
  oo_bounds : 0 <= winStart < winEnd /\ winEnd < 65536;
  oo_size : winEnd - winStart <= max;
  oo_points : Forall (fun p => ClusterKey p = key /\ point_fits p /\ winStart <= ClusterAddr p /\
                               ClusterAddr p + ClusterQty p <= winEnd) winPoints;
  oo_nonempty : winPoints <> [] }.

Lemma addr_nonneg p : 0 <= ClusterAddr p.
Proof. destruct p; simpl; try apply u16_range; lia. Qed.

Lemma flush_ok key max winStart winEnd winPoints :
  open_ok key max winStart winEnd winPoints -> window_ok max (flush key winStart winEnd winPoints).
Proof.
  intros [Hb Hs Hp Hn]. unfold flush.
  rewrite u16_small by (unfold is_u16; lia). split; cbn; try lia.
  - eapply Forall_impl; [exact Hp|]. intros p (Hk & _ & H1 & H2). split; [done|]. cbn. lia.
  - destruct winPoints as [|p ps]; [done|]. exists p. split; [left|]. split; [|done].
    apply Forall_cons in Hp as [(_ & [Hc _] & _) _]. done.
Qed.

Lemma open_single p max :
  point_fits p -> ClusterQty p <= max ->
  open_ok (ClusterKey p) max (ClusterAddr p) (u16 (ClusterAddr p + ClusterQty p)) [p].
Proof.
  intros [Hc [Hq He]] Hm. pose proof (addr_nonneg p). rewrite u16_small by (unfold is_u16; lia).
  split; [lia|lia| |done]. constructor; [|constructor]. split; [done|]. split; [done|]. lia.
Qed.

(** A merged point extends the window without exceeding the limit. *)
Lemma open_extend key max winStart winEnd winPoints p :
  open_ok key max winStart winEnd winPoints -> ClusterKey p = key -> point_fits p ->
  winStart <= ClusterAddr p ->
  u16 (ClusterAddr p + ClusterQty p) - winStart <= max ->
  let pEnd := u16 (ClusterAddr p + ClusterQty p) in
  open_ok key max winStart (if winEnd <? pEnd then pEnd else winEnd) (winPoints ++ [p]).
Proof.
  intros [Hb Hs Hp Hn] Hk Hf Ha Hm pEnd. pose proof Hf as (Hc & Hq & He).
  assert (pEnd = ClusterAddr p + ClusterQty p) as Hpe
    by (apply u16_small; unfold is_u16; pose proof (addr_nonneg p); lia).
  fold pEnd in Hm. destruct (Z.ltb_spec winEnd pEnd); (split; [lia|lia| |by destruct winPoints]);
    (apply Forall_app; split; [|constructor; [|constructor]; split; [done|]; split; [done|lia]]).
  - eapply Forall_impl; [exact Hp|]. intros x (? & ? & ? & ?).
    split; [done|]. split; [done|lia].
  - exact Hp.
Qed.

Lemma merge_pass_ok cfg key max pts : forall winStart winEnd winPoints,
  open_ok key max winStart winEnd winPoints ->
  Forall (fun p => ClusterKey p = key /\ point_fits p /\ ClusterQty p <= max) pts ->
  Forall (fun p => winStart <= ClusterAddr p) pts -> StronglySorted by_addr pts ->
  Forall (fun w => window_ok max w /\ w_key w = key)
    (merge_pass cfg key max winStart winEnd winPoints pts) /\
  forall p, p ∈ winPoints ++ pts ->
    exists w, w ∈ merge_pass cfg key max winStart winEnd winPoints pts /\ p ∈ w_points w.
Proof.
  induction pts as [|p pts IH]; intros winStart winEnd winPoints Ho Hpts Hge Hsort; cbn [merge_pass].
  - split; [constructor; [split; [by apply flush_ok|done]|constructor]|]. intros p Hp. rewrite app_nil_r in Hp.
    eexists. split; [left|]. exact Hp.
  - apply Forall_cons in Hpts as [(Hk & Hf & Hq) Hpts], Hge as [Hge0 Hge].
    apply StronglySorted_inv in Hsort as [Hsort Hle].
    pose proof Hf as (Hc & Hq0 & He). pose proof (addr_nonneg p).
    assert (u16 (ClusterAddr p + ClusterQty p) = ClusterAddr p + ClusterQty p) as Hpe
      by (apply u16_small; unfold is_u16; lia).
    destruct ((_ <=? GapThreshold cfg) && _) eqn:Em.
    + assert (u16 (ClusterAddr p + ClusterQty p) - winStart <= max) as Hmax.
      { apply andb_true_iff in Em as [_ Em]. rewrite Hpe in Em |- *.
        destruct (Z.ltb_spec (ClusterAddr p + ClusterQty p) winStart); [lia|].
        pose proof (oo_bounds _ _ _ _ _ Ho).
        rewrite u16_small in Em by (unfold is_u16; lia). lia. }
      destruct (IH winStart _ (winPoints ++ [p])
        (open_extend _ _ _ _ _ p Ho Hk Hf Hge0 Hmax) Hpts Hge Hsort) as [Hw Hcov].
      split; [done|]. intros x Hx. apply Hcov. by rewrite <-app_assoc.
    + destruct (IH (ClusterAddr p) (u16 (ClusterAddr p + ClusterQty p)) [p]) as [Hw Hcov];
        [rewrite <-Hk; by apply open_single|done|exact Hle|done|].
      split; [constructor; [split; [by apply flush_ok|done]|done]|]. intros x Hx.
      apply elem_of_app in Hx as [Hx|Hx].
      * eexists. split; [left|]. exact Hx.
      * destruct (Hcov x Hx) as (w & Hin & Hp). exists w. split; [by right|done].
Qed.

Lemma findWindow_covers windows p : forall i j,
  findWindow_from i windows p = Some j -> point_fits p ->
  exists w, windows !! (j - i)%nat = Some w /\ (i <= j)%nat /\ w_key w = ClusterKey p /\
    w_start w <= ClusterAddr p /\
    ClusterAddr p + ClusterQty p <= u16 (w_start w + w_count w).
Proof.
  induction windows as [|w windows IH]; intros i j E Hf; [done|]. cbn [findWindow_from] in E.
  assert (forall j, findWindow_from (S i) windows p = Some j ->
    exists w', (w :: windows) !! (j - i)%nat = Some w' /\ (i <= j)%nat /\ w_key w' = ClusterKey p /\
      w_start w' <= ClusterAddr p /\
      ClusterAddr p + ClusterQty p <= u16 (w_start w' + w_count w')) as Hrec.
  { intros j' E'. destruct (IH _ _ E' Hf) as (w' & Hl & Hij & Hr). exists w'.
    replace (j' - i)%nat with (S (j' - S i)) by lia. split; [done|]. split; [lia|done]. }
  destruct (String.eqb_spec (w_key w) (ClusterKey p)) as [Hk|]; cbn [negb] in E; [|by apply Hrec].
  destruct ((_ <=? _) && _) eqn:Ec; [|by apply Hrec]. injection E as <-.
  apply andb_true_iff in Ec as [E1 E2]. pose proof Hf as (_ & Hq & He).
  pose proof (addr_nonneg p). rewrite (u16_small (ClusterAddr p + _)) in E2 by (unfold is_u16; lia).
  exists w. rewrite Nat.sub_diag. repeat split; try done; lia.
Qed.

Lemma findWindow_finds windows p w : forall i,
  w ∈ windows -> covers w p -> point_fits p -> 0 <= w_start w -> w_start w + w_count w < 65536 ->
  exists j, findWindow_from i windows p = Some j.
Proof.
  induction windows as [|w0 windows IH]; intros i Hin Hc Hf H0 He; [by apply not_elem_of_nil in Hin|].
  cbn [findWindow_from]. destruct (String.eqb (w_key w0) (ClusterKey p)) eqn:Ek; cbn [negb].
  - destruct ((w_start w0 <=? _) && _) eqn:Ec; [eauto|].
    apply elem_of_cons in Hin as [->|Hin]; [|by apply IH]. exfalso.
    destruct Hc as (_ & H1 & H2), Hf as (_ & Hq & Hpe). pose proof (addr_nonneg p).
    rewrite !u16_small in Ec by (unfold is_u16; lia). apply andb_false_iff in Ec. lia.
  - apply elem_of_cons in Hin as [->|Hin]; [|by apply IH].
    destruct Hc as (Hk & _). rewrite Hk, String.eqb_refl in Ek. done.
Qed.

Section PlanLemmas.
Variable sortSlice : list DataPoint -> list DataPoint.
(** What [sort.Slice] guarantees: a permutation in ascending address order. *)
Hypothesis sortSlice_perm : forall l, sortSlice l ≡ₚ l.
Hypothesis sortSlice_sorted : forall l, StronglySorted by_addr (sortSlice l).

Lemma key_limit cfg p q :
  ClusterKey p = ClusterKey q -> maxPerRead cfg p = maxPerRead cfg q.
Proof. destruct p, q; try discriminate; done. Qed.

Lemma area_keys_spec points key : key ∈ area_keys points <-> exists p, p ∈ points /\ ClusterKey p = key.
Proof.
  unfold area_keys. rewrite merge_sort_Permutation, elem_of_remove_dups, list_elem_of_fmap.
  split; intros (p & H1 & H2); by exists p.
Qed.

Lemma area_windows cfg points key :
  Forall (fun p => point_fits p /\ ClusterQty p <= maxPerRead cfg p) points ->
  let ws := match sortSlice (filter (fun p => ClusterKey p = key) points) with
            | [] => []
            | p0 :: pts => merge_pass cfg key (maxPerRead cfg p0) (ClusterAddr p0)
                (u16 (ClusterAddr p0 + ClusterQty p0)) [p0] pts
            end in
  (forall w, w ∈ ws -> exists p0, p0 ∈ points /\ ClusterKey p0 = w_key w /\
     window_ok (maxPerRead cfg p0) w) /\
  (forall p, p ∈ points -> ClusterKey p = key -> exists w, w ∈ ws /\ p ∈ w_points w).
Proof.
  intros Hpts. set (l := filter (fun p => ClusterKey p = key) points).
  pose proof (sortSlice_perm l) as Hperm. pose proof (sortSlice_sorted l) as Hsort.
  assert (forall p, p ∈ sortSlice l <-> ClusterKey p = key /\ p ∈ points) as Hin.
  { intros p. rewrite Hperm. unfold l. by rewrite list_elem_of_filter. }
  destruct (sortSlice l) as [|p0 pts].
  - cbn. split; [intros w Hw; by apply not_elem_of_nil in Hw|]. intros p Hp Hk.
    assert (p ∈ @nil DataPoint) as H by (apply Hin; done). by apply not_elem_of_nil in H.
  - destruct (proj1 (Hin p0) ltac:(left)) as [Hk0 Hp0].
    apply StronglySorted_inv in Hsort as [Hsort Hle]. rewrite Forall_forall in Hpts.
    destruct (merge_pass_ok cfg key (maxPerRead cfg p0) pts (ClusterAddr p0)
      (u16 (ClusterAddr p0 + ClusterQty p0)) [p0]) as [Hw Hcov].
    + rewrite <-Hk0. by apply open_single; apply Hpts.
    + apply Forall_forall. intros p Hp. destruct (proj1 (Hin p) ltac:(by right)) as [Hk Hpp].
      destruct (Hpts p Hpp) as [Hf Hq]. split; [done|]. split; [done|].
      rewrite (key_limit cfg p0 p); [done|]. congruence.
    + exact Hle.
    + done.
    + split.
      * intros w Hin'. exists p0. split; [done|]. rewrite Forall_forall in Hw.
        destruct (Hw w Hin') as [Hwo Hk]. split; [congruence|done].
      * intros p Hp Hk. apply Hcov. by apply Hin.
Qed.

Lemma buildWindows_ok cfg points :
  Forall (fun p => point_fits p /\ ClusterQty p <= maxPerRead cfg p) points ->
  (forall w, w ∈ buildWindows sortSlice points cfg -> exists p0, p0 ∈ points /\
     ClusterKey p0 = w_key w /\ window_ok (maxPerRead cfg p0) w) /\
  (forall p, p ∈ points -> exists w, w ∈ buildWindows sortSlice points cfg /\ p ∈ w_points w).
Proof.
  intros Hpts. unfold buildWindows. split.
  - intros w Hw. apply list_elem_of_In, in_flat_map in Hw as (key & _ & Hw).
    apply (area_windows cfg points key Hpts). by apply list_elem_of_In.
  - intros p Hp. destruct (proj2 (area_windows cfg points (ClusterKey p) Hpts) p Hp eq_refl)
      as (w & Hw & Hpw). exists w. split; [|done].
    apply list_elem_of_In, in_flat_map. exists (ClusterKey p).
    split; [apply list_elem_of_In, area_keys_spec; eauto|by apply list_elem_of_In].
Qed.

(** A registered point has a window, and the window found covers it and is a
    legal read. *)
Lemma plan_finds cfg points p :
  Forall (fun p => point_fits p /\ ClusterQty p <= maxPerRead cfg p) points -> p ∈ points ->
  exists j w, findWindow (buildWindows sortSlice points cfg) p = Some j /\
    buildWindows sortSlice points cfg !! j = Some w /\ covers w p /\
    window_ok (maxPerRead cfg p) w.
Proof.
  intros Hpts Hp. destruct (buildWindows_ok cfg points Hpts) as [Hws Hcov].
  destruct (Hcov p Hp) as (w & Hw & Hpw). destruct (Hws w Hw) as (p0 & _ & _ & Hwo).
  pose proof (wo_points _ _ Hwo) as Hc. rewrite Forall_forall in Hc, Hpts.
  destruct (Hpts p Hp) as [Hf _].
  destruct (findWindow_finds _ p w 0 Hw (Hc p Hpw) Hf (wo_start _ _ Hwo) (wo_end _ _ Hwo)) as [j Hj].
  destruct (findWindow_covers _ _ _ _ Hj Hf) as (w' & Hl & _ & Hk & H1 & H2).
  rewrite Nat.sub_0_r in Hl. exists j, w'. split; [done|]. split; [done|].
  destruct (Hws w' (list_elem_of_lookup_2 _ _ _ Hl)) as (p1 & _ & Hk1 & Hwo').
  pose proof (wo_start _ _ Hwo'). pose proof (wo_count _ _ Hwo'). pose proof (wo_end _ _ Hwo').
  rewrite u16_small in H2 by (unfold is_u16; lia). split; [done|].
  rewrite <-(key_limit cfg p1 p); [done|]. congruence.
Qed.
End PlanLemmas.

(** ** Lemmas: cutting a point out of a block *)
Lemma iota_split k n : 0 <= k <= n -> iota n = iota k ++ map (Z.add k) (iota (n - k)).
Proof.
  intros Hk. unfold iota. replace (Z.to_nat n) with (Z.to_nat k + Z.to_nat (n - k))%nat by lia.
  rewrite seq_app, map_app. f_equal. rewrite map_map, Nat.add_0_l.
  apply list_eq. intros i. rewrite !list_lookup_fmap.
  destruct (decide (i < Z.to_nat (n - k))%nat) as [Hi|Hi].
  - rewrite !lookup_seq_lt by done. simpl. f_equal. lia.
  - rewrite !lookup_seq_ge by lia. done.
Qed.

Lemma cells_split {A} (f : Z -> A) a k n :
  0 <= k <= n -> cells f a n = cells f a k ++ cells f (a + k) (n - k).
Proof.
  intros Hk. unfold cells. rewrite (iota_split k n) by done. rewrite map_app, map_map. f_equal.
  apply map_ext. intros i. do 2 f_equal. lia.
Qed.

Lemma cells_mid {A} (f : Z -> A) s n a q :
  s <= a -> 0 <= q -> a + q <= s + n ->
  cells f s n = cells f s (a - s) ++ cells f a q ++ cells f (a + q) (s + n - (a + q)).
Proof.
  intros Hs Hq Hn. rewrite (cells_split f s (a - s) n) by lia. f_equal.
  replace (s + (a - s)) with a by lia. rewrite (cells_split f a q) by lia. do 2 f_equal. lia.
Qed.

Lemma extractRegisters_cells f dt s n a q pt :
  s <= a -> 0 <= q -> a + q <= s + n -> 0 <= s -> s + n < 65536 ->
  extractRegisters (mkValue pt (regs_to_bytes (cells f s n)) dt ByteOrderBigEndian) a q s =
    Ok (mkValue None (regs_to_bytes (cells f a q)) (reg_type q) ByteOrderBigEndian).
Proof.
  intros Hs Hq Hn H0 He. unfold extractRegisters. cbn [Raw v_ByteOrder].
  rewrite u16_small by (unfold is_u16; lia).
  rewrite (cells_mid f s n a q), !regs_to_bytes_app by lia.
  rewrite go_slice_mid; [done| |]; rewrite ?len_regs_to_bytes, ?len_cells by lia; lia.
Qed.

Lemma land_bit b j : 0 <= j -> negb (Z.land b (2 ^ j) =? 0) = Z.testbit b j.
Proof.
  intros Hj. destruct (Z.testbit b j) eqn:E.
  - apply negb_true_iff, Z.eqb_neq. intros H0.
    assert (Z.testbit (Z.land b (2 ^ j)) j = false) as H by by rewrite H0, Z.bits_0.
    rewrite Z.land_spec, E, Z.pow2_bits_true in H by done. done.
  - apply negb_false_iff, Z.eqb_eq. apply Z.bits_inj'. intros k Hk.
    rewrite Z.land_spec, Z.bits_0. destruct (decide (k = j)) as [->|Hne]; [by rewrite E|].
    rewrite Z.pow2_bits_false by lia. apply andb_false_r.
Qed.

(** The extraction loop is the packing loop over the selected source bits. *)
Lemma extract_loop_pack src off vals : forall i raw,
  0 <= off -> 0 <= i ->
  (forall k v, vals !! k = Some v -> unpack_bit src 0 (off + i + Z.of_nat k) = Ok v) ->
  extract_loop src off i (length vals) raw = pack_bits 0 i vals raw.
Proof.
  induction vals as [|v vals IH]; intros i raw Ho Hi Hv; [done|]. cbn [length extract_loop pack_bits].
  pose proof (Hv 0%nat v eq_refl) as H0. rewrite Z.add_0_r in H0. unfold unpack_bit in H0.
  rewrite Z.add_0_l in H0. destruct (go_index src ((off + i) / 8)) as [b| |]; [|done..].
  cbn in H0. injection H0 as Hb. rewrite land1_testbit in Hb by dlia.
  unfold mbind at 1, outcome_bind. rewrite bit_mask_u8, land_bit, Hb by dlia.
  destruct (pack_bit 0 i v raw) as [raw'| |]; [|done..]. unfold mbind, outcome_bind.
  apply IH; [done|lia|]. intros k x Hk. specialize (Hv (S k) x Hk).
  by replace (off + (i + 1) + Z.of_nat k) with (off + i + Z.of_nat (S k)) by lia.
Qed.

Lemma extractBits_cells f dt s n a q pt :
  s <= a -> 0 <= q -> a + q <= s + n -> 0 <= s -> s + n < 65536 ->
  extractBits (mkValue pt (bits_to_bytes (cells f s n)) dt ByteOrderBigEndian) a q s =
    Ok (mkValue None (bits_to_bytes (cells f a q)) TypeBool ByteOrderBigEndian).
Proof.
  intros Hs Hq Hn H0 He. unfold extractBits. cbn [Raw v_ByteOrder].
  rewrite u16_small by (unfold is_u16; lia). unfold go_make.
  rewrite decide_True by (pose proof (ceil8_nonneg q Hq); unfold ceil8 in *; lia).
  unfold mbind at 1, outcome_bind.
  assert (length (cells f a q) = Z.to_nat q) as Hl.
  { pose proof (len_cells f a q Hq). unfold len in *. lia. }
  rewrite <-Hl. rewrite extract_loop_pack; [|lia|lia|].
  - pose proof (pack_bits_fresh [] (cells f a q) 0 (Z.to_nat ((q + 7) / 8))) as E.
    cbn [app] in E. rewrite E; [done|constructor|done|]. by rewrite len_cells.
  - intros k v Hk. pose proof (lookup_lt_Some _ _ _ Hk) as Hlt.
    pose proof (unpack_bit_packed [] (cells f s n) 0 (a - s + 0 + Z.of_nat k)) as E.
    cbn [app] in E. rewrite E; [|done|rewrite len_cells; lia]. f_equal.
    rewrite (cells_mid f s n a q) by lia. unfold val_at.
    rewrite lookup_app_r by (pose proof (len_cells f s (a - s)); unfold len in *; lia).
    rewrite lookup_app_l by (pose proof (len_cells f s (a - s)); unfold len in *; lia).
    replace (_ - _)%nat with k by (pose proof (len_cells f s (a - s)); unfold len in *; lia).
    by rewrite Hk.
Qed.

Lemma point_addr p : point_ok p ->
  match p with
  | HoldingRegister a q | InputRegister a q | Coil a q | DiscreteInput a q =>
      ClusterAddr p = a /\ ClusterQty p = q /\ 0 <= a /\ 0 < q
  | OtherPoint _ => False
  end.
Proof.
  destruct p; simpl; try done; intros [Ha Hq]; rewrite !u16_small by (op_limits; lia);
    op_limits; lia.
Qed.

Lemma extract_point m p start count :
  point_ok p -> 0 <= start -> start + count < 65536 ->
  start <= ClusterAddr p -> ClusterAddr p + ClusterQty p <= start + count ->
  exists v, ClusterExtract p (point_value m (ClusterMerge p start count)) start = Ok v /\
    set_point v p = point_value m p.
Proof.
  intros Hp H0 He Hs Hn. pose proof (point_addr p Hp) as Ha.
  destruct p as [a q|a q|a q|a q|nm]; [..|done]; destruct Ha as (Ea & Eq & Ha & Hq);
    rewrite Ea, Eq in *; cbn [ClusterMerge ClusterExtract point_value];
    cbn [ClusterAddr ClusterQty] in Ea, Eq; rewrite ?Ea, ?Eq.
  1-2: rewrite extractRegisters_cells by lia; by eexists.
  1-2: rewrite extractBits_cells by lia; by eexists.
Qed.

(** ** The clustering reader (cluster.go) *)
Record cachedRead : Type := mkCached { c_val : Value DataPoint; c_timestamp : Z }.

Record ClusteringReader : Type := mkReader {
  points : list DataPoint;
  windows : list readWindow;
  cache : gmap nat cachedRead;
  gen : Z;
  ReadCount : Z }.

Definition NewClusteringReader : ClusteringReader := mkReader [] [] ∅ 0 0.

Section Reader.
Context {T : Type}.
Variable inner : list DataPoint -> SM T (list (Value DataPoint)).
Variable config : ClusterConfig.
Variable sortSlice : list DataPoint -> list DataPoint.
(** The order in which the map of needed windows is visited. *)
Variable visit : list nat -> list nat.

Definition replan (r : ClusteringReader) : ClusteringReader :=
  mkReader (points r) (buildWindows sortSlice (points r) config) ∅ (gen r + 1) (ReadCount r).

Definition Register (ps : list DataPoint) (r : ClusteringReader) : ClusteringReader :=
  replan (mkReader (points r ++ filter (fun p => is_Clusterable p = true) ps)
            (windows r) (cache r) (gen r) (ReadCount r)).

(** Remove the first registered point with the same key, address and quantity. *)
Fixpoint remove_point (c : DataPoint) (ps : list DataPoint) : list DataPoint :=
  match ps with
  | [] => []
  | existing :: ps =>
      if String.eqb (ClusterKey existing) (ClusterKey c)
         && (ClusterAddr existing =? ClusterAddr c) && (ClusterQty existing =? ClusterQty c)
      then ps else existing :: remove_point c ps
  end.
Definition Unregister (ps : list DataPoint) (r : ClusteringReader) : ClusteringReader :=
  replan (mkReader
    (fold_left (fun acc p => if is_Clusterable p then remove_point p acc else acc) ps (points r))
    (windows r) (cache r) (gen r) (ReadCount r)).

Definition reader_state : Type := (ClusteringReader * T)%type.

(** [r.inner.Read(...)] followed by [r.ReadCount.Add(n)]. *)
Definition inner_read (ps : list DataPoint) (n : Z) : SM reader_state (list (Value DataPoint)) :=
  fun '(r, t) =>
    let '(res, t) := inner ps t in
    (res, (mkReader (points r) (windows r) (cache r) (gen r) (ReadCount r + n), t)).

(** The window index of a point, [None] for a direct read. *)
Definition window_of (ws : list readWindow) (p : DataPoint) : option nat :=
  if is_Clusterable p then findWindow ws p else None.

Fixpoint direct_reads (ws : list readWindow) (ps : list (nat * DataPoint))
  (results : list (Value DataPoint)) : SM reader_state (list (Value DataPoint)) :=
  match ps with
  | [] => mret results
  | (i, p) :: ps =>
      match window_of ws p with
      | Some _ => direct_reads ws ps results
      | None =>
          vals ← inner_read [p] 1;
          results ← pure (match vals with
                          | v :: _ => go_set results (Z.of_nat i) v
                          | [] => Ok results
                          end);
          direct_reads ws ps results
      end
  end.

(** The result of a read of window [winIdx] goes into the cache, at that index of
    whatever plan is current. *)
Definition cache_store (now : Z) (winIdx : nat) (v : Value DataPoint) (r : ClusteringReader)
  : ClusteringReader :=
  if 0 <? CacheTTL config
  then mkReader (points r) (windows r) (<[winIdx := mkCached v now]> (cache r)) (gen r)
         (ReadCount r)
  else r.

(** [readWindow] at time [now], with no other read of the window in flight. *)
Definition readWindow_at (now : Z) (ws : list readWindow) (winIdx : nat)
  : SM reader_state (Value DataPoint) := fun st =>
  let fetch : SM reader_state (Value DataPoint) :=
    w ← pure (go_index ws (Z.of_nat winIdx));
    vals ← inner_read [w_merged w] 1;
    match vals with
    | [] => mret zeroValue
    | v :: _ => fun '(r, t) => (Ok v, (cache_store now winIdx v r, t))
    end in
  if 0 <? CacheTTL config then
    match cache st.1 !! winIdx with
    | Some cached => if now - c_timestamp cached <? CacheTTL config
                     then (Ok (c_val cached), st) else fetch st
    | None => fetch st
    end
  else fetch st.

Fixpoint read_windows (now : Z) (ws : list readWindow) (order : list nat)
  (acc : gmap nat (Value DataPoint)) : SM reader_state (gmap nat (Value DataPoint)) :=
  match order with
  | [] => mret acc
  | winIdx :: order =>
      val ← readWindow_at now ws winIdx;
      read_windows now ws order (<[winIdx := val]> acc)
  end.

Fixpoint extract_all (ws : list readWindow) (values : gmap nat (Value DataPoint))
  (ps : list (nat * DataPoint)) (results : list (Value DataPoint))
  : outcome (list (Value DataPoint)) :=
  match ps with
  | [] => Ok results
  | (i, p) :: ps =>
      match window_of ws p with
      | None => extract_all ws values ps results
      | Some winIdx =>
          w ← go_index ws (Z.of_nat winIdx);
          v ← ClusterExtract p (default zeroValue (values !! winIdx)) (w_start w);
          results ← go_set results (Z.of_nat i) (set_point v p);
          extract_all ws values ps results
      end
  end.

Definition Reader_Read (now : Z) (ps : list DataPoint)
  : SM reader_state (list (Value DataPoint)) := fun st =>
  if negb (Enabled config) then inner_read ps (len ps) st else
  let ws := windows st.1 in
  let indexed := imap (fun i p => (i, p)) ps in
  let needed := visit (remove_dups (omap (window_of ws) ps)) in
  (results ← direct_reads ws indexed (replicate (length ps) zeroValue);
   values ← read_windows now ws needed ∅;
   pure (extract_all ws values indexed results)) st.
End Reader.

(** ** What the clustering reader needs of the reader it wraps *)
Class PointReader {T : Type} (inner : list DataPoint -> SM T (list (Value DataPoint))) : Type := {
  pr_ok : T -> Prop;
  content : T -> Memory;
  inner_spec : forall ps t, Forall point_ok ps -> pr_ok t ->
    exists t', inner ps t = (Ok (map (point_value (content t)) ps), t') /\
      pr_ok t' /\ content t' ≡ content t
}.

(** The Modbus client on a device link is such a reader. *)
#[export] Instance client_reader {C T} `{DeviceLink C T} (c : Client) (now : Z)
  (Hr : 0 <= retries c) : PointReader (Client_Read c now).
Proof.
  refine {| pr_ok := link_ok; content := device |}.
  intros ps t Hps Ht. by apply (Client_Read_device c now Hr).
Defined.

(** A plan whose windows are legal reads that cover what they claim to. *)
Definition plan_ok (ws : list readWindow) : Prop :=
  forall w, w ∈ ws -> 0 <= w_start w /\ 0 < w_count w /\ w_start w + w_count w < 65536 /\
    point_ok (w_merged w) /\ exists p0, is_Clusterable p0 = true /\ ClusterKey p0 = w_key w /\
      w_merged w = ClusterMerge p0 (w_start w) (w_count w).

Lemma merge_same_key p q s n :
  ClusterKey p = ClusterKey q -> is_Clusterable p = true -> is_Clusterable q = true ->
  ClusterMerge p s n = ClusterMerge q s n.
Proof. by destruct p, q. Qed.

Lemma window_of_covers ws p j :
  plan_ok ws -> point_fits p -> window_of ws p = Some j ->
  exists w, ws !! j = Some w /\ covers w p /\ 0 <= w_start w /\ w_start w + w_count w < 65536 /\
    point_ok (w_merged w) /\ w_merged w = ClusterMerge p (w_start w) (w_count w).
Proof.
  intros Hp Hf E. unfold window_of in E. pose proof Hf as (Hc & _). rewrite Hc in E.
  destruct (findWindow_covers _ _ _ _ E Hf) as (w & Hl & _ & Hk & H1 & H2).
  rewrite Nat.sub_0_r in Hl. exists w. split; [done|].
  destruct (Hp w (list_elem_of_lookup_2 _ _ _ Hl)) as (Hs & Hn & He & Hok & p0 & Hc0 & Hk0 & Hm).
  rewrite u16_small in H2 by (unfold is_u16; lia). split; [done|]. repeat (split; [done|]).
  rewrite Hm. apply merge_same_key; congruence.
Qed.

Section ReaderLemmas.
Context {T : Type} (inner : list DataPoint -> SM T (list (Value DataPoint))) `{!PointReader inner}.
Variable config : ClusterConfig.

Lemma go_set_lookup {A} (l : list A) i x :
  (i < length l)%nat -> go_set l (Z.of_nat i) x = Ok (<[i := x]> l).
Proof. intros Hi. unfold go_set. rewrite decide_True by (unfold len; lia). by rewrite Nat2Z.id. Qed.

Lemma inner_read_spec ps n r t :
  Forall point_ok ps -> pr_ok t ->
  exists t' r', inner_read inner ps n (r, t) =
      (Ok (map (point_value (content t)) ps), (r', t')) /\
    pr_ok t' /\ content t' ≡ content t /\ windows r' = windows r.
Proof.
  intros Hps Ht. destruct (inner_spec ps t Hps Ht) as (t' & E & Ht' & Hc).
  eexists t', _. unfold inner_read. by rewrite E.
Qed.

Lemma direct_reads_spec ws ps : forall results r t,
  Forall (fun ip => (ip.1 < length results)%nat /\ point_ok ip.2) ps -> NoDup ps.*1 -> pr_ok t ->
  exists results' r' t', direct_reads inner ws ps results (r, t) = (Ok results', (r', t')) /\
    pr_ok t' /\ content t' ≡ content t /\ length results' = length results /\
    windows r' = windows r /\
    (forall i p, (i, p) ∈ ps -> window_of ws p = None ->
       results' !! i = Some (point_value (content t) p)) /\
    (forall i, i ∉ ps.*1 -> results' !! i = results !! i).
Proof.
  induction ps as [|[i p] ps IH]; intros results r t Hps Hnd Ht; cbn [direct_reads].
  { exists results, r, t. repeat (split; [done|]). split; [|done].
    intros i p Hin. by apply not_elem_of_nil in Hin. }
  apply Forall_cons in Hps as [[Hi Hp] Hps]. cbn [fst snd fmap list_fmap] in *.
  apply NoDup_cons in Hnd as [Hni Hnd].
  assert (forall q, (i, q) ∉ ps) as Hno.
  { intros q Hq. apply Hni. apply list_elem_of_fmap. by exists (i, q). }
  destruct (window_of ws p) as [j|] eqn:Ew.
  - destruct (IH results r t Hps Hnd Ht) as (res & r' & t' & E & H1 & H2 & H3 & H4 & H5 & H6).
    exists res, r', t'. repeat (split; [done|]). split.
    + intros k q Hin Hw. apply elem_of_cons in Hin as [[= -> ->]|Hin]; [congruence|auto].
    + intros k Hk. apply H6. set_solver.
  - destruct (inner_read_spec [p] 1 r t) as (t1 & r1 & E1 & Ht1 & Hc1 & Hw1);
      [by constructor|done|].
    rewrite (SM_bind_Ok _ _ _ _ _ E1). cbn [map]. rewrite go_set_lookup by done.
    rewrite SM_bind_pure_Ok.
    destruct (IH (<[i := point_value (content t) p]> results) r1 t1) as
      (res & r' & t' & E & H1 & H2 & H3 & H4 & H5 & H6); [by rewrite length_insert|done|done|].
    rewrite length_insert in H3. exists res, r', t'. split; [exact E|]. split; [done|].
    split; [by rewrite H2|]. split; [done|]. split; [congruence|]. split.
    + intros k q Hin Hw. apply elem_of_cons in Hin as [[= -> ->]|Hin].
      * rewrite H6 by done. by rewrite list_lookup_insert_eq.
      * rewrite (H5 k q Hin Hw). by rewrite Hc1.
    + intros k Hk. rewrite H6 by set_solver. apply list_lookup_insert_ne. set_solver.
Qed.

Lemma readWindow_spec now ws j w r t :
  CacheTTL config = 0 -> ws !! j = Some w -> point_ok (w_merged w) -> pr_ok t ->
  exists r' t', readWindow_at inner config now ws j (r, t) =
      (Ok (point_value (content t) (w_merged w)), (r', t')) /\
    pr_ok t' /\ content t' ≡ content t /\ windows r' = windows r.
Proof.
  intros Hc Hj Hp Ht. unfold readWindow_at. rewrite Hc. change (0 <? 0) with false. cbv zeta iota.
  rewrite (go_index_Some ws (Z.of_nat j) w) by (rewrite ?Nat2Z.id; done || lia).
  change ((pure (Ok w) ≫= ?f) (r, t)) with (f w (r, t)).
  destruct (inner_read_spec [w_merged w] 1 r t) as (t1 & r1 & E1 & Ht1 & Hc1 & Hw1);
    [by constructor|done|].
  rewrite (SM_bind_Ok _ _ _ _ _ E1). cbn [map]. unfold cache_store. rewrite Hc.
  by exists r1, t1.
Qed.

Lemma read_windows_spec now ws order : forall acc r t,
  CacheTTL config = 0 ->
  (forall j, j ∈ order -> exists w, ws !! j = Some w /\ point_ok (w_merged w)) -> pr_ok t ->
  exists acc' r' t', read_windows inner config now ws order acc (r, t) = (Ok acc', (r', t')) /\
    pr_ok t' /\ content t' ≡ content t /\ windows r' = windows r /\
    (forall j w, j ∈ order -> ws !! j = Some w ->
       acc' !! j = Some (point_value (content t) (w_merged w))) /\
    (forall j, j ∉ order -> acc' !! j = acc !! j).
Proof.
  induction order as [|j0 order IH]; intros acc r t Hc Hord Ht; cbn [read_windows].
  { exists acc, r, t. repeat (split; [done|]). split; [|done].
    intros j w Hin. by apply not_elem_of_nil in Hin. }
  destruct (Hord j0 ltac:(left)) as (w0 & Hw0 & Hp0).
  destruct (readWindow_spec now ws j0 w0 r t Hc Hw0 Hp0 Ht) as (r1 & t1 & E1 & Ht1 & Hc1 & Hr1).
  rewrite (SM_bind_Ok _ _ _ _ _ E1).
  destruct (IH (<[j0 := point_value (content t) (w_merged w0)]> acc) r1 t1)
    as (acc' & r' & t' & E & H1 & H2 & H3 & H4 & H5); [done|intros; apply Hord; by right|done|].
  exists acc', r', t'. split; [exact E|]. split; [done|]. split; [by rewrite H2|].
  split; [congruence|]. split.
  - intros j w Hin Hj. destruct (decide (j ∈ order)) as [Hin'|Hn].
    + rewrite (H4 j w Hin' Hj). by rewrite Hc1.
    + apply elem_of_cons in Hin as [->|Hin]; [|done]. rewrite H5 by done.
      rewrite lookup_insert_eq. congruence.
  - intros j Hj. rewrite H5 by set_solver. apply lookup_insert_ne. set_solver.
Qed.

Lemma extract_all_spec m ws values ps : forall results,
  plan_ok ws ->
  Forall (fun ip => (ip.1 < length results)%nat /\ point_ok ip.2 /\
                    (is_Clusterable ip.2 = true -> point_fits ip.2)) ps ->
  NoDup ps.*1 ->
  (forall p j w, p ∈ ps.*2 -> window_of ws p = Some j -> ws !! j = Some w ->
     values !! j = Some (point_value m (w_merged w))) ->
  exists results', extract_all ws values ps results = Ok results' /\
    length results' = length results /\
    (forall i p j, (i, p) ∈ ps -> window_of ws p = Some j ->
       results' !! i = Some (point_value m p)) /\
    (forall i, (forall p, (i, p) ∈ ps -> window_of ws p = None) -> results' !! i = results !! i).
Proof.
  induction ps as [|[i p] ps IH]; intros results Hplan Hps Hnd Hv; cbn [extract_all].
  { exists results. repeat (split; [done|]). split; [|done].
    intros i p j Hin. by apply not_elem_of_nil in Hin. }
  apply Forall_cons in Hps as [(Hi & Hp & Hf) Hps]. cbn [fst snd fmap list_fmap] in *.
  apply NoDup_cons in Hnd as [Hni Hnd].
  assert (forall q, (i, q) ∉ ps) as Hno.
  { intros q Hq. apply Hni. apply list_elem_of_fmap. by exists (i, q). }
  destruct (window_of ws p) as [j|] eqn:Ew.
  - assert (point_fits p) as Hfit.
    { apply Hf. unfold window_of in Ew. by destruct (is_Clusterable p). }
    destruct (window_of_covers ws p j Hplan Hfit Ew) as (w & Hw & Hcov & H0 & He & Hok & Hm).
    rewrite (go_index_Some ws (Z.of_nat j) w) by (rewrite ?Nat2Z.id; done || lia).
    unfold mbind at 1, outcome_bind. rewrite (Hv p j w) by (done || left). cbn [from_option id].
    rewrite Hm. destruct Hcov as (_ & Hc1 & Hc2).
    destruct (extract_point m p (w_start w) (w_count w)) as (v & -> & Hset); [done..|].
    unfold mbind at 1, outcome_bind. rewrite go_set_lookup, Hset by done.
    unfold mbind at 1, outcome_bind.
    destruct (IH (<[i := point_value m p]> results)) as (res & E & Hl & H1 & H2);
      [done|by rewrite length_insert|done|intros q; intros; eapply Hv; eauto; by right|].
    rewrite length_insert in Hl. exists res. split; [exact E|]. split; [done|]. split.
    + intros k q j' Hin Hw'. apply elem_of_cons in Hin as [[= -> ->]|Hin]; [|by eapply H1].
      rewrite H2 by (intros q' Hq; by destruct (Hno q')). by rewrite list_lookup_insert_eq.
    + intros k Hk. rewrite H2 by (intros q Hq; apply Hk; by right).
      apply list_lookup_insert_ne. intros <-. specialize (Hk p ltac:(left)). congruence.
  - destruct (IH results) as (res & E & Hl & H1 & H2);
      [done|done|done|intros q; intros; eapply Hv; eauto; by right|].
    exists res. split; [exact E|]. split; [done|]. split.
    + intros k q j' Hin Hw'. apply elem_of_cons in Hin as [[= -> ->]|Hin]; [congruence|by eapply H1].
    + intros k Hk. apply H2. intros q Hq. apply Hk. by right.
Qed.
End ReaderLemmas.

(** ** Properties *)

(** The configured limits are within those of the protocol. *)
Definition config_ok (cfg : ClusterConfig) : Prop :=
  MaxRegistersPerRead cfg <= MaxRegisterCount /\ MaxCoilsPerRead cfg <= MaxCoilCount.

(** A point a plan can serve: valid, not wrapping, no larger than a window. *)
Definition plannable (cfg : ClusterConfig) (p : DataPoint) : Prop :=
  point_ok p /\ point_fits p /\ ClusterQty p <= maxPerRead cfg p.

Lemma merged_ok cfg p start count :
  config_ok cfg -> is_Clusterable p = true -> 0 <= start -> start + count < 65536 ->
  0 < count <= maxPerRead cfg p -> point_ok (ClusterMerge p start count).
Proof.
  intros [Hr Hc] Hcl Hs He Hn. unfold maxPerRead in Hn.
  destruct p; try done; cbn in *; op_limits; lia.
Qed.

Section ReaderProperties.
Context {T : Type} (inner : list DataPoint -> SM T (list (Value DataPoint))) `{!PointReader inner}.
Variable config : ClusterConfig.
Variable sortSlice : list DataPoint -> list DataPoint.
Hypothesis sortSlice_perm : forall l, sortSlice l ≡ₚ l.
Hypothesis sortSlice_sorted : forall l, StronglySorted by_addr (sortSlice l).
Variable visit : list nat -> list nat.
Hypothesis visit_perm : forall l, visit l ≡ₚ l.

Lemma build_plan_ok reg :
  config_ok config -> Forall (plannable config) reg -> plan_ok (buildWindows sortSlice reg config).
Proof.
  intros Hcfg Hreg w Hw.
  assert (Forall (fun p => point_fits p /\ ClusterQty p <= maxPerRead config p) reg) as Hreg'.
  { eapply Forall_impl; [exact Hreg|]. by intros p (_ & ? & ?). }
  destruct (proj1 (buildWindows_ok sortSlice sortSlice_perm sortSlice_sorted config reg Hreg') w Hw)
    as (p0 & Hp0 & Hk0 & Hwo).
  destruct (wo_merged _ _ Hwo) as (p & Hp & Hcl & Hm).
  pose proof (wo_points _ _ Hwo) as Hcov. rewrite Forall_forall in Hcov.
  destruct (Hcov p Hp) as (Hk & _).
  pose proof (wo_start _ _ Hwo). pose proof (wo_count _ _ Hwo). pose proof (wo_end _ _ Hwo).
  split; [done|]. split; [lia|]. split; [done|]. split; [|by exists p].
  rewrite Hm. apply (merged_ok config); try done.
  by rewrite (key_limit config p p0) by congruence.
Qed.

Lemma indexed_lookup (ps : list DataPoint) i p :
  (i, p) ∈ imap (fun i p => (i, p)) ps <-> ps !! i = Some p.
Proof.
  rewrite list_elem_of_lookup. setoid_rewrite list_lookup_imap. split.
  - intros (k & Hk). destruct (ps !! k) as [q|] eqn:E; [|done]. cbn in Hk. by simplify_eq.
  - intros Hi. exists i. by rewrite Hi.
Qed.
Lemma indexed_fst (ps : list DataPoint) : (imap (fun i p => (i, p)) ps).*1 = seq 0 (length ps).
Proof.
  apply list_eq. intros i. rewrite list_lookup_fmap, list_lookup_imap.
  destruct (decide (i < length ps)%nat) as [Hi|Hi].
  - rewrite lookup_seq_lt by done. destruct (lookup_lt_is_Some_2 ps i Hi) as [p Hp].
    by rewrite Hp.
  - rewrite lookup_seq_ge, lookup_ge_None_2 by lia. done.
Qed.

(** The plan serves every registered point: for any points that fit the
    limits, [findWindow] finds a window of the built plan that covers the point's
    whole range, and the window is a legal block read (its size is within the
    configured maximum of the area and it does not run past the address space). *)
Theorem plan_serves reg p :
  config_ok config -> Forall (plannable config) reg -> p ∈ reg ->
  exists j w, findWindow (buildWindows sortSlice reg config) p = Some j /\
    buildWindows sortSlice reg config !! j = Some w /\ w_key w = ClusterKey p /\
    w_start w <= ClusterAddr p /\
    ClusterAddr p + ClusterQty p <= w_start w + w_count w < 65536 /\
    w_count w <= maxPerRead config p /\ point_ok (w_merged w).
Proof.
  intros Hcfg Hreg Hp. destruct (plan_finds sortSlice sortSlice_perm sortSlice_sorted config reg p)
    as (j & w & Hj & Hw & (Hk & H1 & H2) & Hwo); [|done|].
  { eapply Forall_impl; [exact Hreg|]. by intros x (_ & ? & ?). }
  exists j, w. split; [done|]. split; [done|]. split; [done|]. split; [done|].
  split; [split; [done|apply Hwo]|]. split; [apply Hwo|].
  by apply (build_plan_ok reg Hcfg Hreg w), list_elem_of_lookup_2 with j.
Qed.

(** C7: Clustering without a cache is transparent.  With clustering enabled, no
    cache lifetime and a configuration whose limits a device accepts, let any points
    that fit the limit of a window be registered with a new reader.  A read of any
    valid, non-wrapping points (registered or not) through it returns exactly the
    values a direct read returns, in order, whatever way the points are sorted and
    the windows visited, and leaves the device unchanged.  With a cache a value may
    be as old as its lifetime, or come from another plan ([stale_cache_after_replan]). *)
Theorem clustering_transparent now reg ps (t : T) :
  Enabled config = true -> CacheTTL config = 0 -> config_ok config ->
  Forall (plannable config) reg -> Forall (fun p => point_ok p /\ point_fits p) ps -> pr_ok t ->
  exists r' t', Reader_Read inner config visit now ps
      (Register config sortSlice reg NewClusteringReader, t) =
    (Ok (map (point_value (content t)) ps), (r', t')) /\ pr_ok t' /\ content t' ≡ content t.
Proof.
  intros Hen Hc Hcfg Hreg Hps Ht. unfold Reader_Read. rewrite Hen. cbn [negb fst].
  set (r := Register config sortSlice reg NewClusteringReader). set (ws := windows r).
  assert (plan_ok ws) as Hplan.
  { unfold ws, r, Register, replan. cbn [windows points NewClusteringReader app].
    apply build_plan_ok; [done|]. apply Forall_forall. intros p [_ Hp]%list_elem_of_filter.
    rewrite Forall_forall in Hreg. by apply Hreg. }
  rewrite Forall_forall in Hps. set (ips := imap (fun i p => (i, p)) ps).
  assert (NoDup ips.*1) as Hnd by (unfold ips; rewrite indexed_fst; apply NoDup_seq).
  assert (forall i p, (i, p) ∈ ips -> (i < length ps)%nat /\ point_ok p /\ point_fits p) as Hin.
  { intros i p Hi%indexed_lookup. split; [by eapply lookup_lt_Some|].
    apply Hps. by eapply list_elem_of_lookup_2. }
  destruct (direct_reads_spec inner ws ips (replicate (length ps) zeroValue) r t)
    as (res & r1 & t1 & E1 & Ht1 & Hc1 & Hl1 & _ & Hd1 & _); [|done|done|].
  { apply Forall_forall. intros [i p] Hip. rewrite length_replicate.
    by destruct (Hin i p Hip) as (? & ? & _). }
  rewrite (SM_bind_Ok _ _ _ _ _ E1).
  destruct (read_windows_spec inner config now ws
    (visit (remove_dups (omap (window_of ws) ps))) ∅ r1 t1) as
    (vals & r2 & t2 & E2 & Ht2 & Hc2 & _ & Hv2 & _); [done| |done|].
  { intros j Hj. rewrite visit_perm, elem_of_remove_dups in Hj.
    apply list_elem_of_omap in Hj as (p & Hp & Hw). destruct (Hps p Hp) as [_ Hf].
    destruct (window_of_covers ws p j Hplan Hf Hw) as (w & Hl & _ & _ & _ & Hok & _). by exists w. }
  rewrite (SM_bind_Ok _ _ _ _ _ E2). rewrite length_replicate in Hl1.
  destruct (extract_all_spec (content t1) ws vals ips res) as (res' & E3 & Hl3 & Hx & Hk);
    [done| |done| |].
  { apply Forall_forall. intros [i p] Hip. rewrite Hl1.
    by destruct (Hin i p Hip) as (? & ? & ?). }
  { intros p j w Hp Hw Hj. apply Hv2; [|done]. rewrite visit_perm, elem_of_remove_dups.
    apply list_elem_of_fmap in Hp as ([i q] & -> & Hq%indexed_lookup).
    apply list_elem_of_omap. exists q. split; [by eapply list_elem_of_lookup_2|done]. }
  exists r2, t2. split; [|split; [done|by rewrite Hc2]]. unfold pure. rewrite E3. do 2 f_equal.
  apply list_eq. intros i. rewrite list_lookup_fmap. destruct (ps !! i) as [p|] eqn:Ep.
  - pose proof (proj2 (indexed_lookup ps i p) Ep) as Hip. destruct (window_of ws p) as [j|] eqn:Ew.
    + rewrite (Hx i p j Hip Ew). cbn. by rewrite Hc1.
    + rewrite Hk; [by apply Hd1|]. intros q Hq%indexed_lookup. congruence.
  - apply lookup_ge_None_2. apply lookup_ge_None_1 in Ep. cbn in *. lia.
Qed.
End ReaderProperties.

(** ** A concrete sort, and concrete readers *)
#[export] Instance by_addr_dec : RelDecision by_addr.
Proof. intros p q. unfold by_addr. apply _. Defined.
#[export] Instance by_addr_total : Total by_addr.
Proof. intros p q. unfold by_addr. lia. Qed.
#[export] Instance by_addr_trans : Transitive by_addr.
Proof. intros p q r. unfold by_addr. lia. Qed.

Definition addr_sort : list DataPoint -> list DataPoint := merge_sort by_addr.
Lemma addr_sort_perm l : addr_sort l ≡ₚ l.
Proof. apply merge_sort_Permutation. Qed.
Lemma addr_sort_sorted l : StronglySorted by_addr (addr_sort l).
Proof. apply StronglySorted_merge_sort; apply _. Qed.

(** A client of an in-memory server, as the wrapped reader. *)
Definition ex_client : Client := mkClientCfg 1 0.
Definition ex_inner : list DataPoint -> SM MemoryStore (list (Value DataPoint)) :=
  @Client_Read unit MemoryStore served_transport served_link ex_client 0.
#[local] Instance ex_reader : PointReader ex_inner :=
  @client_reader unit MemoryStore served_transport served_link served_device ex_client 0
    ltac:(done).

#[export] Instance point_ok_dec p : Decision (point_ok p).
Proof. destruct p; apply _. Defined.
#[export] Instance point_fits_dec p : Decision (point_fits p).
Proof. unfold point_fits. apply _. Defined.
#[export] Instance plannable_dec cfg p : Decision (plannable cfg p).
Proof. unfold plannable. apply _. Defined.

Lemma plan_serves_witness :
  exists j w, findWindow (buildWindows addr_sort [Coil 7 3; HoldingRegister 9 2; Coil 2 1]
      DefaultClusterConfig) (Coil 2 1) = Some j /\
    buildWindows addr_sort [Coil 7 3; HoldingRegister 9 2; Coil 2 1] DefaultClusterConfig !! j =
      Some w /\ w_start w <= 2.
Proof.
  destruct (plan_serves DefaultClusterConfig addr_sort addr_sort_perm addr_sort_sorted
    [Coil 7 3; HoldingRegister 9 2; Coil 2 1] (Coil 2 1)) as (j & w & Hj & Hw & _ & Hs & _).
  - split; done.
  - decided.
  - decided.
  - exists j, w. split; [exact Hj|]. split; [exact Hw|exact Hs].
Defined.

Lemma clustering_transparent_witness :
  exists r' t', Reader_Read ex_inner DefaultClusterConfig reverse 0
      [HoldingRegister 12 1; Coil 7 3; InputRegister 3 2]
      (Register DefaultClusterConfig addr_sort
         [HoldingRegister 10 1; HoldingRegister 12 1; Coil 7 3] NewClusteringReader,
       NewMemoryStore) =
    (Ok (map (point_value (mview NewMemoryStore))
           [HoldingRegister 12 1; Coil 7 3; InputRegister 3 2]), (r', t')).
Proof.
  destruct (clustering_transparent ex_inner DefaultClusterConfig addr_sort addr_sort_perm
    addr_sort_sorted reverse reverse_Permutation 0
    [HoldingRegister 10 1; HoldingRegister 12 1; Coil 7 3]
    [HoldingRegister 12 1; Coil 7 3; InputRegister 3 2] NewMemoryStore) as (r' & t' & E & _).
  - done.
  - done.
  - split; done.
  - decided.
  - decided.
  - split; apply map_Forall_empty.
  - exists r', t'. exact E.
Defined.

(** The plan breaks at the end of the address space.  Registering holding
    registers 65510 and 65535 with the default configuration puts the latter into
    a window that does not contain it (its end wraps to 0), and reading it
    panics, while a direct read of it succeeds. *)
Theorem wrapping_point_panics :
  (Reader_Read ex_inner DefaultClusterConfig (fun l => l) 0 [HoldingRegister 65535 1]
     (Register DefaultClusterConfig addr_sort [HoldingRegister 65510 1; HoldingRegister 65535 1]
        NewClusteringReader, NewMemoryStore)).1 = Panic /\
  (ex_inner [HoldingRegister 65535 1] NewMemoryStore).1 =
    Ok [mkValue (Some (HoldingRegister 65535 1)) [0; 0] TypeUint16 ByteOrderBigEndian].
Proof. split; vm_compute; reflexivity. Qed.

(** A replan does not invalidate reads in flight.  A window read started
    under one plan and finished after a registration stores its result under the
    same index of the new plan: with caching on, the next read of register 0
    returns the content of register 100. *)
Theorem stale_cache_after_replan :
  let cfg := mkClusterConfig 32 120 2000 1000 true in
  let store := (Mem.WriteSingleRegister 100 22
                  (Mem.WriteSingleRegister 0 11 NewMemoryStore).2).2 in
  let r0 := Register cfg addr_sort [HoldingRegister 100 1] NewClusteringReader in
  let in_flight := point_value (mview store) (HoldingRegister 100 1) in
  let r1 := Register cfg addr_sort [HoldingRegister 0 1] r0 in
  let r2 := cache_store cfg 5 0 in_flight r1 in
  (readWindow_at ex_inner cfg 0 (windows r0) 0 (r0, store)).1 = Ok in_flight /\
  (ex_inner [HoldingRegister 0 1] store).1 =
    Ok [mkValue (Some (HoldingRegister 0 1)) [0; 11] TypeUint16 ByteOrderBigEndian] /\
  (Reader_Read ex_inner cfg (fun l => l) 6 [HoldingRegister 0 1] (r2, store)).1 =
    Ok [mkValue (Some (HoldingRegister 0 1)) [0; 22] TypeUint16 ByteOrderBigEndian].
Proof. vm_compute. repeat split. Qed.
