(* ===== verification/ClusterFlight.v ===== *)
(** * Concurrent reads of a cluster window

    Models [readWindow] of [monitor/cluster.go] as goroutines run it: the cache,
    the table of reads in flight and the entries that calls share.  [MonitorCluster]
    models one call with nobody else about; here any number of calls, replans and
    cancellations interleave at every access to shared state.  The inner reader is
    the environment and may answer anything.  [f_lead] and [answers] record what
    happened and influence nothing. *)
From S2P Require Import Prelude Bytes Plc ModbusClient MonitorCluster.

Definition PlcValue : Type := Value DataPoint.

Record flightEntry : Type := mkFlight {
  f_done : bool; f_val : PlcValue; f_err : option error; f_lead : nat }.

(** Where a call is; it has got, or made, the entry [f]. *)
Inductive cpc : Type :=
| CCache                                   (** before the cache *)
| CFlight                                  (** before the table *)
| CWait (f : nat)                          (** waits for another call *)
| CInner (f : nat)                         (** in the inner reader *)
| CStore (f : nat)                         (** before the cache is written *)
| CClose (f : nat) (err : option error)    (** before the entry is closed *)
| CDelete (f : nat) (err : option error)   (** before the entry leaves the table *)
| CHit (v : PlcValue)                      (** returned from the cache *)
| CReturned (r : outcome PlcValue).
(** The arguments of a call and where it is. *)
Record call : Type := mkCall { c_ws : list readWindow; c_win : nat; c_gen : Z; c_pc : cpc }.
Definition c_key (c : call) : Z * nat := (c_gen c, c_win c).
Definition at_pc (p : cpc) (c : call) : call := mkCall (c_ws c) (c_win c) (c_gen c) p.

Record system : Type := mkSystem {
  rd : ClusteringReader;
  flights : gmap (Z * nat) nat;
  entries : gmap nat flightEntry;
  calls : gmap nat call;
  answers : list (DataPoint * option PlcValue)
}.

Definition set_rd (r : ClusteringReader) (s : system) : system :=
  mkSystem r (flights s) (entries s) (calls s) (answers s).
Definition set_call (k : nat) (c : call) (s : system) : system :=
  mkSystem (rd s) (flights s) (entries s) (<[k := c]> (calls s)) (answers s).
Definition set_flights (m : gmap (Z * nat) nat) (s : system) : system :=
  mkSystem (rd s) m (entries s) (calls s) (answers s).
Definition set_entry (f : nat) (e : flightEntry) (s : system) : system :=
  mkSystem (rd s) (flights s) (<[f := e]> (entries s)) (calls s) (answers s).
Definition log_answer (p : DataPoint) (v : option PlcValue) (s : system) : system :=
  mkSystem (rd s) (flights s) (entries s) (calls s) (answers s ++ [(p, v)]).
Definition count_read (r : ClusteringReader) : ClusteringReader :=
  mkReader (points r) (windows r) (cache r) (gen r) (ReadCount r + 1).

Section Flight.
Variable config : ClusterConfig.
Variable sortSlice : list DataPoint -> list DataPoint.

Inductive act : Type :=
| AReplan (ps : list DataPoint) (register : bool)
| ACall (k winIdx : nat)                       (** [Read] calls [readWindow] *)
| ACache (k : nat) (now : Z)
| AFlight (k : nat)
| AJoin (k : nat)
| ACancel (k : nat)                            (** the call's context ends *)
| AInner (k : nat) (r : error + list PlcValue) (** the inner reader returns *)
| AStore (k : nat) (now : Z)
| AClose (k : nat)
| ADelete (k : nat).

Definition new_entry (s : system) : nat := fresh (elements (dom (entries s) : gset nat)).
Definition cache_hit (now : Z) (winIdx : nat) (r : ClusteringReader) : option PlcValue :=
  if 0 <? CacheTTL config then
    match cache r !! winIdx with
    | Some cached => if now - c_timestamp cached <? CacheTTL config then Some (c_val cached) else None
    | None => None
    end
  else None.

(** A step of call [k], which has made entry [f]. *)
Definition inner_returns (k f : nat) (c : call) (e : flightEntry) (r : error + list PlcValue)
  (s : system) : outcome system :=
  match c_ws c !! c_win c with
  | None => Panic
  | Some w =>
      let s := set_rd (count_read (rd s)) s in
      Ok match r with
         | inr (v :: _) =>
             set_call k (at_pc (CStore f) c)
               (log_answer (w_merged w) (Some v) (set_entry f (mkFlight (f_done e) v (f_err e) (f_lead e)) s))
         | inr [] => set_call k (at_pc (CClose f None) c) (log_answer (w_merged w) None s)
         | inl err => set_call k (at_pc (CClose f (Some err)) c) s
         end
  end.
Definition close_entry (k f : nat) (err : option error) (c : call) (e : flightEntry) (s : system)
  : outcome system :=
  if f_done e then Panic
  else Ok (set_call k (at_pc (CDelete f err) c)
         (set_entry f (mkFlight true (f_val e) err (f_lead e)) s)).

Definition step (a : act) (s : system) : option (outcome system) :=
  match a with
  | AReplan ps register =>
      Some (Ok (set_rd ((if register then Register else Unregister) config sortSlice ps (rd s)) s))
  | ACall k winIdx =>
      match calls s !! k with
      | None =>
          if (winIdx <? length (windows (rd s)))%nat
          then Some (Ok (set_call k (mkCall (windows (rd s)) winIdx (gen (rd s)) CCache) s))
          else None
      | Some _ => None
      end
  | ACache k now =>
      c ← calls s !! k;
      match c_pc c with
      | CCache =>
          Some (Ok (set_call k (at_pc (match cache_hit now (c_win c) (rd s) with
                                       | Some v => CHit v
                                       | None => CFlight
                                       end) c) s))
      | _ => None
      end
  | AFlight k =>
      c ← calls s !! k;
      match c_pc c with
      | CFlight =>
          match flights s !! c_key c with
          | Some f => Some (Ok (set_call k (at_pc (CWait f) c) s))
          | None =>
              let f := new_entry s in
              Some (Ok (set_call k (at_pc (CInner f) c)
                (set_entry f (mkFlight false zeroValue None k)
                  (set_flights (<[c_key c := f]> (flights s)) s))))
          end
      | _ => None
      end
  | AJoin k =>
      c ← calls s !! k;
      match c_pc c with
      | CWait f =>
          e ← entries s !! f;
          if f_done e
          then Some (Ok (set_call k (at_pc (CReturned (match f_err e with Some err => Err err | None => Ok (f_val e) end)) c) s))
          else None
      | _ => None
      end
  | ACancel k =>
      c ← calls s !! k;
      match c_pc c with
      | CWait f => Some (Ok (set_call k (at_pc (CReturned (Err (Errorf "context canceled"))) c) s))
      | _ => None
      end
  | AInner k r =>
      c ← calls s !! k;
      match c_pc c with
      | CInner f => e ← entries s !! f; Some (inner_returns k f c e r s)
      | _ => None
      end
  | AStore k now =>
      c ← calls s !! k;
      match c_pc c with
      | CStore f =>
          e ← entries s !! f;
          Some (Ok (set_call k (at_pc (CClose f None) c)
            (set_rd (cache_store config now (c_win c) (f_val e) (rd s)) s)))
      | _ => None
      end
  | AClose k =>
      c ← calls s !! k;
      match c_pc c with
      | CClose f err => e ← entries s !! f; Some (close_entry k f err c e s)
      | _ => None
      end
  | ADelete k =>
      c ← calls s !! k;
      match c_pc c with
      | CDelete f err =>
          e ← entries s !! f;
          Some (Ok (set_call k (at_pc (CReturned (match err with Some err => Err err | None => Ok (f_val e) end)) c)
            (set_flights (delete (c_key c) (flights s)) s)))
      | _ => None
      end
  end.

Definition new_system : system := mkSystem NewClusteringReader ∅ ∅ ∅ [].
Inductive reach : system -> Prop :=
| reach_new : reach new_system
| reach_step a s s' : reach s -> step a s = Some (Ok s') -> reach s'.
Fixpoint exec (acts : list act) (s : system) : option system :=
  match acts with
  | [] => Some s
  | a :: acts => match step a s with Some (Ok s) => exec acts s | _ => None end
  end.

(** ** The invariant *)

(** The call made the entry and has not returned. *)
Definition leads (p : cpc) : option nat :=
  match p with CInner f | CStore f | CClose f _ | CDelete f _ => Some f | _ => None end.
Definition is_delete (p : cpc) : bool := match p with CDelete _ _ => true | _ => false end.
(** The inner reader answered a read of the call's window with the value. *)
Definition answered (c : call) (v : PlcValue) (s : system) : Prop :=
  exists w, c_ws c !! c_win c = Some w /\
    ((w_merged w, Some v) ∈ answers s \/ (v = zeroValue /\ (w_merged w, None) ∈ answers s)).
(** What an entry holds when its call is at [p]. *)
Definition holds_at (p : cpc) (c : call) (e : flightEntry) (s : system) : Prop :=
  match p with
  | CInner _ => f_val e = zeroValue
  | CStore _ | CClose _ None => answered c (f_val e) s
  | CDelete _ err => f_err e = err
  | _ => True
  end.

Record finv (s : system) : Prop := {
  fi_gen : forall k c, calls s !! k = Some c ->
    c_gen c <= gen (rd s) /\ (c_gen c = gen (rd s) -> c_ws c = windows (rd s)) /\ is_Some (c_ws c !! c_win c);
  fi_same : forall k k' c c', calls s !! k = Some c -> calls s !! k' = Some c' ->
    c_gen c = c_gen c' -> c_ws c = c_ws c';
  fi_lead : forall k c f, calls s !! k = Some c -> leads (c_pc c) = Some f ->
    flights s !! c_key c = Some f /\
    exists e, entries s !! f = Some e /\ f_lead e = k /\ f_done e = is_delete (c_pc c) /\ holds_at (c_pc c) c e s;
  fi_flight : forall key f, flights s !! key = Some f ->
    exists k c, calls s !! k = Some c /\ leads (c_pc c) = Some f /\ c_key c = key;
  fi_entry : forall f e, entries s !! f = Some e ->
    exists c, calls s !! f_lead e = Some c /\ (f_done e = true \/ leads (c_pc c) = Some f) /\
      (f_done e = true -> f_err e = None -> answered c (f_val e) s);
  fi_wait : forall k c f, calls s !! k = Some c -> c_pc c = CWait f ->
    exists e c', entries s !! f = Some e /\ calls s !! f_lead e = Some c' /\ c_key c' = c_key c;
  fi_ret : forall k c v, calls s !! k = Some c -> c_pc c = CReturned (Ok v) -> answered c v s
}.

Lemma new_finv : finv new_system.
Proof. by split. Qed.

Lemma answered_mono c v s s' :
  (forall x, x ∈ answers s -> x ∈ answers s') -> answered c v s -> answered c v s'.
Proof. intros H (w & Hw & [Ha|[Hv Ha]]); exists w; split; auto. Qed.
(** Calls of one generation with one index are about one window. *)
Lemma answered_same k k' c c' v s :
  finv s -> calls s !! k = Some c -> calls s !! k' = Some c' -> c_key c' = c_key c ->
  answered c' v s -> answered c v s.
Proof.
  intros I Hk Hk' [= E1 E2] (w & Hw & Ha). exists w. split; [|done].
  by rewrite <-E2, (fi_same _ I k k' c c' Hk Hk').
Qed.

(** The reader's state changes, not the plan. *)
Lemma rd_finv r s :
  finv s -> gen r = gen (rd s) -> windows r = windows (rd s) -> finv (set_rd r s).
Proof. intros [] E1 E2. split; try done. cbn. rewrite E1, E2. done. Qed.
Lemma replan_finv r s : finv s -> gen r = gen (rd s) + 1 -> finv (set_rd r s).
Proof.
  intros [] E. split; try done. cbn. intros k c Hk. destruct (fi_gen0 k c Hk) as (A & B & C). rewrite E.
  split_and!; [lia|lia|done].
Qed.
Lemma log_finv p v s : finv s -> finv (log_answer p v s).
Proof.
  intros []. assert (forall c u, answered c u s -> answered c u (log_answer p v s)) as Hm.
  { intros c u. apply answered_mono. cbn. intros x. rewrite elem_of_app. auto. }
  split; try done.
  - intros k c f H1 H2. destruct (fi_lead0 k c f H1 H2) as (A & e & B1 & B2 & B3 & B4). split; [done|].
    exists e. split_and!; try done. destruct (c_pc c) as [| | | | |? []| | |]; cbn in *; auto.
  - intros f e H. destruct (fi_entry0 f e H) as (c & A & B & C). exists c. split_and!; auto.
  - intros k c u H1 H2. apply Hm. by eapply fi_ret0.
Qed.

(** A call moves: what does not depend on where it is stays. *)
Lemma moved k c p s k' c' :
  calls s !! k = Some c -> calls s !! k' = Some c' ->
  exists c2, <[k := at_pc p c]> (calls s) !! k' = Some c2 /\ c_key c2 = c_key c' /\
    (forall v, answered c' v s -> answered c2 v s) /\
    ((k' = k /\ c' = c /\ c_pc c2 = p) \/ c2 = c').
Proof.
  intros Hk Hk'. destruct (decide (k' = k)) as [->|Hne].
  - exists (at_pc p c). rewrite lookup_insert_eq. assert (c' = c) as -> by congruence. split_and!; try done. by left.
  - exists c'. rewrite lookup_insert_ne by done. split_and!; try done. by right.
Qed.
Lemma moved_gen k c p s :
  finv s -> calls s !! k = Some c -> forall k' c', <[k := at_pc p c]> (calls s) !! k' = Some c' ->
  c_gen c' <= gen (rd s) /\ (c_gen c' = gen (rd s) -> c_ws c' = windows (rd s)) /\ is_Some (c_ws c' !! c_win c').
Proof.
  intros I Hk k' c' [[<- <-]|[_ H]]%lookup_insert_Some; [by apply (fi_gen _ I k c)|by apply (fi_gen _ I k' c')].
Qed.
Lemma moved_same k c p s :
  finv s -> calls s !! k = Some c -> forall k1 k2 c1 c2,
  <[k := at_pc p c]> (calls s) !! k1 = Some c1 -> <[k := at_pc p c]> (calls s) !! k2 = Some c2 ->
  c_gen c1 = c_gen c2 -> c_ws c1 = c_ws c2.
Proof.
  intros I Hk k1 k2 c1 c2 [[<- <-]|[_ H1]]%lookup_insert_Some [[<- <-]|[_ H2]]%lookup_insert_Some; cbn;
    eauto using fi_same.
Qed.

(** A call that leads nothing moves. *)
Lemma idle_finv k c p s :
  finv s -> calls s !! k = Some c -> leads (c_pc c) = None -> leads p = None ->
  (forall f, p = CWait f -> exists e c', entries s !! f = Some e /\ calls s !! f_lead e = Some c' /\ c_key c' = c_key c) ->
  (forall v, p = CReturned (Ok v) -> answered c v s) ->
  finv (set_call k (at_pc p c) s).
Proof.
  intros I Hk Hl Hp Hw Hr. pose proof I as [].
  assert (forall k' c', calls s !! k' = Some c' -> leads (c_pc c') <> None ->
    calls (set_call k (at_pc p c) s) !! k' = Some c') as Hkeep.
  { intros k' c' H1 H2. cbn. rewrite lookup_insert_ne; [done|]. intros <-. congruence. }
  split; cbn [set_call rd flights entries calls answers].
  - by apply moved_gen.
  - by apply moved_same.
  - intros k' c' f [[<- <-]|[_ H1]]%lookup_insert_Some H2; [cbn in H2; congruence|by apply fi_lead0].
  - intros key f H. destruct (fi_flight0 key f H) as (k' & c' & A & B & C). exists k', c'.
    split_and!; try done. apply Hkeep; [done|congruence].
  - intros f e H. destruct (fi_entry0 f e H) as (c' & A & B & C). destruct (moved k c p s _ _ Hk A) as (c2 & D1 & D2 & D3 & D4).
    exists c2. split_and!; [done| |eauto]. destruct B as [B|B]; [by left|].
    destruct D4 as [(_ & -> & _)| ->]; [congruence|by right].
  - intros k' c' f H1 H2.
    assert (exists e c0, entries s !! f = Some e /\ calls s !! f_lead e = Some c0 /\ c_key c0 = c_key c') as (e & c0 & A & B & C).
    { apply lookup_insert_Some in H1 as [[<- <-]|[_ H1]]; [by apply Hw|by eapply fi_wait0]. }
    destruct (moved k c p s _ _ Hk B) as (c2 & D1 & D2 & _). exists e, c2. split_and!; try done. congruence.
  - intros k' c' v [[<- <-]|[_ H1]]%lookup_insert_Some H2; [by apply Hr|by eapply fi_ret0].
Qed.

(** A call that leads an entry moves, and changes the entry. *)
Lemma lead_finv k c f e e' p s :
  finv s -> calls s !! k = Some c -> leads (c_pc c) = Some f -> entries s !! f = Some e ->
  leads p = Some f -> f_lead e' = k -> f_done e' = is_delete p -> holds_at p c e' s ->
  (f_done e' = true -> f_err e' = None -> answered c (f_val e') s) ->
  finv (set_call k (at_pc p c) (set_entry f e' s)).
Proof.
  intros I Hk Hl Hf Hp E1 E2 E3 E4. pose proof I as []. set (s' := set_call _ _ _).
  assert (f_lead e = k) as Ek.
  { destruct (fi_lead0 k c f Hk Hl) as (_ & e0 & ? & ? & _). congruence. }
  split; cbn [s' set_call set_entry rd flights entries calls answers].
  - by apply moved_gen.
  - by apply moved_same.
  - intros k' c' f' [[<- <-]|[Hne H1]]%lookup_insert_Some H2.
    + cbn in H2. assert (f' = f) as -> by congruence. destruct (fi_lead0 k c f Hk Hl) as (A & _).
      split; [done|]. exists e'. rewrite lookup_insert_eq. by split_and!.
    + destruct (fi_lead0 k' c' f' H1 H2) as (A & e0 & B1 & B2 & B3 & B4). split; [done|]. exists e0.
      split_and!; try done. rewrite lookup_insert_ne; [done|]. intros <-. congruence.
  - intros key f' H. destruct (fi_flight0 key f' H) as (k' & c' & A & B & C).
    destruct (moved k c p s _ _ Hk A) as (c2 & D1 & D2 & _ & D4). exists k', c2. split_and!; try done; [|congruence].
    destruct D4 as [(_ & -> & ->)| ->]; congruence.
  - intros f' e0 H. destruct (decide (f' = f)) as [->|Hne].
    + rewrite lookup_insert_eq in H. injection H as <-. rewrite E1. exists (at_pc p c).
      rewrite lookup_insert_eq. split_and!; try done. by right.
    + rewrite lookup_insert_ne in H by done. destruct (fi_entry0 f' e0 H) as (c' & A & B & C).
      destruct (moved k c p s _ _ Hk A) as (c2 & D1 & D2 & D3 & D4). exists c2. split_and!; [done| |eauto].
      destruct B as [B|B]; [by left|]. right. destruct D4 as [(_ & -> & ->)| ->]; congruence.
  - intros k' c' f' [[<- <-]|[Hne H1]]%lookup_insert_Some H2; [cbn in H2; subst p; done|].
    destruct (fi_wait0 k' c' f' H1 H2) as (e0 & c0 & A & B & C).
    destruct (moved k c p s _ _ Hk B) as (c2 & D1 & D2 & _). destruct (decide (f' = f)) as [->|Hf'].
    + exists e', c2. rewrite lookup_insert_eq, E1. assert (e0 = e) as -> by congruence. rewrite Ek in D1.
      split_and!; try done. congruence.
    + exists e0, c2. rewrite lookup_insert_ne by done. split_and!; try done. congruence.
  - intros k' c' v [[<- <-]|[_ H1]]%lookup_insert_Some H2; [cbn in H2; subst p; done|by eapply fi_ret0].
Qed.

(** What is known of the entry a call leads. *)
Lemma entry_of k c f e s :
  finv s -> calls s !! k = Some c -> leads (c_pc c) = Some f -> entries s !! f = Some e ->
  f_lead e = k /\ f_done e = is_delete (c_pc c) /\ holds_at (c_pc c) c e s.
Proof.
  intros I Hk Hl He. destruct (fi_lead _ I k c f Hk Hl) as (_ & e0 & E & H). by assert (e0 = e) as -> by congruence.
Qed.
(** The call moves, the entry stays as it is. *)
Lemma lead_keep_finv k c f e p s :
  finv s -> calls s !! k = Some c -> leads (c_pc c) = Some f -> entries s !! f = Some e ->
  leads p = Some f -> f_done e = false -> is_delete p = false -> holds_at p c e s ->
  finv (set_call k (at_pc p c) s).
Proof.
  intros I Hk Hl He Hp Hd Hx Hh. destruct (entry_of k c f e s I Hk Hl He) as (E1 & _).
  pose proof (lead_finv k c f e e p s I Hk Hl He Hp E1) as H. unfold set_entry in H.
  rewrite insert_id in H by done. destruct s. apply H; congruence.
Qed.

Lemma new_entry_fresh s : entries s !! new_entry s = None.
Proof. apply not_elem_of_dom. rewrite <-elem_of_elements. apply infinite_is_fresh. Qed.

(** A call makes an entry. *)
Lemma takeoff_finv k c s :
  finv s -> calls s !! k = Some c -> c_pc c = CFlight -> flights s !! c_key c = None ->
  finv (set_call k (at_pc (CInner (new_entry s)) c)
    (set_entry (new_entry s) (mkFlight false zeroValue None k)
      (set_flights (<[c_key c := new_entry s]> (flights s)) s))).
Proof.
  intros I Hk Hpc Hfree. pose proof I as []. pose proof (new_entry_fresh s) as Hnew. set (f := new_entry s) in *. clearbody f.
  assert (forall k' c' f', calls s !! k' = Some c' -> leads (c_pc c') = Some f' ->
    k' <> k /\ f' <> f /\ c_key c' <> c_key c) as Hother.
  { intros k' c' f' H1 H2. destruct (fi_lead0 k' c' f' H1 H2) as (A & e & B & _). split_and!.
    - intros ->. assert (c' = c) as -> by congruence. by rewrite Hpc in H2.
    - intros ->. congruence.
    - intros E. congruence. }
  split; cbn [set_call set_entry set_flights rd flights entries calls answers].
  - by apply moved_gen.
  - by apply moved_same.
  - intros k' c' f' [[<- <-]|[Hne H1]]%lookup_insert_Some H2.
    + cbn in H2. injection H2 as <-. cbn. rewrite !lookup_insert_eq. split; [done|]. by eexists.
    + destruct (Hother k' c' f' H1 H2) as (_ & Hf' & Hk').
      destruct (fi_lead0 k' c' f' H1 H2) as (A & e & B). rewrite !lookup_insert_ne by done. by eauto.
  - intros key f' [[<- <-]|[Hne H]]%lookup_insert_Some.
    + exists k, (at_pc (CInner f) c). by rewrite lookup_insert_eq.
    + destruct (fi_flight0 key f' H) as (k' & c' & A & B & C). destruct (Hother k' c' f' A B) as (Hk' & _).
      exists k', c'. by rewrite lookup_insert_ne.
  - intros f' e [[<- <-]|[Hne H]]%lookup_insert_Some.
    + exists (at_pc (CInner f) c). cbn. rewrite lookup_insert_eq. split_and!; [done|by right|done].
    + destruct (fi_entry0 f' e H) as (c' & A & B & C). destruct (moved k c (CInner f) s _ _ Hk A) as (c2 & D1 & _ & D3 & D4).
      exists c2. split_and!; [done| |eauto]. destruct B as [B|B]; [by left|]. right.
      destruct D4 as [(_ & -> & _)| ->]; [by rewrite Hpc in B|done].
  - intros k' c' f' [[<- <-]|[Hne H1]]%lookup_insert_Some H2; [done|].
    destruct (fi_wait0 k' c' f' H1 H2) as (e & c0 & A & B & C). destruct (moved k c (CInner f) s _ _ Hk B) as (c2 & D1 & D2 & _).
    exists e, c2. rewrite lookup_insert_ne by congruence. split_and!; try done. congruence.
  - intros k' c' v [[<- <-]|[_ H1]]%lookup_insert_Some H2; [done|by eapply fi_ret0].
Qed.

(** A call takes its entry out of the table and returns. *)
Lemma landing_finv k c f err e s :
  finv s -> calls s !! k = Some c -> c_pc c = CDelete f err -> entries s !! f = Some e ->
  finv (set_call k (at_pc (CReturned (match err with Some err => Err err | None => Ok (f_val e) end)) c)
    (set_flights (delete (c_key c) (flights s)) s)).
Proof.
  intros I Hk Hpc He. pose proof I as []. assert (leads (c_pc c) = Some f) as Hl by by rewrite Hpc.
  destruct (fi_lead0 k c f Hk Hl) as (Hfl & e1 & E0 & E1 & E2 & E3). assert (e1 = e) as -> by congruence.
  rewrite Hpc in E2, E3. cbn in E2, E3.
  assert (forall k' c' f', calls s !! k' = Some c' -> leads (c_pc c') = Some f' -> k' <> k ->
    f' <> f /\ c_key c' <> c_key c) as Hother.
  { intros k' c' f' H1 H2 Hne. destruct (fi_lead0 k' c' f' H1 H2) as (A & e' & B1 & B2 & _). split.
    - intros ->. congruence.
    - intros E. rewrite E in A. congruence. }
  set (p := CReturned _).
  split; cbn [set_call set_flights rd flights entries calls answers].
  - by apply moved_gen.
  - by apply moved_same.
  - intros k' c' f' [[<- <-]|[Hne H1]]%lookup_insert_Some H2; [done|].
    destruct (Hother k' c' f' H1 H2) as [_ Hkey]; [done|].
    destruct (fi_lead0 k' c' f' H1 H2) as (A & B). rewrite lookup_delete_ne by done. done.
  - intros key f' [Hne H]%lookup_delete_Some. destruct (fi_flight0 key f' H) as (k' & c' & A & B & C).
    exists k', c'. rewrite lookup_insert_ne; [done|]. intros <-. congruence.
  - intros f' e' H. destruct (fi_entry0 f' e' H) as (c' & A & B & C).
    destruct (moved k c p s _ _ Hk A) as (c2 & D1 & _ & D3 & D4). exists c2. split_and!; [done| |eauto].
    destruct B as [B|B]; [by left|]. destruct D4 as [(_ & -> & _)| ->]; [|by right].
    left. assert (f' = f) as -> by congruence. congruence.
  - intros k' c' f' [[<- <-]|[Hne H1]]%lookup_insert_Some H2; [done|].
    destruct (fi_wait0 k' c' f' H1 H2) as (e' & c0 & A & B & C). destruct (moved k c p s _ _ Hk B) as (c2 & D1 & D2 & _).
    exists e', c2. split_and!; try done. congruence.
  - intros k' c' v [[<- <-]|[_ H1]]%lookup_insert_Some H2; [|by eapply fi_ret0].
    cbn in H2. unfold p in H2. destruct err; [done|]. injection H2 as <-.
    destruct (fi_entry0 f e He) as (c' & A & _ & C). rewrite E1 in A. assert (c' = c) as -> by congruence. by apply C.
Qed.

(** A new call. *)
Lemma call_finv k winIdx s :
  finv s -> calls s !! k = None -> (winIdx < length (windows (rd s)))%nat ->
  finv (set_call k (mkCall (windows (rd s)) winIdx (gen (rd s)) CCache) s).
Proof.
  intros [] Hk Hw.
  assert (forall k' c', calls s !! k' = Some c' -> k <> k') as Hne by (intros k' c' H <-; congruence).
  split; cbn [set_call rd flights entries calls answers].
  - intros k' c' [[<- <-]|[_ H]]%lookup_insert_Some; [|by apply (fi_gen0 k' c')].
    cbn. split_and!; [lia|done|by apply lookup_lt_is_Some].
  - intros k1 k2 c1 c2 [[<- <-]|[_ H1]]%lookup_insert_Some [[<- <-]|[_ H2]]%lookup_insert_Some E; cbn in *.
    + done.
    + symmetry. by apply (fi_gen0 k2 c2).
    + by apply (fi_gen0 k1 c1).
    + by apply (fi_same0 k1 k2).
  - intros k' c' f [[<- <-]|[_ H1]]%lookup_insert_Some H2; [done|by apply fi_lead0].
  - intros key f H. destruct (fi_flight0 key f H) as (k' & c' & A & B). exists k', c'.
    rewrite lookup_insert_ne by eauto. done.
  - intros f e H. destruct (fi_entry0 f e H) as (c' & A & B). exists c'. rewrite lookup_insert_ne by eauto. done.
  - intros k' c' f [[<- <-]|[_ H1]]%lookup_insert_Some H2; [done|].
    destruct (fi_wait0 k' c' f H1 H2) as (e & c0 & A & B & C). exists e, c0. rewrite lookup_insert_ne by eauto. done.
  - intros k' c' v [[<- <-]|[_ H1]]%lookup_insert_Some H2; [done|by eapply fi_ret0].
Qed.

Lemma inner_finv k c f e r s :
  finv s -> calls s !! k = Some c -> c_pc c = CInner f -> entries s !! f = Some e ->
  match inner_returns k f c e r s with Ok s' => finv s' | _ => False end.
Proof.
  intros I Hk Hpc He. assert (leads (c_pc c) = Some f) as Hl by by rewrite Hpc.
  destruct (entry_of k c f e s I Hk Hl He) as (E1 & E2 & E3).
  rewrite Hpc in E2, E3. cbn in E2, E3.
  destruct (fi_gen _ I k c Hk) as (_ & _ & [w Hw]). unfold inner_returns. rewrite Hw. set (r0 := count_read (rd s)).
  assert (finv (set_rd r0 s)) as I0 by by apply rd_finv.
  destruct r as [err|[|v l]].
  - by apply (lead_keep_finv k c f e).
  - set (s1 := log_answer (w_merged w) None (set_rd r0 s)). assert (finv s1) as I1 by by apply log_finv.
    apply (lead_keep_finv k c f e); try done.
    exists w. split; [done|]. right. split; [done|]. cbn. set_solver.
  - set (s1 := log_answer (w_merged w) (Some v) (set_rd r0 s)). assert (finv s1) as I1 by by apply log_finv.
    apply (lead_finv k c f e _ (CStore f) s1 I1); try done; cbn; [|by rewrite E2].
    exists w. split; [done|]. left. cbn. set_solver.
Qed.

Lemma step_finv a s :
  finv s -> match step a s with Some (Ok s') => finv s' | Some Panic => False | _ => True end.
Proof.
  intros I. destruct a as [ps register|k winIdx|k now|k|k|k|k r|k now|k|k]; cbn [step].
  - apply replan_finv; [done|]. by destruct register.
  - destruct (calls s !! k) eqn:Hk; [done|]. destruct (Nat.ltb_spec winIdx (length (windows (rd s)))); [|done].
    by apply call_finv.
  - destruct (calls s !! k) as [c|] eqn:Hk; [|done]. cbn. destruct (c_pc c) eqn:Hpc; try done.
    apply (idle_finv k c); try done; try (by rewrite Hpc); by destruct (cache_hit _ _ _).
  - destruct (calls s !! k) as [c|] eqn:Hk; [|done]. cbn. destruct (c_pc c) eqn:Hpc; try done.
    destruct (flights s !! c_key c) as [f|] eqn:Hf; [|by apply takeoff_finv].
    apply (idle_finv k c); try done; [by rewrite Hpc|]. intros f' [= <-].
    destruct (fi_flight _ I _ _ Hf) as (k' & c' & A & B & C).
    destruct (fi_lead _ I k' c' f A B) as (_ & e & D1 & D2 & _). exists e, c'. by rewrite D2.
  - destruct (calls s !! k) as [c|] eqn:Hk; [|done]. cbn. destruct (c_pc c) as [| |f| | | | | |] eqn:Hpc; try done.
    destruct (entries s !! f) as [e|] eqn:He; [|done]. cbn. destruct (f_done e) eqn:Hd; [|done].
    apply (idle_finv k c); try done; [by rewrite Hpc|]. intros v Ev.
    destruct (f_err e) eqn:Ee; [done|]. injection Ev as <-.
    destruct (fi_wait _ I k c f Hk Hpc) as (e1 & c1 & A & B & C). assert (e1 = e) as -> by congruence.
    destruct (fi_entry _ I f e He) as (c2 & D1 & _ & D2). assert (c2 = c1) as -> by congruence.
    apply (answered_same k (f_lead e) c c1); auto.
  - destruct (calls s !! k) as [c|] eqn:Hk; [|done]. cbn. destruct (c_pc c) eqn:Hpc; try done.
    by apply (idle_finv k c); try rewrite Hpc.
  - destruct (calls s !! k) as [c|] eqn:Hk; [|done]. cbn. destruct (c_pc c) as [| | |f| | | | |] eqn:Hpc; try done.
    destruct (entries s !! f) as [e|] eqn:He; [|done]. cbn. pose proof (inner_finv k c f e r s I Hk Hpc He) as H.
    by destruct (inner_returns _ _ _ _ _ _).
  - destruct (calls s !! k) as [c|] eqn:Hk; [|done]. cbn. destruct (c_pc c) as [| | | |f| | | |] eqn:Hpc; try done.
    destruct (entries s !! f) as [e|] eqn:He; [|done]. cbn. set (r0 := cache_store _ _ _ _ _).
    assert (finv (set_rd r0 s)) as I0 by (apply rd_finv; [done|unfold r0, cache_store; by destruct (_ <? _)..]).
    assert (leads (c_pc c) = Some f) as Hl by by rewrite Hpc.
    destruct (entry_of k c f e s I Hk Hl He) as (E1 & E2 & E3).
    rewrite Hpc in E2, E3. cbn in E2, E3.
    by apply (lead_keep_finv k c f e).
  - destruct (calls s !! k) as [c|] eqn:Hk; [|done]. cbn. destruct (c_pc c) as [| | | | |f err| | |] eqn:Hpc; try done.
    destruct (entries s !! f) as [e|] eqn:He; [|done]. cbn.
    assert (leads (c_pc c) = Some f) as Hl by by rewrite Hpc.
    destruct (entry_of k c f e s I Hk Hl He) as (E1 & E2 & E3).
    rewrite Hpc in E2, E3. cbn in E2, E3. unfold close_entry. rewrite E2.
    apply (lead_finv k c f e); try done. cbn. intros _ ->. done.
  - destruct (calls s !! k) as [c|] eqn:Hk; [|done]. cbn. destruct (c_pc c) as [| | | | | |f err| |] eqn:Hpc; try done.
    destruct (entries s !! f) as [e|] eqn:He; [|done]. cbn. by apply landing_finv with (f := f).
Qed.
Lemma reach_finv s : reach s -> finv s.
Proof.
  induction 1 as [|a s s' _ IH E]; [apply new_finv|]. pose proof (step_finv a s IH) as H. by rewrite E in H.
Qed.

(** C8: reads of a cluster window are shared soundly.  In every interleaving of
    calls, replans and cancellations: no entry is closed twice; at most one call at a
    time reads a window of one plan from the inner reader; a value that a call
    returns, unless from the cache, is one the inner reader answered to a read of
    that very window of the plan the call was made under, also when another call
    made the read; a call that waits, waits for a call that is on its way or has
    finished; and once no read is under way the table is empty. *)
Theorem single_flight s a :
  reach s ->
  step a s <> Some Panic /\
  (forall k k' c c' f f', calls s !! k = Some c -> calls s !! k' = Some c' ->
    leads (c_pc c) = Some f -> leads (c_pc c') = Some f' -> c_key c = c_key c' -> k = k') /\
  (forall k c v, calls s !! k = Some c -> c_pc c = CReturned (Ok v) -> answered c v s) /\
  (forall k c f, calls s !! k = Some c -> c_pc c = CWait f ->
    exists e c', entries s !! f = Some e /\ calls s !! f_lead e = Some c' /\ c_key c' = c_key c /\
      (f_done e = true \/ leads (c_pc c') = Some f)) /\
  ((forall k c, calls s !! k = Some c -> leads (c_pc c) = None) -> flights s = ∅).
Proof.
  intros I%reach_finv. split_and!.
  - intros E. pose proof (step_finv a s I) as H. by rewrite E in H.
  - intros k k' c c' f f' H1 H2 L1 L2 E.
    destruct (fi_lead _ I k c f H1 L1) as (A1 & e1 & B1 & C1 & _).
    destruct (fi_lead _ I k' c' f' H2 L2) as (A2 & e2 & B2 & C2 & _). congruence.
  - intros k c v H1 H2. by eapply (fi_ret _ I).
  - intros k c f H1 H2. destruct (fi_wait _ I k c f H1 H2) as (e & c' & A & B & C).
    destruct (fi_entry _ I f e A) as (c2 & D1 & D2 & _). exists e, c'. split_and!; try done. congruence.
  - intros Hn. apply map_empty. intros key. destruct (flights s !! key) as [f|] eqn:E; [|done].
    destruct (fi_flight _ I key f E) as (k & c & A & B & _). rewrite (Hn k c A) in B. done.
Qed.
Lemma flight_exec_reach acts s s' : reach s -> exec acts s = Some s' -> reach s'.
Proof.
  revert s. induction acts as [|a acts IH]; intros s R; cbn; [by intros [= <-]|].
  destruct (step a s) as [[s1| |]|] eqn:E; try done. apply IH. by eapply reach_step.
Qed.
End Flight.

(** Two calls read one window at once; the second waits for the first. *)
Definition demo_value : PlcValue := mkValue (Some (HoldingRegister 0 1)) [0; 11] TypeUint16 ByteOrderBigEndian.
Definition demo_shared (r : error + list PlcValue) : list act :=
  [AReplan [HoldingRegister 0 1] true; ACall 0 0; ACall 1 0; ACache 0 0; ACache 1 0; AFlight 0; AFlight 1;
   AInner 0 r].
Definition demo_after (acts : list act) : system :=
  default new_system (exec DefaultClusterConfig addr_sort acts new_system).
Definition demo_done : system := demo_after (demo_shared (inr [demo_value]) ++ [AStore 0 5; AClose 0; AJoin 1; ADelete 0]).
Lemma single_flight_witness :
  (forall c, calls demo_done !! 1%nat = Some c -> answered c demo_value demo_done) /\
  c_pc <$> calls demo_done !! 1%nat = Some (CReturned (Ok demo_value)) /\
  ReadCount (rd demo_done) = 1 /\ flights demo_done = ∅.
Proof.
  assert (c_pc <$> calls demo_done !! 1%nat = Some (CReturned (Ok demo_value))) as Hpc by (vm_compute; reflexivity).
  destruct (single_flight DefaultClusterConfig addr_sort demo_done (AClose 0)) as (_ & _ & Hret & _ & Hempty).
  - apply (flight_exec_reach _ _ (demo_shared (inr [demo_value]) ++ [AStore 0 5; AClose 0; AJoin 1; ADelete 0]) new_system);
      [apply reach_new|vm_compute; reflexivity].
  - split_and!; [|exact Hpc|vm_compute; reflexivity|].
    + intros c Hc. apply (Hret 1%nat c); [done|]. rewrite Hc in Hpc. cbn in Hpc. congruence.
    + apply Hempty. change (map_Forall (fun _ c => leads (c_pc c) = None) (calls demo_done)).
      apply (bool_decide_unpack _). vm_compute. done.
Defined.

(** The read is made under the context of the call that makes it: when that is
    cancelled, the calls that wait for it fail with its error. *)
Example cancel_shared :
  c_pc <$> calls (demo_after (demo_shared (inl (Errorf "context canceled")) ++ [AClose 0; AJoin 1])) !! 1%nat =
  Some (CReturned (Err (Errorf "context canceled"))).
Proof. vm_compute. reflexivity. Qed.
