(* ===== verification/MonitorSubs.v ===== *)
(** * The monitor's subscriptions

    Models [monitor/monitor.go], [subscriber.go], [change.go] and [options.go]:
    the polling goroutine of each subscription, change detection, the broadcast
    of events to subscribers and the orderly end of [Stop], [Done] and [Close].

    Goroutines interleave at channel operations and at the acquisition of a
    lock; a critical section of [mu], or of [subscriberMu] taken for writing, is
    one step.  A step that blocks in a state is not enabled there ([None]); a
    send on a closed channel and a second close of a channel are [Panic].  The
    reader is the environment: a read may return anything.  Timers may fire at
    any time, so the delays matter only as the numbers [next_delay] computes.  A
    handler is the caller's code: it may call [Stop] of any subscription or
    [Close], and does not return before the call does.
    [received], [s_events], [handled] and [reg_log] record what happened and
    influence nothing. *)
From S2P Require Import Prelude Bytes Plc.

Section Monitor.
Context {P : Type}.

Record Snapshot : Type := mkSnapshot { Point : P; sn_Value : Value P; Timestamp : Z }.
Record Event : Type := mkEvent {
  SubscriptionID : Z; ev_Snapshot : Snapshot; ev_Err : option error; Changed : bool }.
(** [ChangeDetector.Detect(prev, curr)] *)
Definition ChangeDetector : Type := Snapshot -> Snapshot -> bool.
Definition ByteChangeDetector : ChangeDetector := fun prev curr =>
  negb (bool_decide (Raw (sn_Value prev) = Raw (sn_Value curr))).

(** ** Options *)
Record subConfig : Type := mkSubConfig {
  frequency : Z; readVariance : Z; has_handler : bool; detector : option ChangeDetector;
  initialDelay : Z }.
Definition defaultSubConfig : subConfig := mkSubConfig 500000000 0 false None 50000000.
Definition SubscriptionOption : Type := subConfig -> error + subConfig.

Definition WithFrequency (freq : Z) : SubscriptionOption := fun cfg =>
  if freq <=? 0 then inl (Errorf "frequency must be positive")
  else inr (mkSubConfig freq (readVariance cfg) (has_handler cfg) (detector cfg) (initialDelay cfg)).
Definition WithReadVariance (variance : Z) : SubscriptionOption := fun cfg =>
  if variance <? 0 then inl (Errorf "read variance cannot be negative")
  else inr (mkSubConfig (frequency cfg) variance (has_handler cfg) (detector cfg) (initialDelay cfg)).
Definition WithChangeDetector (d : option ChangeDetector) : SubscriptionOption := fun cfg =>
  match d with
  | None => inl (Errorf "change detector cannot be nil")
  | Some _ => inr (mkSubConfig (frequency cfg) (readVariance cfg) (has_handler cfg) d (initialDelay cfg))
  end.
Definition WithHandler (handler : bool) : SubscriptionOption := fun cfg =>
  if negb handler then inl (Errorf "handler cannot be nil")
  else inr (mkSubConfig (frequency cfg) (readVariance cfg) true (detector cfg) (initialDelay cfg)).
Definition WithInitialRead (delay : Z) : SubscriptionOption := fun cfg =>
  if delay <? 0 then inl (Errorf "initial read delay cannot be negative")
  else inr (mkSubConfig (frequency cfg) (readVariance cfg) (has_handler cfg) (detector cfg) delay).
Fixpoint apply_options (opts : list SubscriptionOption) (cfg : subConfig) : error + subConfig :=
  match opts with
  | [] => inr cfg
  | opt :: opts => match opt cfg with inl err => inl err | inr cfg => apply_options opts cfg end
  end.

(** The delay before the next poll; [rand] is what [rand.Int64N(n)] gives, which
    panics unless [n] is positive. *)
Definition int64 (z : Z) : Z := (z + 9223372036854775808) mod 18446744073709551616 - 9223372036854775808.
Definition next_delay (cfg : subConfig) (rand : Z -> Z) : outcome Z :=
  let delay := frequency cfg in
  if 0 <? readVariance cfg then
    let n := int64 (readVariance cfg * 2 + 1) in
    if n <=? 0 then Panic else
    let variance := rand n - readVariance cfg in
    let delay := int64 (delay + variance) in
    Ok (if delay <? 0 then 0 else delay)
  else Ok delay.

(** ** Channels of events *)
Record chan : Type := mkChan {
  buf : list Event; cap : nat; is_closed : bool; received : list Event }.
Definition make_chan (n : nat) : chan := mkChan [] n false [].
(** [select { case ch <- e: default: }] *)
Definition try_send (e : Event) (c : chan) : outcome chan :=
  if is_closed c then Panic
  else if (length (buf c) <? cap c)%nat then Ok (mkChan (buf c ++ [e]) (cap c) false (received c))
  else Ok c.
Definition close_chan (c : chan) : outcome chan :=
  if is_closed c then Panic else Ok (mkChan (buf c) (cap c) true (received c)).
(** A consumer takes the next event; it waits on an empty channel. *)
Definition receive (c : chan) : option chan :=
  match buf c with
  | [] => None
  | e :: b => Some (mkChan b (cap c) (is_closed c) (received c ++ [e]))
  end.

(** ** State *)

(** A call in a handler that can block: [Stop] of a subscription, or [Close]. *)
Inductive wait : Type := WStop (target : Z) | WClose.
(** Where the goroutine of a subscription is. *)
Inductive pc : Type :=
| Starting                                (** [Subscribe] has yet to register the point and start it *)
| Connecting                              (** waiting for [connectedCh] *)
| Initial                                 (** waiting for the initial delay *)
| Reading                                 (** in [reader.Read] *)
| InHandler (e : Event) (w : option wait) (** in the handler, and the call the handler waits in *)
| EmitCheck (e : Event)                   (** in [emit], before it looks at [stopCh] *)
| EmitLock (e : Event)                    (** before [subscriberMu.RLock] *)
| EmitSend (e : Event) (todo : gset nat)  (** under [RLock], subscribers still to be served *)
| EmitEvents (e : Event)                  (** at the last select of [emit] *)
| Looping                                 (** at the top of the loop, the delay to be computed *)
| Sleeping                                (** waiting for the next poll *)
| Exited                                  (** [doneCh] closed *)
| Finished.                               (** [wg.Done] called *)

(** How far the caller of [Subscription.Stop] is. *)
Inductive stopper : Type :=
| NotStopping
| Removed           (** out of the map; [Unregister] and [stop] to come *)
| Waiting           (** in [stop], [stopCh] closed, waiting for [doneCh] *)
| Stopped.
#[export] Instance stopper_EqDecision : EqDecision stopper.
Proof. solve_decision. Defined.

Record subscription : Type := mkSub {
  s_point : P; s_cfg : subConfig; prev : option Snapshot; s_pc : pc;
  s_stopCh : bool; s_stopper : stopper; s_events : list Event }.
Definition s_doneCh (s : subscription) : bool :=
  match s_pc s with Exited | Finished => true | _ => false end.

(** How far [Subscriber.Done] is. *)
Inductive doner : Type := NotDone | Unregistered | Done.
Record Subscriber : Type := mkSubscriber { ch : chan; s_done : doner }.

(** Where the one execution of [Close]'s body is. *)
Inductive closer : Type :=
| NotClosing
| CloseLock                              (** [stopCh] closed, [mu] to be taken *)
| CloseStop (todo : gset Z)              (** subscriptions to be stopped *)
| CloseWait (id : Z) (todo : gset Z)     (** in [stop] of [id] *)
| CloseJoin                              (** at [wg.Wait] *)
| CloseSubscribers                       (** events closed, [subscriberMu] to be taken *)
| Closed.

Record Monitor : Type := mkMonitor {
  subs : gset Z;                         (** the keys of the map; the objects are in [heap] *)
  closed : bool;
  nextID : Z;
  stopCh : bool;
  events : chan;
  connectedCh : option bool;             (** nil, or a channel and whether it is closed *)
  subscribers : gset nat;
  heap : gmap Z subscription;
  consumers : gmap nat Subscriber;
  rlocks : gset Z;                       (** goroutines that hold [subscriberMu] for reading *)
  m_closer : closer;
  handled : list (Z * Snapshot);
  reg_log : list (bool * P)              (** [Register] and [Unregister] calls *)
}.

(** [WithEventBuffer], and the default without it. *)
Definition event_buffer (size : option Z) : nat :=
  match size with None => 64%nat | Some size => Z.to_nat (if size <=? 0 then 1 else size) end.
Definition new_monitor (eventBuffer : option Z) (connected : option bool) : Monitor :=
  mkMonitor ∅ false 0 false (make_chan (event_buffer eventBuffer)) connected ∅ ∅ ∅ ∅ NotClosing [] [].
Definition NewMonitor (has_reader : bool) (eventBuffer : option Z) (connected : option bool)
  : outcome Monitor :=
  if negb has_reader then Err (Sentinel "monitor requires a reader")
  else Ok (new_monitor eventBuffer connected).

Definition set_heap (h : gmap Z subscription) (m : Monitor) : Monitor :=
  mkMonitor (subs m) (closed m) (nextID m) (stopCh m) (events m) (connectedCh m) (subscribers m) h
    (consumers m) (rlocks m) (m_closer m) (handled m) (reg_log m).
Definition set_events (c : chan) (m : Monitor) : Monitor :=
  mkMonitor (subs m) (closed m) (nextID m) (stopCh m) c (connectedCh m) (subscribers m) (heap m)
    (consumers m) (rlocks m) (m_closer m) (handled m) (reg_log m).
Definition set_consumers (reg : gset nat) (c : gmap nat Subscriber) (m : Monitor) : Monitor :=
  mkMonitor (subs m) (closed m) (nextID m) (stopCh m) (events m) (connectedCh m) reg (heap m)
    c (rlocks m) (m_closer m) (handled m) (reg_log m).
Definition set_rlocks (r : gset Z) (m : Monitor) : Monitor :=
  mkMonitor (subs m) (closed m) (nextID m) (stopCh m) (events m) (connectedCh m) (subscribers m) (heap m)
    (consumers m) r (m_closer m) (handled m) (reg_log m).
Definition set_closer (c : closer) (m : Monitor) : Monitor :=
  mkMonitor (subs m) (closed m) (nextID m) (stopCh m) (events m) (connectedCh m) (subscribers m) (heap m)
    (consumers m) (rlocks m) c (handled m) (reg_log m).
Definition log_handled (id : Z) (s : Snapshot) (m : Monitor) : Monitor :=
  mkMonitor (subs m) (closed m) (nextID m) (stopCh m) (events m) (connectedCh m) (subscribers m) (heap m)
    (consumers m) (rlocks m) (m_closer m) (handled m ++ [(id, s)]) (reg_log m).
Definition log_reg (on : bool) (p : P) (m : Monitor) : Monitor :=
  mkMonitor (subs m) (closed m) (nextID m) (stopCh m) (events m) (connectedCh m) (subscribers m) (heap m)
    (consumers m) (rlocks m) (m_closer m) (handled m) (reg_log m ++ [(on, p)]).
Definition set_subs (s : gset Z) (m : Monitor) : Monitor :=
  mkMonitor s (closed m) (nextID m) (stopCh m) (events m) (connectedCh m) (subscribers m) (heap m)
    (consumers m) (rlocks m) (m_closer m) (handled m) (reg_log m).

Definition at_pc (p : pc) (s : subscription) : subscription :=
  mkSub (s_point s) (s_cfg s) (prev s) p (s_stopCh s) (s_stopper s) (s_events s).
Definition at_stopper (x : stopper) (s : subscription) : subscription :=
  mkSub (s_point s) (s_cfg s) (prev s) (s_pc s) (s_stopCh s) x (s_events s).
Definition put (id : Z) (s : subscription) (m : Monitor) : Monitor := set_heap (<[id := s]> (heap m)) m.

(** ** Subscriptions and subscribers *)
Definition ErrMonitorClosed : error := Sentinel "monitor is closed".

(** The critical section of [Subscribe]; the identifier of the subscription. *)
Definition Subscribe (point : option P) (opts : list SubscriptionOption) (m : Monitor)
  : outcome Z * Monitor :=
  match point with
  | None => (Err (Sentinel "data point is required"), m)
  | Some point =>
      match apply_options opts defaultSubConfig with
      | inl err => (Err err, m)
      | inr cfg =>
          if closed m then (Err ErrMonitorClosed, m) else
          let id := nextID m + 1 in
          let sub := mkSub point cfg None Starting false NotStopping [] in
          (Ok id,
           mkMonitor ({[id]} ∪ subs m) (closed m) id (stopCh m) (events m) (connectedCh m)
             (subscribers m) (<[id := sub]> (heap m)) (consumers m) (rlocks m) (m_closer m)
             (handled m) (reg_log m))
      end
  end.
(** Where [run] starts, and where it goes once connected. *)
Definition initial_pc (cfg : subConfig) : pc := if initialDelay cfg =? 0 then Reading else Initial.
Definition start_pc (m : Monitor) (cfg : subConfig) : pc :=
  match connectedCh m with Some _ => Connecting | None => initial_pc cfg end.

Definition new_consumer (m : Monitor) : nat := fresh (elements (dom (consumers m) : gset nat)).
Definition NewSubscriber (bufferSize : Z) (m : Monitor) : outcome nat * Monitor :=
  let bufferSize := if bufferSize <=? 0 then 64 else bufferSize in
  if stopCh m then (Err ErrMonitorClosed, m) else
  let k := new_consumer m in
  (Ok k, set_consumers ({[k]} ∪ subscribers m)
           (<[k := mkSubscriber (make_chan (Z.to_nat bufferSize)) NotDone]> (consumers m)) m).
(** [closeCh], under its [Once]. *)
Definition closeCh (c : chan) : chan := mkChan (buf c) (cap c) true (received c).
Definition close_consumer (s : Subscriber) : Subscriber := mkSubscriber (closeCh (ch s)) (s_done s).

(** [poll], after the read: the event, and the handler's argument. *)
Definition poll (id ts : Z) (r : error + list (Value P)) (s : subscription)
  : subscription * Event * option Snapshot :=
  let zero := mkSnapshot (s_point s) zeroValue ts in
  let failed err := (s, mkEvent id zero (Some err) false, None) in
  match r with
  | inl err => failed err
  | inr [] => failed (Errorf "monitor: no values returned for %s")
  | inr (v :: _) =>
      let snapshot := mkSnapshot (s_point s) v ts in
      let changed :=
        match detector (s_cfg s), prev s with
        | Some detect, Some prev => detect prev snapshot
        | _, _ => true
        end in
      (mkSub (s_point s) (s_cfg s) (Some snapshot) (s_pc s) (s_stopCh s) (s_stopper s) (s_events s),
       mkEvent id snapshot None changed,
       if has_handler (s_cfg s) then Some snapshot else None)
  end.
Definition log_event (e : Event) (s : subscription) : subscription :=
  mkSub (s_point s) (s_cfg s) (prev s) (s_pc s) (s_stopCh s) (s_stopper s) (s_events s ++ [e]).

(** [close(s.stopCh)] in [stop]. *)
Definition close_stopCh (s : subscription) : outcome subscription :=
  if s_stopCh s then Panic
  else Ok (mkSub (s_point s) (s_cfg s) (prev s) (s_pc s) true (s_stopper s) (s_events s)).

(** ** Steps *)
Inductive act : Type :=
| ASubscribe (point : option P) (opts : list SubscriptionOption)
| AStart (id : Z)
| AConnected
| GGate (id : Z)
| GTimer (id : Z)
| GQuit (id : Z)
| GWg (id : Z)
| GRead (id ts : Z) (r : error + list (Value P))
| GHandler (id : Z)
| GCheck (id : Z)
| GLock (id : Z)
| GSend (id : Z) (k : nat)
| GUnlock (id : Z)
| GEvents (id : Z)
| GEventsStop (id : Z)
| AStop (id : Z)
| AStopCh (id : Z)
| AStopDone (id : Z)
| ANewSubscriber (n : Z)
| ADone (k : nat)
| ADoneClose (k : nat)
| AReceive (k : nat)
| AReceiveEvents
| AClose
| ACloseLock
| ACloseStop (id : Z)
| ACloseWait
| ACloseJoin
| ACloseSubs
| GLoop (id rand : Z)
| HStop (id target : Z)
| HClose (id : Z)
| HReturn (id : Z).

Definition lift {A} (r : outcome A) (f : A -> Monitor) : option (outcome Monitor) :=
  match r with Ok a => Some (Ok (f a)) | Err e => Some (Err e) | Panic => Some Panic end.
Definition on_sub (id : Z) (m : Monitor) (f : subscription -> option (outcome Monitor))
  : option (outcome Monitor) :=
  match heap m !! id with Some s => f s | None => None end.
Definition go_to (p : pc) (id : Z) (s : subscription) (m : Monitor) : option (outcome Monitor) :=
  Some (Ok (put id (at_pc p s) m)).
(** The wait group counts the goroutines that have not finished. *)
Definition wg_zero (m : Monitor) : bool :=
  forallb (fun ks => match s_pc ks.2 with Finished => true | _ => false end) (map_to_list (heap m)).

(** [emit], called by [poll] in the goroutine of the subscription. *)
Definition emit_step (a : act) (m : Monitor) : option (outcome Monitor) :=
  match a with
  | GCheck id => on_sub id m (fun s =>
      match s_pc s with
      | EmitCheck e => go_to (if stopCh m then Looping else EmitLock e) id s m
      | _ => None
      end)
  | GLock id => on_sub id m (fun s =>
      match s_pc s with
      | EmitLock e => go_to (EmitSend e (subscribers m)) id s (set_rlocks ({[id]} ∪ rlocks m) m)
      | _ => None
      end)
  | GSend id k => on_sub id m (fun s =>
      match s_pc s with
      | EmitSend e todo =>
          if decide (k ∈ todo) then
            match consumers m !! k with
            | None => None
            | Some sub =>
                lift (try_send e (ch sub)) (fun c =>
                  put id (at_pc (EmitSend e (todo ∖ {[k]})) s)
                    (set_consumers (subscribers m)
                       (<[k := mkSubscriber c (s_done sub)]> (consumers m)) m))
            end
          else None
      | _ => None
      end)
  | GUnlock id => on_sub id m (fun s =>
      match s_pc s with
      | EmitSend e todo =>
          if decide (todo = ∅) then go_to (EmitEvents e) id s (set_rlocks (rlocks m ∖ {[id]}) m)
          else None
      | _ => None
      end)
  | GEvents id => on_sub id m (fun s =>
      match s_pc s with
      | EmitEvents e =>
          lift (try_send e (events m)) (fun c => put id (at_pc Looping s) (set_events c m))
      | _ => None
      end)
  | GEventsStop id => on_sub id m (fun s =>
      match s_pc s with
      | EmitEvents e => if stopCh m then go_to Looping id s m else None
      | _ => None
      end)
  | _ => None
  end.

(** The goroutine of a subscription. *)
Definition run_step (a : act) (m : Monitor) : option (outcome Monitor) :=
  match a with
  | GGate id => on_sub id m (fun s =>
      match s_pc s, connectedCh m with
      | Connecting, Some true => go_to (initial_pc (s_cfg s)) id s m
      | _, _ => None
      end)
  | GTimer id => on_sub id m (fun s =>
      match s_pc s with Initial | Sleeping => go_to Reading id s m | _ => None end)
  | GQuit id => on_sub id m (fun s =>
      if s_stopCh s || stopCh m then
        match s_pc s with Connecting | Initial | Sleeping => go_to Exited id s m | _ => None end
      else None)
  | GWg id => on_sub id m (fun s =>
      match s_pc s with Exited => go_to Finished id s m | _ => None end)
  | GRead id ts r => on_sub id m (fun s =>
      match s_pc s with
      | Reading =>
          let '(s, e, h) := poll id ts r s in
          match h with
          | Some snapshot => go_to (InHandler e None) id (log_event e s) (log_handled id snapshot m)
          | None => go_to (EmitCheck e) id (log_event e s) m
          end
      | _ => None
      end)
  | GHandler id => on_sub id m (fun s =>
      match s_pc s with InHandler e None => go_to (EmitCheck e) id s m | _ => None end)
  | GLoop id r => on_sub id m (fun s =>
      match s_pc s with
      | Looping => lift (next_delay (s_cfg s) (fun _ => r)) (fun _ => put id (at_pc Sleeping s) m)
      | _ => None
      end)
  | _ => emit_step a m
  end.

(** [Subscription.Stop]: [removeSubscription] and [stop]. *)
Definition stop_step (a : act) (m : Monitor) : option (outcome Monitor) :=
  match a with
  | AStop id => on_sub id m (fun s =>
      match s_pc s, s_stopper s with
      | Starting, _ => None
      | _, NotStopping =>
          if decide (id ∈ subs m)
          then Some (Ok (put id (at_stopper Removed s) (set_subs (subs m ∖ {[id]}) m)))
          else Some (Ok (put id (at_stopper Stopped s) m))
      | _, _ => None
      end)
  | AStopCh id => on_sub id m (fun s =>
      match s_stopper s with
      | Removed =>
          lift (close_stopCh s) (fun s' => put id (at_stopper Waiting s') (log_reg false (s_point s) m))
      | _ => None
      end)
  | AStopDone id => on_sub id m (fun s =>
      match s_stopper s with
      | Waiting => if s_doneCh s then Some (Ok (put id (at_stopper Stopped s) m)) else None
      | _ => None
      end)
  | _ => None
  end.
(** [Subscriber.Done] *)
Definition done_step (a : act) (m : Monitor) : option (outcome Monitor) :=
  match a with
  | ADone k =>
      match consumers m !! k with
      | Some s =>
          match s_done s with
          | NotDone =>
              if decide (rlocks m = ∅)
              then Some (Ok (set_consumers (subscribers m ∖ {[k]})
                               (<[k := mkSubscriber (ch s) Unregistered]> (consumers m)) m))
              else None
          | _ => None
          end
      | None => None
      end
  | ADoneClose k =>
      match consumers m !! k with
      | Some s =>
          match s_done s with
          | Unregistered =>
              Some (Ok (set_consumers (subscribers m)
                          (<[k := mkSubscriber (closeCh (ch s)) Done]> (consumers m)) m))
          | _ => None
          end
      | None => None
      end
  | _ => None
  end.

(** The callers of the monitor. *)
Definition call_step (a : act) (m : Monitor) : option (outcome Monitor) :=
  match a with
  | ASubscribe point opts =>
      Some (Ok (Subscribe point opts m).2)
  | AStart id => on_sub id m (fun s =>
      match s_pc s with
      | Starting => go_to (start_pc m (s_cfg s)) id s (log_reg true (s_point s) m)
      | _ => None
      end)
  | AConnected =>
      match connectedCh m with
      | Some false =>
          Some (Ok (mkMonitor (subs m) (closed m) (nextID m) (stopCh m) (events m) (Some true)
            (subscribers m) (heap m) (consumers m) (rlocks m) (m_closer m) (handled m) (reg_log m)))
      | _ => None
      end
  | AStop _ | AStopCh _ | AStopDone _ => stop_step a m
  | ANewSubscriber n =>
      if decide (rlocks m = ∅) then Some (Ok (NewSubscriber n m).2) else None
  | ADone _ | ADoneClose _ => done_step a m
  | AReceive k =>
      match consumers m !! k with
      | Some s =>
          match receive (ch s) with
          | Some c => Some (Ok (set_consumers (subscribers m)
                                  (<[k := mkSubscriber c (s_done s)]> (consumers m)) m))
          | None => None
          end
      | None => None
      end
  | AReceiveEvents =>
      match receive (events m) with Some c => Some (Ok (set_events c m)) | None => None end
  | _ => None
  end.

(** The body of [Close], which its [Once] runs at most once. *)
Definition close_step (a : act) (m : Monitor) : option (outcome Monitor) :=
  match a, m_closer m with
  | AClose, NotClosing =>
      if stopCh m then Some Panic else
      Some (Ok (mkMonitor (subs m) (closed m) (nextID m) true (events m) (connectedCh m)
        (subscribers m) (heap m) (consumers m) (rlocks m) CloseLock (handled m) (reg_log m)))
  | ACloseLock, CloseLock =>
      Some (Ok (mkMonitor ∅ true (nextID m) (stopCh m) (events m) (connectedCh m)
        (subscribers m) (heap m) (consumers m) (rlocks m) (CloseStop (subs m)) (handled m) (reg_log m)))
  | ACloseStop id, CloseStop todo =>
      if decide (id ∈ todo) then
        on_sub id m (fun s =>
          lift (close_stopCh s) (fun s => put id s (set_closer (CloseWait id (todo ∖ {[id]})) m)))
      else None
  | ACloseWait, CloseWait id todo =>
      on_sub id m (fun s => if s_doneCh s then Some (Ok (set_closer (CloseStop todo) m)) else None)
  | ACloseWait, CloseStop todo =>
      if decide (todo = ∅) then Some (Ok (set_closer CloseJoin m)) else None
  | ACloseJoin, CloseJoin =>
      if wg_zero m then lift (close_chan (events m)) (fun c => set_closer CloseSubscribers (set_events c m))
      else None
  | ACloseSubs, CloseSubscribers =>
      if decide (rlocks m = ∅) then
        Some (Ok (set_closer Closed (set_consumers ∅
          (map_imap (fun k s => Some (if decide (k ∈ subscribers m) then close_consumer s else s))
             (consumers m)) m)))
      else None
  | _, _ => None
  end.

(** The calls of a handler.  [Stop] and [Close] run their bodies under a [Once]: the
    first call runs the body, and every call waits until the body has been run. *)
Definition returned (w : wait) (m : Monitor) : bool :=
  match w with
  | WStop t => match heap m !! t with Some s => bool_decide (s_stopper s = Stopped) | None => false end
  | WClose => match m_closer m with Closed => true | _ => false end
  end.
Definition handler_step (a : act) (m : Monitor) : option (outcome Monitor) :=
  match a with
  | HStop id t => on_sub id m (fun s =>
      match s_pc s, heap m !! t with
      | InHandler e None, Some st =>
          match s_pc st with
          | Starting => None
          | _ =>
              let m := put id (at_pc (InHandler e (Some (WStop t))) s) m in
              match stop_step (AStop t) m with Some r => Some r | None => Some (Ok m) end
          end
      | _, _ => None
      end)
  | HClose id => on_sub id m (fun s =>
      match s_pc s with
      | InHandler e None =>
          let m := put id (at_pc (InHandler e (Some WClose)) s) m in
          match close_step AClose m with Some r => Some r | None => Some (Ok m) end
      | _ => None
      end)
  | HReturn id => on_sub id m (fun s =>
      match s_pc s with
      | InHandler e (Some w) => if returned w m then go_to (InHandler e None) id s m else None
      | _ => None
      end)
  | _ => None
  end.

Definition mstep (a : act) (m : Monitor) : option (outcome Monitor) :=
  match run_step a m with
  | Some r => Some r
  | None =>
      match call_step a m with
      | Some r => Some r
      | None => match close_step a m with Some r => Some r | None => handler_step a m end
      end
  end.

(** Reachable states. *)
Inductive mreach (m0 : Monitor) : Monitor -> Prop :=
| mreach_new : mreach m0 m0
| mreach_step a m m' : mreach m0 m -> mstep a m = Some (Ok m') -> mreach m0 m'.

(** ** The invariant *)
Definition sending (s : subscription) : option (gset nat) :=
  match s_pc s with EmitSend _ todo => Some todo | _ => None end.
Definition finished (s : subscription) : bool :=
  match s_pc s with Finished => true | _ => false end.
(** The subscriptions [Close] has taken and not yet stopped. *)
Definition close_todo (c : closer) : gset Z :=
  match c with CloseStop todo | CloseWait _ todo => todo | _ => ∅ end.
Definition joined (c : closer) : bool :=
  match c with CloseSubscribers | Closed => true | _ => false end.
Definition locked (c : closer) : bool :=
  match c with NotClosing | CloseLock => false | _ => true end.
Definition chan_ok (c : chan) : Prop := (length (buf c) <= cap c)%nat.

Record minv (m : Monitor) : Prop := {
  mi_registered : forall k, k ∈ subscribers m ->
    exists s, consumers m !! k = Some s /\ is_closed (ch s) = false /\ s_done s = NotDone;
  mi_consumers : forall k s, consumers m !! k = Some s ->
    chan_ok (ch s) /\
    (k ∉ subscribers m -> s_done s = NotDone -> m_closer m = Closed /\ is_closed (ch s) = true) /\
    (s_done s = Done -> is_closed (ch s) = true);
  mi_rlocks : forall id, id ∈ rlocks m <-> exists s todo, heap m !! id = Some s /\ sending s = Some todo;
  mi_sending : forall id s todo, heap m !! id = Some s -> sending s = Some todo -> todo ⊆ subscribers m;
  mi_stop : stopCh m = match m_closer m with NotClosing => false | _ => true end;
  mi_closed : closed m = locked (m_closer m);
  mi_events : is_closed (events m) = joined (m_closer m) /\ chan_ok (events m);
  mi_joined : forall id s, joined (m_closer m) = true -> heap m !! id = Some s -> finished s = true;
  mi_final : m_closer m = Closed -> subscribers m = ∅;
  mi_subs : forall id, id ∈ subs m -> closed m = false /\
    exists s, heap m !! id = Some s /\ s_stopper s = NotStopping /\ s_stopCh s = false;
  mi_todo : forall id, id ∈ close_todo (m_closer m) ->
    exists s, heap m !! id = Some s /\ s_stopCh s = false /\ s_stopper s <> Removed;
  mi_wait : forall id todo, m_closer m = CloseWait id todo -> is_Some (heap m !! id);
  mi_removed : forall id s, heap m !! id = Some s -> s_stopper s = Removed -> s_stopCh s = false;
  mi_ids : forall id, is_Some (heap m !! id) -> id <= nextID m
}.

Lemma new_minv size gate : minv (new_monitor size gate).
Proof.
  split; cbn; try done; try set_solver; unfold chan_ok; cbn; try (split; [done|lia]).
  intros id [x Hx]. done.
Qed.

(** Replacing a subscription by one that is stopped in the same way. *)
Lemma put_inv id s s' rl m :
  minv m -> heap m !! id = Some s -> s_stopCh s' = s_stopCh s -> s_stopper s' = s_stopper s ->
  (joined (m_closer m) = true -> finished s' = true) ->
  (forall todo, sending s' = Some todo -> todo ⊆ subscribers m) ->
  (id ∈ rl <-> is_Some (sending s')) -> (forall j, j <> id -> j ∈ rl <-> j ∈ rlocks m) ->
  minv (put id s' (set_rlocks rl m)).
Proof.
  intros I Hs E1 E2 E3 E4 E5 E6. destruct I. split; cbn; try done.
  - intros id1. setoid_rewrite lookup_insert_Some. destruct (decide (id = id1)) as [<-|Hne].
    + rewrite E5. split; [intros [todo Ht]; exists s', todo; auto|].
      intros (s1 & todo & [[_ <-]|[? _]] & H2); [by exists todo|done].
    + rewrite E6, mi_rlocks0 by done. split.
      * intros (s1 & todo & H1 & H2). exists s1, todo. auto.
      * intros (s1 & todo & [[? _]|[_ H1]] & H2); [done|by exists s1, todo].
  - intros id1 s1 todo [[<- <-]|[Hne H1]]%lookup_insert_Some H2; [by apply E4|by eapply mi_sending0].
  - intros id1 s1 Hj [[<- <-]|[Hne H1]]%lookup_insert_Some; [by apply E3|by eapply mi_joined0].
  - intros id1 Hin. destruct (mi_subs0 id1 Hin) as (Hc & s1 & H1 & H2 & H3). split; [done|].
    rewrite lookup_insert. case_decide as Hd; [|by eauto]. subst id1. simplify_eq.
    exists s'. by rewrite E1, E2.
  - intros id1 Hin. destruct (mi_todo0 id1 Hin) as (s1 & H1 & H2 & H3).
    rewrite lookup_insert. case_decide as Hd; [|by eauto]. subst id1. simplify_eq.
    exists s'. by rewrite E1, E2.
  - intros id1 todo Hw. apply mi_wait0 in Hw. rewrite lookup_insert. by case_decide.
  - intros id1 s1 [[<- <-]|[Hne H1]]%lookup_insert_Some; [|by eapply mi_removed0].
    rewrite E1, E2. by eapply mi_removed0.
  - intros id1. rewrite lookup_insert. case_decide as Hd; [|by apply mi_ids0].
    subst id1. intros _. apply mi_ids0. by exists s.
Qed.
(** A goroutine that is not past its end shows that [Close] has not joined. *)
Lemma not_joined id s m :
  minv m -> heap m !! id = Some s -> finished s = false -> joined (m_closer m) = false.
Proof.
  intros I Hs Hf. destruct (joined (m_closer m)) eqn:E; [|done].
  rewrite (mi_joined _ I id s E Hs) in Hf. done.
Qed.
(** A move of a goroutine outside [RLock]. *)
Lemma move_inv id s s' m :
  minv m -> heap m !! id = Some s -> s_stopCh s' = s_stopCh s -> s_stopper s' = s_stopper s ->
  finished s = false -> sending s = None -> sending s' = None -> minv (put id s' m).
Proof.
  intros I Hs E1 E2 Hf Hn Hn'. pose proof (not_joined id s m I Hs Hf) as Hj.
  pose proof (put_inv id s s' (rlocks m) m I Hs E1 E2 ltac:(congruence) ltac:(congruence)) as H.
  replace (set_rlocks (rlocks m) m) with m in H by by destruct m. apply H; [|done].
  rewrite (mi_rlocks _ I). split; [|rewrite Hn'; by intros [? ?]].
  intros (s1 & todo & H1 & H2). congruence.
Qed.

Lemma events_inv c m :
  minv m -> is_closed c = is_closed (events m) -> chan_ok c -> minv (set_events c m).
Proof. intros I E Hc. destruct I. split; cbn; try done. rewrite E. by split; [apply mi_events0|]. Qed.
Lemma consumer_inv k s c m :
  minv m -> consumers m !! k = Some s -> is_closed c = is_closed (ch s) -> chan_ok c ->
  minv (set_consumers (subscribers m) (<[k := mkSubscriber c (s_done s)]> (consumers m)) m).
Proof.
  intros I Hk E Hc. destruct I. split; cbn; try done.
  - intros k1 Hin. destruct (mi_registered0 k1 Hin) as (s1 & H1 & H2 & H3).
    rewrite lookup_insert. case_decide as Hd; [|by eauto]. subst k1. simplify_eq.
    eexists. split; [done|]. cbn. by rewrite E.
  - intros k1 s1 [[<- <-]|[Hne H1]]%lookup_insert_Some; [|by apply mi_consumers0].
    destruct (mi_consumers0 k s Hk) as (_ & H2 & H3). cbn. by rewrite E.
Qed.
Lemma try_send_ok e c :
  chan_ok c -> is_closed c = false ->
  exists c', try_send e c = Ok c' /\ is_closed c' = false /\ chan_ok c'.
Proof.
  intros Hc Hn. unfold try_send. rewrite Hn. destruct (Nat.ltb_spec (length (buf c)) (cap c)).
  - eexists. split; [done|]. split; [done|]. unfold chan_ok. cbn. rewrite length_app. cbn. lia.
  - by exists c.
Qed.

(** A step keeps the invariant, and panics only where it [may]. *)
Definition safe_step (may : Prop) (r : option (outcome Monitor)) : Prop :=
  match r with None => True | Some (Ok m) => minv m | Some (Err _) => False | Some Panic => may end.
(** The delay is about to be computed from a variance of 2^62 nanoseconds or more:
    twice the variance is no positive 64-bit number. *)
Definition overdrawn (a : act) (m : Monitor) : Prop :=
  match a with
  | GLoop id _ => exists s, heap m !! id = Some s /\ s_pc s = Looping /\
      4611686018427387904 <= readVariance (s_cfg s)
  | _ => False
  end.
Lemma next_delay_total cfg rand :
  exists d, next_delay cfg rand = Ok d \/ next_delay cfg rand = Panic /\ 4611686018427387904 <= readVariance cfg.
Proof.
  unfold next_delay. destruct (Z.ltb_spec 0 (readVariance cfg)); [|by eexists; left].
  destruct (Z.leb_spec (int64 (readVariance cfg * 2 + 1)) 0) as [Hn|]; [|by eexists; left].
  exists 0. right. split; [done|]. destruct (Z.le_gt_cases 4611686018427387904 (readVariance cfg)); [done|].
  unfold int64 in Hn. rewrite Z.mod_small in Hn by lia. lia.
Qed.

Lemma log_inv m :
  minv m -> (forall id s, minv (log_handled id s m)) /\ forall b p, minv (log_reg b p m).
Proof. intros I. split; intros; destruct I; by split. Qed.

Ltac moves I Hs Hp := apply (move_inv _ _ _ _ I Hs); [done|done|by unfold finished; rewrite Hp|
  by unfold sending; rewrite Hp|done].

Lemma run_step_safe a m : minv m -> safe_step (overdrawn a m) (run_step a m).
Proof.
  intros I. destruct a as [| | |id|id|id|id|id ts r|id|id|id|id k|id|id|id| | | | | | | | | | | | | | |id r| | |];
    try exact Logic.I; cbn [run_step emit_step]; unfold on_sub;
    (destruct (heap m !! id) as [s|] eqn:Hs; [|exact Logic.I]);
    destruct (s_pc s) as [| | | |e [w|]|e|e|e todo|e| | | |] eqn:Hp;
    try exact Logic.I; try (destruct (s_stopCh s || stopCh m); exact Logic.I); cbn.
  - destruct (connectedCh m) as [[]|]; [|exact Logic.I..]. cbn.
    apply (move_inv _ _ _ _ I Hs); [done|done|by unfold finished; rewrite Hp|by unfold sending; rewrite Hp|].
    cbn. unfold sending, initial_pc. cbn. by destruct (_ =? 0).
  - moves I Hs Hp.
  - moves I Hs Hp.
  - destruct (_ || _); [|exact Logic.I]. moves I Hs Hp.
  - destruct (_ || _); [|exact Logic.I]. moves I Hs Hp.
  - destruct (_ || _); [|exact Logic.I]. moves I Hs Hp.
  - moves I Hs Hp.
  - assert (forall r, s_stopCh (poll id ts r s).1.1 = s_stopCh s /\
                      s_stopper (poll id ts r s).1.1 = s_stopper s) as Hpoll.
    { intros [e|[|v vs]]; done. }
    destruct (Hpoll r) as [E1 E2]. destruct (poll id ts r s) as [[s' e] h]. cbn in E1, E2.
    destruct h as [sn|]; cbn.
    + change (minv (log_handled id sn (put id (at_pc (InHandler e None) (log_event e s')) m))).
      apply log_inv. apply (move_inv _ s); try done; [by unfold finished; rewrite Hp|by unfold sending; rewrite Hp].
    + apply (move_inv _ s); try done; [by unfold finished; rewrite Hp|by unfold sending; rewrite Hp].
  - moves I Hs Hp.
  - apply (move_inv _ s); try done; [by unfold finished; rewrite Hp|by unfold sending; rewrite Hp|].
    unfold sending. cbn. by destruct (stopCh m).
  - pose proof (not_joined id s m I Hs ltac:(by unfold finished; rewrite Hp)) as Hj.
    apply (put_inv id s); try done; [congruence|by intros todo [= <-]|set_solver|set_solver].
  - destruct (decide (k ∈ todo)) as [Hk|]; [|exact Logic.I].
    assert (sending s = Some todo) as Hsend by (unfold sending; by rewrite Hp).
    destruct (mi_registered _ I k) as (sub & Ek & Hcl & _); [by eapply mi_sending|]. rewrite Ek.
    destruct (mi_consumers _ I k sub Ek) as (Hok & _).
    destruct (try_send_ok e (ch sub) Hok Hcl) as (c & -> & Hc1 & Hc2). cbn.
    pose proof (consumer_inv k sub c m I Ek ltac:(congruence) Hc2) as I1.
    pose proof (not_joined id s m I Hs ltac:(by unfold finished; rewrite Hp)) as Hj.
    match type of I1 with minv ?m1 =>
      pose proof (put_inv id s (at_pc (EmitSend e (todo ∖ {[k]})) s) (rlocks m1) m1 I1 Hs) as H;
      replace (set_rlocks (rlocks m1) m1) with m1 in H by done end.
    apply H; try done; cbn; [congruence| |].
    + intros t [= <-]. pose proof (mi_sending _ I id s todo Hs Hsend). set_solver.
    + split; [by eexists|]. intros _. apply (mi_rlocks _ I). by exists s, todo.
  - destruct (decide (todo = ∅)) as [->|]; [|exact Logic.I]. cbn.
    pose proof (not_joined id s m I Hs ltac:(by unfold finished; rewrite Hp)) as Hj.
    apply (put_inv id s); try done; [congruence| |set_solver]. split; [set_solver|by intros [? ?]].
  - pose proof (not_joined id s m I Hs ltac:(by unfold finished; rewrite Hp)) as Hj.
    destruct (mi_events _ I) as [He Hok]. rewrite Hj in He.
    destruct (try_send_ok e (events m) Hok He) as (c & -> & Hc1 & Hc2). cbn.
    pose proof (events_inv c m I ltac:(congruence) Hc2) as I1.
    apply (move_inv id s _ _ I1 Hs); try done; [by unfold finished; rewrite Hp|by unfold sending; rewrite Hp].
  - destruct (stopCh m); [|exact Logic.I]. moves I Hs Hp.
  - destruct (next_delay_total (s_cfg s) (fun _ => r)) as (d & [-> | [-> Hv]]); cbn; [moves I Hs Hp|by exists s].
Qed.

(** Changing how a subscription is stopped. *)
Lemma stopping_inv id s s' m :
  minv m -> heap m !! id = Some s -> s_pc s' = s_pc s ->
  (id ∈ subs m -> s_stopper s' = NotStopping /\ s_stopCh s' = false) ->
  (id ∈ close_todo (m_closer m) -> s_stopCh s' = false /\ s_stopper s' <> Removed) ->
  (s_stopper s' = Removed -> s_stopCh s' = false) -> minv (put id s' m).
Proof.
  intros I Hs Ep E1 E2 E3.
  assert (sending s' = sending s) as E4 by (unfold sending; by rewrite Ep).
  assert (finished s' = finished s) as E5 by (unfold finished; by rewrite Ep).
  destruct I. split; cbn; try done.
  - intros id1. rewrite mi_rlocks0. setoid_rewrite lookup_insert_Some. split.
    + intros (s1 & todo & H1 & H2). destruct (decide (id = id1)) as [<-|].
      * exists s', todo. simplify_eq. rewrite E4. auto.
      * exists s1, todo. auto.
    + intros (s1 & todo & [[<- <-]|[Hne H1]] & H2); [exists s, todo|exists s1, todo]; by rewrite <-?E4.
  - intros id1 s1 todo [[<- <-]|[Hne H1]]%lookup_insert_Some H2; [|by eapply mi_sending0].
    rewrite E4 in H2. by eapply mi_sending0.
  - intros id1 s1 Hj [[<- <-]|[Hne H1]]%lookup_insert_Some; [|by eapply mi_joined0].
    rewrite E5. by eapply mi_joined0.
  - intros id1 Hin. destruct (mi_subs0 id1 Hin) as (Hc & s1 & H1 & H2). split; [done|].
    rewrite lookup_insert. case_decide as Hd; [|by eauto]. subst id1. exists s'. split; [done|by apply E1].
  - intros id1 Hin. destruct (mi_todo0 id1 Hin) as (s1 & H1 & H2).
    rewrite lookup_insert. case_decide as Hd; [|by eauto]. subst id1. exists s'. split; [done|by apply E2].
  - intros id1 todo Hw. apply mi_wait0 in Hw. rewrite lookup_insert. by case_decide.
  - intros id1 s1 [[<- <-]|[Hne H1]]%lookup_insert_Some; [done|by eapply mi_removed0].
  - intros id1. rewrite lookup_insert. case_decide as Hd; [|by apply mi_ids0].
    subst id1. intros _. apply mi_ids0. by exists s.
Qed.
Lemma set_subs_inv x m : minv m -> x ⊆ subs m -> minv (set_subs x m).
Proof. intros I Hx. destruct I. split; cbn; try done. intros id Hin. apply mi_subs0. set_solver. Qed.
(** The map is empty once [Close] has taken the subscriptions. *)
Lemma subs_not_todo id m : minv m -> id ∈ subs m -> id ∉ close_todo (m_closer m).
Proof.
  intros I Hin. destruct (mi_subs _ I id Hin) as [Hc _]. rewrite (mi_closed _ I) in Hc.
  by destruct (m_closer m); cbn in *; try done; set_solver.
Qed.

Lemma Subscribe_inv point opts m : minv m -> minv (Subscribe point opts m).2.
Proof.
  intros I. unfold Subscribe. destruct point as [point|]; [|done].
  destruct (apply_options _ _) as [e|cfg]; [done|]. destruct (closed m) eqn:Hc; [done|]. cbn.
  assert (heap m !! (nextID m + 1) = None) as Hnew.
  { apply eq_None_not_Some. intros H. apply (mi_ids _ I) in H. lia. }
  assert (joined (m_closer m) = false /\ close_todo (m_closer m) = ∅) as [Hj Ht].
  { rewrite (mi_closed _ I) in Hc. by destruct (m_closer m). }
  destruct I. split; cbn; try done.
  - intros id. rewrite mi_rlocks0. setoid_rewrite lookup_insert_Some. split.
    + intros (s1 & todo & H1 & H2). exists s1, todo. split; [right; split; [congruence|done]|done].
    + intros (s1 & todo & [[<- <-]|[Hne H1]] & H2); [done|by exists s1, todo].
  - intros id s1 todo [[<- <-]|[Hne H1]]%lookup_insert_Some H2; [done|by eapply mi_sending0].
  - congruence.
  - intros id s1 Hx. congruence.
  - intros id Hin. split; [done|]. rewrite lookup_insert. case_decide as Hd; [by eexists|].
    apply mi_subs0. set_solver.
  - rewrite Ht. set_solver.
  - intros id todo Hw. apply mi_wait0 in Hw. rewrite lookup_insert. by case_decide.
  - intros id s1 [[<- <-]|[Hne H1]]%lookup_insert_Some; [done|by eapply mi_removed0].
  - intros id. rewrite lookup_insert. case_decide as Hd; [lia|]. intros H. apply mi_ids0 in H. lia.
Qed.

(** Changing the consumers while nobody holds the lock. *)
Lemma consumers_inv reg c m :
  minv m -> rlocks m = ∅ ->
  (forall k, k ∈ reg -> exists s, c !! k = Some s /\ is_closed (ch s) = false /\ s_done s = NotDone) ->
  (forall k s, c !! k = Some s -> chan_ok (ch s) /\
    (k ∉ reg -> s_done s = NotDone -> m_closer m = Closed /\ is_closed (ch s) = true) /\
    (s_done s = Done -> is_closed (ch s) = true)) ->
  (m_closer m = Closed -> reg = ∅) -> minv (set_consumers reg c m).
Proof.
  intros I Hr H1 H2 H3. destruct I. split; cbn; try done.
  intros id s todo Hs Hsd. assert (id ∈ rlocks m) as Hin by (apply mi_rlocks0; by exists s, todo). set_solver.
Qed.
Lemma new_consumer_fresh m : consumers m !! new_consumer m = None.
Proof.
  apply (not_elem_of_dom (D := gset nat)). rewrite <-elem_of_elements. apply infinite_is_fresh.
Qed.

Lemma NewSubscriber_inv n m : minv m -> rlocks m = ∅ -> minv (NewSubscriber n m).2.
Proof.
  intros I Hr. unfold NewSubscriber. destruct (stopCh m) eqn:Hst; [done|]. cbn.
  pose proof (new_consumer_fresh m) as Hnew.
  assert (m_closer m = NotClosing) as Hc.
  { rewrite (mi_stop _ I) in Hst. by destruct (m_closer m). }
  apply consumers_inv; try done; [| |congruence].
  - intros k [->%elem_of_singleton|Hk]%elem_of_union; [rewrite lookup_insert_eq; by eexists|].
    destruct (mi_registered _ I k Hk) as (s & H1 & H2). exists s.
    rewrite lookup_insert_ne by congruence. done.
  - intros k s [[<- <-]|[Hne H1]]%lookup_insert_Some.
    + cbn. unfold chan_ok. cbn. split; [lia|]. split; [set_solver|done].
    + destruct (mi_consumers _ I k s H1) as (H2 & H3 & H4). split; [done|]. split; [|done].
      intros Hk. apply H3. set_solver.
Qed.

Lemma call_step_safe a m : minv m -> safe_step False (call_step a m).
Proof.
  intros I. destruct a as [point opts|id| | | | | | | | | | | | | |id|id|id|n|k|k|k| | | | | | | | | | |];
    try exact Logic.I; cbn [call_step stop_step done_step]; unfold on_sub;
    try (destruct (heap m !! id) as [s|] eqn:Hs; [|exact Logic.I]);
    try (destruct (consumers m !! k) as [s|] eqn:Hk; [|exact Logic.I]).
  - by apply Subscribe_inv.
  - destruct (s_pc s) eqn:Hp; try exact Logic.I. cbn.
    change (minv (log_reg true (s_point s) (put id (at_pc (start_pc m (s_cfg s)) s) m))). apply log_inv.
    apply (move_inv _ s); try done; [by unfold finished; rewrite Hp|by unfold sending; rewrite Hp|].
    unfold sending, start_pc, initial_pc. cbn. by repeat case_match.
  - destruct (connectedCh m) as [[]|]; try exact Logic.I. destruct I. by split.
  - assert (safe_step False (if decide (id ∈ subs m)
        then Some (Ok (put id (at_stopper Removed s) (set_subs (subs m ∖ {[id]}) m)))
        else Some (Ok (put id (at_stopper Stopped s) m))) \/ s_stopper s <> NotStopping) as H.
    { destruct (decide (s_stopper s = NotStopping)) as [E|]; [left|by right; intros].
      destruct (decide (id ∈ subs m)) as [Hin|Hout]; cbn.
      - destruct (mi_subs _ I id Hin) as (_ & s1 & H1 & _ & H2). simplify_eq.
        apply (stopping_inv id s); [apply set_subs_inv; set_solver|done|done|cbn; set_solver| |done].
        cbn. intros Ht. by apply subs_not_todo in Ht.
      - apply (stopping_inv id s); try done. intros Ht.
        destruct (mi_todo _ I id Ht) as (s1 & H1 & H2 & H3). simplify_eq. done. }
    destruct H as [H|H]; [|by destruct (s_pc s), (s_stopper s)].
    destruct (s_pc s), (s_stopper s); first [exact Logic.I|exact H].
  - destruct (s_stopper s) eqn:Est; try exact Logic.I.
    pose proof (mi_removed _ I id s Hs Est) as Hst. unfold close_stopCh. rewrite Hst. cbn.
    match goal with |- minv (put _ ?s' _) => 
      change (minv (log_reg false (s_point s) (put id s' m))); apply log_inv; apply (stopping_inv id s) end;
      try done; cbn.
    + intros Hin. destruct (mi_subs _ I id Hin) as (_ & s1 & H1 & H2 & _). congruence.
    + intros Ht. destruct (mi_todo _ I id Ht) as (s1 & H1 & H2 & H3). congruence.
  - destruct (s_stopper s) eqn:Est; try exact Logic.I. destruct (s_doneCh s); [|exact Logic.I]. cbn.
    apply (stopping_inv id s); try done; cbn.
    + intros Hin. destruct (mi_subs _ I id Hin) as (_ & s1 & H1 & H2 & _). congruence.
    + intros Ht. destruct (mi_todo _ I id Ht) as (s1 & H1 & H2 & H3). simplify_eq. done.
  - destruct (decide (rlocks m = ∅)); [|exact Logic.I]. by apply NewSubscriber_inv.
  - destruct (s_done s) eqn:Hd; try exact Logic.I. destruct (decide (rlocks m = ∅)); [|exact Logic.I]. cbn.
    apply consumers_inv; try done.
    + intros k1 [Hk1 Hne]%elem_of_difference. destruct (mi_registered _ I k1 Hk1) as (s1 & H1 & H2).
      exists s1. rewrite lookup_insert_ne by set_solver. done.
    + intros k1 s1 [[<- <-]|[Hne H1]]%lookup_insert_Some.
      * cbn. by destruct (mi_consumers _ I k s Hk) as (H2 & _).
      * destruct (mi_consumers _ I k1 s1 H1) as (H2 & H3 & H4). split; [done|]. split; [|done].
        intros Hk1. apply H3. set_solver.
    + intros Hc. rewrite (mi_final _ I Hc). set_solver.
  - destruct (s_done s) eqn:Hd; try exact Logic.I. cbn. 
    destruct (mi_consumers _ I k s Hk) as (H2 & _). destruct I. split; cbn; try done.
    + intros k1 Hin. destruct (mi_registered0 k1 Hin) as (s1 & H1 & H3 & H4). exists s1.
      rewrite lookup_insert_ne; [done|]. intros ->. congruence.
    + intros k1 s1 [[<- <-]|[Hne H1]]%lookup_insert_Some; [done|by apply mi_consumers0].
  - unfold receive. destruct (buf (ch s)) as [|e b] eqn:Eb; [exact Logic.I|].
    apply consumer_inv; try done. destruct (mi_consumers _ I k s Hk) as (H2 & _).
    unfold chan_ok in *. rewrite Eb in H2. cbn in *. lia.
  - unfold receive. destruct (buf (events m)) as [|e b] eqn:Eb; [exact Logic.I|].
    apply events_inv; try done. destruct (mi_events _ I) as [_ H2].
    unfold chan_ok in *. rewrite Eb in H2. cbn in *. lia.
Qed.

Lemma wg_zero_spec m :
  wg_zero m = true -> forall id s, heap m !! id = Some s -> finished s = true.
Proof.
  intros H id s Hs. unfold wg_zero in H. rewrite forallb_forall in H.
  apply (H (id, s)). apply list_elem_of_In, elem_of_map_to_list, Hs.
Qed.

(** Before its last step, [Close] closes no subscriber's channel. *)
Lemma open_consumers m k s :
  minv m -> m_closer m <> Closed -> consumers m !! k = Some s ->
  chan_ok (ch s) /\ (k ∉ subscribers m -> s_done s <> NotDone) /\ (s_done s = Done -> is_closed (ch s) = true).
Proof.
  intros I Hc Hk. destruct (mi_consumers _ I k s Hk) as (H1 & H2 & H3). split; [done|]. split; [|done].
  intros Hn Hd. by destruct (H2 Hn Hd).
Qed.
Lemma closer_inv c m :
  minv m -> m_closer m <> Closed -> m_closer m <> NotClosing -> c <> Closed -> c <> NotClosing ->
  locked c = locked (m_closer m) -> joined c = joined (m_closer m) ->
  close_todo c ⊆ close_todo (m_closer m) ->
  (forall id todo, c = CloseWait id todo -> is_Some (heap m !! id)) -> minv (set_closer c m).
Proof.
  intros I Hc Hn Hc' Hn' El Ej Et Hw. pose proof (open_consumers m) as Ho. pose proof I as I0.
  destruct I. split; cbn; try done.
  - intros k s Hk. destruct (Ho k s I0 Hc Hk) as (H1 & H2 & H3). split; [done|]. split; [|done].
    intros H4 H5. by destruct (H2 H4).
  - rewrite mi_stop0. by destruct (m_closer m), c.
  - by rewrite El.
  - by rewrite Ej.
  - rewrite Ej. done.
  - intros id Hin. by apply mi_todo0, Et.
Qed.

Lemma close_step_safe a m : minv m -> safe_step False (close_step a m).
Proof.
  intros I. pose proof (mi_stop _ I) as Hstop. pose proof (mi_closed _ I) as Hcl.
  pose proof (mi_events _ I) as Hev.
  destruct a as [| | | | | | | | | | | | | | | | | | | | | | | | |id| | | | | | |]; try exact Logic.I;
    cbn [close_step]; destruct (m_closer m) as [| |todo|id1 todo| | |] eqn:Hc; try exact Logic.I;
    cbn in Hstop, Hcl, Hev.
  - rewrite Hstop. cbn. pose proof (fun k s => open_consumers m k s I ltac:(by rewrite Hc)) as Ho.
    destruct I. rewrite ?Hc in *. split; cbn; try done.
    intros k s Hk. destruct (Ho k s Hk) as (H1 & H2 & H3). split; [done|]. split; [|done].
    intros H4 H5. by destruct (H2 H4).
  - cbn. pose proof (fun k s => open_consumers m k s I ltac:(by rewrite Hc)) as Ho.
    destruct I. rewrite ?Hc in *. split; cbn; try done.
    + intros k s Hk. destruct (Ho k s Hk) as (H1 & H2 & H3). split; [done|]. split; [|done].
      intros H4 H5. by destruct (H2 H4).
    + intros id Hin. destruct (mi_subs0 id Hin) as (_ & s & H1 & H2 & H3). exists s. by rewrite H2.
  - destruct (decide (id ∈ todo)) as [Hin|]; [|exact Logic.I]. unfold on_sub.
    destruct (mi_todo _ I id) as (s & Hs & H1 & H2); [by rewrite Hc|]. rewrite Hs.
    unfold close_stopCh. rewrite H1. cbn.
    assert (minv (set_closer (CloseWait id (todo ∖ {[id]})) m)) as I1.
    { apply closer_inv; rewrite ?Hc; try done; cbn; [set_solver|]. intros id1 todo1 [= <- <-]. by exists s. }
    apply (stopping_inv id s _ _ I1 Hs); cbn; try done; [|set_solver].
    intros Hsub. by apply subs_not_todo in Hsub; [rewrite Hc in Hsub|].
  - destruct (decide (todo = ∅)); [|exact Logic.I]. cbn. apply closer_inv; rewrite ?Hc; try done.
  - unfold on_sub. destruct (heap m !! id1) as [s|]; [|exact Logic.I].
    destruct (s_doneCh s); [|exact Logic.I]. cbn. apply closer_inv; rewrite ?Hc; try done.
  - destruct (wg_zero m) eqn:Hwg; [|exact Logic.I]. destruct Hev as [Hev1 Hev2]. unfold close_chan.
    rewrite Hev1. cbn. pose proof (fun k s => open_consumers m k s I ltac:(by rewrite Hc)) as Ho.
    destruct I. rewrite ?Hc in *. split; cbn; try done.
    + intros k s Hk. destruct (Ho k s Hk) as (H1 & H2 & H3). split; [done|]. split; [|done].
      intros H4 H5. by destruct (H2 H4).
    + intros id s _. by apply wg_zero_spec.
  - destruct (decide (rlocks m = ∅)) as [Hr|]; [|exact Logic.I]. cbn.
    destruct I. rewrite ?Hc in *. split; cbn; try done.
    + intros k s Hk. rewrite map_lookup_imap in Hk.
      destruct (consumers m !! k) as [s1|] eqn:Ek; [|done]. cbn in Hk. injection Hk as <-.
      destruct (mi_consumers0 k s1 Ek) as (H3 & H4 & H5).
      destruct (decide (k ∈ subscribers m)) as [Hin|Hout]; cbn.
      * by split; [exact H3|].
      * split; [done|]. split; [|done]. intros _ Hd. split; [done|]. by destruct (H4 Hout Hd).
    + intros id s todo Hs Hsd. assert (id ∈ rlocks m) as Hin by (apply mi_rlocks0; by exists s, todo).
      by rewrite Hr in Hin.
Qed.

Lemma handler_wait_inv id s e w w' m :
  minv m -> heap m !! id = Some s -> s_pc s = InHandler e w -> minv (put id (at_pc (InHandler e w') s) m).
Proof. intros I Hs Hp. moves I Hs Hp. Qed.
Lemma handler_step_safe a m : minv m -> safe_step False (handler_step a m).
Proof.
  intros I. pose proof (fun id s e w w' => handler_wait_inv id s e w w' m I) as Hput.
  destruct a as [| | | | | | | | | | | | | | | | | | | | | | | | | | | | | |id t|id|id]; try exact Logic.I;
    cbn [handler_step]; unfold on_sub; (destruct (heap m !! id) as [s|] eqn:Hs; [|exact Logic.I]);
    destruct (s_pc s) as [| | | |e [w|]|e|e|e todo|e| | | |] eqn:Hp; try exact Logic.I.
  - destruct (heap m !! t) as [st|]; [|exact Logic.I]. pose proof (Hput id s e None (Some (WStop t)) Hs Hp) as I1.
    pose proof (call_step_safe (AStop t) _ I1) as H. cbn [call_step] in H.
    destruct (s_pc st); try exact Logic.I; destruct (stop_step (AStop t) _); done.
  - pose proof (Hput id s e None (Some WClose) Hs Hp) as I1. pose proof (close_step_safe AClose _ I1) as H.
    by destruct (close_step AClose _).
  - destruct (returned w m); [|exact Logic.I]. by apply (Hput id s e (Some w)).
Qed.

Lemma mstep_safe a m : minv m -> safe_step (overdrawn a m) (mstep a m).
Proof.
  intros I. unfold mstep. pose proof (run_step_safe a m I) as H1.
  pose proof (call_step_safe a m I) as H2. pose proof (close_step_safe a m I) as H3.
  pose proof (handler_step_safe a m I) as H4.
  destruct (run_step a m); [done|]. destruct (call_step a m) as [[]|]; [done..|].
  destruct (close_step a m) as [[]|]; [done..|]. by destruct (handler_step a m) as [[]|].
Qed.
Lemma reach_minv size gate m : mreach (new_monitor size gate) m -> minv m.
Proof.
  induction 1 as [|a m m' _ IH E]; [apply new_minv|].
  pose proof (mstep_safe a m IH) as H. by rewrite E in H.
Qed.

(** C9: The monitor's goroutines are safe together.  In every interleaving of
    polling, broadcasting, subscribing, stopping, closing and consuming, handlers'
    own calls included, no step sends on a closed channel or closes a channel twice:
    the one panic there is, is that of [rand.Int64N] when a subscription with a read
    variance of 2^62 ns or more computes its next delay.  No buffer exceeds its
    capacity.  When [Close] has returned, every polling goroutine has ended, the
    event channel and every subscriber's channel is closed (the latter at the
    latest by a [Done] that is under way), and new subscriptions and subscribers
    are refused. *)
Theorem monitor_safe size gate m a :
  mreach (new_monitor size gate) m ->
  (mstep a m = Some Panic -> overdrawn a m) /\
  (length (buf (events m)) <= cap (events m))%nat /\
  (forall k s, consumers m !! k = Some s -> (length (buf (ch s)) <= cap (ch s))%nat) /\
  (m_closer m = Closed ->
     subs m = ∅ /\ subscribers m = ∅ /\ is_closed (events m) = true /\
     (forall id s, heap m !! id = Some s -> finished s = true) /\
     (forall k s, consumers m !! k = Some s -> is_closed (ch s) = true \/ s_done s = Unregistered) /\
     (forall n, NewSubscriber n m = (Err ErrMonitorClosed, m)) /\
     (forall p, Subscribe (Some p) [] m = (Err ErrMonitorClosed, m)) /\
     forall p opts, (Subscribe p opts m).2 = m).
Proof.
  intros Hr. pose proof (reach_minv _ _ _ Hr) as I. split.
  { pose proof (mstep_safe a m I) as H. intros E. by rewrite E in H. }
  split; [apply (mi_events _ I)|]. split; [intros k s Hk; by apply (mi_consumers _ I k s)|].
  intros Hc. pose proof (mi_stop _ I) as H1. pose proof (mi_closed _ I) as H2. rewrite Hc in H1, H2.
  split_and!.
  - apply elem_of_equiv_empty_L. intros id Hin. destruct (mi_subs _ I id Hin) as [H3 _]. cbn in H2. congruence.
  - by apply (mi_final _ I).
  - destruct (mi_events _ I) as [H3 _]. by rewrite Hc in H3.
  - intros id s. apply (mi_joined _ I). by rewrite Hc.
  - intros k s Hk. destruct (mi_consumers _ I k s Hk) as (_ & H3 & H4).
    rewrite (mi_final _ I Hc) in H3. destruct (s_done s); [|by right|by left; apply H4].
    left. apply H3; [set_solver|done].
  - intros n. unfold NewSubscriber. by rewrite H1.
  - intros p. cbn. by rewrite H2.
  - intros [p|] opts; [|done]. unfold Subscribe. destruct (apply_options _ _); [done|]. by rewrite H2.
Qed.

(** The delay between polls stays within the configured variance of the
    configured interval and is never negative, as long as the numbers fit. *)
Theorem next_delay_bounds cfg rand :
  0 <= frequency cfg < 4611686018427387904 -> 0 <= readVariance cfg < 4611686018427387904 ->
  (forall n, 0 < n -> 0 <= rand n < n) ->
  exists d, next_delay cfg rand = Ok d /\
    Z.max 0 (frequency cfg - readVariance cfg) <= d <= frequency cfg + readVariance cfg.
Proof.
  intros Hf Hv Hr. unfold next_delay. destruct (Z.ltb_spec 0 (readVariance cfg)) as [H|H]; [|exists (frequency cfg); split; [done|lia]].
  assert (int64 (readVariance cfg * 2 + 1) = readVariance cfg * 2 + 1) as ->.
  { unfold int64. rewrite Z.mod_small by lia. lia. }
  rewrite (proj2 (Z.leb_gt _ _)) by lia.
  pose proof (Hr (readVariance cfg * 2 + 1) ltac:(lia)) as Hn.
  set (x := rand _) in *. assert (int64 (frequency cfg + (x - readVariance cfg)) = frequency cfg + (x - readVariance cfg)) as ->.
  { unfold int64. rewrite Z.mod_small by lia. lia. }
  eexists. split; [done|]. destruct (Z.ltb_spec (frequency cfg + (x - readVariance cfg)) 0); lia.
Qed.

(** Running a list of steps. *)
Fixpoint exec (acts : list act) (m : Monitor) : option Monitor :=
  match acts with
  | [] => Some m
  | a :: acts => match mstep a m with Some (Ok m) => exec acts m | _ => None end
  end.
Lemma exec_reach acts : forall m0 m m', mreach m0 m -> exec acts m = Some m' -> mreach m0 m'.
Proof.
  induction acts as [|a acts IH]; intros m0 m m' Hr; cbn; [by intros [= <-]|].
  destruct (mstep a m) as [[m1|e|]|] eqn:E; try done. apply IH. by eapply mreach_step.
Qed.
End Monitor.
Arguments Snapshot P : clear implicits.
Arguments Event P : clear implicits.
Arguments ChangeDetector P : clear implicits.
Arguments subConfig P : clear implicits.
Arguments SubscriptionOption P : clear implicits.
Arguments chan P : clear implicits.
Arguments pc P : clear implicits.
Arguments subscription P : clear implicits.
Arguments Subscriber P : clear implicits.
Arguments Monitor P : clear implicits.
Arguments act P : clear implicits.

(** ** Witnesses: one point, a subscriber, two polls *)
Definition demo_value (b : Z) : Value Z := mkValue (Some 7) [b] TypeBytes ByteOrderUnspecified.
Definition demo_poll (b : Z) : list (act Z) :=
  [GTimer 1; GRead 1 b (inr [demo_value b]); GHandler 1; GCheck 1; GLock 1; GSend 1 0; GUnlock 1; GEvents 1;
   GLoop 1 0].
Definition demo_setup : list (act Z) :=
  [ANewSubscriber 8; ASubscribe (Some 7) [WithChangeDetector (Some ByteChangeDetector); WithHandler true]; AStart 1].
Definition demo_run (acts : list (act Z)) : Monitor Z :=
  match exec (demo_setup ++ acts) (new_monitor None None) with Some m => m | None => new_monitor None None end.
Definition demo_close : list (act Z) :=
  [AClose; ACloseLock; ACloseStop 1; GQuit 1; ACloseWait; ACloseWait; GWg 1; ACloseJoin; ACloseSubs].

Lemma demo_reach acts :
  bool_decide (is_Some (exec (demo_setup ++ acts) (new_monitor None None))) = true ->
  mreach (new_monitor None None) (demo_run acts).
Proof.
  intros [m E]%bool_decide_eq_true. unfold demo_run. rewrite E. eapply exec_reach; [constructor|exact E].
Qed.

Lemma monitor_safe_witness :
  let m := demo_run (demo_poll 5 ++ demo_close) in
  m_closer m = Closed /\ is_closed (events m) = true /\ subs m = ∅.
Proof.
  intros m. assert (mreach (new_monitor None None) m) as Hr by (apply demo_reach; by vm_compute).
  destruct (monitor_safe None None m AClose Hr) as (_ & _ & _ & H). destruct H as (H1 & _ & H2 & _); [by vm_compute|].
  split; [by vm_compute|]. by split.
Defined.

Lemma next_delay_bounds_witness :
  exists d, next_delay (P := Z) (mkSubConfig 100 30 false None 0) (fun n => n - 1) = Ok d /\ 70 <= d <= 130.
Proof. apply (next_delay_bounds (mkSubConfig 100 30 false None 0)); cbn; lia. Defined.

(** A variance of 2^62 ns is accepted by [WithReadVariance], and the goroutine panics
    after its first poll. *)
Definition wide_poll : list (act Z) :=
  [ASubscribe (Some 7) [WithReadVariance 4611686018427387904; WithInitialRead 0]; AStart 1;
   GRead 1 5 (inr [demo_value 5]); GCheck 1; GLock 1; GUnlock 1; GEvents 1].
Example variance_panics : (exec wide_poll (new_monitor None None) ≫= mstep (GLoop 1 0)) = Some Panic.
Proof. by vm_compute. Qed.
