(* ===== verification/MonitorEvents.v ===== *)
(** * What the monitor's subscribers see

    The order and the marking of the events of [MonitorSubs], in every
    interleaving of its goroutines: each channel holds, of each subscription, a
    part of that subscription's history in the order of the polls. *)
From S2P Require Import Prelude Bytes Plc MonitorSubs.

Section Events.
Context {P : Type}.
#[local] Abbreviation Snapshot := (MonitorSubs.Snapshot P).
#[local] Abbreviation Event := (MonitorSubs.Event P).
#[local] Abbreviation ChangeDetector := (MonitorSubs.ChangeDetector P).
#[local] Abbreviation chan := (MonitorSubs.chan P).
#[local] Abbreviation pc := (MonitorSubs.pc P).
#[local] Abbreviation subscription := (MonitorSubs.subscription P).
#[local] Abbreviation Subscriber := (MonitorSubs.Subscriber P).
#[local] Abbreviation Monitor := (MonitorSubs.Monitor P).
#[local] Abbreviation act := (MonitorSubs.act P).

(** ** What subscribers see *)
Definition content (c : chan) : list Event := received c ++ buf c.
Definition of_sub (id : Z) (es : list Event) : list Event := filter (fun e => SubscriptionID e = id) es.
(** The event is still to be sent to subscriber [k], or to the shared channel. *)
Definition pending (k : nat) (s : subscription) : bool :=
  match s_pc s with
  | InHandler _ _ | EmitCheck _ | EmitLock _ => true
  | EmitSend _ todo => bool_decide (k ∈ todo)
  | _ => false
  end.
Definition pending_event (s : subscription) : option Event :=
  match s_pc s with
  | InHandler e _ | EmitCheck e | EmitLock e | EmitSend e _ | EmitEvents e => Some e
  | _ => None
  end.
Definition sent_before (p : bool) (s : subscription) : list Event :=
  if p then take (length (s_events s) - 1) (s_events s) else s_events s.

(** The last successful read among events. *)
Definition last_read (es : list Event) : option Snapshot :=
  last (omap (fun e => match ev_Err e with None => Some (ev_Snapshot e) | Some _ => None end) es).
(** An event after [es] is marked as the detector says. *)
Definition marked (d : option ChangeDetector) (es : list Event) (e : Event) : Prop :=
  match ev_Err e with
  | Some _ => Changed e = false /\ sn_Value (ev_Snapshot e) = zeroValue
  | None => Changed e = match d, last_read es with
                        | Some detect, Some prev => detect prev (ev_Snapshot e)
                        | _, _ => true
                        end
  end.
Definition history_ok (id : Z) (s : subscription) : Prop :=
  forall es e es', s_events s = es ++ e :: es' ->
    SubscriptionID e = id /\ Point (ev_Snapshot e) = s_point s /\ marked (detector (s_cfg s)) es e.

Record oinv (m : Monitor) : Prop := {
  oi_history : forall id s, heap m !! id = Some s -> history_ok id s /\ prev s = last_read (s_events s);
  oi_pending : forall id s e, heap m !! id = Some s -> pending_event s = Some e ->
    exists es, s_events s = es ++ [e];
  oi_consumers : forall id s k c, heap m !! id = Some s -> consumers m !! k = Some c ->
    of_sub id (content (ch c)) `sublist_of` sent_before (pending k s) s;
  oi_events : forall id s, heap m !! id = Some s ->
    of_sub id (content (events m)) `sublist_of` sent_before (bool_decide (is_Some (pending_event s))) s;
  oi_ids : forall e, (e ∈ content (events m) \/ exists k c, consumers m !! k = Some c /\ e ∈ content (ch c)) ->
    is_Some (heap m !! SubscriptionID e)
}.

Lemma new_oinv size gate : oinv (new_monitor size gate).
Proof.
  split; cbn; try done. intros e [H|(k & c & H & _)]; [by apply elem_of_nil in H|done].
Qed.

(** A step after which nothing new is said or received. *)
Record quiet (m m' : Monitor) : Prop := {
  q_heap : forall id s', heap m' !! id = Some s' -> exists s, heap m !! id = Some s /\
    s_events s' = s_events s /\ prev s' = prev s /\ s_cfg s' = s_cfg s /\ s_point s' = s_point s /\
    (forall k, k ∈ dom (consumers m') -> pending k s' = true -> pending k s = true) /\
    (forall e, pending_event s' = Some e -> pending_event s = Some e);
  q_dom : forall id, is_Some (heap m !! id) -> is_Some (heap m' !! id);
  q_consumers : forall k c', consumers m' !! k = Some c' ->
    exists c, consumers m !! k = Some c /\ content (ch c') = content (ch c);
  q_events : content (events m') = content (events m)
}.

Lemma sent_before_mono (p p' : bool) (s s' : subscription) :
  s_events s' = s_events s -> (p' = true -> p = true) -> sent_before p s `sublist_of` sent_before p' s'.
Proof.
  intros E Hp. unfold sent_before. rewrite E. destruct p', p; try done; [by discriminate Hp|].
  apply sublist_take.
Qed.

Lemma quiet_oinv m m' : oinv m -> quiet m m' -> oinv m'.
Proof.
  intros O [Qh Qd Qc Qe]. split.
  - intros id s' Hs. destruct (Qh id s' Hs) as (s & H1 & H2 & H3 & H4 & H5 & _).
    destruct (oi_history _ O id s H1) as [H6 H7]. unfold history_ok. rewrite H2, H3, H4, H5. by split.
  - intros id s' e Hs Hp. destruct (Qh id s' Hs) as (s & H1 & H2 & _ & _ & _ & _ & H3).
    rewrite H2. apply (oi_pending _ O id s e H1), H3, Hp.
  - intros id s' k c' Hs Hk. destruct (Qh id s' Hs) as (s & H1 & H2 & _ & _ & _ & H3 & _).
    destruct (Qc k c' Hk) as (c & H4 & ->). etrans; [apply (oi_consumers _ O id s k c H1 H4)|].
    apply sent_before_mono; [done|]. apply H3. by apply elem_of_dom_2 in Hk.
  - intros id s' Hs. destruct (Qh id s' Hs) as (s & H1 & H2 & _ & _ & _ & _ & H3). rewrite Qe.
    etrans; [apply (oi_events _ O id s H1)|]. apply sent_before_mono; [done|].
    rewrite !bool_decide_eq_true. intros [e He]. exists e. by apply H3.
  - intros e He. apply Qd, (oi_ids _ O). rewrite <-Qe. destruct He as [He|(k & c' & Hk & He)]; [by left|right].
    destruct (Qc k c' Hk) as (c & H4 & E). exists k, c. by rewrite <-E.
Qed.

Lemma quiet_refl m : quiet m m.
Proof.
  split; try done; [|by eauto]. intros id s Hs. exists s. by split_and!.
Qed.
(** One subscription moves on. *)
Lemma quiet_put id s s' m m' :
  heap m !! id = Some s -> s_events s' = s_events s -> prev s' = prev s -> s_cfg s' = s_cfg s ->
  s_point s' = s_point s ->
  (forall k, k ∈ dom (consumers m) -> pending k s' = true -> pending k s = true) ->
  (forall e, pending_event s' = Some e -> pending_event s = Some e) ->
  heap m' = heap m -> consumers m' = consumers m -> events m' = events m -> quiet m (put id s' m').
Proof.
  intros Hs E1 E2 E3 E4 E5 E6 Eh Ec Ee. split; cbn; rewrite ?Eh, ?Ec, ?Ee; try done; [| |by eauto].
  - intros id1 s1 [[<- <-]|[Hne H1]]%lookup_insert_Some; [by exists s|exists s1; by split_and!].
  - intros id1 H1. rewrite lookup_insert. by case_decide.
Qed.

Lemma receive_content c c' : receive c = Some c' -> content c' = content c.
Proof.
  unfold receive, content. destruct (buf c) as [|e b]; [done|]. intros [= <-]. cbn. by rewrite <-app_assoc.
Qed.
Lemma quiet_consumer k s s' reg m :
  consumers m !! k = Some s -> content (ch s') = content (ch s) ->
  quiet m (set_consumers reg (<[k := s']> (consumers m)) m).
Proof.
  intros Hk E. split; cbn; try done.
  - intros id s1 Hs. exists s1. by split_and!.
  - intros k1 c' [[<- <-]|[Hne H1]]%lookup_insert_Some; eauto.
Qed.
Lemma quiet_same m m' :
  heap m' = heap m -> consumers m' = consumers m -> content (events m') = content (events m) -> quiet m m'.
Proof.
  intros Eh Ec Ee. split; rewrite ?Eh, ?Ec; try done; [|by eauto]. intros id s Hs. exists s. by split_and!.
Qed.

(** A poll's event in the history. *)
Lemma poll_history id ts r s s' e h :
  history_ok id s -> prev s = last_read (s_events s) -> poll id ts r s = (s', e, h) ->
  history_ok id (log_event e s') /\ prev s' = last_read (s_events s' ++ [e]) /\
  s_events s' = s_events s /\ s_cfg s' = s_cfg s /\ s_point s' = s_point s /\
  s_stopCh s' = s_stopCh s /\ SubscriptionID e = id.
Proof.
  intros Hh Hp Ep.
  assert (SubscriptionID e = id /\ Point (ev_Snapshot e) = s_point s /\
    marked (detector (s_cfg s)) (s_events s) e /\ prev s' = last_read (s_events s ++ [e]) /\
    s_events s' = s_events s /\ s_cfg s' = s_cfg s /\ s_point s' = s_point s /\ s_stopCh s' = s_stopCh s)
    as (E1 & E2 & E3 & E4 & E5 & E6 & E7 & E8).
  { unfold last_read, marked. rewrite omap_app. unfold poll in Ep.
    destruct r as [err|[|v vs]]; injection Ep as <- <- <-; cbn; rewrite ?app_nil_r; try by split_and!.
    split_and!; try done; [|by rewrite last_snoc]. rewrite Hp. done. }
  split_and!; try done; [|by rewrite E5].
  unfold history_ok. cbn. rewrite E5, E6, E7. intros es e1 es' Es.
  destruct es' as [|e2 es' _] using rev_ind.
  - apply app_inj_tail in Es as [<- <-]. by split_and!.
  - rewrite app_comm_cons, app_assoc in Es. apply app_inj_tail in Es as [Es _].
    by apply (Hh es e1 es').
Qed.

Lemma sent_before_snoc (s : subscription) es e :
  s_events s = es ++ [e] -> sent_before true s = es /\ sent_before false s = es ++ [e].
Proof.
  intros E. unfold sent_before. rewrite E. split; [|done].
  rewrite length_app. cbn. rewrite Nat.add_sub. apply take_app_length.
Qed.

Lemma read_oinv id ts r s m m1 :
  oinv m -> heap m !! id = Some s -> s_pc s = Reading -> heap m1 = heap m -> consumers m1 = consumers m ->
  events m1 = events m ->
  forall s' e h p, poll id ts r s = (s', e, h) -> p = InHandler e None \/ p = EmitCheck e ->
  oinv (put id (at_pc p (log_event e s')) m1).
Proof.
  intros O Hs Hpc Eh Ec Ee s' e h p Ep Hp. destruct (oi_history _ O id s Hs) as [Hh Hpr].
  destruct (poll_history id ts r s s' e h Hh Hpr Ep) as (H1 & H2 & H3 & H4 & H5 & _ & H6).
  assert (sent_before true (at_pc p (log_event e s')) = s_events s) as Hsb.
  { eapply sent_before_snoc. cbn. by rewrite H3. }
  split; cbn; rewrite ?Eh, ?Ec, ?Ee.
  - intros id1 s1 [[<- <-]|[Hne Hs1]]%lookup_insert_Some; [|by apply (oi_history _ O)]. by split.
  - intros id1 s1 e1 [[<- <-]|[Hne Hs1]]%lookup_insert_Some; [|by apply (oi_pending _ O id1)].
    destruct Hp as [-> | ->]; cbn; intros [= <-]; by exists (s_events s').
  - intros id1 s1 k c [[<- <-]|[Hne Hs1]]%lookup_insert_Some Hk; [|by apply (oi_consumers _ O)].
    replace (pending k _) with true by (by destruct Hp as [-> | ->]). rewrite Hsb.
    pose proof (oi_consumers _ O id s k c Hs Hk) as H. unfold pending in H. by rewrite Hpc in H.
  - intros id1 s1 [[<- <-]|[Hne Hs1]]%lookup_insert_Some; [|by apply (oi_events _ O)].
    rewrite bool_decide_eq_true_2 by (destruct Hp as [-> | ->]; by eexists). rewrite Hsb.
    pose proof (oi_events _ O id s Hs) as H. unfold pending_event in H. by rewrite Hpc in H.
  - intros e1 He1. rewrite lookup_insert. case_decide; [done|]. by apply (oi_ids _ O).
Qed.

Lemma try_send_content e c c' :
  try_send e c = Ok c' -> content c' = content c \/ content c' = content c ++ [e].
Proof.
  unfold try_send, content. destruct (is_closed c); [done|]. destruct (_ <? _)%nat; intros [= <-]; cbn; [|by left].
  right. by rewrite app_assoc.
Qed.
(** The event of a subscription at the end of its history. *)
Lemma pending_last m id s e :
  oinv m -> heap m !! id = Some s -> pending_event s = Some e ->
  SubscriptionID e = id /\ exists es, s_events s = es ++ [e] /\
    sent_before true s = es /\ sent_before false s = es ++ [e].
Proof.
  intros O Hs Hp. destruct (oi_pending _ O id s e Hs Hp) as [es Es].
  destruct (oi_history _ O id s Hs) as [Hh _]. destruct (Hh es e [] Es) as [H _].
  split; [done|]. exists es. split; [done|]. by apply sent_before_snoc.
Qed.
(** Sending it on keeps the order. *)
Lemma send_sublist id1 id s e c c' (p : bool) :
  try_send e c = Ok c' -> SubscriptionID e = id ->
  of_sub id1 (content c) `sublist_of` sent_before p s ->
  (id1 <> id -> of_sub id1 (content c') `sublist_of` sent_before p s) /\
  (id1 = id -> p = true -> sent_before false s = sent_before true s ++ [e] ->
     of_sub id1 (content c') `sublist_of` sent_before false s).
Proof.
  intros Ht He H. unfold of_sub in *. destruct (try_send_content e c c' Ht) as [-> | ->]; (split; [|intros -> -> E]).
  - done.
  - etrans; [exact H|]. by apply sent_before_mono.
  - intros Hne. rewrite filter_app. rewrite filter_cons_False by congruence. by rewrite filter_nil, app_nil_r.
  - rewrite filter_app, filter_cons_True by done. rewrite E. by apply sublist_app.
Qed.

Lemma send_oinv id s e todo k sub c m :
  oinv m -> heap m !! id = Some s -> s_pc s = EmitSend e todo -> k ∈ todo -> consumers m !! k = Some sub ->
  try_send e (ch sub) = Ok c ->
  oinv (put id (at_pc (EmitSend e (todo ∖ {[k]})) s)
          (set_consumers (subscribers m) (<[k := mkSubscriber c (s_done sub)]> (consumers m)) m)).
Proof.
  intros O Hs Hpc Hk Ek Et.
  assert (pending_event s = Some e) as Hpe by (unfold pending_event; by rewrite Hpc).
  destruct (pending_last m id s e O Hs Hpe) as (Hid & es & Es & E1 & E2).
  assert (pending k s = true) as Hpk by (unfold pending; rewrite Hpc; by apply bool_decide_eq_true_2).
  split; cbn.
  - intros id1 s1 [[<- <-]|[Hne Hs1]]%lookup_insert_Some; [by apply (oi_history _ O id s)|by apply (oi_history _ O)].
  - intros id1 s1 e1 [[<- <-]|[Hne Hs1]]%lookup_insert_Some; [|by apply (oi_pending _ O id1)].
    intros [= <-]. by exists es.
  - intros id1 s1 k1 c1 Hs1 Hk1.
    assert (exists s0, heap m !! id1 = Some s0 /\ s_events s1 = s_events s0 /\
      (forall j, j <> k -> pending j s1 = pending j s0) /\ (id1 <> id -> s1 = s0) /\ (id1 = id -> s0 = s /\ pending k s1 = false))
      as (s0 & Hs0 & Ev & Hpj & Hne1 & Heq1).
    { apply lookup_insert_Some in Hs1 as [[<- <-]|[Hne Hs1]]; [exists s|exists s1; by split_and!].
      split_and!; try done.
      - intros j Hj. unfold pending. rewrite Hpc. cbn. apply bool_decide_ext. set_solver.
      - intros _. split; [done|]. unfold pending. cbn. apply bool_decide_eq_false_2. set_solver. }
    apply lookup_insert_Some in Hk1 as [[<- <-]|[Hne Hk1]].
    + pose proof (oi_consumers _ O id1 s0 k sub Hs0 Ek) as H. cbn [ch].
      destruct (send_sublist id1 id s0 e (ch sub) c (pending k s0) Et Hid H) as [Ha Hb].
      destruct (decide (id1 = id)) as [->|Hne].
      * destruct (Heq1 eq_refl) as [-> ->]. unfold sent_before at 1. rewrite Ev. apply Hb; [done|done|].
        by rewrite E1, E2.
      * rewrite (Hne1 Hne). by apply Ha.
    + etrans; [apply (oi_consumers _ O id1 s0 k1 c1 Hs0 Hk1)|]. apply sent_before_mono; [done|].
      by rewrite Hpj by congruence.
  - intros id1 s1 [[<- <-]|[Hne Hs1]]%lookup_insert_Some; [|by apply (oi_events _ O)].
    pose proof (oi_events _ O id s Hs) as H. by rewrite Hpe in H.
  - intros e1 He1.
    assert (is_Some (heap m !! SubscriptionID e1)) as Hsome.
    { destruct He1 as [He1|(k1 & c1 & Hk1 & He1)]; [by apply (oi_ids _ O); left|].
      apply lookup_insert_Some in Hk1 as [[<- <-]|[Hne Hk1]].
      - cbn [ch] in He1. destruct (try_send_content e (ch sub) c Et) as [E|E]; rewrite E in He1.
        + apply (oi_ids _ O). right. by exists k, sub.
        + apply elem_of_app in He1 as [He1|He1%list_elem_of_singleton]; [|subst e1; rewrite Hid; by exists s].
          apply (oi_ids _ O). right. by exists k, sub.
      - apply (oi_ids _ O). right. by exists k1, c1. }
    rewrite lookup_insert. by case_decide.
Qed.

Lemma events_oinv id s e c m :
  oinv m -> heap m !! id = Some s -> s_pc s = EmitEvents e -> try_send e (events m) = Ok c ->
  oinv (put id (at_pc Looping s) (set_events c m)).
Proof.
  intros O Hs Hpc Et.
  assert (pending_event s = Some e) as Hpe by (unfold pending_event; by rewrite Hpc).
  destruct (pending_last m id s e O Hs Hpe) as (Hid & es & Es & E1 & E2).
  split; cbn.
  - intros id1 s1 [[<- <-]|[Hne Hs1]]%lookup_insert_Some; [by apply (oi_history _ O id s)|by apply (oi_history _ O)].
  - intros id1 s1 e1 [[<- <-]|[Hne Hs1]]%lookup_insert_Some; [done|by apply (oi_pending _ O id1)].
  - intros id1 s1 k1 c1 [[<- <-]|[Hne Hs1]]%lookup_insert_Some Hk1; [|by apply (oi_consumers _ O)].
    etrans; [apply (oi_consumers _ O id s k1 c1 Hs Hk1)|]. by apply sent_before_mono.
  - intros id1 s1 [[<- <-]|[Hne Hs1]]%lookup_insert_Some.
    + pose proof (oi_events _ O id s Hs) as H. rewrite Hpe in H.
      destruct (send_sublist id id s e (events m) c true Et Hid H) as [_ Hb]. apply Hb; [done|done|].
      by rewrite E1, E2.
    + pose proof (oi_events _ O id1 s1 Hs1) as H.
      destruct (send_sublist id1 id s1 e (events m) c _ Et Hid H) as [Ha _]. apply Ha. congruence.
  - intros e1 He1.
    assert (is_Some (heap m !! SubscriptionID e1)) as Hsome.
    { destruct He1 as [He1|He1]; [|by apply (oi_ids _ O); right].
      destruct (try_send_content e (events m) c Et) as [E|E]; rewrite E in He1.
      - by apply (oi_ids _ O); left.
      - apply elem_of_app in He1 as [He1|He1%list_elem_of_singleton]; [by apply (oi_ids _ O); left|].
        subst e1. rewrite Hid. by exists s. }
    rewrite lookup_insert. by case_decide.
Qed.

Ltac quiet_move Hs Hp :=
  eapply quiet_put; [exact Hs|done..| | |done|done|done];
    unfold pending, pending_event; rewrite Hp; cbn; try done; by intros ? ?.

Lemma run_step_oinv a m m' : minv m -> oinv m -> run_step a m = Some (Ok m') -> oinv m'.
Proof.
  intros I O. destruct a as [| | |id|id|id|id|id ts r|id|id|id|id k|id|id|id| | | | | | | | | | | | | | |id r| | |];
    try done; cbn [run_step emit_step]; unfold on_sub;
    (destruct (heap m !! id) as [s|] eqn:Hs; [|done]);
    destruct (s_pc s) as [| | | |e [w|]|e|e|e todo|e| | | |] eqn:Hp; try done;
    try (destruct (s_stopCh s || stopCh m); done).
  - destruct (connectedCh m) as [[]|]; [|done..]. intros [= <-]. eapply quiet_oinv; [exact O|].
    eapply quiet_put; try done; unfold pending, pending_event, initial_pc; rewrite Hp; cbn; by destruct (_ =? 0).
  - intros [= <-]. eapply quiet_oinv; [exact O|]. quiet_move Hs Hp.
  - intros [= <-]. eapply quiet_oinv; [exact O|]. quiet_move Hs Hp.
  - destruct (_ || _); [|done]. intros [= <-]. eapply quiet_oinv; [exact O|]. quiet_move Hs Hp.
  - destruct (_ || _); [|done]. intros [= <-]. eapply quiet_oinv; [exact O|]. quiet_move Hs Hp.
  - destruct (_ || _); [|done]. intros [= <-]. eapply quiet_oinv; [exact O|]. quiet_move Hs Hp.
  - intros [= <-]. eapply quiet_oinv; [exact O|]. quiet_move Hs Hp.
  - destruct (poll id ts r s) as [[s' e] h] eqn:Ep. destruct h as [sn|]; intros [= <-].
    + eapply (read_oinv id ts r s m (log_handled id sn m)); try done. by left.
    + eapply (read_oinv id ts r s m m); try done. by right.
  - intros [= <-]. eapply quiet_oinv; [exact O|]. quiet_move Hs Hp.
  - intros [= <-]. eapply quiet_oinv; [exact O|]. destruct (stopCh m); quiet_move Hs Hp.
  - intros [= <-]. eapply quiet_oinv; [exact O|]. quiet_move Hs Hp.
  - destruct (decide (k ∈ todo)) as [Hk|]; [|done]. destruct (consumers m !! k) as [sub|] eqn:Ek; [|done].
    destruct (try_send e (ch sub)) as [c|er|] eqn:Et; [|done|done]. intros [= <-]. by eapply send_oinv.
  - destruct (decide (todo = ∅)) as [->|]; [|done]. intros [= <-]. eapply quiet_oinv; [exact O|].
    quiet_move Hs Hp.
  - destruct (try_send e (events m)) as [c|er|] eqn:Et; [|done|done]. intros [= <-]. by eapply events_oinv.
  - destruct (stopCh m); [|done]. intros [= <-]. eapply quiet_oinv; [exact O|]. quiet_move Hs Hp.
  - destruct (next_delay _ _); [|done..]. intros [= <-]. eapply quiet_oinv; [exact O|]. quiet_move Hs Hp.
Qed.

Lemma of_sub_none id m c :
  oinv m -> heap m !! id = None -> (forall e, e ∈ content c -> is_Some (heap m !! SubscriptionID e)) ->
  of_sub id (content c) = [].
Proof.
  intros O Hn Hc. unfold of_sub. induction (content c) as [|e es IH]; [done|].
  rewrite filter_cons_False; [apply IH; intros e' He'; apply Hc; set_solver|].
  intros E. destruct (Hc e) as [s Hs]; [set_solver|]. rewrite E in Hs. congruence.
Qed.

Lemma Subscribe_oinv point opts m : minv m -> oinv m -> oinv (Subscribe point opts m).2.
Proof.
  intros I O. unfold Subscribe. destruct point as [point|]; [|done].
  destruct (apply_options _ _) as [e|cfg]; [done|]. destruct (closed m) eqn:Hc; [done|]. cbn.
  assert (heap m !! (nextID m + 1) = None) as Hnew.
  { apply eq_None_not_Some. intros H. apply (mi_ids _ I) in H. lia. }
  split; cbn.
  - intros id s [[<- <-]|[Hne Hs]]%lookup_insert_Some; [|by apply (oi_history _ O)]. split; [|done].
    intros es e es' E. by destruct es.
  - intros id s e [[<- <-]|[Hne Hs]]%lookup_insert_Some; [done|by apply (oi_pending _ O id)].
  - intros id s k c [[<- <-]|[Hne Hs]]%lookup_insert_Some Hk; [|by apply (oi_consumers _ O)].
    rewrite (of_sub_none _ m) by (try done; intros e He; apply (oi_ids _ O); right; by exists k, c).
    apply sublist_nil_l.
  - intros id s [[<- <-]|[Hne Hs]]%lookup_insert_Some; [|by apply (oi_events _ O)].
    rewrite (of_sub_none _ m) by (try done; intros e He; apply (oi_ids _ O); by left).
    apply sublist_nil_l.
  - intros e He. rewrite lookup_insert. case_decide; [done|]. by apply (oi_ids _ O).
Qed.

Lemma NewSubscriber_oinv n m : oinv m -> oinv (NewSubscriber n m).2.
Proof.
  intros O. unfold NewSubscriber. destruct (stopCh m); [done|]. cbn. destruct O. split; cbn; try done.
  - intros id s k c Hs [[<- <-]|[Hne Hk]]%lookup_insert_Some; [apply sublist_nil_l|by apply oi_consumers0].
  - intros e [He|(k & c & [[<- <-]|[Hne Hk]]%lookup_insert_Some & He)].
    + apply oi_ids0. by left.
    + by apply elem_of_nil in He.
    + apply oi_ids0. right. by exists k, c.
Qed.

Lemma call_step_oinv a m m' : minv m -> oinv m -> call_step a m = Some (Ok m') -> oinv m'.
Proof.
  intros I O. destruct a as [point opts|id| | | | | | | | | | | | | |id|id|id|n|k|k|k| | | | | | | | | | |];
    try done; cbn [call_step stop_step done_step]; unfold on_sub;
    try (destruct (heap m !! id) as [s|] eqn:Hs; [|done]);
    try (destruct (consumers m !! k) as [s|] eqn:Hk; [|done]).
  - intros [= <-]. by apply Subscribe_oinv.
  - destruct (s_pc s) eqn:Hp; try done. intros [= <-]. eapply quiet_oinv; [exact O|].
    eapply quiet_put; try done; unfold pending, pending_event, start_pc, initial_pc; rewrite Hp; cbn;
      repeat case_match; done.
  - destruct (connectedCh m) as [[]|]; try done. intros [= <-]. eapply quiet_oinv; [exact O|]. by apply quiet_same.
  - intros E. eapply quiet_oinv; [exact O|].
    assert (m' = put id (at_stopper Removed s) (set_subs (subs m ∖ {[id]}) m) \/
            m' = put id (at_stopper Stopped s) m) as [-> | ->].
    { destruct (decide (id ∈ subs m)), (s_pc s), (s_stopper s); simplify_eq; auto. }
    + by eapply quiet_put.
    + by eapply quiet_put.
  - destruct (s_stopper s); try done. unfold close_stopCh. destruct (s_stopCh s); [done|]. intros [= <-].
    eapply quiet_oinv; [exact O|]. by eapply quiet_put.
  - destruct (s_stopper s); try done. destruct (s_doneCh s); [|done]. intros [= <-].
    eapply quiet_oinv; [exact O|]. by eapply quiet_put.
  - destruct (decide (rlocks m = ∅)); [|done]. intros [= <-]. by apply NewSubscriber_oinv.
  - destruct (s_done s); try done. destruct (decide (rlocks m = ∅)); [|done]. intros [= <-].
    eapply quiet_oinv; [exact O|]. by eapply quiet_consumer.
  - destruct (s_done s); try done. intros [= <-]. eapply quiet_oinv; [exact O|]. by eapply quiet_consumer.
  - destruct (receive (ch s)) as [c|] eqn:Er; [|done]. intros [= <-]. eapply quiet_oinv; [exact O|].
    eapply quiet_consumer; [exact Hk|]. by apply receive_content.
  - destruct (receive (events m)) as [c|] eqn:Er; [|done]. intros [= <-]. eapply quiet_oinv; [exact O|].
    apply quiet_same; try done. by apply receive_content.
Qed.

Lemma close_step_oinv a m m' : oinv m -> close_step a m = Some (Ok m') -> oinv m'.
Proof.
  intros O E. eapply quiet_oinv; [exact O|].
  destruct a as [| | | | | | | | | | | | | | | | | | | | | | | | |id| | | | | | |]; try done;
    cbn [close_step] in E; destruct (m_closer m) as [| |todo|id1 todo| | |]; try done.
  - destruct (stopCh m); [done|]. injection E as <-. by apply quiet_same.
  - injection E as <-. by apply quiet_same.
  - destruct (decide (id ∈ todo)); [|done]. unfold on_sub in E.
    destruct (heap m !! id) as [s|] eqn:Hs; [|done]. unfold close_stopCh in E.
    destruct (s_stopCh s); [done|]. injection E as <-. by eapply quiet_put.
  - destruct (decide (todo = ∅)); [|done]. injection E as <-. by apply quiet_same.
  - unfold on_sub in E. destruct (heap m !! id1) as [s|]; [|done]. destruct (s_doneCh s); [|done].
    injection E as <-. by apply quiet_same.
  - destruct (wg_zero m); [|done]. unfold close_chan in E. destruct (is_closed (events m)); [done|].
    injection E as <-. by apply quiet_same.
  - destruct (decide (rlocks m = ∅)); [|done]. injection E as <-. split; cbn; try done.
    + intros id s Hs. exists s. split_and!; done.
    + intros k c' Hk. rewrite map_lookup_imap in Hk. destruct (consumers m !! k) as [c|]; [|done].
      cbn in Hk. injection Hk as <-. exists c. split; [done|]. by case_decide.
Qed.

Lemma handler_step_oinv a m m' : minv m -> oinv m -> handler_step a m = Some (Ok m') -> oinv m'.
Proof.
  intros I O.
  assert (forall id s e w w', heap m !! id = Some s -> s_pc s = InHandler e w ->
    minv (put id (at_pc (InHandler e w') s) m) /\ oinv (put id (at_pc (InHandler e w') s) m)) as Hput.
  { intros id s e w w' Hs Hp. split; [by eapply handler_wait_inv|]. eapply quiet_oinv; [exact O|]. quiet_move Hs Hp. }
  destruct a as [| | | | | | | | | | | | | | | | | | | | | | | | | | | | | |id t|id|id]; try done;
    cbn [handler_step]; unfold on_sub; (destruct (heap m !! id) as [s|] eqn:Hs; [|done]);
    destruct (s_pc s) as [| | | |e [w|]|e|e|e todo|e| | | |] eqn:Hp; try done.
  - destruct (heap m !! t) as [st|]; [|done]. destruct (Hput id s e None (Some (WStop t)) Hs Hp) as [I1 O1].
    pose proof (call_step_oinv (AStop t) _ m' I1 O1) as H. cbn [call_step] in H.
    destruct (s_pc st); try done; (destruct (stop_step (AStop t) _); [done|by intros [= <-]]).
  - destruct (Hput id s e None (Some WClose) Hs Hp) as [I1 O1]. pose proof (close_step_oinv AClose _ m' O1) as H.
    destruct (close_step AClose _); [done|by intros [= <-]].
  - destruct (returned w m); [|done]. intros [= <-]. by apply (Hput id s e (Some w)).
Qed.

Lemma reach_oinv size gate m : mreach (new_monitor size gate) m -> oinv m.
Proof.
  induction 1 as [|a m m' Hr IH E]; [apply new_oinv|]. pose proof (reach_minv _ _ _ Hr) as I.
  unfold mstep in E. destruct (run_step a m) as [r|] eqn:E1.
  - simplify_eq. by eapply run_step_oinv.
  - destruct (call_step a m) as [r|] eqn:E2; [simplify_eq; by eapply call_step_oinv|].
    destruct (close_step a m) as [r|] eqn:E3; [simplify_eq; by eapply close_step_oinv|by eapply handler_step_oinv].
Qed.

(** C10: What subscribers see.  In every interleaving, the events of a subscription
    carry its identifier and point; a failed read gives an unchanged event without
    a value; a successful one is marked as changed exactly if it is the first, or
    there is no detector, or the detector says so of it and the last successful
    read before it.  What a subscriber (or the shared channel) holds and has handed
    out of a subscription is its history with events left out: in the order of the
    polls, none twice, none from elsewhere. *)
Theorem events_in_order size gate m id s :
  mreach (new_monitor size gate) m -> heap m !! id = Some s ->
  history_ok id s /\
  of_sub id (received (events m) ++ buf (events m)) `sublist_of` s_events s /\
  forall k c, consumers m !! k = Some c ->
    of_sub id (received (ch c) ++ buf (ch c)) `sublist_of` s_events s.
Proof.
  intros Hr Hs. pose proof (reach_oinv _ _ _ Hr) as O.
  assert (forall p, sent_before p s `sublist_of` s_events s) as Hsub.
  { intros p. by apply (sent_before_mono p false s s). }
  split; [by apply (oi_history _ O)|]. split.
  - etrans; [apply (oi_events _ O id s Hs)|apply Hsub].
  - intros k c Hk. etrans; [apply (oi_consumers _ O id s k c Hs Hk)|apply Hsub].
Qed.
End Events.

Lemma events_in_order_witness :
  let m := demo_run (demo_poll 5 ++ demo_poll 5 ++ demo_poll 6) in
  match heap m !! 1 with
  | Some s => map Changed (s_events s) = [true; false; true] /\ history_ok 1 s
  | None => False
  end.
Proof.
  intros m. assert (mreach (new_monitor None None) m) as Hr by (apply demo_reach; by vm_compute).
  destruct (heap m !! 1) as [s|] eqn:E; [|by vm_compute in E].
  split; [vm_compute in E; injection E as <-; reflexivity|].
  exact (proj1 (events_in_order None None m 1 s Hr E)).
Defined.
