(* ===== verification/MonitorClose.v ===== *)
(** * The end of a monitor

    When [Close] of [MonitorSubs] gets through, and when it cannot: it waits for the
    goroutines of the subscriptions, and these for their handlers, which may
    themselves be waiting in [Stop] or in [Close]. *)
From S2P Require Import Prelude Bytes Plc MonitorSubs.

(** ** Sums over a map *)
Definition sum_map {A} (f : A -> nat) (h : gmap Z A) : nat := sum_list_with (fun kx => f kx.2) (map_to_list h).
Lemma sum_list_perm {A} (f : A -> nat) xs ys : xs ≡ₚ ys -> sum_list_with f xs = sum_list_with f ys.
Proof. induction 1; cbn; lia. Qed.
Lemma sum_map_insert {A} (f : A -> nat) (h : gmap Z A) k x x' : h !! k = Some x ->
  (sum_map f (<[k := x']> h) + f x = sum_map f h + f x')%nat.
Proof.
  intros Hk. unfold sum_map. rewrite <-insert_delete_eq.
  rewrite (sum_list_perm _ _ _ (map_to_list_insert (delete k h) k x' (lookup_delete_eq h k))).
  rewrite <-(sum_list_perm _ _ _ (map_to_list_delete h k x Hk)). cbn. lia.
Qed.
Lemma sum_map_le {A} (f g : A -> nat) (h : gmap Z A) : (forall x, f x <= g x)%nat -> (sum_map f h <= sum_map g h)%nat.
Proof.
  intros Hfg. unfold sum_map. induction (map_to_list h) as [|[k x] kxs IH]; cbn; [lia|]. specialize (Hfg x). lia.
Qed.

Section Ending.
Context {P : Type}.
#[local] Abbreviation Snapshot := (MonitorSubs.Snapshot P).
#[local] Abbreviation Event := (MonitorSubs.Event P).
#[local] Abbreviation ChangeDetector := (MonitorSubs.ChangeDetector P).
#[local] Abbreviation chan := (MonitorSubs.chan P).
#[local] Abbreviation pc := (MonitorSubs.pc P).
#[local] Abbreviation subscription := (MonitorSubs.subscription P).
#[local] Abbreviation Subscriber := (MonitorSubs.Subscriber P).
#[local] Abbreviation Monitor := (MonitorSubs.Monitor P).
#[local] Abbreviation act := (MonitorSubs.act P).

(** ** What every step keeps

    The call a handler waits in. *)
Definition waiting (s : subscription) : option wait :=
  match s_pc s with InHandler _ w => w | _ => None end.
(** [Stop] of the subscription is under way. *)
Definition stop_pending (s : subscription) : bool :=
  match s_stopper s with Removed | Waiting => true | _ => false end.
(** Steps that neither add a subscription nor make a handler wait. *)
Definition settled (a : act) : bool :=
  match a with ASubscribe _ _ | HStop _ _ | HClose _ => false | _ => true end.

Record keeps (calm : bool) (m m' : Monitor) : Prop := {
  k_heap : forall id s, heap m !! id = Some s -> exists s', heap m' !! id = Some s' /\
    s_cfg s' = s_cfg s /\ (s_stopper s <> NotStopping -> s_stopper s' <> NotStopping) /\
    (forall e w, s_pc s = InHandler e (Some w) -> returned w m = false -> s_pc s' = s_pc s) /\
    (s_doneCh s = false -> stop_pending s = true -> stop_pending s' = true);
  k_back : forall id s' w, heap m' !! id = Some s' -> waiting s' = Some w ->
    (exists s, heap m !! id = Some s /\ waiting s = Some w) \/
    calm = false /\ forall t, w = WStop t -> exists st, heap m' !! t = Some st /\ s_stopper st <> NotStopping;
  k_dom : calm = true -> forall id, is_Some (heap m' !! id) -> is_Some (heap m !! id)
}.

Lemma keeps_same calm (m m' : Monitor) : heap m' = heap m -> keeps calm m m'.
Proof.
  intros E. split; rewrite ?E; try done; [|by eauto]. intros id s Hs. exists s. by split_and!.
Qed.
Lemma keeps_put calm id (s s' : subscription) (m m1 : Monitor) :
  heap m !! id = Some s -> heap m1 = heap m -> s_cfg s' = s_cfg s ->
  (s_stopper s <> NotStopping -> s_stopper s' <> NotStopping) ->
  (forall e w, s_pc s = InHandler e (Some w) -> returned w m = false -> s_pc s' = s_pc s) ->
  (s_doneCh s = false -> stop_pending s = true -> stop_pending s' = true) ->
  (forall w, waiting s' = Some w -> waiting s = Some w) -> keeps calm m (put id s' m1).
Proof.
  intros Hs Eh E1 E2 E3 E4 E5. split; cbn; rewrite ?Eh.
  - intros id1 s1 Hs1. rewrite lookup_insert. case_decide as Hd; [|exists s1; by split_and!].
    subst id1. simplify_eq. exists s'. by split_and!.
  - intros id1 s1 w [[<- <-]|[Hne Hs1]]%lookup_insert_Some Hw; left; [exists s; auto|by eauto].
  - intros _ id1. rewrite lookup_insert. case_decide as Hd; [|done]. subst id1. by exists s.
Qed.

(** A goroutine that moves on, and is not waiting. *)
Ltac kept_move Hs Hp :=
  eapply keeps_put; [exact Hs|done|done|done|by intros ? ?; rewrite Hp| |];
    [by unfold stop_pending|unfold waiting; by rewrite ?Hp].

Lemma run_step_keeps (a : act) (m m' : Monitor) : run_step a m = Some (Ok m') -> keeps true m m'.
Proof.
  destruct a as [| | |id|id|id|id|id ts r|id|id|id|id k|id|id|id| | | | | | | | | | | | | | |id r| | |];
    try done; cbn [run_step emit_step]; unfold on_sub;
    (destruct (heap m !! id) as [s|] eqn:Hs; [|done]);
    destruct (s_pc s) as [| | | |e [w|]|e|e|e todo|e| | | |] eqn:Hp; try done;
    try (destruct (s_stopCh s || stopCh m); done).
  - destruct (connectedCh m) as [[]|]; [|done..]. intros [= <-]. unfold initial_pc.
    destruct (_ =? 0); kept_move Hs Hp.
  - intros [= <-]. kept_move Hs Hp.
  - intros [= <-]. kept_move Hs Hp.
  - destruct (_ || _); [|done]. intros [= <-]. kept_move Hs Hp.
  - destruct (_ || _); [|done]. intros [= <-]. kept_move Hs Hp.
  - destruct (_ || _); [|done]. intros [= <-]. kept_move Hs Hp.
  - intros [= <-]. kept_move Hs Hp.
  - destruct r as [err|[|v vs]]; cbn; [| |destruct (has_handler (s_cfg s))]; intros [= <-]; kept_move Hs Hp.
  - intros [= <-]. kept_move Hs Hp.
  - intros [= <-]. destruct (stopCh m); kept_move Hs Hp.
  - intros [= <-]. kept_move Hs Hp.
  - destruct (decide (k ∈ todo)); [|done]. destruct (consumers m !! k) as [sub|]; [|done].
    destruct (try_send e (ch sub)); [|done..]. intros [= <-]. kept_move Hs Hp.
  - destruct (decide (todo = ∅)); [|done]. intros [= <-]. kept_move Hs Hp.
  - destruct (try_send e (events m)); [|done..]. intros [= <-]. kept_move Hs Hp.
  - destruct (stopCh m); [|done]. intros [= <-]. kept_move Hs Hp.
  - destruct (next_delay _ _); [|done..]. intros [= <-]. kept_move Hs Hp.
Qed.

Lemma Subscribe_keeps point opts (m : Monitor) : minv m -> keeps false m (Subscribe point opts m).2.
Proof.
  intros I. unfold Subscribe. destruct point as [point|]; [|by apply keeps_same].
  destruct (apply_options _ _) as [e|cfg]; [by apply keeps_same|]. destruct (closed m); [by apply keeps_same|].
  assert (heap m !! (nextID m + 1) = None) as Hnew.
  { apply eq_None_not_Some. intros H. apply (mi_ids _ I) in H. lia. }
  split; cbn; [| |done].
  - intros id s Hs. exists s. rewrite lookup_insert_ne by congruence. by split_and!.
  - intros id s w [[<- <-]|[Hne Hs]]%lookup_insert_Some Hw; [done|left; by eauto].
Qed.

Lemma stop_step_keeps (a : act) (m m' : Monitor) : stop_step a m = Some (Ok m') -> keeps true m m'.
Proof.
  destruct a as [| | | | | | | | | | | | | | |id|id|id| | | | | | | | | | | | | | |]; try done;
    cbn [stop_step]; unfold on_sub; (destruct (heap m !! id) as [s|] eqn:Hs; [|done]).
  - intros E. assert (s_stopper s = NotStopping /\
      (m' = put id (at_stopper Removed s) (set_subs (subs m ∖ {[id]}) m) \/ m' = put id (at_stopper Stopped s) m))
      as (Hn & [-> | ->]).
    { destruct (decide (id ∈ subs m)), (s_pc s), (s_stopper s); simplify_eq; auto. }
    all: eapply keeps_put; [exact Hs|done..| |done]; unfold stop_pending; by rewrite Hn.
  - destruct (s_stopper s) eqn:Est; try done. unfold close_stopCh. destruct (s_stopCh s); [done|]. intros [= <-].
    by eapply keeps_put.
  - destruct (s_stopper s) eqn:Est; try done. destruct (s_doneCh s) eqn:Ed; [|done]. intros [= <-].
    eapply keeps_put; [exact Hs|done..| |done]. by rewrite Ed.
Qed.

Lemma call_step_keeps (a : act) (m m' : Monitor) :
  minv m -> call_step a m = Some (Ok m') -> keeps (settled a) m m'.
Proof.
  intros I. destruct a as [point opts|id| | | | | | | | | | | | | |id|id|id|n|k|k|k| | | | | | | | | | |];
    try done; cbn [call_step done_step settled]; try apply stop_step_keeps.
  - intros [= <-]. by apply Subscribe_keeps.
  - unfold on_sub. destruct (heap m !! id) as [s|] eqn:Hs; [|done]. destruct (s_pc s) eqn:Hp; try done.
    intros [= <-]. unfold start_pc, initial_pc. repeat case_match; kept_move Hs Hp.
  - destruct (connectedCh m) as [[]|]; try done. intros [= <-]. by apply keeps_same.
  - destruct (decide (rlocks m = ∅)); [|done]. intros [= <-]. apply keeps_same. unfold NewSubscriber.
    by destruct (stopCh m).
  - repeat case_match; intros; simplify_eq; by apply keeps_same.
  - repeat case_match; intros; simplify_eq; by apply keeps_same.
  - repeat case_match; intros; simplify_eq; by apply keeps_same.
  - repeat case_match; intros; simplify_eq; by apply keeps_same.
Qed.

Lemma close_step_keeps (a : act) (m m' : Monitor) : close_step a m = Some (Ok m') -> keeps true m m'.
Proof.
  destruct a as [| | | | | | | | | | | | | | | | | | | | | | | | |id| | | | | | |]; try done;
    cbn [close_step]; destruct (m_closer m) as [| |todo|id1 todo| | |]; try done;
    unfold on_sub, lift, close_stopCh; intros E; repeat case_match; simplify_eq; try by apply keeps_same.
  by eapply keeps_put.
Qed.

(** A handler starts to wait. *)
Lemma wait_keeps id (s : subscription) e w (m m' : Monitor) :
  heap m !! id = Some s -> s_pc s = InHandler e None ->
  keeps true (put id (at_pc (InHandler e (Some w)) s) m) m' ->
  (forall t, w = WStop t -> exists st, heap m' !! t = Some st /\ s_stopper st <> NotStopping) -> keeps false m m'.
Proof.
  intros Hs Hp [Kh Kb Kd] Hw. cbn in Kh, Kb, Kd. split; [| |done].
  - intros id1 s1 Hs1. specialize (Kh id1). rewrite lookup_insert in Kh. case_decide as Hd.
    + subst id1. simplify_eq. destruct (Kh _ eq_refl) as (s' & H1 & H2 & H3 & H4 & H5). exists s'.
      split_and!; [done|done|done|intros e1 w1 Hp1; congruence|]. intros _. by apply H5.
    + destruct (Kh s1 Hs1) as (s' & H1 & H2 & H3 & H4 & H5). exists s'. split_and!; try done.
      intros e1 w1 Hp1 Hr. apply (H4 e1 w1 Hp1). rewrite <-Hr. unfold returned. cbn. destruct w1 as [t|]; [|done].
      rewrite lookup_insert. case_decide as Ht; [|done]. subst t. by rewrite Hs.
  - intros id1 s1 w1 Hs1 Hw1. destruct (Kb id1 s1 w1 Hs1 Hw1) as [(s0 & H0 & Hw0)|[? _]]; [|done].
    apply lookup_insert_Some in H0 as [[<- <-]|[Hne H0]]; [|left; by eauto].
    right. split; [done|]. cbn in Hw0. injection Hw0 as <-. done.
Qed.

Lemma handler_step_keeps (a : act) (m m' : Monitor) : handler_step a m = Some (Ok m') -> keeps (settled a) m m'.
Proof.
  destruct a as [| | | | | | | | | | | | | | | | | | | | | | | | | | | | | |id t|id|id]; try done;
    cbn [handler_step settled]; unfold on_sub; (destruct (heap m !! id) as [s|] eqn:Hs; [|done]);
    destruct (s_pc s) as [| | | |e [w|]|e|e|e todo|e| | | |] eqn:Hp; try done.
  - destruct (heap m !! t) as [st|] eqn:Ht; [|done]. intros E.
    set (m1 := put id (at_pc (InHandler e (Some (WStop t))) s) m) in *.
    assert (match stop_step (AStop t) m1 with Some r => Some r | None => Some (Ok m1) end = Some (Ok m') /\ s_pc st <> Starting)
      as [E' Hst] by (by destruct (s_pc st)). clear E.
    assert (exists st1, heap m1 !! t = Some st1 /\ s_stopper st1 = s_stopper st /\ s_pc st1 <> Starting) as (st1 & H1 & H2 & H3).
    { unfold m1. cbn. rewrite lookup_insert. case_decide as Hd; [|by exists st]. subst t. simplify_eq. by eexists. }
    assert (exists st2, heap m' !! t = Some st2 /\ s_stopper st2 <> NotStopping) as (st2 & H4 & H5).
    { cbn [stop_step] in E'. unfold on_sub in E'. rewrite H1 in E'.
      destruct (decide (t ∈ subs m1)), (s_pc st1), (s_stopper st1) eqn:Es; simplify_eq; cbn;
        rewrite ?lookup_insert_eq; eexists; (split; [first [reflexivity|exact H1]|]); cbn; congruence. }
    eapply (wait_keeps _ _ _ (WStop t)); [exact Hs|exact Hp| |intros t' [= <-]; by exists st2].
    destruct (stop_step (AStop t) m1) eqn:E1; simplify_eq; [by eapply stop_step_keeps|by apply keeps_same].
  - intros E. eapply (wait_keeps _ _ _ WClose); [exact Hs|exact Hp| |done].
    destruct (close_step AClose _) eqn:E1; simplify_eq; [by eapply close_step_keeps|by apply keeps_same].
  - destruct (returned w m) eqn:Er; [|done]. intros [= <-].
    eapply keeps_put; [exact Hs|done..| | |]; [|by unfold stop_pending|done].
    intros e1 w1. rewrite Hp. intros [= <- <-]. congruence.
Qed.

Lemma mstep_keeps (a : act) (m m' : Monitor) : minv m -> mstep a m = Some (Ok m') -> keeps (settled a) m m'.
Proof.
  intros I. unfold mstep. pose proof (run_step_keeps a m m') as H1.
  pose proof (call_step_keeps a m m' I) as H2. pose proof (close_step_keeps a m m') as H3.
  pose proof (handler_step_keeps a m m') as H4.
  assert (keeps true m m' -> keeps (settled a) m m') as Hw.
  { intros [Kh Kb Kd]. split; [done| |by intros _; apply Kd].
    intros id s w Hs Hw. destruct (Kb id s w Hs Hw) as [?|[? _]]; [by left|done]. }
  destruct (run_step a m); [auto|]. destruct (call_step a m); [auto|]. destruct (close_step a m); auto.
Qed.

(** The subscription a handler waits for is there, and its [Stop] has been called. *)
Definition waits_known (m : Monitor) : Prop := forall id s t,
  heap m !! id = Some s -> waiting s = Some (WStop t) ->
  exists st, heap m !! t = Some st /\ s_stopper st <> NotStopping.
Lemma keeps_waits calm (m m' : Monitor) : keeps calm m m' -> waits_known m -> waits_known m'.
Proof.
  intros [Kh Kb _] W id s' t Hs' Hw. destruct (Kb id s' _ Hs' Hw) as [(s & Hs & Hw0)|[_ H]]; [|by apply H].
  destruct (W id s t Hs Hw0) as (st & Ht & Hst). destruct (Kh t st Ht) as (st' & Ht' & _ & Hn & _). exists st'. auto.
Qed.
Lemma reach_waits size gate (m : Monitor) : mreach (new_monitor size gate) m -> waits_known m.
Proof.
  induction 1 as [|a m m' Hr IH E]; [by intros ? ? ? ?|].
  exact (keeps_waits _ m m' (mstep_keeps a m m' (reach_minv _ _ _ Hr) E) IH).
Qed.

(** ** [Close] ends

    The steps that need no caller: the goroutines with their reads and handlers, a
    [Subscribe] or a [Stop] under way, and [Close] itself.  The timer is left out: a
    [select] that finds both its timer and [stopCh] ready may take either. *)
Definition internal (a : act) : bool :=
  match a with
  | AStart _ | GGate _ | GQuit _ | GWg _ | GRead _ _ _ | GHandler _ | HReturn _ | GCheck _ | GLock _ | GSend _ _
  | GUnlock _ | GEvents _ | GEventsStop _ | GLoop _ _ | AStopCh _ | AStopDone _
  | ACloseLock | ACloseStop _ | ACloseWait | ACloseJoin | ACloseSubs => true
  | _ => false
  end.
Definition istep (m m' : Monitor) : Prop := exists a, internal a = true /\ mstep a m = Some (Ok m').

(** How far a goroutine is from its end, with [n] subscribers to be served. *)
Definition rank (n : nat) (s : subscription) : nat :=
  match s_pc s with
  | Finished => 0
  | Exited => 1
  | Sleeping => 2
  | Looping => 3
  | EmitEvents _ => 4
  | EmitSend _ todo => 5 + size todo
  | EmitLock _ => 6 + n
  | EmitCheck _ => 7 + n
  | InHandler _ None => 8 + n
  | InHandler _ (Some _) => 9 + n
  | Reading => 9 + n
  | Initial => 10 + n
  | Connecting => 11 + n
  | Starting => 12 + n
  end.
Definition weight (n : nat) (s : subscription) : nat :=
  rank n s + match s_stopper s with Removed => 2 | Waiting => 1 | _ => 0 end.
Definition close_rank (c : closer) (subs : gset Z) : nat :=
  match c with
  | NotClosing => 0
  | CloseLock => 4 + 2 * size subs
  | CloseStop todo => 3 + 2 * size todo
  | CloseWait _ todo => 4 + 2 * size todo
  | CloseJoin => 2
  | CloseSubscribers => 1
  | Closed => 0
  end.
Definition work (m : Monitor) : nat :=
  sum_map (weight (size (subscribers m))) (heap m) + close_rank (m_closer m) (subs m).

Lemma size_less {A} `{Countable A} (k : A) (X : gset A) : k ∈ X -> (S (size (X ∖ {[k]})) = size X)%nat.
Proof.
  intros Hk. rewrite size_difference by set_solver. rewrite size_singleton.
  assert (size X <> 0)%nat by (intros H0%size_empty_inv; set_solver). lia.
Qed.
Lemma work_put id (s s' : subscription) (m m1 : Monitor) :
  heap m !! id = Some s -> heap m1 = heap m -> subscribers m1 = subscribers m ->
  (close_rank (m_closer m1) (subs m1) + weight (size (subscribers m)) s' <
   close_rank (m_closer m) (subs m) + weight (size (subscribers m)) s)%nat ->
  (work (put id s' m1) < work m)%nat.
Proof.
  intros Hs Eh Es Hlt. unfold work. cbn. rewrite Eh, Es.
  pose proof (sum_map_insert (weight (size (subscribers m))) (heap m) id s s' Hs). lia.
Qed.
Lemma work_closer (m m' : Monitor) :
  heap m' = heap m -> subscribers m' = subscribers m ->
  (close_rank (m_closer m') (subs m') < close_rank (m_closer m) (subs m))%nat -> (work m' < work m)%nat.
Proof. intros Eh Es Hlt. unfold work. rewrite Eh, Es. lia. Qed.

Ltac works Hs Hp := eapply work_put; [exact Hs|done|done|unfold weight, rank; rewrite Hp; cbn; lia].

Lemma run_step_works (a : act) (m m' : Monitor) :
  internal a = true -> run_step a m = Some (Ok m') -> (work m' < work m)%nat.
Proof.
  intros Ha. destruct a as [| | |id|id|id|id|id ts r|id|id|id|id k|id|id|id| | | | | | | | | | | | | | |id r| | |];
    try done; cbn [run_step emit_step]; unfold on_sub;
    (destruct (heap m !! id) as [s|] eqn:Hs; [|done]);
    destruct (s_pc s) as [| | | |e [w|]|e|e|e todo|e| | | |] eqn:Hp; try done;
    try (destruct (s_stopCh s || stopCh m); done).
  - destruct (connectedCh m) as [[]|]; [|done..]. intros [= <-]. unfold initial_pc.
    destruct (_ =? 0); works Hs Hp.
  - destruct (_ || _); [|done]. intros [= <-]. works Hs Hp.
  - destruct (_ || _); [|done]. intros [= <-]. works Hs Hp.
  - destruct (_ || _); [|done]. intros [= <-]. works Hs Hp.
  - intros [= <-]. works Hs Hp.
  - destruct r as [err|[|v vs]]; cbn; [| |destruct (has_handler (s_cfg s))]; intros [= <-]; works Hs Hp.
  - intros [= <-]. works Hs Hp.
  - intros [= <-]. destruct (stopCh m); works Hs Hp.
  - intros [= <-]. works Hs Hp.
  - destruct (decide (k ∈ todo)) as [Hk|]; [|done]. destruct (consumers m !! k) as [sub|]; [|done].
    destruct (try_send e (ch sub)); [|done..]. intros [= <-]. pose proof (size_less k todo Hk). works Hs Hp.
  - destruct (decide (todo = ∅)); [|done]. intros [= <-]. works Hs Hp.
  - destruct (try_send e (events m)); [|done..]. intros [= <-]. works Hs Hp.
  - destruct (stopCh m); [|done]. intros [= <-]. works Hs Hp.
  - destruct (next_delay _ _); [|done..]. intros [= <-]. works Hs Hp.
Qed.

Lemma istep_works (m m' : Monitor) : istep m m' -> (work m' < work m)%nat.
Proof.
  intros (a & Ha & E). unfold mstep in E. destruct (run_step a m) as [r|] eqn:E1.
  { simplify_eq. by eapply run_step_works. }
  clear E1. destruct a as [|id| | | | | | | | | | | | | | |id|id| | | | | | | |id| | | | | |id|id]; try done;
    cbn [call_step stop_step close_step handler_step] in E; unfold on_sub in E.
  - destruct (heap m !! id) as [s|] eqn:Hs; [|done]. destruct (s_pc s) eqn:Hp; try done. injection E as <-.
    unfold start_pc, initial_pc. repeat case_match; works Hs Hp.
  - destruct (heap m !! id) as [s|] eqn:Hs; [|done]. destruct (s_stopper s) eqn:Ep; try done.
    unfold close_stopCh in E. destruct (s_stopCh s); [done|]. injection E as <-.
    eapply work_put; [exact Hs|done|done|]. unfold weight, rank. rewrite Ep. cbn. lia.
  - destruct (heap m !! id) as [s|] eqn:Hs; [|done]. destruct (s_stopper s) eqn:Ep; try done.
    destruct (s_doneCh s); [|done]. injection E as <-.
    eapply work_put; [exact Hs|done|done|]. unfold weight, rank. rewrite Ep. cbn. lia.
  - destruct (m_closer m) eqn:Hc; try done. injection E as <-. apply work_closer; try done. cbn. rewrite Hc. cbn. lia.
  - destruct (m_closer m) as [| |todo| | | |] eqn:Hc; try done. destruct (decide (id ∈ todo)) as [Hin|]; [|done].
    destruct (heap m !! id) as [s|] eqn:Hs; [|done]. unfold close_stopCh in E. destruct (s_stopCh s); [done|].
    injection E as <-. eapply work_put; [exact Hs|done|done|]. pose proof (size_less id todo Hin). cbn. rewrite Hc.
    unfold weight, rank. cbn. lia.
  - destruct (m_closer m) as [| |todo|id todo| | |] eqn:Hc; try done.
    + destruct (decide (todo = ∅)); [|done]. injection E as <-. apply work_closer; try done. cbn. rewrite Hc. cbn. lia.
    + destruct (heap m !! id) as [s|]; [|done]. destruct (s_doneCh s); [|done]. injection E as <-.
      apply work_closer; try done. cbn. rewrite Hc. cbn. lia.
  - destruct (m_closer m) eqn:Hc; try done. destruct (wg_zero m); [|done]. unfold close_chan in E.
    destruct (is_closed (events m)); [done|]. injection E as <-. apply work_closer; try done. cbn. rewrite Hc. cbn. lia.
  - destruct (m_closer m) eqn:Hc; try done. destruct (decide (rlocks m = ∅)); [|done]. injection E as <-.
    unfold work. cbn -[size weight]. rewrite Hc. cbn -[size weight].
    assert (sum_map (weight (size (∅ : gset nat))) (heap m) <= sum_map (weight (size (subscribers m))) (heap m))%nat; [|lia].
    apply sum_map_le. intros s. rewrite size_empty. unfold weight, rank. repeat case_match; lia.
  - destruct (heap m !! id) as [s|] eqn:Hs; [|done]. destruct (s_pc s) as [| | | |e [w|]|e|e|e todo|e| | | |] eqn:Hp; try done.
    destruct (returned w m); [|done]. injection E as <-. works Hs Hp.
Qed.

(** Nothing stands in the way of the handlers' return: a handler that waits does so
    in [Stop], and not in a circle, and no delay overflows. *)
Definition can_return (m : Monitor) : Prop :=
  (forall id s, heap m !! id = Some s -> readVariance (s_cfg s) < 4611686018427387904) /\
  exists height : Z -> nat, forall id s w, heap m !! id = Some s -> waiting s = Some w ->
    exists t, w = WStop t /\ (height t < height id)%nat.

Lemma istep_inv (m m' : Monitor) : minv m -> istep m m' -> minv m'.
Proof. intros I (a & _ & E). pose proof (mstep_safe a m I) as H. by rewrite E in H. Qed.
Lemma istep_keeps (m m' : Monitor) : minv m -> istep m m' -> keeps true m m'.
Proof. intros I (a & Ha & E). pose proof (mstep_keeps a m m' I E) as H. by destruct a. Qed.
Lemma istep_can_return (m m' : Monitor) : minv m -> istep m m' -> can_return m -> can_return m'.
Proof.
  intros I Hi [Hv [height Hh]]. destruct (istep_keeps m m' I Hi) as [Kh Kb Kd]. split.
  - intros id s' Hs'. destruct (Kd eq_refl id) as [s Hs]; [by exists s'|].
    destruct (Kh id s Hs) as (s1 & H1 & Ec & _). simplify_eq. rewrite Ec. by eapply Hv.
  - exists height. intros id s' w Hs' Hw. destruct (Kb id s' w Hs' Hw) as [(s & Hs & Hw0)|[? _]]; [|done]. by eapply Hh.
Qed.

(** A step that is not blocked can be made. *)
Lemma enabled (a : act) (m : Monitor) :
  minv m -> internal a = true -> (forall id r, a = GLoop id r -> forall s, heap m !! id = Some s ->
    readVariance (s_cfg s) < 4611686018427387904) ->
  is_Some (mstep a m) -> exists m', istep m m'.
Proof.
  intros I Ha Hv [r E]. pose proof (mstep_safe a m I) as H. rewrite E in H. destruct r as [m'|e|]; [|done|].
  - exists m', a. by split.
  - destruct a; try done. destruct H as (s & Hs & _ & Hle). specialize (Hv _ _ eq_refl s Hs). lia.
Qed.
Lemma run_enabled (a : act) (m : Monitor) : is_Some (run_step a m) -> is_Some (mstep a m).
Proof. intros [r E]. unfold mstep. rewrite E. by eexists. Qed.

(** As long as a goroutine has not ended, something moves: the goroutine itself, or
    what its handler waits for. *)
Lemma goroutine_moves (m : Monitor) : minv m -> waits_known m -> stopCh m = true ->
  (forall id s, heap m !! id = Some s -> readVariance (s_cfg s) < 4611686018427387904) ->
  forall height : Z -> nat, (forall id s w, heap m !! id = Some s -> waiting s = Some w ->
    exists t, w = WStop t /\ (height t < height id)%nat) ->
  forall n id s, (height id <= n)%nat -> heap m !! id = Some s -> finished s = false -> exists m', istep m m'.
Proof.
  intros I W Hst Hv height Hh. induction n as [n IH] using lt_wf_ind. intros id s Hn Hs Hf.
  assert (forall a, internal a = true -> is_Some (mstep a m) -> exists m', istep m m') as Go.
  { intros a Ha. apply enabled; [done|done|]. intros ? ? _. apply Hv. }
  destruct (s_pc s) as [| | | |e [w|]|e|e|e todo|e| | | |] eqn:Hp.
  - apply (Go (AStart id)); [done|]. unfold mstep, run_step, call_step, on_sub. rewrite Hs, Hp. by eexists.
  - apply (Go (GQuit id)); [done|]. apply run_enabled. cbn. unfold on_sub. rewrite Hs, Hst, orb_true_r, Hp. by eexists.
  - apply (Go (GQuit id)); [done|]. apply run_enabled. cbn. unfold on_sub. rewrite Hs, Hst, orb_true_r, Hp. by eexists.
  - apply (Go (GRead id 0 (inl CtxDone))); [done|]. apply run_enabled. cbn. unfold on_sub. rewrite Hs, Hp. by eexists.
  - destruct (Hh id s w Hs) as (t & -> & Hlt); [unfold waiting; by rewrite Hp|].
    destruct (W id s t Hs) as (st & Ht & Hns); [unfold waiting; by rewrite Hp|].
    destruct (s_stopper st) eqn:Es; [done| | |].
    + apply (Go (AStopCh t)); [done|]. unfold mstep. cbn. unfold on_sub, close_stopCh. rewrite Ht, Es.
      rewrite (mi_removed _ I t st Ht Es). by eexists.
    + destruct (s_doneCh st) eqn:Ed.
      * apply (Go (AStopDone t)); [done|]. unfold mstep. cbn. unfold on_sub. rewrite Ht, Es, Ed. by eexists.
      * eapply (IH (height t)); [lia|done|exact Ht|]. unfold finished. unfold s_doneCh in Ed. by destruct (s_pc st).
    + apply (Go (HReturn id)); [done|]. unfold mstep. cbn. unfold on_sub. rewrite Hs, Hp. cbn. rewrite Ht, Es. by eexists.
  - apply (Go (GHandler id)); [done|]. apply run_enabled. cbn. unfold on_sub. rewrite Hs, Hp. by eexists.
  - apply (Go (GCheck id)); [done|]. apply run_enabled. cbn. unfold on_sub. rewrite Hs, Hp. by eexists.
  - apply (Go (GLock id)); [done|]. apply run_enabled. cbn. unfold on_sub. rewrite Hs, Hp. by eexists.
  - destruct (decide (todo = ∅)) as [->|Hne].
    + apply (Go (GUnlock id)); [done|]. apply run_enabled. cbn. unfold on_sub. rewrite Hs, Hp. by eexists.
    + destruct (set_choose_L todo Hne) as [k Hk].
      destruct (mi_registered _ I k) as (sub & Ek & Hcl & _).
      { apply (mi_sending _ I id s todo Hs); [unfold sending; by rewrite Hp|done]. }
      apply (Go (GSend id k)); [done|]. apply run_enabled. cbn. unfold on_sub. rewrite Hs, Hp, decide_True, Ek by done.
      unfold try_send. rewrite Hcl. by case_match; eexists.
  - apply (Go (GEventsStop id)); [done|]. apply run_enabled. cbn. unfold on_sub. rewrite Hs, Hp, Hst. by eexists.
  - apply (Go (GLoop id 0)); [done|]. apply run_enabled. cbn. unfold on_sub, lift. rewrite Hs, Hp.
    by case_match; eexists.
  - apply (Go (GQuit id)); [done|]. apply run_enabled. cbn. unfold on_sub. rewrite Hs, Hst, orb_true_r, Hp. by eexists.
  - apply (Go (GWg id)); [done|]. apply run_enabled. cbn. unfold on_sub. rewrite Hs, Hp. by eexists.
  - unfold finished in Hf. by rewrite Hp in Hf.
Qed.

(** [Close] is never stuck. *)
Lemma close_moves (m : Monitor) : minv m -> waits_known m -> can_return m -> m_closer m <> NotClosing ->
  m_closer m = Closed \/ exists m', istep m m'.
Proof.
  intros I W [Hv [height Hh]] Hc.
  assert (stopCh m = true) as Hst by (rewrite (mi_stop _ I); by destruct (m_closer m)).
  assert (forall id s, heap m !! id = Some s -> finished s = false -> exists m', istep m m') as Hgo.
  { intros id s. by apply (goroutine_moves m I W Hst Hv height Hh (height id)). }
  assert (forall a, internal a = true -> run_step a m = None -> call_step a m = None -> is_Some (close_step a m) ->
    exists m', istep m m') as Go.
  { intros a Ha E1 E2 [r E3]. apply (enabled a); [done|done|intros ? ? _; apply Hv|].
    unfold mstep. rewrite E1, E2, E3. by eexists. }
  destruct (m_closer m) as [| |todo|id todo| | |] eqn:E; [done|right..|by left].
  - apply (Go ACloseLock); try done. cbn. rewrite E. by eexists.
  - destruct (decide (todo = ∅)) as [->|Hne].
    + apply (Go ACloseWait); try done. cbn. rewrite E. by eexists.
    + destruct (set_choose_L todo Hne) as [id Hid]. destruct (mi_todo _ I id) as (s & Hs & H1 & _); [by rewrite E|].
      apply (Go (ACloseStop id)); try done. cbn. rewrite E, decide_True by done.
      unfold on_sub, close_stopCh. rewrite Hs, H1. by eexists.
  - destruct (mi_wait _ I id todo E) as [s Hs]. destruct (s_doneCh s) eqn:Ed.
    + apply (Go ACloseWait); try done. cbn. rewrite E. unfold on_sub. rewrite Hs, Ed. by eexists.
    + apply (Hgo id s Hs). unfold finished. unfold s_doneCh in Ed. by destruct (s_pc s).
  - destruct (wg_zero m) eqn:Ew.
    + apply (Go ACloseJoin); try done. cbn. rewrite E, Ew. unfold close_chan. destruct (is_closed _); by eexists.
    + unfold wg_zero in Ew. apply not_true_iff_false in Ew. rewrite forallb_forall in Ew.
      destruct (decide (Forall (fun ks : Z * subscription => finished ks.2 = true) (map_to_list (heap m)))) as [Hall|Hex].
      * exfalso. apply Ew. intros [id s] Hin. rewrite Forall_forall in Hall. apply (Hall (id, s)). by apply list_elem_of_In.
      * apply not_Forall_Exists in Hex; [|apply _]. apply Exists_exists in Hex as ([id s] & Hin & Hf).
        apply elem_of_map_to_list in Hin. apply (Hgo id s Hin). by apply not_true_is_false.
  - assert (rlocks m = ∅) as Hr.
    { apply elem_of_equiv_empty_L. intros id (s & todo & Hs & Hsd)%(mi_rlocks _ I).
      pose proof (mi_joined _ I id s ltac:(by rewrite E) Hs) as Hf. unfold finished, sending in *. by destruct (s_pc s). }
    apply (Go ACloseSubs); try done. cbn. rewrite E, decide_True by done. by eexists.
Qed.

Lemma istep_closer (m m' : Monitor) : minv m -> istep m m' -> m_closer m <> NotClosing -> m_closer m' <> NotClosing.
Proof.
  intros I Hi Hc Hc'. pose proof (istep_inv m m' I Hi) as I'. destruct Hi as (a & Ha & E).
  pose proof (mi_stop _ I') as Hs'. rewrite Hc' in Hs'. pose proof (mi_stop _ I) as Hs.
  assert (stopCh m' = stopCh m) as Hst; [|destruct (m_closer m); congruence].
  clear Hs Hs' I I' Hc Hc'. unfold mstep in E. destruct a; try done;
    cbn [run_step emit_step call_step stop_step close_step handler_step] in E; unfold on_sub, go_to, lift in E;
    repeat case_match; simplify_eq; done.
Qed.

(** A state in which [Close] has begun and can get through. *)
Definition closing (m : Monitor) : Prop :=
  minv m /\ waits_known m /\ can_return m /\ m_closer m <> NotClosing.
Lemma istep_closing (m m' : Monitor) : istep m m' -> closing m -> closing m'.
Proof.
  intros Hi (I & W & Hk & Hc).
  split_and!; [by eapply istep_inv| |by eapply istep_can_return|by eapply istep_closer].
  by apply (keeps_waits true m), W; apply istep_keeps.
Qed.
Lemma closing_ends : forall n (m : Monitor), (work m <= n)%nat -> closing m ->
  exists m', rtc istep m m' /\ m_closer m' = Closed.
Proof.
  induction n as [|n IH]; intros m Hn (I & W & Hk & Hc); destruct (close_moves m I W Hk Hc) as [E|[m1 Hi]];
    try (by exists m); pose proof (istep_works m m1 Hi); [lia|].
  destruct (IH m1 ltac:(lia)) as (m2 & R & E); [by eapply istep_closing|]. exists m2. split; [by eapply rtc_l|done].
Qed.

(** C11: [Close] gets through.  Take any state in which [Close] has begun, whatever the
    goroutines, the callers of [Stop] and the handlers are doing, provided that no
    handler waits in [Close] and that handlers waiting in [Stop] do not wait in a
    circle (a handler in the [Stop] of its own subscription is such a circle), and no
    delay overflows.  Then every run of the steps that need no caller (reads return,
    and so does a handler that waits for nothing) has at most [work] steps; a run can
    be continued until [Close] has returned; and so some run, and every run that goes
    on as long as it can, ends with [Close] having returned. *)
Theorem close_completes size gate (m : Monitor) :
  mreach (new_monitor size gate) m -> m_closer m <> NotClosing -> can_return m ->
  (forall n m', nsteps istep n m m' -> (n <= work m)%nat) /\
  (forall m', rtc istep m m' -> m_closer m' = Closed \/ exists m'', istep m' m'') /\
  exists m', rtc istep m m' /\ m_closer m' = Closed.
Proof.
  intros Hr Hc Hk. assert (closing m) as C by (split_and!; [by eapply reach_minv|by eapply reach_waits|done|done]).
  clear Hr Hc Hk. split_and!.
  - intros n m'. induction 1 as [|n m m1 m2 Hi _ IH]; [lia|]. pose proof (istep_works _ _ Hi).
    specialize (IH (istep_closing _ _ Hi C)). lia.
  - intros m' R. assert (closing m') as (I & W & Hk & Hc); [|by apply close_moves].
    revert C. induction R as [|m m1 m2 Hi _ IH]; [done|]. intros C. by apply IH, (istep_closing m).
  - by apply (closing_ends (work m)).
Qed.

(** ** Handlers that wait for each other

    Handlers that wait in [Close], or in the [Stop] of subscriptions whose handlers
    do so too. *)
Definition locked_in (D : Z -> wait -> Prop) (m : Monitor) : Prop := forall id w, D id w ->
  exists s e, heap m !! id = Some s /\ s_pc s = InHandler e (Some w) /\
    match w with
    | WClose => True
    | WStop t => (exists w', D t w') /\ exists st, heap m !! t = Some st /\ stop_pending st = true
    end.
Lemma locked_in_open (D : Z -> wait -> Prop) (m : Monitor) id w : minv m -> locked_in D m -> D id w -> m_closer m <> Closed.
Proof.
  intros I L Hid Hc. destruct (L id w Hid) as (s & e & Hs & Hp & _).
  pose proof (mi_joined _ I id s ltac:(by rewrite Hc) Hs) as Hf. unfold finished in Hf. by rewrite Hp in Hf.
Qed.
Lemma locked_in_step (D : Z -> wait -> Prop) (a : act) (m m' : Monitor) :
  minv m -> locked_in D m -> mstep a m = Some (Ok m') -> locked_in D m'.
Proof.
  intros I L E id w Hid. destruct (mstep_keeps a m m' I E) as [Kh _ _].
  destruct (L id w Hid) as (s & e & Hs & Hp & Hw). destruct (Kh id s Hs) as (s' & Hs' & _ & _ & Hpc & _).
  exists s', e. split; [done|]. split.
  - rewrite (Hpc e w Hp); [done|]. destruct w as [t|]; cbn.
    + destruct Hw as (_ & st & -> & Hst). unfold stop_pending in Hst. by destruct (s_stopper st).
    + pose proof (locked_in_open D m id _ I L Hid). by destruct (m_closer m).
  - destruct w as [t|]; [|done]. destruct Hw as ((w' & Ht) & st & Hst & Hpend). split; [by exists w'|].
    destruct (Kh t st Hst) as (st' & Hst' & _ & _ & _ & Hk). exists st'. split; [done|]. apply Hk; [|done].
    destruct (L t w' Ht) as (st1 & e1 & H1 & H2 & _). simplify_eq. unfold s_doneCh. by rewrite H2.
Qed.

(** Handlers in a circle wait forever.  Once some handlers wait in [Close], or in the
    [Stop] of subscriptions whose handlers wait so themselves, no step of anybody
    lets one of them go on, none of these [Stop]s returns, and [Close] never does. *)
Theorem handlers_deadlock size gate (D : Z -> wait -> Prop) id w (m m' : Monitor) :
  mreach (new_monitor size gate) m -> locked_in D m -> D id w -> mreach m m' ->
  locked_in D m' /\ m_closer m' <> Closed.
Proof.
  intros Hr L Hid Hr'. pose proof (reach_minv _ _ _ Hr) as I.
  assert (minv m' /\ locked_in D m') as [I' L']; [|split; [done|by eapply locked_in_open]].
  induction Hr' as [|a m1 m2 _ [I1 L1] E]; [done|]. split; [|by eapply locked_in_step].
  pose proof (mstep_safe a m1 I1) as H. by rewrite E in H.
Qed.

(** [Stop] must not be called from the handler of its own subscription: it never
    returns, and neither does [Close]. *)
Theorem stop_from_handler_blocks size gate (m m' : Monitor) id s e :
  mreach (new_monitor size gate) m -> heap m !! id = Some s ->
  s_pc s = InHandler e (Some (WStop id)) -> stop_pending s = true -> mreach m m' ->
  m_closer m' <> Closed /\ exists s', heap m' !! id = Some s' /\ s_stopper s' <> Stopped /\ s_doneCh s' = false.
Proof.
  intros Hr Hs Hp Hst Hr'.
  destruct (handlers_deadlock size gate (fun i w => i = id /\ w = WStop id) id (WStop id) m m' Hr) as [L Hc]; try done.
  - intros ? ? [-> ->]. exists s, e. split_and!; [done|done|by exists (WStop id)|by exists s].
  - split; [done|]. destruct (L id (WStop id)) as (s' & e' & H1 & H2 & _ & st & H4 & H5); [done|]. simplify_eq.
    exists s'. unfold s_doneCh, stop_pending in *. rewrite H2. split_and!; try done. by destruct (s_stopper s').
Qed.
End Ending.

(** A handler that stops another subscription does not keep [Close] from its end. *)
Definition demo_two : list (act Z) :=
  [ASubscribe (Some 8) [WithHandler true; WithInitialRead 0]; AStart 2; GRead 2 1 (inr [demo_value 1]); HStop 2 1; AClose].
Lemma close_completes_witness :
  let m := demo_run (demo_poll 5 ++ demo_two) in
  (exists s, heap m !! 2 = Some s /\ waiting s = Some (WStop 1)) /\
  exists m', rtc istep m m' /\ m_closer m' = Closed.
Proof.
  intros m. split; [eexists; split; vm_compute; reflexivity|].
  apply (close_completes None None); [apply demo_reach; by vm_compute|by vm_compute|].
  assert (forall id s, heap m !! id = Some s -> readVariance (s_cfg s) = 0 /\
    (waiting s = None \/ id = 2 /\ waiting s = Some (WStop 1))) as H.
  { intros id s Hs%elem_of_map_to_list.
    assert (Forall (fun ks => readVariance (s_cfg ks.2) = 0 /\
      (waiting ks.2 = None \/ ks.1 = 2 /\ waiting ks.2 = Some (WStop 1))) (map_to_list (heap m))) as HF.
    { vm_compute. repeat (apply List.Forall_cons || apply List.Forall_nil); auto. }
    rewrite Forall_forall in HF. exact (HF _ Hs). }
  split; [intros id s Hs; destruct (H id s Hs) as [-> _]; lia|]. exists Z.to_nat. intros id s w Hs Hw.
  destruct (H id s Hs) as [_ [E|[-> E]]]; [congruence|]. exists 1. split; [congruence|cbn; lia].
Defined.

Definition self_stop : Monitor Z := demo_run (take 2 (demo_poll 5) ++ [HStop 1 1; AClose]).
Lemma stop_from_handler_blocks_witness :
  m_closer self_stop <> NotClosing /\ forall m', mreach self_stop m' -> m_closer m' <> Closed.
Proof.
  split; [by vm_compute|]. intros m' Hr. destruct (heap self_stop !! 1) as [s|] eqn:E; [|by vm_compute in E].
  apply (stop_from_handler_blocks None None self_stop m' 1 s (mkEvent 1 (mkSnapshot 7 (demo_value 5) 5) None true)); try done.
  - apply demo_reach. by vm_compute.
  - vm_compute in E. by injection E as <-.
  - vm_compute in E. by injection E as <-.
Defined.

(** [Close] stops the subscriptions without telling the reader: their points stay
    registered, while [Stop] unregisters its point. *)
Example close_keeps_registered :
  reg_log (demo_run (demo_poll 5 ++ demo_close)) = [(true, 7)] /\
  reg_log (demo_run (demo_poll 5 ++ [AStop 1; AStopCh 1; GQuit 1; AStopDone 1])) = [(true, 7); (false, 7)].
Proof. by vm_compute. Qed.
