(* ===== verification/EipCodec.v ===== *)
(** * EtherNet/IP encapsulation

    Models [protocol/ethernetip/eip]: the 24-byte encapsulation header
    ([header.go], [commands.go]), the Common Packet Format ([cpf.go]) and the
    ListIdentity and ListServices payloads ([discovery.go]).  [binary.Write] to a
    buffer appends the little-endian bytes, so an encoder is a concatenation; a
    decoder works on the unread part of a [bytes.Reader]. *)
From S2P Require Import Prelude Bytes.

(** ** Commands and status codes (commands.go) *)
Module Cmd.
Definition Nop : Z := 0x0000.
Definition ListServices : Z := 0x0004.
Definition ListIdentity : Z := 0x0063.
Definition RegisterSession : Z := 0x0065.
Definition UnregisterSession : Z := 0x0066.
Definition SendRRData : Z := 0x006F.
Definition SendUnitData : Z := 0x0070.
End Cmd.

Module Encap.
Definition StatusSuccess : Z := 0.
Definition StatusInvalidCommand : Z := 1.
Definition StatusInvalidSessionHandle : Z := 0x64.
End Encap.

(** ** The header (header.go) *)
Definition HeaderSize : Z := 24.

Record EncapsulationHeader : Type := mkEncap {
  eh_Command : Z;
  eh_Length : Z;
  eh_SessionHandle : Z;
  eh_Status : Z;
  eh_SenderContext : bytes;
  eh_Options : Z
}.

Definition encap_ok (h : EncapsulationHeader) : Prop :=
  is_u16 (eh_Command h) /\ is_u16 (eh_Length h) /\ is_u32 (eh_SessionHandle h) /\
  is_u32 (eh_Status h) /\ length (eh_SenderContext h) = 8%nat /\ is_u32 (eh_Options h).

Definition Encap_Encode (h : EncapsulationHeader) : bytes :=
  le16 (eh_Command h) ++ le16 (eh_Length h) ++ le32 (eh_SessionHandle h) ++
  le32 (eh_Status h) ++ eh_SenderContext h ++ le32 (eh_Options h).

(** [binary.Read] of the struct, from the 24 bytes it reads. *)
Definition Encap_Decode (b : bytes) : outcome EncapsulationHeader :=
  '(command, r) ← read_le16 b;
  '(length, r) ← read_le16 r;
  '(session, r) ← read_le32 r;
  '(status, r) ← read_le32 r;
  '(context, r) ← read_full 8 r;
  '(options, r) ← read_le32 r;
  Ok (mkEncap command length session status context options).

(** ** Register session (commands.go) *)
Record RegisterSessionData : Type := mkRegister { ProtocolVersion : Z; OptionsFlags : Z }.
Definition NewRegisterSessionData : RegisterSessionData := mkRegister 1 0.
Definition RegisterSession_Encode (d : RegisterSessionData) : bytes :=
  le16 (ProtocolVersion d) ++ le16 (OptionsFlags d).

(** ** Common Packet Format (cpf.go) *)
Definition ItemIDNullAddress : Z := 0x0000.
Definition ItemIDListIdentity : Z := 0x000C.
Definition ItemIDConnectedAddress : Z := 0x00A1.
Definition ItemIDConnectedData : Z := 0x00B1.
Definition ItemIDUnconnectedMessage : Z := 0x00B2.
Definition ItemIDListServices : Z := 0x0100.

Record CPFItem : Type := mkItem { it_TypeID : Z; it_Length : Z; it_Data : bytes }.

#[export] Instance CPFItem_EqDecision : EqDecision CPFItem.
Proof. solve_decision. Defined.

Definition NewCPFItem (typeID : Z) (data : bytes) : CPFItem :=
  mkItem typeID (u16 (len data)) data.
Definition CPFItem_Encode (item : CPFItem) : bytes :=
  le16 (it_TypeID item) ++ le16 (it_Length item) ++
  (if 0 <? it_Length item then it_Data item else []).

Record CommonPacketFormat : Type := mkCPF { ItemCount : Z; Items : list CPFItem }.

Definition NewCommonPacketFormat (items : list CPFItem) : CommonPacketFormat :=
  mkCPF (u16 (len items)) items.
Definition CPF_Encode (cpf : CommonPacketFormat) : bytes :=
  le16 (ItemCount cpf) ++ flat_map CPFItem_Encode (Items cpf).

(** One iteration of the item loop. *)
Definition decode_item (r : bytes) : outcome (CPFItem * bytes) :=
  '(typeID, r) ← read_le16 r;
  '(length, r) ← read_le16 r;
  '(itemData, r) ← (if 0 <? length then read_full (Z.to_nat length) r else Ok ([], r));
  Ok (mkItem typeID length itemData, r).

Fixpoint decode_items (n : nat) (r : bytes) : outcome (list CPFItem) :=
  match n with
  | O => Ok []
  | S n => '(item, r) ← decode_item r; items ← decode_items n r; Ok (item :: items)
  end.

Definition DecodeCommonPacketFormat (data : bytes) : outcome CommonPacketFormat :=
  '(itemCount, r) ← read_le16 data;
  if len r <? 4 * itemCount
  then Err (Errorf "cpf: item count %d requires at least %d bytes but only %d remain") else
  items ← decode_items (Z.to_nat itemCount) r;
  Ok (mkCPF itemCount items).

Definition FindItemByType (typeID : Z) (cpf : CommonPacketFormat) : option CPFItem :=
  List.find (fun item => it_TypeID item =? typeID) (Items cpf).

(** ** Discovery payloads (discovery.go) *)
Record ListIdentityItem : Type := mkIdentity {
  li_TypeID : Z;
  li_Length : Z;
  EncapsVersion : Z;
  SocketAddr : bytes;
  li_VendorID : Z;
  DeviceType : Z;
  ProductCode : Z;
  Revision : bytes;
  li_Status : Z;
  SerialNumber : Z;
  ProductName : bytes;
  li_State : Z
}.
Record ListServicesItem : Type := mkServices {
  ls_TypeID : Z;
  ls_Length : Z;
  ls_Version : Z;
  CapabilityFlags : Z;
  ls_Name : bytes
}.

Definition encode_identity (item : ListIdentityItem) : bytes :=
  let nameBytes := take 32 (ProductName item) in
  le16 (li_TypeID item) ++ le16 (u16 (34 + len nameBytes)) ++ le16 (EncapsVersion item) ++
  SocketAddr item ++ le16 (li_VendorID item) ++ le16 (DeviceType item) ++
  le16 (ProductCode item) ++ Revision item ++ le16 (li_Status item) ++
  le32 (SerialNumber item) ++ [u8 (len nameBytes)] ++ nameBytes ++ [li_State item].
Definition EncodeListIdentityResponse (items : list ListIdentityItem) : bytes :=
  le16 (u16 (len items)) ++ flat_map encode_identity items.

(** [copy(nameFixed[:], item.Name)] into 16 zero bytes. *)
Definition nameFixed (name : bytes) : bytes :=
  take 16 name ++ replicate (16 - length name) 0.
Definition encode_services (item : ListServicesItem) : bytes :=
  le16 (ls_TypeID item) ++ le16 20 ++ le16 (ls_Version item) ++ le16 (CapabilityFlags item) ++
  nameFixed (ls_Name item).
Definition EncodeListServicesResponse (items : list ListServicesItem) : bytes :=
  le16 (u16 (len items)) ++ flat_map encode_services items.

(** [bytes.TrimRight(b, "\x00")] *)
Fixpoint trim_left (b : bytes) : bytes :=
  match b with x :: b' => if x =? 0 then trim_left b' else b | [] => [] end.
Definition trim_right (b : bytes) : bytes := reverse (trim_left (reverse b)).

Definition DecodeListServicesItem (r : bytes) : outcome (ListServicesItem * bytes) :=
  '(typeID, r) ← read_le16 r;
  '(length, r) ← read_le16 r;
  '(version, r) ← read_le16 r;
  '(flags, r) ← read_le16 r;
  '(nameBytes, r) ← read_full 16 r;
  Ok (mkServices typeID length version flags (trim_right nameBytes), r).
Fixpoint decode_services (n : nat) (r : bytes) : outcome (list ListServicesItem) :=
  match n with
  | O => Ok []
  | S n => '(item, r) ← DecodeListServicesItem r; items ← decode_services n r;
           Ok (item :: items)
  end.
Definition DecodeListServicesResponse (data : bytes) : outcome (list ListServicesItem) :=
  '(count, r) ← read_le16 data; decode_services (Z.to_nat count) r.

(** The fields after the type and the length of a CIP identity item. *)
Definition decode_identity (typeID length : Z) (r : bytes)
  : outcome (ListIdentityItem * bytes) :=
  '(version, r) ← read_le16 r;
  '(addr, r) ← read_full 16 r;
  '(vendor, r) ← read_le16 r;
  '(device, r) ← read_le16 r;
  '(product, r) ← read_le16 r;
  '(revision, r) ← read_full 2 r;
  '(status, r) ← read_le16 r;
  '(serial, r) ← read_le32 r;
  '(nameLen, r) ← read_u8 r;
  '(name, r) ← read_full (Z.to_nat nameLen) r;
  '(state, r) ← read_u8 r;
  Ok (mkIdentity typeID length version addr vendor device product revision status serial
        name state, r).
Fixpoint decode_identities (n : nat) (r : bytes) : outcome (list ListIdentityItem) :=
  match n with
  | O => Ok []
  | S n =>
      '(typeID, r) ← read_le16 r;
      '(length, r) ← read_le16 r;
      if typeID =? ItemIDListIdentity then
        '(item, r) ← decode_identity typeID length r;
        items ← decode_identities n r; Ok (item :: items)
      else
        '(_, r) ← read_full (Z.to_nat length) r; decode_identities n r
  end.
Definition DecodeListIdentityResponse (data : bytes) : outcome (list ListIdentityItem) :=
  '(count, r) ← read_le16 data; decode_identities (Z.to_nat count) r.

(** ** Lemmas: every decoder undoes its encoder *)

(** Run the reads of a decoder on the bytes of its encoder. *)
Ltac run_reads :=
  repeat first
    [ rewrite read_le16_le16 by (first [assumption | auto with go])
    | rewrite read_le32_le32 by (first [assumption | auto with go])
    | rewrite read_full_app by (first [assumption | done])
    | progress go_bind ].

Lemma Encap_Decode_Encode h r : encap_ok h -> Encap_Decode (Encap_Encode h ++ r) = Ok h.
Proof.
  intros (H1 & H2 & H3 & H4 & H5 & H6). unfold Encap_Decode, Encap_Encode.
  rewrite <-!app_assoc. run_reads. by destruct h.
Qed.
Lemma length_Encap_Encode h :
  length (eh_SenderContext h) = 8%nat -> length (Encap_Encode h) = 24%nat.
Proof. intros Hc. unfold Encap_Encode. rewrite !length_app, Hc. done. Qed.

Definition item_ok (i : CPFItem) : Prop :=
  is_u16 (it_TypeID i) /\ it_Length i = len (it_Data i) /\ len (it_Data i) < 65536.
Definition cpf_ok (c : CommonPacketFormat) : Prop :=
  ItemCount c = len (Items c) /\ len (Items c) < 65536 /\ Forall item_ok (Items c).

Lemma NewCPFItem_ok typeID data : is_u16 typeID -> len data < 65536 -> item_ok (NewCPFItem typeID data).
Proof.
  intros Ht Hd. split; [done|]. split; [|done]. cbn. apply u16_small.
  pose proof (len_nonneg data). width_lia.
Qed.
Lemma NewCPF_ok items :
  len items < 65536 -> Forall item_ok items -> cpf_ok (NewCommonPacketFormat items).
Proof.
  intros Hl Hi. split; [|done]. cbn. apply u16_small.
  pose proof (len_nonneg items). width_lia.
Qed.

Lemma decode_item_encode i r : item_ok i -> decode_item (CPFItem_Encode i ++ r) = Ok (i, r).
Proof.
  intros (Ht & Hl & Hd). pose proof (len_nonneg (it_Data i)) as H0.
  assert (is_u16 (it_Length i)) by (rewrite Hl; width_lia).
  unfold decode_item, CPFItem_Encode. rewrite <-!app_assoc. run_reads.
  destruct i as [ty l d]; simpl in *; subst l. destruct (0 <? len d) eqn:E.
  - rewrite read_full_app by width_lia. done.
  - assert (d = []) as -> by (destruct d; [done|]; revert E; rewrite len_cons;
      pose proof (len_nonneg d); lia).
    done.
Qed.

Lemma decode_items_encode items r :
  Forall item_ok items -> decode_items (length items) (flat_map CPFItem_Encode items ++ r) = Ok items.
Proof.
  induction 1 as [|i items Hi _ IH]; [done|]. cbn [length decode_items flat_map].
  rewrite <-app_assoc, decode_item_encode by done. go_bind. unfold mbind, outcome_bind in IH.
  by rewrite IH.
Qed.

Lemma CPFItem_Encode_min i : 4 <= len (CPFItem_Encode i).
Proof.
  unfold CPFItem_Encode. lens.
  pose proof (len_nonneg (if 0 <? it_Length i then it_Data i else [])). lia.
Qed.
Lemma items_min items : 4 * len items <= len (flat_map CPFItem_Encode items).
Proof.
  induction items as [|i items IH]; [done|]. cbn [flat_map]. lens.
  pose proof (CPFItem_Encode_min i). lia.
Qed.

Lemma cpf_decode_encode c r :
  cpf_ok c -> DecodeCommonPacketFormat (CPF_Encode c ++ r) = Ok c.
Proof.
  intros (Hc & Hl & Hi). pose proof (len_nonneg (Items c)).
  unfold DecodeCommonPacketFormat, CPF_Encode.
  rewrite <-app_assoc. rewrite read_le16_le16 by (rewrite Hc; width_lia). go_bind.
  pose proof (items_min (Items c)). pose proof (len_nonneg r).
  replace (_ <? _) with false by (symmetry; lens; lia).
  replace (Z.to_nat (ItemCount c)) with (length (Items c)) by width_lia.
  rewrite decode_items_encode by done. by destruct c.
Qed.

(** An identity item in the form the decoder produces: the length field is the
    length of what follows, the name fits its 32 characters. *)
Definition identity_ok (item : ListIdentityItem) : Prop :=
  li_TypeID item = ItemIDListIdentity /\ li_Length item = 34 + len (ProductName item) /\
  is_u16 (EncapsVersion item) /\ length (SocketAddr item) = 16%nat /\
  is_u16 (li_VendorID item) /\ is_u16 (DeviceType item) /\ is_u16 (ProductCode item) /\
  length (Revision item) = 2%nat /\ is_u16 (li_Status item) /\ is_u32 (SerialNumber item) /\
  (length (ProductName item) <= 32)%nat.
Definition services_ok (item : ListServicesItem) : Prop :=
  is_u16 (ls_TypeID item) /\ ls_Length item = 20 /\ is_u16 (ls_Version item) /\
  is_u16 (CapabilityFlags item) /\ (length (ls_Name item) <= 16)%nat /\
  last (ls_Name item) <> Some 0.

#[export] Instance identity_ok_dec item : Decision (identity_ok item).
Proof. unfold identity_ok. apply _. Defined.
#[export] Instance services_ok_dec item : Decision (services_ok item).
Proof. unfold services_ok. apply _. Defined.

Lemma decode_identity_encode item r :
  identity_ok item ->
  exists rest, encode_identity item ++ r =
    le16 (li_TypeID item) ++ le16 (li_Length item) ++ rest /\
    is_u16 (li_Length item) /\
    decode_identity (li_TypeID item) (li_Length item) rest = Ok (item, r).
Proof.
  intros (Ht & Hl & H1 & H2 & H3 & H4 & H5 & H6 & H7 & H8 & H9). unfold encode_identity.
  rewrite take_ge by lia. rewrite (u16_small (34 + _)), <-Hl by width_lia.
  rewrite <-!app_assoc. eexists. split; [done|]. split; [rewrite Hl; width_lia|].
  unfold decode_identity. run_reads. cbn [app]. rewrite read_u8_cons. go_bind.
  assert (is_u8 (len (ProductName item))) by width_lia.
  rewrite read_full_app by (rewrite u8_small by done; width_lia). go_bind.
  rewrite read_u8_cons. go_bind. by destruct item.
Qed.

Lemma decode_identities_encode items r :
  Forall identity_ok items ->
  decode_identities (length items) (flat_map encode_identity items ++ r) = Ok items.
Proof.
  induction 1 as [|i items Hi _ IH]; [done|]. cbn [length flat_map].
  rewrite <-app_assoc.
  destruct (decode_identity_encode i (flat_map encode_identity items ++ r) Hi)
    as (rest & -> & Hl & Hd).
  destruct Hi as [Ht _]. cbn [decode_identities]. rewrite read_le16_le16 by (by rewrite Ht).
  go_bind. rewrite read_le16_le16 by done. go_bind. rewrite Ht, Z.eqb_refl. rewrite Ht in Hd.
  rewrite Hd. unfold mbind, outcome_bind in IH. by rewrite IH.
Qed.

Lemma trim_left_zeros n b : trim_left (replicate n 0 ++ b) = trim_left b.
Proof. induction n; [done|]. simpl. done. Qed.
Lemma trim_right_pad b n : last b <> Some 0 -> trim_right (b ++ replicate n 0) = b.
Proof.
  intros Hb. unfold trim_right. rewrite reverse_app, reverse_replicate, trim_left_zeros.
  destruct b as [|x b _] using rev_ind; [done|]. rewrite last_snoc in Hb.
  rewrite reverse_app. simpl. destruct (Z.eqb_spec x 0) as [->|]; [done|].
  change (x :: reverse b) with (reverse [x] ++ reverse b).
  by rewrite <-reverse_app, reverse_involutive.
Qed.

Lemma decode_services_encode items r :
  Forall services_ok items ->
  decode_services (length items) (flat_map encode_services items ++ r) = Ok items.
Proof.
  induction 1 as [|i items (H1 & H2 & H3 & H4 & H5 & H6) _ IH]; [done|].
  cbn [length flat_map decode_services]. unfold DecodeListServicesItem, encode_services at 1.
  rewrite <-!app_assoc. run_reads. rewrite read_le16_le16 by (widths; lia). run_reads.
  unfold nameFixed. rewrite take_ge by lia.
  rewrite read_full_app by (rewrite length_app, length_replicate; lia). go_bind.
  rewrite trim_right_pad by done. unfold mbind, outcome_bind in IH. rewrite IH.
  rewrite <-H2. by destruct i.
Qed.

Lemma read_count {A} (items : list A) r :
  len items < 65536 -> read_le16 (le16 (u16 (len items)) ++ r) = Ok (len items, r).
Proof.
  intros Hl. pose proof (len_nonneg items). rewrite u16_small by width_lia.
  apply read_le16_le16. width_lia.
Qed.

(** Discovery round trip.  What a server puts in a ListIdentity or a
    ListServices reply, the client's decoders read back unchanged: every item
    with its length field equal to the size of its payload, names of up to 32
    and 16 characters, and any number of items that fits the count field. *)
Theorem discovery_roundtrip ids svcs :
  len ids < 65536 -> Forall identity_ok ids -> len svcs < 65536 -> Forall services_ok svcs ->
  DecodeListIdentityResponse (EncodeListIdentityResponse ids) = Ok ids /\
  DecodeListServicesResponse (EncodeListServicesResponse svcs) = Ok svcs.
Proof.
  intros Hi Hids Hs Hsvcs. split.
  - unfold DecodeListIdentityResponse, EncodeListIdentityResponse.
    rewrite read_count by done. go_bind. rewrite <-(app_nil_r (flat_map _ _)).
    replace (Z.to_nat (len ids)) with (length ids) by width_lia.
    by apply decode_identities_encode.
  - unfold DecodeListServicesResponse, EncodeListServicesResponse.
    rewrite read_count by done. go_bind. rewrite <-(app_nil_r (flat_map _ _)).
    replace (Z.to_nat (len svcs)) with (length svcs) by width_lia.
    by apply decode_services_encode.
Qed.

(** The identity of a device with a product name, and the service the server lists. *)
Definition demo_identity : ListIdentityItem :=
  mkIdentity ItemIDListIdentity 57 1 (replicate 16 0) 1 12 3 [1; 2] 0 0x01020304
    (str "GoIndustrial EIP Server") 3.
Definition demo_service : ListServicesItem :=
  mkServices ItemIDListServices 20 1 0x0020 (str "Communications").

Lemma discovery_roundtrip_witness :
  DecodeListIdentityResponse (EncodeListIdentityResponse [demo_identity]) = Ok [demo_identity] /\
  DecodeListServicesResponse (EncodeListServicesResponse [demo_service]) = Ok [demo_service].
Proof. apply discovery_roundtrip; decided. Defined.
