(* ===== verification/Cip.v ===== *)
(** * CIP paths, messages and the message router

    Models [protocol/ethernetip/cip]: EPATH construction ([path.go]), message
    router requests and responses ([message.go]), the request constructors of
    [services.go] and the router's dispatch ([router.go]).  The objects behind a
    router act on a state [W] of their own; the router's read-locked map lookups
    are lookups. *)
From S2P Require Import Prelude Bytes.

(** ** Codes (types.go, services.go) *)
Module Svc.
Definition GetAttributeAll : Z := 0x01.
Definition GetAttributeSingle : Z := 0x0E.
Definition SetAttributeSingle : Z := 0x10.
Definition ReadTag : Z := 0x4C.
Definition WriteTag : Z := 0x4D.
Definition ExecutePCCC : Z := 0x4B.
End Svc.

Module Status.
Definition Success : Z := 0x00.
Definition ConnectionFailure : Z := 0x01.
Definition PathSegmentError : Z := 0x04.
Definition PathDestinationUnknown : Z := 0x05.
Definition ServiceNotSupported : Z := 0x08.
Definition InvalidAttributeValue : Z := 0x09.
Definition NotEnoughData : Z := 0x13.
Definition AttributeNotSupported : Z := 0x14.
Definition ObjectDoesNotExist : Z := 0x16.
End Status.

Definition ClassAssembly : Z := 0x04.
Definition ClassConnectionMgr : Z := 0x06.
Definition ClassPCCC : Z := 0x67.

(** ** Paths (path.go) *)
Definition SegmentTypeLogical : Z := 0x20.
Definition LogicalTypeClass : Z := 0x00.
Definition LogicalTypeInstance : Z := 0x04.
Definition LogicalTypeMember : Z := 0x08.
Definition LogicalTypePoint : Z := 0x0C.
Definition LogicalTypeAttribute : Z := 0x10.
Definition LogicalFormat8Bit : Z := 0x00.
Definition LogicalFormat16Bit : Z := 0x01.
Definition LogicalFormat32Bit : Z := 0x02.

(** The segment the six logical [Add] methods append: the 8-bit form for values
    up to 255, otherwise a pad byte and the 16-bit form. *)
Definition logical_segment (logicalType id : Z) : bytes :=
  if id <=? 0xFF
  then [Z.lor (Z.lor SegmentTypeLogical logicalType) LogicalFormat8Bit; u8 id]
  else [Z.lor (Z.lor SegmentTypeLogical logicalType) LogicalFormat16Bit; 0] ++ le16 id.

Definition AddClass (p : bytes) (classID : Z) : bytes :=
  p ++ logical_segment LogicalTypeClass classID.
Definition AddInstance (p : bytes) (instanceID : Z) : bytes :=
  p ++ logical_segment LogicalTypeInstance instanceID.
Definition AddInstance32 (p : bytes) (instanceID : Z) : bytes :=
  if instanceID <=? 0xFFFF then p ++ logical_segment LogicalTypeInstance instanceID
  else p ++ [Z.lor (Z.lor SegmentTypeLogical LogicalTypeInstance) LogicalFormat32Bit; 0] ++
       le32 instanceID.
Definition AddAttribute (p : bytes) (attributeID : Z) : bytes :=
  p ++ logical_segment LogicalTypeAttribute attributeID.
Definition AddConnectionPoint (p : bytes) (pointID : Z) : bytes :=
  p ++ logical_segment LogicalTypePoint pointID.
Definition AddMember (p : bytes) (memberID : Z) : bytes :=
  p ++ logical_segment LogicalTypeMember memberID.

Definition AddSymbolicSegment (p : bytes) (symbol : bytes) : bytes :=
  let l := len symbol in
  p ++ [0x91; u8 l] ++ symbol ++ (if negb (l mod 2 =? 0) then [0] else []).

Definition AddPortSegment (p : bytes) (port : Z) (linkAddress : bytes) : bytes :=
  let b := if port <? 15 then u8 port else 0x0F in
  let b := if 1 <? len linkAddress then Z.lor b 0x10 else b in
  let seg :=
    [b] ++ (if 15 <=? port then le16 port else []) ++
    (if 1 <? len linkAddress then [u8 (len linkAddress)] else []) ++ linkAddress in
  p ++ seg ++ (if negb (len seg mod 2 =? 0) then [0] else []).

Definition LenWords (p : bytes) : Z := u8 ((len p + 1) / 2).

Definition BuildPath (classID instanceID attributeID : Z) : bytes :=
  let p := AddInstance (AddClass [] classID) instanceID in
  if negb (attributeID =? 0) then AddAttribute p attributeID else p.

(** An identifier segment: the 8-bit form is introduced by [seg8], the 16-bit
    form by [seg8 + 1]; [None] when the path starts with neither. *)
Definition id_segment (seg8 : Z) (p : bytes) : outcome (option (Z * bytes)) :=
  segType ← go_index p 0;
  if segType =? seg8 then
    if len p <? 2 then Err (CipErr Status.PathSegmentError []) else
    id ← go_index p 1; rest ← go_slice p 2 (len p); Ok (Some (id, rest))
  else if segType =? seg8 + 1 then
    if len p <? 4 then Err (CipErr Status.PathSegmentError []) else
    idBytes ← go_slice p 2 4; id ← get_le16 idBytes; rest ← go_slice p 4 (len p);
    Ok (Some (id, rest))
  else Ok None.

(** ** Messages (message.go) *)
Record MessageRouterRequest : Type := mkMRReq {
  mq_Service : Z; RequestPath : bytes; RequestData : bytes
}.

Definition MRReq_Encode (r : MessageRouterRequest) : bytes :=
  [mq_Service r] ++ [LenWords (RequestPath r)] ++ RequestPath r ++ RequestData r.

(** [bytes.Reader.Read] into a fresh buffer of [n] bytes: an exhausted reader
    gives [io.EOF] even for an empty buffer; a short read fills the front of the
    buffer and is no error. *)
Definition reader_Read (n : nat) (r : bytes) : outcome (bytes * bytes) :=
  match r with
  | [] => Err EOF
  | _ => Ok (take n r ++ replicate (n - length r) 0, drop n r)
  end.

Definition DecodeMessageRouterRequest (data : bytes) : outcome MessageRouterRequest :=
  '(service, r) ← read_u8 data;
  '(pathSizeWords, r) ← read_u8 r;
  '(pathBytes, r) ← reader_Read (Z.to_nat (pathSizeWords * 2)) r;
  Ok (mkMRReq service pathBytes r).

Record MessageRouterResponse : Type := mkMRResp {
  mr_Service : Z;
  mr_Reserved : Z;
  GeneralStatus : Z;
  ExtStatusSize : Z;
  mr_ExtStatus : list Z;
  ResponseData : bytes
}.

Definition MRResp_Encode (r : MessageRouterResponse) : bytes :=
  [mr_Service r; mr_Reserved r; GeneralStatus r; ExtStatusSize r] ++
  flat_map le16 (mr_ExtStatus r) ++ ResponseData r.

Fixpoint read_words (n : nat) (r : bytes) : outcome (list Z * bytes) :=
  match n with
  | O => Ok ([], r)
  | S n => '(w, r) ← read_le16 r; '(ws, r) ← read_words n r; Ok (w :: ws, r)
  end.

Definition DecodeMessageRouterResponse (data : bytes) : outcome MessageRouterResponse :=
  '(service, r) ← read_u8 data;
  '(reserved, r) ← read_u8 r;
  '(status, r) ← read_u8 r;
  '(size, r) ← read_u8 r;
  '(ext, r) ← read_words (Z.to_nat size) r;
  Ok (mkMRResp service reserved status size ext r).

Definition IsSuccess (r : MessageRouterResponse) : bool := GeneralStatus r =? Status.Success.
Definition MRResp_Error (r : MessageRouterResponse) : option error :=
  if IsSuccess r then None else Some (CipErr (GeneralStatus r) (mr_ExtStatus r)).

(** ** Request constructors (services.go) *)
Definition NewGetAttributeSingleRequest (path : bytes) : MessageRouterRequest :=
  mkMRReq Svc.GetAttributeSingle path [].
Definition NewSetAttributeSingleRequest (path data : bytes) : MessageRouterRequest :=
  mkMRReq Svc.SetAttributeSingle path data.
Definition NewExecutePCCCRequest (vendorID serialNumber : Z) (pcccCmd : bytes)
  : MessageRouterRequest :=
  mkMRReq Svc.ExecutePCCC (BuildPath ClassPCCC 1 0)
    ([0x07] ++ le16 vendorID ++ le32 serialNumber ++ pcccCmd).
Definition NewReadTagRequest (tagPath : bytes) (elements : Z) : MessageRouterRequest :=
  mkMRReq Svc.ReadTag tagPath (le16 elements).
Definition NewWriteTagRequest (tagPath : bytes) (dataType elements : Z) (data : bytes)
  : MessageRouterRequest :=
  mkMRReq Svc.WriteTag tagPath (le16 dataType ++ le16 elements ++ data).

(** ** The router (router.go) *)

(** The [Object] interface: [HandleRequest(service, path, data)]. *)
Definition Object (W : Type) : Type := Z -> bytes -> bytes -> SM W bytes.

Record MessageRouter (W : Type) : Type := mkRouter {
  objects : gmap Z (Object W);
  symbolicHandler : option (Object W)
}.
Arguments mkRouter {W}.
Arguments objects {W}.
Arguments symbolicHandler {W}.

Section Router.
Context {W : Type}.

Definition NewMessageRouter : MessageRouter W := mkRouter ∅ None.
Definition RegisterObject (classID : Z) (obj : Object W) (mr : MessageRouter W)
  : MessageRouter W := mkRouter (<[classID := obj]> (objects mr)) (symbolicHandler mr).
Definition RegisterSymbolicHandler (obj : Object W) (mr : MessageRouter W)
  : MessageRouter W := mkRouter (objects mr) (Some obj).

(** The response to what an object's [HandleRequest] returned. *)
Definition respond (service : Z) (result : outcome bytes) : outcome MessageRouterResponse :=
  match result with
  | Ok respData => Ok (mkMRResp (Z.lor service 0x80) 0 Status.Success 0 [] respData)
  | Err (CipErr status ext) =>
      Ok (mkMRResp (Z.lor service 0x80) 0 status (u8 (len ext)) ext [])
  | Err _ => Ok (mkMRResp (Z.lor service 0x80) 0 Status.ServiceNotSupported 0 [] [])
  | Panic => Panic
  end.

Definition call (obj : Object W) (service : Z) (path data : bytes) : SM W MessageRouterResponse :=
  fun w => let '(r, w) := obj service path data w in (respond service r, w).

(** The class a path starts with and the rest of the path. *)
Definition class_segment (pathBytes : bytes) : outcome (Z * bytes) :=
  segment ← id_segment 0x20 pathBytes;
  match segment with
  | Some (classID, remainingPath) => Ok (classID, remainingPath)
  | None => Err (CipErr Status.PathSegmentError [])
  end.

Definition Dispatch (mr : MessageRouter W) (req : MessageRouterRequest)
  : SM W MessageRouterResponse :=
  let pathBytes := RequestPath req in
  if len pathBytes =? 0 then pure (Err (CipErr Status.PathSegmentError [])) else
  b ← pure (go_index pathBytes 0);
  if b =? 0x91 then
    match symbolicHandler mr with
    | None => pure (Err (CipErr Status.PathSegmentError []))
    | Some handler => call handler (mq_Service req) pathBytes (RequestData req)
    end
  else
    '(classID, remainingPath) ← pure (class_segment pathBytes);
    match objects mr !! classID with
    | None =>
        mret (mkMRResp (Z.lor (mq_Service req) 0x80) 0 Status.ObjectDoesNotExist 0 [] [])
    | Some obj => call obj (mq_Service req) remainingPath (RequestData req)
    end.
End Router.

(** ** Lemmas: paths *)
Definition path_ok (p : bytes) : Prop :=
  bytes_ok p /\ len p mod 2 = 0 /\ 0 < len p <= 510.

#[export] Instance path_ok_dec p : Decision (path_ok p).
Proof. unfold path_ok. apply _. Defined.

Lemma logical_segment_ok ty id :
  is_u8 ty -> bytes_ok (logical_segment ty id) /\
  (len (logical_segment ty id) = 2 \/ len (logical_segment ty id) = 4).
Proof.
  intros Ht. unfold logical_segment. case_match; (split; [|lens; lia]).
  - apply Forall_cons; split; [by repeat apply lor_is_u8|].
    apply Forall_cons; split; [apply u8_range|constructor].
  - apply Forall_app; split; [|auto with go].
    apply Forall_cons; split; [by repeat apply lor_is_u8|by repeat constructor].
Qed.

Lemma BuildPath_shape c i a :
  BuildPath c i a = logical_segment LogicalTypeClass c ++ logical_segment LogicalTypeInstance i ++
    (if negb (a =? 0) then logical_segment LogicalTypeAttribute a else []).
Proof.
  unfold BuildPath, AddAttribute, AddInstance, AddClass. case_match; rewrite <-!app_assoc; [done|].
  by rewrite app_nil_r.
Qed.

Lemma BuildPath_ok c i a : path_ok (BuildPath c i a).
Proof.
  rewrite BuildPath_shape.
  destruct (logical_segment_ok LogicalTypeClass c) as [Hc Lc]; [done|].
  destruct (logical_segment_ok LogicalTypeInstance i) as [Hi Li]; [done|].
  destruct (logical_segment_ok LogicalTypeAttribute a) as [Ha La]; [done|].
  split; [repeat (apply Forall_app; split; [done|]); by case_match|].
  case_match; lens; destruct Lc as [-> | ->], Li as [-> | ->]; [..|done|done|done|done];
    by destruct La as [-> | ->].
Qed.

(** A symbolic segment keeps a path a whole number of words. *)
Lemma AddSymbolicSegment_ok s :
  bytes_ok s -> len s <= 255 -> path_ok (AddSymbolicSegment [] s).
Proof.
  intros Hs Hl. unfold AddSymbolicSegment. pose proof (len_nonneg s).
  rewrite app_nil_l. split; [|split].
  - apply Forall_app; split.
    { apply Forall_cons; split; [done|]. apply Forall_cons; split; [apply u8_range|constructor]. }
    apply Forall_app; split; [done|]. case_match; by repeat constructor.
  - lens. destruct (Z.eqb_spec (len s mod 2) 0) as [E|E]; simpl; lens; dlia.
  - lens. destruct (len s mod 2 =? 0); simpl; lens; lia.
Qed.

(** An identifier segment read back, for the class, instance and attribute forms. *)
Lemma id_segment_logical ty id rest :
  is_u16 id -> ty ∈ [LogicalTypeClass; LogicalTypeInstance; LogicalTypeAttribute] ->
  id_segment (Z.lor SegmentTypeLogical ty) (logical_segment ty id ++ rest) = Ok (Some (id, rest)).
Proof.
  intros Hid Hty. pose proof (len_nonneg rest). unfold logical_segment, id_segment.
  assert (Z.lor (Z.lor SegmentTypeLogical ty) LogicalFormat8Bit = Z.lor SegmentTypeLogical ty /\
          Z.lor (Z.lor SegmentTypeLogical ty) LogicalFormat16Bit =
            Z.lor SegmentTypeLogical ty + 1) as [E8 E16].
  { repeat (apply elem_of_cons in Hty as [->|Hty]; [done|]). by apply elem_of_nil in Hty. }
  rewrite E8, E16. destruct (id <=? 0xFF) eqn:E.
  - cbn [app]. rewrite u8_small by width_lia. change (go_index (?x :: _) 0) with (Ok x). go_bind.
    rewrite Z.eqb_refl. replace (_ <? _) with false by (symmetry; lens; lia).
    change (go_index (_ :: id :: _) 1) with (Ok id). go_bind.
    rewrite <-(app_nil_r rest) at 1 2.
    change (?a :: ?b :: rest ++ []) with ([a; b] ++ rest ++ []).
    by rewrite go_slice_mid by (lens; lia).
  - rewrite <-app_assoc. cbn [app]. change (go_index (?x :: _) 0) with (Ok x). go_bind.
    replace (_ =? _) with false by (symmetry; lia). rewrite Z.eqb_refl.
    replace (_ <? _) with false by (symmetry; lens; lia).
    change (?a :: ?b :: le16 id ++ rest) with ([a; b] ++ le16 id ++ rest).
    rewrite go_slice_mid by (lens; lia). go_bind.
    rewrite <-(app_nil_r (le16 id)) at 1. rewrite get_le16_le16 by done. go_bind.
    rewrite app_assoc. rewrite <-(app_nil_r rest) at 1.
    by rewrite go_slice_mid by (lens; lia).
Qed.

(** On a non-empty path, reading an identifier segment never panics. *)
Lemma id_segment_cases seg8 p :
  0 < len p -> (exists s, id_segment seg8 p = Ok s) \/
               id_segment seg8 p = Err (CipErr Status.PathSegmentError []).
Proof.
  intros Hp. unfold id_segment. destruct p as [|b p]; [done|].
  change (go_index (b :: p) 0) with (Ok b). go_bind.
  destruct (b =? seg8); [|destruct (b =? seg8 + 1); [|by eauto]];
    (destruct (_ <? _) eqn:El; [by right|]); left.
  - destruct p as [|x p]; [done|]. change (go_index (b :: x :: p) 1) with (Ok x). go_bind.
    unfold go_slice. rewrite decide_True by (lens; lia). eauto.
  - destruct p as [|x [|y [|z p]]]; [done..|]. unfold go_slice.
    pose proof (len_nonneg p). rewrite !decide_True by (lens; lia). simpl. eauto.
Qed.

(** ** Lemmas: messages *)
Definition mrreq_ok (r : MessageRouterRequest) : Prop :=
  path_ok (RequestPath r) /\ bytes_ok (RequestData r) /\ is_u8 (mq_Service r).

#[export] Instance mrreq_ok_dec r : Decision (mrreq_ok r).
Proof. unfold mrreq_ok. apply _. Defined.

Lemma request_decode_encode r :
  mrreq_ok r -> DecodeMessageRouterRequest (MRReq_Encode r) = Ok r.
Proof.
  intros ((_ & He & Hl) & _ & _). unfold DecodeMessageRouterRequest, MRReq_Encode.
  cbn [app]. rewrite read_u8_cons. go_bind. rewrite read_u8_cons. go_bind.
  assert (LenWords (RequestPath r) * 2 = len (RequestPath r)) as ->.
  { unfold LenWords. rewrite u8_small by (unfold is_u8; dlia). dlia. }
  replace (Z.to_nat _) with (length (RequestPath r)) by width_lia.
  unfold reader_Read. destruct (RequestPath r ++ RequestData r) as [|x l] eqn:E.
  - apply app_eq_nil in E as [E _]. rewrite E in Hl. vm_compute in Hl. by destruct Hl.
  - rewrite <-E, take_app_length, drop_app_length.
    replace (_ - _)%nat with 0%nat by (rewrite length_app; lia). simpl.
    rewrite app_nil_r. by destruct r.
Qed.

Definition mrresp_ok (r : MessageRouterResponse) : Prop :=
  ExtStatusSize r = len (mr_ExtStatus r) /\ len (mr_ExtStatus r) <= 255 /\
  Forall is_u16 (mr_ExtStatus r).

Lemma mrresp_plain s st d : mrresp_ok (mkMRResp s 0 st 0 [] d).
Proof. split; [done|]. split; [done|constructor]. Qed.
#[local] Hint Resolve mrresp_plain : go.

Lemma read_words_encode ws r :
  Forall is_u16 ws -> read_words (length ws) (flat_map le16 ws ++ r) = Ok (ws, r).
Proof.
  induction 1 as [|w ws Hw _ IH]; [done|]. cbn [length read_words flat_map].
  rewrite <-app_assoc, read_le16_le16 by done. go_bind. unfold mbind, outcome_bind in IH.
  by rewrite IH.
Qed.

Lemma response_decode_encode r :
  mrresp_ok r -> DecodeMessageRouterResponse (MRResp_Encode r) = Ok r.
Proof.
  intros (Hs & _ & Hw). unfold DecodeMessageRouterResponse, MRResp_Encode. cbn [app].
  do 4 (rewrite read_u8_cons; go_bind).
  replace (Z.to_nat _) with (length (mr_ExtStatus r)) by (rewrite Hs; width_lia).
  rewrite read_words_encode by done. go_bind. by destruct r.
Qed.

Lemma len_MRReq_Encode r : len (MRReq_Encode r) = 2 + len (RequestPath r) + len (RequestData r).
Proof. unfold MRReq_Encode. lens. lia. Qed.
#[export] Hint Rewrite len_MRReq_Encode : golen.

(** ** Lemmas: dispatch *)

(** Objects that never panic, and whose errors carry at most 255 words of
    extended status. *)
Definition ext_ok (r : outcome bytes) : Prop :=
  match r with
  | Err (CipErr _ ext) => len ext <= 255 /\ Forall is_u16 ext
  | Panic => False
  | _ => True
  end.
Definition object_safe {W} (inv : W -> Prop) (obj : Object W) : Prop :=
  forall service path data w, inv w ->
    ext_ok (obj service path data w).1 /\ inv (obj service path data w).2.
Definition router_safe {W} (inv : W -> Prop) (mr : MessageRouter W) : Prop :=
  map_Forall (fun _ obj => object_safe inv obj) (objects mr) /\
  forall obj, symbolicHandler mr = Some obj -> object_safe inv obj.

Section DispatchLemmas.
Context {W : Type} (inv : W -> Prop) (mr : MessageRouter W).
Hypothesis Hmr : router_safe inv mr.

Lemma respond_ok service r : ext_ok r -> exists m, respond service r = Ok m /\ mrresp_ok m.
Proof.
  destruct r as [d|e|]; [|destruct e|done]; simpl; try (by eauto with go).
  intros [Hl Hu]. eexists. split; [done|]. pose proof (len_nonneg ExtStatus).
  split; [simpl; apply u8_small; width_lia|done].
Qed.

Lemma call_ok obj service path data w :
  object_safe inv obj -> inv w ->
  exists m, (call obj service path data w).1 = Ok m /\ mrresp_ok m /\
            inv (call obj service path data w).2.
Proof.
  intros Ho Hw. unfold call. destruct (Ho service path data w Hw) as [He Hi].
  destruct (obj service path data w) as [r w']. destruct (respond_ok service r He) as (m & -> & Hm).
  by exists m.
Qed.

Lemma class_segment_cases p :
  0 < len p -> (exists c rest, class_segment p = Ok (c, rest)) \/
               class_segment p = Err (CipErr Status.PathSegmentError []).
Proof.
  intros Hp. unfold class_segment.
  destruct (id_segment_cases 0x20 p Hp) as [[[[c rest]|] ->]| ->]; go_bind; eauto.
Qed.

(** Dispatch answers every request: with a well-formed response, or with the
    path error, the objects' state then unchanged. *)
Lemma Dispatch_total req w :
  inv w ->
  (exists m, (Dispatch mr req w).1 = Ok m /\ mrresp_ok m /\ inv (Dispatch mr req w).2) \/
  Dispatch mr req w = (Err (CipErr Status.PathSegmentError []), w).
Proof.
  intros Hw. destruct Hmr as [Ho Hs]. unfold Dispatch, mbind, SM_bind, pure.
  destruct (Z.eqb_spec (len (RequestPath req)) 0); [by right|].
  pose proof (len_nonneg (RequestPath req)).
  destruct (go_index_in (RequestPath req) 0) as (b & _ & ->); [lia|].
  destruct (b =? 0x91).
  - destruct (symbolicHandler mr) as [obj|] eqn:E; [|by right]. left.
    apply call_ok; [by apply Hs|done].
  - destruct (class_segment_cases (RequestPath req)) as [(c & rest & ->)| ->]; [lia| |by right].
    left. destruct (objects mr !! c) as [obj|] eqn:E.
    + apply call_ok; [exact (Ho c obj E)|done].
    + eexists. by split; [done|]; split; [apply mrresp_plain|].
Qed.

(** A path that starts with a class segment reaches that class's object. *)
Lemma Dispatch_class service c rest data obj w :
  is_u16 c -> objects mr !! c = Some obj ->
  Dispatch mr (mkMRReq service (logical_segment LogicalTypeClass c ++ rest) data) w =
  call obj service rest data w.
Proof.
  intros Hc Ho. unfold Dispatch, mbind, SM_bind, pure. cbn [RequestPath mq_Service RequestData].
  destruct (logical_segment_ok LogicalTypeClass c) as [_ Hl]; [done|].
  pose proof (len_nonneg rest).
  replace (_ =? 0) with false by (symmetry; lens; lia).
  unfold class_segment. change 0x20 with (Z.lor SegmentTypeLogical LogicalTypeClass).
  rewrite id_segment_logical by (done || by constructor). go_bind. rewrite Ho. unfold logical_segment. by destruct (c <=? 0xFF).
Qed.
End DispatchLemmas.
