(* ===== verification/CipObjects.v ===== *)
(** * CIP objects: assembly and connection manager

    Models [objects/assembly/assembly.go] and [objects/connmgr].  Each object is
    a state with its operations and a [HandleRequest] for the message router.
    The mutex of each object makes an operation one atomic function.  The
    connection manager's optional callbacks are recorded in a log, in the order
    in which they fire. *)
From S2P Require Import Prelude Bytes Cip.

Module Assembly.

Record AssemblyInstance : Type := mkInstance { ID : Z; as_Data : bytes }.
Record AssemblyObject : Type := mkAssembly { instances : gmap Z AssemblyInstance }.

Definition NewAssemblyObject : AssemblyObject := mkAssembly ∅.
Definition GetInstance (instanceID : Z) (ao : AssemblyObject) : option AssemblyInstance :=
  instances ao !! instanceID.
Definition RegisterAssembly (instanceID : Z) (data : bytes) (ao : AssemblyObject)
  : AssemblyObject :=
  mkAssembly (<[instanceID := mkInstance instanceID data]> (instances ao)).

Definition GetAttributeSingle (instanceID attrID : Z) (ao : AssemblyObject) : outcome bytes :=
  match instances ao !! instanceID with
  | None => Err (CipErr Status.ObjectDoesNotExist [])
  | Some inst =>
      if attrID =? 3 then Ok (as_Data inst) else Err (CipErr Status.AttributeNotSupported [])
  end.

Definition SetAttributeSingle (instanceID attrID : Z) (data : bytes) : SM AssemblyObject unit :=
  fun ao =>
  match instances ao !! instanceID with
  | None => (Err (CipErr Status.ObjectDoesNotExist []), ao)
  | Some inst =>
      if attrID =? 3 then
        if negb (len data =? len (as_Data inst))
        then (Err (CipErr Status.InvalidAttributeValue []), ao)
        else (Ok tt, mkAssembly (<[instanceID := mkInstance (ID inst) data]> (instances ao)))
      else (Err (CipErr Status.AttributeNotSupported []), ao)
  end.

(** The instance and the attribute a path names; attribute 0 when there is none. *)
Definition decode_path (pathBytes : bytes) : outcome (Z * Z) :=
  if len pathBytes =? 0 then Err (CipErr Status.PathSegmentError []) else
  inst ← id_segment 0x24 pathBytes;
  match inst with
  | None => Err (CipErr Status.PathSegmentError [])
  | Some (instanceID, remainingPath) =>
      if len remainingPath =? 0 then Ok (instanceID, 0) else
      attr ← id_segment 0x30 remainingPath;
      Ok (instanceID, match attr with Some (attrID, _) => attrID | None => 0 end)
  end.

Definition HandleRequest : Object AssemblyObject := fun service path data =>
  '(instanceID, attrID) ← pure (decode_path path);
  if service =? Svc.GetAttributeSingle then
    if attrID =? 0 then pure (Err (CipErr Status.PathSegmentError [])) else
    fun ao => (GetAttributeSingle instanceID attrID ao, ao)
  else if service =? Svc.SetAttributeSingle then
    if attrID =? 0 then pure (Err (CipErr Status.PathSegmentError [])) else
    _ ← SetAttributeSingle instanceID attrID data; mret []
  else pure (Err (CipErr Status.ServiceNotSupported [])).

(** ** Lemmas *)

Lemma decode_path_cases p :
  (exists i a, decode_path p = Ok (i, a)) \/
  decode_path p = Err (CipErr Status.PathSegmentError []).
Proof.
  unfold decode_path. destruct (Z.eqb_spec (len p) 0); [by right|].
  pose proof (len_nonneg p).
  destruct (id_segment_cases 0x24 p) as [[[[i rest]|] ->]| ->]; go_bind; [lia| |by right..].
  destruct (Z.eqb_spec (len rest) 0); [eauto|]. pose proof (len_nonneg rest).
  destruct (id_segment_cases 0x30 rest) as [[s ->]| ->]; go_bind; [lia|eauto|by right].
Qed.

(** The path after the class segment of [BuildPath _ i a] names [i] and [a]. *)
Lemma decode_built_path i a :
  is_u16 i -> is_u16 a -> a <> 0 ->
  decode_path (logical_segment LogicalTypeInstance i ++
               logical_segment LogicalTypeAttribute a) = Ok (i, a).
Proof.
  intros Hi Ha Hne. unfold decode_path.
  destruct (logical_segment_ok LogicalTypeInstance i) as [_ Li]; [done|].
  destruct (logical_segment_ok LogicalTypeAttribute a) as [_ La]; [done|].
  replace (_ =? 0) with false by (symmetry; lens; lia).
  change 0x24 with (Z.lor SegmentTypeLogical LogicalTypeInstance).
  rewrite id_segment_logical by (done || by repeat constructor). go_bind.
  replace (_ =? 0) with false by (symmetry; lia).
  change 0x30 with (Z.lor SegmentTypeLogical LogicalTypeAttribute).
  rewrite <-(app_nil_r (logical_segment LogicalTypeAttribute a)).
  by rewrite id_segment_logical by (done || by repeat constructor).
Qed.

(** The sizes fixed at registration. *)
Definition sizes (ao : AssemblyObject) : gmap Z Z :=
  (fun inst => len (as_Data inst)) <$> instances ao.

Lemma Set_cases i a d ao :
  (exists e, SetAttributeSingle i a d ao = (Err (CipErr e []), ao)) \/
  exists inst, instances ao !! i = Some inst /\ a = 3 /\ len d = len (as_Data inst) /\
    SetAttributeSingle i a d ao =
      (Ok tt, mkAssembly (<[i := mkInstance (ID inst) d]> (instances ao))).
Proof.
  unfold SetAttributeSingle. destruct (instances ao !! i) as [inst|] eqn:E; [|by left; eexists].
  destruct (Z.eqb_spec a 3); [|by left; eexists].
  destruct (Z.eqb_spec (len d) (len (as_Data inst))); [|by left; eexists].
  right. by exists inst.
Qed.

Lemma Set_sizes i a d ao : sizes (SetAttributeSingle i a d ao).2 = sizes ao.
Proof.
  destruct (Set_cases i a d ao) as [[e ->]|(inst & Hi & _ & Hl & ->)]; [done|].
  unfold sizes. simpl. rewrite fmap_insert. simpl. rewrite Hl. apply insert_id.
  by rewrite lookup_fmap, Hi.
Qed.

Lemma HandleRequest_safe (P : AssemblyObject -> Prop) :
  (forall i a d ao, P ao -> P (SetAttributeSingle i a d ao).2) -> object_safe P HandleRequest.
Proof.
  intros HP service path data ao Hao. unfold HandleRequest, mbind, SM_bind, pure.
  assert (forall st, ext_ok (Err (CipErr st []))) as He by (intros; split; [done|constructor]).
  destruct (decode_path_cases path) as [(i & a & ->)| ->]; [|done].
  destruct (service =? Svc.GetAttributeSingle).
  { destruct (a =? 0); [done|]. simpl. unfold GetAttributeSingle.
    split; [|done]. repeat case_match; done. }
  destruct (service =? Svc.SetAttributeSingle); [|done]. destruct (a =? 0); [done|].
  specialize (HP i a data ao Hao).
  destruct (Set_cases i a data ao) as [[e E]|(inst & _ & _ & _ & E)]; rewrite E in HP |- *; done.
Qed.

(** Assembly data over CIP.  For a registered instance of the assembly
    object and data of its registered size, Set_Attribute_Single of attribute 3
    along the path [BuildPath] builds stores the data, and every later
    Get_Attribute_Single of it returns that data; the other instances keep
    theirs.  Whatever requests arrive, the registered sizes never change, and a
    request of the wrong size changes nothing. *)
Theorem assembly_set_get ao i inst (data : bytes) :
  is_u16 i -> instances ao !! i = Some inst ->
  let path := logical_segment LogicalTypeInstance i ++ logical_segment LogicalTypeAttribute 3 in
  let '(r, ao') := HandleRequest Svc.SetAttributeSingle path data ao in
  BuildPath ClassAssembly i 3 = logical_segment LogicalTypeClass ClassAssembly ++ path /\
  sizes ao' = sizes ao /\
  (len data = len (as_Data inst) ->
     r = Ok [] /\ HandleRequest Svc.GetAttributeSingle path [] ao' = (Ok data, ao')) /\
  (len data <> len (as_Data inst) ->
     r = Err (CipErr Status.InvalidAttributeValue []) /\ ao' = ao) /\
  forall j, j <> i -> GetInstance j ao' = GetInstance j ao.
Proof.
  intros Hi Hin path. unfold path, HandleRequest, mbind, SM_bind, pure.
  rewrite decode_built_path by (done || width_lia). cbn -[SetAttributeSingle BuildPath Z.mul].
  pose proof (Set_sizes i 3 data ao) as Hs.
  unfold SetAttributeSingle in *. rewrite Hin in *. change (3 =? 3) with true in *.
  rewrite BuildPath_shape. destruct (Z.eqb_spec (len data) (len (as_Data inst))) as [El|El]; simpl in *.
  - split; [done|]. split; [done|]. split; [|split; [done|]].
    + intros _. split; [done|]. unfold GetAttributeSingle. simpl. by rewrite lookup_insert_eq.
    + intros j Hj. unfold GetInstance. simpl. by rewrite lookup_insert_ne.
  - by repeat split.
Qed.

Lemma assembly_set_get_witness :
  let ao := RegisterAssembly 100 [0; 0] NewAssemblyObject in
  let path := logical_segment LogicalTypeInstance 100 ++ logical_segment LogicalTypeAttribute 3 in
  let '(r, ao') := HandleRequest Svc.SetAttributeSingle path [7; 9] ao in
  r = Ok [] /\ HandleRequest Svc.GetAttributeSingle path [] ao' = (Ok [7; 9], ao').
Proof.
  pose proof (assembly_set_get (RegisterAssembly 100 [0; 0] NewAssemblyObject) 100
    (mkInstance 100 [0; 0]) [7; 9] ltac:(decided) ltac:(reflexivity)) as H. cbv zeta in H |- *.
  destruct (HandleRequest _ _ _ _) as [r ao']. destruct H as (_ & _ & H & _). by apply H.
Defined.
End Assembly.

Module ConnMgr.

Definition ServiceForwardOpen : Z := 0x54.
Definition ServiceForwardClose : Z := 0x4E.
Definition ExtStatusConnectionInUse : Z := 0x0100.

(** ** Requests (types.go); the path size byte is computed by [Encode] *)
Record ForwardOpenRequest : Type := mkOpen {
  fo_PriorityTimeTick : Z;
  fo_TimeoutTicks : Z;
  fo_OTConnectionID : Z;
  fo_TOConnectionID : Z;
  fo_ConnectionSerialNumber : Z;
  fo_VendorID : Z;
  fo_OriginatorSerialNumber : Z;
  ConnectionTimeoutMultiplier : Z;
  fo_Reserved : bytes;
  OTRPI : Z;
  OTNetworkConnectionParams : Z;
  TORPI : Z;
  TONetworkConnectionParams : Z;
  TransportTypeTrigger : Z;
  fo_ConnectionPathSize : Z;
  fo_ConnectionPath : bytes
}.
Record ForwardCloseRequest : Type := mkClose {
  fc_PriorityTimeTick : Z;
  fc_TimeoutTicks : Z;
  fc_ConnectionSerialNumber : Z;
  fc_VendorID : Z;
  fc_OriginatorSerialNumber : Z;
  fc_ConnectionPathSize : Z;
  fc_Reserved : Z;
  fc_ConnectionPath : bytes
}.

Definition Open_Encode (r : ForwardOpenRequest) : bytes :=
  [fo_PriorityTimeTick r] ++ [fo_TimeoutTicks r] ++ le32 (fo_OTConnectionID r) ++
  le32 (fo_TOConnectionID r) ++ le16 (fo_ConnectionSerialNumber r) ++ le16 (fo_VendorID r) ++
  le32 (fo_OriginatorSerialNumber r) ++ [ConnectionTimeoutMultiplier r] ++ fo_Reserved r ++
  le32 (OTRPI r) ++ le16 (OTNetworkConnectionParams r) ++ le32 (TORPI r) ++
  le16 (TONetworkConnectionParams r) ++ [TransportTypeTrigger r] ++
  [u8 (len (fo_ConnectionPath r) / 2)] ++ fo_ConnectionPath r.
Definition Close_Encode (r : ForwardCloseRequest) : bytes :=
  [fc_PriorityTimeTick r] ++ [fc_TimeoutTicks r] ++ le16 (fc_ConnectionSerialNumber r) ++
  le16 (fc_VendorID r) ++ le32 (fc_OriginatorSerialNumber r) ++
  [u8 (len (fc_ConnectionPath r) / 2)] ++ [fc_Reserved r] ++ fc_ConnectionPath r.

Definition ConnectionSizeFromParams (params : Z) : Z := Z.land params 0x01FF.

(** ** State (connmgr.go) *)
Record Connection : Type := mkConnection {
  cn_OTConnectionID : Z;
  cn_TOConnectionID : Z;
  cn_ConnectionSerialNumber : Z;
  cn_VendorID : Z;
  cn_OriginatorSerialNumber : Z
}.
#[export] Instance Connection_EqDecision : EqDecision Connection.
Proof. solve_decision. Defined.

(** What the [onOpen] and [onClose] callbacks observe. *)
Inductive event : Type :=
| Opened (c : Connection) (req : ForwardOpenRequest)
| ClosedConn (c : Connection).

Record ConnectionManager : Type := mkMgr {
  connections : gmap Z Connection;
  nextConnID : Z;
  hooks : list event
}.
Definition NewConnectionManager : ConnectionManager := mkMgr ∅ 0x80000000 [].

(** The triad that identifies a connection. *)
Definition triad (c : Connection) : Z * Z * Z :=
  (cn_ConnectionSerialNumber c, cn_VendorID c, cn_OriginatorSerialNumber c).
Definition has_triad (serial vendor originator : Z) (c : Connection) : bool :=
  (cn_ConnectionSerialNumber c =? serial) && (cn_VendorID c =? vendor) &&
  (cn_OriginatorSerialNumber c =? originator).

(** The connection the loops over the map look for: any one with the triad. *)
Definition find_triad (serial vendor originator : Z) (cm : ConnectionManager)
  : option (Z * Connection) :=
  List.find (fun kc => has_triad serial vendor originator kc.2) (map_to_list (connections cm)).

Definition decode_open (reqData : bytes) : outcome ForwardOpenRequest :=
  '(tick, r) ← read_u8 reqData;
  '(ticks, r) ← read_u8 r;
  '(ot, r) ← read_le32 r;
  '(to, r) ← read_le32 r;
  '(serial, r) ← read_le16 r;
  '(vendor, r) ← read_le16 r;
  '(originator, r) ← read_le32 r;
  '(mult, r) ← read_u8 r;
  '(reserved, r) ← read_full 3 r;
  '(otrpi, r) ← read_le32 r;
  '(otparams, r) ← read_le16 r;
  '(torpi, r) ← read_le32 r;
  '(toparams, r) ← read_le16 r;
  '(trigger, r) ← read_u8 r;
  '(size, r) ← read_u8 r;
  '(path, r) ← reader_Read (Z.to_nat (size * 2)) r;
  Ok (mkOpen tick ticks ot to serial vendor originator mult reserved otrpi otparams torpi
        toparams trigger size path).

Definition decode_close (reqData : bytes) : outcome ForwardCloseRequest :=
  '(tick, r) ← read_u8 reqData;
  '(ticks, r) ← read_u8 r;
  '(serial, r) ← read_le16 r;
  '(vendor, r) ← read_le16 r;
  '(originator, r) ← read_le32 r;
  '(size, r) ← read_u8 r;
  '(reserved, r) ← read_u8 r;
  '(path, r) ← reader_Read (Z.to_nat (size * 2)) r;
  Ok (mkClose tick ticks serial vendor originator size reserved path).

Definition open_reply (req : ForwardOpenRequest) (myConnID : Z) : bytes :=
  le32 (fo_OTConnectionID req) ++ le32 myConnID ++ le16 (fo_ConnectionSerialNumber req) ++
  le16 (fo_VendorID req) ++ le32 (fo_OriginatorSerialNumber req) ++ le32 (OTRPI req) ++
  le32 (TORPI req) ++ [0] ++ [0].
Definition close_reply (req : ForwardCloseRequest) : bytes :=
  le16 (fc_ConnectionSerialNumber req) ++ le16 (fc_VendorID req) ++
  le32 (fc_OriginatorSerialNumber req) ++ [0] ++ [0].

Definition open_connection (req : ForwardOpenRequest) : SM ConnectionManager bytes := fun cm =>
  match find_triad (fo_ConnectionSerialNumber req) (fo_VendorID req)
          (fo_OriginatorSerialNumber req) cm with
  | Some _ => (Err (CipErr Status.ConnectionFailure [ExtStatusConnectionInUse]), cm)
  | None =>
      let myConnID := u32 (nextConnID cm + 1) in
      let conn := mkConnection (fo_OTConnectionID req) myConnID
                    (fo_ConnectionSerialNumber req) (fo_VendorID req)
                    (fo_OriginatorSerialNumber req) in
      (Ok (open_reply req myConnID),
       mkMgr (<[myConnID := conn]> (connections cm)) myConnID (hooks cm ++ [Opened conn req]))
  end.

Definition HandleForwardOpen (reqData : bytes) : SM ConnectionManager bytes :=
  req ← pure (decode_open reqData); open_connection req.

Definition close_connection (req : ForwardCloseRequest) : SM ConnectionManager bytes := fun cm =>
  match find_triad (fc_ConnectionSerialNumber req) (fc_VendorID req)
          (fc_OriginatorSerialNumber req) cm with
  | Some (id, closed) =>
      (Ok (close_reply req),
       mkMgr (delete id (connections cm)) (nextConnID cm) (hooks cm ++ [ClosedConn closed]))
  | None => (Ok (close_reply req), cm)
  end.
Definition HandleForwardClose (reqData : bytes) : SM ConnectionManager bytes :=
  req ← pure (decode_close reqData); close_connection req.

Definition HandleRequest : Object ConnectionManager := fun service path data =>
  if service =? ServiceForwardOpen then HandleForwardOpen data
  else if service =? ServiceForwardClose then HandleForwardClose data
  else pure (Err (CipErr Status.ServiceNotSupported [])).

(** ** Lemmas: decoding *)
Definition open_ok (r : ForwardOpenRequest) : Prop :=
  is_u32 (fo_OTConnectionID r) /\ is_u32 (fo_TOConnectionID r) /\
  is_u16 (fo_ConnectionSerialNumber r) /\ is_u16 (fo_VendorID r) /\
  is_u32 (fo_OriginatorSerialNumber r) /\ length (fo_Reserved r) = 3%nat /\ is_u32 (OTRPI r) /\
  is_u16 (OTNetworkConnectionParams r) /\ is_u32 (TORPI r) /\
  is_u16 (TONetworkConnectionParams r) /\ path_ok (fo_ConnectionPath r) /\
  fo_ConnectionPathSize r = len (fo_ConnectionPath r) / 2.
Definition close_ok (r : ForwardCloseRequest) : Prop :=
  is_u16 (fc_ConnectionSerialNumber r) /\ is_u16 (fc_VendorID r) /\
  is_u32 (fc_OriginatorSerialNumber r) /\ path_ok (fc_ConnectionPath r) /\
  fc_ConnectionPathSize r = len (fc_ConnectionPath r) / 2.

#[export] Instance open_ok_dec r : Decision (open_ok r).
Proof. unfold open_ok. apply _. Defined.
#[export] Instance close_ok_dec r : Decision (close_ok r).
Proof. unfold close_ok. apply _. Defined.

Lemma reader_Read_io n r : io_only (reader_Read n r).
Proof. destruct r; simpl; auto. Qed.
#[local] Hint Resolve reader_Read_io : go.

Lemma read_path p :
  path_ok p ->
  u8 (len p / 2) = len p / 2 /\ reader_Read (Z.to_nat (len p / 2 * 2)) p = Ok (p, []).
Proof.
  intros (_ & He & Hl). split; [apply u8_small; unfold is_u8; dlia|].
  replace (Z.to_nat _) with (length p) by (unfold len in *; dlia).
  unfold reader_Read. destruct p as [|x p]; [by destruct Hl|].
  rewrite take_ge, drop_ge by done. by rewrite Nat.sub_diag, app_nil_r.
Qed.

Ltac run_fields :=
  repeat first
    [ rewrite read_u8_cons
    | rewrite read_le16_le16 by done
    | rewrite read_le32_le32 by done
    | rewrite read_full_app by done
    | progress go_bind
    | progress cbn [app] ].

Lemma decode_open_encode r : open_ok r -> decode_open (Open_Encode r) = Ok r.
Proof.
  intros (H1 & H2 & H3 & H4 & H5 & H6 & H7 & H8 & H9 & H10 & Hp & Hs).
  unfold decode_open, Open_Encode. destruct (read_path _ Hp) as [-> Hr].
  run_fields. rewrite Hr. go_bind. rewrite <-Hs. by destruct r.
Qed.
Lemma decode_close_encode r : close_ok r -> decode_close (Close_Encode r) = Ok r.
Proof.
  intros (H1 & H2 & H3 & Hp & Hs).
  unfold decode_close, Close_Encode. destruct (read_path _ Hp) as [-> Hr].
  run_fields. rewrite Hr. go_bind. rewrite <-Hs. by destruct r.
Qed.
Lemma decode_open_io d : io_only (decode_open d).
Proof. unfold decode_open. reads_io. Qed.
Lemma decode_close_io d : io_only (decode_close d).
Proof. unfold decode_close. reads_io. Qed.

(** ** Lemmas: the table *)
Lemma has_triad_spec s v o c : has_triad s v o c = true <-> triad c = (s, v, o).
Proof.
  unfold has_triad, triad. rewrite !andb_true_iff, !Z.eqb_eq. split; [|by intros [= -> -> ->]].
  by intros [[-> ->] ->].
Qed.
Lemma find_triad_Some s v o cm id c :
  find_triad s v o cm = Some (id, c) -> connections cm !! id = Some c /\ triad c = (s, v, o).
Proof.
  intros [Hi Ht]%find_some. apply list_elem_of_In, elem_of_map_to_list in Hi.
  by apply has_triad_spec in Ht.
Qed.
Lemma find_triad_None s v o cm id c :
  find_triad s v o cm = None -> connections cm !! id = Some c -> triad c <> (s, v, o).
Proof.
  intros Hn Hc Ht. apply elem_of_map_to_list, list_elem_of_In in Hc.
  apply (find_none _ _ Hn) in Hc. apply has_triad_spec in Ht. simpl in Hc. congruence.
Qed.

Lemma find_triad_fresh s v o cm :
  (s, v, o) ∉ map triad (map snd (map_to_list (connections cm))) -> find_triad s v o cm = None.
Proof.
  intros Hf. destruct (find_triad s v o cm) as [[id c]|] eqn:E; [|done].
  apply find_triad_Some in E as [Hc Ht]. destruct Hf. rewrite <-Ht.
  apply list_elem_of_fmap. exists c. split; [done|]. apply list_elem_of_fmap.
  exists (id, c). by rewrite elem_of_map_to_list.
Qed.

Definition opened (log : list event) : list Connection :=
  omap (fun e => match e with Opened c _ => Some c | _ => None end) log.
Definition closed (log : list event) : list Connection :=
  omap (fun e => match e with ClosedConn c => Some c | _ => None end) log.
(** The connections in the table. *)
Definition current (cm : ConnectionManager) : list Connection :=
  map snd (map_to_list (connections cm)).
(** The identifier of the [n]-th connection. *)
Definition conn_id (n : nat) : Z := u32 (0x80000000 + Z.of_nat n).

Record inv (cm : ConnectionManager) : Prop := {
  inv_key : map_Forall (fun k c => cn_TOConnectionID c = k) (connections cm);
  inv_triads : NoDup (map triad (current cm));
  inv_hooks : opened (hooks cm) ≡ₚ closed (hooks cm) ++ current cm;
  inv_ids : cn_TOConnectionID <$> opened (hooks cm) =
            conn_id <$> seq 1 (length (opened (hooks cm)));
  inv_next : nextConnID cm = conn_id (length (opened (hooks cm)))
}.

Lemma new_mgr_inv : inv NewConnectionManager.
Proof. split; try done. constructor. Qed.

Lemma elem_of_current cm c : c ∈ current cm <-> exists k, connections cm !! k = Some c.
Proof.
  unfold current. rewrite list_elem_of_fmap. split.
  - intros ([k c'] & -> & Hk%elem_of_map_to_list). by exists k.
  - intros [k Hk]. exists (k, c). by rewrite elem_of_map_to_list.
Qed.

Lemma conn_id_inj (i j : nat) :
  Z.abs (Z.of_nat i - Z.of_nat j) < 4294967296 -> conn_id i = conn_id j -> i = j.
Proof. unfold conn_id, u32. dlia. Qed.

(** A new identifier is not in the table while fewer than 2^32 were given out. *)
Lemma fresh_id cm :
  inv cm -> Z.of_nat (length (opened (hooks cm))) < 4294967295 ->
  connections cm !! conn_id (S (length (opened (hooks cm)))) = None.
Proof.
  intros I Hn. apply eq_None_not_Some. intros [c Hc].
  assert (c ∈ opened (hooks cm)) as Ho.
  { rewrite (inv_hooks _ I). apply elem_of_app. right. apply elem_of_current. eauto. }
  apply (list_elem_of_fmap_2 cn_TOConnectionID) in Ho. rewrite (inv_ids _ I) in Ho.
  apply list_elem_of_fmap in Ho as (j & Hj & Hin%elem_of_seq).
  pose proof (inv_key _ I _ _ Hc) as Hk. cbv beta in Hk. rewrite Hk in Hj.
  apply conn_id_inj in Hj; lia.
Qed.

Lemma next_id cm : inv cm -> u32 (nextConnID cm + 1) = conn_id (S (length (opened (hooks cm)))).
Proof.
  intros I. rewrite (inv_next _ I). generalize (length (opened (hooks cm))). intros n.
  unfold conn_id, u32. rewrite Zplus_mod_idemp_l. f_equal. lia.
Qed.

Lemma opened_snoc log e :
  opened (log ++ [e]) = opened log ++ opened [e] /\ closed (log ++ [e]) = closed log ++ closed [e].
Proof. unfold opened, closed. by rewrite !omap_app. Qed.

Lemma open_connection_inv req cm :
  inv cm -> Z.of_nat (length (opened (hooks cm))) < 4294967295 ->
  inv (open_connection req cm).2.
Proof.
  intros I Hn. unfold open_connection. destruct (find_triad _ _ _ cm) eqn:Ef; [done|]. simpl.
  rewrite (next_id cm I). pose proof (fresh_id cm I Hn) as Hf.
  set (c := mkConnection _ _ _ _ _).
  assert (forall log, current (mkMgr (<[conn_id (S (length (opened (hooks cm)))) := c]>
            (connections cm)) (conn_id (S (length (opened (hooks cm))))) log)
            ≡ₚ c :: current cm) as Hcur.
  { intros log. unfold current. simpl. by rewrite map_to_list_insert. }
  destruct (opened_snoc (hooks cm) (Opened c req)) as [Eo Ec]. split; simpl.
  - apply map_Forall_insert_2; [done|apply (inv_key _ I)].
  - rewrite Hcur. simpl. apply NoDup_cons. split; [|apply (inv_triads _ I)].
    intros (c' & Ht & Hc')%list_elem_of_fmap. apply elem_of_current in Hc' as [k Hk].
    by apply (find_triad_None _ _ _ _ _ _ Ef Hk).
  - rewrite Eo, Ec, Hcur, (inv_hooks _ I). simpl. rewrite app_nil_r.
    rewrite <-app_assoc. apply Permutation_app_head. by rewrite Permutation_app_comm.
  - rewrite Eo, length_app, fmap_app, (inv_ids _ I). simpl length.
    by rewrite Nat.add_1_r, seq_S, fmap_app.
  - rewrite Eo, length_app. simpl. by rewrite Nat.add_1_r.
Qed.

Lemma close_connection_inv req cm : inv cm -> inv (close_connection req cm).2.
Proof.
  intros I. unfold close_connection. destruct (find_triad _ _ _ cm) as [[id c]|] eqn:Ef; [|done].
  simpl. apply find_triad_Some in Ef as [Hc _].
  assert (forall n log, current cm ≡ₚ c :: current (mkMgr (delete id (connections cm)) n log)) as Hcur.
  { intros n log. unfold current. simpl. by rewrite <-(map_to_list_delete _ _ _ Hc). }
  destruct (opened_snoc (hooks cm) (ClosedConn c)) as [Eo Ec]. split; simpl.
  - apply map_Forall_delete, (inv_key _ I).
  - pose proof (inv_triads _ I) as Ht. rewrite (Hcur (nextConnID cm) (hooks cm ++ [ClosedConn c])) in Ht.
    by apply NoDup_cons in Ht as [_ Ht].
  - rewrite Eo, Ec, (inv_hooks _ I), (Hcur (nextConnID cm) (hooks cm ++ [ClosedConn c])).
    simpl. by rewrite app_nil_r, <-app_assoc.
  - rewrite Eo. simpl. rewrite app_nil_r. apply (inv_ids _ I).
  - rewrite Eo. simpl. rewrite app_nil_r. apply (inv_next _ I).
Qed.

Lemma opened_grows req cm :
  (length (opened (hooks (open_connection req cm).2)) <= S (length (opened (hooks cm))))%nat.
Proof.
  unfold open_connection. case_match; simpl; [lia|].
  rewrite (proj1 (opened_snoc _ _)), length_app. simpl. lia.
Qed.

Lemma HandleRequest_inv service path data cm :
  inv cm -> Z.of_nat (length (opened (hooks cm))) < 4294967295 ->
  let cm' := (HandleRequest service path data cm).2 in
  inv cm' /\ (length (opened (hooks cm')) <= S (length (opened (hooks cm))))%nat.
Proof.
  intros I Hn. unfold HandleRequest, HandleForwardOpen, HandleForwardClose, mbind, SM_bind, pure.
  destruct (service =? ServiceForwardOpen); [|destruct (service =? ServiceForwardClose)].
  - destruct (decode_open data) as [req|e|]; [|simpl; split; [done|lia]..].
    split; [by apply open_connection_inv|apply opened_grows].
  - destruct (decode_close data) as [req|e|]; [|simpl; split; [done|lia]..].
    split; [by apply close_connection_inv|]. unfold close_connection.
    destruct (find_triad _ _ _ cm) as [[id c]|]; simpl; [|lia].
    rewrite (proj1 (opened_snoc _ _)), length_app. simpl. lia.
  - simpl. split; [done|lia].
Qed.

Lemma io_ext (m : outcome bytes) : io_only m -> ext_ok m.
Proof. destruct m as [|e|]; simpl; [done| |done]. by intros [-> | ->]. Qed.

Lemma HandleRequest_ext service path data cm : ext_ok (HandleRequest service path data cm).1.
Proof.
  unfold HandleRequest, HandleForwardOpen, HandleForwardClose, mbind, SM_bind, pure.
  pose proof (decode_open_io data) as Ho. pose proof (decode_close_io data) as Hc.
  destruct (service =? ServiceForwardOpen); [|destruct (service =? ServiceForwardClose)].
  - destruct (decode_open data) as [req|e|]; [|by apply (io_ext (Err e))|done].
    unfold open_connection. case_match; [|done]. simpl. split; [done|by repeat constructor].
  - destruct (decode_close data) as [req|e|]; [|by apply (io_ext (Err e))|done].
    unfold close_connection. by repeat case_match.
  - simpl. split; [done|constructor].
Qed.

(** A sequence of requests: service, path and data. *)
Definition serve_all (reqs : list (Z * bytes * bytes)) (cm : ConnectionManager)
  : ConnectionManager :=
  fold_left (fun cm '(service, path, data) => (HandleRequest service path data cm).2) reqs cm.

Lemma serve_all_inv reqs : forall cm,
  inv cm -> Z.of_nat (length (opened (hooks cm))) + len reqs <= 4294967295 ->
  inv (serve_all reqs cm) /\
  Z.of_nat (length (opened (hooks (serve_all reqs cm)))) <= 4294967295.
Proof.
  induction reqs as [|[[s p] d] reqs IH]; intros cm I Hn; [split; [done|]; simpl; rewrite len_nil in Hn; lia|].
  rewrite len_cons in Hn. pose proof (len_nonneg reqs).
  destruct (HandleRequest_inv s p d cm I) as [I' Hl]; [lia|]. apply IH; [done|lia].
Qed.

(** C18: The connection table.  After any sequence of requests, well formed or
    not (fewer than 2^32 - 1, the range of the identifier counter), the manager
    answers without crashing, no two connections share a triad, every connection
    is stored under the identifier it was given, no identifier was given twice,
    and the callbacks account for the table: the connections reported as opened
    are exactly those reported as closed together with those in the table. *)
Theorem connections_tracked reqs service path data :
  len reqs < 4294967295 ->
  let cm := serve_all reqs NewConnectionManager in
  no_panic (HandleRequest service path data cm).1 /\
  NoDup (map triad (current cm)) /\
  map_Forall (fun k c => cn_TOConnectionID c = k) (connections cm) /\
  NoDup (map cn_TOConnectionID (opened (hooks cm))) /\
  opened (hooks cm) ≡ₚ closed (hooks cm) ++ current cm.
Proof.
  intros Hn cm. destruct (serve_all_inv reqs NewConnectionManager new_mgr_inv) as [I Hl];
    [simpl; lia|]. fold cm in I, Hl.
  split; [|split; [apply (inv_triads _ I)|split; [apply (inv_key _ I)|split]]].
  - intros E. pose proof (HandleRequest_ext service path data cm) as He. by rewrite E in He.
  - change (NoDup (cn_TOConnectionID <$> opened (hooks cm))). rewrite (inv_ids _ I).
    apply NoDup_fmap_2_strong; [|apply NoDup_seq].
    intros i j Hi1%elem_of_seq Hj1%elem_of_seq. apply conn_id_inj. lia.
  - apply (inv_hooks _ I).
Qed.

Lemma find_triad_unique s v o cm k c :
  inv cm -> connections cm !! k = Some c -> triad c = (s, v, o) ->
  find_triad s v o cm = Some (k, c).
Proof.
  intros I Hc Ht. destruct (find_triad s v o cm) as [[k' c']|] eqn:E.
  - apply find_triad_Some in E as [Hc' Ht'].
    assert (c' = c) as ->.
    { apply (NoDup_map_inj triad (current cm)); [apply (inv_triads _ I)| | |congruence];
        apply elem_of_current; eauto. }
    pose proof (inv_key _ I _ _ Hc) as Hk. pose proof (inv_key _ I _ _ Hc') as Hk'.
    cbv beta in Hk, Hk'. by rewrite <-Hk, <-Hk'.
  - by destruct (find_triad_None _ _ _ _ _ _ E Hc).
Qed.

Lemma open_request o path cm :
  open_ok o -> HandleRequest ServiceForwardOpen path (Open_Encode o) cm = open_connection o cm.
Proof.
  intros Ho. unfold HandleRequest, HandleForwardOpen, mbind, SM_bind, pure.
  rewrite decode_open_encode by done. done.
Qed.
Lemma close_request c path cm :
  close_ok c -> HandleRequest ServiceForwardClose path (Close_Encode c) cm = close_connection c cm.
Proof.
  intros Hc. unfold HandleRequest, HandleForwardClose, mbind, SM_bind, pure.
  rewrite decode_close_encode by done. done.
Qed.

(** Forward_Open and Forward_Close.  For requests encoded as the originator
    encodes them: opening a triad that is not in use is answered with the new
    connection's identifier and the requested intervals, adds that connection
    and reports it; opening the same triad again is refused with extended status
    0x0100 and changes nothing; closing it restores the table and reports it;
    and the triad can then be opened again. *)
Theorem forward_open_close cm o c path :
  inv cm -> Z.of_nat (length (opened (hooks cm))) < 4294967295 -> open_ok o -> close_ok c ->
  (fc_ConnectionSerialNumber c, fc_VendorID c, fc_OriginatorSerialNumber c) =
    (fo_ConnectionSerialNumber o, fo_VendorID o, fo_OriginatorSerialNumber o) ->
  (fo_ConnectionSerialNumber o, fo_VendorID o, fo_OriginatorSerialNumber o)
    ∉ map triad (current cm) ->
  let id := u32 (nextConnID cm + 1) in
  let conn := mkConnection (fo_OTConnectionID o) id (fo_ConnectionSerialNumber o)
                (fo_VendorID o) (fo_OriginatorSerialNumber o) in
  let cm1 := mkMgr (<[id := conn]> (connections cm)) id (hooks cm ++ [Opened conn o]) in
  let cm2 := mkMgr (connections cm) id (hooks cm ++ [Opened conn o] ++ [ClosedConn conn]) in
  HandleRequest ServiceForwardOpen path (Open_Encode o) cm = (Ok (open_reply o id), cm1) /\
  HandleRequest ServiceForwardOpen path (Open_Encode o) cm1 =
    (Err (CipErr Status.ConnectionFailure [ExtStatusConnectionInUse]), cm1) /\
  HandleRequest ServiceForwardClose path (Close_Encode c) cm1 = (Ok (close_reply c), cm2) /\
  is_ok (HandleRequest ServiceForwardOpen path (Open_Encode o) cm2).1 = true.
Proof.
  intros I Hn Ho Hc [= Hs Hv Hor] Hf id conn cm1 cm2.
  assert (open_connection o cm = (Ok (open_reply o id), cm1)) as E1.
  { unfold open_connection. by rewrite find_triad_fresh. }
  pose proof (open_connection_inv o cm I Hn) as I1. rewrite E1 in I1. simpl in I1.
  assert (find_triad (fo_ConnectionSerialNumber o) (fo_VendorID o) (fo_OriginatorSerialNumber o) cm1
          = Some (id, conn)) as Ef.
  { apply find_triad_unique; [done| |done]. apply lookup_insert_eq. }
  assert (connections cm !! id = None) as Hid.
  { unfold id. rewrite (next_id cm I). by apply fresh_id. }
  rewrite !open_request, close_request by done. split; [done|]. split; [|split].
  - unfold open_connection. by rewrite Ef.
  - unfold close_connection. rewrite Hs, Hv, Hor, Ef. simpl. unfold cm2. f_equal. f_equal.
    + by apply delete_insert_id.
    + by rewrite <-app_assoc.
  - unfold open_connection. by rewrite find_triad_fresh.
Qed.

(** Closing what is not open.  A Forward_Close whose triad is not in the
    table is answered with success and changes nothing; the extended status
    0x0109, declared for a close request that matches no connection, is never
    sent. *)
Theorem close_unknown_succeeds cm c path :
  close_ok c ->
  (fc_ConnectionSerialNumber c, fc_VendorID c, fc_OriginatorSerialNumber c)
    ∉ map triad (current cm) ->
  HandleRequest ServiceForwardClose path (Close_Encode c) cm = (Ok (close_reply c), cm).
Proof.
  intros Hc Hf. rewrite close_request by done. unfold close_connection.
  by rewrite find_triad_fresh.
Qed.

(** A Forward_Open for 32-byte connections to assembly 100 and its Forward_Close. *)
Definition demo_open : ForwardOpenRequest :=
  mkOpen 10 14 0x11 0x22 77 1 0x12345678 0 [0; 0; 0] 10000 0x4820 10000 0x4820 1 3
    (BuildPath ClassAssembly 1 0 ++ [0x2C; 100]).
Definition demo_close : ForwardCloseRequest :=
  mkClose 10 14 77 1 0x12345678 3 0 (BuildPath ClassAssembly 1 0 ++ [0x2C; 100]).

Lemma connections_tracked_witness :
  let cm := serve_all [(ServiceForwardOpen, [], Open_Encode demo_open);
                       (ServiceForwardClose, [], Close_Encode demo_close);
                       (ServiceForwardOpen, [], Open_Encode demo_open)] NewConnectionManager in
  length (opened (hooks cm)) = 2%nat /\ length (closed (hooks cm)) = 1%nat /\
  opened (hooks cm) ≡ₚ closed (hooks cm) ++ current cm.
Proof.
  split; [reflexivity|]. split; [reflexivity|].
  apply (connections_tracked _ 0 [] []). reflexivity.
Defined.

Lemma forward_open_close_witness :
  HandleRequest ServiceForwardOpen [] (Open_Encode demo_open) NewConnectionManager =
    (Ok (open_reply demo_open 0x80000001),
     mkMgr {[0x80000001 := mkConnection 0x11 0x80000001 77 1 0x12345678]} 0x80000001
       [Opened (mkConnection 0x11 0x80000001 77 1 0x12345678) demo_open]).
Proof.
  refine (proj1 (forward_open_close NewConnectionManager demo_open demo_close []
    new_mgr_inv _ _ _ _ _)); [reflexivity|decided|decided|reflexivity|].
  intros H. by apply elem_of_nil in H.
Defined.

Lemma close_unknown_succeeds_witness :
  HandleRequest ServiceForwardClose [] (Close_Encode demo_close) NewConnectionManager =
    (Ok (close_reply demo_close), NewConnectionManager).
Proof. apply close_unknown_succeeds; [decided|]. intros H. by apply elem_of_nil in H. Defined.
End ConnMgr.
