(* ===== verification/EipServer.v ===== *)
(** * The EtherNet/IP server

    Models [protocol/ethernetip/server.go]: the command loop of one connection
    over an event stream ([HandleConn]), the two CIP envelopes, and the server as
    a whole, in which many connections share the session counter and the objects
    behind the message router.  A goroutine sees [Stop] as a failed read, because
    [Stop] closes the connection; the [done] check at the top of the loop only
    ends the same run earlier. *)
From S2P Require Import Prelude Bytes NetStream EipCodec Cip.

Definition errShortData : error := CipErr Status.PathSegmentError [].
Definition errNoCPFItem : error := CipErr Status.PathSegmentError [].

Definition maxPacketSize : Z := 4096.

(** What the connections share: the session counter and the objects' state. *)
Record shared (W : Type) : Type := mkShared { nextSession : Z; world : W }.
Arguments mkShared {W}.
Arguments nextSession {W}.
Arguments world {W}.

(** What a connection keeps: its session handle (0 before registration) and what
    it has written, one entry for each call of [conn.Write]. *)
Record connState : Type := mkCS { sessionHandle : Z; written : list bytes }.

(** One iteration of the loop: go round again, return, or crash. *)
Inductive verdict : Type := Next | Return | Crash.

Section Server.
Context {W : Type}.
Variable router : MessageRouter W.
Variable identity : ListIdentityItem.
(** Whether the [n]-th write on the connection fails. *)
Variable write_fails : nat -> bool.

(** ** Envelopes *)
Definition wrapUnconnectedResponse (mrRespBytes : bytes) : bytes :=
  replicate 6 0 ++
  CPF_Encode (NewCommonPacketFormat
    [NewCPFItem ItemIDNullAddress []; NewCPFItem ItemIDUnconnectedMessage mrRespBytes]).
Definition wrapConnectedResponse (addrData : bytes) (seqCount : Z) (mrRespBytes : bytes)
  : bytes :=
  replicate 6 0 ++
  CPF_Encode (NewCommonPacketFormat
    [NewCPFItem ItemIDConnectedAddress addrData;
     NewCPFItem ItemIDConnectedData (le16 seqCount ++ mrRespBytes)]).

Definition decode_cpf (data : bytes) : outcome CommonPacketFormat :=
  if len data <? 6 then Err errShortData else
  d ← go_slice data 6 (len data); DecodeCommonPacketFormat d.

Definition handleSendRRData (data : bytes) : SM W bytes :=
  cpf ← pure (decode_cpf data);
  match FindItemByType ItemIDUnconnectedMessage cpf with
  | None => pure (Err errNoCPFItem)
  | Some item =>
      mrReq ← pure (DecodeMessageRouterRequest (it_Data item));
      mrResp ← Dispatch router mrReq;
      mret (wrapUnconnectedResponse (MRResp_Encode mrResp))
  end.

(** The address item's data, the sequence count and the request bytes. *)
Definition connected_items (cpf : CommonPacketFormat) : outcome (bytes * Z * bytes) :=
  match FindItemByType ItemIDConnectedAddress cpf with
  | None => Err errNoCPFItem
  | Some addrItem =>
      if len (it_Data addrItem) <? 4 then Err errNoCPFItem else
      match FindItemByType ItemIDConnectedData cpf with
      | None => Err errNoCPFItem
      | Some dataItem =>
          if len (it_Data dataItem) <? 2 then Err errNoCPFItem else
          seq ← (b ← go_slice (it_Data dataItem) 0 2; get_le16 b);
          pdu ← go_slice (it_Data dataItem) 2 (len (it_Data dataItem));
          Ok (it_Data addrItem, seq, pdu)
      end
  end.

Definition handleSendUnitData (data : bytes) : SM W bytes :=
  cpf ← pure (decode_cpf data);
  '(addr, seqCount, pdu) ← pure (connected_items cpf);
  mrReq ← pure (DecodeMessageRouterRequest pdu);
  mrResp ← Dispatch router mrReq;
  mret (wrapConnectedResponse addr seqCount (MRResp_Encode mrResp)).

Definition handleListIdentity : bytes := EncodeListIdentityResponse [identity].
Definition handleListServices : bytes :=
  EncodeListServicesResponse
    [mkServices ItemIDListServices 0 1 0x0020 (str "Communications")].

(** ** The switch on the command

    What the connection answers: payload, status and session handle; or it
    returns (UnregisterSession), or a handler panics. *)
Inductive answer : Type :=
| Reply (respData : bytes) (status session : Z)
| Hangup
| Panicked.

(** A CIP request under [session], on a connection registered as [handle]. *)
Definition cip_command (handler : SM W bytes) (session handle : Z) (w : W) : answer * W :=
  if negb (session =? handle) || (handle =? 0)
  then (Reply [] Encap.StatusInvalidSessionHandle session, w)
  else match handler w with
       | (Ok respData, w) => (Reply respData Encap.StatusSuccess session, w)
       | (Err _, w) => (Reply [] Encap.StatusInvalidCommand session, w)
       | (Panic, w) => (Panicked, w)
       end.

Definition handle_command (command session : Z) (data : bytes) (handle : Z) (sh : shared W)
  : answer * Z * shared W :=
  if command =? Cmd.RegisterSession then
    let h := u32 (nextSession sh + 1) in
    (Reply (le16 1 ++ le16 0) Encap.StatusSuccess h, h, mkShared h (world sh))
  else if command =? Cmd.UnregisterSession then (Hangup, handle, sh)
  else if command =? Cmd.ListIdentity then
    (Reply handleListIdentity Encap.StatusSuccess session, handle, sh)
  else if command =? Cmd.ListServices then
    (Reply handleListServices Encap.StatusSuccess session, handle, sh)
  else if command =? Cmd.SendRRData then
    let '(a, w) := cip_command (handleSendRRData data) session handle (world sh) in
    (a, handle, mkShared (nextSession sh) w)
  else if command =? Cmd.SendUnitData then
    let '(a, w) := cip_command (handleSendUnitData data) session handle (world sh) in
    (a, handle, mkShared (nextSession sh) w)
  else (Reply [] Encap.StatusInvalidCommand session, handle, sh).

(** [conn.Write]: the bytes are recorded; [false] when the write fails. *)
Definition write (b : bytes) (cs : connState) : bool * connState :=
  (negb (write_fails (length (written cs))),
   mkCS (sessionHandle cs) (written cs ++ [b])).

Definition send_reply (command session status : Z) (senderContext respData : bytes)
  (cs : connState) : verdict * connState :=
  let respHeader := le16 command ++ le16 (u16 (len respData)) ++ le32 session ++
                    le32 status ++ senderContext ++ le32 0 in
  let '(ok, cs) := write respHeader cs in
  if negb ok then (Return, cs) else
  if 0 <? len respData then
    let '(ok, cs) := write respData cs in (if ok then Next else Return, cs)
  else (Next, cs).

Definition process_command (command session : Z) (senderContext data : bytes)
  (cs : connState) (sh : shared W) : verdict * connState * shared W :=
  let '(a, handle, sh) := handle_command command session data (sessionHandle cs) sh in
  let cs := mkCS handle (written cs) in
  match a with
  | Hangup => (Return, cs, sh)
  | Panicked => (Crash, cs, sh)
  | Reply respData status session =>
      let '(v, cs) := send_reply command session status senderContext respData cs in
      (v, cs, sh)
  end.

(** ** The loop *)

(** The fields of the header the loop looks at. *)
Definition header_fields (headerBuf : bytes) : outcome (Z * Z * Z * bytes) :=
  command ← (b ← go_slice headerBuf 0 2; get_le16 b);
  dataLen ← (b ← go_slice headerBuf 2 4; get_le16 b);
  session ← (b ← go_slice headerBuf 4 8; get_le32 b);
  senderContext ← go_slice headerBuf 12 20;
  Ok (command, dataLen, session, senderContext).

Definition serve_once (evs : list rx) (cs : connState) (sh : shared W)
  : verdict * list rx * connState * shared W :=
  match conn_read_full (Z.to_nat HeaderSize) evs with
  | (Err _, evs) => (Return, evs, cs, sh)
  | (Panic, evs) => (Crash, evs, cs, sh)
  | (Ok headerBuf, evs) =>
      match header_fields headerBuf with
      | Ok (command, dataLen, session, senderContext) =>
          if maxPacketSize <? dataLen then (Return, evs, cs, sh) else
          match conn_read_full (Z.to_nat dataLen) evs with
          | (Err _, evs) => (Return, evs, cs, sh)
          | (Panic, evs) => (Crash, evs, cs, sh)
          | (Ok data, evs) =>
              let '(v, cs, sh) := process_command command session senderContext data cs sh in
              (v, evs, cs, sh)
          end
      | _ => (Crash, evs, cs, sh)
      end
  end.

(** [None] when the fuel runs out before the loop returns. *)
Fixpoint HandleConn (fuel : nat) (evs : list rx) (cs : connState) (sh : shared W)
  : option (verdict * connState * shared W) :=
  match fuel with
  | O => None
  | S fuel =>
      match serve_once evs cs sh with
      | (Next, evs, cs, sh) => HandleConn fuel evs cs sh
      | (v, _, cs, sh) => Some (v, cs, sh)
      end
  end.
Definition conn_fuel (evs : list rx) : nat := S (length evs).
End Server.

(** ** Lemmas: envelopes and the header *)
Lemma decode_items_io n : forall r, io_only (decode_items n r).
Proof.
  induction n as [|n IH]; intros r; [done|]. cbn [decode_items]. apply io_only_bind.
  - unfold decode_item. reads_io.
  - intros [item r']. by apply io_only_bind; [apply IH|].
Qed.
Lemma decode_cpf_no_panic data : no_panic (decode_cpf data).
Proof.
  unfold decode_cpf. destruct (len data <? 6) eqn:E; [done|].
  unfold go_slice. rewrite decide_True by lia. go_bind. unfold DecodeCommonPacketFormat.
  set (d := take _ _). pose proof (read_le16_io d) as Hr.
  destruct (read_le16 d) as [[n r]|e|]; go_bind; [|done|done]. case_match; [done|].
  pose proof (decode_items_io (Z.to_nat n) r) as Hi. by destruct (decode_items _ _).
Qed.
Lemma connected_items_no_panic cpf : no_panic (connected_items cpf).
Proof.
  unfold connected_items. destruct (FindItemByType _ _) as [a|]; [|done].
  destruct (_ <? _); [done|]. destruct (FindItemByType _ _) as [d|]; [|done].
  destruct (it_Data d) as [|x [|y l]]; [done..|]. pose proof (len_nonneg l).
  destruct (_ <? _); [done|]. unfold go_slice. rewrite !decide_True by (lens; lia). done.
Qed.
Lemma mr_request_no_panic d : no_panic (DecodeMessageRouterRequest d).
Proof.
  assert (io_only (DecodeMessageRouterRequest d)) as H; [|by intros E; rewrite E in H].
  unfold DecodeMessageRouterRequest. reads_io. apply io_only_bind; [|intros; by case_match].
  unfold reader_Read. case_match; simpl; auto.
Qed.

(** A computation on the objects' state that does not panic and keeps [inv]. *)
Definition sm_safe {W A} (inv : W -> Prop) (m : SM W A) : Prop :=
  forall w, inv w -> no_panic (m w).1 /\ inv (m w).2.

Lemma sm_safe_bind {W A B} (inv : W -> Prop) (m : SM W A) (f : A -> SM W B) :
  sm_safe inv m -> (forall a, sm_safe inv (f a)) -> sm_safe inv (m ≫= f).
Proof.
  intros Hm Hf w Hw. unfold mbind, SM_bind. destruct (Hm w Hw) as [Hp Hi].
  destruct (m w) as [[a|e|] w']; [by apply Hf|done|by destruct Hp].
Qed.
Lemma sm_safe_pure {W A} (inv : W -> Prop) (m : outcome A) : no_panic m -> sm_safe inv (pure m).
Proof. by intros Hm w Hw. Qed.

Lemma header_fields_total h :
  length h = 24%nat -> exists c l s ctx, header_fields h = Ok (c, l, s, ctx).
Proof.
  intros Hl. do 25 (destruct h as [|? h]; try done). do 4 eexists. reflexivity.
Qed.

Section ServerLemmas.
Context {W : Type} (inv : W -> Prop) (router : MessageRouter W).
Variable identity : ListIdentityItem.
Variable write_fails : nat -> bool.
Hypothesis Hrouter : router_safe inv router.

Lemma Dispatch_safe req : sm_safe inv (Dispatch router req).
Proof.
  intros w Hw. destruct (Dispatch_total inv router Hrouter req w Hw) as [(m & E & _ & Hi)| ->];
    [|done]. by rewrite E.
Qed.
Lemma handleSendRRData_safe data : sm_safe inv (handleSendRRData router data).
Proof.
  apply sm_safe_bind; [apply sm_safe_pure, decode_cpf_no_panic|]. intros cpf.
  destruct (FindItemByType _ _); [|by apply sm_safe_pure].
  apply sm_safe_bind; [apply sm_safe_pure, mr_request_no_panic|]. intros req.
  apply sm_safe_bind; [apply Dispatch_safe|]. intros resp. by apply sm_safe_pure.
Qed.
Lemma handleSendUnitData_safe data : sm_safe inv (handleSendUnitData router data).
Proof.
  apply sm_safe_bind; [apply sm_safe_pure, decode_cpf_no_panic|]. intros cpf.
  apply sm_safe_bind; [apply sm_safe_pure, connected_items_no_panic|]. intros [[addr seqn] pdu].
  apply sm_safe_bind; [apply sm_safe_pure, mr_request_no_panic|]. intros req.
  apply sm_safe_bind; [apply Dispatch_safe|]. intros resp. by apply sm_safe_pure.
Qed.

Lemma cip_command_safe handler session handle w :
  sm_safe inv handler -> inv w ->
  (cip_command handler session handle w).1 <> Panicked /\
  inv (cip_command handler session handle w).2.
Proof.
  intros Hh Hw. unfold cip_command. destruct (_ || _); [done|].
  destruct (Hh w Hw) as [Hp Hi]. by destruct (handler w) as [[a|e|] w'].
Qed.

(** The session counter moves only when the command registers a session, and
    then the connection gets the new value. *)
Lemma handle_command_spec command session data handle sh :
  inv (world sh) ->
  let '(a, handle', sh') := handle_command router identity command session data handle sh in
  a <> Panicked /\ inv (world sh') /\
  (command = Cmd.RegisterSession /\ handle' = nextSession sh' /\
     nextSession sh' = u32 (nextSession sh + 1) /\ world sh' = world sh \/
   command <> Cmd.RegisterSession /\ handle' = handle /\ nextSession sh' = nextSession sh).
Proof.
  intros Hw. unfold handle_command.
  destruct (Z.eqb_spec command Cmd.RegisterSession); [by auto 10|].
  destruct (command =? Cmd.UnregisterSession); [by auto 10|].
  destruct (command =? Cmd.ListIdentity); [by auto 10|].
  destruct (command =? Cmd.ListServices); [by auto 10|].
  destruct (command =? Cmd.SendRRData); [|destruct (command =? Cmd.SendUnitData)].
  - pose proof (cip_command_safe (handleSendRRData router data) session handle (world sh)
      (handleSendRRData_safe data) Hw) as [Ha Hi].
    destruct (cip_command _ _ _ _) as [a w]. auto 10.
  - pose proof (cip_command_safe (handleSendUnitData router data) session handle (world sh)
      (handleSendUnitData_safe data) Hw) as [Ha Hi].
    destruct (cip_command _ _ _ _) as [a w]. auto 10.
  - by auto 10.
Qed.

Lemma send_reply_spec c s st ctx d cs :
  let '(v, cs') := send_reply write_fails c s st ctx d cs in
  v <> Crash /\ sessionHandle cs' = sessionHandle cs.
Proof.
  unfold send_reply, write. destruct (write_fails _); [done|]. simpl.
  destruct (0 <? len d); [|done]. by destruct (write_fails _).
Qed.

Lemma process_command_spec command session ctx data cs sh :
  inv (world sh) ->
  let '(v, cs', sh') :=
    process_command router identity write_fails command session ctx data cs sh in
  v <> Crash /\ inv (world sh') /\
  (command = Cmd.RegisterSession /\ sessionHandle cs' = nextSession sh' /\
     nextSession sh' = u32 (nextSession sh + 1) /\ world sh' = world sh \/
   command <> Cmd.RegisterSession /\ sessionHandle cs' = sessionHandle cs /\
     nextSession sh' = nextSession sh).
Proof.
  intros Hw. unfold process_command.
  pose proof (handle_command_spec command session data (sessionHandle cs) sh Hw) as H.
  destruct (handle_command _ _ _ _ _ _ _) as [[a handle'] sh']. destruct H as (Ha & Hi & Hr).
  destruct a as [d st s| |]; [|by simpl; auto|done].
  pose proof (send_reply_spec command s st ctx d (mkCS handle' (written cs))) as H.
  destruct (send_reply _ _ _ _ _ _ _) as [v cs']. destruct H as [Hv Hs]. simpl in Hs.
  rewrite Hs. auto.
Qed.

Lemma eip_serve_once_total evs cs sh :
  Forall rx_ok evs -> inv (world sh) ->
  let '(v, evs', cs', sh') := serve_once router identity write_fails evs cs sh in
  v <> Crash /\ inv (world sh') /\ Forall rx_ok evs' /\
  (v = Next -> (length evs' < length evs)%nat).
Proof.
  intros Hevs Hw. unfold serve_once.
  destruct (conn_read_full _ evs) as [r evs1] eqn:E1.
  destruct (conn_read_full_spec _ _ _ _ E1 Hevs) as (Hl1 & Hok1 & Hlt1 & Hr1).
  destruct r as [h|e|]; [|done|done]. destruct Hr1 as [Hh _].
  destruct (header_fields_total h Hh) as (c & l & s & ctx & ->).
  destruct (maxPacketSize <? l); [done|].
  destruct (conn_read_full _ evs1) as [r evs2] eqn:E2.
  destruct (conn_read_full_spec _ _ _ _ E2 Hok1) as (Hl2 & Hok2 & _ & Hr2).
  destruct r as [d|e|]; [|done|done].
  pose proof (process_command_spec c s ctx d cs sh Hw) as H.
  destruct (process_command _ _ _ _ _ _ _ _ _) as [[v cs'] sh']. destruct H as (Hv & Hi & _).
  split; [done|]. split; [done|]. split; [done|]. intros _.
  assert (evs <> []) as Hne by (intros ->; vm_compute in E1; congruence).
  specialize (Hlt1 ltac:(vm_compute; lia) Hne). lia.
Qed.

Lemma HandleConn_total fuel : forall evs cs sh,
  (length evs < fuel)%nat -> Forall rx_ok evs -> inv (world sh) ->
  exists cs' sh', HandleConn router identity write_fails fuel evs cs sh = Some (Return, cs', sh') /\
                  inv (world sh').
Proof.
  induction fuel as [|fuel IH]; intros evs cs sh Hf Hevs Hw; [lia|]. cbn [HandleConn].
  pose proof (eip_serve_once_total evs cs sh Hevs Hw) as H.
  destruct (serve_once _ _ _ _ _ _) as [[[v evs'] cs'] sh']. destruct H as (Hv & Hi & Hok & Hl).
  destruct v; [|by eauto|done]. apply IH; [|done|done]. specialize (Hl eq_refl). lia.
Qed.
End ServerLemmas.

(** ** The server: many connections, one counter, one set of objects

    A step is one critical section or one command of one connection: [acceptLoop]
    checks the limit and starts a goroutine; the goroutine of [HandleConn] enters
    its client record; it serves a command; its read fails and it leaves.
    Connections are numbered; a number is used for one connection only. *)
Inductive hook : Type := OnConnect (k : nat) | OnDisconnect (k : nat) (handle : Z).
Definition hook_conn (h : hook) : nat :=
  match h with OnConnect k => k | OnDisconnect k _ => k end.

Inductive sevent : Type :=
| Accept (k : nat)
| Enter (k : nat)
| Command (k : nat) (command session : Z) (senderContext data : bytes)
| Leave (k : nat).

Record system (W : Type) : Type := mkSystem {
  sys_shared : shared W;
  clients : gmap nat connState;
  spawned : gset nat;        (** accepted, the goroutine has not entered its record yet *)
  seen : gset nat;           (** every connection accepted so far *)
  hooks : list hook
}.
Arguments mkSystem {W}.
Arguments sys_shared {W}.
Arguments clients {W}.
Arguments spawned {W}.
Arguments seen {W}.
Arguments hooks {W}.

Section System.
Context {W : Type}.
Variable router : MessageRouter W.
Variable identity : ListIdentityItem.
Variable write_fails : nat -> nat -> bool.
Variable maxClients : Z.

(** [acceptLoop]: over the limit the connection is closed, otherwise a goroutine
    is started. *)
Definition accept (k : nat) (s : system W) : system W :=
  if (0 <? maxClients) && (maxClients <=? Z.of_nat (size (clients s)))
  then mkSystem (sys_shared s) (clients s) (spawned s) ({[k]} ∪ seen s) (hooks s)
  else mkSystem (sys_shared s) (clients s) ({[k]} ∪ spawned s) ({[k]} ∪ seen s) (hooks s).

(** The beginning of [HandleConn]. *)
Definition enter (k : nat) (s : system W) : system W :=
  mkSystem (sys_shared s) (<[k := mkCS 0 []]> (clients s)) (spawned s ∖ {[k]}) (seen s)
    (hooks s ++ [OnConnect k]).

(** The deferred function of [HandleConn]. *)
Definition leave (k : nat) (cs : connState) (sh : shared W) (s : system W) : system W :=
  mkSystem sh (delete k (clients s)) (spawned s) (seen s)
    (hooks s ++ [OnDisconnect k (sessionHandle cs)]).

Definition sys_step (s : system W) (e : sevent) : system W :=
  match e with
  | Accept k => if decide (k ∈ seen s) then s else accept k s
  | Enter k => if decide (k ∈ spawned s) then enter k s else s
  | Command k command session senderContext data =>
      match clients s !! k with
      | None => s
      | Some cs =>
          let '(v, cs, sh) :=
            process_command router identity (write_fails k) command session senderContext data
              cs (sys_shared s) in
          match v with
          | Next => mkSystem sh (<[k := cs]> (clients s)) (spawned s) (seen s) (hooks s)
          | _ => leave k cs sh s
          end
      end
  | Leave k =>
      match clients s !! k with None => s | Some cs => leave k cs (sys_shared s) s end
  end.

Definition new_system (w : W) : system W := mkSystem (mkShared 0 w) ∅ ∅ ∅ [].
Definition sys_run (evs : list sevent) (w : W) : system W :=
  fold_left sys_step evs (new_system w).

(** What the hooks were told about connection [k]. *)
Definition hooks_of (k : nat) (s : system W) : list hook :=
  filter (fun h => hook_conn h = k) (hooks s).

Record sys_inv (inv : W -> Prop) (n : Z) (s : system W) : Prop := {
  si_world : inv (world (sys_shared s));
  si_next : 0 <= nextSession (sys_shared s) <= n;
  si_handles : map_Forall (fun _ cs => 0 <= sessionHandle cs <= nextSession (sys_shared s))
                 (clients s);
  si_distinct : forall k1 k2 c1 c2, clients s !! k1 = Some c1 -> clients s !! k2 = Some c2 ->
      sessionHandle c1 = sessionHandle c2 -> sessionHandle c1 = 0 \/ k1 = k2;
  si_spawned : forall k, k ∈ spawned s -> k ∈ seen s /\ clients s !! k = None;
  si_fresh : forall k, k ∉ seen s \/ k ∈ spawned s -> clients s !! k = None /\ hooks_of k s = [];
  si_live : forall k cs, clients s !! k = Some cs -> hooks_of k s = [OnConnect k];
  si_gone : forall k, clients s !! k = None ->
      hooks_of k s = [] \/ exists h, hooks_of k s = [OnConnect k; OnDisconnect k h]
}.

Lemma new_sys_inv (inv : W -> Prop) w : inv w -> sys_inv inv 0 (new_system w).
Proof.
  intros Hw. split; simpl; try done; try (by intros; set_solver).
Qed.

Lemma hooks_of_snoc k s l h :
  hooks s = l ++ [h] ->
  hooks_of k s = filter (fun h => hook_conn h = k) l ++ (if decide (hook_conn h = k) then [h] else []).
Proof.
  intros E. unfold hooks_of. rewrite E, filter_app. f_equal.
Qed.

Section Invariant.
Context (inv : W -> Prop).
Hypothesis Hrouter : router_safe inv router.

Lemma leave_inv n n' s k cs0 cs sh :
  sys_inv inv n s -> clients s !! k = Some cs0 -> inv (world sh) ->
  nextSession (sys_shared s) <= nextSession sh <= n' -> sys_inv inv n' (leave k cs sh s).
Proof.
  intros I Hk Hw Hn. pose proof (si_next _ _ _ I) as Hs.
  assert (forall k', k' <> k -> hooks_of k' (leave k cs sh s) = hooks_of k' s) as Ho.
  { intros k' Hne. rewrite (hooks_of_snoc k' _ (hooks s) (OnDisconnect k (sessionHandle cs))) by done.
    rewrite decide_False by (simpl; congruence). apply app_nil_r. }
  assert ((k ∉ spawned s) /\ k ∈ seen s) as [Hsp Hse].
  { split; [intros H; by rewrite (proj2 (si_spawned _ _ _ I k H)) in Hk|].
    destruct (decide (k ∈ seen s)) as [|Hns]; [done|].
    by rewrite (proj1 (si_fresh _ _ _ I k (or_introl Hns))) in Hk. }
  split; simpl.
  - done.
  - lia.
  - intros k' cs' [_ Hc]%lookup_delete_Some. pose proof (si_handles _ _ _ I k' cs' Hc) as H.
    simpl in H. lia.
  - intros k1 k2 c1 c2 [_ H1]%lookup_delete_Some [_ H2]%lookup_delete_Some.
    by apply (si_distinct _ _ _ I k1 k2).
  - intros k' Hk'. destruct (si_spawned _ _ _ I k' Hk') as [? Hc]. split; [done|].
    apply lookup_delete_None. by right.
  - intros k' Hk'. destruct (si_fresh _ _ _ I k' Hk') as [Hc Hh].
    split; [apply lookup_delete_None; by right|]. rewrite Ho; [done|]. intros ->. naive_solver.
  - intros k' cs' [Hne Hc]%lookup_delete_Some. rewrite Ho by congruence.
    by apply (si_live _ _ _ I k' cs').
  - intros k' [->|Hc]%lookup_delete_None.
    + right. exists (sessionHandle cs).
      rewrite (hooks_of_snoc k' _ (hooks s) (OnDisconnect k' (sessionHandle cs))) by done.
      fold (hooks_of k' s). rewrite (si_live _ _ _ I _ _ Hk). by rewrite decide_True.
    + destruct (decide (k' = k)) as [->|Hne]; [by rewrite Hk in Hc|]. rewrite Ho by done.
      by apply (si_gone _ _ _ I).
Qed.

(** A command that keeps the connection: only its record and the shared state
    change. *)
Lemma command_inv n s k cs0 cs sh :
  sys_inv inv n s -> n + 1 < 4294967296 -> clients s !! k = Some cs0 -> inv (world sh) ->
  sessionHandle cs = nextSession sh /\ nextSession sh = nextSession (sys_shared s) + 1 \/
  sessionHandle cs = sessionHandle cs0 /\ nextSession sh = nextSession (sys_shared s) ->
  sys_inv inv (n + 1) (mkSystem sh (<[k := cs]> (clients s)) (spawned s) (seen s) (hooks s)).
Proof.
  intros I Hn Hk Hw Hcase. pose proof (si_next _ _ _ I) as Hs.
  pose proof (si_handles _ _ _ I k cs0 Hk) as Hh. simpl in Hh.
  assert (forall k', clients s !! k' = None -> k' <> k) as Hne by (intros k' H ->; by rewrite Hk in H).
  split; simpl.
  - done.
  - lia.
  - apply map_Forall_insert_2; [lia|]. intros k' cs' Hc.
    pose proof (si_handles _ _ _ I k' cs' Hc) as H. simpl in H. lia.
  - intros k1 k2 c1 c2 H1 H2 E.
    pose proof (fun k' c' H => si_handles _ _ _ I k' c' H) as Hb. simpl in Hb.
    apply lookup_insert_Some in H1 as [[<- <-]|[N1 H1]], H2 as [[<- <-]|[N2 H2]]; [by right| | |].
    + specialize (Hb _ _ H2). destruct Hcase as [[Hc1 Hc2]|[Hc1 _]]; [lia|].
      rewrite Hc1 in E. destruct (si_distinct _ _ _ I k k2 cs0 c2 Hk H2 E); [left; lia|done].
    + specialize (Hb _ _ H1). destruct Hcase as [[Hc1 Hc2]|[Hc1 _]]; [lia|].
      rewrite Hc1 in E. destruct (si_distinct _ _ _ I k1 k c1 cs0 H1 Hk E); [by left|done].
    + by apply (si_distinct _ _ _ I k1 k2 c1 c2).
  - intros k' Hk'. destruct (si_spawned _ _ _ I k' Hk') as [? Hc]. split; [done|].
    rewrite lookup_insert_ne; [done|]. intros ->. by apply (Hne k').
  - intros k' Hk'. destruct (si_fresh _ _ _ I k' Hk') as [Hc Ho]. split; [|done].
    rewrite lookup_insert_ne; [done|]. intros ->. by apply (Hne k').
  - intros k' cs' [[<- <-]|[_ Hc]]%lookup_insert_Some; [by apply (si_live _ _ _ I k cs0)|].
    by apply (si_live _ _ _ I k' cs').
  - intros k' [Hc _]%lookup_insert_None. by apply (si_gone _ _ _ I).
Qed.

Lemma enter_inv n s k :
  sys_inv inv n s -> k ∈ spawned s -> sys_inv inv (n + 1) (enter k s).
Proof.
  intros I Hk. pose proof (si_next _ _ _ I) as Hs.
  destruct (si_spawned _ _ _ I k Hk) as [Hse Hc]. destruct (si_fresh _ _ _ I k (or_intror Hk)) as [_ Hh].
  set (s' := enter k s).
  assert (forall k', k' <> k -> hooks_of k' s' = hooks_of k' s) as Ho.
  { intros k' Hne. rewrite (hooks_of_snoc k' _ (hooks s) (OnConnect k)) by done.
    rewrite decide_False by (simpl; congruence). apply app_nil_r. }
  assert (hooks_of k s' = [OnConnect k]) as Hk'.
  { rewrite (hooks_of_snoc k _ (hooks s) (OnConnect k)) by done. fold (hooks_of k s).
    rewrite Hh. by rewrite decide_True. }
  split; simpl.
  - apply (si_world _ _ _ I).
  - lia.
  - apply map_Forall_insert_2; [simpl; lia|]. apply (si_handles _ _ _ I).
  - intros k1 k2 c1 c2 H1 H2 E.
    apply lookup_insert_Some in H1 as [[<- <-]|[N1 H1]]; [by left|].
    apply lookup_insert_Some in H2 as [[<- <-]|[N2 H2]]; [by left|].
    by apply (si_distinct _ _ _ I k1 k2 c1 c2).
  - intros k2 [H2 Hne]%elem_of_difference. destruct (si_spawned _ _ _ I k2 H2) as [? Hc2].
    split; [done|]. rewrite lookup_insert_ne by set_solver. done.
  - intros k2 H2. assert (k2 <> k) by set_solver.
    destruct (si_fresh _ _ _ I k2) as [Hc2 Ho2]; [set_solver|].
    by rewrite lookup_insert_ne, Ho.
  - intros k2 c2 [[<- <-]|[Hne Hc2]]%lookup_insert_Some; [done|]. rewrite Ho by done.
    by apply (si_live _ _ _ I k2 c2).
  - intros k2 [Hc2 Hne]%lookup_insert_None. rewrite Ho by done. by apply (si_gone _ _ _ I).
Qed.

Lemma sys_inv_mono n n' s : sys_inv inv n s -> n <= n' -> sys_inv inv n' s.
Proof. intros [] Hn. split; try done. lia. Qed.

Lemma accept_inv n s k (sp : bool) :
  sys_inv inv n s -> k ∉ seen s ->
  sys_inv inv n (mkSystem (sys_shared s) (clients s)
    (if sp then {[k]} ∪ spawned s else spawned s) ({[k]} ∪ seen s) (hooks s)).
Proof.
  intros I Hk. destruct (si_fresh _ _ _ I k (or_introl Hk)) as [Hc Hh].
  split; simpl; try apply I.
  - intros k' Hk'. destruct (decide (k' = k)) as [->|Hne]; [set_solver|].
    destruct (si_spawned _ _ _ I k') as [? ?]; [destruct sp; set_solver|]. set_solver.
  - intros k' Hk'. change (hooks_of k' _) with (hooks_of k' s).
    destruct (decide (k' = k)) as [->|Hne]; [done|].
    apply (si_fresh _ _ _ I). destruct sp; set_solver.
Qed.

Lemma sys_step_inv n s e :
  sys_inv inv n s -> n + 1 < 4294967296 -> sys_inv inv (n + 1) (sys_step s e).
Proof.
  intros I Hn. pose proof (si_next _ _ _ I) as Hs.
  assert (sys_inv inv (n + 1) s) as I' by (by apply (sys_inv_mono n); [|lia]).
  destruct e as [k|k|k command session ctx data|k]; simpl.
  - case_decide as Hk; [done|]. apply (sys_inv_mono n); [|lia].
    unfold accept. destruct (_ && _); [by apply (accept_inv n s k false)|by apply (accept_inv n s k true)].
  - case_decide as Hk; [by apply enter_inv|done].
  - destruct (clients s !! k) as [cs|] eqn:Hk; [|done].
    pose proof (process_command_spec inv router identity (write_fails k) Hrouter command session
      ctx data cs (sys_shared s) (si_world _ _ _ I)) as H.
    destruct (process_command _ _ _ _ _ _ _ _ _) as [[v cs'] sh']. destruct H as (Hv & Hw & H).
    assert (u32 (nextSession (sys_shared s) + 1) = nextSession (sys_shared s) + 1) as Eu
      by (apply u32_small; unfold is_u32; lia).
    destruct v; [|apply (leave_inv n (n + 1) s k cs); [done..|lia]|done].
    apply (command_inv n s k cs); [done..|]. rewrite Eu in H. intuition.
  - destruct (clients s !! k) as [cs|] eqn:Hk; [|done].
    apply (leave_inv n (n + 1) s k cs); [done..|apply (si_world _ _ _ I)|lia].
Qed.

Lemma sys_run_inv evs : forall n s,
  sys_inv inv n s -> n + len evs < 4294967296 ->
  sys_inv inv (n + len evs) (fold_left sys_step evs s).
Proof.
  induction evs as [|e evs IH]; intros n s I Hn; [by rewrite len_nil, Z.add_0_r|].
  rewrite len_cons in *. pose proof (len_nonneg evs). simpl.
  rewrite Z.add_assoc. apply IH; [|lia]. apply sys_step_inv; [done|lia].
Qed.
End Invariant.
End System.

(** ** Properties *)
Section Properties.
Context {W : Type} (inv : W -> Prop) (router : MessageRouter W).
Variable identity : ListIdentityItem.
Hypothesis Hrouter : router_safe inv router.

(** C20: Every connection is served to its end.  Provided the registered objects do
    not panic and keep the well-formedness of their state, then whatever bytes,
    deadlines and closes a peer produces, and whichever writes fail, the command
    loop of an EtherNet/IP connection returns without a panic of its own and leaves
    the objects' state well formed. *)
Theorem eip_connection_total write_fails evs cs sh :
  Forall rx_ok evs -> inv (world sh) ->
  exists cs' sh',
    HandleConn router identity write_fails (conn_fuel evs) evs cs sh = Some (Return, cs', sh') /\
    inv (world sh').
Proof. intros Hevs Hw. apply (HandleConn_total inv); [done| |done|done]. unfold conn_fuel. lia. Qed.

Lemma refused_session command session data handle sh :
  command = Cmd.SendRRData \/ command = Cmd.SendUnitData ->
  session <> handle \/ handle = 0 ->
  handle_command router identity command session data handle sh =
    (Reply [] Encap.StatusInvalidSessionHandle session, handle, sh).
Proof.
  intros Hc Hs.
  assert (negb (session =? handle) || (handle =? 0) = true) as E.
  { destruct Hs as [Hs| ->]; [|by rewrite orb_true_r].
    by rewrite (proj2 (Z.eqb_neq _ _) Hs). }
  destruct sh as [n w].
  destruct Hc as [-> | ->]; cbn -[handleSendRRData handleSendUnitData];
    unfold cip_command; by rewrite E.
Qed.

(** C13: Sessions are isolated.  In every run of the server (fewer than 2^32
    steps, so that the counter does not wrap), two connections never hold the
    same session handle; a CIP command that does not carry the handle of the
    connection it arrives on, or arrives before registration, is answered with
    status 0x64 and reaches no object; and each connection is reported to the
    hooks as connected once while it lives and as disconnected once after. *)
Theorem session_isolation write_fails maxClients evs w :
  inv w -> len evs < 4294967296 ->
  let s := sys_run router identity write_fails maxClients evs w in
  (forall k1 k2 c1 c2, clients s !! k1 = Some c1 -> clients s !! k2 = Some c2 ->
     sessionHandle c1 = sessionHandle c2 -> sessionHandle c1 = 0 \/ k1 = k2) /\
  (forall k cs command session ctx data, clients s !! k = Some cs ->
     command = Cmd.SendRRData \/ command = Cmd.SendUnitData ->
     session <> sessionHandle cs \/ sessionHandle cs = 0 ->
     handle_command router identity command session data (sessionHandle cs) (sys_shared s) =
       (Reply [] Encap.StatusInvalidSessionHandle session, sessionHandle cs, sys_shared s) /\
     sys_shared (sys_step router identity write_fails maxClients s
                   (Command k command session ctx data)) = sys_shared s) /\
  (forall k cs, clients s !! k = Some cs -> hooks_of k s = [OnConnect k]) /\
  (forall k, clients s !! k = None ->
     hooks_of k s = [] \/ exists h, hooks_of k s = [OnConnect k; OnDisconnect k h]).
Proof.
  intros Hw Hn s.
  assert (sys_inv inv (len evs) s) as I.
  { apply (sys_run_inv router identity write_fails maxClients inv Hrouter evs 0); [|lia].
    by apply new_sys_inv. }
  split; [apply (si_distinct _ _ _ I)|]. split; [|split; [apply (si_live _ _ _ I)|apply (si_gone _ _ _ I)]].
  intros k cs command session ctx data Hk Hc Hs.
  pose proof (refused_session command session data (sessionHandle cs) (sys_shared s) Hc Hs) as E.
  split; [done|]. simpl. rewrite Hk. unfold process_command. rewrite E.
  destruct (send_reply _ _ _ _ _ _ _) as [v cs']. by destruct v.
Qed.
End Properties.

(** The client limit can be exceeded.  [acceptLoop] compares the number of
    entered client records with the limit, and the record of an accepted
    connection is entered later, by its own goroutine: with a limit of one
    client, two connections accepted before the first goroutine runs are both
    served. *)
Theorem client_limit_exceeded {W} (router : MessageRouter W) identity write_fails w :
  size (clients (sys_run router identity write_fails 1
                   [Accept 0; Accept 1; Enter 0; Enter 1] w)) = 2%nat.
Proof. reflexivity. Qed.

(** ** Witnesses *)

(** A router without objects is safe for every invariant. *)
Lemma empty_router_safe {W} (inv : W -> Prop) : router_safe inv NewMessageRouter.
Proof. split; [apply map_Forall_empty|done]. Qed.

Definition no_identity : ListIdentityItem :=
  mkIdentity ItemIDListIdentity 34 1 (replicate 16 0) 0 0 0 [1; 0] 0 0 [] 0.

Definition two_sessions : list sevent :=
  [Accept 0; Accept 1; Enter 0; Enter 1;
   Command 0 Cmd.RegisterSession 0 (replicate 8 0) [1; 0; 0; 0];
   Command 1 Cmd.RegisterSession 0 (replicate 8 0) [1; 0; 0; 0]].

Lemma session_isolation_witness :
  let s := sys_run NewMessageRouter no_identity (fun _ _ => false) 0 two_sessions tt in
  sessionHandle <$> clients s !! 0%nat = Some 1 /\ sessionHandle <$> clients s !! 1%nat = Some 2 /\
  (forall k1 k2 c1 c2, clients s !! k1 = Some c1 -> clients s !! k2 = Some c2 ->
     sessionHandle c1 = sessionHandle c2 -> sessionHandle c1 = 0 \/ k1 = k2).
Proof.
  split; [reflexivity|]. split; [reflexivity|].
  apply (session_isolation (fun _ => True)); [apply empty_router_safe|done|reflexivity].
Defined.
