(* ===== verification/EipLife.v ===== *)
(** * The life cycle of the EtherNet/IP server

    Models [Start], [Stop] and the accept loop of [protocol/ethernetip/server.go]
    with the goroutines of connections; what a command is answered is the subject
    of [EipServer] and here only that it is read and handled.  [Start] and [Stop]
    take no lock, so any number of them run at once, each a sequence of steps
    between which the other goroutines run; the table of clients is accessed under
    [clientsMu], one step an access.  Sockets, listeners, [done] channels and
    goroutines are numbered.  A step that is not possible is [None]. *)
From S2P Require Import Prelude.

(** Where an accept loop is. *)
Inductive lpc : Type :=
| LAccept                (** in [Accept] *)
| LFailed                (** [Accept] failed *)
| LGot (c : nat).        (** accepted, before the limit is checked *)
(** Where the goroutine of a connection is. *)
Inductive hpc : Type :=
| HNew                   (** before its record is entered *)
| HCheck                 (** at the select on [done] *)
| HReading               (** reading a packet *)
| HHandling              (** with a packet in hand *)
| HLeave                 (** before its record is deleted *)
| HClose.                (** before it closes the connection *)
(** Where a call of [Stop] is; [d] is the channel it has closed. *)
Inductive spc : Type :=
| SClose                 (** past the select *)
| SListener (d : nat)
| SClients (d : nat)
| SInjected (d : nat).

Record Server : Type := mkServer {
  maxClients : Z;
  done : option nat;
  closed_chans : gset nat;
  ln : option nat;
  closed_lns : gset nat;
  injectedConn : option nat;
  clients : gset nat;
  next : nat;                       (** the next number *)
  loops : gmap nat lpc;
  handlers : gmap nat (nat * hpc);  (** connection and position, by goroutine *)
  starts : gset nat;                (** calls of [Start] that are about to listen *)
  stops : gmap nat spc;
  open_conns : gset nat;
  handled : list nat                (** connections in the order their packets were handled *)
}.

(** With an injected connection (number 0) or a listener (number 1), when the
    options supply one. *)
Definition NewServer (max : Z) (injected given : bool) : Server :=
  mkServer max None ∅ (if given then Some 1%nat else None) ∅ (if injected then Some 0%nat else None)
    ∅ 2 ∅ ∅ ∅ ∅ (if injected then {[0%nat]} else ∅) [].

Definition set_loop (l : nat) (p : option lpc) (s : Server) : Server :=
  mkServer (maxClients s) (done s) (closed_chans s) (ln s) (closed_lns s) (injectedConn s) (clients s)
    (next s) (match p with Some p => <[l := p]> (loops s) | None => delete l (loops s) end)
    (handlers s) (starts s) (stops s) (open_conns s) (handled s).
Definition set_handler (g : nat) (h : option (nat * hpc)) (s : Server) : Server :=
  mkServer (maxClients s) (done s) (closed_chans s) (ln s) (closed_lns s) (injectedConn s) (clients s)
    (next s) (loops s) (match h with Some h => <[g := h]> (handlers s) | None => delete g (handlers s) end)
    (starts s) (stops s) (open_conns s) (handled s).
Definition set_stop (k : nat) (p : option spc) (s : Server) : Server :=
  mkServer (maxClients s) (done s) (closed_chans s) (ln s) (closed_lns s) (injectedConn s) (clients s)
    (next s) (loops s) (handlers s) (starts s)
    (match p with Some p => <[k := p]> (stops s) | None => delete k (stops s) end)
    (open_conns s) (handled s).
Definition set_clients (c : gset nat) (s : Server) : Server :=
  mkServer (maxClients s) (done s) (closed_chans s) (ln s) (closed_lns s) (injectedConn s) c
    (next s) (loops s) (handlers s) (starts s) (stops s) (open_conns s) (handled s).
Definition set_open (o : gset nat) (s : Server) : Server :=
  mkServer (maxClients s) (done s) (closed_chans s) (ln s) (closed_lns s) (injectedConn s) (clients s)
    (next s) (loops s) (handlers s) (starts s) (stops s) o (handled s).
Definition set_next (n : nat) (s : Server) : Server :=
  mkServer (maxClients s) (done s) (closed_chans s) (ln s) (closed_lns s) (injectedConn s) (clients s)
    n (loops s) (handlers s) (starts s) (stops s) (open_conns s) (handled s).
Definition set_done (d : nat) (s : Server) : Server :=
  mkServer (maxClients s) (Some d) (closed_chans s) (ln s) (closed_lns s) (injectedConn s) (clients s)
    (next s) (loops s) (handlers s) (starts s) (stops s) (open_conns s) (handled s).
Definition close_done (d : nat) (s : Server) : Server :=
  mkServer (maxClients s) (done s) ({[d]} ∪ closed_chans s) (ln s) (closed_lns s) (injectedConn s)
    (clients s) (next s) (loops s) (handlers s) (starts s) (stops s) (open_conns s) (handled s).
Definition set_ln (l : option nat) (closed : gset nat) (s : Server) : Server :=
  mkServer (maxClients s) (done s) (closed_chans s) l closed (injectedConn s) (clients s)
    (next s) (loops s) (handlers s) (starts s) (stops s) (open_conns s) (handled s).
Definition set_starts (k : gset nat) (s : Server) : Server :=
  mkServer (maxClients s) (done s) (closed_chans s) (ln s) (closed_lns s) (injectedConn s) (clients s)
    (next s) (loops s) (handlers s) k (stops s) (open_conns s) (handled s).
Definition log_handled (c : nat) (s : Server) : Server :=
  mkServer (maxClients s) (done s) (closed_chans s) (ln s) (closed_lns s) (injectedConn s) (clients s)
    (next s) (loops s) (handlers s) (starts s) (stops s) (open_conns s) (handled s ++ [c]).

(** [<-s.done] is ready; a nil channel never is. *)
Definition is_done (s : Server) : bool :=
  match done s with Some d => bool_decide (d ∈ closed_chans s) | None => false end.
Definition listening (s : Server) : bool :=
  match ln s with Some l => negb (bool_decide (l ∈ closed_lns s)) | None => false end.

(** ** Start and Stop *)

(** [Start] sets the channel, and then starts its goroutine or listens; [listen]
    says whether [net.Listen] succeeds. *)
Definition Start (s : Server) : Server :=
  let s := set_next (S (next s)) (set_done (next s) s) in
  set_starts ({[next s]} ∪ starts s) (set_next (S (next s)) s).
Definition start_go (k : nat) (listen : bool) (s : Server) : outcome unit * Server :=
  let s := set_starts (starts s ∖ {[k]}) s in
  let g := next s in
  match injectedConn s with
  | Some c => (Ok tt, set_handler g (Some (c, HNew)) (set_next (S g) s))
  | None =>
      match ln s with
      | Some _ => (Ok tt, set_loop g (Some LAccept) (set_next (S g) s))
      | None =>
          if listen then
            (Ok tt, set_loop (S g) (Some LAccept) (set_ln (Some g) (closed_lns s) (set_next (S (S g)) s)))
          else (Err (Errorf "listen"), s)
      end
  end.

Definition close_injected (s : Server) : Server :=
  match injectedConn s with Some c => set_open (open_conns s ∖ {[c]}) s | None => s end.
(** The next step of a call of [Stop] that is past the select. *)
Definition stop_step (k : nat) (p : spc) (s : Server) : outcome Server :=
  match p with
  | SClose =>
      match done s with
      | None => Panic
      | Some d => if is_done s then Panic else Ok (set_stop k (Some (SListener d)) (close_done d s))
      end
  | SListener d =>
      Ok (set_stop k (Some (SClients d))
        (match ln s with Some l => set_ln (Some l) ({[l]} ∪ closed_lns s) s | None => s end))
  | SClients d => Ok (set_stop k (Some (SInjected d)) (set_open (open_conns s ∖ clients s) s))
  | SInjected d => Ok (set_stop k None (close_injected s))
  end.
Definition Stop (s : Server) : Server :=
  if is_done s then s else set_stop (next s) (Some SClose) (set_next (S (next s)) s).

(** ** Goroutines *)
Definition loop_step (l : nat) (p : lpc) (s : Server) : option Server :=
  match p with
  | LAccept => None
  | LFailed => Some (set_loop l (if is_done s then None else Some LAccept) s)
  | LGot c =>
      if (0 <? maxClients s) && (maxClients s <=? Z.of_nat (size (clients s)))
      then Some (set_loop l (Some LAccept) (set_open (open_conns s ∖ {[c]}) s))
      else Some (set_loop l (Some LAccept)
        (set_handler (next s) (Some (c, HNew)) (set_next (S (next s)) s)))
  end.
Definition accept (l : nat) (s : Server) : Server :=
  set_loop l (Some (LGot (next s))) (set_open ({[next s]} ∪ open_conns s) (set_next (S (next s)) s)).

(** The goroutine of a connection, but for reading. *)
Definition handler_step (g c : nat) (p : hpc) (s : Server) : option Server :=
  match p with
  | HNew => Some (set_handler g (Some (c, HCheck)) (set_clients ({[c]} ∪ clients s) s))
  | HCheck => Some (set_handler g (Some (c, if is_done s then HLeave else HReading)) s)
  | HReading => None
  | HHandling => Some (set_handler g (Some (c, HCheck)) (log_handled c s))
  | HLeave => Some (set_handler g (Some (c, HClose)) (set_clients (clients s ∖ {[c]}) s))
  | HClose => Some (set_handler g None (set_open (open_conns s ∖ {[c]}) s))
  end.

Inductive act : Type :=
| AStart
| StartGo (k : nat) (listen : bool)
| AStop
| SGo (k : nat)
| LGo (l : nat)
| LAccepted (l : nat)
| LError (l : nat)
| HGo (g : nat)
| HRead (g : nat)      (** a packet arrives *)
| HFail (g : nat).     (** the read, the packet or the reply fails *)

Definition step (a : act) (s : Server) : option (outcome Server) :=
  match a with
  | AStart => Some (Ok (Start s))
  | StartGo k listen => if decide (k ∈ starts s) then Some (Ok (start_go k listen s).2) else None
  | AStop => Some (Ok (Stop s))
  | SGo k => p ← stops s !! k; Some (stop_step k p s)
  | LGo l => p ← loops s !! l; s' ← loop_step l p s; Some (Ok s')
  | LAccepted l =>
      p ← loops s !! l;
      match p with
      | LAccept => if listening s then Some (Ok (accept l s)) else None
      | _ => None
      end
  | LError l =>
      p ← loops s !! l;
      match p with LAccept => Some (Ok (set_loop l (Some LFailed) s)) | _ => None end
  | HGo g => h ← handlers s !! g; s' ← handler_step g h.1 h.2 s; Some (Ok s')
  | HRead g =>
      h ← handlers s !! g;
      match h.2 with
      | HReading =>
          if decide (h.1 ∈ open_conns s) then Some (Ok (set_handler g (Some (h.1, HHandling)) s)) else None
      | _ => None
      end
  | HFail g =>
      h ← handlers s !! g;
      match h.2 with
      | HReading | HHandling => Some (Ok (set_handler g (Some (h.1, HLeave)) s))
      | _ => None
      end
  end.

Inductive reach (s0 : Server) : Server -> Prop :=
| reach_new : reach s0 s0
| reach_step a s s' : reach s0 s -> step a s = Some (Ok s') -> reach s0 s'.
Fixpoint exec (acts : list act) (s : Server) : option Server :=
  match acts with
  | [] => Some s
  | a :: acts => match step a s with Some (Ok s) => exec acts s | _ => None end
  end.

(** ** The invariant *)

(** The record of the goroutine's connection has been entered. *)
Definition entered (p : hpc) : bool :=
  match p with HCheck | HReading | HHandling => true | _ => false end.
(** The channel a call of [Stop] has closed. *)
Definition stopped_chan (p : spc) : option nat :=
  match p with SClose => None | SListener d | SClients d | SInjected d => Some d end.
Definition owned (c : nat) (s : Server) : Prop :=
  injectedConn s = Some c \/ (exists l, loops s !! l = Some (LGot c)) \/
  (exists g p, handlers s !! g = Some (c, p)).

Record einv (s : Server) : Prop := {
  ei_next : (forall l p, loops s !! l = Some p -> (l < next s)%nat) /\
    (forall g c p, handlers s !! g = Some (c, p) -> (g < next s)%nat /\ (c < next s)%nat) /\
    (forall c, c ∈ open_conns s -> (c < next s)%nat) /\ (forall c, injectedConn s = Some c -> (c < next s)%nat) /\
    (forall d, d ∈ closed_chans s -> (d < next s)%nat) /\ (forall d, done s = Some d -> (d < next s)%nat);
  ei_loop : forall l c, loops s !! l = Some (LGot c) ->
    (c < next s)%nat /\ injectedConn s <> Some c /\ (forall g p, handlers s !! g <> Some (c, p)) /\
    (forall l', loops s !! l' = Some (LGot c) -> l' = l);
  ei_unique : forall g g' c p p', handlers s !! g = Some (c, p) -> handlers s !! g' = Some (c, p') ->
    g' = g \/ injectedConn s = Some c;
  ei_entered : forall g c p, handlers s !! g = Some (c, p) -> entered p = true ->
    c ∈ clients s \/ injectedConn s = Some c;
  ei_owned : forall c, c ∈ open_conns s -> owned c s;
  ei_closed : forall k p d, stops s !! k = Some p -> stopped_chan p = Some d -> d ∈ closed_chans s;
  ei_swept : forall k d, stops s !! k = Some (SInjected d) -> done s = Some d ->
    forall g c, handlers s !! g = Some (c, HReading) -> c ∉ open_conns s \/ injectedConn s = Some c
}.

Lemma new_einv max injected given : einv (NewServer max injected given).
Proof. destruct injected; split; cbn; unfold owned; cbn; try done; try set_solver; split_and!; set_solver by lia. Qed.

(** Closing connections. *)
Lemma set_open_einv X s : einv s -> einv (set_open (open_conns s ∖ X) s).
Proof.
  intros []. split; cbn; try done; [set_solver|set_solver|].
  intros k d H1 H2 g c H3. destruct (ei_swept0 k d H1 H2 g c H3); [left|by right]. set_solver.
Qed.
Lemma set_next_einv n s : (next s <= n)%nat -> einv s -> einv (set_next n s).
Proof.
  intros Hn []. destruct ei_next0 as (N1 & N2 & N3 & N4 & N5 & N6). split; cbn; try done.
  - split_and!.
    + intros l p H. specialize (N1 l p H). lia.
    + intros g c p H. specialize (N2 g c p H). lia.
    + intros c H. specialize (N3 c H). lia.
    + intros c H. specialize (N4 c H). lia.
    + intros d H. specialize (N5 d H). lia.
    + intros d H. specialize (N6 d H). lia.
  - intros l c H. destruct (ei_loop0 l c H) as (A & B). split; [lia|done].
Qed.
Lemma set_clients_einv X s :
  einv s -> (forall g c p, handlers s !! g = Some (c, p) -> entered p = true ->
    c ∈ clients s -> c ∈ X \/ injectedConn s = Some c) -> einv (set_clients X s).
Proof. intros [] HX. split; cbn; try done. intros g c p H1 H2. destruct (ei_entered0 g c p H1 H2); eauto. Qed.
Lemma log_einv c s : einv s -> einv (log_handled c s).
Proof. intros []. by split. Qed.
Lemma set_starts_einv k s : einv s -> einv (set_starts k s).
Proof. intros []. by split. Qed.
Lemma set_ln_einv l m s : einv s -> einv (set_ln l m s).
Proof. intros []. by split. Qed.

(** The goroutine of a connection moves on. *)
Lemma handler_lookup g o s g' h :
  handlers (set_handler g o s) !! g' = Some h <->
  (g' = g /\ o = Some h) \/ (g' <> g /\ handlers s !! g' = Some h).
Proof.
  destruct o as [p|]; cbn; [rewrite lookup_insert_Some|rewrite lookup_delete_Some]; naive_solver.
Qed.
Lemma move_einv g c p p' s :
  einv s -> handlers s !! g = Some (c, p) ->
  (entered p' = true -> entered p = true \/ c ∈ clients s) ->
  (p' = HReading -> p = HReading \/ is_done s = false) ->
  einv (set_handler g (Some (c, p')) s).
Proof.
  intros [] Hg He Hr. destruct ei_next0 as (N1 & N2 & N3 & N4 & N5 & N6).
  assert (forall g' c' q, handlers (set_handler g (Some (c, p')) s) !! g' = Some (c', q) ->
    exists q', handlers s !! g' = Some (c', q')) as Hback.
  { intros g' c' q [[-> [= <- <-]]|[_ H]]%handler_lookup; eauto. }
  split; try done.
  - split_and!; try done. intros g' c' q (q' & H)%Hback. by apply (N2 g' c' q').
  - intros l c' H. destruct (ei_loop0 l c' H) as (A & B & C & D). split_and!; try done.
    intros g' q (q' & H')%Hback. by eapply C.
  - intros g1 g2 c' q q' (q1 & H1)%Hback (q2 & H2)%Hback. by eapply ei_unique0.
  - intros g' c' q [[-> [= <- <-]]|[_ H]]%handler_lookup E; [|by eapply ei_entered0].
    destruct (He E); [by eapply ei_entered0|by left].
  - intros c' Hc. destruct (ei_owned0 c' Hc) as [H|[H|(g' & q & H)]]; [by left|by right; left|].
    right; right. destruct (decide (g' = g)) as [->|Hne].
    + simplify_eq. exists g, p'. apply handler_lookup. by left.
    + exists g', q. apply handler_lookup. by right.
  - intros k d H1 H2 g' c' [[-> [= <- ->]]|[_ H]]%handler_lookup; [|by eapply ei_swept0].
    destruct (Hr eq_refl) as [->|Hd]; [by eapply (ei_swept0 k d)|]. exfalso.
    cbn in H1, H2. unfold is_done in Hd. rewrite H2 in Hd.
    apply bool_decide_eq_false in Hd. by apply Hd, (ei_closed0 k (SInjected d)).
Qed.
Lemma end_einv g c p s :
  einv s -> handlers s !! g = Some (c, p) -> c ∉ open_conns s -> einv (set_handler g None s).
Proof.
  intros [] Hg Hc. destruct ei_next0 as (N1 & N2 & N3 & N4 & N5 & N6).
  assert (forall g' h, handlers (set_handler g None s) !! g' = Some h -> handlers s !! g' = Some h) as Hback.
  { intros g' h [[_ [=]]|[_ H]]%handler_lookup. done. }
  split; try done.
  - split_and!; try done. intros g' c' q H%Hback. by apply (N2 g' c' q).
  - intros l c' H. destruct (ei_loop0 l c' H) as (A & B & C & D). split_and!; try done.
    intros g' q H'%Hback. by eapply C.
  - intros g1 g2 c' q q' H1%Hback H2%Hback. by eapply ei_unique0.
  - intros g' c' q H%Hback E. by eapply ei_entered0.
  - intros c' Hc'. destruct (ei_owned0 c' Hc') as [H|[H|(g' & q & H)]]; [by left|by right; left|].
    right; right. exists g', q. apply handler_lookup. right. split; [|done]. intros ->. by simplify_eq.
  - intros k d H1 H2 g' c' H%Hback. by eapply ei_swept0.
Qed.

(** A goroutine for a connection that nobody else has. *)
Lemma spawn_einv g c s :
  einv s -> handlers s !! g = None -> (g < next s)%nat -> (c < next s)%nat ->
  (forall l, loops s !! l <> Some (LGot c)) ->
  (injectedConn s = Some c \/ forall g' p, handlers s !! g' <> Some (c, p)) ->
  einv (set_handler g (Some (c, HNew)) s).
Proof.
  intros [] Hg Hlt Hc Hl Hh. destruct ei_next0 as (N1 & N2 & N3 & N4 & N5 & N6). split; try done.
  - split_and!; try done. intros g' c' q [[-> [= <- <-]]|[_ H]]%handler_lookup; [done|by eapply N2].
  - intros l c' H. destruct (ei_loop0 l c' H) as (A & B & C & D). split_and!; try done.
    intros g' q [[-> [= <- <-]]|[_ H']]%handler_lookup; [by eapply Hl|by eapply C].
  - intros g1 g2 c' q q' H1 H2. apply handler_lookup in H1 as [[-> E1]|[_ H1]], H2 as [[-> E2]|[_ H2]];
      simplify_eq; [by left| | |by eapply ei_unique0].
    + destruct Hh as [|Hh]; [by right|]. by destruct (Hh g2 q').
    + destruct Hh as [|Hh]; [by right|]. by destruct (Hh g1 q).
  - intros g' c' q [[-> [= <- <-]]|[_ H]]%handler_lookup E; [done|by eapply ei_entered0].
  - intros c' Hc'. destruct (ei_owned0 c' Hc') as [H|[H|(g' & q & H)]]; [by left|by right; left|].
    right; right. exists g', q. apply handler_lookup. right. split; [|done]. intros ->. congruence.
  - intros k d H1 H2 g' c' [[-> [=]]|[_ H]]%handler_lookup. by eapply ei_swept0.
Qed.

(** A connection becomes open. *)
Lemma add_open_einv c s :
  einv s -> (c < next s)%nat -> owned c s -> (forall g, handlers s !! g <> Some (c, HReading)) ->
  einv (set_open ({[c]} ∪ open_conns s) s).
Proof.
  intros [] Hlt Ho Hr. destruct ei_next0 as (N1 & N2 & N3 & N4 & N5 & N6). split; try done.
  - split_and!; try done. set_solver.
  - set_solver.
  - intros k d H1 H2 g c' H3. destruct (ei_swept0 k d H1 H2 g c' H3); [|by right]. left. cbn.
    assert (c' <> c) by (intros ->; by eapply Hr). set_solver.
Qed.

(** An accept loop moves on, and takes or drops a connection. *)
Lemma loop_lookup l o s l' p :
  loops (set_loop l o s) !! l' = Some p <-> (l' = l /\ o = Some p) \/ (l' <> l /\ loops s !! l' = Some p).
Proof. destruct o; cbn; [rewrite lookup_insert_Some|rewrite lookup_delete_Some]; naive_solver. Qed.
Lemma loop_einv l o s :
  einv s -> (l < next s)%nat -> (forall c, loops s !! l = Some (LGot c) -> c ∉ open_conns s) ->
  (forall c, o = Some (LGot c) -> (c < next s)%nat /\ ~ owned c s) -> einv (set_loop l o s).
Proof.
  intros [] Hl Hdrop Htake. destruct ei_next0 as (N1 & N2 & N3 & N4 & N5 & N6). split; try done.
  - split_and!; try done. intros l' p [[-> _]|[_ H]]%loop_lookup; [done|by eapply N1].
  - intros l' c [[-> Ho]|[Hne H]]%loop_lookup.
    + destruct (Htake c Ho) as [A Hn]. split_and!; try done.
      * intros H. apply Hn. by left.
      * intros g p H. apply Hn. right; right. by exists g, p.
      * intros l2 [[-> _]|[_ H]]%loop_lookup; [done|]. destruct Hn. right; left. by exists l2.
    + destruct (ei_loop0 l' c H) as (A & B & C & D). split_and!; try done.
      intros l2 [[-> Ho]|[_ H2]]%loop_lookup; [|by apply D].
      destruct (Htake c Ho) as [_ []]. right; left. by exists l'.
  - intros c Hc. destruct (ei_owned0 c Hc) as [H|[(l' & H)|H]]; [by left| |by right; right].
    right; left. exists l'. apply loop_lookup. right. split; [|done]. intros ->. by eapply Hdrop.
Qed.

(** A call of [Stop] moves on. *)
Lemma stop_lookup k o s k' p :
  stops (set_stop k o s) !! k' = Some p <-> (k' = k /\ o = Some p) \/ (k' <> k /\ stops s !! k' = Some p).
Proof. destruct o; cbn; [rewrite lookup_insert_Some|rewrite lookup_delete_Some]; naive_solver. Qed.
Lemma stop_einv k o s :
  einv s -> (forall p d, o = Some p -> stopped_chan p = Some d -> d ∈ closed_chans s) ->
  (forall d, o = Some (SInjected d) -> done s = Some d -> forall g c, handlers s !! g = Some (c, HReading) ->
    c ∉ open_conns s \/ injectedConn s = Some c) -> einv (set_stop k o s).
Proof.
  intros [] Hd Hs. split; try done.
  - intros k' p d [[-> ->]|[_ H]]%stop_lookup E; [by eapply Hd|by eapply ei_closed0].
  - intros k' d [[-> ->]|[_ H]]%stop_lookup Ed; [by apply (Hs d)|by eapply ei_swept0].
Qed.
Lemma close_done_einv d s : einv s -> (d < next s)%nat -> einv (close_done d s).
Proof.
  intros [] Hd. destruct ei_next0 as (N1 & N2 & N3 & N4 & N5 & N6). split; try done; cbn.
  - split_and!; try done. set_solver.
  - intros k p d' H1 H2. apply elem_of_union_r. by eapply ei_closed0.
Qed.
Lemma set_done_einv d s : einv s -> d ∉ closed_chans s -> (d < next s)%nat -> einv (set_done d s).
Proof.
  intros [] Hd Hlt. destruct ei_next0 as (N1 & N2 & N3 & N4 & N5 & N6). split; try done; cbn.
  { split_and!; try done. by intros ? [= <-]. }
  intros k d' H1 [= <-]. exfalso. by apply Hd, (ei_closed0 k (SInjected d)).
Qed.

Lemma free_number s : einv s -> handlers s !! next s = None /\ loops s !! next s = None.
Proof.
  intros I. destruct (ei_next _ I) as (N1 & N2 & _). split.
  - destruct (handlers s !! next s) as [[c p]|] eqn:E; [|done]. destruct (N2 _ _ _ E). lia.
  - destruct (loops s !! next s) as [p|] eqn:E; [|done]. specialize (N1 _ _ E). lia.
Qed.
Lemma loop_number l p s : einv s -> loops s !! l = Some p -> (l < next s)%nat.
Proof. intros I. apply (ei_next _ I). Qed.

Lemma Start_einv s : einv s -> einv (Start s).
Proof.
  intros I. unfold Start. apply set_starts_einv, set_next_einv; [cbn; lia|].
  change (einv (set_done (next s) (set_next (S (next s)) s))).
  apply set_done_einv; [apply set_next_einv; [lia|done]| |cbn; lia].
  cbn. intros H. destruct (ei_next _ I) as (_ & _ & _ & _ & N5 & _). specialize (N5 _ H). lia.
Qed.
Lemma start_go_einv k listen s : einv s -> einv (start_go k listen s).2.
Proof.
  intros I0. unfold start_go. set (s1 := set_starts _ s).
  assert (einv s1) as I by by apply set_starts_einv. clearbody s1. clear s I0.
  destruct (ei_next _ I) as (_ & _ & _ & N4 & _). destruct (free_number _ I) as [F1 F2].
  destruct (injectedConn s1) as [c|] eqn:Ei; cbn [snd].
  - apply spawn_einv; [apply set_next_einv; [lia|done]|done|cbn; lia|specialize (N4 c eq_refl); cbn; lia| |by left].
    intros l Hl. by destruct (ei_loop _ I l c Hl) as (_ & [] & _).
  - destruct (ln s1); cbn [snd].
    + apply loop_einv; [apply set_next_einv; [lia|done]|cbn; lia| |done]. cbn. intros c. congruence.
    + destruct listen; cbn [snd]; [|done].
      apply loop_einv; [apply set_ln_einv, set_next_einv; [lia|done]|cbn; lia| |done].
      cbn. intros c H. assert (S (next s1) < next s1)%nat by (by apply (loop_number _ (LGot c))). lia.
Qed.
Lemma Stop_einv s : einv s -> einv (Stop s).
Proof.
  intros I. unfold Stop. destruct (is_done s); [done|].
  apply stop_einv; [apply set_next_einv; [lia|done]|by intros p d [= <-]|done].
Qed.
Lemma close_injected_einv s : einv s -> einv (close_injected s).
Proof. intros I. unfold close_injected. destruct (injectedConn s); [by apply set_open_einv|done]. Qed.

(** [Stop] panics when the channel is nil or another call closed it since. *)
Lemma stop_step_einv k p s :
  einv s -> stops s !! k = Some p ->
  match stop_step k p s with
  | Ok s' => einv s'
  | Panic => p = SClose /\ (done s = None \/ is_done s = true)
  | Err _ => False
  end.
Proof.
  intros I Hk. destruct p as [|d|d|d]; cbn [stop_step].
  - destruct (done s) as [d|] eqn:Ed; [|auto]. destruct (is_done s) eqn:Ei; [auto|].
    apply stop_einv; [apply close_done_einv; [done|by apply (ei_next _ I)]| |done].
    intros p d' [= <-] [= <-]. cbn. set_solver.
  - assert (d ∈ closed_chans s) as Hd by (by apply (ei_closed _ I k (SListener d))).
    destruct (ln s); (apply stop_einv; [try apply set_ln_einv; done|by intros p d' [= <-] [= <-]|done]).
  - assert (d ∈ closed_chans s) as Hd by (by apply (ei_closed _ I k (SClients d))).
    apply stop_einv; [by apply set_open_einv|by intros p d' [= <-] [= <-]|].
    intros d' [= <-] _ g c Hg. destruct (ei_entered _ I g c HReading Hg eq_refl); [left; cbn; set_solver|by right].
  - apply stop_einv; [by apply close_injected_einv|done|done].
Qed.

Lemma accept_einv l s : einv s -> loops s !! l = Some LAccept -> einv (accept l s).
Proof.
  intros I Hl. pose proof (loop_number _ _ _ I Hl) as Hlt.
  destruct (ei_next _ I) as (_ & N2 & _ & N4 & _).
  set (c := next s). set (s1 := set_loop l (Some (LGot c)) (set_next (S c) s)).
  change (einv (set_open ({[c]} ∪ open_conns s1) s1)). apply add_open_einv.
  - apply loop_einv; [apply set_next_einv; [unfold c; lia|done]|cbn; unfold c; lia|cbn; congruence|].
    intros c' [= <-]. split; [cbn; lia|]. intros [H|[(l' & H)|(g & p & H)]]; cbn in H.
    + specialize (N4 c H). unfold c in *. lia.
    + destruct (ei_loop _ I l' c H) as [H' _]. unfold c in *. lia.
    + destruct (N2 g c p H). unfold c in *. lia.
  - cbn. lia.
  - right; left. exists l. apply loop_lookup. by left.
  - intros g H. destruct (N2 g c HReading H). unfold c in *. lia.
Qed.

Lemma loop_step_einv l p s s' :
  einv s -> loops s !! l = Some p -> loop_step l p s = Some s' -> einv s'.
Proof.
  intros I Hl. pose proof (loop_number _ _ _ I Hl) as Hlt. destruct p as [| |c]; cbn [loop_step]; [done| |].
  - intros [= <-]. apply loop_einv; [done..|congruence|]. by destruct (is_done s).
  - destruct (_ && _); intros [= <-].
    + apply loop_einv; [by apply set_open_einv|done| |done]. cbn. intros c'. rewrite Hl. intros [= <-]. set_solver.
    + destruct (ei_loop _ I l c Hl) as (A & B & C & D). destruct (free_number _ I) as [F1 F2].
      set (g := next s). set (s0 := set_loop l (Some LAccept) (set_open (open_conns s ∖ {[c]}) (set_next (S g) s))).
      assert (einv s0) as I0.
      { apply loop_einv; [| |cbn; intros c'; rewrite Hl; intros [= <-]; set_solver|done].
        - by apply (set_open_einv {[c]} (set_next (S g) s)), set_next_einv; [unfold g; lia|].
        - cbn. unfold g. lia. }
      set (s1 := set_handler g (Some (c, HNew)) s0).
      assert (einv s1) as I1.
      { apply spawn_einv; [done|exact F1|cbn; lia|cbn; unfold g; lia| |right; exact C].
        intros l' [[-> [=]]|[Hne H]]%loop_lookup. by apply Hne, D. }
      destruct (decide (c ∈ open_conns s)) as [Hin|Hout].
      * assert (open_conns s = {[c]} ∪ open_conns s1) as Eo.
        { change (open_conns s1) with (open_conns s ∖ {[c]}). apply union_difference_L. set_solver. }
        assert (einv (set_open ({[c]} ∪ open_conns s1) s1)) as I2.
        { apply add_open_einv; [done|cbn; unfold g; lia| |].
          - right; right. exists g, HNew. apply handler_lookup. by left.
          - intros g' [[-> [=]]|[_ H]]%handler_lookup. by eapply C. }
        rewrite <-Eo in I2. exact I2.
      * assert (open_conns s1 = open_conns s) as Eo by (change (open_conns s1) with (open_conns s ∖ {[c]}); set_solver).
        assert (einv (set_open (open_conns s1) s1)) as I2 by (by destruct s1). rewrite Eo in I2. exact I2.
Qed.

Lemma handler_step_einv g c p s s' :
  einv s -> handlers s !! g = Some (c, p) -> handler_step g c p s = Some s' -> einv s'.
Proof.
  intros I Hg. destruct p; cbn [handler_step]; try done; intros [= <-].
  - apply (move_einv g c HNew); [|done| |done].
    + apply set_clients_einv; [done|]. intros. left. set_solver.
    + intros _. right. cbn. set_solver.
  - apply (move_einv g c HCheck); try done; destruct (is_done s); try done; auto.
  - apply (move_einv g c HHandling); try done; [by apply log_einv|by left].
  - change (einv (set_clients (clients s ∖ {[c]}) (set_handler g (Some (c, HClose)) s))).
    apply set_clients_einv; [by apply (move_einv g c HLeave)|].
    intros g' c' p [[-> [= <- <-]]|[Hne H]]%handler_lookup E Hc; [done|]. cbn in Hc |- *.
    destruct (decide (c' = c)) as [->|]; [|left; set_solver].
    destruct (ei_unique _ I g g' c HLeave p Hg H); [done|by right].
  - apply (end_einv g c HClose); [by apply set_open_einv|done|cbn; set_solver].
Qed.

(** The only panics: [Stop] of a server that was not started, and two calls of
    [Stop] that both passed the select. *)
Definition stop_misused (a : act) (s : Server) : Prop :=
  exists k, a = SGo k /\ stops s !! k = Some SClose /\ (done s = None \/ is_done s = true).
Lemma step_einv a s :
  einv s -> match step a s with Some (Ok s') => einv s' | Some Panic => stop_misused a s | _ => True end.
Proof.
  intros I. destruct a as [|k listen| |k|l|l|l|g|g|g]; cbn [step].
  - by apply Start_einv.
  - case_decide; [|done]. by apply start_go_einv.
  - by apply Stop_einv.
  - destruct (stops s !! k) as [p|] eqn:E; [|done]. cbn. pose proof (stop_step_einv k p s I E) as H.
    destruct (stop_step k p s); [done|done|]. destruct H as [-> H]. by exists k.
  - destruct (loops s !! l) as [p|] eqn:E; [|done]. cbn.
    destruct (loop_step l p s) as [s'|] eqn:Es; [|done]. by eapply loop_step_einv.
  - destruct (loops s !! l) as [p|] eqn:E; [|done]. cbn. destruct p; [|done..].
    destruct (listening s); [|done]. by apply accept_einv.
  - destruct (loops s !! l) as [p|] eqn:E; [|done]. cbn. destruct p; [|done..].
    apply loop_einv; [done|by eapply loop_number|congruence|done].
  - destruct (handlers s !! g) as [[c p]|] eqn:E; [|done]. cbn.
    destruct (handler_step g c p s) as [s'|] eqn:Es; [|done]. by eapply handler_step_einv.
  - destruct (handlers s !! g) as [[c p]|] eqn:E; [|done]. cbn. destruct p; try done.
    case_decide; [|done]. apply (move_einv g c HReading); auto.
  - destruct (handlers s !! g) as [[c p]|] eqn:E; [|done]. cbn. destruct p; try done; by eapply move_einv.
Qed.
Lemma reach_einv max injected given s : reach (NewServer max injected given) s -> einv s.
Proof.
  induction 1 as [|a s s' _ IH E]; [apply new_einv|]. pose proof (step_einv a s IH) as H. by rewrite E in H.
Qed.

(** ** After Stop *)

(** Nothing can be read or accepted. *)
Record settled (s : Server) : Prop := {
  st_done : is_done s = true;
  st_starts : starts s = ∅;
  st_ln : listening s = false;
  st_reading : forall g c, handlers s !! g = Some (c, HReading) -> c ∉ open_conns s;
  st_injected : forall c, injectedConn s = Some c -> c ∉ open_conns s
}.
Lemma stop_settles k d s s' :
  einv s -> stops s !! k = Some (SInjected d) -> done s = Some d -> starts s = ∅ -> listening s = false ->
  step (SGo k) s = Some (Ok s') -> settled s'.
Proof.
  intros I Hk Hd Hst Hln. cbn. rewrite Hk. cbn. intros [= <-].
  assert (is_done s = true) as Hdone.
  { unfold is_done. rewrite Hd. apply bool_decide_eq_true. by apply (ei_closed _ I k (SInjected d)). }
  pose proof (ei_swept _ I k d Hk Hd) as Hsw. unfold close_injected.
  destruct (injectedConn s) as [c0|] eqn:Ei; split; try done; cbn; rewrite ?Ei.
  - intros g c Hg. destruct (Hsw g c Hg) as [|[= ->]]; set_solver.
  - intros c [= ->]. set_solver.
  - intros g c Hg. by destruct (Hsw g c Hg).
  - done.
Qed.

Definition later (s s' : Server) : Prop := exists a, a <> AStart /\ step a s = Some (Ok s').
Lemma settled_step s s' : settled s -> later s s' -> settled s'.
Proof.
  intros [D St L R J] (a & Ha & E). destruct a as [|k listen| |k|l|l|l|g|g|g]; cbn [step] in E; try done.
  - rewrite St in E. case_decide; [set_solver|done].
  - unfold Stop in E. rewrite D in E. injection E as <-. by split.
  - destruct (stops s !! k) as [p|]; [|done]. cbn in E. destruct p as [|d|d|d]; cbn in E.
    + destruct (done s); [|done]. by rewrite D in E.
    + injection E as <-. destruct (ln s) as [n|] eqn:En; split; try done. unfold listening. cbn.
      rewrite bool_decide_eq_true_2; [done|set_solver].
    + injection E as <-. split; try done; cbn; intros; apply not_elem_of_difference; left; eauto.
    + injection E as <-. unfold close_injected. destruct (injectedConn s) as [c0|] eqn:Ei; split; try done; cbn.
      * intros g c Hg. apply not_elem_of_difference. left. eauto.
      * rewrite Ei. intros c [= <-]. set_solver.
      * by rewrite Ei.
  - destruct (loops s !! l) as [p|]; [|done]. cbn in E. destruct p as [| |c]; cbn in E; [done| |].
    + injection E as <-. by split.
    + destruct (_ && _); injection E as <-; split; try done; cbn.
      * intros g c' Hg. apply not_elem_of_difference. left. eauto.
      * intros c' Hc. apply not_elem_of_difference. left. eauto.
      * intros g c' [[_ [=]]|[_ Hg]]%lookup_insert_Some. eauto.
  - destruct (loops s !! l) as [p|]; [|done]. cbn in E. destruct p; [|done..]. by rewrite L in E.
  - destruct (loops s !! l) as [p|]; [|done]. cbn in E. destruct p; [|done..]. injection E as <-. by split.
  - destruct (handlers s !! g) as [[c p]|] eqn:Eg; [|done]. cbn in E.
    destruct p; cbn in E; try done; injection E as <-; split; try done; cbn.
    all: try (intros g' c' [[_ [=]]|[_ Hg]]%lookup_insert_Some; by eauto).
    + rewrite D. intros g' c' [[_ [=]]|[_ Hg]]%lookup_insert_Some. eauto.
    + intros g' c' [_ Hg]%lookup_delete_Some. apply not_elem_of_difference. left. eauto.
    + intros c' Hc. apply not_elem_of_difference. left. eauto.
  - destruct (handlers s !! g) as [[c p]|] eqn:Eg; [|done]. cbn in E. destruct p; try done.
    case_decide; [|done]. by destruct (R g c Eg).
  - destruct (handlers s !! g) as [[c p]|] eqn:Eg; [|done]. cbn in E.
    destruct p; try done; injection E as <-; split; try done; cbn;
      intros g' c' [[_ [=]]|[_ Hg]]%lookup_insert_Some; eauto.
Qed.

(** What the goroutines do of themselves: a read of a closed connection and an
    [Accept] on a closed listener fail. *)
Definition goroutine (a : act) : bool :=
  match a with LGo _ | LError _ | HGo _ | HFail _ => true | _ => false end.
Definition gstep (s s' : Server) : Prop := exists a, goroutine a = true /\ step a s = Some (Ok s').
Definition quiet (s : Server) : Prop := einv s /\ settled s.
Lemma quiet_rtc s s' : quiet s -> rtc gstep s s' -> quiet s'.
Proof.
  intros Q R. induction R as [s|s s1 s2 (a & Ha & E) _ IH]; [done|]. apply IH. destruct Q as [I Q]. split.
  - pose proof (step_einv a s I) as H. by rewrite E in H.
  - apply (settled_step s); [done|]. exists a. split; [by intros ->|done].
Qed.

(** The goroutine of a connection ends. *)
Lemma handler_move g c p s s' :
  handlers s !! g = Some (c, p) -> handler_step g c p s = Some s' -> gstep s s'.
Proof. intros Hg E. exists (HGo g). split; [done|]. cbn. rewrite Hg. cbn. by rewrite E. Qed.
Definition ends (g : nat) (s : Server) : Prop :=
  exists s', rtc gstep s s' /\ handlers s' = delete g (handlers s) /\ loops s' = loops s.
Lemma ends_step g h s s' :
  gstep s s' -> handlers s' = <[g := h]> (handlers s) -> loops s' = loops s -> ends g s' -> ends g s.
Proof.
  intros G Eh El (s2 & R & E1 & E2). exists s2. split; [by eapply rtc_l|]. rewrite E1, E2, Eh.
  split; [by rewrite delete_insert_eq|done].
Qed.
Lemma handler_ends g c p s : quiet s -> handlers s !! g = Some (c, p) -> ends g s.
Proof.
  intros Q Hg.
  assert (forall s, handlers s !! g = Some (c, HClose) -> ends g s) as HC.
  { intros s1 H. eexists. split; [apply rtc_once; by apply (handler_move g c HClose)|done]. }
  assert (forall s, handlers s !! g = Some (c, HLeave) -> ends g s) as HL.
  { intros s1 H. eapply ends_step; [by apply (handler_move g c HLeave)|done|done|].
    apply HC. cbn. by rewrite lookup_insert_eq. }
  assert (forall s, is_done s = true -> handlers s !! g = Some (c, HCheck) -> ends g s) as HK.
  { intros s1 D H. eapply ends_step; [by apply (handler_move g c HCheck)|done|done|].
    apply HL. cbn. by rewrite D, lookup_insert_eq. }
  pose proof (st_done _ (proj2 Q)) as D. destruct p.
  - eapply ends_step; [by apply (handler_move g c HNew)|done|done|].
    apply HK; [done|]. cbn. by rewrite lookup_insert_eq.
  - by apply HK.
  - eapply (ends_step g (c, HLeave) s (set_handler g (Some (c, HLeave)) s)); [|done|done|].
    + exists (HFail g). split; [done|]. cbn. by rewrite Hg.
    + apply HL. cbn. by rewrite lookup_insert_eq.
  - eapply ends_step; [by apply (handler_move g c HHandling)|done|done|].
    apply HK; [done|]. cbn. by rewrite lookup_insert_eq.
  - by apply HL.
  - by apply HC.
Qed.
Lemma handlers_end n s :
  size (handlers s) = n -> quiet s -> exists s', rtc gstep s s' /\ handlers s' = ∅ /\ loops s' = loops s.
Proof.
  revert s. induction n as [|n IH]; intros s Hn Q.
  { exists s. split; [done|]. split; [by apply map_size_empty_inv|done]. }
  destruct (map_choose (handlers s)) as (g & [c p] & Hg); [intros E; by rewrite E, map_size_empty in Hn|].
  destruct (handler_ends g c p s Q Hg) as (s1 & R1 & E1 & L1).
  destruct (IH s1) as (s2 & R2 & E2 & L2).
  - rewrite E1, map_size_delete_Some by (by eexists). lia.
  - by eapply quiet_rtc.
  - exists s2. split; [by etrans|]. split; [done|congruence].
Qed.

(** So do the accept loops. *)
Lemma loop_ends l p s :
  quiet s -> loops s !! l = Some p -> exists s', rtc gstep s s' /\ loops s' = delete l (loops s).
Proof.
  intros Q Hl. pose proof (st_done _ (proj2 Q)) as D.
  assert (forall s, is_done s = true -> loops s !! l = Some LFailed ->
    exists s', rtc gstep s s' /\ loops s' = delete l (loops s)) as HF.
  { intros s1 D1 H. eexists. split; [apply rtc_once; exists (LGo l); split; [done|]; cbn; rewrite H; done|].
    cbn. by rewrite D1. }
  assert (forall s, is_done s = true -> loops s !! l = Some LAccept ->
    exists s', rtc gstep s s' /\ loops s' = delete l (loops s)) as HA.
  { intros s1 D1 H. destruct (HF (set_loop l (Some LFailed) s1)) as (s2 & R & E);
      [done|cbn; by rewrite lookup_insert_eq|].
    exists s2. split; [|rewrite E; cbn; by rewrite delete_insert_eq].
    eapply rtc_l; [|done]. exists (LError l). split; [done|]. cbn. by rewrite H. }
  destruct p as [| |c]; [by apply HA|by apply HF|].
  destruct (loop_step l (LGot c) s) as [s1|] eqn:E; [|by cbn in E; destruct (_ && _)].
  assert (loops s1 = <[l := LAccept]> (loops s) /\ is_done s1 = true) as [E1 D1].
  { cbn in E. destruct (_ && _); injection E as <-; done. }
  destruct (HA s1 D1) as (s2 & R & E2); [by rewrite E1, lookup_insert_eq|].
  exists s2. split; [|rewrite E2, E1; by rewrite delete_insert_eq].
  eapply rtc_l; [|done]. exists (LGo l). split; [done|]. unfold step. rewrite Hl. cbn [mbind option_bind].
  rewrite E. done.
Qed.
Lemma loops_end n s : size (loops s) = n -> quiet s -> exists s', rtc gstep s s' /\ loops s' = ∅.
Proof.
  revert s. induction n as [|n IH]; intros s Hn Q.
  { exists s. split; [done|by apply map_size_empty_inv]. }
  destruct (map_choose (loops s)) as (l & p & Hl); [intros E; by rewrite E, map_size_empty in Hn|].
  destruct (loop_ends l p s Q Hl) as (s1 & R1 & E1). destruct (IH s1) as (s2 & R2 & E2).
  - rewrite E1, map_size_delete_Some by (by eexists). lia.
  - by eapply quiet_rtc.
  - exists s2. split; [by etrans|done].
Qed.

(** C14: [Stop] of the EtherNet/IP server is final.  When a call of [Stop] ends with
    the channel it closed still the server's and the listener closed, then whatever
    else happens short of a new [Start]: no connection is accepted and no packet is
    read any more (one already read may still be handled), and the goroutines, left
    to themselves, all end and leave no connection open. *)
Theorem eip_stop_final max injected given s s1 s2 k d :
  reach (NewServer max injected given) s ->
  stops s !! k = Some (SInjected d) -> done s = Some d -> starts s = ∅ -> listening s = false ->
  step (SGo k) s = Some (Ok s1) -> rtc later s1 s2 ->
  (forall l, step (LAccepted l) s2 = None) /\ (forall g, step (HRead g) s2 = None) /\
  exists s3, rtc gstep s2 s3 /\ loops s3 = ∅ /\ handlers s3 = ∅ /\ open_conns s3 = ∅.
Proof.
  intros I%reach_einv Hk Hd Hst Hln E R.
  assert (quiet s2) as Q.
  { assert (quiet s1) as Q1.
    { split; [|by eapply stop_settles]. pose proof (step_einv (SGo k) s I) as H. by rewrite E in H. }
    clear E. induction R as [s1|s1 s3 s4 (a & Ha & Ea) _ IH]; [done|]. apply IH. destruct Q1 as [I1 S1]. split.
    - pose proof (step_einv a s1 I1) as H. by rewrite Ea in H.
    - apply (settled_step s1); [done|]. by exists a. }
  split_and!.
  - intros l. cbn. destruct (loops s2 !! l) as [[]|]; try done. cbn. by rewrite (st_ln _ (proj2 Q)).
  - intros g. cbn. destruct (handlers s2 !! g) as [[c p]|] eqn:Eg; [|done]. cbn. destruct p; try done.
    case_decide as Hc; [|done]. by destruct (st_reading _ (proj2 Q) g c Eg).
  - destruct (loops_end _ s2 eq_refl Q) as (s3 & R3 & L3). pose proof (quiet_rtc _ _ Q R3) as Q3.
    destruct (handlers_end _ s3 eq_refl Q3) as (s4 & R4 & H4 & L4). rewrite L3 in L4.
    destruct (quiet_rtc _ _ Q3 R4) as [I4 S4]. exists s4. split; [by etrans|]. split_and!; [done|done|].
    apply set_eq. intros c. split; [|set_solver]. intros Hc. exfalso.
    destruct (ei_owned _ I4 c Hc) as [H|[(l & H)|(g & p & H)]].
    + by apply (st_injected _ S4 c H).
    + by rewrite L4, lookup_empty in H.
    + by rewrite H4, lookup_empty in H.
Qed.

(** A run in which a connection accepted before [Stop] starts its goroutine after
    it: numbers 2 and 3 are [done] and the call of [Start], 4 the listener, 5 the
    loop, 6 and 8 connections, 7 a goroutine, 9 the call of [Stop]. *)
Definition demo_server : Server := NewServer 0 false false.
Definition demo_trace : list act :=
  [AStart; StartGo 3 true; LAccepted 5; LGo 5; HGo 7; HGo 7; HRead 7; LAccepted 5; AStop; SGo 9; SGo 9; SGo 9].
Definition state_after (acts : list act) (s : Server) : Server := default s (exec acts s).
Lemma eip_exec_reach acts s s0 : reach s0 s -> is_Some (exec acts s) -> reach s0 (state_after acts s).
Proof.
  revert s. induction acts as [|a acts IH]; intros s R [s' E]; [done|]. unfold state_after. cbn in E |- *.
  destruct (step a s) as [[s1| |]|] eqn:Ea; try done.
  assert (reach s0 (state_after acts s1)) as R1.
  { apply IH; [by eapply reach_step|by eexists]. }
  unfold state_after in R1. by rewrite E in R1 |- *.
Qed.
Definition stopped_state : Server := state_after [SGo 9] (state_after demo_trace demo_server).
Lemma eip_stop_final_witness :
  open_conns stopped_state = {[8%nat]} /\
  (forall l, step (LAccepted l) stopped_state = None) /\ (forall g, step (HRead g) stopped_state = None) /\
  exists s3, rtc gstep stopped_state s3 /\ loops s3 = ∅ /\ handlers s3 = ∅ /\ open_conns s3 = ∅.
Proof.
  split; [vm_compute; reflexivity|].
  apply (eip_stop_final 0 false false (state_after demo_trace demo_server) stopped_state stopped_state 9 2).
  - apply eip_exec_reach; [apply reach_new|vm_compute; eauto].
  - vm_compute. reflexivity.
  - vm_compute. reflexivity.
  - vm_compute. reflexivity.
  - vm_compute. reflexivity.
  - vm_compute. reflexivity.
  - apply rtc_refl.
Defined.

(** The server does not panic but for misuse of [Stop]. *)
Theorem eip_life_safe max injected given s a :
  reach (NewServer max injected given) s ->
  (step a s = Some Panic -> stop_misused a s) /\ (forall c, c ∈ open_conns s -> owned c s).
Proof.
  intros I%reach_einv. split; [|apply (ei_owned _ I)].
  intros E. pose proof (step_einv a s I) as H. by rewrite E in H.
Qed.

(** ** Misuse *)

(** [Stop] before [Start] closes a nil channel. *)
Example stop_before_start : (exec [AStop] demo_server ≫= step (SGo 2)) = Some Panic.
Proof. vm_compute. reflexivity. Qed.
(** Two calls of [Stop] at once close the channel twice. *)
Example stop_twice_panics :
  (exec [AStart; StartGo 3 true; AStop; AStop; SGo 6] demo_server ≫= step (SGo 7)) = Some Panic.
Proof. vm_compute. reflexivity. Qed.
(** [Stop] keeps the closed listener, so a [Start] after it listens on that and its
    accept loop turns without end. *)
Definition eip_restarted : Server :=
  state_after [AStart; StartGo 3 true; AStop; SGo 6; SGo 6; SGo 6; SGo 6; AStart; StartGo 8 true] demo_server.
Example eip_restart_spins :
  loops eip_restarted !! 9%nat = Some LAccept /\ listening eip_restarted = false /\
  exec [LError 9; LGo 9] eip_restarted = Some eip_restarted.
Proof. vm_compute. split_and!; reflexivity. Qed.
(** [Stop] while [Start] is about to listen leaves the listener open. *)
Example stop_during_start :
  let s := state_after [AStart; AStop; SGo 4; SGo 4; SGo 4; SGo 4; StartGo 3 true] demo_server in
  stops s = ∅ /\ is_done s = true /\ listening s = true.
Proof. vm_compute. split_and!; reflexivity. Qed.
