(* ===== verification/EipSession.v ===== *)
(** * The EtherNet/IP client session

    Models [protocol/ethernetip/conn.go] (packets over a connection) and
    [session.go] (registration and CIP requests).  The network connection is an
    interface ([Wire]): a write that may fail and a read of an exact number of
    bytes.  [Served] is the instance whose other end is the server of
    [EipServer]; against it, a session is shown to give the caller exactly what
    the message router computes. *)
From S2P Require Import Prelude Bytes NetStream EipCodec Cip CipObjects EipServer.

(** [io.Writer] and [io.ReadFull] of a [net.Conn]. *)
Class Wire (P : Type) : Type := {
  wire_write : bytes -> P -> option error * P;
  wire_read : nat -> P -> outcome bytes * P
}.

(** A session: the handle and the connection. *)
Record Session (P : Type) : Type := mkSession { handle : Z; conn : P }.
Arguments mkSession {P}.
Arguments handle {P}.
Arguments conn {P}.

Section Client.
Context {P : Type} `{Wire P}.

(** [TCPConn.Send]: the header, then the data if there is any. *)
Definition TCPConn_Send (cmd : Z) (data : bytes) (sessionHandle : Z) (p : P)
  : option error * P :=
  let header := mkEncap cmd (u16 (len data)) sessionHandle 0 (replicate 8 0) 0 in
  match wire_write (Encap_Encode header) p with
  | (Some err, p) => (Some (Wrapf "failed to write header: %w" err), p)
  | (None, p) =>
      if 0 <? len data then
        match wire_write data p with
        | (Some err, p) => (Some (Wrapf "failed to write data: %w" err), p)
        | (None, p) => (None, p)
        end
      else (None, p)
  end.

Definition TCPConn_Receive (p : P) : outcome (EncapsulationHeader * bytes) * P :=
  match wire_read (Z.to_nat HeaderSize) p with
  | (Ok b, p) =>
      match Encap_Decode b with
      | Ok header =>
          if 0 <? eh_Length header then
            match wire_read (Z.to_nat (eh_Length header)) p with
            | (Ok data, p) => (Ok (header, data), p)
            | (Err err, p) => (Err (Wrapf "failed to read data: %w" err), p)
            | (Panic, p) => (Panic, p)
            end
          else (Ok (header, []), p)
      | Err err => (Err (Wrapf "failed to read header: %w" err), p)
      | Panic => (Panic, p)
      end
  | (Err err, p) => (Err (Wrapf "failed to read header: %w" err), p)
  | (Panic, p) => (Panic, p)
  end.

(** Send, then receive: every exchange of a session, under [ioMu]. *)
Definition exchange (cmd : Z) (data : bytes) (sessionHandle : Z)
  : SM (Session P) (EncapsulationHeader * bytes) := fun s =>
  match TCPConn_Send cmd data sessionHandle (conn s) with
  | (Some err, p) => (Err err, mkSession (handle s) p)
  | (None, p) => let '(r, p) := TCPConn_Receive p in (r, mkSession (handle s) p)
  end.

Definition set_handle (h : Z) : SM (Session P) unit := fun s => (Ok tt, mkSession h (conn s)).
Definition get_handle : SM (Session P) Z := fun s => (Ok (handle s), s).

Definition NewSession (p : P) : Session P := mkSession 0 p.

Definition Register : SM (Session P) unit :=
  '(header, _) ← exchange Cmd.RegisterSession (RegisterSession_Encode NewRegisterSessionData) 0;
  if negb (eh_Status header =? Encap.StatusSuccess)
  then pure (Err (Errorf "register session failed with status: 0x%08X"))
  else set_handle (eh_SessionHandle header).

Definition Unregister : SM (Session P) unit := fun s =>
  match TCPConn_Send Cmd.UnregisterSession [] (handle s) (conn s) with
  | (Some err, p) => (Err err, mkSession (handle s) p)
  | (None, p) => (Ok tt, mkSession (handle s) p)
  end.

(** The response half of [SendRRData]: the unconnected message it carries. *)
Definition unconnected_reply (header : EncapsulationHeader) (respData : bytes) : outcome bytes :=
  if negb (eh_Status header =? Encap.StatusSuccess)
  then Err (Errorf "RRData command failed with status: 0x%08X") else
  if len respData <? 6 then Err (Errorf "response data too short") else
  respCPFData ← go_slice respData 6 (len respData);
  match DecodeCommonPacketFormat respCPFData with
  | Err err => Err (Wrapf "failed to decode CPF: %w" err)
  | Panic => Panic
  | Ok respCPF =>
      match FindItemByType ItemIDUnconnectedMessage respCPF with
      | None => Err (Errorf "response CPF missing Unconnected Message item")
      | Some item => Ok (it_Data item)
      end
  end.

Definition rr_data (request : bytes) : bytes :=
  replicate 6 0 ++
  CPF_Encode (NewCommonPacketFormat
    [NewCPFItem ItemIDNullAddress []; NewCPFItem ItemIDUnconnectedMessage request]).

Definition SendRRData (request : bytes) : SM (Session P) bytes :=
  h ← get_handle;
  '(header, respData) ← exchange Cmd.SendRRData (rr_data request) h;
  pure (unconnected_reply header respData).

Definition SendCIPRequest (req : MessageRouterRequest) : SM (Session P) MessageRouterResponse :=
  respBytes ← SendRRData (MRReq_Encode req);
  pure (DecodeMessageRouterResponse respBytes).

Definition Session_ListIdentity : SM (Session P) (list ListIdentityItem) :=
  '(header, respData) ← exchange Cmd.ListIdentity [] 0;
  if negb (eh_Status header =? Encap.StatusSuccess)
  then pure (Err (Errorf "ListIdentity command failed with status: 0x%08X"))
  else pure (DecodeListIdentityResponse respData).

Definition Session_ListServices : SM (Session P) (list ListServicesItem) :=
  '(header, respData) ← exchange Cmd.ListServices [] 0;
  if negb (eh_Status header =? Encap.StatusSuccess)
  then pure (Err (Errorf "ListServices command failed with status: 0x%08X"))
  else pure (DecodeListServicesResponse respData).

(** A sequence of CIP requests with their outcomes. *)
Fixpoint send_all (reqs : list MessageRouterRequest) (s : Session P)
  : list (outcome MessageRouterResponse) * Session P :=
  match reqs with
  | [] => ([], s)
  | req :: reqs =>
      let '(r, s) := SendCIPRequest req s in
      let '(rs, s) := send_all reqs s in (r :: rs, s)
  end.
End Client.

(** ** The server at the other end

    What the client writes waits in [pending] until it is a whole packet, which
    the server's loop then serves; what the server writes waits in [arrived]. *)
Record Served (W : Type) : Type := mkServed {
  pending : bytes; arrived : bytes; served_cs : connState; served_sh : shared W; up : bool
}.
Arguments mkServed {W}.
Arguments pending {W}.
Arguments arrived {W}.
Arguments served_cs {W}.
Arguments served_sh {W}.
Arguments up {W}.

Section ServedWire.
Context {W : Type}.
Variable router : MessageRouter W.
Variable identity : ListIdentityItem.

(** The length of the first packet of [b], once it is complete. *)
Definition packet (b : bytes) : option nat :=
  if len b <? HeaderSize then None else
  match header_fields (take (Z.to_nat HeaderSize) b) with
  | Ok (_, dataLen, _, _) =>
      if len b <? HeaderSize + dataLen then None else Some (Z.to_nat (HeaderSize + dataLen))
  | _ => None
  end.

Definition feed (p : Served W) (b : bytes) : Served W :=
  match packet b with
  | None => mkServed b (arrived p) (served_cs p) (served_sh p) (up p)
  | Some n =>
      match serve_once router identity (fun _ => false) (arrive b) (served_cs p) (served_sh p) with
      | (v, _, cs, sh) =>
          mkServed (drop n b)
            (arrived p ++ concat (drop (length (written (served_cs p))) (written cs))) cs sh
            (match v with Next => true | _ => false end)
      end
  end.

#[export] Instance Served_Wire : Wire (Served W) := {
  wire_write := fun b p =>
    if up p then (None, feed p (pending p ++ b)) else (Some NetClosed, p);
  wire_read := fun n p =>
    if decide (length (arrived p) < n)%nat then (Err EOF, p)
    else (Ok (take n (arrived p)),
          mkServed (pending p) (drop n (arrived p)) (served_cs p) (served_sh p) (up p))
}.

(** ** Lemmas: one exchange *)
Lemma header_fields_encode h :
  encap_ok h ->
  header_fields (Encap_Encode h) =
    Ok (eh_Command h, eh_Length h, eh_SessionHandle h, eh_SenderContext h).
Proof.
  intros (Hc & Hl & Hs & _ & Hx & _). destruct h as [c l s st x op]. simpl in *.
  do 9 (destruct x as [|? x]; try done). unfold header_fields.
  pose proof (get_le16_le16 c [] Hc) as Ec. pose proof (get_le16_le16 l [] Hl) as El.
  pose proof (get_le32_le32 s [] Hs) as Es. rewrite app_nil_r in Ec, El, Es.
  change (go_slice (Encap_Encode _) 0 2) with (Ok (le16 c)).
  change (go_slice (Encap_Encode _) 2 4) with (Ok (le16 l)).
  change (go_slice (Encap_Encode _) 4 8) with (Ok (le32 s)).
  go_bind. by rewrite Ec, El, Es.
Qed.

Lemma packet_encode h data :
  encap_ok h ->
  packet (Encap_Encode h ++ data) =
    if len data <? eh_Length h then None else Some (Z.to_nat (HeaderSize + eh_Length h)).
Proof.
  intros Hh. pose proof (length_Encap_Encode h ltac:(apply Hh)) as Hl. unfold packet.
  rewrite len_app. assert (len (Encap_Encode h) = HeaderSize) as -> by (unfold len; by rewrite Hl).
  pose proof (len_nonneg data).
  replace (_ <? _) with false by (symmetry; unfold HeaderSize; lia).
  replace (take _ _) with (Encap_Encode h)
    by (symmetry; change (Z.to_nat HeaderSize) with 24%nat; rewrite <-Hl; apply take_app_length).
  rewrite header_fields_encode by done.
  replace (HeaderSize + len data <? HeaderSize + eh_Length h) with (len data <? eh_Length h)
    by lia.
  done.
Qed.

Lemma serve_packet h data cs sh :
  encap_ok h -> eh_Length h = len data -> len data <= maxPacketSize ->
  serve_once router identity (fun _ => false) (arrive (Encap_Encode h ++ data)) cs sh =
    let '(v, cs, sh) :=
      process_command router identity (fun _ => false) (eh_Command h) (eh_SessionHandle h)
        (eh_SenderContext h) data cs sh in (v, [], cs, sh).
Proof.
  intros Hh Hl Hm. unfold serve_once. rewrite arrive_app.
  rewrite conn_read_full_arrive by (by rewrite length_Encap_Encode by apply Hh).
  rewrite header_fields_encode by done. rewrite Hl.
  replace (_ <? _) with false by (symmetry; lia).
  rewrite <-(app_nil_r (arrive data)).
  by rewrite conn_read_full_arrive by width_lia.
Qed.

Definition req_header (cmd session : Z) (data : bytes) : EncapsulationHeader :=
  mkEncap cmd (u16 (len data)) session 0 (replicate 8 0) 0.

Lemma req_header_ok cmd session data :
  is_u16 cmd -> is_u32 session -> len data <= maxPacketSize ->
  encap_ok (req_header cmd session data) /\ eh_Length (req_header cmd session data) = len data.
Proof.
  intros Hc Hs Hl. pose proof (len_nonneg data) as H0. split.
  - repeat split; try done; try apply Hc; try apply Hs; try apply u16_range; width_lia.
  - simpl. apply u16_small. unfold maxPacketSize in Hl. width_lia.
Qed.

(** A header that announces data waits for it. *)
Lemma feed_wait p h :
  encap_ok h -> 0 < eh_Length h ->
  feed p (Encap_Encode h) = mkServed (Encap_Encode h) (arrived p) (served_cs p) (served_sh p) (up p).
Proof.
  intros Hh Hl. unfold feed. pose proof (packet_encode h [] Hh) as E.
  rewrite app_nil_r, len_nil in E. rewrite E.
  by replace (0 <? eh_Length h) with true by (symmetry; lia).
Qed.

(** A whole packet is served. *)
Lemma feed_serve p h data :
  encap_ok h -> eh_Length h = len data -> len data <= maxPacketSize ->
  feed p (Encap_Encode h ++ data) =
    let '(v, cs', sh') :=
      process_command router identity (fun _ => false) (eh_Command h) (eh_SessionHandle h)
        (eh_SenderContext h) data (served_cs p) (served_sh p) in
    mkServed [] (arrived p ++ concat (drop (length (written (served_cs p))) (written cs'))) cs' sh'
      (match v with Next => true | _ => false end).
Proof.
  intros Hh El Hl. unfold feed. rewrite packet_encode by done. rewrite El, Z.ltb_irrefl.
  rewrite serve_packet by done. destruct (process_command _ _ _ _ _ _ _ _ _) as [[v cs'] sh'].
  rewrite drop_ge; [done|]. rewrite length_app, length_Encap_Encode by apply Hh.
  unfold HeaderSize. width_lia.
Qed.

Lemma write_up b p : up p = true -> wire_write b p = (None, feed p (pending p ++ b)).
Proof. intros Hu. cbn. by rewrite Hu. Qed.

(** Once the client has written a packet, the server has served it. *)
Lemma send_served cmd session data cs sh :
  is_u16 cmd -> is_u32 session -> len data <= maxPacketSize ->
  TCPConn_Send cmd data session (mkServed [] [] cs sh true) =
    let '(v, cs', sh') :=
      process_command router identity (fun _ => false) cmd session (replicate 8 0) data cs sh in
    (None, mkServed [] (concat (drop (length (written cs)) (written cs'))) cs' sh'
             (match v with Next => true | _ => false end)).
Proof.
  intros Hc Hs Hl. destruct (req_header_ok cmd session data Hc Hs Hl) as [Hh El].
  unfold TCPConn_Send. fold (req_header cmd session data). rewrite write_up by done.
  cbn [pending app]. destruct (0 <? len data) eqn:Ed.
  - rewrite feed_wait by (done || (rewrite El; lia)). rewrite write_up by done.
    cbn [pending]. rewrite feed_serve by done. cbn [arrived served_cs served_sh app].
    cbn [req_header eh_Command eh_SessionHandle eh_SenderContext].
    by destruct (process_command _ _ _ _ _ _ _ _ _) as [[v cs'] sh'].
  - assert (data = []) as -> by (destruct data; [done|]; revert Ed; rewrite len_cons;
      pose proof (len_nonneg data); lia).
    rewrite <-(app_nil_r (Encap_Encode _)). rewrite feed_serve by done.
    cbn [arrived served_cs served_sh app].
    cbn [req_header eh_Command eh_SessionHandle eh_SenderContext].
    by destruct (process_command _ _ _ _ _ _ _ _ _) as [[v cs'] sh'].
Qed.

(** An exchange returns the server's answer, and leaves nothing on the wire. *)
Lemma exchange_served cmd session data hh cs sh resp status session' h' sh' :
  is_u16 cmd -> is_u32 session -> len data <= maxPacketSize ->
  handle_command router identity cmd session data (sessionHandle cs) sh =
    (Reply resp status session', h', sh') ->
  len resp < 65536 -> is_u32 status -> is_u32 session' ->
  exists wr,
    exchange cmd data session (mkSession hh (mkServed [] [] cs sh true)) =
      (Ok (mkEncap cmd (len resp) session' status (replicate 8 0) 0, resp),
       mkSession hh (mkServed [] [] (mkCS h' wr) sh' true)).
Proof.
  intros Hc Hs Hl Ha Hr Hst Hs'. pose proof (len_nonneg resp) as H0.
  unfold exchange. cbn [conn handle]. rewrite send_served by done.
  unfold process_command. rewrite Ha.
  set (h := mkEncap cmd (len resp) session' status (replicate 8 0) 0).
  assert (encap_ok h) as Hh by (unfold h, encap_ok; simpl; repeat split; try done; width_lia).
  assert (exists wr, send_reply (fun _ => false) cmd session' status (replicate 8 0) resp
            (mkCS h' (written cs)) = (Next, mkCS h' wr) /\
          concat (drop (length (written cs)) wr) = Encap_Encode h ++ resp) as (wr & -> & Ew).
  { unfold send_reply, write. simpl. rewrite u16_small by width_lia.
    destruct (0 <? len resp) eqn:Ed; eexists; (split; [done|]).
    - rewrite <-app_assoc, drop_app_length. simpl. by rewrite app_nil_r.
    - rewrite drop_app_length. simpl. destruct resp; [done|].
      revert Ed. rewrite len_cons. pose proof (len_nonneg resp). lia. }
  exists wr. simpl written. rewrite Ew. unfold TCPConn_Receive. cbn [wire_read Served_Wire arrived].
  assert (length (Encap_Encode h) = 24%nat) as E24 by (by apply length_Encap_Encode).
  change (Z.to_nat HeaderSize) with 24%nat.
  rewrite decide_False by (rewrite length_app, E24; lia). rewrite <-E24, take_app_length, drop_app_length.
  rewrite <-(app_nil_r (Encap_Encode h)), Encap_Decode_Encode by done. cbn [eh_Length h].
  destruct (0 <? len resp) eqn:Ed.
  - cbn [wire_read Served_Wire arrived].
    rewrite decide_False by width_lia. rewrite take_ge, drop_ge by width_lia. done.
  - destruct resp; [done|]. revert Ed. rewrite len_cons. pose proof (len_nonneg resp). lia.
Qed.

(** ** Lemmas: a CIP request inside an exchange *)
Lemma rr_data_items b :
  len b < 65536 ->
  let cpf := NewCommonPacketFormat
               [NewCPFItem ItemIDNullAddress []; NewCPFItem ItemIDUnconnectedMessage b] in
  len (rr_data b) = 16 + len b /\ decode_cpf (rr_data b) = Ok cpf /\
  FindItemByType ItemIDUnconnectedMessage cpf = Some (NewCPFItem ItemIDUnconnectedMessage b).
Proof.
  intros Hb cpf. pose proof (len_nonneg b) as H0.
  assert (cpf_ok cpf) as Hc.
  { apply NewCPF_ok; [done|]. apply Forall_cons; split; [by apply NewCPFItem_ok|].
    apply Forall_cons; split; [by apply NewCPFItem_ok|constructor]. }
  assert (len (rr_data b) = 16 + len b) as El.
  { unfold rr_data, CPF_Encode. cbn [flat_map Items NewCommonPacketFormat ItemCount].
    unfold CPFItem_Encode. cbn [NewCPFItem it_TypeID it_Length it_Data]. rewrite (u16_small (len b)) by width_lia.
    destruct (0 <? len b) eqn:E; lens; [|simpl; destruct b; [done|]; revert E; rewrite len_cons;
      pose proof (len_nonneg b); lia].
    change (len (if 0 <? u16 0 then _ else _)) with 0. lens. lia. }
  split; [done|]. split; [|done].
  unfold decode_cpf. replace (_ <? 6) with false by (symmetry; lia).
  assert (go_slice (rr_data b) 6 (len (rr_data b)) = Ok (CPF_Encode cpf)) as ->.
  { change (rr_data b) with (replicate 6 0 ++ CPF_Encode cpf).
    rewrite <-(app_nil_r (CPF_Encode cpf)) at 1.
    apply go_slice_mid; [done|]. by lens. }
  go_bind. rewrite <-(app_nil_r (CPF_Encode cpf)). by apply cpf_decode_encode.
Qed.

Lemma handleSendRRData_served req w :
  mrreq_ok req -> len (MRReq_Encode req) < 65536 ->
  handleSendRRData router (rr_data (MRReq_Encode req)) w =
    match Dispatch router req w with
    | (Ok m, w) => (Ok (rr_data (MRResp_Encode m)), w)
    | (Err e, w) => (Err e, w)
    | (Panic, w) => (Panic, w)
    end.
Proof.
  intros Hr Hl. destruct (rr_data_items (MRReq_Encode req) Hl) as (_ & E1 & E2).
  unfold handleSendRRData, mbind, SM_bind, pure. rewrite E1. cbn [it_Data NewCPFItem].
  rewrite E2. cbn [it_Data NewCPFItem]. rewrite request_decode_encode by done.
  by destruct (Dispatch router req w) as [[m|e|] w'].
Qed.

Lemma unconnected_reply_served header b :
  eh_Status header = Encap.StatusSuccess -> len b < 65536 ->
  unconnected_reply header (rr_data b) = Ok b.
Proof.
  intros Hs Hl. destruct (rr_data_items b Hl) as (El & Ed & Ef).
  unfold unconnected_reply. rewrite Hs. cbn [negb Z.eqb Encap.StatusSuccess].
  unfold decode_cpf in Ed. pose proof (len_nonneg b).
  replace (len (rr_data b) <? 6) with false in * by (symmetry; lia).
  destruct (go_slice (rr_data b) 6 (len (rr_data b))) as [d|e|]; [|done|done].
  revert Ed. go_bind. intros ->. by rewrite Ef.
Qed.

(** ** The session against the router *)
Definition request_fits (req : MessageRouterRequest) : Prop :=
  mrreq_ok req /\ 16 + len (MRReq_Encode req) <= maxPacketSize.
#[export] Instance request_fits_dec req : Decision (request_fits req).
Proof. unfold request_fits. apply _. Defined.
(** No object answers with more than an encapsulation packet holds. *)
Definition replies_fit (inv : W -> Prop) : Prop :=
  forall req w, inv w ->
    match (Dispatch router req w).1 with
    | Ok m => 16 + len (MRResp_Encode m) < 65536
    | _ => True
    end.

(** What the caller of [SendCIPRequest] is told: the router's response; a request
    the router cannot route is refused with an encapsulation status. *)
Definition caller_view (r : outcome MessageRouterResponse) : outcome MessageRouterResponse :=
  match r with
  | Ok m => Ok m
  | _ => Err (Errorf "RRData command failed with status: 0x%08X")
  end.
Fixpoint dispatch_all (reqs : list MessageRouterRequest) (w : W)
  : list (outcome MessageRouterResponse) * W :=
  match reqs with
  | [] => ([], w)
  | req :: reqs =>
      let '(r, w) := Dispatch router req w in
      let '(rs, w) := dispatch_all reqs w in (caller_view r :: rs, w)
  end.

Context (inv : W -> Prop).
Hypothesis Hrouter : router_safe inv router.
Hypothesis Hfit : replies_fit inv.

Lemma SendCIPRequest_served req h wr n w :
  request_fits req -> is_u32 h -> h <> 0 -> inv w ->
  let '(r, w') := Dispatch router req w in
  inv w' /\ exists wr',
    SendCIPRequest req (mkSession h (mkServed [] [] (mkCS h wr) (mkShared n w) true)) =
      (caller_view r, mkSession h (mkServed [] [] (mkCS h wr') (mkShared n w') true)).
Proof.
  intros [Hr Hl] Hh Hne Hw. unfold maxPacketSize in Hl. pose proof (len_nonneg (MRReq_Encode req)).
  destruct (Dispatch_safe inv router Hrouter req w Hw) as [Hp Hi].
  pose proof (Dispatch_total inv router Hrouter req w Hw) as Ht.
  pose proof (Hfit req w Hw) as Hfr.
  pose proof (handleSendRRData_served req w Hr ltac:(lia)) as Eh.
  destruct (rr_data_items (MRReq_Encode req) ltac:(lia)) as (El & _ & _).
  assert (handle_command router identity Cmd.SendRRData h (rr_data (MRReq_Encode req)) h (mkShared n w)
    = match Dispatch router req w with
      | (Ok m, w') => (Reply (rr_data (MRResp_Encode m)) Encap.StatusSuccess h, h, mkShared n w')
      | (Err _, w') => (Reply [] Encap.StatusInvalidCommand h, h, mkShared n w')
      | (Panic, w') => (Panicked, h, mkShared n w')
      end) as Ec.
  { cbn -[handleSendRRData cip_command rr_data MRReq_Encode MRResp_Encode]. unfold cip_command.
    rewrite Z.eqb_refl, (proj2 (Z.eqb_neq h 0) Hne). cbn [negb orb].
    rewrite Eh. by destruct (Dispatch router req w) as [[m|e|] w']. }
  unfold SendCIPRequest, SendRRData, mbind, SM_bind, get_handle, pure. cbn [handle].
  destruct (Dispatch router req w) as [r w'] eqn:Ed. cbn [fst snd] in *. split; [done|].
  destruct r as [m|e|]; [| |done].
  - destruct Ht as [(m' & [= <-] & Hm & _)|?]; [|done].
    destruct (rr_data_items (MRResp_Encode m) ltac:(lia)) as (El' & _ & _).
    destruct (exchange_served Cmd.SendRRData h (rr_data (MRReq_Encode req)) h (mkCS h wr)
      (mkShared n w) _ _ _ _ _ ltac:(done) Hh ltac:(unfold maxPacketSize; lia) Ec) as [wr' ->];
      [lia|done|done|].
    exists wr'. rewrite unconnected_reply_served by (done || lia).
    by rewrite response_decode_encode by done.
  - destruct (exchange_served Cmd.SendRRData h (rr_data (MRReq_Encode req)) h (mkCS h wr)
      (mkShared n w) _ _ _ _ _ ltac:(done) Hh ltac:(unfold maxPacketSize; lia) Ec) as [wr' ->];
      [done|done|done|]. by exists wr'.
Qed.

Lemma send_all_served reqs : forall h wr n w,
  Forall request_fits reqs -> is_u32 h -> h <> 0 -> inv w ->
  let '(rs, w') := dispatch_all reqs w in
  exists wr', send_all reqs (mkSession h (mkServed [] [] (mkCS h wr) (mkShared n w) true)) =
    (rs, mkSession h (mkServed [] [] (mkCS h wr') (mkShared n w') true)).
Proof.
  induction reqs as [|req reqs IH]; intros h wr n w Hreqs Hh Hne Hw;
    cbn [send_all dispatch_all]; [by exists wr|].
  apply Forall_cons in Hreqs as [Hreq Hreqs].
  pose proof (SendCIPRequest_served req h wr n w Hreq Hh Hne Hw) as H.
  destruct (Dispatch router req w) as [r w1]. destruct H as [Hi [wr1 ->]].
  specialize (IH h wr1 n w1 Hreqs Hh Hne Hi).
  destruct (dispatch_all reqs w1) as [rs w2]. destruct IH as [wr2 ->]. by exists wr2.
Qed.

Lemma Register_served wr n w :
  0 <= n < 4294967295 ->
  exists wr', Register (NewSession (mkServed [] [] (mkCS 0 wr) (mkShared n w) true)) =
    (Ok tt, mkSession (n + 1) (mkServed [] [] (mkCS (n + 1) wr') (mkShared (n + 1) w) true)).
Proof.
  intros Hn. assert (u32 (n + 1) = n + 1) as Eu by (apply u32_small; unfold is_u32; lia).
  assert (handle_command router identity Cmd.RegisterSession 0
            (RegisterSession_Encode NewRegisterSessionData) 0 (mkShared n w) =
          (Reply (le16 1 ++ le16 0) Encap.StatusSuccess (n + 1), n + 1, mkShared (n + 1) w)) as Ec.
  { unfold handle_command. cbn [nextSession world]. rewrite Eu. done. }
  destruct (exchange_served Cmd.RegisterSession 0 (RegisterSession_Encode NewRegisterSessionData) 0
    (mkCS 0 wr) (mkShared n w) _ _ _ _ _ ltac:(done) ltac:(done) ltac:(done) Ec) as [wr' E];
    [done|done|unfold is_u32; lia|].
  exists wr'. unfold Register, mbind, SM_bind, NewSession. rewrite E. done.
Qed.

(** C3: A CIP session end to end.  A client that registers a session with the
    server and sends any sequence of CIP requests over it, each wrapped in a
    common-packet-format item in an encapsulation packet, gets back, in order,
    exactly the responses the message router computes when it dispatches the
    requests one after the other, and the objects end in the same state; a
    request the router cannot route comes back as an error, and the session
    carries on with the next one. *)
Theorem cip_session_refinement reqs n w :
  0 <= n < 4294967295 -> Forall request_fits reqs -> inv w ->
  let s0 := NewSession (mkServed [] [] (mkCS 0 []) (mkShared n w) true) in
  let '(r, s1) := Register s0 in
  let '(rs, s2) := send_all reqs s1 in
  r = Ok tt /\ handle s1 = n + 1 /\
  (rs, world (served_sh (conn s2))) = dispatch_all reqs w /\
  up (conn s2) = true /\ arrived (conn s2) = [] /\ pending (conn s2) = [].
Proof.
  intros Hn Hreqs Hw s0. unfold s0. destruct (Register_served [] n w Hn) as [wr ->].
  pose proof (send_all_served reqs (n + 1) wr (n + 1) w Hreqs ltac:(unfold is_u32; lia)
    ltac:(lia) Hw) as H.
  destruct (dispatch_all reqs w) as [rs w']. by destruct H as [wr' ->].
Qed.
End ServedWire.

(** ** Objects whose replies are bounded *)
Definition reply_bounded {W} (inv : W -> Prop) (N : Z) (obj : Object W) : Prop :=
  forall service path data w, inv w ->
    match (obj service path data w).1 with Ok d => len d <= N | _ => True end.

Lemma len_flat_le16 ws : len (flat_map le16 ws) = 2 * len ws.
Proof. induction ws as [|w ws IH]; [done|]. cbn [flat_map]. lens. lia. Qed.
Lemma len_MRResp_Encode m :
  len (MRResp_Encode m) = 4 + 2 * len (mr_ExtStatus m) + len (ResponseData m).
Proof. unfold MRResp_Encode. lens. rewrite len_flat_le16. lia. Qed.

Lemma respond_bounded service (r : outcome bytes) m N :
  ext_ok r -> match r with Ok d => len d <= N | _ => True end -> 0 <= N ->
  respond service r = Ok m -> len (MRResp_Encode m) <= 514 + N.
Proof.
  intros He Hb HN. destruct r as [d|e|]; [|destruct e|done]; cbn [respond]; intros [= <-];
    rewrite len_MRResp_Encode; cbn [mr_ExtStatus ResponseData]; cbv iota in Hb;
    change (len (@nil Z)) with 0; try lia.
  destruct He as [He _]. lia.
Qed.

Lemma replies_fit_bounded {W} (inv : W -> Prop) (mr : MessageRouter W) N :
  router_safe inv mr -> map_Forall (fun _ obj => reply_bounded inv N obj) (objects mr) ->
  (forall obj, symbolicHandler mr = Some obj -> reply_bounded inv N obj) ->
  0 <= N -> 530 + N < 65536 -> replies_fit mr inv.
Proof.
  intros [Hs1 Hs2] Ho Hsym HN Hlt req w Hw.
  assert (forall obj service path data, object_safe inv obj -> reply_bounded inv N obj ->
    match (call obj service path data w).1 with
    | Ok m => 16 + len (MRResp_Encode m) < 65536 | _ => True end) as Hcall.
  { intros obj service path data Hso Hb. unfold call.
    destruct (Hso service path data w Hw) as [He _]. specialize (Hb service path data w Hw).
    destruct (obj service path data w) as [r w']. cbn [fst].
    destruct (respond service r) as [m|e|] eqn:E; [|done|done].
    pose proof (respond_bounded service r m N He Hb HN E). lia. }
  unfold Dispatch, mbind, SM_bind, pure. destruct (_ =? 0); [done|].
  destruct (go_index _ 0) as [b|e|]; [|done|done]. destruct (b =? 0x91).
  - destruct (symbolicHandler mr) as [obj|] eqn:E; [|done]. apply Hcall; auto.
  - destruct (class_segment _) as [[c rest]|e|]; [|done|done].
    destruct (objects mr !! c) as [obj|] eqn:E; [|vm_compute; done].
    apply Hcall; [exact (Hs1 c obj E)|exact (Ho c obj E)].
Qed.

(** The replies of the two objects of this package. *)
Lemma assembly_reply N service path data ao :
  0 <= N -> map_Forall (fun _ size => size <= N) (Assembly.sizes ao) ->
  match (Assembly.HandleRequest service path data ao).1 with Ok d => len d <= N | _ => True end.
Proof.
  intros HN Hw. unfold Assembly.HandleRequest, mbind, SM_bind, pure.
  destruct (Assembly.decode_path path) as [[i a]|e|]; [|done|done].
  destruct (service =? Svc.GetAttributeSingle).
  { destruct (a =? 0); [done|]. cbn [fst]. unfold Assembly.GetAttributeSingle.
    destruct (Assembly.instances ao !! i) as [inst|] eqn:E; [|done].
    destruct (a =? 3); [|done]. apply (Hw i). unfold Assembly.sizes. simpl.
    by rewrite lookup_fmap, E. }
  destruct (service =? Svc.SetAttributeSingle); [|done]. destruct (a =? 0); [done|].
  by destruct (Assembly.SetAttributeSingle i a data ao) as [[u|e|] ao'].
Qed.
Lemma connmgr_reply N service path data cm :
  26 <= N ->
  match (ConnMgr.HandleRequest service path data cm).1 with Ok d => len d <= N | _ => True end.
Proof.
  intros HN. unfold ConnMgr.HandleRequest, ConnMgr.HandleForwardOpen, ConnMgr.HandleForwardClose,
    mbind, SM_bind, pure.
  destruct (service =? ConnMgr.ServiceForwardOpen); [|destruct (service =? ConnMgr.ServiceForwardClose)].
  - destruct (ConnMgr.decode_open data); [|done|done]. unfold ConnMgr.open_connection.
    destruct (ConnMgr.find_triad _ _ _ cm); [done|]. exact HN.
  - destruct (ConnMgr.decode_close data); [|done|done]. unfold ConnMgr.close_connection.
    destruct (ConnMgr.find_triad _ _ _ cm) as [[id closed]|]; cbn [fst];
      change (10 <= N); lia.
  - done.
Qed.

(** ** A device: an assembly object and a connection manager *)
Definition Device : Type := Assembly.AssemblyObject * ConnMgr.ConnectionManager.
Definition on_assembly : Object Device := fun service path data w =>
  let '(r, ao) := Assembly.HandleRequest service path data w.1 in (r, (ao, w.2)).
Definition on_connmgr : Object Device := fun service path data w =>
  let '(r, cm) := ConnMgr.HandleRequest service path data w.2 in (r, (w.1, cm)).
Definition adapter : MessageRouter Device :=
  RegisterObject ClassAssembly on_assembly
    (RegisterObject ClassConnectionMgr on_connmgr NewMessageRouter).

(** The registered assemblies are small enough for one packet. *)
Definition adapter_inv (w : Device) : Prop :=
  map_Forall (fun _ size => size <= 65000) (Assembly.sizes w.1).

#[export] Instance adapter_inv_dec w : Decision (adapter_inv w).
Proof. unfold adapter_inv. apply _. Defined.

Lemma adapter_objects c obj :
  objects adapter !! c = Some obj -> obj = on_assembly \/ obj = on_connmgr.
Proof.
  unfold adapter, RegisterObject, NewMessageRouter. cbn [objects].
  intros [[_ <-]|[_ [[_ <-]|[_ H]]%lookup_insert_Some]]%lookup_insert_Some; auto.
  by rewrite lookup_empty in H.
Qed.

Lemma adapter_safe : router_safe adapter_inv adapter.
Proof.
  split; [|done]. intros c obj [-> | ->]%adapter_objects; intros service path data [ao cm] Hw.
  - unfold on_assembly. cbn [fst snd].
    pose proof (Assembly.HandleRequest_safe (fun ao => adapter_inv (ao, cm))) as H.
    specialize (H ltac:(intros i a d ao' Hao; unfold adapter_inv in *; simpl in *;
      by rewrite Assembly.Set_sizes) service path data ao Hw).
    by destruct (Assembly.HandleRequest service path data ao) as [r ao'].
  - unfold on_connmgr. cbn [fst snd]. pose proof (ConnMgr.HandleRequest_ext service path data cm) as H.
    by destruct (ConnMgr.HandleRequest service path data cm) as [r cm'].
Qed.

Lemma adapter_fits : replies_fit adapter adapter_inv.
Proof.
  apply (replies_fit_bounded _ _ 65000); [apply adapter_safe| |done|lia|lia].
  intros c obj [-> | ->]%adapter_objects; intros service path data [ao cm] Hw.
  - unfold on_assembly. cbn [fst snd]. pose proof (assembly_reply 65000 service path data ao ltac:(lia) Hw).
    by destruct (Assembly.HandleRequest _ _ _ _).
  - unfold on_connmgr. cbn [fst snd]. pose proof (connmgr_reply 65000 service path data cm ltac:(lia)).
    by destruct (ConnMgr.HandleRequest _ _ _ _).
Qed.

(** Output assembly 100, two bytes: write it, read it, ask for a class nobody
    registered, and send a path that starts with no class. *)
Definition demo_requests : list MessageRouterRequest :=
  [NewSetAttributeSingleRequest (BuildPath ClassAssembly 100 3) [7; 9];
   NewGetAttributeSingleRequest (BuildPath ClassAssembly 100 3);
   NewGetAttributeSingleRequest (BuildPath 0x1234 1 1);
   NewGetAttributeSingleRequest (AddInstance [] 100)].
Definition demo_world : Device :=
  (Assembly.RegisterAssembly 100 [0; 0] Assembly.NewAssemblyObject, ConnMgr.NewConnectionManager).

Lemma cip_session_refinement_witness :
  let s0 := NewSession (mkServed [] [] (mkCS 0 []) (mkShared 41 demo_world) true) in
  let '(r, s1) := @Register _ (Served_Wire adapter no_identity) s0 in
  let '(rs, s2) := @send_all _ (Served_Wire adapter no_identity) demo_requests s1 in
  (r = Ok tt /\ handle s1 = 42 /\
   (rs, world (served_sh (conn s2))) = dispatch_all adapter demo_requests demo_world /\
   up (conn s2) = true /\ arrived (conn s2) = [] /\ pending (conn s2) = []) /\
  (dispatch_all adapter demo_requests demo_world).1 =
    [Ok (mkMRResp 0x90 0 0 0 [] []); Ok (mkMRResp 0x8E 0 0 0 [] [7; 9]);
     Ok (mkMRResp 0x8E 0 Status.ObjectDoesNotExist 0 [] []);
     Err (Errorf "RRData command failed with status: 0x%08X")].
Proof.
  intros s0.
  assert (Forall request_fits demo_requests) as Hreqs by decided.
  pose proof (cip_session_refinement adapter no_identity adapter_inv adapter_safe adapter_fits
    demo_requests 41 demo_world ltac:(lia) Hreqs
    ltac:(decided)) as H.
  cbv zeta in H. subst s0.
  destruct (Register _) as [r s1]. destruct (send_all _ _) as [rs s2].
  split; [exact H|reflexivity].
Defined.

(** A peer registers, writes [7; 9] to assembly 100, sends three stray bytes and is
    gone: bytes as on the wire. *)
Definition stray_peer : list rx :=
  arrive ([0x65; 0; 4; 0; 0; 0; 0; 0; 0; 0; 0; 0; 1; 2; 3; 4; 5; 6; 7; 8; 0; 0; 0; 0; 1; 0; 0; 0] ++
    [0x6F; 0; 26; 0; 42; 0; 0; 0; 0; 0; 0; 0; 1; 2; 3; 4; 5; 6; 7; 8; 0; 0; 0; 0;
     0; 0; 0; 0; 5; 0; 2; 0; 0; 0; 0; 0; 0xB2; 0; 10; 0; 0x10; 3; 0x20; 4; 0x24; 100; 0x30; 3; 7; 9] ++
    [1; 2; 3])%list ++ [Closed].
Lemma eip_connection_total_witness :
  exists cs' sh',
    HandleConn adapter no_identity (fun _ => false) (conn_fuel stray_peer) stray_peer
      (mkCS 0 []) (mkShared 41 demo_world) = Some (Return, cs', sh') /\
    adapter_inv (world sh') /\ length (written cs') = 4%nat /\
    Assembly.GetAttributeSingle 100 3 (world sh').1 = Ok [7; 9].
Proof.
  destruct (eip_connection_total adapter_inv adapter no_identity adapter_safe (fun _ => false) stray_peer
    (mkCS 0 []) (mkShared 41 demo_world)) as (cs' & sh' & E & Hi); [by repeat constructor|decided|].
  exists cs', sh'. split; [exact E|]. split; [exact Hi|]. vm_compute in E. injection E as <- <-. by vm_compute.
Defined.
