(* ===== verification/IORuntime.v ===== *)
(** * Cyclic I/O: the runtime and the scheduler

    Models [runtime/runtime.go] and [runtime/scheduler.go]: the table of I/O
    connections, the packet a producer sends, the packet a consumer accepts and
    the watchdog.  An [IOConnection] is reached through the table only, so the
    table holds the objects; times are nanoseconds.  A tick of the scheduler
    visits the connections in any order, which is the order of [map_to_list]
    here: each visit depends on its own connection and the assembly data. *)
From S2P Require Import Prelude Bytes Cip CipObjects.

Definition i64 (z : Z) : Z := (z + 9223372036854775808) mod 18446744073709551616 - 9223372036854775808.

(** [StopChan]: nil, open or closed. *)
Inductive chan : Type := NilChan | OpenChan | ClosedChan.

Record IOConnection : Type := mkIO {
  ConnectionID : Z;
  RPI : Z;
  SequenceCount : Z;
  RunIdleHeader : bool;
  RemoteAddr : option Z;
  AssemblyID : option Z;     (** the instance [Assembly] points to, by its ID *)
  LastReceive : Z;
  LastSend : Z;
  TimeoutMult : Z;
  IsProducer : bool;
  IsConsumer : bool;
  StopChan : chan
}.

Record Runtime : Type := mkRuntime {
  io_conns : gmap Z IOConnection;
  assemblyObj : Assembly.AssemblyObject;
  stopped_conns : list IOConnection   (** removed objects, their channel closed *)
}.

Definition NewRuntime (ao : Assembly.AssemblyObject) : Runtime := mkRuntime ∅ ao [].

Definition set_received (now : Z) (c : IOConnection) : IOConnection :=
  mkIO (ConnectionID c) (RPI c) (SequenceCount c) (RunIdleHeader c) (RemoteAddr c) (AssemblyID c)
    now (LastSend c) (TimeoutMult c) (IsProducer c) (IsConsumer c) (StopChan c).
Definition set_addr (addr : option Z) (c : IOConnection) : IOConnection :=
  mkIO (ConnectionID c) (RPI c) (SequenceCount c) (RunIdleHeader c) addr (AssemblyID c)
    (LastReceive c) (LastSend c) (TimeoutMult c) (IsProducer c) (IsConsumer c) (StopChan c).
(** [select { case <-StopChan: default: close(StopChan) }] on a non-nil channel. *)
Definition stop (c : IOConnection) : IOConnection :=
  mkIO (ConnectionID c) (RPI c) (SequenceCount c) (RunIdleHeader c) (RemoteAddr c) (AssemblyID c)
    (LastReceive c) (LastSend c) (TimeoutMult c) (IsProducer c) (IsConsumer c)
    (match StopChan c with NilChan => NilChan | _ => ClosedChan end).

Definition AddConnection (now : Z) (conn : IOConnection) (r : Runtime) : Runtime :=
  mkRuntime (<[ConnectionID conn := set_received now conn]> (io_conns r)) (assemblyObj r)
    (stopped_conns r).

Definition RemoveConnection (connID : Z) (r : Runtime) : Runtime :=
  match io_conns r !! connID with
  | None => r
  | Some conn =>
      mkRuntime (delete connID (io_conns r)) (assemblyObj r) (stopped_conns r ++ [stop conn])
  end.

Definition SetProducerAddr (connID : Z) (addr : option Z) (r : Runtime) : Runtime :=
  match io_conns r !! connID with
  | None => r
  | Some conn =>
      mkRuntime (<[connID := set_addr addr conn]> (io_conns r)) (assemblyObj r) (stopped_conns r)
  end.

(** ** The watchdog *)
Definition io_timeout (c : IOConnection) : Z :=
  let mult := u64 (Z.shiftl 4 (TimeoutMult c)) in i64 (RPI c * i64 mult).
Definition io_expired (now : Z) (c : IOConnection) : bool :=
  IsConsumer c && (io_timeout c <? now - LastReceive c).

Definition io_checkTimeouts (now : Z) (r : Runtime) : Runtime :=
  mkRuntime (filter (fun kc => io_expired now kc.2 = false) (io_conns r)) (assemblyObj r)
    (stopped_conns r ++
     map (fun kc => stop kc.2)
       (filter (fun kc => io_expired now kc.2 = true) (map_to_list (io_conns r)))).

(** ** Consuming: [handlePacket] *)
Definition le16_at (l : bytes) (i j : Z) : outcome Z := b ← go_slice l i j; get_le16 b.

(** The connection a packet addresses and its payload; [None] when the packet is
    dropped before the table is consulted. *)
Definition parse_packet (data : bytes) : outcome (option (Z * bytes)) :=
  if len data <? 14 then Ok None else
  itemCount ← le16_at data 0 2;
  if negb (itemCount =? 2) then Ok None else
  len1 ← le16_at data 4 6;
  if negb (len1 =? 4) then Ok None else
  connID ← (b ← go_slice data 6 10; get_le32 b);
  len2 ← le16_at data 12 14;
  if len data <? 14 + len2 then Ok None else
  payload ← go_slice data 14 (14 + len2);
  Ok (Some (connID, payload)).

(** The process data in a payload: after the sequence count and, if the
    connection has one, the run/idle header. *)
Definition process_data (runIdleHeader : bool) (payload : bytes) : outcome (option bytes) :=
  if len payload <? 2 then Ok None else
  let dataOffset := if runIdleHeader then 6 else 2 in
  if len payload <? dataOffset then Ok None else
  d ← go_slice payload dataOffset (len payload); Ok (Some d).

Definition consume (now : Z) (connID : Z) (payload : bytes) (r : Runtime) : outcome Runtime :=
  match io_conns r !! connID with
  | None => Ok r
  | Some conn =>
      let r := mkRuntime (<[connID := set_received now conn]> (io_conns r)) (assemblyObj r)
                 (stopped_conns r) in
      d ← process_data (RunIdleHeader conn) payload;
      Ok (match d, AssemblyID conn with
          | Some d, Some id =>
              mkRuntime (io_conns r)
                (Assembly.SetAttributeSingle id 3 d (assemblyObj r)).2 (stopped_conns r)
          | _, _ => r
          end)
  end.

Definition handlePacket (now : Z) (data : bytes) (r : Runtime) : outcome Runtime :=
  p ← parse_packet data;
  match p with None => Ok r | Some (connID, payload) => consume now connID payload r end.

(** ** Producing: [processTick] and [sendPacketFromSnapshot] *)
Record connSnapshot : Type := mkSnap {
  sn_ConnectionID : Z;
  sn_SequenceCount : Z;
  sn_RunIdleHeader : bool;
  sn_RemoteAddr : option Z;
  AssemblyData : bytes
}.

Definition due (now : Z) (c : IOConnection) : bool :=
  IsProducer c && negb (now - LastSend c <? RPI c) &&
  match AssemblyID c with Some _ => true | None => false end.

(** A visited connection after the tick. *)
Definition tick_conn (now : Z) (c : IOConnection) : IOConnection :=
  if due now c then
    mkIO (ConnectionID c) (RPI c) (u16 (SequenceCount c + 1)) (RunIdleHeader c) (RemoteAddr c)
      (AssemblyID c) (LastReceive c) now (TimeoutMult c) (IsProducer c) (IsConsumer c) (StopChan c)
  else c.
(** What the tick sends for it. *)
Definition snapshot (now : Z) (ao : Assembly.AssemblyObject) (c : IOConnection)
  : option connSnapshot :=
  if due now c then
    match AssemblyID c with
    | None => None
    | Some id =>
        match Assembly.GetAttributeSingle id 3 ao with
        | Ok dataCopy =>
            Some (mkSnap (ConnectionID c) (u16 (SequenceCount c + 1)) (RunIdleHeader c)
                    (RemoteAddr c) dataCopy)
        | _ => None
        end
    end
  else None.

(** [copy(buf[i:], data)]: as much as fits. *)
Definition copy_into (buf : bytes) (i : Z) (data : bytes) : outcome bytes :=
  if decide (0 <= i <= len buf)
  then put_at buf i (take (Z.to_nat (len buf - i)) data) else Panic.

Definition packet_bytes (snap : connSnapshot) : outcome bytes :=
  buf ← go_make 2048;
  buf ← put_at buf 0 (le16 2);
  buf ← put_at buf 2 (le16 0x00A1);
  buf ← put_at buf 4 (le16 4);
  buf ← put_at buf 6 (le32 (sn_ConnectionID snap));
  buf ← put_at buf 10 (le16 0x00B1);
  let dataLen := (if sn_RunIdleHeader snap then 6 else 2) + len (AssemblyData snap) in
  buf ← put_at buf 12 (le16 (u16 dataLen));
  buf ← put_at buf 14 (le16 (sn_SequenceCount snap));
  buf ← (if sn_RunIdleHeader snap then put_at buf 16 (le32 1) else Ok buf);
  let offset := if sn_RunIdleHeader snap then 20 else 16 in
  buf ← copy_into buf offset (AssemblyData snap);
  go_slice buf 0 (offset + len (AssemblyData snap)).

(** The datagram, when there is an address to send it to. *)
Definition sendPacketFromSnapshot (snap : connSnapshot) : outcome (option (Z * bytes)) :=
  match sn_RemoteAddr snap with
  | None => Ok None
  | Some addr => b ← packet_bytes snap; Ok (Some (addr, b))
  end.

Definition tick_snapshots (now : Z) (r : Runtime) : list connSnapshot :=
  omap (snapshot now (assemblyObj r)) (map snd (map_to_list (io_conns r))).
Definition processTick (now : Z) (r : Runtime) : outcome (list (Z * bytes)) * Runtime :=
  (match mapO sendPacketFromSnapshot (tick_snapshots now r) with
   | Ok sent => Ok (omap (fun d : option (Z * bytes) => d) sent)
   | Err e => Err e
   | Panic => Panic
   end,
   mkRuntime ((tick_conn now <$> io_conns r : gmap Z IOConnection)) (assemblyObj r)
     (stopped_conns r)).

(** ** Lemmas: the packet *)
Definition snap_ok (s : connSnapshot) : Prop :=
  is_u32 (sn_ConnectionID s) /\ is_u16 (sn_SequenceCount s) /\
  len (AssemblyData s) <= (if sn_RunIdleHeader s then 2028 else 2032).

(** The packet, as a concatenation. *)
Definition packet_of (s : connSnapshot) : bytes :=
  le16 2 ++ le16 0x00A1 ++ le16 4 ++ le32 (sn_ConnectionID s) ++ le16 0x00B1 ++
  le16 ((if sn_RunIdleHeader s then 6 else 2) + len (AssemblyData s)) ++
  le16 (sn_SequenceCount s) ++ (if sn_RunIdleHeader s then le32 1 else []) ++ AssemblyData s.

(** Writing the next field of a buffer whose front is already written. *)
Lemma put_next (pre bs : bytes) (k : nat) i :
  i = len pre -> (length bs <= k)%nat ->
  put_at (pre ++ replicate k 0) i bs = Ok ((pre ++ bs) ++ replicate (k - length bs) 0).
Proof.
  intros -> Hk. replace k with (length bs + (k - length bs))%nat at 1 by lia.
  rewrite replicate_add. rewrite put_at_mid; [by rewrite <-app_assoc|done|by rewrite length_replicate].
Qed.

Lemma copy_next (pre data : bytes) (k : nat) i :
  i = len pre ->
  copy_into (pre ++ replicate k 0) i data =
    Ok ((pre ++ take k data) ++ replicate (k - length data) 0).
Proof.
  intros ->. unfold copy_into. pose proof (len_nonneg pre). lens.
  rewrite decide_True by lia. replace (Z.to_nat _) with k by lia.
  rewrite put_next; [|done|rewrite length_take; lia]. do 3 f_equal. rewrite length_take. lia.
Qed.

(** The buffer when the process data is about to be copied in. *)
Definition packet_head (s : connSnapshot) : bytes :=
  le16 2 ++ le16 0x00A1 ++ le16 4 ++ le32 (sn_ConnectionID s) ++ le16 0x00B1 ++
  le16 (u16 ((if sn_RunIdleHeader s then 6 else 2) + len (AssemblyData s))) ++
  le16 (sn_SequenceCount s) ++ (if sn_RunIdleHeader s then le32 1 else []).

Lemma packet_bytes_head s :
  let offset := if sn_RunIdleHeader s then 20 else 16 in
  len (packet_head s) = offset /\
  packet_bytes s =
    (buf ← copy_into (packet_head s ++ replicate (2048 - Z.to_nat offset) 0) offset (AssemblyData s);
     go_slice buf 0 (offset + len (AssemblyData s))).
Proof.
  cbv zeta. split; [by unfold packet_head; destruct (sn_RunIdleHeader s)|].
  unfold packet_bytes, packet_head. set (n := 2048%nat).
  assert (go_make 2048 = Ok ([] ++ replicate n 0)) as -> by reflexivity.
  assert (n > 100)%nat as Hn by (unfold n; lia). clearbody n.
  do 7 (cbn [mbind outcome_bind]; rewrite put_next; [|by lens|cbn [le16 le32 length]; lia]).
  destruct (sn_RunIdleHeader s); cbn [mbind outcome_bind].
  - rewrite put_next; [|by lens|cbn [le16 le32 length]; lia]. cbn [mbind outcome_bind].
    match goal with |- context [replicate (?x - length (le32 1)) 0] =>
      replace (x - length (le32 1))%nat with (n - Z.to_nat 20)%nat
        by (cbn [le16 le32 length]; lia) end.
    by rewrite <-!app_assoc, app_nil_l.
  - match goal with |- context [replicate (?x - length (le16 (sn_SequenceCount s))) 0] =>
      replace (x - length (le16 (sn_SequenceCount s)))%nat with (n - Z.to_nat 16)%nat
        by (cbn [le16 le32 length]; lia) end.
    by rewrite app_nil_r, <-!app_assoc, app_nil_l.
Qed.

Lemma packet_bytes_ok s : snap_ok s -> packet_bytes s = Ok (packet_of s).
Proof.
  intros (Hid & Hseq & Hl). pose proof (len_nonneg (AssemblyData s)) as H0.
  destruct (packet_bytes_head s) as [Eh ->]. rewrite copy_next by done. go_bind.
  rewrite take_ge by (destruct (sn_RunIdleHeader s); width_lia).
  rewrite go_slice_prefix by (lens; lia). f_equal. unfold packet_head, packet_of.
  rewrite u16_small by (destruct (sn_RunIdleHeader s); width_lia). by rewrite <-!app_assoc.
Qed.

(** Process data that does not fit the buffer makes the sender slice out of range. *)
Lemma packet_bytes_panics s :
  (if sn_RunIdleHeader s then 2028 else 2032) < len (AssemblyData s) -> packet_bytes s = Panic.
Proof.
  intros Hl. destruct (packet_bytes_head s) as [Eh ->]. rewrite copy_next by done. go_bind.
  unfold go_slice. rewrite decide_False; [done|]. rewrite !len_app, Eh, len_replicate.
  unfold len in *. rewrite length_take. destruct (sn_RunIdleHeader s); lia.
Qed.

Lemma le16_at_mid (p s : bytes) v i j :
  i = len p -> j = i + 2 -> is_u16 v -> le16_at (p ++ le16 v ++ s) i j = Ok v.
Proof.
  intros -> -> Hv. unfold le16_at. rewrite go_slice_mid by (lens; lia). go_bind.
  rewrite <-(app_nil_r (le16 v)). by apply get_le16_le16.
Qed.

Lemma le16_at_head (s : bytes) v : is_u16 v -> le16_at (le16 v ++ s) 0 2 = Ok v.
Proof. by apply (le16_at_mid []). Qed.

(** The payload of a packet: sequence count, run/idle header, process data. *)
Definition payload_of (s : connSnapshot) : bytes :=
  le16 (sn_SequenceCount s) ++ (if sn_RunIdleHeader s then le32 1 else []) ++ AssemblyData s.

Lemma parse_packet_of s :
  snap_ok s -> parse_packet (packet_of s) = Ok (Some (sn_ConnectionID s, payload_of s)).
Proof.
  intros (Hid & Hseq & Hl). pose proof (len_nonneg (AssemblyData s)) as H0.
  set (n := (if sn_RunIdleHeader s then 6 else 2) + len (AssemblyData s)).
  assert (len (payload_of s) = n) as En.
  { unfold payload_of, n. destruct (sn_RunIdleHeader s); lens; lia. }
  assert (is_u16 n) as Hn by (unfold n; destruct (sn_RunIdleHeader s); width_lia).
  assert (packet_of s = le16 2 ++ le16 0x00A1 ++ le16 4 ++ le32 (sn_ConnectionID s) ++
            le16 0x00B1 ++ le16 n ++ payload_of s) as -> by done.
  unfold parse_packet. pose proof (len_nonneg (payload_of s)).
  replace (_ <? 14) with false by (symmetry; lens; lia).
  rewrite le16_at_head by done. go_bind. change (negb (2 =? 2)) with false.
  cbv iota. rewrite app_assoc. rewrite le16_at_mid by (by lens || done). go_bind.
  change (negb (4 =? 4)) with false. cbv iota. rewrite (app_assoc _ (le16 4)).
  rewrite go_slice_mid by (by lens). rewrite <-(app_nil_r (le32 _)) at 1.
  rewrite get_le32_le32 by done. rewrite (app_assoc _ (le32 _)), (app_assoc _ (le16 0x00B1)).
  rewrite le16_at_mid by (by lens || done).
  replace (_ <? 14 + n) with false by (symmetry; lens; lia).
  rewrite (app_assoc _ (le16 n)). by rewrite go_slice_suffix by (lens; lia).
Qed.

Lemma process_data_of s :
  snap_ok s -> process_data (sn_RunIdleHeader s) (payload_of s) = Ok (Some (AssemblyData s)).
Proof.
  intros _. pose proof (len_nonneg (AssemblyData s)) as H0. unfold process_data, payload_of.
  destruct (sn_RunIdleHeader s).
  - replace (_ <? 2) with false by (symmetry; lens; lia).
    replace (_ <? 6) with false by (symmetry; lens; lia).
    rewrite app_assoc. by rewrite go_slice_suffix by (lens; lia).
  - replace (_ <? 2) with false by (symmetry; lens; lia). cbn [app].
    by rewrite go_slice_suffix by (lens; lia).
Qed.

(** ** Lemmas: consuming arbitrary packets *)
Lemma slice_bytes data i j :
  bytes_ok data -> 0 <= i <= j -> j <= len data ->
  exists b, go_slice data i j = Ok b /\ len b = j - i /\ bytes_ok b.
Proof.
  intros Hd Hi Hj. unfold go_slice. rewrite decide_True by lia. eexists. split; [done|].
  split; [|by apply Forall_take, Forall_drop].
  unfold len in *. rewrite length_take, length_drop. lia.
Qed.

Lemma le16_at_in data i j :
  bytes_ok data -> 0 <= i -> j = i + 2 -> j <= len data ->
  exists v, le16_at data i j = Ok v /\ is_u16 v.
Proof.
  intros Hd Hi -> Hj. unfold le16_at.
  destruct (slice_bytes data i (i + 2) Hd) as (b & -> & Hl & Hb); [lia..|].
  destruct b as [|x [|y l]]; [revert Hl; change (len (@nil Z)) with 0; lia|
    revert Hl; lens; lia|].
  apply Forall_cons in Hb as [Hx [Hy _]%Forall_cons]. eexists. split; [done|].
  rewrite lor_shift_add by (unfold is_u8 in *; lia). unfold is_u8, is_u16 in *. lia.
Qed.

Lemma parse_packet_total data : bytes_ok data -> exists p, parse_packet data = Ok p.
Proof.
  intros Hd. unfold parse_packet. destruct (len data <? 14) eqn:El; [by eexists|].
  destruct (le16_at_in data 0 2) as (v0 & -> & _); [done|lia..|]. go_bind.
  destruct (negb (v0 =? 2)); [by eexists|].
  destruct (le16_at_in data 4 6) as (v1 & -> & _); [done|lia..|]. go_bind.
  destruct (negb (v1 =? 4)); [by eexists|].
  destruct (slice_bytes data 6 10 Hd) as (b & -> & Hl & _); [lia..|].
  destruct b as [|b0 [|b1 [|b2 [|b3 l]]]]; [..|cbn [get_le32]];
    try (exfalso; revert Hl; unfold len; simpl; lia).
  destruct (le16_at_in data 12 14) as (v3 & -> & H3); [done|lia..|].
  destruct (len data <? 14 + v3) eqn:E4; [by eexists|].
  destruct (slice_bytes data 14 (14 + v3) Hd) as (p & -> & _ & _); [unfold is_u16 in H3; lia..|].
  by eexists.
Qed.

Lemma process_data_total b payload : exists d, process_data b payload = Ok d.
Proof.
  unfold process_data. destruct (len payload <? 2) eqn:E2; [by eexists|].
  destruct (len payload <? (if b then 6 else 2)) eqn:E6; [by eexists|].
  unfold go_slice. rewrite decide_True by (destruct b; lia). by eexists.
Qed.

(** ** Properties *)

(** Received packets.  Whatever bytes arrive on the UDP port, the runtime
    processes them without crashing: no assembly changes its size, no connection
    appears or disappears, only the receive time of the addressed connection may
    change, and a packet for an unknown connection changes nothing. *)
Theorem io_packet_total now data r :
  bytes_ok data ->
  exists r', handlePacket now data r = Ok r' /\
    Assembly.sizes (assemblyObj r') = Assembly.sizes (assemblyObj r) /\
    stopped_conns r' = stopped_conns r /\
    (r' = r \/ exists id conn, parse_packet data <> Ok None /\ io_conns r !! id = Some conn /\
       io_conns r' = <[id := set_received now conn]> (io_conns r)).
Proof.
  intros Hd. unfold handlePacket. destruct (parse_packet_total data Hd) as [p Ep].
  rewrite Ep. go_bind. destruct p as [[id payload]|]; [|by exists r; auto].
  unfold consume. destruct (io_conns r !! id) as [conn|] eqn:Ec; [|by exists r; auto].
  destruct (process_data_total (RunIdleHeader conn) payload) as [d ->]. go_bind.
  eexists. split; [done|]. destruct d as [d|], (AssemblyID conn) as [aid|];
    (split; [try apply Assembly.Set_sizes; done|]); (split; [done|]); right;
    exists id, conn; by rewrite ?Ep.
Qed.

(** Cyclic data arrives.  When a producer's connection is due, the datagram
    of the tick, received by a runtime that has the connection as a consumer of
    an assembly of the same size (and the same run/idle setting), stores exactly
    the produced assembly's data in the consumed assembly and marks the
    connection as alive; nothing else changes at the receiver.  This covers the
    assembly sizes that fit the 2048-byte packet buffer. *)
Theorem io_roundtrip now now' (ao : Assembly.AssemblyObject) (rx : Runtime) pc s cc addr aid inst :
  snapshot now ao pc = Some s -> snap_ok s -> sn_RemoteAddr s = Some addr ->
  io_conns rx !! ConnectionID pc = Some cc -> RunIdleHeader cc = RunIdleHeader pc ->
  AssemblyID cc = Some aid -> Assembly.GetInstance aid (assemblyObj rx) = Some inst ->
  len (Assembly.as_Data inst) = len (AssemblyData s) ->
  exists pkt rx',
    sendPacketFromSnapshot s = Ok (Some (addr, pkt)) /\
    handlePacket now' pkt rx = Ok rx' /\
    (exists pid, AssemblyID pc = Some pid /\
       Assembly.GetAttributeSingle aid 3 (assemblyObj rx') = Assembly.GetAttributeSingle pid 3 ao) /\
    (forall j, j <> aid ->
       Assembly.GetInstance j (assemblyObj rx') = Assembly.GetInstance j (assemblyObj rx)) /\
    io_conns rx' = <[ConnectionID pc := set_received now' cc]> (io_conns rx) /\
    stopped_conns rx' = stopped_conns rx.
Proof.
  intros Hs Hok Ha Hc Hr Haid Hin Hl. unfold snapshot in Hs.
  destruct (due now pc); [|done]. destruct (AssemblyID pc) as [pid|]; [|done].
  destruct (Assembly.GetAttributeSingle pid 3 ao) as [d|e|] eqn:Eg; [|done|done].
  injection Hs as <-. cbn [sn_RemoteAddr AssemblyData] in *. subst.
  rewrite Ha in *. unfold sendPacketFromSnapshot, handlePacket. cbn [sn_RemoteAddr].
  rewrite packet_bytes_ok by done. go_bind. do 2 eexists. split; [done|].
  rewrite parse_packet_of by done. cbn [sn_ConnectionID]. unfold consume. rewrite Hc, Hr.
  pose proof (process_data_of _ Hok) as Hp. cbn [sn_RunIdleHeader AssemblyData] in Hp. rewrite Hp.
  go_bind. rewrite Haid. split; [done|]. cbn [assemblyObj io_conns stopped_conns].
  unfold Assembly.SetAttributeSingle, Assembly.GetInstance in *. rewrite Hin.
  change (3 =? 3) with true. cbv iota.
  replace (len d =? _) with true by (symmetry; lia). cbn [negb snd].
  split; [|split; [|done]].
  - exists pid. split; [done|]. unfold Assembly.GetAttributeSingle at 1. cbn [Assembly.instances].
    by rewrite lookup_insert_eq.
  - intros j Hj. cbn [Assembly.instances]. by rewrite lookup_insert_ne.
Qed.

(** Oversized assemblies.  The scheduler copies the process data into a
    2048-byte buffer and then slices the buffer by the data's length: an
    assembly of more than 2032 bytes (2028 with the run/idle header), which
    nothing rejects at registration, makes the tick that sends it panic. *)
Theorem oversized_assembly_panics now ao c id inst addr :
  due now c = true -> AssemblyID c = Some id -> RemoteAddr c = Some addr ->
  Assembly.GetInstance id ao = Some inst ->
  (if RunIdleHeader c then 2028 else 2032) < len (Assembly.as_Data inst) ->
  exists s, snapshot now ao c = Some s /\ sendPacketFromSnapshot s = Panic.
Proof.
  intros Hd Hid Ha Hin Hl. unfold snapshot, Assembly.GetAttributeSingle, Assembly.GetInstance in *.
  rewrite Hd, Hid, Hin. change (3 =? 3) with true. eexists. split; [done|].
  unfold sendPacketFromSnapshot. cbn [sn_RemoteAddr]. rewrite Ha. by rewrite packet_bytes_panics.
Qed.

(** The watchdog removes exactly the consumers that have been silent for longer
    than their timeout, RPI times 4 times 2^multiplier while that fits 63 bits,
    with their channel closed; producers and live consumers stay untouched. *)
Theorem watchdog_spec now r k c :
  io_conns r !! k = Some c -> 0 <= TimeoutMult c <= 61 -> 0 <= RPI c ->
  RPI c * (4 * 2 ^ TimeoutMult c) < 9223372036854775808 -> 4 * 2 ^ TimeoutMult c < 9223372036854775808 ->
  let r' := io_checkTimeouts now r in
  if IsConsumer c && (RPI c * (4 * 2 ^ TimeoutMult c) <? now - LastReceive c)
  then io_conns r' !! k = None /\ stop c ∈ stopped_conns r'
  else io_conns r' !! k = Some c.
Proof.
  intros Hk Hm Hr Hb Hb4 r'.
  assert (io_timeout c = RPI c * (4 * 2 ^ TimeoutMult c)) as Et.
  { unfold io_timeout. rewrite Z.shiftl_mul_pow2 by lia.
    assert (0 < 2 ^ TimeoutMult c) by (apply Z.pow_pos_nonneg; lia).
    unfold u64, i64. rewrite (Z.mod_small (4 * _)) by lia.
    rewrite (Z.mod_small (4 * _ + _)) by lia. rewrite Z.add_simpl_r.
    rewrite Z.mod_small by nia. lia. }
  rewrite <-Et. fold (io_expired now c). destruct (io_expired now c) eqn:E.
  - split.
    + apply map_lookup_filter_None. right. intros c' Hc'. simplify_eq. simpl. congruence.
    + cbn [stopped_conns r' io_checkTimeouts]. apply elem_of_app. right.
      apply list_elem_of_fmap. exists (k, c). split; [done|].
      apply list_elem_of_filter. split; [done|]. by apply elem_of_map_to_list.
  - apply map_lookup_filter_Some. by split.
Qed.

(** ** Witnesses *)
Definition demo_conn : IOConnection :=
  mkIO 0x80000001 10000000 41 true (Some 7) (Some 100) 0 0 0 true false NilChan.
Definition demo_assembly (data : bytes) : Assembly.AssemblyObject :=
  Assembly.RegisterAssembly 100 data Assembly.NewAssemblyObject.
Definition demo_receiver : Runtime :=
  AddConnection 5 (mkIO 0x80000001 10000000 0 true None (Some 100) 0 0 0 false true OpenChan)
    (NewRuntime (demo_assembly [0; 0; 0])).

Lemma io_packet_total_witness :
  exists r', handlePacket 9 [2; 0; 1] demo_receiver = Ok r' /\
    Assembly.sizes (assemblyObj r') = Assembly.sizes (assemblyObj demo_receiver).
Proof.
  destruct (io_packet_total 9 [2; 0; 1] demo_receiver ltac:(decided)) as (r' & H1 & H2 & _).
  by exists r'.
Defined.

Lemma io_roundtrip_witness :
  exists pkt rx',
    sendPacketFromSnapshot (mkSnap 0x80000001 42 true (Some 7) [1; 2; 3]) = Ok (Some (7, pkt)) /\
    handlePacket 9 pkt demo_receiver = Ok rx' /\
    Assembly.GetAttributeSingle 100 3 (assemblyObj rx') = Ok [1; 2; 3].
Proof.
  destruct (io_roundtrip 20000000 9 (demo_assembly [1; 2; 3]) demo_receiver demo_conn
    (mkSnap 0x80000001 42 true (Some 7) [1; 2; 3])
    (set_received 5 (mkIO 0x80000001 10000000 0 true None (Some 100) 0 0 0 false true OpenChan))
    7 100 (Assembly.mkInstance 100 [0; 0; 0]))
    as (pkt & rx' & H1 & H2 & (pid & Hp & H3) & _); try reflexivity.
  - split; [decided|]. split; [decided|]. by vm_compute.
  - exists pkt, rx'. split; [exact H1|]. split; [exact H2|]. by injection Hp as <-.
Defined.

Lemma oversized_assembly_panics_witness :
  exists s, snapshot 20000000 (demo_assembly (replicate 2029 0)) demo_conn = Some s /\
            sendPacketFromSnapshot s = Panic.
Proof.
  apply (oversized_assembly_panics _ _ _ 100 (Assembly.mkInstance 100 (replicate 2029 0)) 7);
    reflexivity.
Defined.
