(* ===== verification/IOLife.v ===== *)
(** * The life of the I/O runtime and the scheduler

    Models the goroutines of [runtime/runtime.go] ([Start], [Stop], [listenLoop],
    [watchdogLoop]) and of [runtime/scheduler.go] ([Start], [Stop], [run]) around
    the operations of [IORuntime].  [Module Life] has the runtime's fields that
    change over its life (the socket, the done channel), the sockets and channels
    themselves, and the program counter of every goroutine [Start] launched;
    both loops read [r.conn] and [r.done] anew in every iteration, as the code
    does.  [Module StopChans] is the race between [RemoveConnection], which closes
    a connection's [StopChan] outside the lock, and the watchdog.  [Module Sched]
    is the scheduler's [stopOnce]. *)
From S2P Require Import Prelude Bytes Cip CipObjects IORuntime.

Module Life.

(** [listenLoop]: about to call [r.conn.ReadFromUDP], blocked on a socket, gone. *)
Inductive listener_pc : Type := LTop | LReading (sock : nat) | LGone.
(** [watchdogLoop]: about to evaluate the [select], waiting on a done channel and
    the ticker, gone. *)
Inductive watchdog_pc : Type := WTop | WSelect (ch : nat) | WGone.

(** Sockets and done channels by number, [true] once closed; [lf_waiting] calls
    of [Stop] are in [r.wg.Wait], [lf_stopped] have returned. *)
Record life : Type := mkLife {
  lf_rt : Runtime;
  lf_conn : option nat;
  lf_sockets : list bool;
  lf_done : option nat;
  lf_chans : list bool;
  lf_listeners : list listener_pc;
  lf_watchdogs : list watchdog_pc;
  lf_waiting : nat;
  lf_stopped : nat }.

Definition new_life (r : Runtime) : life := mkLife r None [] None [] [] [] 0 0.

Definition with_rt (s : life) (r : Runtime) : life :=
  mkLife r (lf_conn s) (lf_sockets s) (lf_done s) (lf_chans s) (lf_listeners s) (lf_watchdogs s)
    (lf_waiting s) (lf_stopped s).
Definition with_listener (s : life) (i : nat) (pc : listener_pc) : life :=
  mkLife (lf_rt s) (lf_conn s) (lf_sockets s) (lf_done s) (lf_chans s)
    (<[i := pc]> (lf_listeners s)) (lf_watchdogs s) (lf_waiting s) (lf_stopped s).
Definition with_watchdog (s : life) (i : nat) (pc : watchdog_pc) : life :=
  mkLife (lf_rt s) (lf_conn s) (lf_sockets s) (lf_done s) (lf_chans s)
    (lf_listeners s) (<[i := pc]> (lf_watchdogs s)) (lf_waiting s) (lf_stopped s).

(** [Start]; [err] is what resolving the address or [net.ListenUDP] returns. *)
Definition Start (err : option error) (s : life) : option error * life :=
  match err with
  | Some e => (Some e, s)
  | None =>
      (None, mkLife (lf_rt s) (Some (length (lf_sockets s))) (lf_sockets s ++ [false])
               (Some (length (lf_chans s))) (lf_chans s ++ [false])
               (lf_listeners s ++ [LTop]) (lf_watchdogs s ++ [WTop]) (lf_waiting s) (lf_stopped s))
  end.

(** [Stop] up to [r.wg.Wait]: closing a nil or a closed channel panics. *)
Definition Stop (s : life) : outcome life :=
  match lf_done s with
  | None => Panic
  | Some ch =>
      match lf_chans s !! ch with
      | Some false =>
          Ok (mkLife (lf_rt s) (lf_conn s)
                (match lf_conn s with Some k => <[k := true]> (lf_sockets s) | None => lf_sockets s end)
                (lf_done s) (<[ch := true]> (lf_chans s)) (lf_listeners s) (lf_watchdogs s)
                (S (lf_waiting s)) (lf_stopped s))
      | _ => Panic
      end
  end.

Definition listener_gone (pc : listener_pc) : bool := match pc with LGone => true | _ => false end.
Definition watchdog_gone (pc : watchdog_pc) : bool := match pc with WGone => true | _ => false end.
(** The counter of [r.wg] is zero. *)
Definition wg_zero (s : life) : bool :=
  forallb listener_gone (lf_listeners s) && forallb watchdog_gone (lf_watchdogs s).

(** What the goroutines and their callers do, one action at a time. *)
Inductive event : Type :=
| EStart (err : option error)
| EStop
| EStopReturn
| EListen (i : nat)
| EPacket (i : nat) (now : Z) (data : bytes)
| EClosedRead (i : nat)
| EReadError (i : nat)
| EWatch (i : nat)
| ETick (i : nat) (now : Z)
| EWatchDone (i : nat)
| EAdd (now : Z) (conn : IOConnection)
| ERemove (connID : Z)
| ESetAddr (connID : Z) (addr : option Z).

(** [None]: that action is not possible now (its goroutine is blocked). *)
Definition lstep (e : event) (s : life) : option (outcome life) :=
  match e with
  | EStart err => Some (Ok (Start err s).2)
  | EStop => Some (Stop s)
  | EStopReturn =>
      match lf_waiting s with
      | S n => if wg_zero s
               then Some (Ok (mkLife (lf_rt s) (lf_conn s) (lf_sockets s) (lf_done s) (lf_chans s)
                      (lf_listeners s) (lf_watchdogs s) n (S (lf_stopped s))))
               else None
      | O => None
      end
  | EListen i =>
      match lf_listeners s !! i with
      | Some LTop =>
          Some (Ok (with_listener s i (match lf_conn s with Some k => LReading k | None => LGone end)))
      | _ => None
      end
  | EPacket i now data =>
      match lf_listeners s !! i with
      | Some (LReading k) =>
          match lf_sockets s !! k with
          | Some false =>
              Some (r ← handlePacket now data (lf_rt s);
                    Ok (with_listener (with_rt s r) i LTop))
          | _ => None
          end
      | _ => None
      end
  | EClosedRead i =>
      match lf_listeners s !! i with
      | Some (LReading k) =>
          match lf_sockets s !! k with
          | Some true => Some (Ok (with_listener s i LGone))
          | _ => None
          end
      | _ => None
      end
  | EReadError i =>
      match lf_listeners s !! i with
      | Some (LReading k) => Some (Ok (with_listener s i LGone))
      | _ => None
      end
  | EWatch i =>
      match lf_watchdogs s !! i, lf_done s with
      | Some WTop, Some ch => Some (Ok (with_watchdog s i (WSelect ch)))
      | _, _ => None
      end
  | ETick i now =>
      match lf_watchdogs s !! i with
      | Some (WSelect ch) =>
          Some (Ok (with_watchdog (with_rt s (io_checkTimeouts now (lf_rt s))) i WTop))
      | _ => None
      end
  | EWatchDone i =>
      match lf_watchdogs s !! i with
      | Some (WSelect ch) =>
          match lf_chans s !! ch with
          | Some true => Some (Ok (with_watchdog s i WGone))
          | _ => None
          end
      | _ => None
      end
  | EAdd now conn => Some (Ok (with_rt s (AddConnection now conn (lf_rt s))))
  | ERemove connID => Some (Ok (with_rt s (RemoveConnection connID (lf_rt s))))
  | ESetAddr connID addr => Some (Ok (with_rt s (SetProducerAddr connID addr (lf_rt s))))
  end.

Fixpoint lrun (s : life) (es : list event) : option (outcome life) :=
  match es with
  | [] => Some (Ok s)
  | e :: es =>
      match lstep e s with
      | Some (Ok s) => lrun s es
      | other => other
      end
  end.

(** What the runtime's goroutines do of their own accord. *)
Definition internal (e : event) : bool :=
  match e with
  | EStopReturn | EListen _ | EClosedRead _ | EWatch _ | EWatchDone _ => true
  | _ => false
  end.

(** The last of the [Start]s that succeeded and the [Stop]s was a [Start]. *)
Definition armed (es : list event) : bool :=
  fold_left (fun b e => match e with EStart None => true | EStop => false | _ => b end) es false.

(** ** Lemmas *)
Definition chan_open (s : life) : bool :=
  match lf_done s with
  | Some ch => match lf_chans s !! ch with Some false => true | _ => false end
  | None => false
  end.

Lemma Stop_panics s : Stop s = Panic <-> chan_open s = false.
Proof.
  unfold Stop, chan_open. destruct (lf_done s) as [ch|]; [|done].
  by destruct (lf_chans s !! ch) as [[]|].
Qed.

Definition arms (b : bool) (e : event) : bool :=
  match e with EStart None => true | EStop => false | _ => b end.

Lemma lstep_armed e s s' : lstep e s = Some (Ok s') -> chan_open s' = arms (chan_open s) e.
Proof.
  destruct e; cbn [lstep]; intros E; try (repeat case_match; simplify_eq; done).
  - injection E as <-. destruct err; [done|]. cbn. unfold chan_open. cbn.
    by rewrite lookup_app_r, Nat.sub_diag.
  - injection E as E. unfold Stop in E. destruct (lf_done s) as [ch|] eqn:Ed; [|done].
    destruct (lf_chans s !! ch) as [[]|] eqn:Ec; try done. injection E as <-. unfold chan_open. cbn.
    rewrite list_lookup_insert_eq; [done|]. by eapply lookup_lt_Some.
  - destruct (lf_listeners s !! i) as [[]|]; try done. destruct (lf_sockets s !! sock) as [[]|]; try done.
    injection E as E. destruct (handlePacket _ _ _); try done. by injection E as <-.
Qed.

Lemma lrun_armed es : forall s s', lrun s es = Some (Ok s') ->
  chan_open s' = fold_left arms es (chan_open s).
Proof.
  induction es as [|e es IH]; intros s s' E; cbn in E |- *; [by injection E as <-|].
  destruct (lstep e s) as [[s1| |]|] eqn:E1; try done. rewrite (IH _ _ E).
  by rewrite (lstep_armed _ _ _ E1).
Qed.

(** Discipline: no [Start] before the goroutines of the last one are gone and
    its [Stop] has returned. *)
Definition allowed (e : event) (s : life) : bool :=
  match e with EStart None => wg_zero s && (lf_waiting s =? 0)%nat | _ => true end.
Fixpoint disciplined (s : life) (es : list event) : bool :=
  match es with
  | [] => true
  | e :: es =>
      allowed e s && match lstep e s with Some (Ok s) => disciplined s es | _ => true end
  end.

(** Every live goroutine is on the current socket or channel, and a [Stop] that
    waits has closed both. *)
Definition listener_ok (s : life) (pc : listener_pc) : Prop :=
  match pc with
  | LTop => is_Some (lf_conn s)
  | LReading k => lf_conn s = Some k
  | LGone => True
  end.
Definition watchdog_ok (s : life) (pc : watchdog_pc) : Prop :=
  match pc with
  | WTop => is_Some (lf_done s)
  | WSelect c => lf_done s = Some c
  | WGone => True
  end.
Record current (s : life) : Prop := {
  cu_listeners : Forall (listener_ok s) (lf_listeners s);
  cu_watchdogs : Forall (watchdog_ok s) (lf_watchdogs s);
  cu_conn : forall k, lf_conn s = Some k -> (k < length (lf_sockets s))%nat;
  cu_done : forall c, lf_done s = Some c -> (c < length (lf_chans s))%nat;
  cu_closed : lf_waiting s <> O ->
    (forall k, lf_conn s = Some k -> lf_sockets s !! k = Some true) /\
    (forall c, lf_done s = Some c -> lf_chans s !! c = Some true) }.

Lemma new_current r : current (new_life r).
Proof. by split; cbn; try constructor. Qed.

Lemma with_rt_current s r : current s -> current (with_rt s r).
Proof. intros I. by split; apply I. Qed.
Lemma with_listener_current s i pc : current s -> listener_ok s pc -> current (with_listener s i pc).
Proof. intros I Hpc. split; try apply I. cbn. apply Forall_insert; [apply I|done]. Qed.
Lemma with_watchdog_current s i pc : current s -> watchdog_ok s pc -> current (with_watchdog s i pc).
Proof. intros I Hpc. split; try apply I. cbn. apply Forall_insert; [apply I|done]. Qed.
Create HintDb life_db.
#[export] Hint Resolve with_rt_current with_listener_current with_watchdog_current : life_db.

Lemma gone_listeners (s : life) ls : forallb listener_gone ls = true -> Forall (listener_ok s) ls.
Proof. intros H. apply Forall_forall. intros pc Hp. rewrite forallb_forall in H.
  specialize (H pc). rewrite <-list_elem_of_In in H. by destruct pc; specialize (H Hp). Qed.
Lemma gone_watchdogs (s : life) ls : forallb watchdog_gone ls = true -> Forall (watchdog_ok s) ls.
Proof. intros H. apply Forall_forall. intros pc Hp. rewrite forallb_forall in H.
  specialize (H pc). rewrite <-list_elem_of_In in H. by destruct pc; specialize (H Hp). Qed.

Lemma start_current s : allowed (EStart None) s = true -> current s -> current (Start None s).2.
Proof.
  intros Ha I. cbn in Ha. apply andb_prop in Ha as [Hz Hw]. apply andb_prop in Hz as [Hl Hd].
  apply Nat.eqb_eq in Hw. split; cbn; rewrite ?length_app; cbn.
  - apply Forall_app. split; [by apply gone_listeners|]. apply Forall_singleton. cbn. eauto.
  - apply Forall_app. split; [by apply gone_watchdogs|]. apply Forall_singleton. cbn. eauto.
  - intros k [= <-]. lia.
  - intros c [= <-]. lia.
  - done.
Qed.

Lemma stop_current s s' : Stop s = Ok s' -> current s -> current s'.
Proof.
  intros E I. unfold Stop in E. destruct (lf_done s) as [ch|] eqn:Ed; [|done].
  destruct (lf_chans s !! ch) as [[]|] eqn:Ec; try done. injection E as <-.
  pose proof (cu_conn _ I) as Hk. split; cbn.
  - apply (cu_listeners _ I).
  - pose proof (cu_watchdogs _ I) as H. by unfold watchdog_ok in *; cbn; rewrite Ed in *.
  - intros k E. rewrite E, length_insert. auto.
  - intros c E. rewrite length_insert. apply (cu_done _ I). congruence.
  - intros _. split.
    + intros k E. rewrite E. apply list_lookup_insert_eq. auto.
    + intros c [= <-]. apply list_lookup_insert_eq. by apply (cu_done _ I).
Qed.

Lemma lstep_current e s s' :
  lstep e s = Some (Ok s') -> allowed e s = true -> current s -> current s'.
Proof.
  intros E Ha I. destruct e; cbn [lstep] in E.
  - injection E as <-. destruct err; [done|]. by apply start_current.
  - injection E as E. by eapply stop_current.
  - destruct (lf_waiting s) as [|n] eqn:Ew; [done|]. destruct (wg_zero s); [|done].
    injection E as <-. split; try apply I. cbn. intros _. apply (cu_closed _ I). by rewrite Ew.
  - destruct (lf_listeners s !! i) as [[]|] eqn:El; try done. injection E as <-.
    apply with_listener_current; [done|].
    pose proof (Forall_lookup_1 _ _ _ _ (cu_listeners _ I) El) as [k Hk]. by rewrite Hk.
  - destruct (lf_listeners s !! i) as [[]|] eqn:El; try done.
    destruct (lf_sockets s !! sock) as [[]|]; try done. injection E as E.
    destruct (handlePacket _ _ _); try done. injection E as <-.
    apply with_listener_current; [by apply with_rt_current|].
    pose proof (Forall_lookup_1 _ _ _ _ (cu_listeners _ I) El) as Hk. cbn in *. eauto.
  - destruct (lf_listeners s !! i) as [[]|]; try done.
    destruct (lf_sockets s !! sock) as [[]|]; try done. injection E as <-. by apply with_listener_current.
  - destruct (lf_listeners s !! i) as [[]|]; try done. injection E as <-. by apply with_listener_current.
  - destruct (lf_watchdogs s !! i) as [[]|] eqn:El; try done. destruct (lf_done s) eqn:Ed; [|done].
    injection E as <-. by apply with_watchdog_current.
  - destruct (lf_watchdogs s !! i) as [[]|] eqn:El; try done. injection E as <-.
    apply with_watchdog_current; [by apply with_rt_current|].
    pose proof (Forall_lookup_1 _ _ _ _ (cu_watchdogs _ I) El) as Hk. cbn in *. eauto.
  - destruct (lf_watchdogs s !! i) as [[]|] eqn:El; try done.
    destruct (lf_chans s !! ch) as [[]|]; try done. injection E as <-. by apply with_watchdog_current.
  - injection E as <-. by apply with_rt_current.
  - injection E as <-. by apply with_rt_current.
  - injection E as <-. by apply with_rt_current.
Qed.

Lemma lrun_current es : forall s s',
  lrun s es = Some (Ok s') -> disciplined s es = true -> current s -> current s'.
Proof.
  induction es as [|e es IH]; intros s s' E Hd I; cbn in E, Hd; [by injection E as <-|].
  destruct (lstep e s) as [[s1| |]|] eqn:E1; try done. apply andb_prop in Hd as [Ha Hd].
  eapply IH; [exact E|exact Hd|]. by eapply lstep_current.
Qed.

(** How many moves the goroutines still have. *)
Definition listener_weight (pc : listener_pc) : nat :=
  match pc with LTop => 2 | LReading _ => 1 | LGone => 0 end.
Definition watchdog_weight (pc : watchdog_pc) : nat :=
  match pc with WTop => 2 | WSelect _ => 1 | WGone => 0 end.
Definition life_work (s : life) : nat :=
  sum_list_with listener_weight (lf_listeners s) + sum_list_with watchdog_weight (lf_watchdogs s) +
  lf_waiting s.

Lemma life_work_decreases e s s' :
  internal e = true -> lstep e s = Some (Ok s') -> (life_work s' < life_work s)%nat.
Proof.
  intros Hi E. unfold life_work. destruct e; try done; cbn [lstep] in E.
  - destruct (lf_waiting s) as [|n]; [done|]. destruct (wg_zero s); [|done]. injection E as <-. cbn. lia.
  - destruct (lf_listeners s !! i) as [[]|] eqn:El; try done. injection E as <-. cbn.
    set (pc := match lf_conn s with Some k => _ | None => _ end).
    pose proof (sum_list_insert listener_weight _ i _ pc El). cbn [listener_weight] in *.
    assert (listener_weight pc <= 1)%nat by (unfold pc; destruct (lf_conn s); cbn; lia). lia.
  - destruct (lf_listeners s !! i) as [[]|] eqn:El; try done.
    destruct (lf_sockets s !! sock) as [[]|]; try done. injection E as <-. cbn.
    pose proof (sum_list_insert listener_weight _ i _ LGone El). cbn [listener_weight] in *. lia.
  - destruct (lf_watchdogs s !! i) as [[]|] eqn:El; try done. destruct (lf_done s) as [ch|]; [|done].
    injection E as <-. cbn. pose proof (sum_list_insert watchdog_weight _ i _ (WSelect ch) El).
    cbn [watchdog_weight] in *. lia.
  - destruct (lf_watchdogs s !! i) as [[]|] eqn:El; try done.
    destruct (lf_chans s !! ch) as [[]|]; try done. injection E as <-. cbn.
    pose proof (sum_list_insert watchdog_weight _ i _ WGone El). cbn [watchdog_weight] in *. lia.
Qed.

Lemma life_work_bounds es : forall s s', Forall (fun e => internal e = true) es ->
  lrun s es = Some (Ok s') -> (length es + life_work s' <= life_work s)%nat.
Proof.
  induction es as [|e es IH]; intros s s' Hi E; cbn in E |- *; [by injection E as <-|].
  apply Forall_cons in Hi as [Ha Hi]. destruct (lstep e s) as [[s1| |]|] eqn:E1; try done.
  pose proof (life_work_decreases e s s1 Ha E1). specialize (IH s1 s' Hi E). lia.
Qed.

Definition at_rest (s : life) : Prop := forall e, internal e = true -> lstep e s = None.

Lemma rest_stopped s : current s -> at_rest s -> lf_waiting s = O.
Proof.
  intros I Hr. destruct (lf_waiting s) as [|n] eqn:Ew; [done|]. exfalso.
  destruct (cu_closed _ I) as [Hs Hc]; [by rewrite Ew|].
  assert (forallb listener_gone (lf_listeners s) = true) as Hl.
  { apply forallb_forall. intros pc Hp%list_elem_of_In.
    apply list_elem_of_lookup in Hp as [i Hp].
    pose proof (Forall_lookup_1 _ _ _ _ (cu_listeners _ I) Hp) as Hok. destruct pc as [|k|]; [| |done].
    - pose proof (Hr (EListen i) eq_refl) as E. cbn in E. by rewrite Hp in E.
    - pose proof (Hr (EClosedRead i) eq_refl) as E. cbn in E. rewrite Hp, (Hs k Hok) in E. done. }
  assert (forallb watchdog_gone (lf_watchdogs s) = true) as Hw.
  { apply forallb_forall. intros pc Hp%list_elem_of_In.
    apply list_elem_of_lookup in Hp as [i Hp].
    pose proof (Forall_lookup_1 _ _ _ _ (cu_watchdogs _ I) Hp) as Hok. destruct pc as [|c|]; [| |done].
    - pose proof (Hr (EWatch i) eq_refl) as E. cbn in E. destruct Hok as [c Hok].
      by rewrite Hp, Hok in E.
    - pose proof (Hr (EWatchDone i) eq_refl) as E. cbn in E. rewrite Hp, (Hc c Hok) in E. done. }
  pose proof (Hr EStopReturn eq_refl) as E. cbn in E. unfold wg_zero in E.
  by rewrite Ew, Hl, Hw in E.
Qed.

(** ** Properties *)

(** [Stop] panics exactly when there is nothing to stop: over any history of
    calls and goroutine steps, a further [Stop] panics if and only if the last of
    the successful [Start]s and the [Stop]s was not a [Start]; so a [Stop] before
    the first [Start] and a second [Stop] both panic. *)
Theorem stop_panics_iff r es s :
  lrun (new_life r) es = Some (Ok s) -> (lstep EStop s = Some Panic <-> armed es = false).
Proof.
  intros E%lrun_armed. change (armed es) with (fold_left arms es (chan_open (new_life r))).
  rewrite <-E. cbn [lstep]. rewrite <-Stop_panics. split; [by intros [= ->]|by intros ->].
Qed.

(** [Stop] returns.  When the runtime is started again only after its
    goroutines are gone and [Stop] has returned, then from every state in which a
    [Stop] waits, the goroutines make at most [life_work s] moves of their own,
    and when none can move, [Stop] has returned: the closed socket ends the
    listener and the closed channel the watchdog. *)
Theorem stop_returns r es s :
  lrun (new_life r) es = Some (Ok s) -> disciplined (new_life r) es = true ->
  forall es' s', Forall (fun e => internal e = true) es' -> lrun s es' = Some (Ok s') ->
  (length es' <= life_work s)%nat /\ (at_rest s' -> lf_waiting s' = O).
Proof.
  intros E Hd es' s' Hi E'. split.
  { pose proof (life_work_bounds _ _ _ Hi E'). lia. }
  apply rest_stopped. apply (lrun_current es' s); [exact E'| |].
  - clear E. revert s E'. induction es' as [|e es' IH]; intros s E'; [done|]. cbn in *.
    apply Forall_cons in Hi as [He Hi]. destruct (lstep e s) as [[s1| |]|]; try done.
    rewrite (IH Hi s1 E'). by destruct e.
  - apply (lrun_current es (new_life r)); [exact E|exact Hd|apply new_current].
Qed.

(** ** Starting twice *)

(** Nothing happens to the socket of listener [i]. *)
Definition silent (i : nat) (e : event) : bool :=
  match e with
  | EPacket j _ _ | EReadError j => negb (j =? i)%nat
  | EStart None => false
  | _ => true
  end.

(** Listener [i] blocked on an open socket that is no longer [r.conn]. *)
Definition orphaned (i k : nat) (s : life) : Prop :=
  lf_listeners s !! i = Some (LReading k) /\ lf_sockets s !! k = Some false /\
  lf_conn s <> Some k.

Lemma with_listener_orphaned i k s j pc pc' :
  orphaned i k s -> lf_listeners s !! j = Some pc' -> pc' <> LReading k -> orphaned i k (with_listener s j pc).
Proof.
  intros (Hl & Hs & Hc) Hj Hne. split; [|done]. cbn. rewrite list_lookup_insert_ne; [done|].
  intros ->. congruence.
Qed.

Lemma orphan_stays i k e s s' :
  lstep e s = Some (Ok s') -> silent i e = true -> orphaned i k s -> orphaned i k s'.
Proof.
  intros E Hq Ho. pose proof Ho as (Hl & Hs & Hc). destruct e; cbn [lstep] in E.
  - destruct err; [|done]. by injection E as <-.
  - injection E as E. unfold Stop in E. destruct (lf_done s) as [ch|]; [|done].
    destruct (lf_chans s !! ch) as [[]|]; try done. injection E as <-. split; [done|]. split; [|done].
    cbn. destruct (lf_conn s) as [k'|]; [|done]. rewrite list_lookup_insert_ne; [done|congruence].
  - destruct (lf_waiting s); [done|]. destruct (wg_zero s); [|done]. by injection E as <-.
  - destruct (lf_listeners s !! i0) as [[]|] eqn:El; try done. injection E as <-.
    by eapply with_listener_orphaned.
  - destruct (lf_listeners s !! i0) as [[]|] eqn:El; try done.
    destruct (lf_sockets s !! sock) as [[]|]; try done. injection E as E.
    destruct (handlePacket _ _ _); try done. injection E as <-. split; [|done]. cbn.
    rewrite list_lookup_insert_ne; [done|]. intros ->. cbn in Hq. by rewrite Nat.eqb_refl in Hq.
  - destruct (lf_listeners s !! i0) as [[]|] eqn:El; try done.
    destruct (lf_sockets s !! sock) as [[]|] eqn:Es; try done. injection E as <-.
    eapply with_listener_orphaned; [done|done|]. intros [= ->]. congruence.
  - destruct (lf_listeners s !! i0) as [[]|] eqn:El; try done. injection E as <-.
    split; [|done]. cbn. rewrite list_lookup_insert_ne; [done|]. intros ->. cbn in Hq.
    by rewrite Nat.eqb_refl in Hq.
  - destruct (lf_watchdogs s !! i0) as [[]|]; try done. destruct (lf_done s); [|done].
    by injection E as <-.
  - destruct (lf_watchdogs s !! i0) as [[]|]; try done. by injection E as <-.
  - destruct (lf_watchdogs s !! i0) as [[]|]; try done.
    destruct (lf_chans s !! ch) as [[]|]; try done. by injection E as <-.
  - by injection E as <-.
  - by injection E as <-.
  - by injection E as <-.
Qed.

Lemma orphan_blocks i k s : orphaned i k s -> wg_zero s = false.
Proof.
  intros (Hl & _ & _). unfold wg_zero. destruct (forallb listener_gone _) eqn:E; [|done].
  rewrite forallb_forall in E. apply list_elem_of_lookup_2, list_elem_of_In in Hl.
  by apply E in Hl.
Qed.

(** Starting twice.  If the runtime is started again while its first
    listener is blocked in a read, the first socket is lost: [Stop] closes only
    the second one and then waits for the first listener, so unless a packet or a
    read error happens to reach the first socket, [Stop] never returns. *)
Theorem double_start_hangs r es s :
  lrun (new_life r) ([EStart None; EListen 0; EStart None; EStop] ++ es) = Some (Ok s) ->
  forallb (silent 0) es = true -> lf_stopped s = O /\ lf_sockets s !! 0%nat = Some false.
Proof.
  set (s0 := mkLife r (Some 1%nat) [false; true] (Some 1%nat) [false; true] [LReading 0; LTop]
    [WTop; WTop] 1 0).
  change (lrun _ _) with (lrun s0 es).
  assert (orphaned 0 0 s0 /\ lf_stopped s0 = O) as H0 by (repeat split; done).
  clearbody s0. revert s0 H0. induction es as [|e es IH]; intros s0 [Ho Hst] E Hq; cbn in E, Hq.
  - injection E as <-. split; [done|apply Ho].
  - apply andb_prop in Hq as [He Hq]. destruct (lstep e s0) as [[s1| |]|] eqn:E1; try done.
    apply (IH s1); [|exact E|exact Hq]. split; [by eapply orphan_stays|].
    pose proof (orphan_blocks _ _ _ Ho) as Hz. clear - E1 Hst Hz.
    destruct e; cbn [lstep] in E1; try (repeat case_match; simplify_eq; done).
    + destruct err; by injection E1 as <-.
    + injection E1 as E1. unfold Stop in E1. repeat case_match; simplify_eq; done.
    + destruct (lf_listeners s0 !! i) as [[]|]; try done.
      destruct (lf_sockets s0 !! sock) as [[]|]; try done. injection E1 as E1.
      destruct (handlePacket _ _ _); try done. by injection E1 as <-.
Qed.

(** ** Witnesses *)
Definition one_life : list event :=
  [EStart None; EListen 0; EWatch 0; EPacket 0 9 [2; 0; 1]; EListen 0; ETick 0 10; EStop].
Definition after (es : list event) : life :=
  match lrun (new_life demo_receiver) es with Some (Ok s) => s | _ => new_life demo_receiver end.

Lemma stop_panics_iff_witness : lstep EStop (after (one_life ++ [EWatch 0])) = Some Panic.
Proof.
  apply (stop_panics_iff demo_receiver (one_life ++ [EWatch 0])); vm_compute; reflexivity.
Defined.

Lemma stop_returns_witness : (4 <= life_work (after one_life))%nat.
Proof.
  apply (stop_returns demo_receiver one_life (after one_life)) with
    (es' := [EClosedRead 0; EWatch 0; EWatchDone 0; EStopReturn])
    (s' := after (one_life ++ [EClosedRead 0; EWatch 0; EWatchDone 0; EStopReturn])).
  - vm_compute. reflexivity.
  - vm_compute. reflexivity.
  - repeat constructor.
  - vm_compute. reflexivity.
Defined.

Definition two_lives : list event :=
  [EListen 1; EClosedRead 1; EWatch 0; EWatch 1; EWatchDone 0; EWatchDone 1].
Lemma double_start_hangs_witness :
  lf_stopped (after ([EStart None; EListen 0; EStart None; EStop] ++ two_lives)) = O.
Proof.
  apply (double_start_hangs demo_receiver two_lives); vm_compute; reflexivity.
Defined.
End Life.

(** * Closing a connection's [StopChan] *)
Module StopChans.

(** [RemoveConnection] after it has taken the connection out of the table and
    released the lock: before its [select], between the [select] and the
    [close], done. *)
Inductive remover_pc : Type := RTaken (l : positive) | RChecked (l : positive) | RDone.

(** The table (connection identifier to object, all with a channel), the objects
    whose channel is closed, the watchdog between its [select] and its [close]
    (holding the lock), the calls of [RemoveConnection], and the objects ever
    added. *)
Record st : Type := mkSt {
  table : gmap Z positive;
  closed : gset positive;
  watchdog : option (Z * positive);
  removers : list remover_pc;
  added : gset positive }.

Definition init : st := mkSt ∅ ∅ None [] ∅.

Inductive act : Type :=
| AAdd (id : Z) (l : positive)
| ARemove (id : Z)
| ACheck (i : nat)
| AClose (i : nat)
| AExpire (id : Z)
| AExpireClose.

(** [close(ch)] *)
Definition close (l : positive) (c : gset positive) : outcome (gset positive) :=
  if bool_decide (l ∈ c) then Panic else Ok ({[l]} ∪ c).

(** The lock is free unless the watchdog is at its [close]. *)
Definition astep (a : act) (s : st) : option (outcome st) :=
  match a with
  | AAdd id l =>
      match watchdog s with
      | None => Some (Ok (mkSt (<[id := l]> (table s)) (closed s) None (removers s) ({[l]} ∪ added s)))
      | Some _ => None
      end
  | ARemove id =>
      match watchdog s with
      | None =>
          Some (Ok (mkSt (delete id (table s)) (closed s) None
            (removers s ++ [match table s !! id with Some l => RTaken l | None => RDone end])
            (added s)))
      | Some _ => None
      end
  | ACheck i =>
      match removers s !! i with
      | Some (RTaken l) =>
          Some (Ok (mkSt (table s) (closed s) (watchdog s)
            (<[i := if bool_decide (l ∈ closed s) then RDone else RChecked l]> (removers s)) (added s)))
      | _ => None
      end
  | AClose i =>
      match removers s !! i with
      | Some (RChecked l) =>
          Some (c ← close l (closed s);
                Ok (mkSt (table s) c (watchdog s) (<[i := RDone]> (removers s)) (added s)))
      | _ => None
      end
  | AExpire id =>
      match watchdog s, table s !! id with
      | None, Some l =>
          Some (Ok (if bool_decide (l ∈ closed s)
                    then mkSt (delete id (table s)) (closed s) None (removers s) (added s)
                    else mkSt (table s) (closed s) (Some (id, l)) (removers s) (added s)))
      | _, _ => None
      end
  | AExpireClose =>
      match watchdog s with
      | Some (id, l) =>
          Some (c ← close l (closed s);
                Ok (mkSt (delete id (table s)) c None (removers s) (added s)))
      | None => None
      end
  end.

(** Every object is added once. *)
Definition fresh_add (a : act) (s : st) : bool :=
  match a with AAdd _ l => bool_decide (l ∉ added s) | _ => true end.

Fixpoint arun (s : st) (l : list act) : option (outcome st) :=
  match l with
  | [] => Some (Ok s)
  | a :: l => match astep a s with Some (Ok s) => arun s l | other => other end
  end.
Fixpoint adds_fresh (s : st) (l : list act) : bool :=
  match l with
  | [] => true
  | a :: l => fresh_add a s && match astep a s with Some (Ok s) => adds_fresh s l | _ => true end
  end.

Definition holding (pc : remover_pc) : option positive :=
  match pc with RTaken l | RChecked l => Some l | RDone => None end.

(** An object is in the table under one identifier, or held by one
    [RemoveConnection], or neither; its channel is open as long as it is. *)
Record inv (s : st) : Prop := {
  iv_added : forall id l, table s !! id = Some l -> l ∈ added s;
  iv_open : forall id l, table s !! id = Some l -> l ∉ closed s;
  iv_inj : forall id id' l, table s !! id = Some l -> table s !! id' = Some l -> id = id';
  iv_rem : forall i pc l, removers s !! i = Some pc -> holding pc = Some l ->
    l ∈ added s /\ (l ∉ closed s) /\ (forall id, table s !! id <> Some l) /\
    forall j pc', removers s !! j = Some pc' -> holding pc' = Some l -> j = i;
  iv_closed : closed s ⊆ added s;
  iv_watch : forall id l, watchdog s = Some (id, l) -> table s !! id = Some l }.

Lemma removers_insert (rs : list remover_pc) i pc j pc' :
  <[i := pc]> rs !! j = Some pc' -> (j = i /\ pc' = pc) \/ (j <> i /\ rs !! j = Some pc').
Proof. intros [(<- & <- & _)|[? ?]]%list_lookup_insert_Some; auto. Qed.

Lemma add_inv id l s :
  inv s -> watchdog s = None -> l ∉ added s ->
  inv (mkSt (<[id := l]> (table s)) (closed s) None (removers s) ({[l]} ∪ added s)).
Proof.
  intros I Hw Hn. split; cbn.
  - intros id' l' [[<- <-]|[_ E]]%lookup_insert_Some; [set_solver|].
    apply (iv_added _ I) in E. set_solver.
  - intros id' l' [[<- <-]|[_ E]]%lookup_insert_Some; [|by eapply iv_open].
    intros Hc%(iv_closed _ I). done.
  - intros a b l' [[<- <-]|[_ E]]%lookup_insert_Some [[<- Eq]|[_ E']]%lookup_insert_Some; try done.
    + by apply (iv_added _ I) in E'.
    + subst. by apply (iv_added _ I) in E.
    + by eapply iv_inj.
  - intros i pc l' Ei Hh. destruct (iv_rem _ I i pc l' Ei Hh) as (Ha & Hc & Ht & Hu).
    split; [set_solver|]. split; [done|]. split; [|done].
    intros a [[<- <-]|[_ E]]%lookup_insert_Some; [done|]. by apply (Ht a).
  - pose proof (iv_closed _ I). set_solver.
  - done.
Qed.

Lemma take_inv id s :
  inv s -> watchdog s = None ->
  inv (mkSt (delete id (table s)) (closed s) None
    (removers s ++ [match table s !! id with Some l => RTaken l | None => RDone end]) (added s)).
Proof.
  intros I Hw.
  assert (forall j pc l, (removers s ++ [match table s !! id with Some l => RTaken l | None => RDone end])
    !! j = Some pc -> holding pc = Some l -> removers s !! j = Some pc \/
    (j = length (removers s) /\ table s !! id = Some l)) as Hsplit.
  { intros j pc l [E|[Hlt E]]%lookup_app_Some Hh; [by left|right].
    apply list_lookup_singleton_Some in E as [Hj <-]. destruct (table s !! id) as [l'|]; [|done].
    injection Hh as ->. split; [lia|done]. }
  split; cbn; try (by intros ? ? [_ ?]%lookup_delete_Some; eauto using iv_added, iv_open).
  - intros a b l [_ E]%lookup_delete_Some [_ E']%lookup_delete_Some. by eapply iv_inj.
  - intros i pc l Ei Hh. destruct (Hsplit i pc l Ei Hh) as [Er|[-> Et]].
    + destruct (iv_rem _ I i pc l Er Hh) as (Ha & Hc & Ht & Hu). split; [done|]. split; [done|].
      split; [intros a [_ E]%lookup_delete_Some; by apply (Ht a)|].
      intros j pc' Ej Hh'. destruct (Hsplit j pc' l Ej Hh') as [Er'|[-> Et]]; [eauto|].
      by destruct (Ht id).
    + split; [by eapply iv_added|]. split; [by eapply iv_open|]. split.
      * intros a [Hne E]%lookup_delete_Some. apply Hne. by eapply iv_inj.
      * intros j pc' Ej Hh'. destruct (Hsplit j pc' l Ej Hh') as [Er'|[-> _]]; [|done].
        destruct (iv_rem _ I j pc' l Er' Hh') as (_ & _ & Ht & _). by destruct (Ht id).
  - apply I.
  - done.
Qed.

(** A remover moves without a new object. *)
Lemma remover_inv s i pc pc' c :
  inv s -> removers s !! i = Some pc -> (holding pc' = None \/ holding pc' = holding pc) ->
  closed s ⊆ c -> c ⊆ added s ->
  (forall l, l ∈ c -> l ∈ closed s \/ (holding pc = Some l /\ holding pc' = None)) ->
  inv (mkSt (table s) c (watchdog s) (<[i := pc']> (removers s)) (added s)).
Proof.
  intros I Ei Hpc Hsub Hadd Hnew.
  assert (forall j q l, <[i := pc']> (removers s) !! j = Some q -> holding q = Some l ->
    exists q0, removers s !! j = Some q0 /\ holding q0 = Some l /\ (j = i -> holding pc' = Some l)) as Hb.
  { intros j q l [[-> ->]|[Hne E]]%removers_insert Hh; [|exists q; done].
    exists pc. split; [done|]. destruct Hpc; [congruence|]. split; [congruence|done]. }
  split; cbn; try apply I; try done.
  - intros id l E Hc. destruct (Hnew l Hc) as [Hc'|[Hh _]]; [by apply (iv_open _ I id l)|].
    destruct (iv_rem _ I i pc l Ei Hh) as (_ & _ & Ht & _). by apply (Ht id).
  - intros j q l Ej Hh. destruct (Hb j q l Ej Hh) as (q0 & E0 & H0 & Hi).
    destruct (iv_rem _ I j q0 l E0 H0) as (Ha & Hcl & Ht & Hu). split; [done|]. split.
    { intros Hc. destruct (Hnew l Hc) as [?|[Hh1 Hh2]]; [done|].
      assert (i = j) as -> by (eapply Hu; done). rewrite Hi in Hh2; done. }
    split; [done|]. intros j' q' Ej' Hh'. destruct (Hb j' q' l Ej' Hh') as (q1 & E1 & H1 & _). eauto.
Qed.

Lemma delete_inv s id c :
  inv s -> closed s ⊆ c -> c ⊆ added s ->
  (forall l, l ∈ c -> l ∈ closed s \/ table s !! id = Some l) ->
  inv (mkSt (delete id (table s)) c None (removers s) (added s)).
Proof.
  intros I Hsub Hadd Hnew. split; cbn; try done.
  - intros a l [_ E]%lookup_delete_Some. by eapply iv_added.
  - intros a l [Hne E]%lookup_delete_Some Hc. destruct (Hnew l Hc) as [?|Hid].
    + by apply (iv_open _ I a l).
    + apply Hne. by eapply iv_inj.
  - intros a b l [_ E]%lookup_delete_Some [_ E']%lookup_delete_Some. by eapply iv_inj.
  - intros i pc l Ei Hh. destruct (iv_rem _ I i pc l Ei Hh) as (Ha & Hc & Ht & Hu).
    split; [done|]. split.
    + intros Hc'. destruct (Hnew l Hc') as [?|Hid]; [done|]. by apply (Ht id).
    + split; [intros a [_ E]%lookup_delete_Some; by apply (Ht a)|done].
Qed.

Lemma stopchan_step_inv a s o : astep a s = Some o -> fresh_add a s = true -> inv s ->
  exists s', o = Ok s' /\ inv s'.
Proof.
  intros E Hf I. destruct a; cbn [astep] in E.
  - destruct (watchdog s) eqn:Ew; [done|]. injection E as <-. eexists. split; [done|].
    apply add_inv; [done|done|]. by apply bool_decide_eq_true in Hf.
  - destruct (watchdog s) eqn:Ew; [done|]. injection E as <-. eexists. split; [done|]. by apply take_inv.
  - destruct (removers s !! i) as [[l|l|]|] eqn:Ei; try done. injection E as <-. eexists.
    split; [done|]. eapply remover_inv; try done; [|apply I|by left]. case_bool_decide; [by left|by right].
  - destruct (removers s !! i) as [[l|l|]|] eqn:Ei; try done. injection E as <-.
    destruct (iv_rem _ I i _ l Ei eq_refl) as (Ha & Hc & _). unfold close.
    rewrite bool_decide_false by done. eexists. split; [done|]. pose proof (iv_closed _ I).
    eapply remover_inv; try done; [by left|set_solver|set_solver|].
    intros l' [->%elem_of_singleton|?]%elem_of_union; [by right|by left].
  - destruct (watchdog s) eqn:Ew; [done|]. destruct (table s !! id) as [l|] eqn:Et; [|done].
    injection E as <-. eexists. split; [done|]. case_bool_decide.
    + apply delete_inv; try done; [apply I|by left].
    + split; try apply I. cbn. by intros id' l' [= <- <-].
  - destruct (watchdog s) as [[id l]|] eqn:Ew; [|done]. injection E as <-.
    pose proof (iv_watch _ I id l Ew) as Et. pose proof (iv_open _ I id l Et).
    pose proof (iv_added _ I id l Et). pose proof (iv_closed _ I). unfold close.
    rewrite bool_decide_false by done. eexists. split; [done|].
    apply delete_inv; try done; [set_solver|set_solver|].
    intros l' [->%elem_of_singleton|?]%elem_of_union; [by right|by left].
Qed.

(** No double close.  However [AddConnection], [RemoveConnection] and the
    watchdog interleave, as long as every connection object is added once, no
    [StopChan] is closed twice: the unlocked check-then-close of
    [RemoveConnection] never races, because whoever took the object out of the
    table is the only one to hold it. *)
Theorem stopchan_closed_once l : adds_fresh init l = true -> arun init l <> Some Panic.
Proof.
  assert (forall l s, inv s -> adds_fresh s l = true -> arun s l <> Some Panic) as H.
  { clear l. intros l. induction l as [|a l IH]; intros s I Hf; [done|]. cbn in *.
    apply andb_prop in Hf as [Ha Hf]. destruct (astep a s) as [o|] eqn:E; [|done].
    destruct (stopchan_step_inv a s o E Ha I) as (s' & -> & I'). by apply IH. }
  intros Hf. apply H; [|done]. split; cbn; try done; set_solver.
Qed.

(** Added a second time while a [RemoveConnection] is between its [select] and
    its [close], the object is closed twice. *)
Theorem readded_closed_twice :
  arun init [AAdd 7 1%positive; ARemove 7; ACheck 0; AAdd 7 1%positive; ARemove 7; ACheck 1; AClose 0;
             AClose 1] = Some Panic.
Proof. vm_compute. reflexivity. Qed.

Lemma stopchan_closed_once_witness :
  arun init [AAdd 7 1%positive; ARemove 7; AAdd 7 2%positive; ACheck 0; AExpire 7; AClose 0; AExpireClose]
    <> Some Panic.
Proof.
  apply (stopchan_closed_once [AAdd 7 1%positive; ARemove 7; AAdd 7 2%positive; ACheck 0; AExpire 7;
    AClose 0; AExpireClose]); vm_compute; reflexivity.
Defined.
End StopChans.

(** * The scheduler *)
Module Sched.

(** [Scheduler]: the stop channel, [stopOnce], and for each goroutine [Start]
    launched whether it has returned. *)
Record Scheduler : Type := mkSched {
  sc_runtime : Runtime;
  sc_closed : bool;
  sc_once : bool;
  sc_gone : list bool }.

Definition NewScheduler (r : Runtime) : Scheduler := mkSched r false false [].
Definition Start (s : Scheduler) : Scheduler :=
  mkSched (sc_runtime s) (sc_closed s) (sc_once s) (sc_gone s ++ [false]).
Definition Stop (s : Scheduler) : outcome Scheduler :=
  if sc_once s then Ok s else
  if sc_closed s then Panic else Ok (mkSched (sc_runtime s) true true (sc_gone s)).

Inductive act : Type :=
| SStart | SStop
| SDone (i : nat)                  (** goroutine [i] takes [case <-s.stop] *)
| STick (i : nat) (now : Z).       (** goroutine [i] takes the ticker's case *)

Definition sstep (a : act) (s : Scheduler) : option (outcome Scheduler * list (Z * bytes)) :=
  match a with
  | SStart => Some (Ok (Start s), [])
  | SStop => Some (Stop s, [])
  | SDone i =>
      match sc_gone s !! i with
      | Some false =>
          if sc_closed s
          then Some (Ok (mkSched (sc_runtime s) (sc_closed s) (sc_once s) (<[i := true]> (sc_gone s))), [])
          else None
      | _ => None
      end
  | STick i now =>
      match sc_gone s !! i with
      | Some false =>
          match processTick now (sc_runtime s) with
          | (Ok sent, r) => Some (Ok (mkSched r (sc_closed s) (sc_once s) (sc_gone s)), sent)
          | (_, _) => Some (Panic, [])
          end
      | _ => None
      end
  end.

Fixpoint srun (s : Scheduler) (l : list act) : option Scheduler :=
  match l with
  | [] => Some s
  | a :: l => match sstep a s with Some (Ok s, _) => srun s l | _ => None end
  end.

Lemma srun_once l : forall s s', srun s l = Some s' -> sc_closed s = sc_once s ->
  sc_closed s' = sc_once s'.
Proof.
  induction l as [|a l IH]; intros s s' E H; cbn in E; [by injection E as <-|].
  destruct (sstep a s) as [[[s1| |] sent]|] eqn:E1; try done. apply (IH s1 s' E).
  destruct a; cbn in E1; try (injection E1 as <- <-; done).
  - injection E1 as E1 _. unfold Stop in E1. destruct (sc_once s) eqn:Eo; [by injection E1 as <-; rewrite Eo|].
    rewrite H in E1. by injection E1 as <-.
  - destruct (sc_gone s !! i) as [[]|]; try done. destruct (sc_closed s) eqn:Ec; [|done].
    by injection E1 as <- <-.
  - destruct (sc_gone s !! i) as [[]|]; try done. destruct (mapO _ _); try done.
    by injection E1 as <- <-.
Qed.

(** [Scheduler.Stop] is safe to call any number of times, before [Start],
    after it or never started: it never panics, and from then on every goroutine
    that is still running can return. *)
Theorem scheduler_stop_safe r l s :
  srun (NewScheduler r) l = Some s ->
  exists s', Stop s = Ok s' /\ Stop s' = Ok s' /\
    forall i, sc_gone s' !! i = Some false ->
      exists s'', sstep (SDone i) s' = Some (Ok s'', []) /\ sc_gone s'' !! i = Some true.
Proof.
  intros H%srun_once; [|done]. unfold Stop.
  assert (exists s', (if sc_once s then Ok s else if sc_closed s then Panic else
    Ok (mkSched (sc_runtime s) true true (sc_gone s))) = Ok s' /\ sc_once s' = true /\ sc_closed s' = true)
    as (s' & E & Ho & Hc).
  { destruct (sc_once s) eqn:Eo; [by exists s|]. rewrite H. by eexists. }
  exists s'. split; [exact E|]. rewrite Ho. split; [done|]. intros i Hi. cbn. rewrite Hi, Hc.
  eexists. split; [done|]. cbn. apply list_lookup_insert_eq. by eapply lookup_lt_Some.
Qed.

Lemma scheduler_stop_safe_witness :
  exists s', Stop (NewScheduler demo_receiver) = Ok s' /\ Stop s' = Ok s'.
Proof.
  destruct (scheduler_stop_safe demo_receiver [] (NewScheduler demo_receiver) eq_refl)
    as (s' & H1 & H2 & _). by exists s'.
Defined.
End Sched.
