(* ===== verification/Pccc.v ===== *)
(** * PCCC: SLC data-table addresses, frames and the client

    Models [protocol/ethernetip/pccc]: address parsing and printing
    ([address.go]), typed-logical commands and replies ([frame.go]), element
    decoding ([timer.go], [datapoint.go]) and the client ([client.go]).  Strings
    are byte strings; case conversion and trimming are modelled on ASCII.  The
    executor that ships a command to the controller is a parameter. *)
From S2P Require Import Prelude Bytes Plc.

(** ** File types (frame.go) *)
Definition FileTypeStatus : Z := 0x84.
Definition FileTypeBit : Z := 0x85.
Definition FileTypeTimer : Z := 0x86.
Definition FileTypeCounter : Z := 0x87.
Definition FileTypeControl : Z := 0x88.
Definition FileTypeInteger : Z := 0x89.
Definition FileTypeFloat : Z := 0x8A.
Definition FileTypeOutput : Z := 0x8B.
Definition FileTypeInput : Z := 0x8C.
Definition FileTypeString : Z := 0x8D.
Definition FileTypeASCII : Z := 0x8E.
Definition FileTypeBCD : Z := 0x8F.

Definition fileTypeTable : list (Z * bytes) :=
  [(FileTypeStatus, str "S"); (FileTypeBit, str "B"); (FileTypeTimer, str "T");
   (FileTypeCounter, str "C"); (FileTypeControl, str "R"); (FileTypeInteger, str "N");
   (FileTypeFloat, str "F"); (FileTypeOutput, str "O"); (FileTypeInput, str "I");
   (FileTypeString, str "ST"); (FileTypeASCII, str "A"); (FileTypeBCD, str "D")].

Definition Letter (ft : Z) : bytes :=
  match List.find (fun e => e.1 =? ft) fileTypeTable with Some e => e.2 | None => [] end.

(** [strings.ToUpper] *)
Definition upper (b : Z) : Z := if (97 <=? b) && (b <=? 122) then b - 32 else b.
Definition to_upper (s : bytes) : bytes := map upper s.

Definition FileTypeFromLetter (letter : bytes) : option Z :=
  match List.find (fun e => bool_decide (e.2 = to_upper letter)) fileTypeTable with
  | Some e => Some e.1
  | None => None
  end.

(** ** Addresses (address.go) *)
Record Address : Type := mkAddr {
  FileType : Z; FileNumber : Z; Element : Z; SubElement : Z; BitNum : Z
}.
#[export] Instance Address_EqDecision : EqDecision Address.
Proof. solve_decision. Defined.

Definition isAlpha (b : Z) : bool :=
  ((65 <=? b) && (b <=? 90)) || ((97 <=? b) && (b <=? 122)).
Definition isDigit (b : Z) : bool := (48 <=? b) && (b <=? 57).
Definition isAllDigits (s : bytes) : bool :=
  match s with [] => false | _ => forallb isDigit s end.
(** '-' is 45, '+' is 43 *)
Definition isAllDigitsOrLeadingSign (s : bytes) : bool :=
  match s with
  | [] => false
  | b :: rest => if (b =? 45) || (b =? 43) then isAllDigits rest else isAllDigits s
  end.

Fixpoint splitLeadingLetters (s : bytes) : bytes * bytes :=
  match s with
  | [] => ([], [])
  | b :: rest =>
      if isAlpha b then let '(letters, r) := splitLeadingLetters rest in (b :: letters, r)
      else ([], s)
  end.

(** [strings.Cut(s, sep)] for a one-byte separator. *)
Fixpoint cut (sep : Z) (s : bytes) : option (bytes * bytes) :=
  match s with
  | [] => None
  | b :: rest =>
      if b =? sep then Some ([], rest)
      else match cut sep rest with Some (l, r) => Some (b :: l, r) | None => None end
  end.

(** [splitSuffix]: the leftmost of '.' (46) and '/' (47) splits; 0 without one. *)
Definition splitSuffix (up : bytes) : bytes * bytes * Z :=
  match cut 46 up, cut 47 up with
  | None, None => (up, [], 0)
  | Some (dl, dr), Some (sl, sr) =>
      if (length sl <? length dl)%nat then (sl, sr, 47) else (dl, dr, 46)
  | Some (dl, dr), None => (dl, dr, 46)
  | None, Some (sl, sr) => (sl, sr, 47)
  end.

Definition implicitFileNumber (ft : Z) : option Z :=
  if ft =? FileTypeOutput then Some 0
  else if ft =? FileTypeInput then Some 1
  else if ft =? FileTypeStatus then Some 2
  else None.
Definition supportsBitSuffix (ft : Z) : bool :=
  (ft =? FileTypeInteger) || (ft =? FileTypeBit) || (ft =? FileTypeStatus) ||
  (ft =? FileTypeInput) || (ft =? FileTypeOutput) || (ft =? FileTypeBCD).

(** Named fields: name, sub-element, bit. *)
Definition timerFields : list (bytes * (Z * Z)) :=
  [(str "PRE", (1, -1)); (str "ACC", (2, -1)); (str "EN", (0, 15)); (str "TT", (0, 14));
   (str "DN", (0, 13))].
Definition counterFields : list (bytes * (Z * Z)) :=
  [(str "PRE", (1, -1)); (str "ACC", (2, -1)); (str "CU", (0, 15)); (str "CD", (0, 14));
   (str "DN", (0, 13)); (str "OV", (0, 12)); (str "UN", (0, 11)); (str "UA", (0, 10))].
Definition controlFields : list (bytes * (Z * Z)) :=
  [(str "LEN", (1, -1)); (str "POS", (2, -1)); (str "EN", (0, 15)); (str "EU", (0, 14));
   (str "DN", (0, 13)); (str "EM", (0, 12)); (str "ER", (0, 11)); (str "UL", (0, 10));
   (str "IN", (0, 9)); (str "FD", (0, 8))].
Definition tableFor (ft : Z) : list (bytes * (Z * Z)) :=
  if ft =? FileTypeTimer then timerFields
  else if ft =? FileTypeCounter then counterFields
  else if ft =? FileTypeControl then controlFields
  else [].
Definition lookupNamedField (ft : Z) (name : bytes) : option (Z * Z) :=
  match List.find (fun e => bool_decide (e.1 = name)) (tableFor ft) with
  | Some e => Some e.2
  | None => None
  end.
Definition fieldNameFor (ft sub bit : Z) : option bytes :=
  match List.find (fun e => (e.2.1 =? sub) && (e.2.2 =? bit)) (tableFor ft) with
  | Some e => Some e.1
  | None => None
  end.

(** [strconv.Atoi]: an optional sign and decimal digits, within 64 bits. *)
Definition digits_value (s : bytes) : Z := fold_left (fun acc b => acc * 10 + (b - 48)) s 0.
Definition atoi (s : bytes) : option Z :=
  let '(neg, ds) :=
    match s with
    | b :: rest => if b =? 45 then (true, rest) else if b =? 43 then (false, rest) else (false, s)
    | [] => (false, [])
    end in
  if isAllDigits ds then
    let n := if neg : bool then - digits_value ds else digits_value ds in
    if (-9223372036854775808 <=? n) && (n <=? 9223372036854775807) then Some n else None
  else None.

(** [strconv.Itoa]; 20 digits are enough for 64 bits. *)
Fixpoint itoa_digits (fuel : nat) (n : Z) (acc : bytes) : bytes :=
  match fuel with
  | O => acc
  | S fuel =>
      let acc := (48 + n mod 10) :: acc in
      if n / 10 =? 0 then acc else itoa_digits fuel (n / 10) acc
  end.
Definition itoa (n : Z) : bytes :=
  if n <? 0 then 45 :: itoa_digits 20 (- n) [] else itoa_digits 20 n [].

(** [strings.TrimSpace] *)
Definition is_space (b : Z) : bool := ((9 <=? b) && (b <=? 13)) || (b =? 32).
Fixpoint trim_front (s : bytes) : bytes :=
  match s with b :: rest => if is_space b then trim_front rest else s | [] => [] end.
Definition trim_space (s : bytes) : bytes := reverse (trim_front (reverse (trim_front s))).

(** 58 is ':', 46 is '.', 47 is '/' *)
Definition Address_String (a : Address) : bytes :=
  let head :=
    match implicitFileNumber (FileType a) with
    | Some def =>
        if FileNumber a =? def then Letter (FileType a) ++ [58] ++ itoa (Element a)
        else Letter (FileType a) ++ itoa (FileNumber a) ++ [58] ++ itoa (Element a)
    | None => Letter (FileType a) ++ itoa (FileNumber a) ++ [58] ++ itoa (Element a)
    end in
  match fieldNameFor (FileType a) (SubElement a) (BitNum a) with
  | Some name => head ++ [46] ++ name
  | None => if 0 <=? BitNum a then head ++ [47] ++ itoa (BitNum a) else head
  end.

(** The file number of step 3. *)
Definition parse_file_number (ft : Z) (fileNumStr : bytes) : outcome Z :=
  match fileNumStr with
  | [] =>
      match implicitFileNumber ft with
      | None => Err (Errorf "pccc: missing file number in %q")
      | Some def => Ok def
      end
  | _ =>
      if negb (isAllDigits fileNumStr) then Err (Errorf "pccc: invalid file number %q in %q") else
      match atoi fileNumStr with
      | None => Err (Errorf "pccc: invalid file number %q in %q")
      | Some n =>
          if (n <? 0) || (255 <? n)
          then Err (Errorf "pccc: file number %d out of range [0,255] in %q") else
          match implicitFileNumber ft with
          | Some def =>
              if negb (n =? def)
              then Err (Errorf "pccc: file type %s requires file number %d (got %d) in %q")
              else Ok n
          | None => Ok n
          end
      end
  end.

(** The element of step 4. *)
Definition parse_element (right : bytes) : outcome Z :=
  if negb (isAllDigitsOrLeadingSign right)
  then Err (Errorf "pccc: trailing garbage after element in %q") else
  match atoi right with
  | None => Err (Errorf "pccc: invalid element %q in %q")
  | Some elem =>
      if (elem <? 0) || (255 <? elem)
      then Err (Errorf "pccc: element %d out of range [0,255] in %q") else Ok elem
  end.

(** The sub-element and bit of step 5. *)
Definition parse_suffix (ft sep : Z) (suffix : bytes) : outcome (Z * Z) :=
  if sep =? 46 then
    match lookupNamedField ft suffix with
    | None => Err (Errorf "pccc: unknown field %q for file type %s in %q")
    | Some f => Ok f
    end
  else if sep =? 47 then
    if existsb (fun b => (b =? 46) || (b =? 47)) suffix
    then Err (Errorf "pccc: trailing garbage after bit in %q") else
    if negb (isAllDigitsOrLeadingSign suffix) then Err (Errorf "pccc: invalid bit %q in %q") else
    match atoi suffix with
    | None => Err (Errorf "pccc: invalid bit %q in %q")
    | Some bit =>
        if (bit <? 0) || (15 <? bit)
        then Err (Errorf "pccc: bit %d out of range [0,15] in %q") else
        if negb (supportsBitSuffix ft)
        then Err (Errorf "pccc: bit suffix not supported for file type %s in %q")
        else Ok (0, bit)
    end
  else Ok (0, -1).

Definition ParseAddress (s : bytes) : outcome Address :=
  match trim_space s with
  | [] => Err (Errorf "pccc: empty address")
  | trimmed =>
      let '(mainPart, suffix, sep) := splitSuffix (to_upper trimmed) in
      match cut 58 mainPart with
      | None => Err (Errorf "pccc: missing ':' in %q")
      | Some (lpart, rpart) =>
          match rpart with
          | [] => Err (Errorf "pccc: missing element number in %q")
          | _ =>
              let '(letters, fileNumStr) := splitLeadingLetters lpart in
              match letters with
              | [] => Err (Errorf "pccc: missing file type in %q")
              | _ =>
                  match FileTypeFromLetter letters with
                  | None => Err (Errorf "pccc: unknown file type %q in %q")
                  | Some ft =>
                      fileNum ← parse_file_number ft fileNumStr;
                      elem ← parse_element rpart;
                      '(sub, bit) ← parse_suffix ft sep suffix;
                      Ok (mkAddr ft fileNum elem sub bit)
                  end
              end
          end
      end
  end.

Example parse_n7 : ParseAddress (str " n7:0/3 ") = Ok (mkAddr FileTypeInteger 7 0 0 3).
Proof. reflexivity. Qed.
Example parse_t4 : ParseAddress (str "T4:0.ACC") = Ok (mkAddr FileTypeTimer 4 0 2 (-1)).
Proof. reflexivity. Qed.
Example print_s : Address_String (mkAddr FileTypeStatus 2 1 0 (-1)) = str "S:1".
Proof. reflexivity. Qed.

(** ** Lemmas: characters *)
Definition isUpper (b : Z) : bool := (65 <=? b) && (b <=? 90).
(** Not a separator, not a space, unchanged by case conversion. *)
Definition wordChar (b : Z) : bool := isUpper b || isDigit b.

Lemma wordChar_spec b :
  wordChar b = true -> upper b = b /\ is_space b = false /\ b <> 46 /\ b <> 47 /\ b <> 58.
Proof. unfold wordChar, isUpper, isDigit, upper, is_space. intros H. split; [|lia].
  destruct ((97 <=? b) && (b <=? 122)) eqn:E; lia.
Qed.
Lemma isUpper_word s : forallb isUpper s = true -> forallb wordChar s = true.
Proof.
  rewrite !forallb_forall. intros H b Hb. unfold wordChar. by rewrite H.
Qed.
Lemma isDigit_word s : forallb isDigit s = true -> forallb wordChar s = true.
Proof.
  rewrite !forallb_forall. intros H b Hb. unfold wordChar. rewrite H by done. apply orb_true_r.
Qed.

Lemma cut_none c s : Forall (fun b => b <> c) s -> cut c s = None.
Proof.
  induction 1 as [|b s Hb _ IH]; [done|]. simpl. rewrite (proj2 (Z.eqb_neq b c) Hb).
  by rewrite IH.
Qed.
Lemma cut_app c l r : Forall (fun b => b <> c) l -> cut c (l ++ c :: r) = Some (l, r).
Proof.
  induction 1 as [|b l Hb _ IH]; simpl; [by rewrite Z.eqb_refl|].
  rewrite (proj2 (Z.eqb_neq b c) Hb). by rewrite IH.
Qed.

Lemma word_no_sep c s :
  (c = 46 \/ c = 47 \/ c = 58) -> forallb wordChar s = true -> Forall (fun b => b <> c) s.
Proof.
  intros Hc Hs. apply Forall_forall. intros b Hb%list_elem_of_In.
  rewrite forallb_forall in Hs. destruct (wordChar_spec b (Hs b Hb)) as (_ & _ & ? & ? & ?).
  naive_solver.
Qed.

Lemma trim_front_id s : Forall (fun b => is_space b = false) s -> trim_front s = s.
Proof. destruct 1 as [|b s Hb _]; [done|]. simpl. by rewrite Hb. Qed.
Lemma trim_space_id s : Forall (fun b => is_space b = false) s -> trim_space s = s.
Proof.
  intros Hs. unfold trim_space. rewrite (trim_front_id s) by done.
  rewrite trim_front_id; [apply reverse_involutive|]. by apply Forall_reverse.
Qed.
Lemma to_upper_id s : Forall (fun b => upper b = b) s -> to_upper s = s.
Proof. induction 1 as [|b s Hb _ IH]; [done|]. simpl. by rewrite Hb, IH. Qed.

Lemma split_letters letters ds :
  forallb isUpper letters = true -> forallb isDigit ds = true ->
  splitLeadingLetters (letters ++ ds) = (letters, ds).
Proof.
  intros Hl Hd. induction letters as [|b letters IH]; simpl in *.
  - destruct ds as [|d ds]; [done|]. simpl in *. apply andb_true_iff in Hd as [Hd _].
    replace (isAlpha d) with false; [done|]. unfold isAlpha, isDigit in *. lia.
  - apply andb_true_iff in Hl as [Hb Hl]. rewrite IH by done.
    replace (isAlpha b) with true; [done|]. unfold isAlpha, isUpper in *. lia.
Qed.

(** ** Lemmas: numbers, by running the conversions on all small numbers *)
Lemma itoa_small n :
  0 <= n <= 255 -> isAllDigits (itoa n) = true /\ atoi (itoa n) = Some n.
Proof.
  intros Hn.
  assert (forallb (fun n => isAllDigits (itoa n) && bool_decide (atoi (itoa n) = Some n))
            (iota 256) = true) as H by (vm_compute; reflexivity).
  rewrite forallb_forall in H. specialize (H n).
  rewrite andb_true_iff, bool_decide_eq_true in H. apply H, list_elem_of_In, elem_of_iota. lia.
Qed.
Lemma isAllDigits_spec s : isAllDigits s = true -> s <> [] /\ forallb isDigit s = true.
Proof. by destruct s. Qed.
Lemma isAllDigits_sign s : isAllDigits s = true -> isAllDigitsOrLeadingSign s = true.
Proof.
  intros H. destruct s as [|b s]; [done|]. simpl in *. apply andb_true_iff in H as [Hb Hs].
  replace ((b =? 45) || (b =? 43)) with false by (symmetry; unfold isDigit in Hb; lia).
  by rewrite Hb.
Qed.

(** ** Lemmas: tables, by inspection *)
Definition known_type (ft : Z) : Prop := exists l, (ft, l) ∈ fileTypeTable.

Lemma known_type_spec ft :
  known_type ft ->
  Letter ft <> [] /\ forallb isUpper (Letter ft) = true /\ FileTypeFromLetter (Letter ft) = Some ft.
Proof.
  intros [l Hl].
  assert (forallb (fun e => negb (bool_decide (Letter e.1 = [])) && forallb isUpper (Letter e.1) &&
            bool_decide (FileTypeFromLetter (Letter e.1) = Some e.1)) fileTypeTable = true) as H
    by (vm_compute; reflexivity).
  rewrite forallb_forall in H. specialize (H (ft, l)). simpl in H.
  rewrite !andb_true_iff, negb_true_iff, bool_decide_eq_false, bool_decide_eq_true in H.
  apply list_elem_of_In in Hl. naive_solver.
Qed.

Lemma FileTypeFromLetter_known l ft : FileTypeFromLetter l = Some ft -> known_type ft.
Proof.
  unfold FileTypeFromLetter. destruct (List.find _ _) as [[ft' l']|] eqn:E; [|done].
  intros [= <-]. apply find_some in E as [E _]. exists l'. by apply list_elem_of_In.
Qed.

(** A named field of a file type: its name reads back as it. *)
Lemma named_field ft name sub bit :
  lookupNamedField ft name = Some (sub, bit) ->
  exists name', fieldNameFor ft sub bit = Some name' /\ forallb isUpper name' = true /\
                lookupNamedField ft name' = Some (sub, bit).
Proof.
  unfold lookupNamedField. destruct (List.find _ (tableFor ft)) as [[n [s b]]|] eqn:E; [|done].
  intros [= -> ->]. apply find_some in E as [E _].
  assert (forall t, t = timerFields \/ t = counterFields \/ t = controlFields ->
    forallb (fun e => match List.find (fun e' => (e'.2.1 =? e.2.1) && (e'.2.2 =? e.2.2)) t with
      | Some e' => forallb isUpper e'.1 &&
          match List.find (fun e'' => bool_decide (e''.1 = e'.1)) t with
          | Some e'' => bool_decide (e''.2 = e.2) | None => false end
      | None => false end) t = true) as H
    by (intros t [->|[->| ->]]; vm_compute; reflexivity).
  unfold fieldNameFor. specialize (H (tableFor ft)).
  assert (tableFor ft = timerFields \/ tableFor ft = counterFields \/ tableFor ft = controlFields) as Ht.
  { unfold tableFor in *. repeat case_match; auto. by destruct E. }
  specialize (H Ht). rewrite forallb_forall in H. specialize (H _ E). simpl in H.
  destruct (List.find _ (tableFor ft)) as [e'|] eqn:E'; [|done].
  apply andb_true_iff in H as [Hu H]. exists e'.1. split; [done|]. split; [done|].
  destruct (List.find (fun e'' => bool_decide (e''.1 = e'.1)) (tableFor ft)) as [e''|]; [|done].
  apply bool_decide_eq_true in H. by rewrite H.
Qed.

Lemma plain_no_field ft : fieldNameFor ft 0 (-1) = None.
Proof. unfold fieldNameFor, tableFor. by repeat case_match. Qed.
Lemma bit_no_field ft sub bit : supportsBitSuffix ft = true -> fieldNameFor ft sub bit = None.
Proof.
  intros H. unfold fieldNameFor, tableFor.
  destruct (Z.eqb_spec ft FileTypeTimer) as [->|]; [done|].
  destruct (Z.eqb_spec ft FileTypeCounter) as [->|]; [done|].
  by destruct (Z.eqb_spec ft FileTypeControl) as [->|].
Qed.

(** ** Lemmas: the three parts of an address *)

(** The addresses the parser produces. *)
Record addr_ok (a : Address) : Prop := {
  ao_type : known_type (FileType a);
  ao_file : 0 <= FileNumber a <= 255;
  ao_implicit : forall def, implicitFileNumber (FileType a) = Some def -> FileNumber a = def;
  ao_element : 0 <= Element a <= 255;
  ao_suffix :
    (SubElement a = 0 /\ BitNum a = -1) \/
    (exists name, lookupNamedField (FileType a) name = Some (SubElement a, BitNum a)) \/
    (supportsBitSuffix (FileType a) = true /\ SubElement a = 0 /\ 0 <= BitNum a <= 15)
}.

Lemma implicit_range ft def : implicitFileNumber ft = Some def -> 0 <= def <= 255.
Proof. unfold implicitFileNumber. repeat case_match; intros; simplify_eq; lia. Qed.

Lemma parse_file_number_Ok ft s n :
  parse_file_number ft s = Ok n ->
  0 <= n <= 255 /\ forall def, implicitFileNumber ft = Some def -> n = def.
Proof.
  unfold parse_file_number. destruct s as [|b s].
  - destruct (implicitFileNumber ft) as [def|] eqn:E; [|done]. intros [= <-].
    split; [by apply (implicit_range ft)|]. by intros ? [= ->].
  - destruct (negb _); [done|]. destruct (atoi _) as [m|]; [|done].
    destruct ((m <? 0) || (255 <? m)) eqn:Er; [done|]. destruct (implicitFileNumber ft) as [def|].
    + destruct (Z.eqb_spec m def) as [->|]; [|done]. intros [= <-]. split; [lia|congruence].
    + intros [= <-]. split; [lia|done].
Qed.
Lemma parse_element_Ok s n : parse_element s = Ok n -> 0 <= n <= 255.
Proof.
  unfold parse_element. destruct (negb _); [done|]. destruct (atoi s) as [m|]; [|done].
  destruct ((m <? 0) || (255 <? m)) eqn:Er; [done|]. intros [= <-]. lia.
Qed.
Lemma parse_suffix_Ok ft sep s sub bit :
  parse_suffix ft sep s = Ok (sub, bit) ->
  (sub = 0 /\ bit = -1) \/ (exists name, lookupNamedField ft name = Some (sub, bit)) \/
  (supportsBitSuffix ft = true /\ sub = 0 /\ 0 <= bit <= 15).
Proof.
  unfold parse_suffix. destruct (sep =? 46).
  - destruct (lookupNamedField ft s) as [f|] eqn:E; [|done]. intros [= ->]. right. left. eauto.
  - destruct (sep =? 47); [|intros [= <- <-]; by left].
    destruct (existsb _ s); [done|]. destruct (negb _); [done|].
    destruct (atoi s) as [m|]; [|done].
    destruct ((m <? 0) || (15 <? m)) eqn:Er; [done|].
    destruct (supportsBitSuffix ft); [|done]. intros [= <- <-]. right. right.
    split; [done|]. lia.
Qed.

Lemma ParseAddress_cases s :
  (exists e, ParseAddress s = Err e) \/ exists a, ParseAddress s = Ok a /\ addr_ok a.
Proof.
  unfold ParseAddress. destruct (trim_space s) as [|t ts]; [by eauto|].
  destruct (splitSuffix _) as [[main suffix] sep].
  destruct (cut 58 main) as [[l r]|]; [|by eauto]. destruct r as [|r0 r]; [by eauto|].
  destruct (splitLeadingLetters l) as [letters fn]. destruct letters as [|l0 letters]; [by eauto|].
  destruct (FileTypeFromLetter _) as [ft|] eqn:Eft; [|by eauto].
  destruct (parse_file_number ft fn) as [n|e|] eqn:En; go_bind; [|by eauto|].
  - destruct (parse_element _) as [el|e|] eqn:Ee; [|by eauto|].
    + destruct (parse_suffix ft sep suffix) as [[sub bit]|e|] eqn:Es; [|by eauto|].
      * right. eexists. split; [done|]. destruct (parse_file_number_Ok _ _ _ En) as [H1 H2].
        split; simpl; [by apply FileTypeFromLetter_known in Eft|done|done| |].
        -- by apply parse_element_Ok in Ee.
        -- by apply parse_suffix_Ok in Es.
      * unfold parse_suffix in Es. by repeat case_match.
    + unfold parse_element in Ee. by repeat case_match.
  - unfold parse_file_number in En. by repeat case_match.
Qed.

(** A printed address: letters, digits, ':' and digits, then the suffix. *)
Lemma parse_printed letters fn el suffix sep (tail : bytes) ft :
  letters <> [] -> forallb isUpper letters = true -> forallb isDigit fn = true ->
  isAllDigits el = true -> FileTypeFromLetter letters = Some ft ->
  (tail = [] /\ suffix = [] /\ sep = 0 \/
   tail = sep :: suffix /\ (sep = 46 \/ sep = 47) /\ forallb wordChar suffix = true) ->
  ParseAddress ((letters ++ fn ++ [58] ++ el) ++ tail) =
    (fileNum ← parse_file_number ft fn;
     elem ← parse_element el;
     '(sub, bit) ← parse_suffix ft sep suffix;
     Ok (mkAddr ft fileNum elem sub bit)).
Proof.
  intros Hne Hl Hf He Hft Htail. destruct (isAllDigits_spec _ He) as [Hel Hed].
  assert (forall c, c = 46 \/ c = 47 -> Forall (fun b => b <> c) (letters ++ fn ++ [58] ++ el)) as Hsep.
  { intros c Hc. rewrite !Forall_app. repeat split.
    - apply word_no_sep; [tauto|by apply isUpper_word].
    - apply word_no_sep; [tauto|by apply isDigit_word].
    - apply Forall_singleton. lia.
    - apply word_no_sep; [tauto|by apply isDigit_word]. }
  assert (splitSuffix ((letters ++ fn ++ [58] ++ el) ++ tail) =
          (letters ++ fn ++ [58] ++ el, suffix, sep)) as Esplit.
  { unfold splitSuffix. destruct Htail as [(-> & -> & ->)|(-> & Hs & Hw)].
    - rewrite app_nil_r, !cut_none by (apply Hsep; tauto). done.
    - assert (forall c, c = 46 \/ c = 47 -> c <> sep ->
        cut c ((letters ++ fn ++ [58] ++ el) ++ sep :: suffix) = None) as Hn.
      { intros c Hc Hcs. apply cut_none, Forall_app. split; [by apply Hsep|].
        apply Forall_cons. split; [congruence|]. apply word_no_sep; [tauto|done]. }
      destruct Hs as [-> | ->].
      + rewrite cut_app by (apply Hsep; tauto). by rewrite (Hn 47) by tauto || done.
      + rewrite (Hn 46) by tauto || done. by rewrite cut_app by (apply Hsep; tauto). }
  assert (Forall (fun b => upper b = b /\ is_space b = false)
            ((letters ++ fn ++ [58] ++ el) ++ tail)) as Hclean.
  { assert (forall s, forallb wordChar s = true -> Forall (fun b => upper b = b /\ is_space b = false) s)
      as Hw.
    { intros s Hs. apply Forall_forall. intros b Hb%list_elem_of_In.
      rewrite forallb_forall in Hs. destruct (wordChar_spec b (Hs b Hb)) as (? & ? & _). done. }
    rewrite !Forall_app. repeat split.
    - apply Hw, isUpper_word, Hl.
    - apply Hw, isDigit_word, Hf.
    - by apply Forall_singleton.
    - apply Hw, isDigit_word, Hed.
    - destruct Htail as [(-> & _)|(-> & Hs & Hs')]; [constructor|]. apply Forall_cons.
      split; [by destruct Hs as [-> | ->]|by apply Hw]. }
  apply Forall_and in Hclean as [Hu Hsp].
  unfold ParseAddress. rewrite trim_space_id by done.
  destruct ((letters ++ fn ++ [58] ++ el) ++ tail) as [|x xs] eqn:Ex.
  { apply app_eq_nil in Ex as [Ex _]. by apply app_eq_nil in Ex as [Ex _]. }
  rewrite to_upper_id by done. rewrite Esplit.
  change ([58] ++ el) with (58 :: el). rewrite (app_assoc letters), cut_app.
  2:{ apply Forall_app. split; (apply word_no_sep; [tauto|]);
        [by apply isUpper_word|by apply isDigit_word]. }
  destruct el as [|e0 el]; [done|]. rewrite split_letters by done.
  destruct letters as [|l0 letters]; [done|]. by rewrite Hft.
Qed.

Lemma parse_element_itoa n : 0 <= n <= 255 -> parse_element (itoa n) = Ok n.
Proof.
  intros Hn. destruct (itoa_small n Hn) as [Hd Ha]. unfold parse_element.
  rewrite isAllDigits_sign by done. cbn [negb]. rewrite Ha.
  by replace ((n <? 0) || (255 <? n)) with false by (symmetry; lia).
Qed.

(** The file number as printed, and what the parser makes of it. *)
Definition file_digits (a : Address) : bytes :=
  match implicitFileNumber (FileType a) with
  | Some def => if FileNumber a =? def then [] else itoa (FileNumber a)
  | None => itoa (FileNumber a)
  end.
Lemma file_digits_ok a :
  addr_ok a -> forallb isDigit (file_digits a) = true /\
               parse_file_number (FileType a) (file_digits a) = Ok (FileNumber a).
Proof.
  intros Ha. destruct (itoa_small _ (ao_file _ Ha)) as [Hd Hv].
  pose proof (ao_implicit _ Ha) as Hi. pose proof (ao_file _ Ha) as Hr.
  unfold file_digits, parse_file_number. destruct (implicitFileNumber (FileType a)) as [def|].
  - rewrite (Hi def) by done. by rewrite Z.eqb_refl.
  - destruct (isAllDigits_spec _ Hd) as [Hne Hf]. split; [done|].
    destruct (itoa (FileNumber a)) as [|d ds]; [done|]. rewrite Hd, Hv. cbn [negb].
    by replace ((FileNumber a <? 0) || (255 <? FileNumber a)) with false by (symmetry; lia).
Qed.

(** The suffix as printed, and what the parser makes of it. *)
Lemma suffix_ok a :
  addr_ok a -> exists tail suffix sep,
    Address_String a = (Letter (FileType a) ++ file_digits a ++ [58] ++ itoa (Element a)) ++ tail /\
    (tail = [] /\ suffix = [] /\ sep = 0 \/
     tail = sep :: suffix /\ (sep = 46 \/ sep = 47) /\ forallb wordChar suffix = true) /\
    parse_suffix (FileType a) sep suffix = Ok (SubElement a, BitNum a).
Proof.
  intros Ha.
  assert (forall tail, (match implicitFileNumber (FileType a) with
    | Some def => if FileNumber a =? def then Letter (FileType a) ++ [58] ++ itoa (Element a)
                  else Letter (FileType a) ++ itoa (FileNumber a) ++ [58] ++ itoa (Element a)
    | None => Letter (FileType a) ++ itoa (FileNumber a) ++ [58] ++ itoa (Element a)
    end) ++ tail = (Letter (FileType a) ++ file_digits a ++ [58] ++ itoa (Element a)) ++ tail) as Eh.
  { intros tail. unfold file_digits. by repeat case_match. }
  destruct (ao_suffix _ Ha) as [[Es Eb]|[[name Hn]|(Hs & Es & Hb)]].
  - exists [], [], 0. unfold Address_String. rewrite Es, Eb, plain_no_field.
    cbn [Z.leb Z.compare]. rewrite <-Eh, app_nil_r. split; [done|]. split; [by left|done].
  - destruct (named_field _ _ _ _ Hn) as (name' & Hf & Hu & Hl).
    exists (46 :: name'), name', 46. unfold Address_String. rewrite Hf.
    change ([46] ++ name') with (46 :: name'). rewrite Eh.
    split; [done|]. split; [right; split; [done|]; split; [by left|by apply isUpper_word]|].
    unfold parse_suffix. change (46 =? 46) with true. by rewrite Hl.
  - destruct (itoa_small (BitNum a)) as [Hd Hv]; [lia|]. destruct (isAllDigits_spec _ Hd) as [_ Hf].
    exists (47 :: itoa (BitNum a)), (itoa (BitNum a)), 47. unfold Address_String.
    rewrite bit_no_field by done. replace (0 <=? BitNum a) with true by (symmetry; lia).
    change ([47] ++ itoa (BitNum a)) with (47 :: itoa (BitNum a)). rewrite Eh.
    split; [done|]. split; [right; split; [done|]; split; [by right|by apply isDigit_word]|].
    unfold parse_suffix. change (47 =? 46) with false. change (47 =? 47) with true. cbv iota.
    replace (existsb _ _) with false.
    2:{ symmetry. apply not_true_is_false. intros (b & Hin & Hor)%existsb_exists.
        rewrite forallb_forall in Hf. specialize (Hf b Hin). unfold isDigit in Hf. lia. }
    rewrite isAllDigits_sign by done. cbn [negb]. rewrite Hv, Hs, Es. cbn [negb].
    by replace ((BitNum a <? 0) || (15 <? BitNum a)) with false by (symmetry; lia).
Qed.

(** C38: Addresses.  Parsing an SLC address never panics and yields only addresses
    with a known file type, file number and element within 0..255, the implicit
    file number where the type has one, and a suffix that fits the type; and
    printing a parsed address gives a string that parses back to the same
    address, as the comment on [String] claims. *)
Theorem address_roundtrip s :
  match ParseAddress s with
  | Ok a => addr_ok a /\ ParseAddress (Address_String a) = Ok a
  | Err _ => True
  | Panic => False
  end.
Proof.
  destruct (ParseAddress_cases s) as [[e ->]|(a & -> & Ha)]; [done|]. split; [done|].
  destruct (suffix_ok a Ha) as (tail & suffix & sep & -> & Ht & Es).
  destruct (known_type_spec _ (ao_type _ Ha)) as (Hne & Hu & Hft).
  destruct (file_digits_ok a Ha) as [Hd Ef]. destruct (itoa_small _ (ao_element _ Ha)) as [He _].
  rewrite (parse_printed _ _ _ suffix sep _ (FileType a)) by done.
  rewrite Ef. go_bind. rewrite parse_element_itoa by apply (ao_element _ Ha). rewrite Es.
  by destruct a.
Qed.
