(* ===== verification/PcccClient.v ===== *)
(** * PCCC commands, replies and the client

    Models [pccc/frame.go] (typed-logical read and write, replies), [timer.go],
    [datapoint.go] and [client.go].  The [Executor] is a parameter: a stateful
    call that ships a command and returns the controller's reply. *)
From S2P Require Import Prelude Bytes Plc Pccc.

Definition CmdProtectedTypedLogical : Z := 0x0F.
Definition FuncProtectedTypedLogicalRead : Z := 0xA2.
Definition FuncProtectedTypedLogicalWrite : Z := 0xAA.
Definition ReplyBit : Z := 0x40.
Definition StatusUseExtSTS : Z := 0xF0.

(** ** Commands *)
Definition validateAddress (fileNum elem subElem ft : Z) : outcome unit :=
  if bool_decide (Letter ft = []) then Err (Errorf "pccc: unknown file type 0x%02X") else
  if (fileNum <? 0) || (255 <? fileNum)
  then Err (Errorf "pccc: file number %d out of range [0,255]") else
  if (elem <? 0) || (255 <? elem) then Err (Errorf "pccc: element %d out of range [0,255]") else
  if (subElem <? 0) || (255 <? subElem)
  then Err (Errorf "pccc: sub-element %d out of range [0,255]") else Ok tt.

Definition EncodeTypedRead (tns byteSize fileNum ft elem subElem : Z) : outcome bytes :=
  _ ← validateAddress fileNum elem subElem ft;
  if (byteSize <? 1) || (255 <? byteSize)
  then Err (Errorf "pccc: byte size %d out of range [1,255]") else
  Ok ([CmdProtectedTypedLogical; 0] ++ le16 tns ++
      [FuncProtectedTypedLogicalRead; u8 byteSize; u8 fileNum; ft; u8 elem; u8 subElem]).

Definition EncodeTypedWrite (tns fileNum ft elem subElem : Z) (data : bytes) : outcome bytes :=
  _ ← validateAddress fileNum elem subElem ft;
  if len data =? 0 then Err (Errorf "pccc: write data is empty") else
  if 240 <? len data then Err (Errorf "pccc: write data too large (%d bytes)") else
  Ok ([CmdProtectedTypedLogical; 0] ++ le16 tns ++
      [FuncProtectedTypedLogicalWrite; u8 fileNum; ft; u8 elem; u8 subElem] ++ data).

(** ** Replies *)
Record Reply : Type := mkReply {
  rp_Command : Z; rp_STS : Z; rp_TNS : Z; rp_ExtSTS : Z; rp_Data : bytes
}.

(** The reply a call returns next to an error is not used by any caller. *)
Definition DecodeReply (raw : bytes) : outcome Reply :=
  if len raw <? 4 then Err (Errorf "pccc: reply too short (%d bytes, need >=4)") else
  cmd ← go_index raw 0;
  if Z.land cmd ReplyBit =? 0 then Err (Errorf "pccc: CMD 0x%02X has no reply bit set") else
  sts ← go_index raw 1;
  tns ← (b ← go_slice raw 2 4; get_le16 b);
  rest ← go_slice raw 4 (len raw);
  if sts =? StatusUseExtSTS then
    if len rest <? 1 then Err (Errorf "pccc: STS=0xF0 but reply missing EXT STS byte") else
    ext ← go_index rest 0;
    Err (PcccErr sts ext)
  else if negb (sts =? 0) then Err (PcccErr sts 0)
  else Ok (mkReply (Z.ldiff cmd ReplyBit) sts tns 0 rest).

Definition IsPCCCError (err : error) : bool := match err with PcccErr _ _ => true | _ => false end.

(** ** Elements (timer.go) *)
Record Timer : Type := mkTimer { Control : Z; PRE : Z; ACC : Z }.
Definition Timer_EN (t : Timer) : bool := negb (Z.land (Control t) (Z.shiftl 1 15) =? 0).
Definition Timer_TT (t : Timer) : bool := negb (Z.land (Control t) (Z.shiftl 1 14) =? 0).
Definition Timer_DN (t : Timer) : bool := negb (Z.land (Control t) (Z.shiftl 1 13) =? 0).
Definition DecodeTimer (b : bytes) : outcome Timer :=
  if len b <? 6 then Err (Errorf "pccc: timer requires 6 bytes, got %d") else
  c ← (x ← go_slice b 0 2; get_le16 x);
  p ← (x ← go_slice b 2 4; get_le16 x);
  a ← (x ← go_slice b 4 6; get_le16 x);
  Ok (mkTimer c (i16 p) (i16 a)).

Record Counter : Type := mkCounter { c_Control : Z; c_PRE : Z; c_ACC : Z }.
Definition Counter_CU (t : Counter) : bool := negb (Z.land (c_Control t) (Z.shiftl 1 15) =? 0).
Definition Counter_CD (t : Counter) : bool := negb (Z.land (c_Control t) (Z.shiftl 1 14) =? 0).
Definition Counter_DN (t : Counter) : bool := negb (Z.land (c_Control t) (Z.shiftl 1 13) =? 0).
Definition Counter_OV (t : Counter) : bool := negb (Z.land (c_Control t) (Z.shiftl 1 12) =? 0).
Definition Counter_UN (t : Counter) : bool := negb (Z.land (c_Control t) (Z.shiftl 1 11) =? 0).
Definition DecodeCounter (b : bytes) : outcome Counter :=
  if len b <? 6 then Err (Errorf "pccc: counter requires 6 bytes, got %d") else
  c ← (x ← go_slice b 0 2; get_le16 x);
  p ← (x ← go_slice b 2 4; get_le16 x);
  a ← (x ← go_slice b 4 6; get_le16 x);
  Ok (mkCounter c (i16 p) (i16 a)).

(** ** Data points (datapoint.go); a point of another type is [OtherDP] *)
Inductive point : Type := File (addr : bytes) (count : Z) | OtherDP.
Definition effectiveCount (count : Z) : Z := if count <=? 0 then 1 else count.
Definition file_parse (addr : bytes) : outcome Address :=
  match ParseAddress addr with
  | Err err => Err (Wrapf "pccc: %s: %w" err)
  | r => r
  end.

(** ** Helpers of client.go *)
Definition isTimerLike (ft : Z) : bool :=
  (ft =? FileTypeTimer) || (ft =? FileTypeCounter) || (ft =? FileTypeControl).
Definition elementBytes (a : Address) (count : Z) : Z :=
  let count := if count <? 1 then 1 else count in
  if 0 <=? BitNum a then 2
  else if FileType a =? FileTypeFloat then 4 * count
  else if isTimerLike (FileType a) then if 0 <? SubElement a then 2 * count else 6 * count
  else 2 * count.
Definition clip (b : bytes) (n : Z) : bytes := take (Z.to_nat n) b.

(** A Go value passed as [any]: the types the coercions know. *)
Inductive any : Type :=
| ABool (b : bool)
| AInt (z : Z)
| AInt16 (z : Z)
| AInt32 (z : Z)
| AInt64 (z : Z)
| AUint (z : Z)
| AByte (z : Z)
| AUint16 (z : Z)
| AUint32 (z : Z)
| AUint64 (z : Z)
| AFloat32 (f : Z)                 (** by its bits *)
| AFloat64 (f : Z)
| AOther.

Definition boolOf (v : any) : option bool :=
  match v with
  | ABool x => Some x
  | AInt x | AInt16 x | AInt32 x | AInt64 x
  | AUint x | AUint16 x | AUint32 x | AUint64 x | AByte x => Some (negb (x =? 0))
  | _ => None
  end.
Definition int16Of (v : any) : option Z :=
  match v with
  | AInt16 x => Some x
  | AUint16 x => Some (i16 x)
  | AInt x | AInt32 x | AInt64 x =>
      if (x <? -32768) || (32767 <? x) then None else Some (i16 x)
  | AUint x | AUint32 x | AUint64 x => if 32767 <? x then None else Some (i16 x)
  | ABool x => Some (if x then 1 else 0)
  | _ => None
  end.

(** ** The client *)
Record client (E : Type) : Type := mkClient { tns : Z; executor : E }.
Arguments mkClient {E}.
Arguments tns {E}.
Arguments executor {E}.

Section Client.
Context {E : Type}.
Variable ExecutePCCC : bytes -> SM E bytes.
(** The executor as a [Connector], when it is one: Connect, Disconnect, IsConnected. *)
Variable connector : option (SM E unit * SM E unit * (E -> bool)).
(** Conversions of the floating-point types. *)
Variable float32_of_int : Z -> Z.
Variable float32_of_float64 : Z -> Z.

Definition float32Of (v : any) : option Z :=
  match v with
  | AFloat32 f => Some f
  | AFloat64 f => Some (float32_of_float64 f)
  | AInt x | AInt16 x | AInt32 x => Some (float32_of_int x)
  | _ => None
  end.

Definition NewClient (e : E) : client E := mkClient 1 e.

(** The loop of [nextTNS], which skips 0. *)
Fixpoint tns_loop (fuel : nat) (t : Z) : option (Z * Z) :=
  match fuel with
  | O => None
  | S fuel =>
      let t := u32 (t + 1) in
      let n := u16 t in
      if negb (n =? 0) then Some (n, t) else tns_loop fuel t
  end.
Definition nextTNS : SM (client E) Z := fun c =>
  match tns_loop 2 (tns c) with
  | Some (n, t) => (Ok n, mkClient t (executor c))
  | None => (Panic, c)
  end.

Definition call_executor {A} (m : SM E A) : SM (client E) A := fun c =>
  let '(r, e) := m (executor c) in (r, mkClient (tns c) e).
Definition Connect : SM (client E) unit :=
  match connector with Some (connect, _, _) => call_executor connect | None => mret tt end.
Definition Disconnect : SM (client E) unit :=
  match connector with Some (_, disconnect, _) => call_executor disconnect | None => mret tt end.
Definition IsConnected (c : client E) : bool :=
  match connector with Some (_, _, is_connected) => is_connected (executor c) | None => true end.

Definition rawRead (a : Address) (byteSize : Z) : SM (client E) bytes :=
  if (byteSize <? 1) || (240 <? byteSize)
  then pure (Err (Errorf "pccc: read size %d out of range [1,240]")) else
  t ← nextTNS;
  cmd ← pure (EncodeTypedRead t byteSize (FileNumber a) (FileType a) (Element a) (SubElement a));
  rawReply ← call_executor (ExecutePCCC cmd);
  reply ← pure (DecodeReply rawReply);
  mret (rp_Data reply).

Definition writeBytes (a : Address) (data : bytes) : SM (client E) unit :=
  t ← nextTNS;
  cmd ← pure (EncodeTypedWrite t (FileNumber a) (FileType a) (Element a) (SubElement a) data);
  rawReply ← call_executor (ExecutePCCC cmd);
  _ ← pure (DecodeReply rawReply);
  mret tt.

Definition writeBit (a : Address) (on : bool) : SM (client E) unit :=
  let wordAddr := mkAddr (FileType a) (FileNumber a) (Element a) (SubElement a) (-1) in
  raw ← rawRead wordAddr 2;
  if len raw <? 2 then pure (Err (Errorf "pccc: write bit: short read (%d bytes)")) else
  word ← pure (get_le16 raw);
  let mask := u16 (Z.shiftl 1 (BitNum a)) in
  let word := if on then Z.lor word mask else Z.ldiff word mask in
  writeBytes wordAddr (le16 word).

Definition bit_value (a : Address) (raw : bytes) : outcome bytes :=
  if len raw <? 2 then Err (Errorf "pccc: bit read returned %d bytes") else
  word ← (b ← go_slice raw 0 2; get_le16 b);
  Ok [u8 (Z.land (Z.shiftr word (BitNum a)) 1)].

Definition readFile (addr : bytes) (count : Z) : SM (client E) (Value point) :=
  a ← pure (file_parse addr);
  let size := elementBytes a (effectiveCount count) in
  raw ← rawRead a size;
  if 0 <=? BitNum a then
    b ← pure (bit_value a raw);
    mret (mkValue None b TypeBool ByteOrderLittleEndian)
  else if FileType a =? FileTypeFloat then
    mret (mkValue None (clip raw 4) TypeFloat32 ByteOrderLittleEndian)
  else if isTimerLike (FileType a) && (SubElement a =? 0) then
    mret (mkValue None (clip raw 6) TypeBytes ByteOrderLittleEndian)
  else
    mret (mkValue None (clip raw size)
            (if (1 <? effectiveCount count) || (2 <? size) then TypeBytes else TypeInt16)
            ByteOrderLittleEndian).

Definition ReadAddress (addr : bytes) : SM (client E) (Value point) := readFile addr 0.

Fixpoint Pccc_Read (points : list point) : SM (client E) (list (Value point)) :=
  match points with
  | [] => mret []
  | OtherDP :: _ => pure (Err (Errorf "pccc: expected File DataPoint, got %T"))
  | File addr count :: points =>
      v ← readFile addr count;
      rest ← Pccc_Read points;
      mret (mkValue (Some (File addr count)) (Raw v) (v_Type v) (v_ByteOrder v) :: rest)
  end.

Definition Pccc_Write (p : point) (data : bytes) : SM (client E) unit :=
  match p with
  | OtherDP => pure (Err (Errorf "pccc: expected File DataPoint, got %T"))
  | File addr count =>
      a ← pure (file_parse addr);
      if 0 <=? BitNum a then
        match data with
        | [] => pure (Err (Errorf "pccc: write to bit %s: empty data"))
        | d :: _ => writeBit a (negb (d =? 0))
        end
      else writeBytes a data
  end.

Definition ReadWords (addr : bytes) (n : Z) : SM (client E) (list Z) :=
  if n <? 1 then pure (Err (Errorf "pccc: ReadWords: n must be >= 1, got %d")) else
  if 127 <? n then pure (Err (Errorf "pccc: ReadWords: n must be <= 127, got %d")) else
  a ← pure (ParseAddress addr);
  if 0 <=? BitNum a then pure (Err (Errorf "pccc: ReadWords: bit suffix not supported in %q")) else
  raw ← rawRead a (n * 2);
  if len raw <? n * 2
  then pure (Err (Errorf "pccc: ReadWords: short reply (%d bytes, want %d)")) else
  pure (mapO (fun i => b ← go_slice raw (i * 2) (i * 2 + 2); w ← get_le16 b; Ok (i16 w)) (iota n)).

Definition WriteWords (addr : bytes) (words : list Z) : SM (client E) unit :=
  if len words =? 0 then pure (Err (Errorf "pccc: WriteWords: empty slice")) else
  if 120 <? len words
  then pure (Err (Errorf "pccc: WriteWords: too many words (%d, max 120)")) else
  a ← pure (ParseAddress addr);
  if 0 <=? BitNum a
  then pure (Err (Errorf "pccc: WriteWords: bit suffix not supported in %q")) else
  writeBytes a (flat_map (fun w => le16 (u16 w)) words).

Definition WriteAddress (addr : bytes) (v : any) : SM (client E) unit :=
  a ← pure (ParseAddress addr);
  if 0 <=? BitNum a then
    match boolOf v with
    | None => pure (Err (Errorf "pccc: write to bit %s: value %T not coercible to bool"))
    | Some b => writeBit a b
    end
  else if FileType a =? FileTypeFloat then
    match float32Of v with
    | None => pure (Err (Errorf "pccc: write to %s: value %T not coercible to float32"))
    | Some f => writeBytes a (le32 f)
    end
  else
    match int16Of v with
    | None => pure (Err (Errorf "pccc: write to %s: value %T not coercible to int16"))
    | Some n => writeBytes a (le16 (u16 n))
    end.
End Client.

(** ** The controller behind the executor

    A data file is a sequence of 16-bit words; an element of a timer, counter or
    control file has three words, of a float file two, of a string file 42.  A
    typed-logical command names a word by file, element and sub-element and
    reaches as many words as its byte size spans.  The laws hold while the
    controller can be reached ([ready]). *)
Definition word_index (ft elem sub : Z) : Z :=
  if isTimerLike ft then 3 * elem + sub
  else if ft =? FileTypeFloat then 2 * elem
  else if ft =? FileTypeString then 42 * elem
  else elem.
Definition word_bytes (ws : list Z) : bytes := flat_map le16 ws.
Definition words_at (ws : list Z) (i n : Z) : list Z := take (Z.to_nat n) (drop (Z.to_nat i) ws).
Definition words_set (ws : list Z) (i : Z) (new : list Z) : list Z :=
  take (Z.to_nat i) ws ++ new ++ drop (Z.to_nat (i + len new)) ws.
(** Only three-word elements have sub-elements. *)
Definition place_ok (ft sub : Z) : bool :=
  (sub =? 0) || (isTimerLike ft && (0 <=? sub) && (sub <=? 2)).

(** The frames a controller is sent, byte by byte, as the tests of the package have
    them (client_test.go): command 0x0F, status, transaction number, function, then
    for a read the number of bytes, and file number, file type, element and
    sub-element; a write has its data behind them. *)
Definition read_frame (t n file ft elem sub : Z) : bytes :=
  [0x0F; 0; t mod 256; t / 256; 0xA2; 2 * n; file; ft; elem; sub].
Definition write_frame (t file ft elem sub : Z) (ws : list Z) : bytes :=
  [0x0F; 0; t mod 256; t / 256; 0xAA; file; ft; elem; sub] ++ flat_map (fun w => [w mod 256; w / 256]) ws.

(** A controller: it answers a read frame with the words at the place named, and
    stores the words of a write frame there. *)
Class Controller {E : Type} (exec : bytes -> SM E bytes) : Type := {
  ready : E -> Prop;
  table : E -> Z -> Z -> list Z;
  table_words : forall e ft file, Forall is_u16 (table e ft file);
  typed_read : forall e t n file ft elem sub,
    ready e -> is_u16 t -> 1 <= n <= 120 -> is_u8 file -> is_u8 elem ->
    Letter ft <> [] -> place_ok ft sub = true ->
    word_index ft elem sub + n <= len (table e ft file) ->
    exists e', exec (read_frame t n file ft elem sub) e =
      (Ok ([0x4F; 0; t mod 256; t / 256] ++
           flat_map (fun w => [w mod 256; w / 256]) (words_at (table e ft file) (word_index ft elem sub) n)), e') /\
      (forall ft' file', table e' ft' file' = table e ft' file') /\ ready e';
  typed_write : forall e t file ft elem sub ws,
    ready e -> is_u16 t -> Forall is_u16 ws -> 1 <= len ws <= 120 -> is_u8 file -> is_u8 elem ->
    Letter ft <> [] -> place_ok ft sub = true ->
    word_index ft elem sub + len ws <= len (table e ft file) ->
    exists e', exec (write_frame t file ft elem sub ws) e = (Ok [0x4F; 0; t mod 256; t / 256], e') /\
      table e' ft file = words_set (table e ft file) (word_index ft elem sub) ws /\
      (forall ft' file', (ft', file') <> (ft, file) -> table e' ft' file' = table e ft' file') /\
      ready e'
}.

Lemma le16_digits t : is_u16 t -> le16 t = [t mod 256; t / 256].
Proof. intros Ht. unfold le16. rewrite Z.shiftr_div_pow2 by lia. change (2 ^ 8) with 256. widths. by rewrite (Z.mod_small (t / 256)) by dlia. Qed.
Lemma word_bytes_digits ws : Forall is_u16 ws -> flat_map (fun w => [w mod 256; w / 256]) ws = word_bytes ws.
Proof. induction 1 as [|w ws Hw _ IH]; [done|]. cbn [flat_map word_bytes]. fold (word_bytes ws). by rewrite IH, le16_digits. Qed.
Lemma words_at_u16 ws i n : Forall is_u16 ws -> Forall is_u16 (words_at ws i n).
Proof. intros H. by apply Forall_take, Forall_drop. Qed.

(** ** Lemmas: words *)
Lemma len_word_bytes ws : len (word_bytes ws) = 2 * len ws.
Proof.
  induction ws as [|w ws IH]; [done|]. cbn [word_bytes flat_map]. fold (word_bytes ws).
  lens. lia.
Qed.
#[export] Hint Rewrite len_word_bytes : golen.
Lemma word_bytes_app a b : word_bytes (a ++ b) = word_bytes a ++ word_bytes b.
Proof. apply flat_map_app. Qed.

Lemma words_at_set ws i new :
  0 <= i -> i + len new <= len ws -> words_at (words_set ws i new) i (len new) = new.
Proof.
  intros Hi Hl. unfold words_at, words_set.
  rewrite drop_app_length' by (rewrite length_take; widths; lia).
  rewrite take_app_length' by (widths; lia). done.
Qed.
Lemma len_words_set ws i new :
  0 <= i -> i + len new <= len ws -> len (words_set ws i new) = len ws.
Proof.
  intros Hi Hl. unfold words_set, len in *. rewrite !length_app, length_take, length_drop. lia.
Qed.
Lemma len_words_at ws i n : 0 <= i -> 0 <= n -> i + n <= len ws -> len (words_at ws i n) = n.
Proof. intros. unfold words_at, len in *. rewrite length_take, length_drop. lia. Qed.

(** Reading the words of a reply back. *)
Lemma words_decoded (ws : list Z) (suf : bytes) :
  Forall is_u16 ws ->
  mapO (fun i => b ← go_slice (word_bytes ws ++ suf) (i * 2) (i * 2 + 2);
                 w ← get_le16 b; Ok (i16 w)) (iota (len ws)) = Ok (map i16 ws).
Proof.
  intros Hws. rewrite (mapO_total _ (fun i => i16 (default 0 (ws !! Z.to_nat i)))).
  - f_equal. rewrite <-(map_default_iota 0 ws) at 2. by rewrite map_map.
  - intros i Hi. destruct (lookup_iota ws i Hi) as (v & Hv & Hi0). rewrite Hv.
    rewrite <-(take_drop_middle ws (Z.to_nat i) v Hv), word_bytes_app.
    cbn [word_bytes flat_map]. fold (word_bytes (drop (S (Z.to_nat i)) ws)).
    rewrite <-!app_assoc. rewrite go_slice_mid; cycle 1.
    + lens. apply lookup_lt_Some in Hv. unfold len. rewrite length_take. lia.
    + lens. apply lookup_lt_Some in Hv. unfold len. rewrite length_take. lia.
    + go_bind. rewrite <-(app_nil_r (le16 v)), get_le16_le16; [done|].
      by eapply Forall_lookup_1.
Qed.

(** ** Lemmas: addresses *)
Lemma addr_place a :
  addr_ok a -> place_ok (FileType a) (SubElement a) = true /\ 0 <= SubElement a <= 2 /\
               -1 <= BitNum a <= 15.
Proof.
  intros Ha. destruct (ao_suffix a Ha) as [[-> ->]|[[name Hn]|(_ & -> & Hb)]]; try by (split; [done|lia]).
  unfold lookupNamedField in Hn. destruct (List.find _ _) as [[n f]|] eqn:E; [|done].
  injection Hn as ->. apply find_some in E as [E _]. clear -E. cbn [snd] in *.
  unfold tableFor in E. unfold place_ok, isTimerLike.
  repeat case_match; cbn [timerFields counterFields controlFields In] in E;
    repeat destruct E as [E|E]; simplify_eq; rewrite ?orb_true_r; simpl; try lia; done.
Qed.

Lemma word_index_nonneg ft elem sub : 0 <= elem -> 0 <= sub -> 0 <= word_index ft elem sub.
Proof. intros. unfold word_index. repeat case_match; lia. Qed.

Lemma validate_ok a :
  addr_ok a -> validateAddress (FileNumber a) (Element a) (SubElement a) (FileType a) = Ok tt.
Proof.
  intros Ha. destruct (addr_place a Ha) as (_ & Hs & _).
  pose proof (ao_file a Ha). pose proof (ao_element a Ha).
  destruct (known_type_spec _ (ao_type a Ha)) as [Hl _].
  unfold validateAddress. rewrite bool_decide_false by done.
  by rewrite !(proj2 (orb_false_iff _ _)) by lia.
Qed.

Lemma nextTNS_ok {E} (c : client E) :
  exists t n, nextTNS c = (Ok t, mkClient n (executor c)) /\ 1 <= t < 65536.
Proof.
  unfold nextTNS. cbn [tns_loop]. destruct (Z.eqb_spec (u16 (u32 (tns c + 1))) 0) as [E0|E0]; cbn [negb].
  - destruct (Z.eqb_spec (u16 (u32 (u32 (tns c + 1) + 1))) 0) as [E1|E1]; cbn [negb].
    + exfalso. revert E0 E1. unfold u16, u32. dlia.
    + eexists _, _. split; [done|]. pose proof (u16_range (u32 (u32 (tns c + 1) + 1))). widths. lia.
  - eexists _, _. split; [done|]. pose proof (u16_range (u32 (tns c + 1))). widths. lia.
Qed.

Lemma DecodeReply_ok t data :
  is_u16 t -> DecodeReply ([0x4F; 0] ++ le16 t ++ data) = Ok (mkReply 0x0F 0 t 0 data).
Proof.
  intros Ht. unfold DecodeReply.
  destruct (Z.ltb_spec (len ([0x4F; 0] ++ le16 t ++ data)) 4) as [Hl|_].
  { lens. pose proof (len_nonneg data). lia. }
  change (go_index ([79; 0] ++ le16 t ++ data) 0) with (Ok 79).
  change (go_index ([79; 0] ++ le16 t ++ data) 1) with (Ok 0). go_bind.
  change (Z.land 79 ReplyBit =? 0) with false. cbv iota.
  rewrite go_slice_mid by (lens; lia). rewrite <-(app_nil_r (le16 t)) at 1. rewrite get_le16_le16 by done.
  change ([79; 0] ++ le16 t ++ data) with (([79; 0] ++ le16 t) ++ data).
  rewrite go_slice_suffix by (lens; lia). done.
Qed.

(** ** The client against a controller *)
Section Served.
Context {E : Type} {exec : bytes -> SM E bytes} `{!Controller exec}.

(** Where an address points, and the file it points into. *)
Definition addr_index (a : Address) : Z := word_index (FileType a) (Element a) (SubElement a).
Definition file_of (a : Address) (c : client E) : list Z :=
  table (executor c) (FileType a) (FileNumber a).
(** Every file is the same. *)
Definition all_same (c c' : client E) : Prop :=
  forall ft file, table (executor c') ft file = table (executor c) ft file.
(** Files other than that of [a] are the same. *)
Definition others_same (a : Address) (c c' : client E) : Prop :=
  forall ft file, (ft, file) <> (FileType a, FileNumber a) ->
    table (executor c') ft file = table (executor c) ft file.

Lemma addr_index_nonneg a : addr_ok a -> 0 <= addr_index a.
Proof.
  intros Ha. destruct (addr_place a Ha) as (_ & Hs & _). pose proof (ao_element a Ha).
  apply word_index_nonneg; lia.
Qed.

(** The parts of a parsed address fit a frame. *)
Lemma addr_frame a : addr_ok a ->
  is_u8 (FileNumber a) /\ is_u8 (Element a) /\ is_u8 (SubElement a) /\ Letter (FileType a) <> [].
Proof.
  intros Ha. destruct (addr_place a Ha) as (_ & Hs & _). pose proof (ao_file a Ha). pose proof (ao_element a Ha).
  destruct (known_type_spec _ (ao_type a Ha)) as [Hl _]. split_and!; try done; widths; lia.
Qed.
(** The encoders produce these frames. *)
Lemma encode_read a t n :
  addr_ok a -> is_u16 t -> 1 <= n <= 120 ->
  EncodeTypedRead t (2 * n) (FileNumber a) (FileType a) (Element a) (SubElement a) =
    Ok (read_frame t n (FileNumber a) (FileType a) (Element a) (SubElement a)).
Proof.
  intros Ha Ht Hn. destruct (addr_frame a Ha) as (Hf & He & Hs & _). unfold EncodeTypedRead.
  rewrite validate_ok by done. go_bind. replace ((2 * n <? 1) || (255 <? 2 * n)) with false by (symmetry; lia).
  rewrite le16_digits by done. rewrite !u8_small by (done || widths; lia). done.
Qed.
Lemma encode_write a t ws :
  addr_ok a -> is_u16 t -> Forall is_u16 ws -> 1 <= len ws <= 120 ->
  EncodeTypedWrite t (FileNumber a) (FileType a) (Element a) (SubElement a) (word_bytes ws) =
    Ok (write_frame t (FileNumber a) (FileType a) (Element a) (SubElement a) ws).
Proof.
  intros Ha Ht Hws Hn. destruct (addr_frame a Ha) as (Hf & He & Hs & _). unfold EncodeTypedWrite, write_frame.
  rewrite validate_ok by done. go_bind.
  rewrite len_word_bytes, (proj2 (Z.eqb_neq _ _)), (proj2 (Z.ltb_ge _ _)) by lia.
  rewrite le16_digits, word_bytes_digits by done. rewrite !u8_small by done. done.
Qed.

Lemma rawRead_words a n c :
  ready (executor c) -> addr_ok a -> 1 <= n <= 120 -> addr_index a + n <= len (file_of a c) ->
  exists c', rawRead exec a (2 * n) c = (Ok (word_bytes (words_at (file_of a c) (addr_index a) n)), c') /\
             all_same c c' /\ ready (executor c').
Proof.
  intros Hrd Ha Hn Hlen. unfold rawRead. destruct (addr_frame a Ha) as (Hf & He & _ & Hl).
  replace ((2 * n <? 1) || (240 <? 2 * n)) with false by (symmetry; lia).
  destruct (nextTNS_ok c) as (t & k & Ht & Hr). assert (is_u16 t) as Ht16 by (widths; lia).
  destruct (typed_read (executor c) t n _ _ _ _ Hrd Ht16 Hn Hf He Hl (proj1 (addr_place a Ha)) Hlen)
    as (e' & Hx & Hs & Hrd').
  unfold mbind, SM_bind. rewrite Ht. unfold pure. rewrite encode_read by done.
  unfold call_executor. cbn [executor tns]. rewrite Hx.
  rewrite word_bytes_digits by apply words_at_u16, table_words.
  change ([79; 0; t mod 256; t / 256] ++ ?d) with ([79; 0] ++ [t mod 256; t / 256] ++ d).
  rewrite <-le16_digits, DecodeReply_ok by done. eexists. split; [done|]. by split.
Qed.

Lemma writeBytes_words a ws c :
  ready (executor c) -> addr_ok a -> Forall is_u16 ws -> 1 <= len ws <= 120 ->
  addr_index a + len ws <= len (file_of a c) ->
  exists c', writeBytes exec a (word_bytes ws) c = (Ok tt, c') /\
    file_of a c' = words_set (file_of a c) (addr_index a) ws /\ others_same a c c' /\
    ready (executor c').
Proof.
  intros Hrd Ha Hws Hn Hlen. unfold writeBytes. destruct (addr_frame a Ha) as (Hf & He & _ & Hl).
  destruct (nextTNS_ok c) as (t & k & Ht & Hr). assert (is_u16 t) as Ht16 by (widths; lia).
  destruct (typed_write (executor c) t _ _ _ _ ws Hrd Ht16 Hws Hn Hf He Hl (proj1 (addr_place a Ha)) Hlen)
    as (e' & Hx & Hw & Ho & Hrd').
  unfold mbind, SM_bind. rewrite Ht. unfold pure. rewrite encode_write by done.
  unfold call_executor. cbn [executor tns]. rewrite Hx.
  change [79; 0; t mod 256; t / 256] with ([79; 0] ++ [t mod 256; t / 256]).
  rewrite <-le16_digits, <-(app_nil_r (le16 t)), DecodeReply_ok by done. eexists. split; [done|]. by repeat split.
Qed.

(** Words written through an address are the words read back through it: the
    write succeeds, stores them in the addressed words and changes no other word
    of the controller, and reading as many words from the same address returns
    them. *)
Lemma words_written_read addr a ws c :
  ready (executor c) -> ParseAddress addr = Ok a -> BitNum a < 0 -> Forall is_i16 ws -> 1 <= len ws <= 120 ->
  addr_index a + len ws <= len (file_of a c) ->
  exists c', WriteWords exec addr ws c = (Ok tt, c') /\
    file_of a c' = words_set (file_of a c) (addr_index a) (map u16 ws) /\
    others_same a c c' /\
    fst (ReadWords exec addr (len ws) c') = Ok ws.
Proof.
  intros Hrd Hp Hb Hws Hn Hlen.
  assert (addr_ok a) as Ha.
  { destruct (ParseAddress_cases addr) as [[e He]|(a' & Ha' & ?)]; congruence. }
  assert (Forall is_u16 (map u16 ws)) as Hu by (apply Forall_map, Forall_true; auto with go).
  assert (len (map u16 ws) = len ws) as El by (unfold len; by rewrite length_map).
  destruct (writeBytes_words a (map u16 ws) c Hrd Ha Hu) as (c1 & Hw & Hf & Ho & Hrd1);
    [by rewrite El|by rewrite El|].
  pose proof (addr_index_nonneg a Ha) as Hi.
  exists c1. split; [|split; [done|split; [done|]]].
  - unfold WriteWords. rewrite (proj2 (Z.eqb_neq _ _)), (proj2 (Z.ltb_ge _ _)) by lia.
    unfold mbind, SM_bind, pure. rewrite Hp. rewrite (proj2 (Z.leb_gt _ _)) by lia.
    rewrite <-Hw. f_equal. unfold word_bytes. by rewrite !flat_map_concat_map, map_map.
  - unfold ReadWords. rewrite !(proj2 (Z.ltb_ge _ _)) by lia.
    rewrite (SM_bind_Ok _ _ _ a c1) by (unfold pure; by rewrite Hp).
    rewrite (proj2 (Z.leb_gt _ _)) by lia.
    destruct (rawRead_words a (len ws) c1 Hrd1 Ha) as (c2 & Hr & _); [lia| |].
    { rewrite Hf, len_words_set; rewrite ?El; lia. }
    rewrite (Z.mul_comm (len ws) 2), (SM_bind_Ok _ _ _ _ _ Hr), Hf.
    assert (words_at (words_set (file_of a c) (addr_index a) (map u16 ws)) (addr_index a) (len ws)
            = map u16 ws) as -> by (rewrite <-El; apply words_at_set; rewrite ?El; lia).
    rewrite len_word_bytes, El, Z.ltb_irrefl. unfold pure. cbn [fst].
    rewrite <-(app_nil_r (word_bytes (map u16 ws))), <-El, words_decoded by done.
    f_equal. rewrite map_map. rewrite <-(map_id ws) at 2. apply map_ext_Forall.
    eapply Forall_impl; [exact Hws|]. intros w Hw16. cbv beta in *. width_lia.
Qed.

(** *** Bits *)
Definition set_bit (word bit : Z) (on : bool) : Z :=
  let mask := u16 (Z.shiftl 1 bit) in if on then Z.lor word mask else Z.ldiff word mask.

Lemma set_bit_testbit w b on i :
  0 <= b < 16 -> 0 <= i -> Z.testbit (set_bit w b on) i = if i =? b then on else Z.testbit w i.
Proof.
  intros Hb Hi. unfold set_bit.
  assert (Z.testbit (u16 (Z.shiftl 1 b)) i = (b =? i)) as Hm.
  { rewrite Z.shiftl_mul_pow2, Z.mul_1_l, u16_small by lia || (split; [lia|];
      change 65536 with (2 ^ 16); apply Z.pow_lt_mono_r; lia).
    apply Z.pow2_bits_eqb; lia. }
  destruct on; rewrite ?Z.lor_spec, ?Z.ldiff_spec, Hm, (Z.eqb_sym b i); destruct (i =? b); simpl;
    rewrite ?orb_true_r, ?orb_false_r, ?andb_false_r, ?andb_true_r; done.
Qed.
Lemma is_u16_bits x : (forall i, 16 <= i -> Z.testbit x i = false) <-> is_u16 x.
Proof.
  split; intros H.
  - assert (x mod 2 ^ 16 = x) as <-; [|unfold is_u16; change 65536 with (2 ^ 16);
      apply Z.mod_pos_bound; lia].
    apply Z.bits_inj'. intros i Hi. destruct (decide (i < 16)).
    + apply Z.mod_pow2_bits_low. lia.
    + rewrite Z.mod_pow2_bits_high by lia. symmetry. apply H. lia.
  - intros i Hi. rewrite <-(Z.mod_small x (2 ^ 16)) by exact H. apply Z.mod_pow2_bits_high. lia.
Qed.
Lemma set_bit_u16 w b on : is_u16 w -> 0 <= b < 16 -> is_u16 (set_bit w b on).
Proof.
  intros Hw Hb. apply is_u16_bits. intros i Hi. rewrite set_bit_testbit by lia.
  rewrite (proj2 (Z.eqb_neq i b)) by lia. by apply is_u16_bits.
Qed.

Lemma words_at_one ws i w :
  0 <= i -> ws !! Z.to_nat i = Some w -> words_at ws i 1 = [w].
Proof. intros Hi Hw. unfold words_at. by rewrite (drop_S _ _ _ Hw). Qed.
Lemma words_set_one ws i w :
  0 <= i < len ws -> words_set ws i [w] = <[Z.to_nat i := w]> ws.
Proof.
  intros Hi. unfold words_set. rewrite insert_take_drop by (widths; lia). simpl.
  change (len [w]) with 1. by replace (Z.to_nat (i + 1)) with (S (Z.to_nat i)) by lia.
Qed.

Lemma bit_sub0 a : addr_ok a -> 0 <= BitNum a -> SubElement a = 0.
Proof.
  intros Ha Hb. destruct (ao_suffix a Ha) as [[-> _]|[[name Hn]|(_ & -> & _)]]; try done.
  unfold lookupNamedField in Hn. destruct (List.find _ _) as [[n f]|] eqn:Ef; [|done].
  injection Hn as ->. apply find_some in Ef as [Ef _]. revert Ef Hb. unfold tableFor.
  generalize (SubElement a) (BitNum a). intros sub bit.
  repeat case_match; cbn [timerFields counterFields controlFields In]; intros Ef Hb;
    repeat destruct Ef as [Ef|Ef]; simplify_eq; done || lia.
Qed.

Definition word_of (a : Address) : Address :=
  mkAddr (FileType a) (FileNumber a) (Element a) (SubElement a) (-1).
Lemma word_of_ok a : addr_ok a -> 0 <= BitNum a -> addr_ok (word_of a).
Proof.
  intros Ha Hb. split; [apply Ha..|].
  left. split; [|done]. by apply (bit_sub0 a).
Qed.

Lemma rawRead_one a c w :
  ready (executor c) -> addr_ok a -> file_of a c !! Z.to_nat (addr_index a) = Some w ->
  exists c', rawRead exec a 2 c = (Ok (le16 w), c') /\ all_same c c' /\ ready (executor c').
Proof.
  intros Hrd Ha Hw. pose proof (addr_index_nonneg a Ha) as Hi.
  destruct (rawRead_words a 1 c Hrd Ha) as (c' & Hr & He); [lia| |].
  { apply lookup_lt_Some in Hw. widths. lia. }
  exists c'. split; [|done]. change 2 with (2 * 1). rewrite Hr.
  rewrite (words_at_one _ _ w) by done. done.
Qed.

Lemma writeBit_ok a on c w :
  ready (executor c) -> addr_ok a -> 0 <= BitNum a ->
  file_of a c !! Z.to_nat (addr_index a) = Some w ->
  exists c', writeBit exec a on c = (Ok tt, c') /\
    file_of a c' = <[Z.to_nat (addr_index a) := set_bit w (BitNum a) on]> (file_of a c) /\
    others_same a c c' /\ ready (executor c').
Proof.
  intros Hrd Ha Hb Hw. pose proof (word_of_ok a Ha Hb) as Ha'.
  pose proof (proj2 (proj2 (addr_place a Ha))) as Hbit.
  assert (is_u16 w) as Hw16 by (by eapply Forall_lookup_1; [apply table_words|]).
  destruct (rawRead_one (word_of a) c w Hrd Ha' Hw) as (c1 & Hr & He & Hrd1).
  pose proof (addr_index_nonneg a Ha) as Hi.
  assert (0 <= addr_index a < len (file_of a c)) as Hin.
  { apply lookup_lt_Some in Hw. widths. lia. }
  assert (file_of (word_of a) c1 = file_of a c) as Ef by apply He.
  destruct (writeBytes_words (word_of a) [set_bit w (BitNum a) on] c1 Hrd1 Ha') as (c2 & Hwr & Hf & Ho & Hrd2).
  { repeat constructor; apply set_bit_u16; done || lia. }
  { done. }
  { rewrite Ef. change (addr_index (word_of a)) with (addr_index a). change (len [_]) with 1. lia. }
  exists c2. split; [|split; [|split; [|done]]].
  - unfold writeBit. fold (word_of a). rewrite (SM_bind_Ok _ _ _ _ _ Hr).
    change (len (le16 w) <? 2) with false. cbv iota.
    rewrite (SM_bind_Ok _ _ _ w c1).
    2: { unfold pure. by rewrite <-(app_nil_r (le16 w)), get_le16_le16. }
    by rewrite <-Hwr.
  - change (file_of a c2) with (file_of (word_of a) c2). rewrite Hf, Ef.
    by apply words_set_one.
  - intros ft file Hne. rewrite <-(He ft file). by apply Ho.
Qed.

Lemma readBit_ok addr a count c w :
  ready (executor c) -> ParseAddress addr = Ok a -> addr_ok a -> 0 <= BitNum a ->
  file_of a c !! Z.to_nat (addr_index a) = Some w ->
  exists c', readFile exec addr count c =
    (Ok (mkValue None [if Z.testbit w (BitNum a) then 1 else 0] TypeBool ByteOrderLittleEndian), c').
Proof.
  intros Hrd Hp Ha Hb Hw. destruct (rawRead_one a c w Hrd Ha Hw) as (c1 & Hr & _). exists c1.
  assert (is_u16 w) as Hw16 by (by eapply Forall_lookup_1; [apply table_words|]).
  unfold readFile. rewrite (SM_bind_Ok _ _ _ a c) by (unfold pure, file_parse; by rewrite Hp).
  unfold elementBytes. rewrite (proj2 (Z.leb_le 0 (BitNum a)) Hb).
  rewrite (SM_bind_Ok _ _ _ _ _ Hr). unfold bit_value. change (len (le16 w) <? 2) with false.
  cbv iota. change (go_slice (le16 w) 0 2) with (Ok (le16 w)). go_bind.
  rewrite <-(app_nil_r (le16 w)), get_le16_le16 by done.
  unfold SM_bind, pure, mret, SM_ret.
  rewrite <-(land1_testbit w (BitNum a)) by done.
  rewrite (Z.land_ones _ 1) by done. unfold u8. change (2 ^ 1) with 2.
  pose proof (Z.mod_pos_bound (Z.shiftr w (BitNum a)) 2 eq_refl).
  rewrite (Z.mod_small _ 256) by lia.
  destruct (Z.eqb_spec (Z.shiftr w (BitNum a) mod 2) 1); do 4 f_equal; lia.
Qed.

(** Writing a bit address through the PLC interface succeeds, sets exactly
    that bit of the addressed word to whether the first byte is non-zero, keeps
    every other bit, word and file, and reading the point back returns the bit. *)
Theorem write_bit addr a count d rest c w :
  ready (executor c) -> ParseAddress addr = Ok a -> 0 <= BitNum a ->
  file_of a c !! Z.to_nat (addr_index a) = Some w ->
  exists c' w', Pccc_Write exec (File addr count) (d :: rest) c = (Ok tt, c') /\
    file_of a c' = <[Z.to_nat (addr_index a) := w']> (file_of a c) /\
    others_same a c c' /\
    (forall i, 0 <= i ->
       Z.testbit w' i = if i =? BitNum a then negb (d =? 0) else Z.testbit w i) /\
    fst (Pccc_Read exec [File addr count] c') =
      Ok [mkValue (Some (File addr count)) [if d =? 0 then 0 else 1] TypeBool ByteOrderLittleEndian].
Proof.
  intros Hrd Hp Hb Hw.
  assert (addr_ok a) as Ha.
  { destruct (ParseAddress_cases addr) as [[e He]|(a' & Ha' & ?)]; congruence. }
  pose proof (proj2 (proj2 (addr_place a Ha))) as Hbit.
  destruct (writeBit_ok a (negb (d =? 0)) c w Hrd Ha Hb Hw) as (c1 & Hwr & Hf & Ho & Hrd1).
  exists c1, (set_bit w (BitNum a) (negb (d =? 0))).
  split; [|split; [done|split; [done|split]]].
  - unfold Pccc_Write. rewrite (SM_bind_Ok _ _ _ a c) by (unfold pure, file_parse; by rewrite Hp).
    by rewrite (proj2 (Z.leb_le 0 (BitNum a)) Hb).
  - intros i Hi. apply set_bit_testbit; lia.
  - destruct (readBit_ok addr a count c1 (set_bit w (BitNum a) (negb (d =? 0))) Hrd1 Hp Ha Hb) as [c2 Hr].
    { rewrite Hf. apply list_lookup_insert_eq. by apply lookup_lt_Some in Hw. }
    cbn [Pccc_Read]. rewrite (SM_bind_Ok _ _ _ _ _ Hr). cbn. rewrite set_bit_testbit by lia.
    rewrite Z.eqb_refl. by destruct (d =? 0).
Qed.

(** A read of several floats returns the first one: the request asks for all
    of them, the controller sends them, and the value keeps four bytes. *)
Theorem float_array_clipped addr a count c :
  ready (executor c) -> ParseAddress addr = Ok a -> FileType a = FileTypeFloat -> BitNum a < 0 -> 1 <= count <= 60 ->
  addr_index a + 2 * count <= len (file_of a c) ->
  exists c', Pccc_Read exec [File addr count] c =
    (Ok [mkValue (Some (File addr count)) (word_bytes (words_at (file_of a c) (addr_index a) 2))
           TypeFloat32 ByteOrderLittleEndian], c').
Proof.
  intros Hrd Hp Hft Hb Hc Hlen.
  assert (addr_ok a) as Ha.
  { destruct (ParseAddress_cases addr) as [[e He]|(a' & Ha' & ?)]; congruence. }
  destruct (rawRead_words a (2 * count) c Hrd Ha) as (c1 & Hr & _); [lia|done|].
  exists c1. cbn [Pccc_Read].
  rewrite (SM_bind_Ok _ _ _ (mkValue None (word_bytes (words_at (file_of a c) (addr_index a) 2))
             TypeFloat32 ByteOrderLittleEndian) c1); [done|].
  unfold readFile. rewrite (SM_bind_Ok _ _ _ a c) by (unfold pure, file_parse; by rewrite Hp).
  unfold elementBytes, effectiveCount. rewrite Hft, (proj2 (Z.leb_gt _ _)), (proj2 (Z.leb_gt _ _)) by lia.
  rewrite (proj2 (Z.ltb_ge _ _)) by lia. cbn [Z.eqb].
  replace (4 * count) with (2 * (2 * count)) by lia. rewrite Z.eqb_refl, (SM_bind_Ok _ _ _ _ _ Hr).
  unfold mret, SM_ret. do 2 f_equal. f_equal.
  unfold clip, words_at. set (ws := drop _ _).
  replace (Z.to_nat (2 * count)) with (2 + Z.to_nat (2 * count - 2))%nat by lia.
  assert (2 <= length ws)%nat as Hws.
  { unfold ws. rewrite length_drop. pose proof (addr_index_nonneg a Ha). widths. lia. }
  destruct ws as [|w0 [|w1 ws]]; simpl in Hws; [lia|lia|]. done.
Qed.
End Served.

(** Every request of 121 to 127 words, which the guard of [ReadWords] lets
    through, fails on the size limit of the read itself, before anything is
    sent. *)
Theorem read_words_limit {E} (exec : bytes -> SM E bytes) addr a n c :
  ParseAddress addr = Ok a -> BitNum a < 0 -> 121 <= n <= 127 ->
  ReadWords exec addr n c = (Err (Errorf "pccc: read size %d out of range [1,240]"), c).
Proof.
  intros Hp Hb Hn. unfold ReadWords. rewrite !(proj2 (Z.ltb_ge _ _)) by lia.
  rewrite (SM_bind_Ok _ _ _ a c) by (unfold pure; by rewrite Hp).
  rewrite (proj2 (Z.leb_gt _ _)) by lia. unfold rawRead.
  by replace ((n * 2 <? 1) || (240 <? n * 2)) with true by (symmetry; lia).
Qed.

(** ** A controller: data files in a map *)
Module Device.
Abbreviation device := (gmap (Z * Z) (list Z)).
Definition dev_table (d : device) (ft file : Z) : list Z := map u16 (default [] (d !! (ft, file))).
Fixpoint words_of (b : bytes) : list Z :=
  match b with b0 :: b1 :: b => Z.lor b0 (Z.shiftl b1 8) :: words_of b | _ => [] end.
Definition exec (cmd : bytes) : SM device bytes := fun d =>
  match cmd with
  | _ :: _ :: t0 :: t1 :: fn :: b0 :: b1 :: b2 :: b3 :: rest =>
      if fn =? FuncProtectedTypedLogicalRead then
        match rest with
        | [sub] => (Ok ([0x4F; 0; t0; t1] ++
                        word_bytes (words_at (dev_table d b2 b1) (word_index b2 b3 sub) (b0 / 2))), d)
        | _ => (Err NetClosed, d)
        end
      else
        (Ok [0x4F; 0; t0; t1],
         <[(b1, b0) := words_set (dev_table d b1 b0) (word_index b1 b2 b3) (words_of rest)]> d)
  | _ => (Err NetClosed, d)
  end.

Lemma words_of_bytes ws : Forall is_u16 ws -> words_of (word_bytes ws) = ws.
Proof.
  induction 1 as [|w ws Hw _ IH]; [done|]. cbn [word_bytes flat_map le16 app words_of].
  fold (word_bytes ws). rewrite IH. f_equal. pose proof (get_le16_le16 w [] Hw) as H. by injection H.
Qed.
Lemma map_u16_id ws : Forall is_u16 ws -> map u16 ws = ws.
Proof. induction 1 as [|w ws Hw _ IH]; [done|]. simpl. by rewrite IH, u16_small. Qed.
Lemma dev_table_words d ft file : Forall is_u16 (dev_table d ft file).
Proof. apply Forall_map, Forall_true; auto with go. Qed.
Lemma words_set_u16 ws i new : Forall is_u16 ws -> Forall is_u16 new -> Forall is_u16 (words_set ws i new).
Proof.
  intros Hws Hn. unfold words_set. repeat apply Forall_app_2; auto using Forall_take, Forall_drop.
Qed.

Lemma dev_table_insert (d : device) k ws ft file :
  Forall is_u16 ws ->
  dev_table (<[k := ws]> d) ft file = if decide ((ft, file) = k) then ws else dev_table d ft file.
Proof.
  intros Hws. unfold dev_table. case_decide as Hk.
  - subst k. rewrite lookup_insert_eq. by apply map_u16_id.
  - by rewrite lookup_insert_ne.
Qed.
#[export] Instance controller : Controller exec.
Proof.
  refine {| ready := fun _ => True; table := dev_table; table_words := dev_table_words |}.
  - intros e t n file ft elem sub _ Ht Hn _ _ _ _ Hl. exists e. split; [|done]. unfold exec, read_frame.
    cbn [app]. change (0xA2 =? FuncProtectedTypedLogicalRead) with true. cbv iota.
    replace (2 * n / 2) with n by dlia.
    by rewrite (word_bytes_digits (words_at _ _ _)) by apply words_at_u16, dev_table_words.
  - intros e t file ft elem sub ws _ Ht Hws _ _ _ _ _ Hl. unfold exec, write_frame. rewrite word_bytes_digits by done.
    cbn [app]. change (0xAA =? FuncProtectedTypedLogicalRead) with false. cbv iota.
    eexists. split; [reflexivity|]. rewrite words_of_bytes by done.
    pose proof (words_set_u16 _ (word_index ft elem sub) _ (dev_table_words e ft file) Hws) as Hu.
    split; [by rewrite dev_table_insert, decide_True|]. split; [|done].
    intros ft' file' Hne. by rewrite dev_table_insert, decide_False.
Defined.

(** An integer file N7, a timer file T4 and a float file F8. *)
Definition plant : client device :=
  NewClient {[ (FileTypeInteger, 7) := [0; 0xFF00; 7; 8];
               (FileTypeTimer, 4) := [0x2000; 100; 42];
               (FileTypeFloat, 8) := [1; 2; 3; 4] ]}.
End Device.
#[export] Existing Instance Device.controller.

Lemma write_bit_witness :
  exists c', Pccc_Write Device.exec (File (str "T4:0.EN") 1) [1] Device.plant = (Ok tt, c') /\
    fst (Pccc_Read Device.exec [File (str "T4:0.EN") 1] c') =
      Ok [mkValue (Some (File (str "T4:0.EN") 1)) [1] TypeBool ByteOrderLittleEndian].
Proof.
  destruct (write_bit (exec := Device.exec) (str "T4:0.EN") (mkAddr FileTypeTimer 4 0 0 15) 1 1 []
    Device.plant 0x2000) as (c' & w' & Hw & _ & _ & _ & Hr).
  - exact I.
  - reflexivity.
  - vm_compute. discriminate.
  - reflexivity.
  - exists c'. split; [exact Hw|exact Hr].
Defined.
Lemma float_array_clipped_witness :
  exists c', Pccc_Read Device.exec [File (str "F8:0") 2] Device.plant =
    (Ok [mkValue (Some (File (str "F8:0") 2)) [1; 0; 2; 0] TypeFloat32 ByteOrderLittleEndian], c').
Proof.
  destruct (float_array_clipped (exec := Device.exec) (str "F8:0") (mkAddr FileTypeFloat 8 0 0 (-1)) 2
    Device.plant) as (c' & Hr).
  - exact I.
  - reflexivity.
  - reflexivity.
  - reflexivity.
  - lia.
  - vm_compute. discriminate.
  - exists c'. exact Hr.
Defined.
Lemma read_words_limit_witness :
  ReadWords Device.exec (str "N7:0") 121 Device.plant =
    (Err (Errorf "pccc: read size %d out of range [1,240]"), Device.plant).
Proof.
  apply (read_words_limit Device.exec (str "N7:0") (mkAddr FileTypeInteger 7 0 0 (-1))).
  - reflexivity.
  - reflexivity.
  - lia.
Defined.
