(* ===== verification/CipTags.v ===== *)
(** * Tag names, symbols and Logix structures

    Models [protocol/ethernetip/cip]: [tag.go] (tag names to paths), [symbol.go]
    (requests and responses of the Symbol object), [timer.go] and [counter.go],
    and the CONTROL structure of [vendor/rockwell/rockwell.go].  Bytes are ASCII:
    46 is '.', 44 ',', 91 '[' and 93 ']'.  [isAllDigits] and the string functions
    are those of [Pccc]. *)
From S2P Require Import Prelude Bytes Cip Pccc.

(** ** tag.go *)

(** [strconv.ParseUint(s, 10, 32)] *)
Definition parse_uint32 (s : bytes) : option Z :=
  if isAllDigits s && (digits_value s <=? 4294967295) then Some (digits_value s) else None.

(** [strings.SplitSeq] on one byte. *)
Fixpoint split_on (sep : Z) (s : bytes) : list bytes :=
  match s with
  | [] => [[]]
  | b :: s =>
      if b =? sep then [] :: split_on sep s
      else match split_on sep s with w :: ws => (b :: w) :: ws | [] => [[b]] end
  end.

(** The loop of [splitTagSegments]: [cur] is [tag[start:i]]. *)
Fixpoint split_tag (s cur : bytes) (depth : Z) : outcome (list bytes) :=
  match s with
  | [] =>
      if negb (depth =? 0) then Err (Errorf "cip: tag %q: unmatched '['") else Ok [cur]
  | b :: s =>
      if b =? 91 then split_tag s (cur ++ [b]) (depth + 1)
      else if b =? 93 then
        if depth =? 0 then Err (Errorf "cip: tag %q: unmatched ']'")
        else split_tag s (cur ++ [b]) (depth - 1)
      else if (b =? 46) && (depth =? 0) then
        parts ← split_tag s [] depth; Ok (cur :: parts)
      else split_tag s (cur ++ [b]) depth
  end.
Definition splitTagSegments (tag : bytes) : outcome (list bytes) := split_tag tag [] 0.

(** One index of a bracket group. *)
Definition parse_index (part : bytes) : outcome Z :=
  match trim_space part with
  | [] => Err (Errorf "segment %q: empty index value")
  | part =>
      match parse_uint32 part with
      | None => Err (Errorf "segment %q: invalid index %q")
      | Some n => Ok n
      end
  end.

Definition parseTagSegment (seg : bytes) : outcome (bytes * list Z) :=
  match cut 91 seg with
  | None => Ok (seg, [])
  | Some (name, _) =>
      if negb (bool_decide (last seg = Some 93))
      then Err (Errorf "segment %q: bracket group not closed") else
      inner ← go_slice seg (len name + 1) (len seg - 1);
      match inner with
      | [] => Err (Errorf "segment %q: empty index")
      | _ => indices ← mapO parse_index (split_on 44 inner); Ok (name, indices)
      end
  end.

Definition addMember32 (p : bytes) (id : Z) : bytes :=
  if id <=? 0xFF then
    p ++ [Z.lor (Z.lor SegmentTypeLogical LogicalTypeMember) LogicalFormat8Bit; u8 id]
  else if id <=? 0xFFFF then
    p ++ [Z.lor (Z.lor SegmentTypeLogical LogicalTypeMember) LogicalFormat16Bit; 0] ++
      [u8 id; u8 (Z.shiftr id 8)]
  else
    p ++ [Z.lor (Z.lor SegmentTypeLogical LogicalTypeMember) LogicalFormat32Bit; 0] ++
      [u8 id; u8 (Z.shiftr id 8); u8 (Z.shiftr id 16); u8 (Z.shiftr id 24)].

(** The name of a segment: a bit number after the first segment, else a symbol. *)
Definition add_name (i : Z) (name : bytes) (p : bytes) : outcome bytes :=
  match name with
  | [] => Ok p
  | _ =>
      if (0 <? i) && isAllDigits name then
        match parse_uint32 name with
        | None => Err (Errorf "cip: tag %q: invalid numeric member %q")
        | Some n => Ok (addMember32 p n)
        end
      else Ok (AddSymbolicSegment p name)
  end.

Fixpoint add_parts (i : Z) (parts : list bytes) (p : bytes) : outcome bytes :=
  match parts with
  | [] => Ok p
  | part :: parts =>
      match parseTagSegment part with
      | Err err => Err (Wrapf "cip: tag %q: %w" err)
      | Panic => Panic
      | Ok (name, indices) =>
          if bool_decide (name = []) && bool_decide (indices = [])
          then Err (Errorf "cip: tag %q: empty segment") else
          p ← add_name i name p;
          add_parts (i + 1) parts (fold_left addMember32 indices p)
      end
  end.

Definition ParseTagPath (tag : bytes) : outcome bytes :=
  match tag with
  | [] => Err (Errorf "cip: empty tag path")
  | _ => parts ← splitTagSegments tag; add_parts 0 parts []
  end.

Example parse_tag_bit :
  ParseTagPath (str "P:M.A[2,300].5") =
    Ok ([0x91; 3] ++ str "P:M" ++ [0; 0x91; 1] ++ str "A" ++ [0; 0x28; 2; 0x29; 0; 44; 1; 0x28; 5]).
Proof. reflexivity. Qed.

(** ** symbol.go *)
Definition ClassSymbol : Z := 0x6B.
Record SymbolInstance : Type := mkSymbol { InstanceID : Z; Name : bytes; sy_Type : Z }.

Definition NewGetSymbolClassAttributesRequest : MessageRouterRequest :=
  mkMRReq 0x03 (AddInstance (AddClass [] ClassSymbol) 0) (le16 2 ++ le16 1 ++ le16 2).
Definition NewGetSymbolAttributesRequest (instanceID : Z) : MessageRouterRequest :=
  mkMRReq 0x03 (AddInstance32 (AddClass [] ClassSymbol) instanceID) (le16 2 ++ le16 1 ++ le16 2).

(** The attribute loop of [DecodeSymbolClassAttributesResponse], [n] to go. *)
Fixpoint class_attrs (n : nat) (r : bytes) (revision maxInstance : Z) : outcome (Z * Z) :=
  match n with
  | O => Ok (revision, maxInstance)
  | S n =>
      '(attrID, r) ← read_le16 r;
      '(status, r) ← read_le16 r;
      if status =? 0 then
        if attrID =? 1 then '(v, r) ← read_le16 r; class_attrs n r v maxInstance
        else if attrID =? 2 then '(v, r) ← read_le16 r; class_attrs n r revision v
        else class_attrs n r revision maxInstance
      else class_attrs n r revision maxInstance
  end.
Definition DecodeSymbolClassAttributesResponse (data : bytes) : outcome (Z * Z) :=
  '(count, r) ← read_le16 data; class_attrs (Z.to_nat count) r 0 0.

Fixpoint symbol_attrs (n : nat) (r : bytes) (name : bytes) (typeCode : Z) : outcome (bytes * Z) :=
  match n with
  | O => Ok (name, typeCode)
  | S n =>
      '(attrID, r) ← read_le16 r;
      '(status, r) ← read_le16 r;
      if status =? 0 then
        if attrID =? 1 then
          '(nameLen, r) ← read_le16 r;
          '(nameBytes, r) ← read_full (Z.to_nat nameLen) r;
          symbol_attrs n r nameBytes typeCode
        else if attrID =? 2 then '(v, r) ← read_le16 r; symbol_attrs n r name v
        else symbol_attrs n r name typeCode
      else symbol_attrs n r name typeCode
  end.
Definition DecodeSymbolAttributesResponse (data : bytes) : outcome (bytes * Z) :=
  '(count, r) ← read_le16 data; symbol_attrs (Z.to_nat count) r [] 0.

(** ** timer.go, counter.go, rockwell.go *)
Definition status_bit (status bit : Z) : bool := negb (Z.land status (Z.shiftl 1 bit) =? 0).
Definition or_bit (status bit : Z) (on : bool) : Z :=
  if on then Z.lor status (Z.shiftl 1 bit) else status.
Definition le32_at (b : bytes) (i : Z) : outcome Z := x ← go_slice b i (i + 4); get_le32 x.

(** The three words of a structure, from the 14- or the 12-byte layout. *)
Definition struct_words (what : string) (data : bytes) : outcome (Z * Z * Z) :=
  if 14 <=? len data then
    st ← le32_at data 2; pre ← le32_at data 6; acc ← le32_at data 10; Ok (st, i32 pre, i32 acc)
  else if 12 <=? len data then
    st ← le32_at data 0; pre ← le32_at data 4; acc ← le32_at data 8; Ok (st, i32 pre, i32 acc)
  else Err (Errorf what).
(** The 14-byte layout. *)
Definition struct_bytes (status pre acc : Z) : bytes :=
  le16 0 ++ le32 status ++ le32 (u32 pre) ++ le32 (u32 acc).

Module Logix.
Record Timer : Type := mkTimer { PRE : Z; ACC : Z; EN : bool; TT : bool; DN : bool }.
Definition TimerStatusEN : Z := 31.
Definition TimerStatusTT : Z := 30.
Definition TimerStatusDN : Z := 29.
Definition DecodeTimer (data : bytes) : outcome Timer :=
  '(st, pre, acc) ← struct_words "insufficient data for Timer: expected at least 12 bytes, got %d" data;
  Ok (mkTimer pre acc (status_bit st TimerStatusEN) (status_bit st TimerStatusTT)
        (status_bit st TimerStatusDN)).
Definition Timer_MarshalCIP (t : Timer) : bytes :=
  let status := or_bit 0 TimerStatusEN (EN t) in
  let status := or_bit status TimerStatusTT (TT t) in
  let status := or_bit status TimerStatusDN (DN t) in
  struct_bytes status (PRE t) (ACC t).

Record Counter : Type := mkCounter {
  c_PRE : Z; c_ACC : Z; CU : bool; CD : bool; c_DN : bool; OV : bool; UN : bool }.
Definition CounterStatusCU : Z := 31.
Definition CounterStatusCD : Z := 30.
Definition CounterStatusDN : Z := 29.
Definition CounterStatusOV : Z := 28.
Definition CounterStatusUN : Z := 27.
Definition DecodeCounter (data : bytes) : outcome Counter :=
  '(st, pre, acc) ← struct_words "insufficient data for Counter: expected at least 12 bytes, got %d" data;
  Ok (mkCounter pre acc (status_bit st CounterStatusCU) (status_bit st CounterStatusCD)
        (status_bit st CounterStatusDN) (status_bit st CounterStatusOV)
        (status_bit st CounterStatusUN)).
Definition Counter_MarshalCIP (c : Counter) : bytes :=
  let status := or_bit 0 CounterStatusCU (CU c) in
  let status := or_bit status CounterStatusCD (CD c) in
  let status := or_bit status CounterStatusDN (c_DN c) in
  let status := or_bit status CounterStatusOV (OV c) in
  let status := or_bit status CounterStatusUN (UN c) in
  struct_bytes status (c_PRE c) (c_ACC c).

Record Control : Type := mkControl {
  LEN : Z; POS : Z; k_EN : bool; EU : bool; k_DN : bool; EM : bool; ER : bool; UL : bool;
  IN : bool; FD : bool }.
Definition ControlStatusEN : Z := 31.
Definition ControlStatusEU : Z := 30.
Definition ControlStatusDN : Z := 29.
Definition ControlStatusEM : Z := 28.
Definition ControlStatusER : Z := 27.
Definition ControlStatusUL : Z := 26.
Definition ControlStatusIN : Z := 25.
Definition ControlStatusFD : Z := 24.
Definition Control_UnmarshalCIP (data : bytes) : outcome Control :=
  if len data <? 14 then Err (CipErr 0x13 []) else
  st ← le32_at data 2; l ← le32_at data 6; pos ← le32_at data 10;
  Ok (mkControl (i32 l) (i32 pos) (status_bit st ControlStatusEN) (status_bit st ControlStatusEU)
        (status_bit st ControlStatusDN) (status_bit st ControlStatusEM)
        (status_bit st ControlStatusER) (status_bit st ControlStatusUL)
        (status_bit st ControlStatusIN) (status_bit st ControlStatusFD)).
Definition Control_MarshalCIP (c : Control) : bytes :=
  let status := or_bit 0 ControlStatusEN (k_EN c) in
  let status := or_bit status ControlStatusEU (EU c) in
  let status := or_bit status ControlStatusDN (k_DN c) in
  let status := or_bit status ControlStatusEM (EM c) in
  let status := or_bit status ControlStatusER (ER c) in
  let status := or_bit status ControlStatusUL (UL c) in
  let status := or_bit status ControlStatusIN (IN c) in
  let status := or_bit status ControlStatusFD (FD c) in
  struct_bytes status (LEN c) (POS c).
End Logix.

(** ** Lemmas: splitting *)
Lemma cut_Some c s l r : cut c s = Some (l, r) -> s = l ++ c :: r.
Proof.
  revert l r. induction s as [|b s IH]; intros l r; simpl; [done|].
  destruct (Z.eqb_spec b c) as [->|]; [by intros [= <- <-]|].
  destruct (cut c s) as [[l' r']|]; [|done]. intros [= <- <-]. by rewrite (IH l' r').
Qed.

Lemma parse_indices_cases l :
  (exists e, mapO parse_index l = Err e) \/ exists r, mapO parse_index l = Ok r.
Proof.
  induction l as [|x l IH]; [right; by eexists|]. cbn [mapO].
  assert ((exists e, parse_index x = Err e) \/ exists n, parse_index x = Ok n) as [[e ->]|[n ->]].
  { unfold parse_index. destruct (trim_space x); [by eauto|]. destruct (parse_uint32 _); eauto. }
  - left. by eexists.
  - go_bind. destruct IH as [[e ->]|[r ->]]; eauto.
Qed.
Lemma parseTagSegment_cases seg :
  (exists e, parseTagSegment seg = Err e) \/ exists r, parseTagSegment seg = Ok r.
Proof.
  unfold parseTagSegment. destruct (cut 91 seg) as [[name rest]|] eqn:Ec; [|by eauto].
  case_bool_decide as Hl; cbn [negb]; [|by eauto]. apply cut_Some in Ec as ->.
  destruct (decide (rest = [])) as [->|Hr]; [rewrite last_snoc in Hl; congruence|].
  assert (1 <= len rest) by (destruct rest; [done|lens; pose proof (len_nonneg rest); lia]).
  unfold go_slice. rewrite decide_True by (lens; pose proof (len_nonneg name); lia). go_bind.
  case_match; [by eauto|].
  destruct (parse_indices_cases (split_on 44 (z :: l))) as [[e ->]|[r ->]]; by eauto.
Qed.

(** ** Lemmas: path segments *)
Lemma addMember32_app p id : addMember32 p id = p ++ addMember32 [] id.
Proof. unfold addMember32. by repeat case_match. Qed.
Lemma AddSymbolicSegment_app p n : AddSymbolicSegment p n = p ++ AddSymbolicSegment [] n.
Proof. done. Qed.
Lemma addMembers_app ids p : fold_left addMember32 ids p = p ++ flat_map (addMember32 []) ids.
Proof.
  revert p. induction ids as [|id ids IH]; intros p; simpl; [by rewrite app_nil_r|].
  by rewrite IH, addMember32_app, <-app_assoc.
Qed.

(** A whole number of words. *)
Definition padded (p : bytes) : Prop := len p mod 2 = 0.
Lemma padded_app p q : padded p -> padded q -> padded (p ++ q).
Proof. unfold padded. lens. intros. rewrite Z.add_mod by done. dlia. Qed.
Lemma member_padded id : padded (addMember32 [] id) /\ addMember32 [] id <> [].
Proof. unfold addMember32. by repeat case_match. Qed.
Lemma symbol_padded n : padded (AddSymbolicSegment [] n) /\ AddSymbolicSegment [] n <> [].
Proof.
  split; [|done]. unfold padded, AddSymbolicSegment. cbn [app]. lens.
  destruct (Z.eqb_spec (len n mod 2) 0); cbn [negb]; lens; pose proof (len_nonneg n); dlia.
Qed.
Lemma members_padded ids : padded (flat_map (addMember32 []) ids).
Proof.
  induction ids as [|id ids IH]; [done|]. apply padded_app; [apply member_padded|exact IH].
Qed.

Lemma split_tag_cases s : forall cur depth,
  (exists e, split_tag s cur depth = Err e) \/
  exists part parts, split_tag s cur depth = Ok (part :: parts).
Proof.
  induction s as [|b s IH]; intros cur depth; simpl.
  - destruct (depth =? 0); simpl; eauto.
  - destruct (b =? 91); [apply IH|]. destruct (b =? 93).
    { destruct (depth =? 0); [by eauto|apply IH]. }
    destruct ((b =? 46) && (depth =? 0)); [|apply IH].
    destruct (IH [] depth) as [[e ->]|(q & qs & ->)]; go_bind; eauto.
Qed.

Lemma add_parts_total parts : forall i p,
  padded p ->
  match add_parts i parts p with
  | Ok q => padded q /\ (parts <> [] \/ p <> [] -> q <> [])
  | Err _ => True
  | Panic => False
  end.
Proof.
  induction parts as [|part parts IH]; intros i p Hp; simpl; [split; [done|naive_solver]|].
  destruct (parseTagSegment_cases part) as [[e ->]|[[name ids] ->]]; [done|].
  destruct (bool_decide (name = []) && bool_decide (ids = [])) eqn:Ee; [done|].
  assert (match add_name i name p with
          | Ok q => exists q', q = p ++ q' /\ padded q' /\ (name <> [] -> q' <> [])
          | Err _ => True | Panic => False end) as Hn.
  { unfold add_name. destruct name as [|b name]; [exists []; by rewrite app_nil_r|].
    destruct ((0 <? i) && _).
    - destruct (parse_uint32 _) as [n|]; [|done]. exists (addMember32 [] n).
      destruct (member_padded n). split; [apply addMember32_app|]. by split.
    - exists (AddSymbolicSegment [] (b :: name)). destruct (symbol_padded (b :: name)).
      split; [done|]. by split. }
  destruct (add_name i name p) as [q| |]; [|done|done]. go_bind.
  destruct Hn as (q' & -> & Hq' & Hne). rewrite addMembers_app.
  specialize (IH (i + 1) ((p ++ q') ++ flat_map (addMember32 []) ids)).
  destruct (add_parts _ _ _) as [r| |]; [|done|apply IH].
  - destruct IH as [Hr Hr']; [auto using padded_app, members_padded|]. split; [done|].
    intros _. apply Hr'. right. intros Ha. apply app_eq_nil in Ha as [Ha1 Ha2].
    apply app_eq_nil in Ha1 as [-> ->]. apply andb_false_iff in Ee.
    rewrite !bool_decide_eq_false in Ee. destruct ids as [|id ids]; [naive_solver|].
    simpl in Ha2. apply app_eq_nil in Ha2 as [Ha2 _]. by destruct (member_padded id).
  - auto using padded_app, members_padded.
Qed.

(** Parsing a tag name never crashes; an accepted name is a non-empty path of
    whole words. *)
Theorem tag_path_total tag :
  match ParseTagPath tag with
  | Ok p => p <> [] /\ len p mod 2 = 0
  | Err _ => True
  | Panic => False
  end.
Proof.
  unfold ParseTagPath. destruct tag as [|b tag]; [done|]. unfold splitTagSegments.
  destruct (split_tag_cases (b :: tag) [] 0) as [[e ->]|(part & parts & ->)]; [done|]. go_bind.
  pose proof (add_parts_total (part :: parts) 0 [] eq_refl) as H.
  destruct (add_parts _ _ _); [|done|done]. destruct H as [H1 H2]. split; [|done].
  apply H2. by left.
Qed.

(** ** Numbers *)
Lemma digits_value_snoc ds d : digits_value (ds ++ [d]) = digits_value ds * 10 + (d - 48).
Proof. unfold digits_value. by rewrite fold_left_app. Qed.

Lemma itoa_digits_spec fuel : forall n acc,
  0 <= n < 10 ^ Z.of_nat (S fuel) -> exists ds,
    itoa_digits (S fuel) n acc = ds ++ acc /\ isAllDigits ds = true /\ digits_value ds = n.
Proof.
  induction fuel as [|fuel IH]; intros n acc Hn.
  - change (10 ^ Z.of_nat 1) with 10 in Hn. exists [48 + n mod 10]. cbn [itoa_digits].
    split; [by destruct (n / 10 =? 0)|]. rewrite Z.mod_small by lia.
    unfold isAllDigits, digits_value, isDigit. simpl. lia.
  - remember (S fuel) as f eqn:Ef. cbn [itoa_digits]. rewrite Ef in *. clear f Ef.
    destruct (Z.eqb_spec (n / 10) 0) as [E|E].
    + exists [48 + n mod 10]. split; [done|]. unfold isAllDigits, digits_value, isDigit. simpl. dlia.
    + rewrite Nat2Z.inj_succ, Z.pow_succ_r in Hn by lia.
      destruct (IH (n / 10) (48 + n mod 10 :: acc)) as (ds & -> & Hd & Hv).
      { split; [dlia|]. apply Z.div_lt_upper_bound; lia. }
      exists (ds ++ [48 + n mod 10]). split; [by rewrite <-app_assoc|]. split.
      * destruct ds as [|d ds]; [done|]. cbn [isAllDigits app] in *. change (d :: ds ++ [48 + n mod 10])
          with ((d :: ds) ++ [48 + n mod 10]). rewrite forallb_app, Hd. simpl. unfold isDigit. dlia.
      * rewrite digits_value_snoc, Hv. dlia.
Qed.

Lemma itoa_u32 n : is_u32 n -> isAllDigits (itoa n) = true /\ digits_value (itoa n) = n.
Proof.
  intros Hn. unfold itoa. rewrite (proj2 (Z.ltb_ge n 0)) by (widths; lia).
  destruct (itoa_digits_spec 19 n []) as (ds & -> & Hd & Hv).
  { change (Z.of_nat 20) with 20. widths. lia. }
  by rewrite app_nil_r.
Qed.

(** ** Printed tag names

    A segment is a name with optional indices; names hold no '.', '[' or ']'.
    After the first segment a numeric name is a bit number. *)
Record segment : Type := mkSegment { seg_name : bytes; seg_indices : list Z }.

Fixpoint join (sep : Z) (ws : list bytes) : bytes :=
  match ws with [] => [] | [w] => w | w :: ws => w ++ sep :: join sep ws end.
Definition print_segment (s : segment) : bytes :=
  match seg_indices s with
  | [] => seg_name s
  | ids => seg_name s ++ [91] ++ join 44 (map itoa ids) ++ [93]
  end.
Definition print_tag (segs : list segment) : bytes := join 46 (map print_segment segs).

Definition plain (b : Z) : Prop := b <> 46 /\ b <> 91 /\ b <> 93.
Record segment_ok (s : segment) : Prop := {
  so_some : seg_name s <> [] \/ seg_indices s <> [];
  so_plain : Forall plain (seg_name s);
  so_indices : Forall is_u32 (seg_indices s);
  so_bit : isAllDigits (seg_name s) = true -> digits_value (seg_name s) <= 4294967295
}.

(** The path of the [i]-th segment. *)
Definition segment_path (i : Z) (s : segment) : bytes :=
  (if bool_decide (seg_name s = []) then []
   else if (0 <? i) && isAllDigits (seg_name s)
   then addMember32 [] (digits_value (seg_name s))
   else AddSymbolicSegment [] (seg_name s)) ++
  flat_map (addMember32 []) (seg_indices s).
Fixpoint segments_path (i : Z) (segs : list segment) : bytes :=
  match segs with [] => [] | s :: segs => segment_path i s ++ segments_path (i + 1) segs end.

(** *** Splitting what was printed *)
Lemma split_tag_plain w s cur d :
  Forall plain w -> split_tag (w ++ s) cur d = split_tag s (cur ++ w) d.
Proof.
  revert cur. induction w as [|b w IH]; intros cur Hw; [by rewrite app_nil_r|].
  inversion_clear Hw as [|? ? (H1 & H2 & H3) Hw']. cbn [split_tag app].
  rewrite (proj2 (Z.eqb_neq b 91)), (proj2 (Z.eqb_neq b 93)), (proj2 (Z.eqb_neq b 46)) by done.
  cbn [andb]. rewrite IH by done. by rewrite <-app_assoc.
Qed.

Lemma digits_plain ds : isAllDigits ds = true -> Forall (fun b => isDigit b = true) ds.
Proof.
  intros H. apply isAllDigits_spec in H as [_ H]. apply Forall_forall. intros b Hb.
  rewrite forallb_forall in H. by apply H, list_elem_of_In.
Qed.
Lemma join_digits ids :
  Forall is_u32 ids -> Forall (fun b => isDigit b = true \/ b = 44) (join 44 (map itoa ids)).
Proof.
  induction 1 as [|n ids Hn _ IH]; [constructor|].
  assert (Forall (fun b => isDigit b = true \/ b = 44) (itoa n)) as Hd.
  { eapply Forall_impl; [apply digits_plain, itoa_u32, Hn|]. auto. }
  cbn [map join]. destruct (map itoa ids); [done|]. apply Forall_app_2; [done|].
  constructor; [by right|done].
Qed.

Lemma split_tag_segment s rest cur :
  segment_ok s -> split_tag (print_segment s ++ rest) cur 0 = split_tag rest (cur ++ print_segment s) 0.
Proof.
  intros Hs. unfold print_segment. destruct (seg_indices s) as [|n ids] eqn:Ei.
  - apply split_tag_plain, Hs.
  - rewrite <-!app_assoc. rewrite split_tag_plain by apply Hs. cbn [app split_tag].
    change (91 =? 91) with true. cbv iota. rewrite split_tag_plain.
    2: { eapply Forall_impl; [apply join_digits; rewrite <-Ei; apply Hs|].
         unfold plain, isDigit. cbv beta. intros. lia. }
    cbn [app split_tag]. by rewrite <-!app_assoc.
Qed.
Lemma split_tag_print segs : forall s,
  segment_ok s -> Forall segment_ok segs ->
  split_tag (print_tag (s :: segs)) [] 0 = Ok (map print_segment (s :: segs)).
Proof.
  induction segs as [|s' segs IH]; intros s Hs Hsegs.
  - unfold print_tag. cbn [map join]. rewrite <-(app_nil_r (print_segment s)) at 1.
    by rewrite split_tag_segment.
  - inversion_clear Hsegs. change (print_tag (s :: s' :: segs)) with
      (print_segment s ++ 46 :: print_tag (s' :: segs)).
    rewrite split_tag_segment by done. cbn [split_tag app].
    change (46 =? 91) with false. change (46 =? 93) with false. cbv iota. cbn [Z.eqb andb].
    by rewrite Pos.eqb_refl, IH.
Qed.

Lemma split_on_join sep ws :
  ws <> [] -> Forall (Forall (fun b => b <> sep)) ws -> split_on sep (join sep ws) = ws.
Proof.
  intros Hne Hws. induction Hws as [|w ws Hw Hws IH]; [done|].
  assert (forall s r rs, split_on sep s = r :: rs -> split_on sep (w ++ s) = (w ++ r) :: rs) as Hp.
  { clear -Hw. intros s r rs Hs. induction Hw as [|b w Hb _ IH]; [done|]. cbn [app split_on].
    rewrite (proj2 (Z.eqb_neq b sep)) by done. by rewrite IH. }
  destruct ws as [|w' ws]; cbn [join].
  - rewrite <-(app_nil_r w) at 1. rewrite (Hp [] [] []) by done. by rewrite app_nil_r.
  - rewrite (Hp _ [] (split_on sep (join sep (w' :: ws)))).
    + rewrite IH by done. by rewrite app_nil_r.
    + cbn [split_on]. by rewrite Z.eqb_refl.
Qed.

Lemma parse_index_itoa n : is_u32 n -> parse_index (itoa n) = Ok n.
Proof.
  intros Hn. destruct (itoa_u32 n Hn) as [Hd Hv]. unfold parse_index.
  rewrite trim_space_id.
  2: { eapply Forall_impl; [by apply digits_plain|]. unfold isDigit, is_space. cbv beta. intros. lia. }
  destruct (itoa n) as [|b ds] eqn:E; [done|]. unfold parse_uint32. rewrite Hd, Hv.
  by rewrite (proj2 (Z.leb_le _ _)) by (widths; lia).
Qed.

Lemma parse_segment_print s :
  segment_ok s -> parseTagSegment (print_segment s) = Ok (seg_name s, seg_indices s).
Proof.
  intros Hs. unfold print_segment, parseTagSegment.
  assert (Forall (fun b => b <> 91) (seg_name s)) as Hn.
  { eapply Forall_impl; [apply Hs|]. by intros b (_ & ? & _). }
  destruct (seg_indices s) as [|n ids] eqn:Ei; [by rewrite cut_none|].
  cbn [app]. rewrite cut_app by done.
  assert (Forall is_u32 (n :: ids)) as Hids by (rewrite <-Ei; apply Hs).
  set (inner := join 44 (map itoa (n :: ids))).
  rewrite bool_decide_true by (rewrite app_comm_cons, app_assoc; apply last_snoc). cbn [negb].
  change (seg_name s ++ 91 :: inner ++ [93]) with (seg_name s ++ [91] ++ inner ++ [93]).
  rewrite app_assoc, go_slice_mid by (lens; lia). go_bind.
  assert (inner <> []) as Hi.
  { unfold inner. cbn [map join]. inversion_clear Hids.
    destruct (itoa_u32 n) as [Hd _]; [done|]. apply isAllDigits_spec in Hd as [Hd _].
    destruct (map itoa ids); [done|]. by destruct (itoa n). }
  destruct inner as [|b inner'] eqn:Einner; [done|]. rewrite <-Einner. unfold inner.
  rewrite split_on_join; [|done|].
  2: { apply Forall_map. eapply Forall_impl; [exact Hids|]. intros m Hm. cbv beta.
       eapply Forall_impl; [apply digits_plain, itoa_u32, Hm|]. unfold isDigit. cbv beta. lia. }
  assert (forall l, Forall is_u32 l -> mapO parse_index (map itoa l) = Ok l) as ->; [|done|done].
  induction 1 as [|m l Hm _ IH]; [done|]. cbn [map mapO]. by rewrite parse_index_itoa, IH.
Qed.

(** C26: Parsing a tag name written in the documented syntax gives the path of its
    segments: names as symbols, indices and (after the first segment) bit numbers
    as members, in order. *)
Theorem tag_path_parses segs :
  segs <> [] -> Forall segment_ok segs -> ParseTagPath (print_tag segs) = Ok (segments_path 0 segs).
Proof.
  intros Hne Hok. unfold ParseTagPath, splitTagSegments. destruct segs as [|s segs]; [done|].
  inversion_clear Hok. rewrite split_tag_print by done.
  assert (forall l i p, Forall segment_ok l ->
            add_parts i (map print_segment l) p = Ok (p ++ segments_path i l)) as Ha.
  { induction l as [|x l IH]; intros i p Hl; cbn [map add_parts segments_path]; [by rewrite app_nil_r|].
    inversion_clear Hl as [|? ? Hx Hl']. rewrite parse_segment_print by done.
    destruct (bool_decide (seg_name x = []) && bool_decide (seg_indices x = [])) eqn:Ee.
    { apply andb_true_iff in Ee. rewrite !bool_decide_eq_true in Ee. destruct (so_some x Hx); naive_solver. }
    unfold add_name, segment_path. pose proof (so_bit x Hx) as Hb.
    destruct (seg_name x) as [|b name]; [|rewrite (bool_decide_false (b :: name = [])) by done].
    - go_bind. by rewrite addMembers_app, IH, <-app_assoc.
    - destruct ((0 <? i) && isAllDigits (b :: name)) eqn:Ed.
      + apply andb_true_iff in Ed as [_ Ed]. unfold parse_uint32. rewrite Ed.
        rewrite (proj2 (Z.leb_le _ _)) by (by apply Hb). cbn [andb]. go_bind.
        by rewrite addMembers_app, IH, addMember32_app, <-!app_assoc.
      + go_bind. by rewrite addMembers_app, IH, AddSymbolicSegment_app, <-!app_assoc. }
  assert (print_tag (s :: segs) <> []) as Hp.
  { intros E. pose proof (split_tag_print segs s) as Hsp. rewrite E in Hsp. cbn [split_tag] in Hsp.
    destruct (so_some s) as [Hs|Hs]; [done| |]; apply Hs; clear Hs;
      specialize (Hsp ltac:(done) ltac:(done)); injection Hsp as Hsp _;
      unfold print_segment in Hsp; destruct (seg_indices s) as [|? ?]; try done;
      symmetry in Hsp; by apply app_eq_nil in Hsp as [_ ?]. }
  destruct (print_tag (s :: segs)); [done|]. go_bind. apply Ha. by constructor.
Qed.

Definition segment_okb (s : segment) : bool :=
  negb (bool_decide (seg_name s = []) && bool_decide (seg_indices s = [])) &&
  forallb (fun b => negb (b =? 46) && negb (b =? 91) && negb (b =? 93)) (seg_name s) &&
  forallb (fun n => (0 <=? n) && (n <? 4294967296)) (seg_indices s) &&
  (negb (isAllDigits (seg_name s)) || (digits_value (seg_name s) <=? 4294967295)).
Lemma segments_okb_ok segs : forallb segment_okb segs = true -> Forall segment_ok segs.
Proof.
  rewrite forallb_forall. intros H. apply Forall_forall. intros s Hs%list_elem_of_In.
  specialize (H s Hs). unfold segment_okb in H. rewrite !andb_true_iff, !forallb_forall in H.
  destruct H as [[[H1 H2] H3] H4]. split.
  - apply negb_true_iff, andb_false_iff in H1. by rewrite !bool_decide_eq_false in H1.
  - apply Forall_forall. intros b Hb%list_elem_of_In. specialize (H2 b Hb). unfold plain. lia.
  - apply Forall_forall. intros n Hn%list_elem_of_In. specialize (H3 n Hn). widths. lia.
  - intros Hd. rewrite Hd in H4. cbn [negb orb] in H4. lia.
Qed.

(** A controller-scoped array element and a bit of a module tag. *)
Lemma tag_path_parses_witness :
  ParseTagPath (str "Local:2:I.Data[7,65536].5") =
    Ok (segments_path 0 [mkSegment (str "Local:2:I") []; mkSegment (str "Data") [7; 65536];
                         mkSegment (str "5") []]).
Proof.
  apply (tag_path_parses [mkSegment (str "Local:2:I") []; mkSegment (str "Data") [7; 65536];
                          mkSegment (str "5") []]).
  - discriminate.
  - apply segments_okb_ok. vm_compute. reflexivity.
Defined.

(** ** Lemmas: structures *)
Lemma le32_at_mid (p s : bytes) v i : i = len p -> is_u32 v -> le32_at (p ++ le32 v ++ s) i = Ok v.
Proof.
  intros -> Hv. unfold le32_at. rewrite go_slice_mid by (lens; lia). go_bind.
  rewrite <-(app_nil_r (le32 v)). by apply get_le32_le32.
Qed.
Lemma i32_u32 z : is_i32 z -> i32 (u32 z) = z.
Proof. width_lia. Qed.

Lemma status_bit_testbit s b : 0 <= b -> status_bit s b = Z.testbit s b.
Proof.
  intros Hb. unfold status_bit. rewrite Z.shiftl_1_l.
  destruct (Z.eqb_spec (Z.land s (2 ^ b)) 0) as [E|E]; cbn [negb].
  - assert (Z.testbit (Z.land s (2 ^ b)) b = false) as H by (by rewrite E, Z.bits_0).
    by rewrite Z.land_spec, Z.pow2_bits_true, andb_true_r in H.
  - destruct (Z.testbit s b) eqn:Et; [done|]. destruct E. apply Z.bits_inj'. intros n Hn.
    rewrite Z.land_spec, Z.pow2_bits_eqb, Z.bits_0 by done.
    destruct (Z.eqb_spec b n) as [->|]; [by rewrite Et|apply andb_false_r].
Qed.
Lemma status_or_bit s b on b' :
  0 <= b -> 0 <= b' -> status_bit (or_bit s b on) b' = ((b =? b') && on) || status_bit s b'.
Proof.
  intros Hb Hb'. rewrite !status_bit_testbit by done. unfold or_bit.
  destruct on; [|by rewrite andb_false_r].
  rewrite Z.lor_spec, Z.shiftl_1_l, Z.pow2_bits_eqb, andb_true_r by done. apply orb_comm.
Qed.
Lemma or_bit_u32 s b on : 0 <= b < 32 -> is_u32 s -> is_u32 (or_bit s b on).
Proof.
  intros Hb Hs. destruct on; [|done]. unfold or_bit, is_u32 in *.
  rewrite Z.shiftl_1_l. split; [apply Z.lor_nonneg; split; [lia|apply Z.pow_nonneg; lia]|].
  change 4294967296 with (2 ^ 32) in *. destruct (decide (Z.lor s (2 ^ b) = 0)) as [->|Hne]; [done|].
  assert (0 <= Z.lor s (2 ^ b)) by (apply Z.lor_nonneg; split; [lia|apply Z.pow_nonneg; lia]).
  apply Z.log2_lt_pow2; [lia|]. rewrite Z.log2_lor, Z.log2_pow2 by (lia || apply Z.pow_nonneg; lia).
  apply Z.max_lub_lt; [|lia]. destruct (decide (s = 0)) as [->|]; [done|]. apply Z.log2_lt_pow2; lia.
Qed.

Section Struct.
Variables (status pre acc : Z) (suf : bytes).
Hypotheses (Hst : is_u32 status) (Hpre : is_i32 pre) (Hacc : is_i32 acc).

Lemma struct_fields (p : bytes) i :
  i = len p ->
  (st ← le32_at (p ++ le32 status ++ le32 (u32 pre) ++ le32 (u32 acc) ++ suf) i;
   x ← le32_at (p ++ le32 status ++ le32 (u32 pre) ++ le32 (u32 acc) ++ suf) (i + 4);
   y ← le32_at (p ++ le32 status ++ le32 (u32 pre) ++ le32 (u32 acc) ++ suf) (i + 8);
   Ok (st, i32 x, i32 y)) = Ok (status, pre, acc).
Proof.
  intros Hi. rewrite (le32_at_mid p _ status i) by assumption. go_bind.
  rewrite (app_assoc p), le32_at_mid by (lens; lia || auto with go).
  rewrite (app_assoc (p ++ _)), le32_at_mid by (lens; lia || auto with go).
  by rewrite !i32_u32.
Qed.
Lemma struct_long what : struct_words what (struct_bytes status pre acc ++ suf) = Ok (status, pre, acc).
Proof.
  unfold struct_words, struct_bytes. rewrite <-!app_assoc.
  rewrite (proj2 (Z.leb_le _ _)) by (lens; pose proof (len_nonneg suf); lia).
  by apply (struct_fields (le16 0) 2).
Qed.
Lemma struct_short what :
  len suf < 2 -> struct_words what (drop 2 (struct_bytes status pre acc ++ suf)) = Ok (status, pre, acc).
Proof.
  intros Hs. unfold struct_words, struct_bytes. rewrite <-!app_assoc, drop_app_length' by done.
  rewrite (proj2 (Z.leb_gt _ _)) by (lens; lia).
  rewrite (proj2 (Z.leb_le _ _)) by (lens; pose proof (len_nonneg suf); lia).
  by apply (struct_fields [] 0).
Qed.
End Struct.

Module LogixCodecs.
Import Logix.

(** Ranges and bits of a status word built bit by bit. *)
Ltac status_range := repeat (apply or_bit_u32; [done|]); done.
Ltac read_status :=
  rewrite ?status_or_bit by done;
  change (status_bit 0 ?b) with false; cbn [Z.eqb Pos.eqb andb orb]; rewrite ?orb_false_r.

(** A timer, counter or control structure decodes from its 14-byte encoding
    (whatever follows it), and a timer or counter from the 12-byte layout without
    the reserved word. *)
Theorem logix_roundtrip (t : Timer) (c : Counter) (k : Control) (suf : bytes) :
  is_i32 (PRE t) -> is_i32 (ACC t) -> is_i32 (c_PRE c) -> is_i32 (c_ACC c) ->
  is_i32 (LEN k) -> is_i32 (POS k) ->
  DecodeTimer (Timer_MarshalCIP t ++ suf) = Ok t /\
  DecodeTimer (drop 2 (Timer_MarshalCIP t)) = Ok t /\
  DecodeCounter (Counter_MarshalCIP c ++ suf) = Ok c /\
  DecodeCounter (drop 2 (Counter_MarshalCIP c)) = Ok c /\
  Control_UnmarshalCIP (Control_MarshalCIP k ++ suf) = Ok k.
Proof.
  intros Ht1 Ht2 Hc1 Hc2 Hk1 Hk2. split; [|split; [|split; [|split]]].
  - unfold DecodeTimer, Timer_MarshalCIP. rewrite struct_long by (done || status_range).
    go_bind. read_status. by destruct t.
  - unfold DecodeTimer, Timer_MarshalCIP. rewrite <-(app_nil_r (struct_bytes _ _ _)).
    rewrite struct_short by (done || status_range). go_bind. read_status. by destruct t.
  - unfold DecodeCounter, Counter_MarshalCIP. rewrite struct_long by (done || status_range).
    go_bind. read_status. by destruct c.
  - unfold DecodeCounter, Counter_MarshalCIP. rewrite <-(app_nil_r (struct_bytes _ _ _)).
    rewrite struct_short by (done || status_range). go_bind. read_status. by destruct c.
  - unfold Control_UnmarshalCIP, Control_MarshalCIP.
    rewrite (proj2 (Z.ltb_ge _ _)) by (unfold struct_bytes; lens; pose proof (len_nonneg suf); lia).
    unfold struct_bytes. rewrite <-!app_assoc, (le32_at_mid (le16 0) _ _ 2) by (done || status_range). go_bind.
    rewrite (app_assoc (le16 0)), le32_at_mid by (lens; lia || auto with go).
    rewrite (app_assoc (le16 0 ++ _)), le32_at_mid by (lens; lia || auto with go).
    rewrite !i32_u32 by done. read_status. by destruct k.
Qed.
Lemma logix_roundtrip_witness :
  DecodeTimer (Timer_MarshalCIP (mkTimer 5000 (-1) true false true)) = Ok (mkTimer 5000 (-1) true false true).
Proof.
  destruct (logix_roundtrip (mkTimer 5000 (-1) true false true)
    (mkCounter 10 3 true false false false true)
    (mkControl 4 2 true false false false false false false false) []) as (H & _).
  1-6: unfold is_i32; cbn; lia.
  rewrite app_nil_r in H. exact H.
Defined.
End LogixCodecs.
