(* ===== verification/Hexdump.v ===== *)
(** * Hex dumps

    Models [hexdump/hexdump.go]: the text of a dump, and the reader and writer that
    dump what passes through them.  The text determines the data: every line has
    the same width and the bytes are read back from its columns. *)
From S2P Require Import Prelude Bytes Pccc CipTags.

Inductive Direction : Type := DirRead | DirWrite.

(** [%0wx]: at least [w] hexadecimal digits. *)
Definition hexdigit (d : Z) : Z := if d <? 10 then 48 + d else 87 + d.
Fixpoint hex_go (fuel w : nat) (n : Z) (acc : bytes) : bytes :=
  match fuel with
  | O => acc
  | S fuel =>
      if (n =? 0) && (w =? 0)%nat then acc
      else hex_go fuel (pred w) (n / 16) (hexdigit (n mod 16) :: acc)
  end.
Definition hex_pad (w : nat) (n : Z) : bytes := hex_go 16 w n [].

(** The columns from the [j]-th on, [n] of them. *)
Fixpoint hex_columns (n j : nat) (data : bytes) : bytes :=
  match n with
  | O => []
  | S n =>
      (if (j =? 8)%nat then [32] else []) ++
      match data with [] => [32; 32; 32] | b :: _ => hex_pad 2 b ++ [32] end ++
      hex_columns n (S j) (tail data)
  end.
Fixpoint ascii_columns (n : nat) (data : bytes) : bytes :=
  match n with
  | O => []
  | S n =>
      match data with [] => 32 | c :: _ => if (0x20 <=? c) && (c <=? 0x7e) then c else 46 end ::
      ascii_columns n (tail data)
  end.
Definition dump_line (i : Z) (data : bytes) : bytes :=
  hex_pad 8 i ++ [32; 32] ++ hex_columns 16 0 data ++ [124] ++ ascii_columns 16 data ++ [124; 10].
(** The loop over the lines; [data] is what follows offset [i]. *)
Fixpoint dump_lines (fuel : nat) (i : Z) (data : bytes) : bytes :=
  match fuel, data with
  | S fuel, _ :: _ => dump_line i data ++ dump_lines fuel (i + 16) (drop 16 data)
  | _, _ => []
  end.
Definition header (dir : Direction) (n : Z) : bytes :=
  match dir with DirRead => str "<<< READ " | DirWrite => str ">>> WRITE " end ++ itoa n ++ str " bytes" ++ [10].
Definition formatDump (data : bytes) (dir : Direction) : bytes :=
  header dir (len data) ++ dump_lines (length data) 0 data.

(** ** Wrapped readers and writers

    The inner reader or writer reports how much of the buffer it used, and perhaps
    an error; the dump goes to [out]. *)
Definition Dump (data : bytes) (dir : Direction) (out : bytes) : bytes := out ++ formatDump data dir.
Definition dump_io (dir : Direction) (p : bytes) (n : nat) (out : bytes) : bytes :=
  if (0 <? n)%nat then Dump (take n p) dir out else out.

(** ** Reading a dump back *)
Definition unhex (c : Z) : Z := if c <? 58 then c - 48 else c - 87.
Fixpoint read_columns (n j : nat) (s : bytes) : bytes :=
  match n with
  | O => []
  | S n =>
      match (if (j =? 8)%nat then drop 1 s else s) with
      | a :: b :: _ :: s => if a =? 32 then [] else (unhex a * 16 + unhex b) :: read_columns n (S j) s
      | _ => []
      end
  end.
Fixpoint read_lines (fuel : nat) (s : bytes) : bytes :=
  match fuel, s with
  | S fuel, _ :: _ => read_columns 16 0 (drop 10 s) ++ read_lines fuel (drop 78 s)
  | _, _ => []
  end.
Fixpoint skip_line (s : bytes) : bytes :=
  match s with [] => [] | c :: s => if c =? 10 then s else skip_line s end.
Definition undump (s : bytes) : bytes := read_lines (length s) (skip_line s).

(** ** Lemmas *)
Lemma hex_pad_byte b : is_u8 b -> hex_pad 2 b = [hexdigit (b / 16); hexdigit (b mod 16)].
Proof.
  intros Hb. unfold hex_pad. cbn [hex_go Nat.eqb pred]. rewrite andb_false_r. cbn [hex_go Nat.eqb pred].
  rewrite andb_false_r. assert (0 <= b / 16 < 16) as H by (widths; dlia).
  rewrite (Z.div_small (b / 16) 16), (Z.mod_small (b / 16) 16) by done. done.
Qed.
Lemma unhex_hexdigit d : 0 <= d < 16 -> hexdigit d <> 32 /\ unhex (hexdigit d) = d.
Proof.
  intros Hd. unfold hexdigit, unhex. destruct (Z.ltb_spec d 10).
  - rewrite (proj2 (Z.ltb_lt _ 58)) by lia. lia.
  - rewrite (proj2 (Z.ltb_ge _ 58)) by lia. lia.
Qed.
Lemma hex_go_length fuel : forall w n acc, (w <= fuel)%nat -> 0 <= n < 16 ^ Z.of_nat w ->
  length (hex_go fuel w n acc) = (w + length acc)%nat.
Proof.
  induction fuel as [|fuel IH]; intros w n acc Hw Hn; cbn [hex_go]; [lia|]. destruct w as [|w].
  - change (16 ^ Z.of_nat 0) with 1 in Hn. by replace n with 0 by lia.
  - cbn [Nat.eqb pred]. rewrite andb_false_r. rewrite IH; [cbn; lia|lia|].
    rewrite Nat2Z.inj_succ, Z.pow_succ_r in Hn by lia. split; [apply Z.div_pos; lia|].
    apply Z.div_lt_upper_bound; lia.
Qed.
Lemma hex_columns_length n : forall j data, bytes_ok data ->
  length (hex_columns n j data) = (3 * n + (if decide (j <= 8 < j + n) then 1 else 0))%nat.
Proof.
  induction n as [|n IH]; intros j data Hd; cbn [hex_columns].
  { rewrite decide_False by lia. done. }
  rewrite !length_app, IH by (destruct data; [done|by apply Forall_cons in Hd as [_ ?]]).
  replace (length (match data with [] => [32; 32; 32] | b :: _ => hex_pad 2 b ++ [32] end)) with 3%nat.
  2: { destruct data as [|b data]; [done|]. apply Forall_cons in Hd as [Hb _]. by rewrite hex_pad_byte. }
  destruct (Nat.eqb_spec j 8) as [->|Hj].
  - rewrite decide_False by lia. rewrite decide_True by lia. cbn [length]. lia.
  - destruct (decide (S j <= 8 < S j + n)%nat).
    + rewrite decide_True by lia. cbn [length]. lia.
    + rewrite decide_False by lia. cbn [length]. lia.
Qed.
Lemma ascii_columns_length n : forall data, length (ascii_columns n data) = n.
Proof. induction n as [|n IH]; intros data; cbn; [done|]. by rewrite IH. Qed.
(** All lines have one width. *)
Lemma dump_line_length i data :
  0 <= i < 4294967296 -> bytes_ok data -> length (dump_line i data) = 78%nat.
Proof.
  intros Hi Hd. unfold dump_line. rewrite !length_app, hex_columns_length, ascii_columns_length by done.
  unfold hex_pad. rewrite hex_go_length by lia. rewrite decide_True by lia. done.
Qed.

Lemma read_hex_columns n : forall j data rest, bytes_ok data ->
  read_columns n j (hex_columns n j data ++ rest) = take n data.
Proof.
  induction n as [|n IH]; intros j data rest Hd; [done|]. cbn [hex_columns read_columns].
  assert (forall t, (if (j =? 8)%nat then drop 1 (((if (j =? 8)%nat then [32] else []) ++ t) ++ rest)
    else ((if (j =? 8)%nat then [32] else []) ++ t) ++ rest) = t ++ rest) as ->.
  { intros t. by destruct (j =? 8)%nat. }
  destruct data as [|b data]; [done|]. apply Forall_cons in Hd as [Hb Hd]. rewrite hex_pad_byte by done.
  cbn [app tail take]. assert (0 <= b / 16 < 16 /\ 0 <= b mod 16 < 16) as [H1 H2] by (widths; dlia).
  destruct (unhex_hexdigit _ H1) as [E1 E2], (unhex_hexdigit _ H2) as [_ E3].
  rewrite (proj2 (Z.eqb_neq _ _) E1), E2, E3, IH by done. f_equal. widths. dlia.
Qed.
Lemma read_dump_lines fuel : forall fuel' i data,
  bytes_ok data -> 0 <= i -> (0 < len data -> i + len data <= 4294967296) -> (length data <= fuel)%nat ->
  (length data <= fuel')%nat -> read_lines fuel' (dump_lines fuel i data) = data.
Proof.
  induction fuel as [|fuel IH]; intros fuel' i data Hd Hi Hlen Hf Hf'.
  { destruct data; [|cbn in Hf; lia]. by destruct fuel'. }
  destruct data as [|b data']; [by destruct fuel'|]. destruct fuel' as [|fuel']; [cbn in Hf'; lia|].
  cbn [dump_lines]. set (data := b :: data') in *. assert (0 < len data) as Hpos by (unfold data; lens; pose proof (len_nonneg data'); lia).
  specialize (Hlen Hpos).
  assert (length (dump_line i data) = 78%nat) as Hl by (apply dump_line_length; [lia|done]).
  set (rest := dump_lines fuel (i + 16) (drop 16 data)).
  assert (exists c s, dump_line i data ++ rest = c :: s) as (c & s & E).
  { destruct (dump_line i data) as [|c s]; [done|]. by exists c, (s ++ rest). }
  cbn [read_lines]. rewrite E. cbv iota. rewrite <-E. replace (drop 78 (dump_line i data ++ rest)) with rest
    by (by rewrite <-Hl, drop_app_length).
  assert (length (hex_pad 8 i) = 8%nat) as H8 by (unfold hex_pad; rewrite hex_go_length by lia; done).
  assert (drop 10 (dump_line i data ++ rest) = hex_columns 16 0 data ++ ([124] ++ ascii_columns 16 data ++ [124; 10]) ++ rest) as ->.
  { unfold dump_line. rewrite !app_assoc, <-2!(app_assoc (hex_pad 8 i ++ [32; 32])), <-!(app_assoc (hex_pad 8 i ++ [32; 32])).
    apply (drop_app_length' (hex_pad 8 i ++ [32; 32])). rewrite length_app, H8. done. }
  rewrite read_hex_columns by done. unfold rest. rewrite IH.
  - apply take_drop.
  - by apply Forall_drop.
  - lia.
  - unfold len in *. rewrite length_drop. lia.
  - rewrite length_drop. cbn in Hf. cbn. lia.
  - rewrite length_drop. cbn in Hf'. cbn. lia.
Qed.

Lemma skip_line_app s t : Forall (fun c => c <> 10) s -> skip_line (s ++ 10 :: t) = t.
Proof.
  induction 1 as [|c s Hc _ IH]; [done|]. cbn. by rewrite (proj2 (Z.eqb_neq _ _) Hc).
Qed.
Lemma itoa_no_newline n : is_u32 n -> Forall (fun c => c <> 10) (itoa n).
Proof.
  intros Hn. destruct (itoa_u32 n Hn) as [H%digits_plain _]. eapply Forall_impl; [exact H|].
  intros c Hc ->. done.
Qed.

Lemma dump_lines_long fuel : forall i data,
  bytes_ok data -> 0 <= i -> (length data <= fuel)%nat -> (length data <= length (dump_lines fuel i data))%nat.
Proof.
  induction fuel as [|fuel IH]; intros i data Hd Hi Hf; [done|]. destruct data as [|b data']; [cbn; lia|].
  set (data := b :: data') in *. change (dump_lines (S fuel) i data) with
    (dump_line i data ++ dump_lines fuel (i + 16) (drop 16 data)).
  rewrite length_app. unfold dump_line. rewrite !length_app, hex_columns_length by done.
  assert (length (drop 16 data) <= length (dump_lines fuel (i + 16) (drop 16 data)))%nat as H.
  { apply IH; [by apply Forall_drop|lia|]. rewrite length_drop. unfold data in *. cbn in *. lia. }
  rewrite length_drop in H. lia.
Qed.

(** A dump determines the data it shows: every line has 78 characters, and reading
    the columns back gives the data. *)
Theorem hexdump_roundtrip data dir :
  bytes_ok data -> len data < 4294967296 -> undump (formatDump data dir) = data.
Proof.
  intros Hd Hl. pose proof (len_nonneg data). unfold undump, formatDump, header.
  set (front := match dir with DirRead => _ | DirWrite => _ end).
  assert (Forall (fun c => c <> 10) (front ++ itoa (len data) ++ str " bytes")) as Hfront.
  { apply Forall_app. split; [|apply Forall_app; split; [apply itoa_no_newline; widths; lia|]].
    - unfold front. destruct dir; vm_compute; repeat constructor; discriminate.
    - vm_compute. repeat constructor; discriminate. }
  set (lines := dump_lines (length data) 0 data).
  replace ((front ++ itoa (len data) ++ str " bytes" ++ [10]) ++ lines)
    with ((front ++ itoa (len data) ++ str " bytes") ++ 10 :: lines) by (by rewrite <-!app_assoc).
  rewrite skip_line_app by done. apply read_dump_lines; try done; try lia.
  rewrite length_app. cbn [length]. pose proof (dump_lines_long (length data) 0 data Hd ltac:(lia) ltac:(lia)). unfold lines. lia.
Qed.
(** A wrapped reader or writer adds to the output a block from which exactly what
    was transferred can be read, and nothing when nothing was. *)
Theorem wrapper_traces dir p n out :
  bytes_ok p -> len p < 4294967296 -> exists block,
    dump_io dir p n out = out ++ block /\ (n = O -> block = []) /\ ((0 < n)%nat -> undump block = take n p).
Proof.
  intros Hp Hl. unfold dump_io. destruct (Nat.ltb_spec 0 n) as [Hn|Hn].
  - exists (formatDump (take n p) dir). split_and!; [done|lia|]. intros _. apply hexdump_roundtrip.
    + by apply Forall_take.
    + unfold len in *. rewrite length_take. lia.
  - exists []. rewrite app_nil_r. split_and!; [done|done|lia].
Qed.
Example dump_two : formatDump [0x48; 0xff] DirWrite =
  str ">>> WRITE 2 bytes" ++ [10] ++ str "00000000  48 ff                                            |H.              |" ++ [10].
Proof. vm_compute. reflexivity. Qed.
