(* ===== verification/EipClient.v ===== *)
(** * The EtherNet/IP client

    Models [protocol/ethernetip/client.go] and [pccc.go]: the retry loop [do], tag
    reads and writes, the enumeration of tags and the Execute_PCCC service, over
    the [Transport] interface and the requests a session offers ([SessionLink]).
    The retry loop of a client with unlimited retries need not end, so a call
    takes fuel and its result is optional; sleeping between attempts has no effect
    on results.  Typed reads follow in [CipTypes]. *)
From S2P Require Import Prelude Bytes Transport Plc EipCodec Cip Pccc PcccClient CipTags.

(** ** Calls that may not return *)
Definition Run (T A : Type) : Type := T -> option (outcome A * T).
#[export] Instance Run_ret {T} : MRet (Run T) := fun _ a t => Some (Ok a, t).
#[export] Instance Run_bind {T} : MBind (Run T) := fun _ _ f m t =>
  match m t with
  | Some (Ok a, t) => f a t
  | Some (Err e, t) => Some (Err e, t)
  | Some (Panic, t) => Some (Panic, t)
  | None => None
  end.
(** A call that does not touch the state. *)
Definition local {T A} (m : outcome A) : Run T A := fun t => Some (m, t).

(** What the client uses of a [*Session] of type [C]. *)
Class SessionLink (C T : Type) : Type := {
  sess_SendCIPRequest : C -> MessageRouterRequest -> SM T MessageRouterResponse;
  sess_ListIdentity : C -> SM T (list ListIdentityItem);
  sess_ListServices : C -> SM T (list ListServicesItem)
}.

Record Client : Type := mkClientCfg {
  retries : Z; cipVendorID : Z; cipSerialNumber : Z
}.
Definition DefaultCIPVendorID : Z := 0x1234.
Definition DefaultCIPSerialNumber : Z := 0x12345678.
Definition NewClient (retries : Z) : Client :=
  mkClientCfg retries DefaultCIPVendorID DefaultCIPSerialNumber.

(** ** Data points (datapoint.go) and types *)
Inductive DataPoint : Type := Tag (Name : bytes) (Elements : Z) | OtherPoint.
#[export] Instance DataPoint_EqDecision : EqDecision DataPoint.
Proof. solve_decision. Defined.

Module CipType.
Definition BOOL : Z := 0x00C1.
Definition SINT : Z := 0x00C2.
Definition INT : Z := 0x00C3.
Definition DINT : Z := 0x00C4.
Definition LINT : Z := 0x00C5.
Definition USINT : Z := 0x00C6.
Definition UINT : Z := 0x00C7.
Definition UDINT : Z := 0x00C8.
Definition ULINT : Z := 0x00C9.
Definition REAL : Z := 0x00CA.
Definition LREAL : Z := 0x00CB.
Definition STRING : Z := 0x00D0.
Definition STRING2 : Z := 0x00D5.
Definition SHORT_STRING : Z := 0x00DA.
Definition STRUCT : Z := 0x02A0.
End CipType.

Definition cipTypeToPlcType (dt : Z) : DataType :=
  if dt =? CipType.BOOL then TypeBool
  else if dt =? CipType.SINT then TypeInt16
  else if dt =? CipType.INT then TypeInt16
  else if dt =? CipType.DINT then TypeInt32
  else if dt =? CipType.LINT then TypeInt64
  else if dt =? CipType.USINT then TypeUint16
  else if dt =? CipType.UINT then TypeUint16
  else if dt =? CipType.UDINT then TypeUint32
  else if dt =? CipType.ULINT then TypeUint64
  else if dt =? CipType.REAL then TypeFloat32
  else if dt =? CipType.LREAL then TypeFloat64
  else if (dt =? CipType.STRING) || (dt =? CipType.STRING2) || (dt =? CipType.SHORT_STRING)
  then TypeString
  else TypeBytes.

(** A Go value given to [WriteTag]; floats by their bits. *)
Inductive GoValue : Type :=
| GBool (b : bool)
| GInt8 (z : Z) | GInt16 (z : Z) | GInt32 (z : Z) | GInt64 (z : Z)
| GUint8 (z : Z) | GUint16 (z : Z) | GUint32 (z : Z) | GUint64 (z : Z)
| GFloat32 (bits : Z) | GFloat64 (bits : Z)
| GString (s : bytes)
| GCodec (dt : Z) (marshalled : outcome bytes)   (** a [cip.TypeCodec] *)
| GOther.

Definition GoTypeToCIPType (v : GoValue) : outcome Z :=
  match v with
  | GCodec dt _ => Ok dt
  | GBool _ => Ok CipType.BOOL
  | GInt8 _ => Ok CipType.SINT
  | GInt16 _ => Ok CipType.INT
  | GInt32 _ => Ok CipType.DINT
  | GInt64 _ => Ok CipType.LINT
  | GUint8 _ => Ok CipType.USINT
  | GUint16 _ => Ok CipType.UINT
  | GUint32 _ => Ok CipType.UDINT
  | GUint64 _ => Ok CipType.ULINT
  | GFloat32 _ => Ok CipType.REAL
  | GFloat64 _ => Ok CipType.LREAL
  | GString _ => Ok CipType.STRING
  | GOther => Err (Errorf "cip: unsupported Go type for automatic mapping: %T")
  end.

Definition le64 (v : Z) : bytes := le32 v ++ le32 (Z.shiftr v 32).
(** [cip.Marshal]; [binary.Write] refuses values that are not fixed-size. *)
Definition Marshal (v : GoValue) : outcome bytes :=
  match v with
  | GCodec _ m => m
  | GBool b => Ok [if b then 1 else 0]
  | GInt8 z | GUint8 z => Ok [u8 z]
  | GInt16 z | GUint16 z => Ok (le16 z)
  | GInt32 z | GUint32 z | GFloat32 z => Ok (le32 z)
  | GInt64 z | GUint64 z | GFloat64 z => Ok (le64 z)
  | GString _ | GOther =>
      Err (Wrapf "cip: binary.Write failed: %w" (Errorf "binary.Write: some values are not fixed-sized in type %s"))
  end.

(** The type code at the front of a tag's data, and the length of the header. *)
Definition type_code (raw : bytes) : outcome Z := b ← go_slice raw 0 2; get_le16 b.
Definition header_len (dt : Z) : Z := if CipType.STRUCT <=? dt then 4 else 2.

(** The value [Read] makes of the data of a tag. *)
Definition tag_value (dp : DataPoint) (raw : bytes) : outcome (Value DataPoint) :=
  if 2 <=? len raw then
    cipType ← type_code raw;
    rest ← (if header_len cipType <=? len raw then go_slice raw (header_len cipType) (len raw)
            else Ok raw);
    Ok (mkValue (Some dp) rest (cipTypeToPlcType cipType) ByteOrderLittleEndian)
  else Ok (mkValue (Some dp) raw TypeUnknown ByteOrderLittleEndian).

Section ClientOps.
Context {C T : Type} `{Transport C T} `{SessionLink C T}.
Variable c : Client.
Variable fuel : nat.

(** ** The retry loop

    [op] returns [inl err] for a [cipError], which is not retried, and [inr] for
    success. *)
Section Do.
Context {A : Type}.
Variable op : C -> SM T (error + A).

Fixpoint do_loop (fuel : nat) (i : Z) (t : T) : option (outcome A * T) :=
  if (retries c <? 0) || (i <=? retries c) then
    match fuel with
    | O => None
    | S fuel =>
        match Conn t with
        | (Panic, t) => Some (Panic, t)
        | (Err err, t) => if retries c =? 0 then Some (Err err, t) else do_loop fuel (i + 1) t
        | (Ok sess, t) =>
            match op sess t with
            | (Ok (inr a), t) => Some (Ok a, t)
            | (Ok (inl err), t) => Some (Err err, t)
            | (Panic, t) => Some (Panic, t)
            | (Err _, t) =>
                do_loop fuel ((if i =? 2147483647 then 0 else i) + 1) (Reset sess t)
            end
        end
    end
  else Some (Err (Errorf "operation failed after %d retries"), t).
Definition do : Run T A := do_loop fuel 0.
End Do.

(** ** The transport's view *)
Definition Client_Connect : SM T unit := fun t =>
  match Conn t with (Ok _, t) => (Ok tt, t) | (Err e, t) => (Err e, t) | (Panic, t) => (Panic, t) end.
Definition Client_Disconnect : T -> option error * T := Close.
Definition Client_IsConnected : T -> bool := Peek.

(** ** Tags *)

(** The operation most calls run: a request whose response may be a CIP error. *)
Definition request {A} (req : MessageRouterRequest) (k : MessageRouterResponse -> outcome A)
  (sess : C) : SM T (error + A) :=
  resp ← sess_SendCIPRequest sess req;
  match MRResp_Error resp with
  | Some err => mret (inl err)
  | None => a ← pure (k resp); mret (inr a)
  end.

Definition ReadTagElements (tagName : bytes) (count : Z) : Run T bytes :=
  if count =? 0 then local (Err (Errorf "element count must be at least 1")) else
  p ← local (ParseTagPath tagName);
  do (request (NewReadTagRequest p count) (fun resp => Ok (ResponseData resp))).
Definition ReadTag (tagName : bytes) : Run T bytes := ReadTagElements tagName 1.

Fixpoint Client_Read (points : list DataPoint) : Run T (list (Value DataPoint)) :=
  match points with
  | [] => mret []
  | OtherPoint :: _ => local (Err (Errorf "ethernetip: expected Tag DataPoint, got %T"))
  | Tag name elements :: points =>
      raw ← ReadTagElements name (if elements =? 0 then 1 else elements);
      val ← local (tag_value (Tag name elements) raw);
      rest ← Client_Read points;
      mret (val :: rest)
  end.

Definition Client_Write (point : DataPoint) (data : bytes) : Run T unit :=
  match point with
  | OtherPoint => local (Err (Errorf "ethernetip: expected Tag DataPoint, got %T"))
  | Tag name elements =>
      if len data <? 2
      then local (Err (Errorf "ethernetip: write data must include 2-byte type code prefix")) else
      dataType ← local (type_code data);
      p ← local (ParseTagPath name);
      rest ← local (go_slice data 2 (len data));
      do (request (NewWriteTagRequest p dataType (if elements =? 0 then 1 else elements) rest)
            (fun _ => Ok tt))
  end.

Definition WriteTag (tagName : bytes) (value : GoValue) : Run T unit :=
  p ← local (ParseTagPath tagName);
  dataType ← local (GoTypeToCIPType value);
  data ← local (Marshal value);
  do (request (NewWriteTagRequest p dataType 1 data) (fun _ => Ok tt)).

Definition readStructPayload (tagName : bytes) : Run T bytes :=
  data ← ReadTag tagName;
  if len data <? 2 then local (Err (Errorf "response too short to contain type code")) else
  typeCode ← local (type_code data);
  if len data <? header_len typeCode
  then local (Err (Errorf "response too short for type header"))
  else local (go_slice data (header_len typeCode) (len data)).
Definition ReadTimer (tagName : bytes) : Run T Logix.Timer :=
  payload ← readStructPayload tagName; local (Logix.DecodeTimer payload).
Definition ReadCounter (tagName : bytes) : Run T Logix.Counter :=
  payload ← readStructPayload tagName; local (Logix.DecodeCounter payload).

(** ** Discovery and enumeration *)
Definition as_op {A} (f : C -> SM T A) (sess : C) : SM T (error + A) :=
  a ← f sess; mret (inr a).
Definition Client_ListIdentity : Run T (list ListIdentityItem) := do (as_op sess_ListIdentity).
Definition Client_ListServices : Run T (list ListServicesItem) := do (as_op sess_ListServices).

(** The symbol a response describes, if it is a success with a name. *)
Definition symbol_of (id : Z) (resp : MessageRouterResponse) : outcome (list SymbolInstance) :=
  if negb (IsSuccess resp) then Ok [] else
  match DecodeSymbolAttributesResponse (ResponseData resp) with
  | Panic => Panic
  | Err _ => Ok []
  | Ok (name, typeCode) =>
      if bool_decide (name = []) then Ok [] else Ok [mkSymbol id name typeCode]
  end.

(** The loop of [ListTags]: a failed request is logged and skipped. *)
Fixpoint fetch_symbols (sess : C) (ids : list Z) (allSymbols : list SymbolInstance)
  : SM T (list SymbolInstance) :=
  match ids with
  | [] => mret allSymbols
  | id :: ids => fun t =>
      match sess_SendCIPRequest sess (NewGetSymbolAttributesRequest id) t with
      | (Panic, t) => (Panic, t)
      | (Err _, t) => fetch_symbols sess ids allSymbols t
      | (Ok resp, t) =>
          match symbol_of id resp with
          | Ok sym => fetch_symbols sess ids (allSymbols ++ sym) t
          | Err e => (Err e, t)
          | Panic => (Panic, t)
          end
      end
  end.

Definition list_tags_op (sess : C) : SM T (error + list SymbolInstance) :=
  respClass ← sess_SendCIPRequest sess NewGetSymbolClassAttributesRequest;
  match MRResp_Error respClass with
  | Some err => mret (inl err)
  | None =>
      '(_, maxInstance) ←
        pure (match DecodeSymbolClassAttributesResponse (ResponseData respClass) with
              | Err err => Err (Wrapf "failed to decode symbol class attributes: %w" err)
              | r => r
              end);
      symbols ← fetch_symbols sess (map (Z.add 1) (iota maxInstance)) [];
      mret (inr symbols)
  end.
Definition ListTags : Run T (list SymbolInstance) := do list_tags_op.

(** ** Execute_PCCC (pccc.go) *)
Definition ExecutePCCC (pcccCmd : bytes) : Run T bytes :=
  if len pcccCmd =? 0
  then local (Err (Errorf "ethernetip: ExecutePCCC: empty PCCC command")) else
  do (request (NewExecutePCCCRequest (cipVendorID c) (cipSerialNumber c) pcccCmd)
        (fun resp =>
           if len (ResponseData resp) <? 7
           then Err (Errorf "ethernetip: Execute_PCCC reply too short (%d bytes, need >=7 for requestor ID)")
           else go_slice (ResponseData resp) 7 (len (ResponseData resp)))).
End ClientOps.

(** ** Lemmas: the retry loop

    An attempt either settles the call or fails in the transport. *)
Section Retry.
Context {C T : Type} `{Transport C T} `{SessionLink C T}.
Variable c : Client.
Context {A : Type}.
Variable op : C -> SM T (error + A).

Inductive settles (t : T) : outcome A -> T -> Prop :=
| settle_ok sess t1 a t2 : Conn t = (Ok sess, t1) -> op sess t1 = (Ok (inr a), t2) -> settles t (Ok a) t2
| settle_cip sess t1 e t2 : Conn t = (Ok sess, t1) -> op sess t1 = (Ok (inl e), t2) -> settles t (Err e) t2
| settle_crash sess t1 t2 : Conn t = (Ok sess, t1) -> op sess t1 = (Panic, t2) -> settles t Panic t2
| settle_conn_crash t1 : Conn t = (Panic, t1) -> settles t Panic t1
| settle_conn e t1 : retries c = 0 -> Conn t = (Err e, t1) -> settles t (Err e) t1.

Inductive fails (t : T) : T -> Prop :=
| fail_conn e t1 : retries c <> 0 -> Conn t = (Err e, t1) -> fails t t1
| fail_op sess t1 e t2 : Conn t = (Ok sess, t1) -> op sess t1 = (Err e, t2) -> fails t (Reset sess t2).

(** [failing n t t']: [n] attempts in a row fail, from [t] to [t']. *)
Inductive failing : nat -> T -> T -> Prop :=
| failing_none t : failing 0 t t
| failing_more n t t1 t2 : fails t t1 -> failing n t1 t2 -> failing (S n) t t2.

Lemma attempt_cases t : (exists r t', settles t r t') \/ exists t', fails t t'.
Proof.
  destruct (Conn t) as [[sess|e|] t1] eqn:Ec.
  - destruct (op sess t1) as [[[e|a]|e|] t2] eqn:Eo; eauto using settles, fails.
  - destruct (decide (retries c = 0)); eauto using settles, fails.
  - eauto using settles.
Qed.

(** The loop's counter stays clear of the reset at the largest 32-bit integer
    while fewer attempts than that have failed. *)
Lemma do_loop_settles fuel i t r t' :
  (retries c < 0 \/ i <= retries c) -> settles t r t' -> do_loop c op (S fuel) i t = Some (r, t').
Proof.
  intros Hi Hs. cbn [do_loop].
  replace ((retries c <? 0) || (i <=? retries c)) with true by (symmetry; lia).
  destruct Hs as [sess t1 a t2 E1 E2|sess t1 e t2 E1 E2|sess t1 t2 E1 E2|t1 E1|e t1 Hr E1];
    rewrite E1; try rewrite E2; try done. by rewrite Hr.
Qed.
Lemma do_loop_fails fuel i t t' :
  (retries c < 0 \/ i <= retries c < 2147483647) -> fails t t' -> exists j,
    do_loop c op (S fuel) i t = do_loop c op fuel j t' /\ (0 <= retries c -> j = i + 1).
Proof.
  intros Hi Hf. cbn [do_loop].
  replace ((retries c <? 0) || (i <=? retries c)) with true by (symmetry; lia).
  destruct Hf as [e t1 Hr E1|sess t1 e t2 E1 E2]; rewrite E1.
  - rewrite (proj2 (Z.eqb_neq _ _) Hr). by exists (i + 1).
  - rewrite E2. eexists. split; [done|]. intros Hr.
    by rewrite (proj2 (Z.eqb_neq i 2147483647)) by lia.
Qed.
Lemma do_loop_failing n t t' : failing n t t' -> forall fuel i,
  (retries c < 0 \/ i + Z.of_nat n <= retries c + 1 /\ retries c < 2147483647) -> exists j,
    do_loop c op (n + fuel) i t = do_loop c op fuel j t' /\ (0 <= retries c -> j = i + Z.of_nat n).
Proof.
  induction 1 as [t|n t t1 t2 Hf _ IH]; intros fuel i Hi; [exists i; split; [done|lia]|].
  destruct (do_loop_fails (n + fuel) i t t1) as (j & E & Hj); [lia|done|].
  destruct (IH fuel j) as (j' & E' & Hj'); [lia|]. exists j'. split; [|lia].
  cbn [Nat.add]. by rewrite E.
Qed.

Lemma failing_or_settles n : forall t,
  (exists t', failing n t t') \/ exists k t1 r t2, (k < n)%nat /\ failing k t t1 /\ settles t1 r t2.
Proof.
  induction n as [|n IH]; intros t; [left; eexists; constructor|].
  destruct (attempt_cases t) as [(r & t' & Hs)|[t' Hf]].
  - right. exists 0%nat, t, r, t'. split; [lia|]. split; [constructor|done].
  - destruct (IH t') as [[t2 H2]|(k & t1 & r & t2 & Hk & H1 & Hs)].
    + left. exists t2. by econstructor.
    + right. exists (S k), t1, r, t2. split; [lia|]. split; [by econstructor|done].
Qed.

(** The result of the first attempt that settles, whatever the retry limit
    allows before it. *)
Lemma do_first fuel k t t1 r t2 :
  failing k t t1 -> settles t1 r t2 ->
  (retries c < 0 \/ Z.of_nat k <= retries c < 2147483647) -> (k < fuel)%nat ->
  do c fuel op t = Some (r, t2).
Proof.
  intros Hf Hs Hk Hfuel. unfold do.
  destruct (do_loop_failing k t t1 Hf (S (fuel - k - 1)) 0) as (j & E & Hj); [lia|].
  replace fuel with (k + S (fuel - k - 1))%nat by lia. rewrite E.
  apply do_loop_settles; [lia|done].
Qed.
Lemma do_exhausted fuel t t1 :
  0 <= retries c < 2147483647 -> failing (Z.to_nat (retries c + 1)) t t1 ->
  (Z.to_nat (retries c + 1) <= fuel)%nat ->
  do c fuel op t = Some (Err (Errorf "operation failed after %d retries"), t1).
Proof.
  intros Hr Hf Hfuel. unfold do.
  destruct (do_loop_failing _ t t1 Hf (fuel - Z.to_nat (retries c + 1)) 0) as (j & E & Hj); [lia|].
  replace fuel with (Z.to_nat (retries c + 1) + (fuel - Z.to_nat (retries c + 1)))%nat at 1 by lia.
  rewrite E, (Hj ltac:(lia)).
  replace (0 + Z.of_nat (Z.to_nat (retries c + 1))) with (retries c + 1) by lia.
  destruct (fuel - Z.to_nat (retries c + 1))%nat; cbn [do_loop];
    by replace ((retries c <? 0) || (retries c + 1 <=? retries c)) with false by (symmetry; lia).
Qed.
End Retry.

Section RetryTheorem.
Context {C T : Type} `{Transport C T} `{SessionLink C T}.
Context {A : Type}.

(** C21: The retry loop of the EtherNet/IP client.  With a limit, it always
    returns: the outcome of the first attempt that is not a transport failure, if
    it is among the first 1+retries, and otherwise a failure after exactly that
    many attempts.  Without a limit it returns the outcome of the first attempt
    that is not a transport failure, however many fail before.  A failed request
    resets the session it used. *)
Theorem do_spec (c : Client) (op : C -> SM T (error + A)) t :
  (0 <= retries c < 2147483647 -> forall fuel, (Z.to_nat (retries c + 1) <= fuel)%nat ->
     (exists k t1 r t2, Z.of_nat k <= retries c /\ failing c op k t t1 /\ settles c op t1 r t2 /\
        do c fuel op t = Some (r, t2)) \/
     (exists t1, failing c op (Z.to_nat (retries c + 1)) t t1 /\
        do c fuel op t = Some (Err (Errorf "operation failed after %d retries"), t1))) /\
  (retries c < 0 -> forall k t1 r t2 fuel, failing c op k t t1 -> settles c op t1 r t2 ->
     (k < fuel)%nat -> do c fuel op t = Some (r, t2)).
Proof.
  split.
  - intros Hr fuel Hfuel. destruct (failing_or_settles c op (Z.to_nat (retries c + 1)) t)
      as [[t1 Hf]|(k & t1 & r & t2 & Hk & Hf & Hs)].
    + right. exists t1. split; [done|]. by apply do_exhausted.
    + left. exists k, t1, r, t2. split; [lia|]. split; [done|]. split; [done|].
      eapply do_first; eauto; lia.
  - intros Hr k t1 r t2 fuel Hf Hs Hk. eapply do_first; eauto.
Qed.
End RetryTheorem.

(** ** A CIP device behind the transport

    While a session is [live], the transport hands it out and its requests are
    answered by the device's message router, one after the other. *)
Class CipDevice (C T W : Type) `{Transport C T} `{SessionLink C T} : Type := {
  live : C -> T -> Prop;
  device : T -> W;
  answers : MessageRouterRequest -> SM W MessageRouterResponse;
  fits : MessageRouterRequest -> Prop;
  live_conn sess t : live sess t -> Conn t = (Ok sess, t);
  live_send sess t req :
    live sess t -> fits req ->
    exists t', sess_SendCIPRequest sess req t = (fst (answers req (device t)), t') /\
      device t' = snd (answers req (device t)) /\ live sess t'
}.

(** A successful response. *)
Definition success (service : Z) (data : bytes) : MessageRouterResponse :=
  mkMRResp (Z.lor service 0x80) 0 Status.Success 0 [] data.

Section OnDevice.
Context {C T W : Type} `{CipDevice C T W}.
Variable c : Client.
Variable fuel : nat.

(** A request that the device answers settles in the first attempt. *)
Lemma do_request {A} req (k : MessageRouterResponse -> outcome A) sess t service data w a :
  live sess t -> fits req -> answers req (device t) = (Ok (success service data), w) ->
  k (success service data) = Ok a -> 0 <= retries c < 2147483647 \/ retries c < 0 ->
  exists t', do c (S fuel) (request req k) t = Some (Ok a, t') /\ device t' = w /\ live sess t'.
Proof.
  intros Hl Hf Ha Hk Hr. destruct (live_send sess t req Hl Hf) as (t' & E & Hd & Hl').
  rewrite Ha in E, Hd. exists t'. split; [|done].
  eapply (do_first c _ _ 0); [constructor| |lia|lia].
  econstructor; [by apply live_conn|]. unfold request. rewrite (SM_bind_Ok _ _ _ _ _ E).
  cbn [MRResp_Error IsSuccess success GeneralStatus]. unfold MRResp_Error, IsSuccess. cbn.
  unfold mbind, SM_bind, pure. by rewrite Hk.
Qed.
(** A CIP error is returned as it is, without a retry. *)
Lemma do_request_error {A} req (k : MessageRouterResponse -> outcome A) sess t resp e w :
  live sess t -> fits req -> answers req (device t) = (Ok resp, w) -> MRResp_Error resp = Some e ->
  0 <= retries c < 2147483647 \/ retries c < 0 ->
  exists t', do c (S fuel) (request req k) t = Some (Err e, t') /\ device t' = w /\ live sess t'.
Proof.
  intros Hl Hf Ha He Hr. destruct (live_send sess t req Hl Hf) as (t' & E & Hd & Hl').
  rewrite Ha in E, Hd. exists t'. split; [|done].
  eapply (do_first c _ _ 0); [constructor| |lia|lia].
  eapply settle_cip; [by apply live_conn|]. unfold request. rewrite (SM_bind_Ok _ _ _ _ _ E).
  by rewrite He.
Qed.

Lemma Run_bind_Ok {A B} (m : Run T A) (f : A -> Run T B) t a t' :
  m t = Some (Ok a, t') -> (m ≫= f) t = f a t'.
Proof. intros E. unfold mbind, Run_bind. by rewrite E. Qed.
End OnDevice.

(** ** Tags

    A device with tags holds, at a path, a type code and elements; the Read Tag
    (0x4C) and Write Tag (0x4D) services read and write the leading ones.  Their
    data, byte by byte: the number of elements; the type, the number and the
    elements; and the reply to a read, the type and the elements. *)
Definition digits16 (n : Z) : bytes := [n mod 256; n / 256].
Class TagDevice {W : Type} (answers : MessageRouterRequest -> SM W MessageRouterResponse) : Type := {
  tag : W -> bytes -> option (Z * list bytes);
  tag_type w p dt els : tag w p = Some (dt, els) -> is_u16 dt;
  tag_read w p dt els n :
    tag w p = Some (dt, els) -> is_u16 n -> 1 <= n <= len els ->
    answers (mkMRReq 0x4C p (digits16 n)) w =
      (Ok (mkMRResp 0xCC 0 0 0 [] (digits16 dt ++ concat (take (Z.to_nat n) els))), w);
  tag_write w p dt els new :
    tag w p = Some (dt, els) -> is_u16 (len new) -> 1 <= len new <= len els ->
    Forall2 (fun a b => len a = len b) new (take (length new) els) ->
    exists w', answers (mkMRReq 0x4D p (digits16 dt ++ digits16 (len new) ++ concat new)) w =
                 (Ok (mkMRResp 0xCD 0 0 0 [] []), w') /\
      tag w' p = Some (dt, new ++ drop (length new) els)
}.

Lemma le16_digits16 n : is_u16 n -> le16 n = digits16 n.
Proof. apply le16_digits. Qed.

(** A device whose answers to the requests of this package are these. *)
Lemma tag_device_of {W} (answers : MessageRouterRequest -> SM W MessageRouterResponse)
    (tag : W -> bytes -> option (Z * list bytes)) :
  (forall w p dt els, tag w p = Some (dt, els) -> is_u16 dt) ->
  (forall w p dt els n, tag w p = Some (dt, els) -> is_u16 n -> 1 <= n <= len els ->
     answers (NewReadTagRequest p n) w =
       (Ok (success Svc.ReadTag (le16 dt ++ concat (take (Z.to_nat n) els))), w)) ->
  (forall w p dt els new, tag w p = Some (dt, els) -> is_u16 (len new) -> 1 <= len new <= len els ->
     Forall2 (fun a b => len a = len b) new (take (length new) els) ->
     exists w', answers (NewWriteTagRequest p dt (len new) (concat new)) w = (Ok (success Svc.WriteTag []), w') /\
       tag w' p = Some (dt, new ++ drop (length new) els)) -> TagDevice answers.
Proof.
  intros Hty Hr Hw. refine {| EipClient.tag := tag; tag_type := Hty |}.
  - intros w p dt els n Ht Hn Hl. rewrite <-!le16_digits16 by (done || by eapply Hty). by apply Hr.
  - intros w p dt els new Ht Hn Hl Hf. rewrite <-!le16_digits16 by (done || by eapply Hty). by apply Hw.
Defined.

Section Tags.
Context {C T W : Type} `{CipDevice C T W} `{!TagDevice answers}.

(** The requests of the client are such requests. *)
Lemma read_answer w p dt els n :
  tag w p = Some (dt, els) -> is_u16 n -> 1 <= n <= len els ->
  answers (NewReadTagRequest p n) w =
    (Ok (success Svc.ReadTag (le16 dt ++ concat (take (Z.to_nat n) els))), w).
Proof.
  intros Ht Hn Hl. unfold NewReadTagRequest. rewrite (le16_digits16 n Hn), (le16_digits16 dt) by (by eapply tag_type).
  by apply tag_read.
Qed.
Lemma write_answer w p dt els new :
  tag w p = Some (dt, els) -> is_u16 (len new) -> 1 <= len new <= len els ->
  Forall2 (fun a b => len a = len b) new (take (length new) els) ->
  exists w', answers (NewWriteTagRequest p dt (len new) (concat new)) w = (Ok (success Svc.WriteTag []), w') /\
    tag w' p = Some (dt, new ++ drop (length new) els).
Proof.
  intros Ht Hn Hl Hf. unfold NewWriteTagRequest. rewrite (le16_digits16 _ Hn), (le16_digits16 dt) by (by eapply tag_type).
  by apply tag_write.
Qed.

Lemma type_code_le16 dt data : is_u16 dt -> type_code (le16 dt ++ data) = Ok dt.
Proof.
  intros Hd. unfold type_code. rewrite go_slice_prefix by done. go_bind.
  rewrite <-(app_nil_r (le16 dt)). by apply get_le16_le16.
Qed.
Lemma tag_value_atomic dp dt data :
  is_u16 dt -> dt < CipType.STRUCT ->
  tag_value dp (le16 dt ++ data) =
    Ok (mkValue (Some dp) data (cipTypeToPlcType dt) ByteOrderLittleEndian).
Proof.
  intros Hd Hs. unfold tag_value. pose proof (len_nonneg data).
  rewrite (proj2 (Z.leb_le _ _)) by (lens; lia). rewrite type_code_le16 by done. go_bind.
  assert (header_len dt = 2) as ->.
  { unfold header_len. by rewrite (proj2 (Z.leb_gt _ _) Hs). }
  rewrite (proj2 (Z.leb_le _ _)) by (lens; lia). by rewrite go_slice_suffix by (lens; lia).
Qed.

(** Elements written to a tag of an atomic type are the elements read back:
    the write succeeds and stores them in front of the tag's other elements, and
    reading as many returns their bytes without the type code, little-endian and
    with the type the code stands for. *)
Theorem tag_write_read (c : Client) fuel name p n dt els new sess t :
  0 <= retries c < 2147483647 -> live sess t -> ParseTagPath name = Ok p ->
  tag (device t) p = Some (dt, els) -> dt < CipType.STRUCT ->
  Forall2 (fun a b => len a = len b) new (take (length new) els) ->
  1 <= len new <= len els -> is_u16 n -> len new = (if n =? 0 then 1 else n) ->
  fits (NewWriteTagRequest p dt (len new) (concat new)) -> fits (NewReadTagRequest p (len new)) ->
  exists t1 t2,
    Client_Write c (S fuel) (Tag name n) (le16 dt ++ concat new) t = Some (Ok tt, t1) /\
    tag (device t1) p = Some (dt, new ++ drop (length new) els) /\
    Client_Read c (S fuel) [Tag name n] t1 =
      Some (Ok [mkValue (Some (Tag name n)) (concat new) (cipTypeToPlcType dt)
                  ByteOrderLittleEndian], t2) /\
    device t2 = device t1.
Proof.
  intros Hr Hl Hp Ht Hs Hsz Hn Hn16 Hc Hfw Hfr. pose proof (tag_type _ _ _ _ Ht) as Hdt.
  assert (is_u16 (len new)) as Hl16 by (rewrite Hc; destruct (n =? 0); done).
  destruct (write_answer _ _ _ _ new Ht Hl16 Hn Hsz) as (w1 & Hw & Ht1).
  destruct (do_request c fuel _ (fun _ => Ok tt) sess t _ _ _ tt Hl Hfw Hw) as (t1 & E1 & Hd1 & Hl1);
    [done|by left|].
  subst w1.
  assert (len new <= len (new ++ drop (length new) els)) as Hn1.
  { lens. pose proof (len_nonneg (drop (length new) els)). lia. }
  pose proof (read_answer _ _ _ _ (len new) Ht1 Hl16 ltac:(lia)) as Hrd.
  destruct (do_request c fuel _ (fun resp => Ok (ResponseData resp)) sess t1 _ _ _ _ Hl1 Hfr Hrd
    eq_refl) as (t2 & E2 & Hd2 & _); [by left|].
  exists t1, t2. split; [|split; [done|split; [|done]]].
  - unfold Client_Write. pose proof (len_nonneg (concat new)).
    rewrite (proj2 (Z.ltb_ge _ _)) by (lens; lia).
    rewrite (Run_bind_Ok _ _ _ dt t) by (unfold local; by rewrite type_code_le16).
    rewrite (Run_bind_Ok _ _ _ p t) by (unfold local; by rewrite Hp).
    rewrite (Run_bind_Ok _ _ _ (concat new) t) by (unfold local; by rewrite go_slice_suffix by (lens; lia)).
    by rewrite <-Hc.
  - cbn [Client_Read]. rewrite <-Hc.
    rewrite (Run_bind_Ok _ _ _ (le16 dt ++ concat new) t2).
    { rewrite (Run_bind_Ok _ _ _ (mkValue (Some (Tag name n)) (concat new) (cipTypeToPlcType dt)
        ByteOrderLittleEndian) t2); [done|]. unfold local. by rewrite tag_value_atomic. }
    unfold ReadTagElements. rewrite (proj2 (Z.eqb_neq _ _)) by lia.
    rewrite (Run_bind_Ok _ _ _ p t1) by (unfold local; by rewrite Hp).
    rewrite E2. cbn [success ResponseData]. do 4 f_equal. unfold len. rewrite Nat2Z.id.
    by rewrite take_app_length.
Qed.
End Tags.

(** ** Enumerating symbols *)
Definition class_reply (revision maxInstance : Z) : bytes :=
  le16 2 ++ le16 1 ++ le16 0 ++ le16 revision ++ le16 2 ++ le16 0 ++ le16 maxInstance.
Definition symbol_reply (name : bytes) (typeCode : Z) : bytes :=
  le16 2 ++ le16 1 ++ le16 0 ++ le16 (len name) ++ name ++ le16 2 ++ le16 0 ++ le16 typeCode.

(** A device with symbols: the instances up to the class's maximum that exist
    have a name and a type; the others are refused. *)
Class SymbolDevice {W : Type} (answers : MessageRouterRequest -> SM W MessageRouterResponse) : Type := {
  symbol : W -> Z -> option (bytes * Z);
  max_instance : W -> Z;
  symbol_ok w id name ty : symbol w id = Some (name, ty) -> len name < 65536 /\ is_u16 ty;
  max_ok w : is_u16 (max_instance w);
  symbol_class w : exists revision, is_u16 revision /\
    answers NewGetSymbolClassAttributesRequest w =
      (Ok (success 0x03 (class_reply revision (max_instance w))), w);
  symbol_some w id name ty : 1 <= id < 65536 -> symbol w id = Some (name, ty) ->
    answers (NewGetSymbolAttributesRequest id) w = (Ok (success 0x03 (symbol_reply name ty)), w);
  symbol_none w id : 1 <= id < 65536 -> symbol w id = None -> exists resp,
    IsSuccess resp = false /\ answers (NewGetSymbolAttributesRequest id) w = (Ok resp, w)
}.

Lemma decode_class_reply revision m :
  is_u16 revision -> is_u16 m ->
  DecodeSymbolClassAttributesResponse (class_reply revision m) = Ok (revision, m).
Proof.
  intros Hr Hm. unfold DecodeSymbolClassAttributesResponse, class_reply.
  rewrite read_le16_le16 by done. go_bind. change (Z.to_nat 2) with 2%nat. cbn [class_attrs].
  rewrite read_le16_le16 by done. go_bind. rewrite read_le16_le16 by done. go_bind.
  cbn [Z.eqb Pos.eqb]. rewrite read_le16_le16 by done. go_bind.
  rewrite read_le16_le16 by done. go_bind. rewrite read_le16_le16 by done. go_bind.
  cbn [Z.eqb Pos.eqb]. rewrite <-(app_nil_r (le16 m)), read_le16_le16 by done. done.
Qed.
Lemma decode_symbol_reply name ty :
  len name < 65536 -> is_u16 ty ->
  DecodeSymbolAttributesResponse (symbol_reply name ty) = Ok (name, ty).
Proof.
  intros Hn Ht. unfold DecodeSymbolAttributesResponse, symbol_reply. pose proof (len_nonneg name).
  rewrite read_le16_le16 by done. go_bind. change (Z.to_nat 2) with 2%nat. cbn [symbol_attrs].
  rewrite read_le16_le16 by done. go_bind. rewrite read_le16_le16 by done. go_bind.
  cbn [Z.eqb Pos.eqb]. rewrite read_le16_le16 by (widths; lia). go_bind.
  rewrite read_full_app by (unfold len; lia). go_bind.
  rewrite read_le16_le16 by done. go_bind. rewrite read_le16_le16 by done. go_bind.
  cbn [Z.eqb Pos.eqb]. rewrite <-(app_nil_r (le16 ty)), read_le16_le16 by done. done.
Qed.

Section Symbols.
Context {C T W : Type} `{CipDevice C T W} `{!SymbolDevice answers}.

(** The named symbols among [ids], in their order. *)
Definition named_symbols (w : W) (ids : list Z) : list SymbolInstance :=
  omap (fun id => match symbol w id with
                  | Some (name, ty) => if bool_decide (name = []) then None else Some (mkSymbol id name ty)
                  | None => None
                  end) ids.

Lemma fetch_symbols_device ids : forall sess t acc,
  live sess t ->
  (forall id, id ∈ ids -> 1 <= id < 65536 /\ fits (NewGetSymbolAttributesRequest id)) ->
  exists t', fetch_symbols sess ids acc t = (Ok (acc ++ named_symbols (device t) ids), t') /\
    device t' = device t /\ live sess t'.
Proof.
  induction ids as [|id ids IH]; intros sess t acc Hl Hf.
  { exists t. cbn. by rewrite app_nil_r. }
  destruct (Hf id) as [Hid Hfid]; [apply list_elem_of_here|].
  destruct (live_send sess t (NewGetSymbolAttributesRequest id) Hl Hfid) as (t1 & E & Hd & Hl1).
  assert (exists sym, device t1 = device t /\
    (match fst (answers (NewGetSymbolAttributesRequest id) (device t)) with
     | Ok resp => symbol_of id resp | Err e => Err e | Panic => Panic end) = Ok sym /\
    named_symbols (device t) (id :: ids) = sym ++ named_symbols (device t) ids /\
    exists resp, fst (answers (NewGetSymbolAttributesRequest id) (device t)) = Ok resp)
    as (sym & Hd1 & Hsym & Hnamed & resp & Hresp).
  { destruct (symbol (device t) id) as [[name ty]|] eqn:Es.
    - rewrite (symbol_some _ _ _ _ Hid Es) in *. cbn [fst snd] in *. destruct (symbol_ok _ _ _ _ Es).
      exists (if bool_decide (name = []) then [] else [mkSymbol id name ty]).
      split; [done|]. split; [|split; [|by eexists]].
      + unfold symbol_of. cbn [IsSuccess success GeneralStatus ResponseData].
        change (negb (IsSuccess (success 3 (symbol_reply name ty)))) with false. cbv iota.
        rewrite decode_symbol_reply by done. by case_bool_decide.
      + unfold named_symbols. cbn [omap list_omap]. rewrite Es. by case_bool_decide.
    - destruct (symbol_none _ _ Hid Es) as (resp & Hs & Ha). rewrite Ha in *. cbn [fst snd] in *.
      exists []. split; [done|]. split; [|split; [|by eexists]].
      + unfold symbol_of. by rewrite Hs.
      + unfold named_symbols. cbn [omap list_omap]. by rewrite Es. }
  rewrite Hresp in *. destruct (IH sess t1 (acc ++ sym) Hl1) as (t2 & E2 & Hd2 & Hl2).
  { intros id' Hid'. apply Hf. by apply list_elem_of_further. }
  exists t2. split; [|by rewrite Hd2, Hd1]. cbn [fetch_symbols]. rewrite E, Hsym, E2.
  by rewrite Hd1, Hnamed, app_assoc.
Qed.

(** C25: While the session lives, enumerating the tags of a device returns exactly
    its named symbols, in the order of their instances up to the class's maximum,
    and changes nothing on the device. *)
Theorem list_tags_complete (c : Client) fuel sess t :
  0 <= retries c < 2147483647 -> live sess t ->
  fits NewGetSymbolClassAttributesRequest ->
  (forall id, 1 <= id < 65536 -> fits (NewGetSymbolAttributesRequest id)) ->
  exists t', ListTags c (S fuel) t =
      Some (Ok (named_symbols (device t) (map (Z.add 1) (iota (max_instance (device t))))), t') /\
    device t' = device t /\ live sess t'.
Proof.
  intros Hr Hl Hfc Hfs. destruct (live_send sess t _ Hl Hfc) as (t1 & E1 & Hd1 & Hl1).
  destruct (symbol_class (device t)) as (rev & Hrev & Ha). rewrite Ha in *. cbn [fst snd] in *.
  pose proof (max_ok (device t)) as Hm.
  destruct (fetch_symbols_device (map (Z.add 1) (iota (max_instance (device t)))) sess t1 [] Hl1)
    as (t2 & E2 & Hd2 & Hl2).
  { intros id (k & -> & Hk%elem_of_iota)%list_elem_of_fmap.
    assert (1 <= 1 + k < 65536) by (widths; lia). by split; [|apply Hfs]. }
  exists t2. split; [|by rewrite Hd2, Hd1]. unfold ListTags.
  eapply (do_first c _ _ 0); [constructor| |lia|lia].
  econstructor; [by apply live_conn|]. unfold list_tags_op. rewrite (SM_bind_Ok _ _ _ _ _ E1).
  change (MRResp_Error (success 3 (class_reply rev (max_instance (device t))))) with (@None error).
  cbn [ResponseData success]. rewrite decode_class_reply by done.
  rewrite (SM_bind_Ok _ _ _ (rev, max_instance (device t)) t1) by done.
  rewrite (SM_bind_Ok _ _ _ _ _ E2). by rewrite Hd1.
Qed.
End Symbols.
