(* ===== verification/CipTypes.v ===== *)
(** * CIP type codes, the type registry and typed tag access

    Models the rest of [cip/types.go] ([DataType]), [cip/registry.go],
    [cip/decode.go] and [cip/encode.go] on structured Go values, the codecs of
    [vendor/rockwell/rockwell.go], and the typed reads of
    [protocol/ethernetip/client.go] ([ReadTagInto], [ReadTagElementsInto], the
    generic [Read] and [ReadSlice]).  A Go type that [encoding/binary] accepts is
    a [shape]; its values are trees of numbers ([gval]), floats by their bits. *)
From S2P Require Import Prelude Bytes Transport Plc EipCodec Cip Pccc PcccClient CipTags EipClient.

#[local] Set Warnings "-register-all".

(** ** Fixed-size Go types and [encoding/binary]

    The standard library's encoding of values of fixed size, with the byte order
    its functions are called with. *)
Inductive byte_order : Type := LittleEndian | BigEndian.
Inductive shape : Type :=
| SBool
| SInt (signed : bool) (w : nat)      (** an integer of [w] bytes *)
| SFloat (w : nat)
| SArray (n : nat) (s : shape)        (** an array, or a slice of length [n] *)
| SStruct (fields : list shape).

Inductive gval : Type :=
| VBool (b : bool)
| VNum (z : Z)
| VSeq (vs : list gval).

(** [w] bytes of an integer, least significant first ([le_uint] reads them back). *)
Fixpoint le_bytes (w : nat) (z : Z) : bytes :=
  match w with O => [] | S w => u8 z :: le_bytes w (Z.shiftr z 8) end.

Fixpoint sizeof (s : shape) : nat :=
  match s with
  | SBool => 1
  | SInt _ w | SFloat w => w
  | SArray n s => n * sizeof s
  | SStruct fs => (fix go fs := match fs with [] => 0 | f :: fs => sizeof f + go fs end) fs
  end%nat.

Definition put_uint (o : byte_order) (w : nat) (z : Z) : bytes :=
  match o with LittleEndian => le_bytes w z | BigEndian => rev (le_bytes w z) end.
Definition get_uint (o : byte_order) (b : bytes) : Z :=
  match o with LittleEndian => le_uint b | BigEndian => le_uint (rev b) end.

Fixpoint binary_put (o : byte_order) (s : shape) (v : gval) {struct s} : bytes :=
  match s, v with
  | SBool, VBool b => [if b then 1 else 0]
  | SInt _ w, VNum z | SFloat w, VNum z => put_uint o w z
  | SArray _ s, VSeq vs => concat (map (binary_put o s) vs)
  | SStruct fs, VSeq vs =>
      (fix go fs vs := match fs, vs with f :: fs, v :: vs => binary_put o f v ++ go fs vs | _, _ => [] end)
        fs vs
  | _, _ => []
  end.

Fixpoint binary_get (o : byte_order) (s : shape) (b : bytes) {struct s} : gval * bytes :=
  match s with
  | SBool => (VBool (negb (default 0 (head b) =? 0)), tail b)
  | SInt sg w =>
      (VNum (if sg then signed (8 * Z.of_nat w) (get_uint o (take w b)) else get_uint o (take w b)), drop w b)
  | SFloat w => (VNum (get_uint o (take w b)), drop w b)
  | SArray n s =>
      let '(vs, b) :=
        (fix go n b := match n with
                       | O => ([], b)
                       | S n => let '(v, b) := binary_get o s b in let '(vs, b) := go n b in (v :: vs, b)
                       end) n b in (VSeq vs, b)
  | SStruct fs =>
      let '(vs, b) :=
        (fix go fs b := match fs with
                        | [] => ([], b)
                        | f :: fs => let '(v, b) := binary_get o f b in let '(vs, b) := go fs b in (v :: vs, b)
                        end) fs b in (VSeq vs, b)
  end.

(** [binary.Read]: all the bytes are read first, then decoded. *)
Definition binary_Read (o : byte_order) (s : shape) (data : bytes) : outcome gval :=
  '(b, _) ← read_full (sizeof s) data; Ok (fst (binary_get o s b)).

(** ** [cip.Marshal]

    What it is given: a value that implements [Marshaler], a value of a fixed-size
    type, or something else. *)
Inductive source : Type :=
| FMarshaler (marshalCIP : outcome bytes)
| FBinary (s : shape) (v : gval)
| FNotFixed.
Definition MarshalAny (v : source) : outcome bytes :=
  match v with
  | FMarshaler m => m
  | FBinary s v => Ok (binary_put LittleEndian s v)
  | FNotFixed =>
      Err (Wrapf "cip: binary.Write failed: %w" (Errorf "binary.Write: some values are not fixed-sized in type %s"))
  end.

(** ** [cip.Unmarshal]

    Where it stores: the destination is no pointer, implements [Unmarshaler], is
    a pointer to a fixed-size type (whose values the caller sees through [conv]),
    or a pointer to something else. *)
Inductive target (A : Type) : Type :=
| TNotPointer
| TUnmarshaler (unmarshalCIP : bytes -> outcome A)
| TBinary (s : shape) (conv : gval -> A)
| TNotFixed.
Arguments TNotPointer {A}.
Arguments TUnmarshaler {A} unmarshalCIP.
Arguments TBinary {A} s conv.
Arguments TNotFixed {A}.

Definition Unmarshal {A} (data : bytes) (v : target A) : outcome A :=
  match v with
  | TNotPointer => Err (Errorf "cip: Unmarshal(non-pointer %T)")
  | TUnmarshaler unmarshalCIP => unmarshalCIP data
  | TBinary s conv =>
      match binary_Read LittleEndian s data with
      | Ok x => Ok (conv x)
      | Err err => Err (Wrapf "cip: binary.Read failed: %w" err)
      | Panic => Panic
      end
  | TNotFixed => Err (Wrapf "cip: binary.Read failed: %w" (Errorf "binary.Read: invalid type %s"))
  end.

(** The Go type and the value of a basic [GoValue]. *)
Definition go_shape (v : GoValue) : option (shape * gval) :=
  match v with
  | GBool b => Some (SBool, VBool b)
  | GInt8 z => Some (SInt true 1, VNum z)
  | GInt16 z => Some (SInt true 2, VNum z)
  | GInt32 z => Some (SInt true 4, VNum z)
  | GInt64 z => Some (SInt true 8, VNum z)
  | GUint8 z => Some (SInt false 1, VNum z)
  | GUint16 z => Some (SInt false 2, VNum z)
  | GUint32 z => Some (SInt false 4, VNum z)
  | GUint64 z => Some (SInt false 8, VNum z)
  | GFloat32 z => Some (SFloat 4, VNum z)
  | GFloat64 z => Some (SFloat 8, VNum z)
  | _ => None
  end.

Definition go_source (v : GoValue) : source :=
  match v with
  | GCodec _ m => FMarshaler m
  | _ => match go_shape v with Some (s, g) => FBinary s g | None => FNotFixed end
  end.

(** ** Type codes (types.go) *)
Definition IsArray (d : Z) : bool := negb (Z.land d 0x8000 =? 0).
Definition Base (d : Z) : Z := Z.land d 0x7FFF.

Definition typeNames : list (Z * string) :=
  [(0x00C1, "BOOL"); (0x00C2, "SINT"); (0x00C3, "INT"); (0x00C4, "DINT"); (0x00C5, "LINT");
   (0x00C6, "USINT"); (0x00C7, "UINT"); (0x00C8, "UDINT"); (0x00C9, "ULINT"); (0x00CA, "REAL");
   (0x00CB, "LREAL"); (0x00CC, "STIME"); (0x00CD, "DATE"); (0x00CE, "TIME_OF_DAY");
   (0x00CF, "DATE_AND_TIME"); (0x00D0, "STRING"); (0x00D1, "BYTE"); (0x00D2, "WORD");
   (0x00D3, "DWORD"); (0x00D4, "LWORD"); (0x00D5, "STRING2"); (0x00D6, "FTIME"); (0x00D7, "LTIME");
   (0x00D8, "ITIME"); (0x00D9, "STRINGN"); (0x00DA, "SHORT_STRING"); (0x00DB, "TIME");
   (0x00DC, "EPATH"); (0x00DD, "ENGUNIT"); (0x00DE, "STRINGI"); (0x02A0, "STRUCT")]%string.
Definition typeNames_map : gmap Z string := list_to_map typeNames.

(** ** The registry (registry.go)

    A [TypeCodec] with the type of its values; the factory of a registration
    gives the same codec every time. *)
Record TypeCodec : Type := mkCodec {
  tc_CIPType : Z;
  tc_String : option string;           (** if it implements [fmt.Stringer] *)
  tc_val : Type;
  tc_UnmarshalCIP : bytes -> outcome tc_val;
  tc_MarshalCIP : tc_val -> outcome bytes }.

Record typeEntry : Type := mkEntry { factory : TypeCodec; te_name : string }.
Abbreviation registry := (gmap Z typeEntry).

Definition RegisterType (dt : Z) (f : TypeCodec) (reg : registry) : outcome registry :=
  match reg !! Base dt with
  | Some _ => Panic
  | None => Ok (<[Base dt := mkEntry f (default EmptyString (tc_String f))]> reg)
  end.
Definition LookupType (dt : Z) (reg : registry) : option TypeCodec := factory <$> reg !! Base dt.
Definition lookupTypeName (dt : Z) (reg : registry) : string :=
  match reg !! Base dt with Some e => te_name e | None => EmptyString end.

(** [%04X] of a 16-bit value. *)
Definition hexdigitU (d : Z) : Ascii.ascii :=
  Ascii.ascii_of_N (Z.to_N (if d <? 10 then 48 + d else 55 + d)).
Definition hex4 (n : Z) : string :=
  String (hexdigitU (n / 4096)) (String (hexdigitU (n / 256 mod 16))
    (String (hexdigitU (n / 16 mod 16)) (String (hexdigitU (n mod 16)) EmptyString))).

Definition DataType_String (reg : registry) (d : Z) : string :=
  let base := Base d in
  let name := match typeNames_map !! base with
              | Some name => name
              | None => lookupTypeName base reg
              end in
  if bool_decide (name = EmptyString)
  then if IsArray d then "UNKNOWN(0x" +:+ hex4 base +:+ ")[]" else "UNKNOWN(0x" +:+ hex4 d +:+ ")"
  else if IsArray d then name +:+ "[]" else name.

(** ** The Rockwell codecs (rockwell.go) *)
Module Rockwell.
Definition timer_codec (dt : Z) : TypeCodec :=
  mkCodec dt (Some "TIMER") Logix.Timer Logix.DecodeTimer (fun t => Ok (Logix.Timer_MarshalCIP t)).
Definition RegisterTimer (dt : Z) : registry -> outcome registry := RegisterType dt (timer_codec dt).

Definition counter_codec (dt : Z) : TypeCodec :=
  mkCodec dt (Some "COUNTER") Logix.Counter Logix.DecodeCounter
    (fun c => Ok (Logix.Counter_MarshalCIP c)).
Definition RegisterCounter (dt : Z) : registry -> outcome registry :=
  RegisterType dt (counter_codec dt).

(** [PID], its seven floats by their bits. *)
Record PID : Type := mkPID {
  SP : Z; PV : Z; OUT : Z; ERR : Z; KP : Z; KI : Z; KD : Z }.
Definition pidWire : shape := SStruct (replicate 7 (SFloat 4)).
Definition pid_of (v : gval) : PID :=
  match v with
  | VSeq [VNum a; VNum b; VNum c; VNum d; VNum e; VNum f; VNum g] => mkPID a b c d e f g
  | _ => mkPID 0 0 0 0 0 0 0
  end.
Definition PID_UnmarshalCIP (data : bytes) : outcome PID :=
  if len data <? 28 then Err (CipErr 0x13 []) else
  b ← go_slice data 0 28; Unmarshal b (TBinary pidWire pid_of).
Definition PID_MarshalCIP (p : PID) : outcome bytes :=
  MarshalAny (FBinary pidWire
    (VSeq [VNum (SP p); VNum (PV p); VNum (OUT p); VNum (ERR p); VNum (KP p); VNum (KI p); VNum (KD p)])).
Definition pid_codec (dt : Z) : TypeCodec :=
  mkCodec dt (Some "PID") PID PID_UnmarshalCIP PID_MarshalCIP.
Definition RegisterPID (dt : Z) : registry -> outcome registry := RegisterType dt (pid_codec dt).

Definition control_codec (dt : Z) : TypeCodec :=
  mkCodec dt (Some "CONTROL") Logix.Control Logix.Control_UnmarshalCIP
    (fun c => Ok (Logix.Control_MarshalCIP c)).
Definition RegisterControl (dt : Z) : registry -> outcome registry :=
  RegisterType dt (control_codec dt).
End Rockwell.

(** ** Typed reads (client.go) *)

(** The payload behind the type header of a tag's data. *)
Definition strip_header (data : bytes) : outcome bytes :=
  if len data <? 2 then Err (Errorf "response too short to contain type code") else
  typeCode ← type_code data;
  if len data <? header_len typeCode then Err (Errorf "response too short for type header")
  else go_slice data (header_len typeCode) (len data).

Section TypedReads.
Context {C T : Type} `{Transport C T} `{SessionLink C T}.
Variable c : Client.
Variable fuel : nat.

Definition ReadTagElementsInto {A} (tagName : bytes) (count : Z) (dst : target A) : Run T A :=
  data ← ReadTagElements c fuel tagName count;
  payload ← local (strip_header data);
  local (Unmarshal payload dst).
Definition ReadTagInto {A} (tagName : bytes) (dst : target A) : Run T A :=
  ReadTagElementsInto tagName 1 dst.

(** [Read[T]] for a type whose pointer is the destination [dst]. *)
Definition ReadT {A} (tagName : bytes) (dst : target A) : Run T A :=
  data ← ReadTag c fuel tagName;
  payload ← local (strip_header data);
  local (Unmarshal payload dst).
(** [ReadSlice[T]] for a fixed-size element type. *)
Definition ReadSlice (tagName : bytes) (count : Z) (s : shape) : Run T (list gval) :=
  data ← ReadTagElements c fuel tagName count;
  payload ← local (strip_header data);
  local (Unmarshal payload
    (TBinary (SArray (Z.to_nat count) s) (fun v => match v with VSeq vs => vs | _ => [] end))).
End TypedReads.

(** ** Lemmas: the binary encoding *)

(** Induction on Go types, through the fields of a struct. *)
Fixpoint shape_induction (P : shape -> Prop) (Hb : P SBool) (Hi : forall sg w, P (SInt sg w))
  (Hf : forall w, P (SFloat w)) (Ha : forall n s, P s -> P (SArray n s))
  (Hs : forall fs, Forall P fs -> P (SStruct fs)) (s : shape) : P s :=
  match s with
  | SBool => Hb
  | SInt sg w => Hi sg w
  | SFloat w => Hf w
  | SArray n s => Ha n s (shape_induction P Hb Hi Hf Ha Hs s)
  | SStruct fs =>
      Hs fs ((fix go fs : Forall P fs :=
                match fs with
                | [] => Forall_nil_2 P
                | f :: fs => Forall_cons_2 P f fs (shape_induction P Hb Hi Hf Ha Hs f) (go fs)
                end) fs)
  end.

(** A value of a Go type. *)
Fixpoint has_shape (s : shape) (v : gval) {struct s} : Prop :=
  match s, v with
  | SBool, VBool _ => True
  | SInt true w, VNum z =>
      (0 < w)%nat /\ - 2 ^ (8 * Z.of_nat w - 1) <= z < 2 ^ (8 * Z.of_nat w - 1)
  | SInt false w, VNum z | SFloat w, VNum z => 0 <= z < 2 ^ (8 * Z.of_nat w)
  | SArray n s, VSeq vs => length vs = n /\ Forall (has_shape s) vs
  | SStruct fs, VSeq vs =>
      (fix go fs vs := match fs, vs with
                       | [], [] => True
                       | f :: fs, v :: vs => has_shape f v /\ go fs vs
                       | _, _ => False
                       end) fs vs
  | _, _ => False
  end.

Lemma length_cip_bytes w : forall z, length (le_bytes w z) = w.
Proof. induction w as [|w IH]; intros z; [done|]. cbn. by rewrite IH. Qed.

Lemma le_uint_bytes w : forall z, le_uint (le_bytes w z) = z mod 2 ^ (8 * Z.of_nat w).
Proof.
  induction w as [|w IH]; intros z; cbn [le_bytes le_uint].
  - change (2 ^ (8 * Z.of_nat 0)) with 1. by rewrite Z.mod_1_r.
  - rewrite IH, Z.shiftr_div_pow2 by lia. unfold u8.
    replace (8 * Z.of_nat (S w)) with (8 + 8 * Z.of_nat w) by lia.
    rewrite Z.pow_add_r by lia. change (2 ^ 8) with 256.
    rewrite Z.rem_mul_r by (try lia; apply Z.pow_pos_nonneg; lia). lia.
Qed.

Lemma cip_signed_mod bits z :
  0 < bits -> - 2 ^ (bits - 1) <= z < 2 ^ (bits - 1) -> signed bits (z mod 2 ^ bits) = z.
Proof.
  intros Hb Hz. unfold signed.
  assert (2 ^ bits = 2 * 2 ^ (bits - 1)) as E.
  { rewrite <-Z.pow_succ_r by lia. f_equal. lia. }
  set (h := 2 ^ (bits - 1)) in *. rewrite E, Zplus_mod_idemp_l.
  rewrite Z.mod_small by lia. lia.
Qed.

Lemma length_put_uint o w z : length (put_uint o w z) = w.
Proof. destruct o; cbn; rewrite ?length_rev; apply length_cip_bytes. Qed.
Lemma get_put_uint o w z : get_uint o (put_uint o w z) = z mod 2 ^ (8 * Z.of_nat w).
Proof. destruct o; cbn; rewrite ?rev_involutive; apply le_uint_bytes. Qed.

Lemma take_drop_le o w z r :
  take w (put_uint o w z ++ r) = put_uint o w z /\ drop w (put_uint o w z ++ r) = r.
Proof.
  pose proof (length_put_uint o w z) as Hl.
  by rewrite take_app_length', drop_app_length' by lia.
Qed.

Lemma bin_encode_decode o s : forall v r, has_shape s v ->
  length (binary_put o s v) = sizeof s /\ binary_get o s (binary_put o s v ++ r) = (v, r).
Proof.
  induction s as [|sg w|w|n s IH|fs IH] using shape_induction; intros v r Hv.
  - destruct v as [b| |]; try done. split; [done|]. by destruct b.
  - destruct v as [|z|]; try (by destruct sg). split; [apply length_put_uint|]. cbn [binary_put binary_get].
    destruct (take_drop_le o w z r) as [-> ->]. rewrite get_put_uint. destruct sg.
    + destruct Hv as [Hw Hz]. by rewrite cip_signed_mod by lia.
    + cbn in Hv. by rewrite Z.mod_small.
  - destruct v as [|z|]; try done. split; [apply length_put_uint|]. cbn [binary_put binary_get].
    destruct (take_drop_le o w z r) as [-> ->]. rewrite get_put_uint. cbn in Hv. by rewrite Z.mod_small.
  - destruct v as [| |vs]; try done. destruct Hv as [<- Hvs]. cbn [binary_put sizeof].
    split.
    + induction Hvs as [|v vs Hv Hvs IHvs]; [done|]. cbn. rewrite length_app, IHvs.
      by rewrite (proj1 (IH v [] Hv)).
    + cbn [binary_get]. match goal with |- context [?go (length vs) _] => set (f := go) end.
      assert (f (length vs) (concat (map (binary_put o s) vs) ++ r) = (vs, r)) as ->; [|done].
      induction Hvs as [|v vs Hv Hvs IHvs]; [done|]. cbn [concat map length]. rewrite <-app_assoc.
      unfold f. cbn. rewrite (proj2 (IH v _ Hv)). fold f. by rewrite IHvs.
  - destruct v as [| |vs]; try done. cbn [binary_put sizeof binary_get].
    match goal with |- context [binary_get] => idtac end.
    assert (forall vs, has_shape (SStruct fs) (VSeq vs) ->
      length (binary_put o (SStruct fs) (VSeq vs)) = sizeof (SStruct fs) /\
      binary_get o (SStruct fs) (binary_put o (SStruct fs) (VSeq vs) ++ r) = (VSeq vs, r)) as H; [|exact (H vs Hv)].
    clear vs Hv. induction IH as [|f fs Hf Hfs IHfs]; intros vs Hv.
    + destruct vs; [|done]. split; done.
    + destruct vs as [|v vs]; [done|]. destruct Hv as [Hv Hvs].
      destruct (IHfs vs Hvs) as [Hl Hd]. split.
      * cbn in *. rewrite length_app, Hl. by rewrite (proj1 (Hf v [] Hv)).
      * cbn in *. rewrite <-app_assoc, (proj2 (Hf v _ Hv)).
        match type of Hd with (let '(_, _) := ?go fs ?b in _) = _ => destruct (go fs b) as [vs' b'] end.
        by injection Hd as -> ->.
Qed.

Lemma binary_Read_encode o s v r : has_shape s v -> binary_Read o s (binary_put o s v ++ r) = Ok v.
Proof.
  intros Hv. unfold binary_Read. destruct (bin_encode_decode o s v [] Hv) as [Hl Hd].
  rewrite read_full_app by done. go_bind. rewrite app_nil_r in Hd. by rewrite Hd.
Qed.



(** What [binary.Write] produces for the basic types. *)
Lemma marshal_encode v s g : go_shape v = Some (s, g) -> Marshal v = Ok (binary_put LittleEndian s g).
Proof.
  destruct v; intros E; try done; injection E as <- <-; try done; cbn;
    unfold le64, le32; cbn; rewrite ?Z.shiftr_shiftr by lia; done.
Qed.

(** The client's [Marshal] of a [GoValue] is [cip.Marshal] of what it stands for. *)
Lemma marshal_go v : Marshal v = MarshalAny (go_source v).
Proof. unfold go_source. destruct v; try done; by erewrite marshal_encode. Qed.

Lemma go_shape_atomic v s g :
  go_shape v = Some (s, g) -> exists dt, GoTypeToCIPType v = Ok dt /\ is_u16 dt /\ dt < CipType.STRUCT.
Proof. destruct v; intros E; try done; (eexists; split; [done|decided]). Qed.

Lemma strip_header_atomic dt data :
  is_u16 dt -> dt < CipType.STRUCT -> strip_header (le16 dt ++ data) = Ok data.
Proof.
  intros Hd Hs. unfold strip_header. pose proof (len_nonneg data).
  rewrite (proj2 (Z.ltb_ge _ _)) by (lens; lia). rewrite type_code_le16 by done. go_bind.
  assert (header_len dt = 2) as ->.
  { unfold header_len. by rewrite (proj2 (Z.leb_gt _ _) Hs). }
  rewrite (proj2 (Z.ltb_ge _ _)) by (lens; lia). by rewrite go_slice_suffix by (lens; lia).
Qed.

(** ** Properties *)


Section Typed.
Context {C T W : Type} `{CipDevice C T W} `{!TagDevice answers}.

(** The value written is the data read, with the type code in front. *)
Lemma write_then_raw (c : Client) fuel name p v s g dt el els sess t :
  0 <= retries c < 2147483647 -> live sess t -> ParseTagPath name = Ok p ->
  go_shape v = Some (s, g) -> has_shape s g -> GoTypeToCIPType v = Ok dt ->
  tag (device t) p = Some (dt, el :: els) -> length el = sizeof s ->
  fits (NewWriteTagRequest p dt 1 (binary_put LittleEndian s g)) -> fits (NewReadTagRequest p 1) ->
  exists t1 t2,
    WriteTag c (S fuel) name v t = Some (Ok tt, t1) /\
    tag (device t1) p = Some (dt, binary_put LittleEndian s g :: els) /\
    ReadTag c (S fuel) name t1 = Some (Ok (le16 dt ++ binary_put LittleEndian s g), t2) /\ device t2 = device t1.
Proof.
  intros Hr Hl Hp Hs Hg Hty Ht Hel Hfw Hfr.
  destruct (bin_encode_decode LittleEndian s g [] Hg) as [Hle _].
  pose proof (write_answer _ _ _ _ [binary_put LittleEndian s g] Ht) as Hw. cbn [concat] in Hw. rewrite app_nil_r in Hw.
  destruct Hw as (w1 & Hw & Ht1); [done|lens; pose proof (len_nonneg els); lia| |].
  { constructor; [|constructor]. unfold len. lia. }
  destruct (do_request c fuel _ (fun _ => Ok tt) sess t _ _ _ tt Hl Hfw Hw) as (t1 & E1 & Hd1 & Hl1);
    [done|by left|]. subst w1. cbn in Ht1. rewrite drop_0 in Ht1.
  pose proof (read_answer _ _ _ _ 1 Ht1 ltac:(done)) as Hrd.
  change (Z.to_nat 1) with 1%nat in Hrd. cbn [take concat] in Hrd. rewrite app_nil_r in Hrd.
  destruct (do_request c fuel _ (fun resp => Ok (ResponseData resp)) sess t1 _ _ _ _ Hl1 Hfr
    (Hrd ltac:(lens; pose proof (len_nonneg els); lia)) eq_refl) as (t2 & E2 & Hd2 & _); [by left|].
  exists t1, t2. split; [|split; [done|split; [|done]]].
  - unfold WriteTag. rewrite (Run_bind_Ok _ _ _ p t) by (unfold local; by rewrite Hp).
    rewrite (Run_bind_Ok _ _ _ dt t) by (unfold local; by rewrite Hty).
    by rewrite (Run_bind_Ok _ _ _ (binary_put LittleEndian s g) t) by (unfold local; by rewrite (marshal_encode _ _ _ Hs)).
  - unfold ReadTag, ReadTagElements. change (1 =? 0) with false. cbv iota.
    rewrite (Run_bind_Ok _ _ _ p t1) by (unfold local; by rewrite Hp). by rewrite E2.
Qed.

(** C23: Typed write and read.  A Go value of a basic type written to a tag of
    the matching CIP type is the value a typed read of that tag returns: the type
    code the client infers, the bytes it marshals, the header it strips and the
    decoding fit together, for every basic type and every value in its range. *)
Theorem typed_write_read (c : Client) fuel name p v s g dt el els sess t :
  0 <= retries c < 2147483647 -> live sess t -> ParseTagPath name = Ok p ->
  go_shape v = Some (s, g) -> has_shape s g -> GoTypeToCIPType v = Ok dt ->
  tag (device t) p = Some (dt, el :: els) -> length el = sizeof s ->
  fits (NewWriteTagRequest p dt 1 (binary_put LittleEndian s g)) -> fits (NewReadTagRequest p 1) ->
  exists t1 t2,
    WriteTag c (S fuel) name v t = Some (Ok tt, t1) /\
    tag (device t1) p = Some (dt, binary_put LittleEndian s g :: els) /\
    ReadT c (S fuel) name (TBinary s id) t1 = Some (Ok g, t2) /\ device t2 = device t1.
Proof.
  intros Hr Hl Hp Hs Hg Hty Ht Hel Hfw Hfr.
  destruct (go_shape_atomic v s g Hs) as (dt' & E & Hdt & Hst). rewrite Hty in E. injection E as <-.
  destruct (write_then_raw c fuel name p v s g dt el els sess t) as (t1 & t2 & Ew & Ht1 & Er & Hd);
    try done. exists t1, t2. split; [done|]. split; [done|]. split; [|done].
  unfold ReadT. rewrite (Run_bind_Ok _ _ _ _ _ Er).
  rewrite (Run_bind_Ok _ _ _ (binary_put LittleEndian s g) t2) by (unfold local; by rewrite strip_header_atomic).
  unfold local, Unmarshal. rewrite <-(app_nil_r (binary_put LittleEndian s g)). by rewrite binary_Read_encode.
Qed.
End Typed.

(** The type registry.  A registration panics exactly when its code, without
    the array flag, is taken; otherwise the code and its array form look up the
    new codec and every other code what it did before.  A non-empty name of the
    codec is what the type is displayed as from then on, unless the code is a
    built-in one; the names of built-in types and of all other codes stay. *)
Theorem registry_spec dt f reg :
  (RegisterType dt f reg = Panic <-> LookupType dt reg <> None) /\
  forall reg', RegisterType dt f reg = Ok reg' -> forall d,
    LookupType d reg' = (if Base d =? Base dt then Some f else LookupType d reg) /\
    (is_Some (typeNames_map !! Base d) \/ Base d <> Base dt ->
       DataType_String reg' d = DataType_String reg d) /\
    (typeNames_map !! Base d = None -> Base d = Base dt -> forall n, tc_String f = Some n ->
       n <> EmptyString -> DataType_String reg' d = if IsArray d then n +:+ "[]" else n).
Proof.
  assert (forall d, Base (Base d) = Base d) as HB.
  { intros d. unfold Base. by rewrite <-Z.land_assoc. }
  unfold RegisterType, LookupType. split.
  - destruct (reg !! Base dt); naive_solver.
  - intros reg' E d. destruct (reg !! Base dt) as [e|] eqn:Er; [done|]. injection E as <-.
    assert (forall b, Base d = Base dt <-> b = true -> (if b then Some f else factory <$> reg !! Base d)
      = factory <$> <[Base dt := mkEntry f (default EmptyString (tc_String f))]> reg !! Base d) as Hl.
    { intros b Hb. destruct (decide (Base d = Base dt)) as [Eq|Hne].
      - by rewrite (proj1 Hb Eq), Eq, lookup_insert_eq.
      - rewrite lookup_insert_ne by done. destruct b; [|done]. by destruct Hne; apply Hb. }
    split; [symmetry; apply Hl; by rewrite Z.eqb_eq|]. split.
    + intros Hd. unfold DataType_String. destruct (typeNames_map !! Base d) eqn:En; [done|].
      destruct Hd as [[? ?]|Hne]; [done|]. unfold lookupTypeName. rewrite HB.
      by rewrite lookup_insert_ne.
    + intros Hn Hd n Hf Hne. unfold DataType_String. rewrite Hn. unfold lookupTypeName.
      rewrite HB, Hd, lookup_insert_eq. cbn. rewrite Hf. cbn. by rewrite bool_decide_false.
Qed.

(** The PID codec: encoding and decoding agree, and shorter data is refused
    with the status for too little data. *)
Theorem pid_roundtrip p rest data :
  Forall is_u32 [Rockwell.SP p; Rockwell.PV p; Rockwell.OUT p; Rockwell.ERR p; Rockwell.KP p;
                 Rockwell.KI p; Rockwell.KD p] ->
  len data < 28 ->
  (exists b, Rockwell.PID_MarshalCIP p = Ok b /\ Rockwell.PID_UnmarshalCIP (b ++ rest) = Ok p) /\
  Rockwell.PID_UnmarshalCIP data = Err (CipErr 0x13 []).
Proof.
  intros Hp Hd. split.
  - eexists. split; [done|]. unfold Rockwell.PID_UnmarshalCIP.
    set (v := VSeq _). assert (has_shape Rockwell.pidWire v) as Hv.
    { cbn. repeat (apply Forall_cons in Hp as [? Hp]). repeat split; widths; lia. }
    destruct (bin_encode_decode LittleEndian _ v [] Hv) as [Hl _]. change (sizeof Rockwell.pidWire) with 28%nat in Hl.
    assert (len (binary_put LittleEndian Rockwell.pidWire v) = 28) as Hl' by (unfold len; lia).
    rewrite (proj2 (Z.ltb_ge _ _)) by (lens; pose proof (len_nonneg rest); lia).
    rewrite go_slice_prefix by lia. go_bind. unfold Unmarshal.
    rewrite <-(app_nil_r (binary_put _ _ _)), binary_Read_encode by done. by destruct p.
  - unfold Rockwell.PID_UnmarshalCIP. by rewrite (proj2 (Z.ltb_lt _ _)).
Qed.



Lemma pid_roundtrip_witness :
  Rockwell.PID_UnmarshalCIP [1; 2] = Err (CipErr 0x13 []).
Proof.
  apply (pid_roundtrip (Rockwell.mkPID 1 2 3 4 5 6 7) [] [1; 2]); decided.
Defined.
