(* ===== verification/EipPlant.v ===== *)
(** * The EtherNet/IP client end to end

    Sessions as heap objects behind the direct transport ([connector.go]), with
    the server of [EipServer] at the other end of the connection: the instance of
    [CipDevice] that the client's theorems are used with, and the PCCC client over
    the EtherNet/IP client.  The last part is a small plant (tags, symbols and a
    PCCC object behind a router) on which the theorems are run. *)
From S2P Require Import Prelude Bytes NetStream Transport Plc EipCodec Cip CipObjects EipServer.
From S2P Require Import EipSession Pccc PcccClient CipTags EipClient CipTypes.

(** ** connector.go: sessions made by dialling *)
Record net (P : Type) : Type := mkNet {
  dials : list (outcome P);          (** what the next dials give *)
  sessions : gmap nat (Session P);   (** the sessions made so far, by reference *)
  closed_conns : list P
}.
Arguments mkNet {P}.
Arguments dials {P}.
Arguments sessions {P}.
Arguments closed_conns {P}.

Section Connector.
Context {P : Type} `{Wire P}.

(** A reference not in use; 0 is the nil session. *)
Definition new_ref (n : net P) : nat := S (size (sessions n)).

(** [SessionConnector.Connect] *)
Definition Connector_Connect (n : net P) : outcome nat * net P :=
  match dials n with
  | [] => (Err NetClosed, n)
  | Err e :: dials => (Err e, mkNet dials (sessions n) (closed_conns n))
  | Panic :: dials => (Panic, mkNet dials (sessions n) (closed_conns n))
  | Ok tc :: dials =>
      match Register (NewSession tc) with
      | (Ok _, s) =>
          let ref := new_ref n in
          (Ok ref, mkNet dials (<[ref := s]> (sessions n)) (closed_conns n))
      | (Err e, s) => (Err e, mkNet dials (sessions n) (closed_conns n ++ [conn s]))
      | (Panic, s) => (Panic, mkNet dials (sessions n) (closed_conns n))
      end
  end.

(** [SessionCloser.Close]: the error of closing the socket is not modelled. *)
Definition Closer_Close (ref : nat) (n : net P) : option error * net P :=
  match sessions n !! ref with
  | None => (None, n)
  | Some s =>
      let '(_, s) := Unregister s in
      (None, mkNet (dials n) (<[ref := s]> (sessions n)) (closed_conns n ++ [conn s]))
  end.

(** A call on the session object a reference names. *)
Definition on_session {A} (m : SM (Session P) A) (ref : nat)
  : SM (@DirectTransport nat (net P)) A := fun d =>
  match sessions (d_world d) !! ref with
  | None => (Panic, d)
  | Some s =>
      let '(r, s) := m s in
      (r, mkDirect (d_conn d) (d_active d) (d_closed d)
            (mkNet (dials (d_world d)) (<[ref := s]> (sessions (d_world d)))
               (closed_conns (d_world d))) (d_hooks d))
  end.

#[export] Instance session_transport : Transport nat (@DirectTransport nat (net P)) :=
  Direct_Transport 0%nat Closer_Close.
#[export] Instance session_link : SessionLink nat (@DirectTransport nat (net P)) := {
  sess_SendCIPRequest := fun ref req => on_session (SendCIPRequest req) ref;
  sess_ListIdentity := on_session Session_ListIdentity;
  sess_ListServices := on_session Session_ListServices
}.
End Connector.

(** ** The server at the other end *)
Section Server.
Context {W : Type} (router : MessageRouter W) (identity : ListIdentityItem) (inv : W -> Prop) (w0 : W).
Context (Hrouter : router_safe inv router) (Hfit : replies_fit router inv).

#[local] Instance served_wire : Wire (Served W) := Served_Wire router identity.

Definition link : Type := @DirectTransport nat (net (Served W)).

(** A registered session with nothing in flight. *)
Definition session_up (s : Session (Served W)) : Prop :=
  exists h wr n w, is_u32 h /\ h <> 0 /\ inv w /\
    s = mkSession h (mkServed [] [] (mkCS h wr) (mkShared n w) true).
Definition link_live (ref : nat) (d : link) : Prop :=
  d_conn d = ref /\ d_active d = true /\ d_closed d = false /\
  exists s, sessions (d_world d) !! ref = Some s /\ session_up s.
Definition link_device (d : link) : W :=
  match sessions (d_world d) !! d_conn d with
  | Some s => world (served_sh (conn s))
  | None => w0
  end.
Definition routed (req : MessageRouterRequest) : SM W MessageRouterResponse := fun w =>
  let '(r, w) := Dispatch router req w in (caller_view r, w).

Lemma link_live_conn (ref : nat) (d : link) : link_live ref d -> Conn d = (Ok ref, d).
Proof.
  intros (Hc & Ha & Hcl & _). unfold Conn. simpl. unfold Direct_Conn. by rewrite Ha, Hcl, Hc.
Qed.
Lemma link_live_send (ref : nat) (d : link) req :
  link_live ref d -> request_fits req ->
  exists d', sess_SendCIPRequest ref req d = (fst (routed req (link_device d)), d') /\
    link_device d' = snd (routed req (link_device d)) /\ link_live ref d'.
Proof.
  intros (Hc & Ha & Hcl & s & Hs & (h & wr & n & w & Hh & Hne & Hw & ->)) Hf.
  pose proof (SendCIPRequest_served router identity inv Hrouter Hfit req h wr n w Hf Hh Hne Hw) as E.
  unfold link_device. rewrite Hc, Hs. cbn [conn served_sh world]. unfold routed.
  destruct (Dispatch router req w) as [r w'] eqn:Ed. destruct E as [Hw' [wr' E]].
  cbn [sess_SendCIPRequest session_link]. unfold on_session, served_wire. rewrite Hs, E.
  eexists. split; [done|]. cbn [d_conn d_world sessions].
  rewrite Hc, lookup_insert_eq. split; [done|]. split; [done|]. split; [done|]. split; [done|].
  eexists. split; [apply lookup_insert_eq|]. by exists h, wr', n, w'.
Qed.

#[export] Instance served_device : CipDevice nat link W := {
  live := link_live;
  device := link_device;
  answers := routed;
  fits := request_fits;
  live_conn := link_live_conn;
  live_send := link_live_send
}.

(** Connecting: a dial that reaches the server gives a live session. *)
Lemma connected_live n w dials :
  0 <= n < 4294967295 -> inv w ->
  exists d, fst (NewDirectTransport Connector_Connect
      (mkNet (Ok (mkServed [] [] (mkCS 0 []) (mkShared n w) true) :: dials) ∅ [])) = Ok d /\
    link_live (d_conn d) d /\ link_device d = w.
Proof.
  intros Hn Hw. destruct (Register_served router identity [] n w Hn) as [wr' E].
  unfold NewDirectTransport, Connector_Connect. cbn [EipPlant.dials].
  unfold served_wire. rewrite E. cbn [fst]. eexists. split; [done|].
  cbn [d_conn]. split.
  - split; [done|]. split; [done|]. split; [done|]. eexists.
    split; [cbn; apply lookup_insert_eq|]. exists (n + 1), wr', (n + 1), w.
    repeat split; try done; unfold is_u32; lia.
  - unfold link_device. cbn [d_conn d_world sessions]. by rewrite lookup_insert_eq.
Qed.
End Server.

(** ** PCCC over the EtherNet/IP client

    [pccc.go] makes the client an [Executor]: with a PCCC object behind the
    device's router, it is a controller as the PCCC client needs it. *)
Section PcccOverCip.
Context {C T W : Type} `{CipDevice C T W}.
Context (pccc : bytes -> SM W bytes) `{!Controller pccc}.
Variables (c : Client) (fuel : nat).

(** The executor the PCCC client calls; the call returns because retries are
    limited. *)
Definition pccc_exec (cmd : bytes) : SM T bytes := fun t =>
  match ExecutePCCC c (S fuel) cmd t with Some r => r | None => (Err CtxDone, t) end.

(** The PCCC object, class 0x67 instance 1, answers service 0x4B with the requestor
    identification it was sent (its length 7, vendor and serial number) and the
    controller's reply. *)
Hypothesis pccc_object : forall requestor cmd w reply w',
  len requestor = 6 -> pccc cmd w = (Ok reply, w') ->
  answers (mkMRReq 0x4B [0x20; 0x67; 0x24; 1] ([7] ++ requestor ++ cmd)) w =
    (Ok (mkMRResp 0xCB 0 0 0 [] ([7] ++ requestor ++ reply)), w').
Hypothesis pccc_fits : forall cmd,
  bytes_ok cmd -> len cmd <= 249 ->
  fits (NewExecutePCCCRequest (cipVendorID c) (cipSerialNumber c) cmd).
Hypothesis limited : 0 <= retries c < 2147483647.

Lemma execute_answer vendor serial cmd w reply w' :
  pccc cmd w = (Ok reply, w') ->
  answers (NewExecutePCCCRequest vendor serial cmd) w =
    (Ok (success Svc.ExecutePCCC ([7] ++ le16 vendor ++ le32 serial ++ reply)), w').
Proof. apply (pccc_object (le16 vendor ++ le32 serial)). done. Qed.

Lemma ExecutePCCC_served cmd sess t reply w :
  live sess t -> cmd <> [] -> bytes_ok cmd -> len cmd <= 249 -> pccc cmd (device t) = (Ok reply, w) ->
  exists t', pccc_exec cmd t = (Ok reply, t') /\ device t' = w /\ live sess t'.
Proof.
  intros Hl Hne Hok Hlen Hp.
  destruct (do_request c fuel (NewExecutePCCCRequest (cipVendorID c) (cipSerialNumber c) cmd)
    (fun resp =>
       if len (ResponseData resp) <? 7
       then Err (Errorf "ethernetip: Execute_PCCC reply too short (%d bytes, need >=7 for requestor ID)")
       else go_slice (ResponseData resp) 7 (len (ResponseData resp))) sess t _ _ w reply Hl
    (pccc_fits cmd Hok Hlen) (execute_answer _ _ _ _ _ _ Hp)) as (t' & E & Hd & Hl').
  - cbn [ResponseData success]. pose proof (len_nonneg reply).
    rewrite (proj2 (Z.ltb_ge _ _)) by (lens; lia). rewrite !app_assoc.
    by apply go_slice_suffix; lens; lia.
  - by left.
  - exists t'. split; [|done]. unfold pccc_exec, ExecutePCCC.
    rewrite (proj2 (Z.eqb_neq _ _)); [by rewrite E|]. destruct cmd; [done|]. lens.
    pose proof (len_nonneg cmd). lia.
Qed.

Lemma file_type_u8 ft : Letter ft <> [] -> is_u8 ft.
Proof.
  unfold Letter. destruct (List.find _ _) as [e|] eqn:Ef; [|done]. intros _.
  apply find_some in Ef as [Hin Heq]. apply Z.eqb_eq in Heq. subst ft.
  assert (forallb (fun e => (0 <=? e.1) && (e.1 <? 256)) fileTypeTable = true) as Ht by reflexivity.
  rewrite forallb_forall in Ht. specialize (Ht e Hin). widths. lia.
Qed.
Lemma word_bytes_ok ws : bytes_ok (word_bytes ws).
Proof. induction ws; [constructor|]. apply Forall_app_2; auto with go. Qed.

(** The frames fit an Execute_PCCC request. *)
Lemma frame_digits t : is_u16 t -> is_u8 (t mod 256) /\ is_u8 (t / 256).
Proof. intros Ht. widths. split; dlia. Qed.
Lemma place_u8 ft sub : place_ok ft sub = true -> is_u8 sub.
Proof. unfold place_ok. intros Hp. widths. lia. Qed.
Lemma read_frame_ok t n file ft elem sub :
  is_u16 t -> 1 <= n <= 120 -> is_u8 file -> is_u8 elem -> Letter ft <> [] -> place_ok ft sub = true ->
  read_frame t n file ft elem sub <> [] /\ bytes_ok (read_frame t n file ft elem sub) /\
  len (read_frame t n file ft elem sub) <= 249.
Proof.
  intros Ht Hn Hf He Hl Hp. split; [done|]. split; [|done]. destruct (frame_digits t Ht).
  pose proof (file_type_u8 ft Hl). pose proof (place_u8 ft sub Hp). unfold read_frame.
  repeat apply Forall_cons_2; try apply Forall_nil_2; first [done|unfold is_u8; lia].
Qed.
Lemma write_frame_ok t file ft elem sub ws :
  is_u16 t -> Forall is_u16 ws -> 1 <= len ws <= 120 -> is_u8 file -> is_u8 elem -> Letter ft <> [] ->
  place_ok ft sub = true ->
  write_frame t file ft elem sub ws <> [] /\ bytes_ok (write_frame t file ft elem sub ws) /\
  len (write_frame t file ft elem sub ws) <= 249.
Proof.
  intros Ht Hws Hn Hf He Hl Hp. split; [done|]. destruct (frame_digits t Ht).
  pose proof (file_type_u8 ft Hl). pose proof (place_u8 ft sub Hp). unfold write_frame. rewrite word_bytes_digits by done. split.
  - apply Forall_app_2; [|apply word_bytes_ok].
    repeat apply Forall_cons_2; try apply Forall_nil_2; first [done|unfold is_u8; lia].
  - rewrite len_app, len_word_bytes. change (len [_; _; _; _; _; _; _; _; _]) with 9. lia.
Qed.

#[export] Instance pccc_controller : Controller pccc_exec.
Proof.
  refine {| ready := fun t => exists sess, live sess t /\ ready (device t);
            table := fun t => table (device t);
            table_words := fun t => table_words (device t) |}.
  - intros t tn n file ft elem sub (sess & Hl & Hr) Ht Hn Hf He Hx Hp Hlen.
    destruct (read_frame_ok tn n file ft elem sub) as (Hne & Hok & Hl249); try done.
    destruct (typed_read _ _ _ _ _ _ _ Hr Ht Hn Hf He Hx Hp Hlen) as (w & Hw & Hs & Hr').
    destruct (ExecutePCCC_served _ sess t _ w Hl Hne Hok Hl249 Hw) as (t' & E & Hd & Hl').
    exists t'. rewrite Hd. split; [done|]. split; [done|]. by exists sess.
  - intros t tn file ft elem sub ws (sess & Hl & Hr) Ht Hws Hn Hf He Hx Hp Hlen.
    destruct (write_frame_ok tn file ft elem sub ws) as (Hne & Hok & Hl249); try done.
    destruct (typed_write _ _ _ _ _ _ _ Hr Ht Hws Hn Hf He Hx Hp Hlen) as (w & Hw & Htb & Ho & Hr').
    destruct (ExecutePCCC_served _ sess t _ w Hl Hne Hok Hl249 Hw) as (t' & E & Hd & Hl').
    exists t'. rewrite Hd. split; [done|]. split; [done|]. split; [done|]. by exists sess.
Defined.

(** C27: The PCCC client over EtherNet/IP: with a live session to a device whose PCCC
    object reads the request and the typed read and write commands byte by byte as
    the package's tests lay them out (file, file type, element and sub-element each
    in its place), up to 120 words written through an SLC address without a bit
    number, within the file, reach the addressed words of the controller's data
    table and no other word, and are read back. *)
Theorem pccc_words_over_cip sess addr a ws (k : client T) :
  live sess (executor k) -> ready (device (executor k)) ->
  ParseAddress addr = Ok a -> BitNum a < 0 -> Forall is_i16 ws -> 1 <= len ws <= 120 ->
  addr_index a + len ws <= len (table (device (executor k)) (FileType a) (FileNumber a)) ->
  exists k', WriteWords pccc_exec addr ws k = (Ok tt, k') /\
    table (device (executor k')) (FileType a) (FileNumber a) =
      words_set (table (device (executor k)) (FileType a) (FileNumber a)) (addr_index a) (map u16 ws) /\
    (forall ft file, (ft, file) <> (FileType a, FileNumber a) ->
       table (device (executor k')) ft file = table (device (executor k)) ft file) /\
    fst (ReadWords pccc_exec addr (len ws) k') = Ok ws.
Proof.
  intros Hl Hr Hp Hb Hws Hn Hlen.
  destruct (words_written_read (exec := pccc_exec) addr a ws k) as (k' & Hw & Hf & Ho & Hrd);
    try done; [by exists sess|].
  exists k'. split; [exact Hw|]. split; [exact Hf|]. split; [exact Ho|exact Hrd].
Qed.
End PcccOverCip.

(** ** A client connected to the server *)
Section EndToEnd.
Context {W : Type} (router : MessageRouter W) (identity : ListIdentityItem) (inv : W -> Prop) (w0 : W).
Context (Hrouter : router_safe inv router) (Hfit : replies_fit router inv).
#[local] Instance end_wire : Wire (Served W) := Served_Wire router identity.

(** C22: A client that dials the server and registers a session gets, for a CIP
    request, what the message router computes: the response's data if it is a
    success, its status as a CIP error otherwise, in one attempt whatever the
    retry limit, and the objects end in the router's state. *)
Theorem client_end_to_end (c : Client) fuel n w dials req resp w' :
  0 <= retries c < 2147483647 -> 0 <= n < 4294967295 -> inv w -> request_fits req ->
  Dispatch router req w = (Ok resp, w') ->
  exists d d', fst (NewDirectTransport Connector_Connect
      (mkNet (Ok (mkServed [] [] (mkCS 0 []) (mkShared n w) true) :: dials) ∅ [])) = Ok d /\
    do c (S fuel) (request req (fun resp => Ok (ResponseData resp))) d =
      Some (match MRResp_Error resp with Some e => Err e | None => Ok (ResponseData resp) end, d') /\
    link_device w0 d' = w' /\ link_live inv (d_conn d) d'.
Proof.
  intros Hr Hn Hw Hf Hd. destruct (connected_live router identity inv w0 n w dials Hn Hw)
    as (d & Ed & Hl & Hdev).
  destruct (link_live_send router identity inv w0 Hrouter Hfit (d_conn d) d req Hl Hf)
    as (d' & E & Hd' & Hl').
  assert (routed router req (link_device w0 d) = (Ok resp, w')) as Ha.
  { unfold routed. by rewrite Hdev, Hd. }
  rewrite Ha in E, Hd'. exists d, d'. split; [exact Ed|]. split; [|by split].
  eapply (do_first c _ _ 0); [constructor| |lia|lia].
  destruct (MRResp_Error resp) as [e|] eqn:Ee.
  - eapply settle_cip; [by apply (link_live_conn router identity inv)|].
    unfold request. rewrite (SM_bind_Ok _ _ _ _ _ E). by rewrite Ee.
  - eapply settle_ok; [by apply (link_live_conn router identity inv)|]. unfold request. rewrite (SM_bind_Ok _ _ _ _ _ E).
    by rewrite Ee.
Qed.
End EndToEnd.

(** ** A bench to run the theorems on

    The device's state is the transport's: tags by path, symbols by instance and
    the data files of an SLC behind the PCCC object. *)
Module Bench.
Record bench : Type := mkBench {
  b_tags : gmap (list Z) (Z * list (list Z));
  b_symbols : list (list Z * Z);
  b_files : gmap (Z * Z) (list Z)
}.

#[export] Instance bench_transport : Transport unit bench := {
  Conn := fun b => (Ok tt, b); Reset := fun _ b => b; Close := fun b => (None, b); Peek := fun _ => true
}.

Definition refused (service : Z) : MessageRouterResponse :=
  mkMRResp (Z.lor service 0x80) 0 Status.ObjectDoesNotExist 0 [] [].

Fixpoint rechunk (sizes : list nat) (data : bytes) : list bytes :=
  match sizes with [] => [] | n :: sizes => take n data :: rechunk sizes (drop n data) end.

Definition bench_tag (b : bench) (p : bytes) : option (Z * list bytes) :=
  match b_tags b !! p with Some (dt, els) => Some (u16 dt, els) | None => None end.
Definition bench_symbol (b : bench) (id : Z) : option (bytes * Z) :=
  match b_symbols b !! Z.to_nat (id - 1) with
  | Some (name, ty) => Some (take 100 name, u16 ty)
  | None => None
  end.
Definition instance_of (p : bytes) : Z :=
  match p with
  | [_; _; _; id] => id
  | [_; _; _; _; lo; hi] => Z.lor lo (Z.shiftl hi 8)
  | _ => 0
  end.

Definition bench_pccc (cmd : bytes) : SM bench bytes := fun b =>
  let '(r, files) := Device.exec cmd (b_files b) in (r, mkBench (b_tags b) (b_symbols b) files).

Definition bench_answers (req : MessageRouterRequest) : SM bench MessageRouterResponse := fun b =>
  let p := RequestPath req in
  if mq_Service req =? Svc.ReadTag then
    match bench_tag b p, get_le16 (RequestData req) with
    | Some (dt, els), Ok n => (Ok (success Svc.ReadTag (le16 dt ++ concat (take (Z.to_nat n) els))), b)
    | _, _ => (Ok (refused Svc.ReadTag), b)
    end
  else if mq_Service req =? Svc.WriteTag then
    match bench_tag b p, get_le16 (drop 2 (RequestData req)) with
    | Some (dt, els), Ok n =>
        let new := rechunk (map length (take (Z.to_nat n) els)) (drop 4 (RequestData req)) in
        (Ok (success Svc.WriteTag []),
         mkBench (<[p := (dt, new ++ drop (Z.to_nat n) els)]> (b_tags b)) (b_symbols b) (b_files b))
    | _, _ => (Ok (refused Svc.WriteTag), b)
    end
  else if mq_Service req =? Svc.ExecutePCCC then
    let '(r, b) := bench_pccc (drop 7 (RequestData req)) b in
    match r with
    | Ok reply => (Ok (success Svc.ExecutePCCC (take 7 (RequestData req) ++ reply)), b)
    | _ => (Ok (refused Svc.ExecutePCCC), b)
    end
  else if instance_of p =? 0 then
    (Ok (success 0x03 (class_reply 1 (u16 (len (b_symbols b))))), b)
  else
    match bench_symbol b (instance_of p) with
    | Some (name, ty) => (Ok (success 0x03 (symbol_reply name ty)), b)
    | None => (Ok (refused 0x03), b)
    end.

#[export] Instance bench_link : SessionLink unit bench := {
  sess_SendCIPRequest := fun _ => bench_answers;
  sess_ListIdentity := fun _ b => (Ok [], b);
  sess_ListServices := fun _ b => (Ok [], b)
}.
#[export] Instance bench_device : CipDevice unit bench bench.
Proof.
  refine {| live := fun _ _ => True; device := fun b => b; answers := bench_answers;
            fits := fun _ => True |}.
  - by intros [] b _.
  - intros sess t req _ _. destruct (bench_answers req t) as [r t'] eqn:E. exists t'. by cbn; rewrite E.
Defined.

Lemma rechunk_concat new : rechunk (map length new) (concat new) = new.
Proof.
  induction new as [|x new IH]; [done|]. cbn [map rechunk concat].
  by rewrite take_app_length, drop_app_length, IH.
Qed.
Lemma Forall2_lengths (new els : list bytes) :
  Forall2 (fun a b => len a = len b) new els -> map length els = map length new.
Proof. induction 1 as [|a b l k Hab _ IH]; [done|]. cbn. rewrite IH. unfold len in Hab. f_equal. lia. Qed.

#[export] Instance bench_tag_device : TagDevice bench_answers.
Proof.
  apply (tag_device_of bench_answers bench_tag).
  - intros w p dt els. unfold bench_tag. destruct (b_tags w !! p) as [[d e]|]; [|done].
    intros [= <- <-]. auto with go.
  - intros w p dt els n Ht Hn16 Hn. unfold bench_answers.
    cbn [NewReadTagRequest mq_Service RequestPath RequestData].
    change (Svc.ReadTag =? Svc.ReadTag) with true. cbv iota. rewrite Ht.
    by rewrite <-(app_nil_r (le16 n)), get_le16_le16 by done.
  - intros w p dt els new Ht Hn16 Hn Hsz. unfold bench_answers.
    cbn [NewWriteTagRequest mq_Service RequestPath RequestData].
    change (Svc.WriteTag =? Svc.ReadTag) with false.
    change (Svc.WriteTag =? Svc.WriteTag) with true. cbv iota. rewrite Ht.
    change (drop 2 (le16 dt ++ le16 (len new) ++ concat new)) with (le16 (len new) ++ concat new).
    change (drop 4 (le16 dt ++ le16 (len new) ++ concat new)) with (concat new).
    rewrite get_le16_le16 by done. unfold len in *. rewrite Nat2Z.id.
    rewrite (Forall2_lengths _ _ Hsz), rechunk_concat. eexists. split; [done|].
    unfold bench_tag in *. cbn [b_tags]. rewrite lookup_insert_eq.
    destruct (b_tags w !! p) as [[d e]|]; [|done]. injection Ht as <- <-.
    do 2 f_equal. apply u16_small. auto with go.
Defined.

#[export] Instance bench_symbol_device : SymbolDevice bench_answers.
Proof.
  assert (forall id, 1 <= id < 65536 ->
    instance_of (RequestPath (NewGetSymbolAttributesRequest id)) = id) as Hi.
  { intros id Hid. unfold NewGetSymbolAttributesRequest, AddInstance32. cbn [RequestPath].
    rewrite (proj2 (Z.leb_le id 0xFFFF)) by lia. unfold logical_segment.
    destruct (Z.leb_spec id 0xFF); cbn [AddClass app instance_of].
    - cbn. apply u8_small. widths. lia.
    - cbn. pose proof (get_le16_le16 id [] ltac:(widths; lia)) as E. cbn in E. by injection E. }
  refine {| symbol := bench_symbol; max_instance := fun w => u16 (len (b_symbols w)) |}.
  - intros w id name ty. unfold bench_symbol.
    destruct (b_symbols w !! _) as [[n t]|]; [|done]. intros [= <- <-].
    split; [unfold len; rewrite length_take; lia|auto with go].
  - intros w. auto with go.
  - intros w. exists 1. by split.
  - intros w id name ty Hid Hs. unfold bench_answers.
    rewrite Hi by done. cbn [NewGetSymbolAttributesRequest mq_Service].
    cbn [Z.eqb Pos.eqb Svc.ReadTag Svc.WriteTag Svc.ExecutePCCC].
    by rewrite (proj2 (Z.eqb_neq id 0)), Hs by lia.
  - intros w id Hid Hs. exists (refused 0x03). split; [done|]. unfold bench_answers.
    rewrite Hi by done. cbn [NewGetSymbolAttributesRequest mq_Service].
    cbn [Z.eqb Pos.eqb Svc.ReadTag Svc.WriteTag Svc.ExecutePCCC].
    by rewrite (proj2 (Z.eqb_neq id 0)), Hs by lia.
Defined.

#[export] Instance bench_controller : Controller bench_pccc.
Proof.
  refine {| ready := fun _ => True; table := fun b => Device.dev_table (b_files b);
            table_words := fun b => Device.dev_table_words (b_files b) |}.
  - intros e t n file ft elem sub _ Ht Hn Hf He Hx Hp Hl.
    destruct (@typed_read _ Device.exec Device.controller (b_files e) t n _ _ _ _ I Ht Hn Hf He Hx Hp Hl)
      as (e' & Hr & Hs & _).
    exists (mkBench (b_tags e) (b_symbols e) e'). unfold bench_pccc. rewrite Hr. by split.
  - intros e t file ft elem sub ws _ Ht Hws Hn Hf He Hx Hp Hl.
    destruct (@typed_write _ Device.exec Device.controller (b_files e) t _ _ _ _ ws I Ht Hws Hn Hf He Hx Hp Hl)
      as (e' & Hr & Htb & Ho & _).
    exists (mkBench (b_tags e) (b_symbols e) e'). unfold bench_pccc. rewrite Hr. by split.
Defined.

Lemma bench_pccc_object requestor cmd w reply w' :
  len requestor = 6 -> bench_pccc cmd w = (Ok reply, w') ->
  bench_answers (mkMRReq 0x4B [0x20; 0x67; 0x24; 1] ([7] ++ requestor ++ cmd)) w =
    (Ok (mkMRResp 0xCB 0 0 0 [] ([7] ++ requestor ++ reply)), w').
Proof.
  intros Hr E. unfold bench_answers. cbn [mq_Service RequestPath RequestData].
  change (0x4B =? Svc.ReadTag) with false. change (0x4B =? Svc.WriteTag) with false.
  change (0x4B =? Svc.ExecutePCCC) with true. cbv iota. rewrite !app_assoc.
  assert (length ([7] ++ requestor) = 7%nat) as Hl by (unfold len in Hr; rewrite length_app; cbn; lia).
  by rewrite drop_app_length', take_app_length', E by done.
Qed.

Definition speed_path : bytes := AddSymbolicSegment [] (str "Speed").
Definition plant : bench :=
  mkBench {[ speed_path := (CipType.INT, [[1; 0]; [2; 0]; [3; 0]]) ]}
    [(str "Speed", CipType.INT); ([], 0); (str "Level", CipType.REAL)]
    {[ (FileTypeInteger, 7) := [0; 0xFF00; 7; 8] ]}.
End Bench.
#[export] Existing Instances Bench.bench_transport Bench.bench_link Bench.bench_device
  Bench.bench_tag_device Bench.bench_symbol_device Bench.bench_controller.

Lemma tag_write_read_witness :
  exists t1 t2,
    Client_Write (NewClient 2) 3 (Tag (str "Speed") 2) ([0xC3; 0] ++ [9; 0; 8; 0]) Bench.plant =
      Some (Ok tt, t1) /\
    Client_Read (NewClient 2) 3 [Tag (str "Speed") 2] t1 =
      Some (Ok [mkValue (Some (Tag (str "Speed") 2)) [9; 0; 8; 0] TypeInt16 ByteOrderLittleEndian], t2).
Proof.
  destruct (tag_write_read (NewClient 2) 2 (str "Speed") Bench.speed_path 2 CipType.INT
    [[1; 0]; [2; 0]; [3; 0]] [[9; 0]; [8; 0]] tt Bench.plant) as (t1 & t2 & Hw & _ & Hr & _).
  - cbn. lia.
  - exact I.
  - reflexivity.
  - reflexivity.
  - reflexivity.
  - repeat constructor.
  - split; vm_compute; discriminate.
  - decided.
  - reflexivity.
  - exact I.
  - exact I.
  - exists t1, t2. split; [exact Hw|exact Hr].
Defined.
Lemma typed_write_read_witness :
  exists t1 t2,
    WriteTag (NewClient 2) 3 (str "Speed") (GInt16 (-5)) Bench.plant = Some (Ok tt, t1) /\
    ReadT (NewClient 2) 3 (str "Speed") (TBinary (SInt true 2) id) t1 = Some (Ok (VNum (-5)), t2).
Proof.
  destruct (typed_write_read (NewClient 2) 2 (str "Speed") Bench.speed_path (GInt16 (-5)) (SInt true 2)
    (VNum (-5)) CipType.INT [1; 0] [[2; 0]; [3; 0]] tt Bench.plant) as (t1 & t2 & Hw & _ & Hr & _).
  - cbn. lia.
  - exact I.
  - reflexivity.
  - reflexivity.
  - cbn. lia.
  - reflexivity.
  - reflexivity.
  - reflexivity.
  - exact I.
  - exact I.
  - exists t1, t2. split; [exact Hw|exact Hr].
Defined.
Lemma list_tags_complete_witness :
  exists t', ListTags (NewClient 0) 1 Bench.plant =
    Some (Ok [mkSymbol 1 (str "Speed") CipType.INT; mkSymbol 3 (str "Level") CipType.REAL], t').
Proof.
  destruct (list_tags_complete (NewClient 0) 0 tt Bench.plant) as (t' & E & _).
  - cbn. lia.
  - exact I.
  - exact I.
  - intros id _. exact I.
  - exists t'. exact E.
Defined.
Lemma pccc_words_over_cip_witness :
  exists k', WriteWords (pccc_exec (NewClient 1) 1) (str "N7:1") [-1; 300] (PcccClient.NewClient Bench.plant)
      = (Ok tt, k') /\
    fst (ReadWords (pccc_exec (NewClient 1) 1) (str "N7:1") 2 k') = Ok [-1; 300].
Proof.
  destruct (pccc_words_over_cip (H1 := Bench.bench_device) Bench.bench_pccc (NewClient 1) 1 Bench.bench_pccc_object
    ltac:(intros; exact I) ltac:(cbn; lia) tt (str "N7:1") (mkAddr FileTypeInteger 7 1 0 (-1))
    [-1; 300] (PcccClient.NewClient Bench.plant)) as (k' & Hw & _ & _ & Hr).
  - exact I.
  - exact I.
  - reflexivity.
  - reflexivity.
  - repeat constructor; vm_compute; congruence.
  - split; vm_compute; discriminate.
  - vm_compute. discriminate.
  - exists k'. split; [exact Hw|exact Hr].
Defined.
#[local] Instance demo_wire : Wire (Served Device) := Served_Wire adapter no_identity.
Lemma client_end_to_end_witness :
  exists (d d' : @DirectTransport nat (net (Served Device))),
    do (NewClient 0) 1
      (request (NewGetAttributeSingleRequest (BuildPath ClassAssembly 100 3))
         (fun resp => Ok (ResponseData resp))) d = Some (Ok [0; 0], d').
Proof.
  destruct (client_end_to_end adapter no_identity adapter_inv demo_world adapter_safe adapter_fits
    (NewClient 0) 0 41 demo_world [] (NewGetAttributeSingleRequest (BuildPath ClassAssembly 100 3))
    (mkMRResp 0x8E 0 0 0 [] [0; 0]) demo_world) as (d & d' & _ & E & _).
  - cbn. lia.
  - lia.
  - decided.
  - decided.
  - reflexivity.
  - exists d, d'. exact E.
Defined.

(** ** A connection that drops

    The connection answers [left] more requests and then fails until it is reset;
    a reset gives a new connection. *)
Module Dropping.
Record wire_state : Type := mkDrop { left : nat; resets : nat; behind : Bench.bench }.
#[export] Instance drop_transport : Transport unit wire_state := {
  Conn := fun t => (Ok tt, t);
  Reset := fun _ t => mkDrop 100 (S (resets t)) (behind t);
  Close := fun t => (None, t);
  Peek := fun _ => true
}.
#[export] Instance drop_link : SessionLink unit wire_state := {
  sess_SendCIPRequest := fun _ req t =>
    match left t with
    | O => (Err NetClosed, t)
    | S n => let '(r, b) := Bench.bench_answers req (behind t) in (r, mkDrop n (resets t) b)
    end;
  sess_ListIdentity := fun _ t => (Ok [], t);
  sess_ListServices := fun _ t => (Ok [], t)
}.

(** Enumerating tags over a connection that drops after the first symbol
    succeeds with the symbols fetched so far: the connection is neither reset nor
    the enumeration started again, although retries are allowed. *)
Theorem list_tags_truncated :
  ListTags (NewClient 5) 10 (mkDrop 2 0 Bench.plant) =
    Some (Ok [mkSymbol 1 (str "Speed") CipType.INT], mkDrop 0 0 Bench.plant) /\
  ListTags (NewClient 5) 10 (mkDrop 4 0 Bench.plant) =
    Some (Ok [mkSymbol 1 (str "Speed") CipType.INT; mkSymbol 3 (str "Level") CipType.REAL],
          mkDrop 0 0 Bench.plant) /\
  ListTags (NewClient 5) 10 (mkDrop 0 0 Bench.plant) =
    Some (Ok [mkSymbol 1 (str "Speed") CipType.INT; mkSymbol 3 (str "Level") CipType.REAL],
          mkDrop 96 1 Bench.plant).
Proof. repeat split; vm_compute; reflexivity. Qed.
End Dropping.
