(* ===== verification/LuaVM.v ===== *)
(** * The Lua bindings: the interpreter's interface and the helpers

    Models [lua/helpers.go].  The interpreter (the package
    [github.com/iceisfun/golua/v2/vm]) is not part of the repository: [LuaVM] is
    the part of its interface the bindings use, and [LuaLaws] what they rely on,
    which is what Lua's reference manual says of values and tables.  The tables
    that the bindings build are local until they are returned, so [Set] gives the
    changed table back.  A Lua error raised by [luaErrorf] is an [Err]. *)
From S2P Require Import Prelude Bytes.

#[local] Set Warnings "-register-all".

(** Values of type [V] and tables of type [Tb]; floats by their bits. *)
Class LuaVM (V Tb : Type) : Type := {
  IsNil : V -> bool;
  IsBool : V -> bool;
  IsNumber : V -> bool;
  IsInt : V -> bool;
  IsFloat : V -> bool;
  IsString : V -> bool;
  IsTable : V -> bool;
  AsBool : V -> bool;
  AsInt : V -> Z;
  AsFloat : V -> Z;
  AsString : V -> bytes;
  AsTable : V -> Tb;
  NewBool : bool -> V;
  NewInt : Z -> V;
  NewFloat : Z -> V;
  NewString : bytes -> V;
  NewTable : Tb -> V;
  NewEmptyTable : Tb;
  TSet : Tb -> V -> V -> Tb;
  TGet : Tb -> V -> V;
  TLen : Tb -> Z }.

Definition is_i64 (z : Z) : Prop := -9223372036854775808 <= z < 9223372036854775808.

(** The values a constructor makes are of its type only; a table returns what
    was last stored under a key and nil otherwise; the length of a sequence is
    the number of its elements. *)
Class LuaLaws (V Tb : Type) `{LuaVM V Tb} : Prop := {
  bool_law b : IsBool (NewBool b) = true /\ AsBool (NewBool b) = b /\ IsNil (NewBool b) = false /\
    IsInt (NewBool b) = false /\ IsNumber (NewBool b) = false;
  int_law z : is_i64 z -> IsInt (NewInt z) = true /\ IsNumber (NewInt z) = true /\
    AsInt (NewInt z) = z /\ IsNil (NewInt z) = false /\ IsBool (NewInt z) = false;
  float_law b : IsFloat (NewFloat b) = true /\ IsNumber (NewFloat b) = true /\
    AsFloat (NewFloat b) = b /\ IsInt (NewFloat b) = false /\ IsBool (NewFloat b) = false;
  string_law s : IsString (NewString s) = true /\ AsString (NewString s) = s /\
    IsBool (NewString s) = false /\ IsInt (NewString s) = false /\ IsFloat (NewString s) = false /\
    IsNil (NewString s) = false;
  table_law t : IsTable (NewTable t) = true /\ AsTable (NewTable t) = t /\ IsNil (NewTable t) = false;
  get_empty k : IsNil (TGet NewEmptyTable (NewInt k)) = true;
  get_set_eq t k v : IsNil v = false -> TGet (TSet t (NewInt k) v) (NewInt k) = v;
  get_set_ne t k k' v : is_i64 k -> is_i64 k' -> k <> k' ->
    TGet (TSet t (NewInt k) v) (NewInt k') = TGet t (NewInt k');
  len_sequence t n : 0 <= n < 9223372036854775807 ->
    (forall i, 1 <= i <= n -> IsNil (TGet t (NewInt i)) = false) ->
    (forall i, n < i < 9223372036854775808 -> IsNil (TGet t (NewInt i)) = true) -> TLen t = n }.

Section Helpers.
Context {V Tb : Type} `{LuaVM V Tb}.

(** ** Arguments: [args i] is [v.Get(i)] *)
Variable args : Z -> V.

Definition getString (idx : Z) : outcome bytes :=
  if IsString (args idx) then Ok (AsString (args idx))
  else Err (Errorf "bad argument #%d to '%s' (string expected, got %s)").
Definition getInt (idx : Z) : outcome Z :=
  if IsNumber (args idx) then Ok (AsInt (args idx))
  else Err (Errorf "bad argument #%d to '%s' (number expected, got %s)").
Definition getOptInt (idx defaultVal : Z) : Z :=
  if IsNil (args idx) then defaultVal
  else if IsNumber (args idx) then AsInt (args idx) else defaultVal.
Definition getOptString (idx : Z) (defaultVal : bytes) : bytes :=
  if IsNil (args idx) then defaultVal
  else if IsString (args idx) then AsString (args idx) else defaultVal.
Definition getTable (idx : Z) : outcome Tb :=
  if IsTable (args idx) then Ok (AsTable (args idx))
  else Err (Errorf "bad argument #%d to '%s' (table expected, got %s)").

(** ** Fields of a table *)
Definition tableGetString (tbl : Tb) (key : bytes) : bytes :=
  let val := TGet tbl (NewString key) in if IsString val then AsString val else [].
Definition tableGetInt (tbl : Tb) (key : bytes) (defaultVal : Z) : Z :=
  let val := TGet tbl (NewString key) in if IsNumber val then AsInt val else defaultVal.
Definition tableGetFloat (tbl : Tb) (key : bytes) (defaultVal : Z) : Z :=
  let val := TGet tbl (NewString key) in if IsNumber val then AsFloat val else defaultVal.
Definition tableGetBool (tbl : Tb) (key : bytes) (defaultVal : bool) : bool :=
  let val := TGet tbl (NewString key) in if IsBool val then AsBool val else defaultVal.

(** ** Slices and tables

    The loops of [registersToLuaTable] and [boolsToLuaTable], from index [i]. *)
Fixpoint fill_table (i : Z) (vals : list V) (t : Tb) : Tb :=
  match vals with
  | [] => t
  | x :: vals => fill_table (i + 1) vals (TSet t (NewInt (i + 1)) x)
  end.
Definition registersToLuaTable (regs : list Z) : Tb := fill_table 0 (map NewInt regs) NewEmptyTable.
Definition boolsToLuaTable (vals : list bool) : Tb := fill_table 0 (map NewBool vals) NewEmptyTable.
End Helpers.

(** ** Lemmas *)
Section Sequences.
Context {V Tb : Type} `{LuaLaws V Tb}.

Lemma fill_table_get (vals : list V) : forall i t, 0 <= i -> i + len vals < 9223372036854775807 ->
  Forall (fun x => IsNil x = false) vals ->
  (forall k x, vals !! k = Some x -> TGet (fill_table i vals t) (NewInt (i + 1 + Z.of_nat k)) = x) /\
  (forall k, is_i64 k -> k <= i \/ i + len vals < k ->
     TGet (fill_table i vals t) (NewInt k) = TGet t (NewInt k)).
Proof.
  induction vals as [|x vals IH]; intros i t Hi Hl Hv; [done|]. lens.
  apply Forall_cons in Hv as [Hx Hv]. pose proof (len_nonneg vals).
  destruct (IH (i + 1) (TSet t (NewInt (i + 1)) x)) as [Hat Hout]; [lia|lia|done|].
  cbn [fill_table]. split.
  - intros [|k] y; cbn.
    + intros [= <-]. rewrite Z.add_0_r, Hout by (unfold is_i64; lia). by apply get_set_eq.
    + intros E. rewrite <-(Hat k y E). do 2 f_equal. lia.
  - intros k Hk Hr. rewrite Hout by (try done; lia). apply get_set_ne; unfold is_i64 in *; lia.
Qed.

(** A filled table is a sequence. *)
Lemma fill_table_sequence (vals : list V) :
  len vals < 9223372036854775807 -> Forall (fun x => IsNil x = false) vals ->
  let t := fill_table 0 vals NewEmptyTable in
  TLen t = len vals /\
  forall i, 1 <= i <= len vals -> vals !! Z.to_nat (i - 1) = Some (TGet t (NewInt i)).
Proof.
  intros Hl Hv t. destruct (fill_table_get vals 0 NewEmptyTable) as [Hat Hout]; [lia|lia|done|].
  assert (forall i, 1 <= i <= len vals -> vals !! Z.to_nat (i - 1) = Some (TGet t (NewInt i))) as Hget.
  { intros i Hi. destruct (lookup_lt_is_Some_2 vals (Z.to_nat (i - 1))) as [x Ex].
    { unfold len in Hi. lia. }
    rewrite Ex. f_equal. symmetry. rewrite <-(Hat _ _ Ex). unfold t. do 2 f_equal. lia. }
  split; [|done]. pose proof (len_nonneg vals). apply len_sequence; [lia| |].
  - intros i Hi. specialize (Hget i Hi). rewrite Forall_lookup in Hv. by eapply Hv.
  - intros i Hi. unfold t. rewrite Hout by (unfold is_i64; lia). apply get_empty.
Qed.
End Sequences.

(** ** A small interpreter's values

    Values and tables as a concrete data type: the laws can hold. *)
Module MiniLua.
Inductive lval : Type :=
| LNil | LBool (b : bool) | LInt (z : Z) | LFloat (bits : Z) | LStr (s : bytes)
| LTable (kvs : list (lval * lval)).

Definition key_eqb (a b : lval) : bool :=
  match a, b with
  | LInt x, LInt y => x =? y
  | LStr s, LStr s' => bool_decide (s = s')
  | _, _ => false
  end.
Fixpoint get (kvs : list (lval * lval)) (k : lval) : lval :=
  match kvs with
  | [] => LNil
  | (k', v) :: kvs => if key_eqb k' k then v else get kvs k
  end.
Definition is_nil (v : lval) : bool := match v with LNil => true | _ => false end.
(** The first border. *)
Fixpoint border (n : nat) (i : Z) (kvs : list (lval * lval)) : Z :=
  match n with
  | O => i
  | S n => if is_nil (get kvs (LInt (i + 1))) then i else border n (i + 1) kvs
  end.

#[export] Instance mini_vm : LuaVM lval (list (lval * lval)) := {|
  IsNil := is_nil;
  IsBool v := match v with LBool _ => true | _ => false end;
  IsNumber v := match v with LInt _ | LFloat _ => true | _ => false end;
  IsInt v := match v with LInt _ => true | _ => false end;
  IsFloat v := match v with LFloat _ => true | _ => false end;
  IsString v := match v with LStr _ => true | _ => false end;
  IsTable v := match v with LTable _ => true | _ => false end;
  AsBool v := match v with LBool b => b | _ => false end;
  AsInt v := match v with LInt z => z | _ => 0 end;
  AsFloat v := match v with LFloat b => b | _ => 0 end;
  AsString v := match v with LStr s => s | _ => [] end;
  AsTable v := match v with LTable t => t | _ => [] end;
  NewBool := LBool; NewInt := LInt; NewFloat := LFloat; NewString := LStr; NewTable := LTable;
  NewEmptyTable := [];
  TSet t k v := (k, v) :: t;
  TGet := get;
  TLen t := border (length t) 0 t |}.

(** A key that is not nil is one of the stored ones. *)
Lemma get_in kvs i : is_nil (get kvs (LInt i)) = false -> LInt i ∈ kvs.*1.
Proof.
  induction kvs as [|[k v] kvs IH]; [done|]. cbn. destruct (key_eqb k (LInt i)) eqn:E.
  - intros _. destruct k; try done. apply Z.eqb_eq in E as ->. left.
  - intros Hn. right. by apply IH.
Qed.

Lemma border_sequence kvs n : 0 <= n ->
  (forall i, 1 <= i <= n -> is_nil (get kvs (LInt i)) = false) ->
  is_nil (get kvs (LInt (n + 1))) = true ->
  forall fuel i, 0 <= i <= n -> n - i <= Z.of_nat fuel -> border fuel i kvs = n.
Proof.
  intros Hn Hin Hout. induction fuel as [|fuel IH]; intros i Hi Hf; cbn [border]; [lia|].
  destruct (Z.eqb_spec i n) as [->|Hne]; [by rewrite Hout|].
  rewrite Hin by lia. apply IH; lia.
Qed.

Lemma sequence_length kvs n : 0 <= n ->
  (forall i, 1 <= i <= n -> is_nil (get kvs (LInt i)) = false) -> n <= Z.of_nat (length kvs).
Proof.
  intros Hn Hin. set (ks := map (fun i => LInt (Z.of_nat i + 1)) (seq 0 (Z.to_nat n))).
  assert (NoDup ks) as Hnd.
  { apply NoDup_fmap_2; [intros a b [= ?]; lia|apply NoDup_seq]. }
  assert (ks ⊆ kvs.*1) as Hsub.
  { intros k (i & -> & Hi%elem_of_seq)%list_elem_of_fmap. apply get_in, Hin. lia. }
  pose proof (submseteq_length _ _ (NoDup_submseteq _ _ Hnd Hsub)) as Hl.
  unfold ks in Hl. rewrite length_map, length_seq, length_fmap in Hl. lia.
Qed.

#[export] Instance mini_laws : LuaLaws lval (list (lval * lval)).
Proof.
  split; try done.
  - intros t k v Hv. cbn. by rewrite Z.eqb_refl.
  - intros t k k' v _ _ Hne. cbn. by rewrite (proj2 (Z.eqb_neq k k') Hne).
  - intros t n Hn Hin Hout. cbn in *. apply border_sequence; try lia; [done|apply Hout; lia|].
    pose proof (sequence_length t n ltac:(lia) Hin). lia.
Qed.
End MiniLua.
