(* ===== verification/LuaModbus.v ===== *)
(** * The Lua binding of the Modbus client

    Models [lua/modbus.go]: the conversions between Lua tables and slices of
    registers and coils, the options of [modbus.connect] and every method of the
    client object, as functions of the interpreter's stack that run the
    operations of [ModbusClient].  A method returns the value it leaves on the
    stack, if any.  Of the options, the two durations (floating-point seconds)
    are left out. *)
From S2P Require Import Prelude Bytes ModbusTypes ModbusFrame ModbusProtocol ModbusStore.
From S2P Require Import ModbusHandlers ModbusSpec Transport Plc ModbusClient Floats LuaVM.

Section Tables.
Context {V Tb : Type} `{LuaVM V Tb}.

(** The loop of [luaTableToRegisters]: [n] elements left, from index [i]. *)
Fixpoint table_registers (n : nat) (i : Z) (tbl : Tb) : outcome (list Z) :=
  match n with
  | O => Ok []
  | S n =>
      let val := TGet tbl (NewInt i) in
      if negb (IsNumber val) then Err (Errorf "table element %d: number expected, got %s") else
      rest ← table_registers n (i + 1) tbl;
      Ok (u16 (AsInt val) :: rest)
  end.
Definition luaTableToRegisters (tbl : Tb) : outcome (list Z) :=
  if TLen tbl <=? 0 then Err (Errorf "expected a non-empty table of register values")
  else table_registers (Z.to_nat (TLen tbl)) 1 tbl.

Fixpoint table_coils (n : nat) (i : Z) (tbl : Tb) : outcome (list bool) :=
  match n with
  | O => Ok []
  | S n =>
      let val := TGet tbl (NewInt i) in
      if negb (IsBool val) then Err (Errorf "table element %d: boolean expected, got %s") else
      rest ← table_coils n (i + 1) tbl;
      Ok (AsBool val :: rest)
  end.
Definition luaTableToCoils (tbl : Tb) : outcome (list bool) :=
  if TLen tbl <=? 0 then Err (Errorf "expected a non-empty table of boolean values")
  else table_coils (Z.to_nat (TLen tbl)) 1 tbl.
End Tables.

(** An error of the client becomes a Lua error with its message. *)
Definition lua_error {S A} (fmt : string) (m : SM S A) : SM S A := fun s =>
  match m s with (Err _, s) => (Err (Errorf fmt), s) | r => r end.

Section Methods.
Context {V Tb : Type} `{LuaVM V Tb}.
Context {C T : Type} `{Transport C T} `{Link C T}.
Variable c : Client.
Variable now : Z.
(** The stack: index 1 is the client table itself. *)
Variable args : Z -> V.

(** [modbus.connect]: the address, the port and the client's configuration. *)
Definition modbusConnect_opts : outcome (bytes * Z * Client) :=
  addr ← getString args 1;
  let '(port, unit, retries) :=
    if IsTable (args 2) then
      let opts := AsTable (args 2) in
      (tableGetInt opts (str "port") 502, tableGetInt opts (str "unit") 1,
       tableGetInt opts (str "retries") 0)
    else (502, 1, 0) in
  Ok (addr, port, mkClientCfg (u8 unit) retries).

Definition lua_read_registers (op : Z -> Z -> SM T (list Z)) (fmt : string) : SM T (option V) :=
  address ← pure (getInt args 2);
  quantity ← pure (getInt args 3);
  regs ← lua_error fmt (op (u16 address) (u16 quantity));
  mret (Some (NewTable (registersToLuaTable regs))).
Definition lua_read_holding_registers : SM T (option V) :=
  lua_read_registers (Client_ReadHoldingRegisters c now) "read_holding_registers: %s".
Definition lua_read_input_registers : SM T (option V) :=
  lua_read_registers (Client_ReadInputRegisters c now) "read_input_registers: %s".

Definition lua_read_bits (op : Z -> Z -> SM T (list bool)) (fmt : string) : SM T (option V) :=
  address ← pure (getInt args 2);
  quantity ← pure (getInt args 3);
  vals ← lua_error fmt (op (u16 address) (u16 quantity));
  mret (Some (NewTable (boolsToLuaTable vals))).
Definition lua_read_coils : SM T (option V) :=
  lua_read_bits (Client_ReadCoils c now) "read_coils: %s".
Definition lua_read_discrete_inputs : SM T (option V) :=
  lua_read_bits (Client_ReadDiscreteInputs c now) "read_discrete_inputs: %s".

Definition lua_write_register : SM T (option V) :=
  address ← pure (getInt args 2);
  value ← pure (getInt args 3);
  _ ← lua_error "write_register: %s" (Client_WriteSingleRegister c now (u16 address) (u16 value));
  mret None.
Definition lua_write_registers : SM T (option V) :=
  address ← pure (getInt args 2);
  tbl ← pure (getTable args 3);
  values ← pure (luaTableToRegisters tbl);
  _ ← lua_error "write_registers: %s" (Client_WriteMultipleRegisters c now (u16 address) values);
  mret None.
Definition lua_write_coil : SM T (option V) :=
  address ← pure (getInt args 2);
  if negb (IsBool (args 3))
  then pure (Err (Errorf "bad argument #2 to 'client:write_coil' (boolean expected)")) else
  _ ← lua_error "write_coil: %s" (Client_WriteSingleCoil c now (u16 address) (AsBool (args 3)));
  mret None.
Definition lua_write_coils : SM T (option V) :=
  address ← pure (getInt args 2);
  tbl ← pure (getTable args 3);
  values ← pure (luaTableToCoils tbl);
  _ ← lua_error "write_coils: %s" (Client_WriteMultipleCoils c now (u16 address) values);
  mret None.
Definition lua_read_write_registers : SM T (option V) :=
  readAddr ← pure (getInt args 2);
  readQty ← pure (getInt args 3);
  writeAddr ← pure (getInt args 4);
  tbl ← pure (getTable args 5);
  writeValues ← pure (luaTableToRegisters tbl);
  regs ← lua_error "read_write_registers: %s"
    (Client_ReadWriteMultipleRegisters c now (u16 readAddr) (u16 readQty) (u16 writeAddr) writeValues);
  mret (Some (NewTable (registersToLuaTable regs))).

Definition lua_read_device_id : SM T (option V) :=
  devID ← lua_error "read_device_id: %s"
    (Client_ReadDeviceIdentification c now ReadDeviceIDBasicStream DeviceIDVendorName);
  let result := TSet NewEmptyTable (NewString (str "vendor_name")) (NewString (Handler.GetVendorName devID)) in
  let result := TSet result (NewString (str "product_code")) (NewString (Handler.GetProductCode devID)) in
  let result := TSet result (NewString (str "revision")) (NewString (Handler.GetRevision devID)) in
  mret (Some (NewTable result)).

(** Two registers as one big-endian word. *)
Definition join_registers (high low : Z) : Z :=
  be_uint [u8 (Z.shiftr high 8); u8 high; u8 (Z.shiftr low 8); u8 low].
Definition lua_to_int32 : outcome V :=
  high ← getInt args 2;
  low ← getInt args 3;
  Ok (NewInt (i32 (join_registers (u16 high) (u16 low)))).
Definition lua_to_float32 : outcome V :=
  high ← getInt args 2;
  low ← getInt args 3;
  Ok (NewFloat (widen (join_registers (u16 high) (u16 low)))).

Definition lua_close : SM T (option V) :=
  _ ← lua_error "close: %s" Client_Disconnect; mret None.
End Methods.

(** ** Lemmas *)
Section TableLemmas.
Context {V Tb : Type} `{LuaLaws V Tb}.

(** What a table holds, read back element by element. *)
Lemma table_registers_of tbl n : forall i vs, length vs = n ->
  (forall k v, vs !! k = Some v -> TGet tbl (NewInt (i + Z.of_nat k)) = NewInt v) -> Forall is_i64 vs ->
  table_registers n i tbl = Ok (map u16 vs).
Proof.
  induction n as [|n IH]; intros i vs Hl Hg Hv; destruct vs as [|v vs]; try done.
  apply Forall_cons in Hv as [Hv Hvs]. cbn [table_registers].
  pose proof (Hg 0%nat v eq_refl) as H0'. rewrite Z.add_0_r in H0'. rewrite H0'.
  destruct (int_law v Hv) as (_ & -> & -> & _). cbn [negb]. rewrite (IH (i + 1) vs); [done|by injection Hl| |done].
  intros k w Ek. rewrite <-(Hg (S k) w Ek). do 2 f_equal. lia.
Qed.
Lemma table_coils_of tbl n : forall i vs, length vs = n ->
  (forall k v, vs !! k = Some v -> TGet tbl (NewInt (i + Z.of_nat k)) = NewBool v) ->
  table_coils n i tbl = Ok vs.
Proof.
  induction n as [|n IH]; intros i vs Hl Hg; destruct vs as [|v vs]; try done. cbn [table_coils].
  pose proof (Hg 0%nat v eq_refl) as H0'. rewrite Z.add_0_r in H0'. rewrite H0'.
  destruct (bool_law v) as (-> & -> & _). cbn [negb]. rewrite (IH (i + 1) vs); [done|by injection Hl|].
  intros k w Ek. rewrite <-(Hg (S k) w Ek). do 2 f_equal. lia.
Qed.

Lemma map_sequence {A} (f : A -> V) (vs : list A) :
  len vs < 9223372036854775807 -> (forall v, v ∈ vs -> IsNil (f v) = false) ->
  TLen (fill_table 0 (map f vs) NewEmptyTable) = len vs /\
  forall k v, vs !! k = Some v ->
    TGet (fill_table 0 (map f vs) NewEmptyTable) (NewInt (1 + Z.of_nat k)) = f v.
Proof.
  intros Hl Hn. assert (len (map f vs) = len vs) as Hlen by (unfold len; by rewrite length_map).
  destruct (fill_table_sequence (map f vs)) as [Ht Hg]; [lia| |].
  { apply Forall_map, Forall_forall. exact Hn. }
  split; [lia|]. intros k v Ek. pose proof (lookup_lt_Some _ _ _ Ek).
  specialize (Hg (1 + Z.of_nat k)). replace (Z.to_nat (1 + Z.of_nat k - 1)) with k in Hg by lia.
  assert (map f vs !! k = Some (f v)) as Em by (change (f <$> vs) with (map f vs); rewrite list_lookup_fmap, Ek; done).
  rewrite Em in Hg. symmetry. apply (inj Some), Hg. unfold len in *. lia.
Qed.

Lemma u16_i64 v : is_u16 v -> is_i64 v.
Proof. unfold is_i64. widths. lia. Qed.

Lemma registers_table regs :
  len regs < 9223372036854775807 -> Forall is_u16 regs ->
  TLen (registersToLuaTable (Tb := Tb) regs) = len regs /\
  forall k v, regs !! k = Some v ->
    TGet (registersToLuaTable (Tb := Tb) regs) (NewInt (1 + Z.of_nat k)) = NewInt v.
Proof.
  intros Hl Hv. apply map_sequence; [done|]. intros v Hin. rewrite Forall_forall in Hv.
  by destruct (int_law v (u16_i64 v (Hv v Hin))) as (_ & _ & _ & ? & _).
Qed.

Lemma registers_back regs :
  regs <> [] -> len regs < 9223372036854775807 -> Forall is_u16 regs ->
  luaTableToRegisters (registersToLuaTable (Tb := Tb) regs) = Ok regs.
Proof.
  intros Hne Hl Hv. destruct (registers_table regs Hl Hv) as [Ht Hg].
  unfold luaTableToRegisters. rewrite Ht. assert (0 < len regs).
  { destruct regs; [done|]. lens. pose proof (len_nonneg regs). lia. }
  rewrite (proj2 (Z.leb_gt _ _)) by lia.
  rewrite (table_registers_of _ _ 1 regs); [|unfold len; lia|done|by eapply Forall_impl, u16_i64].
  f_equal. rewrite <-(map_id regs) at 2. apply map_ext_in. intros v Hin%list_elem_of_In.
  rewrite Forall_forall in Hv. apply u16_small. by apply Hv.
Qed.

Lemma coils_back vals :
  vals <> [] -> len vals < 9223372036854775807 ->
  luaTableToCoils (boolsToLuaTable (Tb := Tb) vals) = Ok vals.
Proof.
  intros Hne Hl. destruct (map_sequence NewBool vals Hl) as [Ht Hg].
  { intros b _. by destruct (bool_law b) as (_ & _ & ? & _). }
  unfold luaTableToCoils, boolsToLuaTable. rewrite Ht. assert (0 < len vals).
  { destruct vals; [done|]. lens. pose proof (len_nonneg vals). lia. }
  rewrite (proj2 (Z.leb_gt _ _)) by lia. apply table_coils_of; [unfold len; lia|done].
Qed.

Lemma getInt_int (args : Z -> V) i z : args i = NewInt z -> is_i64 z -> getInt args i = Ok z.
Proof. intros E Hz. unfold getInt. rewrite E. by destruct (int_law z Hz) as (_ & -> & -> & _). Qed.
Lemma getTable_table (args : Z -> V) i t : args i = NewTable t -> getTable args i = Ok t.
Proof. intros E. unfold getTable. rewrite E. by destruct (table_law t) as (-> & -> & _). Qed.
End TableLemmas.

Lemma lua_error_Ok {S A} fmt (m : SM S A) s a s' : m s = (Ok a, s') -> lua_error fmt m s = (Ok a, s').
Proof. intros E. unfold lua_error. by rewrite E. Qed.

(** ** Properties *)
Section Properties.
Context {V Tb : Type} `{LuaLaws V Tb}.
Context {C T : Type} `{DeviceLink C T}.

(** Slices and tables.  A non-empty slice of registers or coils turned into a
    Lua table is a sequence with those elements, and turning that table back
    gives the slice. *)
Theorem lua_tables_roundtrip regs vals :
  regs <> [] -> vals <> [] -> len regs < 65536 -> len vals < 65536 -> Forall is_u16 regs ->
  TLen (registersToLuaTable (Tb := Tb) regs) = len regs /\
  (forall k v, regs !! k = Some v ->
     TGet (registersToLuaTable (Tb := Tb) regs) (NewInt (1 + Z.of_nat k)) = NewInt v) /\
  luaTableToRegisters (registersToLuaTable (Tb := Tb) regs) = Ok regs /\
  luaTableToCoils (boolsToLuaTable (Tb := Tb) vals) = Ok vals.
Proof.
  intros Hr Hv Hlr Hlv Hu. destruct (registers_table regs) as [Ht Hg]; [lia|done|].
  split; [done|]. split; [done|]. split; [apply registers_back|apply coils_back]; try done; lia.
Qed.

Lemma join_registers_spec high low :
  is_u16 high -> is_u16 low -> join_registers high low = high * 65536 + low.
Proof.
  intros Hh Hl. unfold join_registers, be_uint. cbn [reverse rev_append le_uint].
  unfold u8. rewrite !Z.shiftr_div_pow2 by lia. change (2 ^ 8) with 256. widths. cbn. dlia.
Qed.

(** A Lua script writes registers and reads them back.  Over any link to a
    device, [client:write_registers(addr, {v1, ..., vn})] followed by
    [client:read_holding_registers(addr, n)] leaves the values in the device and
    returns a table with the same elements: the conversions between Lua and
    Modbus, the client and the device fit together. *)
Theorem lua_write_read (c : Client) now args args' a regs tbl t :
  0 <= retries c -> link_ok t -> is_u16 a -> Forall is_u16 regs ->
  0 < len regs <= MaxWriteRegisterCount ->
  args 2 = NewInt a -> args 3 = NewTable tbl -> tbl = registersToLuaTable regs ->
  args' 2 = NewInt a -> args' 3 = NewInt (len regs) ->
  exists t1 t2,
    lua_write_registers (V := V) (Tb := Tb) c now args t = (Ok None, t1) /\
    device t1 ≡ write_holding (device t) a regs /\
    lua_read_holding_registers (V := V) (Tb := Tb) c now args' t1 = (Ok (Some (NewTable tbl)), t2).
Proof.
  intros Hr Ht Ha Hv Hl E2 E3 -> E2' E3'. unfold MaxWriteRegisterCount in Hl.
  assert (u16 a = a) as Hua by (by apply u16_small).
  assert (u16 (len regs) = len regs) as Hul by (apply u16_small; widths; lia).
  destruct (WriteMultipleRegisters_device c now Hr a regs t) as (t1 & E & Ht1 & Hd); [done|done|done|done|].
  destruct (ReadHoldingRegisters_device c now Hr a (len regs) t1) as (t2 & E' & _);
    [done|unfold MaxRegisterCount; lia|done|].
  exists t1, t2. split; [|split; [exact Hd|]].
  - unfold lua_write_registers. rewrite (getInt_int _ _ a E2) by (by apply u16_i64).
    rewrite SM_bind_pure_Ok, (getTable_table _ _ _ E3), SM_bind_pure_Ok.
    rewrite registers_back; [|by destruct regs|lia|done]. rewrite SM_bind_pure_Ok, Hua.
    by rewrite (SM_bind_Ok _ _ _ _ _ (lua_error_Ok _ _ _ _ _ E)).
  - unfold lua_read_holding_registers, lua_read_registers.
    rewrite (getInt_int _ _ a E2') by (by apply u16_i64). rewrite SM_bind_pure_Ok.
    rewrite (getInt_int _ _ (len regs) E3') by (unfold is_i64; lia). rewrite SM_bind_pure_Ok, Hua, Hul.
    rewrite (SM_bind_Ok _ _ _ _ _ (lua_error_Ok _ _ _ _ _ E')). unfold mret, SM_ret. do 4 f_equal.
    rewrite (cells_ext _ (write_cells (holding (device t)) a regs)) by (intros x Hx; apply (Hd x Hx)).
    by rewrite cells_write_same by lia.
Qed.

(** C37: Numbers out of range are not refused.  [client:write_register(addr, v)]
    with any two Lua integers succeeds on a healthy link and writes the low 16
    bits of the value to the low 16 bits of the address, so an address or a value
    that does not fit in a register writes something else somewhere else. *)
Theorem lua_write_wraps (c : Client) now args a v t :
  0 <= retries c -> link_ok t -> is_i64 a -> is_i64 v ->
  args 2 = NewInt a -> args 3 = NewInt v ->
  exists t1, lua_write_register (V := V) (Tb := Tb) c now args t = (Ok None, t1) /\
    device t1 ≡ write_holding (device t) (u16 a) [u16 v].
Proof.
  intros Hr Ht Ha Hv E2 E3.
  destruct (WriteSingleRegister_device c now Hr (u16 a) (u16 v) t) as (t1 & E & Ht1 & Hd);
    [auto with go|auto with go|done|].
  exists t1. split; [|exact Hd]. unfold lua_write_register.
  rewrite (getInt_int _ _ a E2) by done. rewrite SM_bind_pure_Ok.
  rewrite (getInt_int _ _ v E3) by done. rewrite SM_bind_pure_Ok.
  by rewrite (SM_bind_Ok _ _ _ _ _ (lua_error_Ok _ _ _ _ _ E)).
Qed.

(** [client:to_int32(high, low)] is the signed 32-bit number with those two
    registers as its high and low half. *)
Theorem to_int32_spec args high low :
  is_u16 high -> is_u16 low -> args 2 = NewInt high -> args 3 = NewInt low ->
  lua_to_int32 (V := V) (Tb := Tb) args =
    Ok (NewInt (if high <? 32768 then high * 65536 + low else high * 65536 + low - 4294967296)).
Proof.
  intros Hh Hl E2 E3. unfold lua_to_int32.
  rewrite (getInt_int _ _ high E2), (getInt_int _ _ low E3) by (by apply u16_i64). go_bind.
  rewrite !u16_small by done. rewrite join_registers_spec by done. do 2 f_equal. unfold i32.
  widths. destruct (Z.ltb_spec high 32768); dlia.
Qed.
End Properties.

(** ** Witnesses *)
Import MiniLua.
Definition stack (l : list lval) (i : Z) : lval := default LNil (l !! Z.to_nat (i - 1)).

Lemma lua_tables_roundtrip_witness :
  luaTableToRegisters (V := lval) (registersToLuaTable [7; 65535]) = Ok [7; 65535].
Proof.
  apply (lua_tables_roundtrip (V := lval) [7; 65535] [true]); try done. decided.
Defined.

Lemma lua_write_read_witness :
  exists t1 t2,
    @lua_write_registers lval _ _ unit MemoryStore served_transport served_link (mkClientCfg 1 0) 0
      (stack [LNil; LInt 5; LTable (registersToLuaTable [7; 8])]) NewMemoryStore = (Ok None, t1) /\
    @lua_read_holding_registers lval _ _ unit MemoryStore served_transport served_link (mkClientCfg 1 0) 0
      (stack [LNil; LInt 5; LInt 2]) t1 = (Ok (Some (LTable (registersToLuaTable [7; 8]))), t2).
Proof.
  destruct (@lua_write_read lval _ _ _ unit MemoryStore served_transport served_link served_device
    (mkClientCfg 1 0) 0 (stack [LNil; LInt 5; LTable (registersToLuaTable [7; 8])])
    (stack [LNil; LInt 5; LInt 2]) 5 [7; 8] (registersToLuaTable [7; 8]) NewMemoryStore)
    as (t1 & t2 & Hw & _ & Hr).
  - done.
  - split; apply map_Forall_empty.
  - decided.
  - decided.
  - done.
  - reflexivity.
  - reflexivity.
  - reflexivity.
  - reflexivity.
  - reflexivity.
  - exists t1, t2. split; [exact Hw|exact Hr].
Defined.

Lemma lua_write_wraps_witness :
  exists t1, @lua_write_register lval _ _ unit MemoryStore served_transport served_link
      (mkClientCfg 1 0) 0 (stack [LNil; LInt 65541; LInt (-1)]) NewMemoryStore = (Ok None, t1) /\
    view t1 ≡ write_holding (view NewMemoryStore) 5 [65535].
Proof.
  apply (@lua_write_wraps lval _ _ _ unit MemoryStore served_transport served_link served_device
    (mkClientCfg 1 0) 0 (stack [LNil; LInt 65541; LInt (-1)]) 65541 (-1) NewMemoryStore).
  - done.
  - split; apply map_Forall_empty.
  - done.
  - done.
  - reflexivity.
  - reflexivity.
Defined.

Lemma to_int32_spec_witness :
  lua_to_int32 (stack [LNil; LInt 65535; LInt 65534]) = Ok (LInt (-2)).
Proof.
  exact (to_int32_spec (V := lval) (stack [LNil; LInt 65535; LInt 65534]) 65535 65534
    ltac:(decided) ltac:(decided) eq_refl eq_refl).
Defined.
