(* ===== verification/LuaEip.v ===== *)
(** * The Lua binding of the EtherNet/IP client

    Models [lua/ethernetip.go]: what a tag's data is as a Lua value, what Go
    value a Lua value is written as (with and without a type hint), the options
    of [eip.connect] and the methods of the client object, over the operations of
    [EipClient].  Floats are bit patterns, converted by [Floats]. *)
From S2P Require Import Prelude Bytes Transport Plc EipCodec Cip Pccc PcccClient CipTags EipClient.
From S2P Require Import CipTypes EipPlant Floats LuaVM.

Definition TypeBYTE : Z := 0x00D1.
Definition TypeWORD : Z := 0x00D2.
Definition TypeDWORD : Z := 0x00D3.
Definition TypeLWORD : Z := 0x00D4.

Section Values.
Context {V Tb : Type} `{LuaVM V Tb}.

(** The first [n] bytes of the payload as a number, given to [k]; the fallback
    when there are fewer. *)
Definition with_uint (n : Z) (payload : bytes) (k : Z -> V) (fallback : V) : outcome V :=
  if n <=? len payload then b ← go_slice payload 0 n; Ok (k (le_uint b)) else Ok fallback.

(** The [switch] on the type code. *)
Definition cip_value (typeCode : Z) (payload : bytes) : outcome V :=
  let fallback := NewString (str "raw[0x" ++ str (hex4 typeCode) ++ str "](" ++
                             itoa (len payload) ++ str " bytes)") in
  if typeCode =? CipType.BOOL then with_uint 1 payload (fun v => NewBool (negb (v =? 0))) fallback
  else if typeCode =? CipType.SINT then with_uint 1 payload (fun v => NewInt (signed 8 v)) fallback
  else if typeCode =? CipType.INT then with_uint 2 payload (fun v => NewInt (signed 16 v)) fallback
  else if typeCode =? CipType.DINT then with_uint 4 payload (fun v => NewInt (signed 32 v)) fallback
  else if typeCode =? CipType.LINT then with_uint 8 payload (fun v => NewInt (signed 64 v)) fallback
  else if (typeCode =? CipType.USINT) || (typeCode =? TypeBYTE) then with_uint 1 payload NewInt fallback
  else if (typeCode =? CipType.UINT) || (typeCode =? TypeWORD) then with_uint 2 payload NewInt fallback
  else if (typeCode =? CipType.UDINT) || (typeCode =? TypeDWORD) then with_uint 4 payload NewInt fallback
  else if (typeCode =? CipType.ULINT) || (typeCode =? TypeLWORD)
  then with_uint 8 payload (fun v => NewInt (signed 64 v)) fallback
  else if typeCode =? CipType.REAL then with_uint 4 payload (fun v => NewFloat (widen v)) fallback
  else if typeCode =? CipType.LREAL then with_uint 8 payload NewFloat fallback
  else if typeCode =? CipType.STRING then
    if 2 <=? len payload then
      b ← go_slice payload 0 2;
      let strLen := le_uint b in
      if 2 + strLen <=? len payload
      then s ← go_slice payload 2 (2 + strLen); Ok (NewString s)
      else Ok fallback
    else Ok fallback
  else Ok fallback.

Definition cipDataToLuaValue (data : bytes) : outcome V :=
  if len data <? 2 then Ok (NewString data) else
  typeCode ← type_code data;
  let hdrLen := header_len typeCode in
  if len data <? hdrLen then Ok (NewString data) else
  payload ← go_slice data hdrLen (len data);
  cip_value typeCode payload.

(** [strings.ToUpper], as far as a comparison with an ASCII string can tell: the
    dotless i and the long s are the only other runes with an ASCII upper case. *)
Fixpoint ToUpper (s : bytes) : bytes :=
  match s with
  | 196 :: 177 :: s => 73 :: ToUpper s
  | 197 :: 191 :: s => 83 :: ToUpper s
  | x :: s => (if (97 <=? x) && (x <=? 122) then x - 32 else x) :: ToUpper s
  | [] => []
  end.

(** The type names of the hints. *)
Inductive hint_type : Type :=
| HBOOL | HSINT | HINT | HDINT | HLINT | HUSINT | HUINT | HUDINT | HULINT | HREAL | HLREAL | HSTRING.
Definition hint_names : list (string * hint_type) :=
  [("BOOL", HBOOL); ("SINT", HSINT); ("INT", HINT); ("DINT", HDINT); ("LINT", HLINT);
   ("USINT", HUSINT); ("UINT", HUINT); ("UDINT", HUDINT); ("ULINT", HULINT); ("REAL", HREAL);
   ("LREAL", HLREAL); ("STRING", HSTRING)]%string.
Definition parse_hint (hint : bytes) : option hint_type :=
  (fun x => x.2.2) <$> list_find (fun nh => str nh.1 = ToUpper hint) hint_names.

Definition luaValueWithTypeHint (val : V) (hint : bytes) : outcome GoValue :=
  match parse_hint hint with
  | Some HBOOL => Ok (GBool (if IsBool val then AsBool val else negb (AsInt val =? 0)))
  | Some HSINT => Ok (GInt8 (signed 8 (AsInt val)))
  | Some HINT => Ok (GInt16 (signed 16 (AsInt val)))
  | Some HDINT => Ok (GInt32 (signed 32 (AsInt val)))
  | Some HLINT => Ok (GInt64 (AsInt val))
  | Some HUSINT => Ok (GUint8 (u8 (AsInt val)))
  | Some HUINT => Ok (GUint16 (u16 (AsInt val)))
  | Some HUDINT => Ok (GUint32 (u32 (AsInt val)))
  | Some HULINT => Ok (GUint64 (u64 (AsInt val)))
  | Some HREAL => Ok (GFloat32 (narrow (AsFloat val)))
  | Some HLREAL => Ok (GFloat64 (AsFloat val))
  | Some HSTRING => Ok (GString (AsString val))
  | None => Err (Errorf "write_tag: unknown CIP type %q")
  end.

Definition luaValueToGoForWrite (val : V) (typeHint : bytes) : outcome GoValue :=
  if negb (bool_decide (typeHint = [])) then luaValueWithTypeHint val typeHint
  else if IsBool val then Ok (GBool (AsBool val))
  else if IsInt val then Ok (GInt32 (signed 32 (AsInt val)))
  else if IsFloat val then Ok (GFloat32 (narrow (AsFloat val)))
  else if IsString val then Ok (GString (AsString val))
  else Err (Errorf "write_tag: unsupported Lua type %s").
End Values.

(** An error of the client becomes a Lua error. *)
Definition lua_run_error {T A} (fmt : string) (m : Run T A) : Run T A := fun t =>
  match m t with Some (Err _, t) => Some (Err (Errorf fmt), t) | r => r end.

Section Methods.
Context {V Tb : Type} `{LuaVM V Tb}.
Context {C T : Type} `{Transport C T} `{SessionLink C T}.
Variable c : Client.
Variable fuel : nat.
Variable args : Z -> V.

(** [eip.connect]: the address and the number of retries. *)
Definition eipConnect_opts : outcome (bytes * Client) :=
  addr ← getString args 1;
  let retries := if IsTable (args 2) then tableGetInt (AsTable (args 2)) (str "retries") 0 else 0 in
  Ok (addr, NewClient retries).

Definition lua_read_tag : Run T (option V) :=
  tagName ← local (getString args 2);
  data ← lua_run_error "read_tag(%q): %s" (ReadTag c fuel tagName);
  v ← local (cipDataToLuaValue data);
  mret (Some v).

Definition lua_read_tag_raw : Run T (option V) :=
  tagName ← local (getString args 2);
  let count := u16 (getOptInt args 3 1) in
  data ← lua_run_error "read_tag_raw(%q): %s" (ReadTagElements c fuel tagName count);
  mret (Some (NewString data)).

(** The loop of [read_tags]: [n] names left, from index [i]. *)
Fixpoint read_tags_loop (n : nat) (i : Z) (tbl result : Tb) : Run T Tb :=
  match n with
  | O => mret result
  | S n =>
      let tagVal := TGet tbl (NewInt i) in
      if negb (IsString tagVal)
      then local (Err (Errorf "read_tags: element %d must be a string tag name")) else
      data ← lua_run_error "read_tags(%q): %s" (ReadTag c fuel (AsString tagVal));
      v ← local (cipDataToLuaValue data);
      read_tags_loop n (i + 1) tbl (TSet result (NewInt i) v)
  end.
Definition lua_read_tags : Run T (option V) :=
  tbl ← local (getTable args 2);
  result ← read_tags_loop (Z.to_nat (TLen tbl)) 1 tbl NewEmptyTable;
  mret (Some (NewTable result)).

Definition lua_write_tag : Run T (option V) :=
  tagName ← local (getString args 2);
  let luaVal := args 3 in
  let typeHint := getOptString args 4 [] in
  goVal ← local (luaValueToGoForWrite luaVal typeHint);
  _ ← lua_run_error "write_tag(%q): %s" (WriteTag c fuel tagName goVal);
  mret None.

(** Fields set one after the other. *)
Definition set_fields (fields : list (string * V)) : Tb :=
  fold_left (fun t kv => TSet t (NewString (str kv.1)) kv.2) fields NewEmptyTable.

Definition lua_read_timer : Run T (option V) :=
  tagName ← local (getString args 2);
  timer ← lua_run_error "read_timer(%q): %s" (ReadTimer c fuel tagName);
  mret (Some (NewTable (set_fields
    [("pre", NewInt (Logix.PRE timer)); ("acc", NewInt (Logix.ACC timer));
     ("en", NewBool (Logix.EN timer)); ("tt", NewBool (Logix.TT timer));
     ("dn", NewBool (Logix.DN timer))]))).

Definition lua_read_counter : Run T (option V) :=
  tagName ← local (getString args 2);
  data ← lua_run_error "read_counter(%q): %s" (ReadTag c fuel tagName);
  if len data <? 2 then local (Err (Errorf "read_counter(%q): response too short")) else
  typeCode ← local (type_code data);
  if len data <? header_len typeCode
  then local (Err (Errorf "read_counter(%q): response too short for header")) else
  payload ← local (go_slice data (header_len typeCode) (len data));
  counter ← lua_run_error "read_counter(%q): %s" (local (Logix.DecodeCounter payload));
  mret (Some (NewTable (set_fields
    [("pre", NewInt (Logix.c_PRE counter)); ("acc", NewInt (Logix.c_ACC counter));
     ("cu", NewBool (Logix.CU counter)); ("cd", NewBool (Logix.CD counter));
     ("dn", NewBool (Logix.c_DN counter)); ("ov", NewBool (Logix.OV counter));
     ("un", NewBool (Logix.UN counter))]))).

Definition symbol_entry (tag : SymbolInstance) : V :=
  NewTable (set_fields [("id", NewInt (InstanceID tag)); ("name", NewString (Name tag));
                        ("type", NewInt (sy_Type tag))]).
Definition lua_list_tags : Run T (option V) :=
  tags ← lua_run_error "list_tags: %s" (ListTags c fuel);
  mret (Some (NewTable (fill_table 0 (map symbol_entry tags) NewEmptyTable))).

Definition lua_eip_close : Run T (option V) := fun t =>
  match Client_Disconnect t with
  | (Some _, t) => Some (Err (Errorf "close: %s"), t)
  | (None, t) => Some (Ok None, t)
  end.
End Methods.

(** ** Lemmas *)
Section Lemmas.
Context {V Tb : Type} `{LuaLaws V Tb}.

Lemma with_uint_le w x (k : Z -> V) fallback :
  with_uint (Z.of_nat w) (le_bytes w x) k fallback = Ok (k (x mod 2 ^ (8 * Z.of_nat w))).
Proof.
  pose proof (length_cip_bytes w x) as Hl. unfold with_uint.
  assert (len (le_bytes w x) = Z.of_nat w) as Hl' by (unfold len; lia).
  rewrite (proj2 (Z.leb_le _ _)) by lia. rewrite <-(app_nil_r (le_bytes w x)) at 1.
  rewrite go_slice_prefix by lia. go_bind. by rewrite le_uint_bytes.
Qed.

Lemma cip_atomic dt payload :
  is_u16 dt -> dt < CipType.STRUCT -> cipDataToLuaValue (le16 dt ++ payload) = cip_value dt payload.
Proof.
  intros Hd Hs. unfold cipDataToLuaValue. pose proof (len_nonneg payload).
  rewrite (proj2 (Z.ltb_ge _ _)) by (lens; lia). rewrite type_code_le16 by done. go_bind.
  assert (header_len dt = 2) as ->.
  { unfold header_len. by rewrite (proj2 (Z.leb_gt _ _) Hs). }
  rewrite (proj2 (Z.ltb_ge _ _)) by (lens; lia). by rewrite go_slice_suffix by (lens; lia).
Qed.

Lemma lua_signed_range bits z : 0 < bits -> - 2 ^ (bits - 1) <= signed bits z < 2 ^ (bits - 1).
Proof.
  intros Hb. unfold signed. assert (2 ^ bits = 2 * 2 ^ (bits - 1)) as E.
  { rewrite <-Z.pow_succ_r by lia. f_equal. lia. }
  pose proof (Z.mod_pos_bound (z + 2 ^ (bits - 1)) (2 ^ bits)) as Hm.
  assert (0 < 2 ^ (bits - 1)) by (apply Z.pow_pos_nonneg; lia). lia.
Qed.
Lemma signed_twice bits z : 0 < bits -> signed bits (signed bits z mod 2 ^ bits) = signed bits z.
Proof. intros Hb. apply cip_signed_mod; [done|]. by apply lua_signed_range. Qed.

Lemma getString_string (args : Z -> V) i s : args i = NewString s -> getString args i = Ok s.
Proof. intros E. unfold getString. rewrite E. by destruct (string_law s) as (-> & -> & _). Qed.
End Lemmas.

Lemma lua_run_error_Ok {T A} fmt (m : Run T A) t a t' :
  m t = Some (Ok a, t') -> lua_run_error fmt m t = Some (Ok a, t').
Proof. intros E. unfold lua_run_error. by rewrite E. Qed.

(** ** Properties *)

(** The integer types of a hint: the CIP code, the size in bytes, and what an
    integer becomes when it is written and read again. *)
Definition int_hints : list (string * (Z * nat * (Z -> Z))) :=
  [(""%string, (CipType.DINT, 4%nat, signed 32)); ("SINT"%string, (CipType.SINT, 1%nat, signed 8));
   ("INT"%string, (CipType.INT, 2%nat, signed 16)); ("DINT"%string, (CipType.DINT, 4%nat, signed 32));
   ("LINT"%string, (CipType.LINT, 8%nat, fun z => z)); ("USINT"%string, (CipType.USINT, 1%nat, u8));
   ("UINT"%string, (CipType.UINT, 2%nat, u16)); ("UDINT"%string, (CipType.UDINT, 4%nat, u32));
   ("ULINT"%string, (CipType.ULINT, 8%nat, fun z => z))].
(** The integers a type holds: from the first bound to below the second. *)
Definition int_ranges : list (Z * (Z * Z)) :=
  [(CipType.SINT, (-2^7, 2^7)); (CipType.INT, (-2^15, 2^15)); (CipType.DINT, (-2^31, 2^31));
   (CipType.LINT, (-2^63, 2^63)); (CipType.USINT, (0, 2^8)); (CipType.UINT, (0, 2^16));
   (CipType.UDINT, (0, 2^32)); (CipType.ULINT, (0, 2^64))].
Lemma signed_id bits z : 0 < bits -> (signed bits z = z <-> - 2 ^ (bits - 1) <= z < 2 ^ (bits - 1)).
Proof.
  intros Hb. split; [intros <-; by apply lua_signed_range|]. intros Hz. unfold signed. rewrite Z.mod_small; [lia|].
  assert (2 ^ bits = 2 ^ (bits - 1) + 2 ^ (bits - 1)) by (replace bits with (1 + (bits - 1)) at 1 by lia; rewrite Z.pow_add_r by lia; lia).
  lia.
Qed.
Lemma unsigned_id bits z : 0 <= bits -> (z mod 2 ^ bits = z <-> 0 <= z < 2 ^ bits).
Proof. intros Hb. split; [intros <-; apply Z.mod_pos_bound; lia|apply Z.mod_small]. Qed.
(** What is read back is what was written exactly when it is in the range of the
    type, but for ULINT, which keeps all 64 bits of a Lua integer. *)
Lemma int_hint_wrap hint code w wrap lo hi z :
  (hint, (code, w, wrap)) ∈ int_hints -> (code, (lo, hi)) ∈ int_ranges -> is_i64 z ->
  (lo <= z < hi -> wrap z = z) /\ (wrap z = z -> lo <= z < hi \/ code = CipType.ULINT) /\
  (code = CipType.ULINT -> wrap z = z).
Proof.
  unfold int_hints, int_ranges, is_i64. intros Hin Hr Hz.
  repeat (apply elem_of_cons in Hin as [[= -> -> -> ->]|Hin]); [..|by apply not_elem_of_nil in Hin];
    repeat (apply elem_of_cons in Hr as [Hr|Hr]; [try discriminate Hr; injection Hr as -> ->|]);
    try (by apply not_elem_of_nil in Hr).
  all: pose proof (signed_id 8 z eq_refl); pose proof (signed_id 16 z eq_refl); pose proof (signed_id 32 z eq_refl);
    pose proof (unsigned_id 8 z ltac:(lia) : u8 z = z <-> _); pose proof (unsigned_id 16 z ltac:(lia) : u16 z = z <-> _);
    pose proof (unsigned_id 32 z ltac:(lia) : u32 z = z <-> _); split_and!; [by intuition|by intuition|done].
Qed.

Section Properties.
Context {V Tb : Type} `{LuaLaws V Tb}.
Context {C T W : Type} `{CipDevice C T W} `{!TagDevice answers}.

(** What a hint is parsed to. *)
Lemma hint_go val hint ht :
  parse_hint (str hint) = Some ht -> str hint <> [] ->
  luaValueToGoForWrite (V := V) val (str hint) = luaValueWithTypeHint val (str hint).
Proof. intros _ Hne. unfold luaValueToGoForWrite. by rewrite bool_decide_false. Qed.

Ltac hint_case ht Ha :=
  eexists _, _, _; split;
  [rewrite (hint_go _ _ ht) by (vm_compute; congruence); unfold luaValueWithTypeHint;
   match goal with |- context [parse_hint ?h] =>
     replace (parse_hint h) with (Some ht) by (vm_compute; reflexivity) end;
   rewrite Ha; reflexivity|];
  split; [reflexivity|]; split; [cbn; lia|]; split; [reflexivity|]; split; [reflexivity|];
  split; [decided|]; split; [done|];
  unfold cip_value; cbn [Z.eqb Pos.eqb orb binary_put put_uint CipType.BOOL CipType.SINT CipType.INT
    CipType.DINT CipType.LINT CipType.USINT CipType.UINT CipType.UDINT CipType.ULINT TypeBYTE
    TypeWORD TypeDWORD TypeLWORD].

(** For every hint: the Go value written, its encoding, and its reading. *)
Lemma int_hint_value hint code w wrap z :
  (hint, (code, w, wrap)) ∈ int_hints -> is_i64 z ->
  exists v s g, luaValueToGoForWrite (NewInt z) (str hint) = Ok v /\ go_shape v = Some (s, g) /\
    has_shape s g /\ GoTypeToCIPType v = Ok code /\ sizeof s = w /\ is_u16 code /\
    code < CipType.STRUCT /\ cip_value code (binary_put LittleEndian s g) = Ok (NewInt (wrap z)).
Proof.
  intros Hin Hz. destruct (int_law z Hz) as (Hi & _ & Ha & _ & Hb).
  pose proof (lua_signed_range 8 z ltac:(lia)) as H8. pose proof (lua_signed_range 16 z ltac:(lia)) as H16.
  pose proof (lua_signed_range 32 z ltac:(lia)) as H32. unfold is_i64 in Hz.
  assert (signed 64 (z mod 2 ^ 64) = z) as H64 by (apply cip_signed_mod; lia).
  assert (0 <= u8 z < 256 /\ 0 <= u16 z < 65536 /\ 0 <= u32 z < 4294967296 /\
          0 <= u64 z < 18446744073709551616) as (? & ? & ? & ?) by (unfold u8, u16, u32, u64; dlia).
  unfold int_hints in Hin.
  repeat (apply elem_of_cons in Hin as [[= -> -> -> ->]|Hin]); [..|by apply not_elem_of_nil in Hin].
  - exists (GInt32 (signed 32 z)), (SInt true 4), (VNum (signed 32 z)). split.
    { unfold luaValueToGoForWrite. change (str "") with (@nil Z). rewrite bool_decide_true by done.
      cbn [negb]. by rewrite Hb, Hi, Ha. }
    split; [done|]. split; [cbn; lia|]. split; [done|]. split; [done|].
    split; [decided|]. split; [done|]. unfold cip_value. cbn [Z.eqb Pos.eqb CipType.BOOL CipType.SINT CipType.INT CipType.DINT binary_put put_uint].
    rewrite (with_uint_le 4). by rewrite (signed_twice 32).
  - hint_case HSINT Ha. rewrite (with_uint_le 1). by rewrite (signed_twice 8).
  - hint_case HINT Ha. rewrite (with_uint_le 2). by rewrite (signed_twice 16).
  - hint_case HDINT Ha. rewrite (with_uint_le 4). by rewrite (signed_twice 32).
  - hint_case HLINT Ha. rewrite (with_uint_le 8). change (8 * Z.of_nat 8) with 64. by rewrite H64.
  - hint_case HUSINT Ha. rewrite (with_uint_le 1). by rewrite Z.mod_small by (cbn; lia).
  - hint_case HUINT Ha. rewrite (with_uint_le 2). by rewrite Z.mod_small by (cbn; lia).
  - hint_case HUDINT Ha. rewrite (with_uint_le 4). by rewrite Z.mod_small by (cbn; lia).
  - hint_case HULINT Ha. rewrite (with_uint_le 8). change (2 ^ (8 * Z.of_nat 8)) with (2 ^ 64).
    change (u64 z) with (z mod 2 ^ 64). rewrite Z.mod_mod by lia. by rewrite H64.
Qed.

(** C35: A Lua script writes an integer to a tag and reads it back.  With the
    hint of any integer type (or none, which means DINT), over any device with a
    tag of that type, [client:write_tag(name, z, hint)] succeeds and
    [client:read_tag(name)] returns the integer reduced to the type.  Every integer
    in the type's range comes back as it was written; one out of range does not,
    except for ULINT, where a negative integer comes back as well. *)
Theorem lua_tag_write_read (c : Client) fuel name p hint code w wrap z args args' el els sess t :
  0 <= retries c < 2147483647 -> live sess t -> ParseTagPath name = Ok p ->
  (hint, (code, w, wrap)) ∈ int_hints -> is_i64 z ->
  args 2 = NewString name -> args 3 = NewInt z -> args 4 = NewString (str hint) ->
  args' 2 = NewString name ->
  tag (device t) p = Some (code, el :: els) -> length el = w ->
  (forall b, length b = w -> fits (NewWriteTagRequest p code 1 b)) -> fits (NewReadTagRequest p 1) ->
  exists t1 t2,
    lua_write_tag (V := V) (Tb := Tb) c (S fuel) args t = Some (Ok None, t1) /\
    lua_read_tag (V := V) (Tb := Tb) c (S fuel) args' t1 = Some (Ok (Some (NewInt (wrap z))), t2) /\
    forall lo hi, (code, (lo, hi)) ∈ int_ranges ->
      (lo <= z < hi -> wrap z = z) /\ (wrap z = z -> lo <= z < hi \/ code = CipType.ULINT) /\
      (code = CipType.ULINT -> wrap z = z).
Proof.
  intros Hr Hl Hp Hin Hz E2 E3 E4 E2' Ht Hel Hfw Hfr.
  destruct (int_hint_value hint code w wrap z Hin Hz) as (v & s & g & Hv & Hs & Hg & Hty & Hw & H16 & Hst & Hrd).
  destruct (bin_encode_decode LittleEndian s g [] Hg) as [Hlen _].
  destruct (write_then_raw c fuel name p v s g code el els sess t) as (t1 & t2 & Ew & _ & Er & _);
    try done; [congruence|apply Hfw; congruence|].
  exists t1, t2. split_and!; [| |intros lo hi Hlh; exact (int_hint_wrap hint code w wrap lo hi z Hin Hlh Hz)].
  - unfold lua_write_tag. rewrite (getString_string _ _ _ E2).
    rewrite (Run_bind_Ok (local (Ok name)) _ _ name t) by done.
    assert (getOptString args 4 [] = str hint) as ->.
    { unfold getOptString. rewrite E4. by destruct (string_law (str hint)) as (-> & -> & _ & _ & _ & ->). }
    rewrite E3, Hv, (Run_bind_Ok (local (Ok v)) _ _ v t) by done.
    by rewrite (Run_bind_Ok _ _ _ _ _ (lua_run_error_Ok _ _ _ _ _ Ew)).
  - unfold lua_read_tag. rewrite (getString_string _ _ _ E2').
    rewrite (Run_bind_Ok (local (Ok name)) _ _ name t1) by done.
    rewrite (Run_bind_Ok _ _ _ _ _ (lua_run_error_Ok _ _ _ _ _ Er)).
    rewrite cip_atomic, Hrd by done. done.
Qed.

(** Strings cannot be written.  [client:write_tag(name, s)] with a Lua
    string, with or without the STRING hint the module exports, fails for every
    tag without a single request being sent: the value reaches [binary.Write],
    which has no encoding for it. *)
Theorem lua_string_write_fails (c : Client) fuel name s hint args t :
  args 2 = NewString name -> args 3 = NewString s -> args 4 = NewString hint ->
  hint = [] \/ hint = str "STRING" -> no_panic (ParseTagPath name) ->
  exists e, lua_write_tag (V := V) (Tb := Tb) c fuel args t = Some (Err e, t).
Proof.
  intros E2 E3 E4 Hh Hnp. unfold lua_write_tag. rewrite (getString_string _ _ _ E2).
  rewrite (Run_bind_Ok (local (Ok name)) _ _ name t) by done.
  assert (getOptString args 4 [] = hint) as ->.
  { unfold getOptString. rewrite E4. by destruct (string_law hint) as (-> & -> & _ & _ & _ & ->). }
  assert (luaValueToGoForWrite (args 3) hint = Ok (GString s)) as ->.
  { rewrite E3. destruct (string_law s) as (Hs & Ha & Hb & Hi & Hf & _).
    unfold luaValueToGoForWrite, luaValueWithTypeHint. destruct Hh as [->| ->].
    - rewrite bool_decide_true by done. cbn [negb]. by rewrite Hb, Hi, Hf, Hs, Ha.
    - rewrite bool_decide_false by (vm_compute; congruence). cbn [negb].
      replace (parse_hint (str "STRING")) with (Some HSTRING) by (vm_compute; reflexivity). by rewrite Ha. }
  rewrite (Run_bind_Ok (local (Ok (GString s))) _ _ (GString s) t) by done.
  unfold WriteTag, mbind, Run_bind, lua_run_error, local, no_panic in *.
  destruct (ParseTagPath name); cbn; [by eexists|by eexists|done].
Qed.

(** Reading a float.  A REAL tag is read as the Lua number with exactly the
    value of its [float32]; writing that number back (as a REAL) restores the
    bits of the tag unless it is a NaN. *)
Theorem lua_real_exact bits :
  0 <= bits < 4294967296 -> isNaN32 bits = false ->
  cipDataToLuaValue (V := V) (le16 CipType.REAL ++ le32 bits) = Ok (NewFloat (widen bits)) /\
  exists v, luaValueToGoForWrite (NewFloat (V := V) (widen bits)) [] = Ok v /\ Marshal v = Ok (le32 bits).
Proof.
  intros Hb Hn. split.
  - rewrite cip_atomic by (done || decided). unfold cip_value. cbn [Z.eqb Pos.eqb CipType.REAL CipType.BOOL
      CipType.SINT CipType.INT CipType.DINT CipType.LINT CipType.USINT CipType.UINT CipType.UDINT
      CipType.ULINT TypeBYTE TypeWORD TypeDWORD TypeLWORD orb].
    assert (le32 bits = le_bytes 4 bits) as ->.
    { assert (Ok (le32 bits) = Ok (le_bytes 4 bits)) by exact (marshal_encode (GFloat32 bits) _ _ eq_refl).
      congruence. }
    rewrite (with_uint_le 4). by rewrite Z.mod_small by (cbn; lia).
  - exists (GFloat32 bits). split; [|done]. destruct (float_law (widen bits)) as (Hf & _ & Ha & Hi & Hbl).
    unfold luaValueToGoForWrite. rewrite bool_decide_true by done. cbn [negb].
    by rewrite Hbl, Hi, Hf, Ha, narrow_widen.
Qed.
End Properties.

(** ** Witnesses, on the plant of the bench *)
Import MiniLua.
Definition eip_stack (l : list lval) (i : Z) : lval := default LNil (l !! Z.to_nat (i - 1)).

Lemma lua_tag_write_read_witness :
  exists t1 t2,
    lua_write_tag (V := lval) (NewClient 2) 3
      (eip_stack [LNil; LStr (str "Speed"); LInt 65533; LStr (str "INT")]) Bench.plant = Some (Ok None, t1) /\
    lua_read_tag (V := lval) (NewClient 2) 3 (eip_stack [LNil; LStr (str "Speed")]) t1 =
      Some (Ok (Some (LInt (-3))), t2).
Proof.
  destruct (lua_tag_write_read (V := lval) (NewClient 2) 2 (str "Speed") Bench.speed_path "INT" CipType.INT
    2 (signed 16) 65533 (eip_stack [LNil; LStr (str "Speed"); LInt 65533; LStr (str "INT")])
    (eip_stack [LNil; LStr (str "Speed")]) [1; 0] [[2; 0]; [3; 0]] tt Bench.plant)
    as (t1 & t2 & Hw & Hr & _).
  - cbn. lia.
  - exact I.
  - reflexivity.
  - unfold int_hints. right. right. left.
  - unfold is_i64. lia.
  - reflexivity.
  - reflexivity.
  - reflexivity.
  - reflexivity.
  - reflexivity.
  - reflexivity.
  - intros b _. exact I.
  - exact I.
  - exists t1, t2. split; [exact Hw|exact Hr].
Defined.

Lemma lua_string_write_fails_witness :
  exists e, lua_write_tag (V := lval) (NewClient 2) 3
    (eip_stack [LNil; LStr (str "Speed"); LStr (str "fast"); LStr []]) Bench.plant =
      Some (Err e, Bench.plant).
Proof.
  apply (lua_string_write_fails (V := lval) (NewClient 2) 3 (str "Speed") (str "fast") []).
  - reflexivity.
  - reflexivity.
  - reflexivity.
  - by left.
  - vm_compute. discriminate.
Defined.

Lemma lua_real_exact_witness :
  cipDataToLuaValue (V := lval) (le16 CipType.REAL ++ le32 0x3FC00000) = Ok (LFloat 0x3FF8000000000000).
Proof. exact (proj1 (lua_real_exact (V := lval) 0x3FC00000 ltac:(lia) eq_refl)). Defined.
