(* ===== verification/TagServer.v ===== *)
(** * The tag database of the example server

    Models [examples/ethernetip/server/main.go]: a CIP object that stores tags by
    name and serves Read Tag and Write Tag, and the router the program registers it
    with.  Behind a router that hands symbolic paths to it the object is a
    [TagDevice], so the client's theorems hold of it; behind the router of the
    program no tag request of the client reaches it. *)
From S2P Require Import Prelude Bytes EipCodec Cip CipTags EipClient EipPlant.

Record tagEntry : Type := mkTag { dataType : Z; data : bytes }.
(** By name. *)
Definition TagObject : Type := gmap bytes tagEntry.
Definition NewTagObject : TagObject := ∅.
Definition SetTag (name : bytes) (ty : Z) (d : bytes) (t : TagObject) : TagObject :=
  <[name := mkTag ty d]> t.

Definition parseSymbolicSegment (raw : bytes) : outcome bytes :=
  if len raw <? 2 then Err (Errorf "path too short for symbolic segment") else
  b ← go_index raw 0;
  if negb (b =? 0x91) then Err (Errorf "expected symbolic segment (0x91), got 0x%02X") else
  b ← go_index raw 1;
  let nameLen := u8 b in
  if len raw <? 2 + nameLen then Err (Errorf "path too short for symbol name of length %d") else
  go_slice raw 2 (2 + nameLen).

Definition cip_fail {A} (status : Z) : outcome A := Err (CipErr status []).
Definition handleReadTag (path d : bytes) : SM TagObject bytes := fun t =>
  match parseSymbolicSegment path with
  | Err _ => (cip_fail Status.PathSegmentError, t)
  | Panic => (Panic, t)
  | Ok tagName =>
      if len d <? 2 then (cip_fail Status.NotEnoughData, t) else
      match t !! tagName with
      | None => (cip_fail Status.PathDestinationUnknown, t)
      | Some entry => (Ok (le16 (dataType entry) ++ data entry), t)
      end
  end.
Definition handleWriteTag (path d : bytes) : SM TagObject bytes := fun t =>
  match parseSymbolicSegment path with
  | Err _ => (cip_fail Status.PathSegmentError, t)
  | Panic => (Panic, t)
  | Ok tagName =>
      if len d <? 4 then (cip_fail Status.NotEnoughData, t) else
      match get_le16 d, go_slice d 4 (len d) with
      | Ok ty, Ok valueData => (Ok [], SetTag tagName ty valueData t)
      | _, _ => (Panic, t)
      end
  end.
Definition handleGetAttributeAll : SM TagObject bytes := fun t => (Ok (le16 (u16 (Z.of_nat (size t)))), t).
Definition HandleRequest : Object TagObject := fun service path d =>
  if service =? Svc.ReadTag then handleReadTag path d
  else if service =? Svc.WriteTag then handleWriteTag path d
  else if service =? Svc.GetAttributeAll then handleGetAttributeAll
  else pure (cip_fail Status.ServiceNotSupported).

(** ** The program *)
Definition demo_tags : TagObject :=
  SetTag (str "Counter") CipType.DINT (le32 0)
    (SetTag (str "MySTRING") CipType.STRING (le16 11 ++ str "Hello, EIP!")
      (SetTag (str "MyREAL") CipType.REAL (le32 0x4048F5C3)
        (SetTag (str "MyDINT") CipType.DINT (le32 12345) NewTagObject))).
Definition demo_router : MessageRouter TagObject := RegisterObject ClassAssembly HandleRequest NewMessageRouter.
(** The router with the object as the handler of symbolic paths. *)
Definition tag_router : MessageRouter TagObject := RegisterSymbolicHandler HandleRequest NewMessageRouter.

(** ** Lemmas *)
Lemma SetTag_lookup name ty d t : SetTag name ty d t !! name = Some (mkTag ty d).
Proof. apply (lookup_insert_eq (M := gmap bytes)). Qed.
Lemma parse_cases raw :
  (exists e, parseSymbolicSegment raw = Err e) \/
  (exists name rest, parseSymbolicSegment raw = Ok name /\ raw = 0x91 :: rest).
Proof.
  unfold parseSymbolicSegment. destruct (Z.ltb_spec (len raw) 2) as [|Hl]; [by eauto|].
  destruct raw as [|b0 [|b1 raw]]; [change (len (@nil Z)) with 0 in Hl; lia|change (len [b0]) with 1 in Hl; lia|].
  change (go_index (b0 :: b1 :: raw) 0) with (Ok b0). change (go_index (b0 :: b1 :: raw) 1) with (Ok b1). go_bind.
  destruct (Z.eqb_spec b0 0x91) as [->|]; cbn [negb]; [|by eauto].
  destruct (Z.ltb_spec (len (0x91 :: b1 :: raw)) (2 + u8 b1)); [by eauto|]. right.
  pose proof (u8_range b1). unfold go_slice. rewrite decide_True by (unfold is_u8 in *; lia). by eauto.
Qed.

(** No request makes the object panic. *)
Lemma tag_object_safe : object_safe (fun _ : TagObject => True) HandleRequest.
Proof.
  intros service path d t _. split; [|done]. unfold HandleRequest.
  destruct (service =? Svc.ReadTag); [|destruct (service =? Svc.WriteTag)].
  - unfold handleReadTag. destruct (parse_cases path) as [[e ->]|(name & rest & -> & _)]; [done|].
    destruct (len d <? 2); [done|]. by destruct (t !! name).
  - unfold handleWriteTag. destruct (parse_cases path) as [[e ->]|(name & rest & -> & _)]; [done|].
    destruct (Z.ltb_spec (len d) 4) as [|Hl]; [done|].
    destruct d as [|d0 [|d1 d]]; [change (len (@nil Z)) with 0 in Hl; lia|change (len [d0]) with 1 in Hl; lia|].
    cbn [get_le16]. unfold go_slice. by rewrite decide_True by lia.
  - by destruct (service =? Svc.GetAttributeAll).
Qed.
Lemma tag_routers_safe : router_safe (fun _ : TagObject => True) demo_router /\ router_safe (fun _ => True) tag_router.
Proof.
  split; split; try done; cbn.
  - intros c obj [[_ <-]|[_ H]]%lookup_insert_Some; [apply tag_object_safe|by rewrite lookup_empty in H].
  - intros obj [= <-]. apply tag_object_safe.
Qed.

(** ** The object is a device with tags *)
Definition tag_of (t : TagObject) (p : bytes) : option (Z * list bytes) :=
  match parseSymbolicSegment p with
  | Ok name =>
      match t !! name with
      | Some e => if decide (is_u16 (dataType e)) then Some (dataType e, [data e]) else None
      | None => None
      end
  | _ => None
  end.
Lemma tag_of_Some t p dt els :
  tag_of t p = Some (dt, els) -> exists name rest d, parseSymbolicSegment p = Ok name /\ p = 0x91 :: rest /\
    t !! name = Some (mkTag dt d) /\ els = [d] /\ is_u16 dt.
Proof.
  unfold tag_of. destruct (parse_cases p) as [[e ->]|(name & rest & -> & ->)]; [done|].
  destruct (t !! name) as [[ty d]|] eqn:E; [|done]. case_decide as H; [|done]. intros [= <- <-]. cbn in *.
  by exists name, rest, d.
Qed.
Lemma Dispatch_symbolic service rest d t :
  Dispatch tag_router (mkMRReq service (0x91 :: rest) d) t = call HandleRequest service (0x91 :: rest) d t.
Proof.
  unfold Dispatch. cbn [RequestPath]. pose proof (len_nonneg rest).
  rewrite (proj2 (Z.eqb_neq _ 0)) by (lens; lia). done.
Qed.

#[export] Instance tag_object_device : TagDevice (routed tag_router).
Proof.
  apply (tag_device_of (routed tag_router) tag_of).
  - intros t p dt els (name & rest & d & _ & _ & _ & _ & H)%tag_of_Some. exact H.
  - intros t p dt els n (name & rest & d & Hp & -> & Ht & -> & Hd)%tag_of_Some Hn16 Hn.
    change (len [d]) with 1 in Hn. assert (n = 1) as -> by lia. unfold routed.
    unfold NewReadTagRequest. rewrite Dispatch_symbolic. unfold call.
    change (HandleRequest Svc.ReadTag) with handleReadTag. unfold handleReadTag. rewrite Hp.
    change (len (le16 1) <? 2) with false. cbv iota. rewrite Ht. cbn [data dataType concat take].
    change (concat (take (Z.to_nat 1) [d])) with (d ++ []). by rewrite app_nil_r.
  - intros t p dt els new (name & rest & d & Hp & -> & Ht & -> & Hd)%tag_of_Some Hn16 Hn Hsz.
    change (len [d]) with 1 in Hn.
    destruct new as [|x [|y new]]; [change (len (@nil bytes)) with 0 in Hn; lia| |].
    2: { pose proof (len_nonneg new). rewrite !len_cons in Hn. lia. }
    unfold routed, NewWriteTagRequest. rewrite Dispatch_symbolic. unfold call.
    change (HandleRequest Svc.WriteTag) with handleWriteTag. unfold handleWriteTag. rewrite Hp.
    change (concat [x]) with (x ++ []). rewrite app_nil_r. pose proof (len_nonneg x).
    rewrite (proj2 (Z.ltb_ge _ 4)) by (lens; lia). rewrite get_le16_le16 by done.
    rewrite app_assoc, go_slice_suffix by (lens; lia). eexists. split; [done|].
    unfold tag_of. rewrite Hp. rewrite SetTag_lookup. cbn. by rewrite decide_True.
Defined.

(** ** Behind the program's router *)

(** The path of a tag starts with a symbol or a member. *)
Lemma tag_path_head name p :
  ParseTagPath name = Ok p -> exists b rest, p = b :: rest /\ b ∈ [0x91; 0x28; 0x29; 0x2A].
Proof.
  assert (forall parts i p q, add_parts i parts p = Ok q -> exists r, q = p ++ r) as Hgrow.
  { induction parts as [|part parts IH]; intros i p0 q; cbn; [intros [= <-]; exists []; by rewrite app_nil_r|].
    destruct (parseTagSegment part) as [[nm ids]| |]; try done. destruct (_ && _); [done|].
    destruct (add_name i nm p0) as [p1| |] eqn:Ea; try done. go_bind. intros (r & ->)%IH.
    rewrite addMembers_app. assert (exists r1, p1 = p0 ++ r1) as [r1 ->].
    { destruct nm as [|b nm]; [injection Ea as <-; exists []; by rewrite app_nil_r|]. cbn in Ea.
      destruct (_ && _); [destruct (parse_uint32 _); [|done]|]; injection Ea as <-;
        [rewrite addMember32_app|rewrite AddSymbolicSegment_app]; by eexists. }
    rewrite <-!app_assoc. by eexists. }
  destruct name as [|b0 name]; [done|]. unfold ParseTagPath, splitTagSegments.
  destruct (split_tag (b0 :: name) [] 0) as [parts| |] eqn:Es; try done. go_bind.
  destruct (split_tag_cases (b0 :: name) [] 0) as [[e He]|(part & parts' & Hp)]; [congruence|].
  assert (parts = part :: parts') as -> by congruence. cbn [add_parts].
  destruct (parseTagSegment part) as [[nm ids]| |]; try done. destruct (_ && _) eqn:Ee; [done|].
  destruct nm as [|b nm]; cbn [add_name]; go_bind.
  - destruct ids as [|id ids]; [done|]. intros (r & ->)%Hgrow. cbn [fold_left]. rewrite addMembers_app.
    unfold addMember32. cbn [app]. destruct (id <=? 0xFF); [|destruct (id <=? 0xFFFF)];
      cbn [app]; do 2 eexists; (split; [reflexivity|]); vm_compute; set_solver.
  - cbn [Z.ltb andb]. go_bind. intros (r & ->)%Hgrow. rewrite addMembers_app. unfold AddSymbolicSegment.
    cbn [app]. do 2 eexists. split; [reflexivity|]. set_solver.
Qed.

(** Every request the client makes for a tag is refused by the program's router
    with a path segment error, whatever tags there are. *)
Theorem tags_unreachable name p service d t :
  ParseTagPath name = Ok p ->
  Dispatch demo_router (mkMRReq service p d) t = (Err (CipErr Status.PathSegmentError []), t).
Proof.
  intros (b & rest & -> & Hb)%tag_path_head. unfold Dispatch. cbn [RequestPath]. pose proof (len_nonneg rest).
  rewrite (proj2 (Z.eqb_neq _ 0)) by (lens; lia).
  repeat (apply list_elem_of_In in Hb; destruct Hb as [<-|Hb]; [reflexivity|apply list_elem_of_In in Hb]).
  by apply not_elem_of_nil in Hb.
Qed.

(** Indices and members after the name are ignored: an element that does not exist
    is read as the tag. *)
Example index_ignored :
  handleReadTag (AddMember (AddSymbolicSegment [] (str "MyDINT")) 7) (le16 1) demo_tags =
  handleReadTag (AddSymbolicSegment [] (str "MyDINT")) (le16 1) demo_tags.
Proof. vm_compute. reflexivity. Qed.
