(* ===== verification/IOScanner.v ===== *)
(** * The I/O scanner

    Models [protocol/ethernetip/io.go]: opening and closing implicit connections
    over a session, the datagrams the scanner produces and the ones it consumes.
    Connections are heap objects, since the caller and the table share them.  The
    session is a parameter (what its [SendCIPRequest] gives), as is the address
    of its peer; UDP addresses are numbers, times nanoseconds.  The composition
    with the connection manager of [CipObjects] and the runtime of [IORuntime] is
    at the end. *)
From S2P Require Import Prelude Bytes Cip CipObjects IORuntime.

Record IOConnectionConfig : Type := mkIOConfig {
  OTConnectionPoint : Z; TOConnectionPoint : Z; ConfigInstance : Z; OTSize : Z; TOSize : Z;
  cfg_RPI : Z; cfg_TimeoutMultiplier : Z; cfg_RunIdleHeader : bool; TargetAddr : option Z;
  cfg_ConnectionPath : option bytes
}.

Record IOConn : Type := mkIOConn {
  OTConnectionID : Z;
  TOConnectionID : Z;
  ConnectionSerialNumber : Z;
  io_VendorID : Z;
  io_OriginatorSerialNumber : Z;
  outputData : bytes;
  inputData : bytes;
  conn_RPI : Z;
  sequenceCount : Z;
  lastReceive : Z;
  timeoutMult : Z;
  runIdleHeader : bool;
  remoteAddr : Z;
  stopped : bool              (** [stopCh] is closed *)
}.

Definition set_output (d : bytes) (c : IOConn) : IOConn :=
  mkIOConn (OTConnectionID c) (TOConnectionID c) (ConnectionSerialNumber c) (io_VendorID c)
    (io_OriginatorSerialNumber c) d (inputData c) (conn_RPI c) (sequenceCount c) (lastReceive c)
    (timeoutMult c) (runIdleHeader c) (remoteAddr c) (stopped c).
Definition set_input (now : Z) (d : bytes) (c : IOConn) : IOConn :=
  mkIOConn (OTConnectionID c) (TOConnectionID c) (ConnectionSerialNumber c) (io_VendorID c)
    (io_OriginatorSerialNumber c) (outputData c) d (conn_RPI c) (sequenceCount c) now
    (timeoutMult c) (runIdleHeader c) (remoteAddr c) (stopped c).
Definition set_seq (s : Z) (c : IOConn) : IOConn :=
  mkIOConn (OTConnectionID c) (TOConnectionID c) (ConnectionSerialNumber c) (io_VendorID c)
    (io_OriginatorSerialNumber c) (outputData c) (inputData c) (conn_RPI c) s (lastReceive c)
    (timeoutMult c) (runIdleHeader c) (remoteAddr c) (stopped c).
Definition set_stopped (c : IOConn) : IOConn :=
  mkIOConn (OTConnectionID c) (TOConnectionID c) (ConnectionSerialNumber c) (io_VendorID c)
    (io_OriginatorSerialNumber c) (outputData c) (inputData c) (conn_RPI c) (sequenceCount c)
    (lastReceive c) (timeoutMult c) (runIdleHeader c) (remoteAddr c) true.

Record IOScanner (S : Type) : Type := mkScanner {
  session : S;
  vendorID : Z;
  originatorSN : Z;
  heap : gmap nat IOConn;
  scan_conns : gmap Z nat;       (** [connections], keyed by TOConnectionID *)
  nextOTID : Z;
  nextSerial : Z;
  done : bool                    (** [done] is closed, and with it the socket *)
}.
Arguments mkScanner {S}.
Arguments session {S}.
Arguments vendorID {S}.
Arguments originatorSN {S}.
Arguments heap {S}.
Arguments scan_conns {S}.
Arguments nextOTID {S}.
Arguments nextSerial {S}.
Arguments done {S}.

Definition ConnParamPointToPoint : Z := 0x4000.
Definition ConnParamFixedSize : Z := 0x0000.

(** ** The methods of a connection *)
Definition SetOutput (data : bytes) (c : IOConn) : outcome unit * IOConn :=
  if negb (len data =? len (outputData c))
  then (Err (Errorf "output size mismatch: got %d, want %d"), c)
  else (Ok tt, set_output data c).
Definition Output (c : IOConn) : bytes := outputData c.
Definition Input (c : IOConn) : bytes := inputData c.
Definition InputAge (now : Z) (c : IOConn) : Z := now - lastReceive c.
Definition IsTimedOut (now : Z) (c : IOConn) : bool :=
  let mult := u64 (Z.shiftl 4 (timeoutMult c)) in
  let timeout := i64 (conn_RPI c * i64 mult) in
  timeout <? InputAge now c.

(** [sendPacket]: the datagram, built in a buffer of exactly its length. *)
Definition sendPacket (c : IOConn) : (Z * bytes) * IOConn :=
  let snapshot := outputData c in
  let c := set_seq (u16 (sequenceCount c + 1)) c in
  let dataLen := (if runIdleHeader c then 6 else 2) + len snapshot in
  let pkt := le16 2 ++ le16 0x00A1 ++ le16 4 ++ le32 (OTConnectionID c) ++ le16 0x00B1 ++
             le16 (u16 dataLen) ++ le16 (sequenceCount c) ++
             (if runIdleHeader c then le32 1 else []) ++ snapshot in
  ((remoteAddr c, pkt), c).

(** [produceLoop] up to its loop: [time.NewTicker] panics on an interval that is
    not positive. *)
Definition new_ticker (c : IOConn) : outcome unit := if conn_RPI c <=? 0 then Panic else Ok tt.

Section Scanner.
Context {S : Type}.
Variable SendCIPRequest : MessageRouterRequest -> SM S MessageRouterResponse.
(** Port 2222 of the session's peer, when it can be resolved. *)
Variable peer_addr : S -> option Z.
Definition scanner := IOScanner S.

Definition NewIOScanner (s : S) (vendor originator : Z) : scanner :=
  mkScanner s vendor originator ∅ ∅ 0 0 false.

Definition with_session (x : S) (s : scanner) : scanner :=
  mkScanner x (vendorID s) (originatorSN s) (heap s) (scan_conns s) (nextOTID s) (nextSerial s) (done s).
Definition with_conns (h : gmap nat IOConn) (t : gmap Z nat) (s : scanner) : scanner :=
  mkScanner (session s) (vendorID s) (originatorSN s) h t (nextOTID s) (nextSerial s) (done s).

Definition cip_send (req : MessageRouterRequest) : SM scanner MessageRouterResponse := fun s =>
  let '(r, x) := SendCIPRequest req (session s) in (r, with_session x s).

(** The identifiers of a new connection. *)
Definition next_ids : SM scanner (Z * Z) := fun s =>
  let otConnID := u32 (nextOTID s + 1) in
  let n := u32 (nextSerial s + 1) in
  (Ok (otConnID, u16 n),
   mkScanner (session s) (vendorID s) (originatorSN s) (heap s) (scan_conns s) otConnID n (done s)).

Definition connection_path (cfg : IOConnectionConfig) : bytes :=
  match cfg_ConnectionPath cfg with
  | Some p => p
  | None =>
      let p := AddClass [] ClassAssembly in
      let p := AddInstance p (if 0 <? ConfigInstance cfg then ConfigInstance cfg else 1) in
      let p := AddConnectionPoint p (OTConnectionPoint cfg) in
      AddConnectionPoint p (TOConnectionPoint cfg)
  end.

Definition open_params (size : Z) : Z :=
  Z.lor (Z.lor ConnParamPointToPoint ConnParamFixedSize) size.
Definition open_request_of (cfg : IOConnectionConfig) (otConnID serial vendor originator : Z)
  : ConnMgr.ForwardOpenRequest :=
  let rpiMicros := u32 (Z.quot (cfg_RPI cfg) 1000) in
  ConnMgr.mkOpen 0x0A 0xF0 otConnID 0 serial vendor originator (cfg_TimeoutMultiplier cfg)
    [0; 0; 0] rpiMicros (open_params (OTSize cfg)) rpiMicros (open_params (TOSize cfg)) 0x01
    (u8 (len (connection_path cfg) / 2)) (connection_path cfg).
Definition mgr_request (service : Z) (data : bytes) : MessageRouterRequest :=
  mkMRReq service (AddInstance (AddClass [] ClassConnectionMgr) 1) data.

(** The T-to-O identifier and the O-to-T interval of a response. *)
Definition open_response (cfg : IOConnectionConfig) (resp : MessageRouterResponse) : outcome (Z * Z) :=
  if negb (IsSuccess resp)
  then Err (Errorf "Forward_Open failed: general status 0x%02X%s") else
  let d := ResponseData resp in
  if len d <? 26 then Err (Errorf "Forward_Open response too short: %d bytes") else
  toConnID ← (b ← go_slice d 4 8; get_le32 b);
  api ← (b ← go_slice d 16 20; get_le32 b);
  let otAPI := api * 1000 in
  Ok (toConnID, if otAPI =? 0 then cfg_RPI cfg else otAPI).

(** Errors of the session are wrapped. *)
Definition wrap_err {A} (fmt : string) (m : SM scanner A) : SM scanner A := fun s =>
  match m s with (Err e, s) => (Err (Wrapf fmt e), s) | r => r end.

(** A reference not in use. *)
Definition new_conn_ref (h : gmap nat IOConn) : nat := fresh (elements (dom h : gset nat)).

Definition originator : SM scanner (Z * Z) := fun s => (Ok (vendorID s, originatorSN s), s).
Definition target_addr (cfg : IOConnectionConfig) : SM scanner Z := fun s =>
  match TargetAddr cfg with
  | Some a => (Ok a, s)
  | None =>
      match peer_addr (session s) with
      | Some a => (Ok a, s)
      | None => (Err (Errorf "cannot resolve target UDP address"), s)
      end
  end.
Definition add_conn (conn : IOConn) : SM scanner nat := fun s =>
  let ref := new_conn_ref (heap s) in
  (Ok ref, with_conns (<[ref := conn]> (heap s)) (<[TOConnectionID conn := ref]> (scan_conns s)) s).

(** [Open]; the result names the connection in the heap. *)
Definition Open (now : Z) (cfg : IOConnectionConfig) : SM scanner nat :=
  '(otConnID, serial) ← next_ids;
  '(vendor, orig) ← originator;
  resp ← wrap_err "Forward_Open send: %w"
           (cip_send (mgr_request ConnMgr.ServiceForwardOpen
              (ConnMgr.Open_Encode (open_request_of cfg otConnID serial vendor orig))));
  '(toConnID, otAPI) ← pure (open_response cfg resp);
  addr ← target_addr cfg;
  add_conn (mkIOConn otConnID toConnID serial vendor orig
              (replicate (Z.to_nat (OTSize cfg)) 0) (replicate (Z.to_nat (TOSize cfg)) 0)
              otAPI 0 now (cfg_TimeoutMultiplier cfg) (cfg_RunIdleHeader cfg) addr false).

Definition close_request_of (c : IOConn) : ConnMgr.ForwardCloseRequest :=
  let p := AddInstance (AddClass [] ClassAssembly) 1 in
  ConnMgr.mkClose 0x0A 0xF0 (ConnectionSerialNumber c) (io_VendorID c) (io_OriginatorSerialNumber c)
    (u8 (len p / 2)) 0 p.

Definition Close (ref : nat) : SM scanner unit := fun s =>
  match heap s !! ref with
  | None => (Panic, s)
  | Some c =>
      let s := with_conns (<[ref := set_stopped c]> (heap s)) (delete (TOConnectionID c) (scan_conns s)) s in
      (resp ← wrap_err "Forward_Close send: %w"
                (cip_send (mgr_request ConnMgr.ServiceForwardClose
                   (ConnMgr.Close_Encode (close_request_of c))));
       if negb (IsSuccess resp) then pure (Err (Errorf "Forward_Close failed: status 0x%02X"))
       else mret tt) s
  end.

(** Close each connection, keeping the first error. *)
Fixpoint close_all (refs : list nat) (firstErr : option error) (s : scanner)
  : outcome (option error) * scanner :=
  match refs with
  | [] => (Ok firstErr, s)
  | ref :: refs =>
      match Close ref s with
      | (Ok _, s) => close_all refs firstErr s
      | (Err e, s) => close_all refs (match firstErr with Some f => Some f | None => Some e end) s
      | (Panic, s) => (Panic, s)
      end
  end.
(** [Shutdown]: [close(s.done)] panics when the scanner was shut down before. *)
Definition Shutdown (s : scanner) : outcome (option error) * scanner :=
  match close_all (map snd (map_to_list (scan_conns s))) None s with
  | (Ok firstErr, s) =>
      if done s then (Panic, s)
      else (Ok firstErr,
            mkScanner (session s) (vendorID s) (originatorSN s) (heap s) (scan_conns s) (nextOTID s)
              (nextSerial s) true)
  | r => r
  end.

(** A connection's own method, on the object in the heap. *)
Definition on_conn {A} (f : IOConn -> A * IOConn) (ref : nat) (s : scanner) : option (A * scanner) :=
  match heap s !! ref with
  | None => None
  | Some c => let '(a, c) := f c in Some (a, with_conns (<[ref := c]> (heap s)) (scan_conns s) s)
  end.

Definition handleIncomingPacket (now : Z) (data : bytes) (s : scanner) : outcome scanner :=
  if len data <? 16 then Ok s else
  itemCount ← le16_at data 0 2;
  if negb (itemCount =? 2) then Ok s else
  connID ← (b ← go_slice data 6 10; get_le32 b);
  dataLen ← le16_at data 12 14;
  if len data <? 14 + dataLen then Ok s else
  payload ← go_slice data 14 (14 + dataLen);
  match scan_conns s !! connID with
  | None => Ok s
  | Some ref =>
      match heap s !! ref with
      | None => Panic
      | Some conn =>
          let offset := if runIdleHeader conn then 6 else 2 in
          if len payload <? offset then Ok s else
          assemblyData ← go_slice payload offset (len payload);
          let input := if len assemblyData =? len (inputData conn) then assemblyData
                       else inputData conn in
          Ok (with_conns (<[ref := set_input now input conn]> (heap s)) (scan_conns s) s)
      end
  end.
End Scanner.
Arguments scanner S : clear implicits.

(** ** Well-formed scanners

    Identifiers within their widths, data within the assembly sizes; the table
    leads to running connections under their own identifier. *)
Definition conn_ok (c : IOConn) : Prop :=
  is_u32 (OTConnectionID c) /\ is_u32 (TOConnectionID c) /\ is_u16 (ConnectionSerialNumber c) /\
  is_u16 (sequenceCount c) /\ len (outputData c) < 65536 /\ len (inputData c) < 65536.
Record scan_ok {S} (s : scanner S) : Prop := {
  so_heap : forall ref c, heap s !! ref = Some c -> conn_ok c;
  so_table : forall id ref, scan_conns s !! id = Some ref ->
    exists c, heap s !! ref = Some c /\ TOConnectionID c = id /\ stopped c = false
}.
(** The same connection later: identity and sizes are fixed, stopping is final. *)
Definition same_conn (c c' : IOConn) : Prop :=
  OTConnectionID c' = OTConnectionID c /\ TOConnectionID c' = TOConnectionID c /\
  ConnectionSerialNumber c' = ConnectionSerialNumber c /\ io_VendorID c' = io_VendorID c /\
  io_OriginatorSerialNumber c' = io_OriginatorSerialNumber c /\
  len (outputData c') = len (outputData c) /\ len (inputData c') = len (inputData c) /\
  (stopped c = true -> stopped c' = true).
Definition evolves {S} (s s' : scanner S) : Prop :=
  forall ref c, heap s !! ref = Some c -> exists c', heap s' !! ref = Some c' /\ same_conn c c'.

#[export] Instance same_conn_refl : Reflexive same_conn.
Proof. intros c. by repeat split. Qed.
#[export] Instance same_conn_trans : Transitive same_conn.
Proof. unfold same_conn. intros a b c. intuition congruence. Qed.
#[export] Instance evolves_preorder {S} : PreOrder (@evolves S).
Proof.
  split.
  - intros s ref c Hc. by exists c.
  - intros s1 s2 s3 H1 H2 ref c Hc. destruct (H1 ref c Hc) as (c2 & Hc2 & E2).
    destruct (H2 ref c2 Hc2) as (c3 & Hc3 & E3). exists c3. split; [done|]. by etrans.
Qed.

Definition cfg_ok (cfg : IOConnectionConfig) : Prop := is_u16 (OTSize cfg) /\ is_u16 (TOSize cfg).

Section Steps.
Context {S : Type}.
Variable SendCIPRequest : MessageRouterRequest -> SM S MessageRouterResponse.
Variable peer_addr : S -> option Z.
(** The session does not crash and its responses hold bytes. *)
Hypothesis Hsend : forall req x,
  match (SendCIPRequest req x).1 with
  | Ok resp => bytes_ok (ResponseData resp)
  | Err _ => True
  | Panic => False
  end.

(** What can happen to a scanner. *)
Inductive step (s : scanner S) : scanner S -> Prop :=
| step_open now cfg r s' : cfg_ok cfg -> Open SendCIPRequest peer_addr now cfg s = (r, s') -> step s s'
| step_close ref c r s' : heap s !! ref = Some c -> Close SendCIPRequest ref s = (r, s') -> step s s'
| step_output ref data r s' : on_conn (SetOutput data) ref s = Some (r, s') -> step s s'
| step_tick ref r s' : on_conn sendPacket ref s = Some (r, s') -> step s s'
| step_packet now data s' : bytes_ok data -> handleIncomingPacket now data s = Ok s' -> step s s'
| step_shutdown r s' : Shutdown SendCIPRequest s = (r, s') -> step s s'.

(** An update of one connection that keeps it the same one and running. *)
Lemma update_ok (s : scanner S) ref c c' :
  scan_ok s -> heap s !! ref = Some c -> same_conn c c' -> conn_ok c' -> stopped c' = stopped c ->
  scan_ok (with_conns (<[ref := c']> (heap s)) (scan_conns s) s) /\
  evolves s (with_conns (<[ref := c']> (heap s)) (scan_conns s) s).
Proof.
  intros [Hh Ht] Hc Hs Hok Hst. split; [split|].
  - intros ref1 c1. cbn [heap with_conns]. rewrite lookup_insert. case_decide; [by intros [= <-]|apply Hh].
  - intros id ref1 Hid. cbn [scan_conns heap with_conns] in *. destruct (Ht id ref1 Hid) as (c1 & H1 & H2 & H3).
    rewrite lookup_insert. case_decide as Hr; [|by exists c1]. subst ref1. simplify_eq.
    exists c'. split; [done|]. split; [apply Hs|congruence].
  - intros ref1 c1 H1. cbn [heap with_conns]. rewrite lookup_insert. case_decide as Hr; [|by exists c1].
    subst ref1. simplify_eq. by exists c'.
Qed.

Lemma with_session_ok x (s : scanner S) : scan_ok s -> scan_ok (with_session x s) /\ evolves s (with_session x s).
Proof. intros [Hh Ht]. split; [by split|]. intros ref c Hc. by exists c. Qed.
Lemma cip_send_ok fmt req s :
  let '(r, s') := wrap_err fmt (cip_send SendCIPRequest req) s in
  r <> Panic /\ (forall resp, r = Ok resp -> bytes_ok (ResponseData resp)) /\
  heap s' = heap s /\ scan_conns s' = scan_conns s /\ done s' = done s.
Proof.
  unfold wrap_err, cip_send. pose proof (Hsend req (session s)) as H.
  destruct (SendCIPRequest req (session s)) as [[resp|e|] x]; cbn in *; by split; [|split; [congruence|]].
Qed.

Lemma Close_ok ref s c :
  scan_ok s -> heap s !! ref = Some c ->
  let '(r, s') := Close SendCIPRequest ref s in
  r <> Panic /\ scan_ok s' /\ evolves s s' /\ done s' = done s /\
  scan_conns s' = delete (TOConnectionID c) (scan_conns s) /\
  heap s' = <[ref := set_stopped c]> (heap s).
Proof.
  intros [Hh Ht] Hc. unfold Close. rewrite Hc.
  set (s1 := with_conns _ _ _).
  assert (scan_ok s1 /\ evolves s s1) as [Hok1 He1].
  { split; [split|].
    - intros ref1 c1. unfold s1; cbn [heap with_conns]. rewrite lookup_insert.
      case_decide; [|apply Hh]. intros [= <-]. exact (Hh ref c Hc).
    - intros id ref1 Hid. unfold s1 in Hid. cbn [scan_conns with_conns] in Hid.
      apply lookup_delete_Some in Hid as [Hne Hid]. destruct (Ht id ref1 Hid) as (c1 & H1 & H2 & H3).
      exists c1. unfold s1; cbn [heap with_conns]. rewrite lookup_insert_ne; [done|].
      intros ->. simplify_eq.
    - intros ref1 c1 H1. unfold s1; cbn [heap with_conns]. rewrite lookup_insert.
      case_decide as Hr; [|by exists c1]. subst ref1. simplify_eq.
      exists (set_stopped c). by repeat split. }
  unfold mbind, SM_bind.
  pose proof (cip_send_ok "Forward_Close send: %w"
    (mgr_request ConnMgr.ServiceForwardClose (ConnMgr.Close_Encode (close_request_of c))) s1) as Hs.
  destruct (wrap_err _ _ s1) as [r s2]. destruct Hs as (Hp & _ & H1 & H2 & H3).
  assert (scan_ok s2 /\ evolves s s2) as [Hok2 He2].
  { destruct Hok1 as [Hh1 Ht1]. split; [split|]; rewrite ?H1, ?H2; try done.
    intros ref1 c1 Hc1. rewrite H1. by apply He1. }
  destruct r as [resp|e|]; [|by rewrite H1, H2, H3|done].
  destruct (negb (IsSuccess resp)); cbn; by rewrite H1, H2, H3.
Qed.

Lemma close_all_ok refs : forall err s,
  scan_ok s -> (forall ref, ref ∈ refs -> is_Some (heap s !! ref)) ->
  let '(r, s') := close_all SendCIPRequest refs err s in
  r <> Panic /\ scan_ok s' /\ evolves s s' /\ done s' = done s /\
  (forall ref, ref ∈ refs -> exists c, heap s' !! ref = Some c /\ stopped c = true).
Proof.
  induction refs as [|ref refs IH]; intros err s Hok Hin; cbn [close_all].
  { split; [done|]. split; [done|]. split; [reflexivity|]. split; [done|]. by intros ref ?%elem_of_nil. }
  destruct (Hin ref) as [c Hc]; [apply list_elem_of_here|].
  pose proof (Close_ok ref s c Hok Hc) as H.
  destruct (Close SendCIPRequest ref s) as [r s1]. destruct H as (Hp & Hok1 & He1 & Hd1 & _ & Hh1).
  assert (forall err', let '(r, s') := close_all SendCIPRequest refs err' s1 in
    r <> Panic /\ scan_ok s' /\ evolves s s' /\ done s' = done s /\
    (forall ref', ref' ∈ ref :: refs -> exists c, heap s' !! ref' = Some c /\ stopped c = true)) as Hall.
  { intros err'. specialize (IH err' s1 Hok1). destruct (close_all _ refs err' s1) as [r2 s2].
    destruct IH as (Hp2 & Hok2 & He2 & Hd2 & Hst2).
    { intros ref' Hr'. destruct (Hin ref') as [c' Hc']; [by apply list_elem_of_further|].
      destruct (He1 ref' c' Hc') as (c2 & Hc2 & _). by exists c2. }
    split; [done|]. split; [done|]. split; [by etrans|]. split; [congruence|].
    intros ref' [->|Hr']%elem_of_cons; [|by apply Hst2].
    destruct (He2 ref (set_stopped c)) as (c2 & Hc2 & Hs2); [by rewrite Hh1, lookup_insert_eq|].
    exists c2. split; [done|]. by apply Hs2. }
  destruct r; [apply Hall|apply Hall|done].
Qed.

Lemma le32_bytes_u32 b0 b1 b2 b3 :
  is_u8 b0 -> is_u8 b1 -> is_u8 b2 -> is_u8 b3 ->
  is_u32 (Z.lor (Z.lor (Z.lor b0 (Z.shiftl b1 8)) (Z.shiftl b2 16)) (Z.shiftl b3 24)).
Proof.
  unfold is_u8, is_u32. intros. rewrite (lor_shift_add b0) by lia. change (2 ^ 8) with 256.
  rewrite (lor_shift_add _ b2) by lia. change (2 ^ 16) with 65536.
  rewrite (lor_shift_add _ b3) by lia. change (2 ^ 24) with 16777216. lia.
Qed.
Lemma open_response_cases cfg resp :
  bytes_ok (ResponseData resp) ->
  (exists e, open_response cfg resp = Err e) \/
  exists id api, open_response cfg resp = Ok (id, api) /\ is_u32 id /\ (0 < cfg_RPI cfg -> 0 < api).
Proof.
  intros Hb. unfold open_response. destruct (negb _); [by eauto|].
  destruct (Z.ltb_spec (len (ResponseData resp)) 26); [by eauto|].
  assert (forall i, 0 <= i -> i + 4 <= 26 ->
    exists v, (b ← go_slice (ResponseData resp) i (i + 4); get_le32 b) = Ok v /\ is_u32 v) as Hs.
  { intros i Hi Hi4. unfold go_slice. rewrite decide_True by lia. go_bind.
    set (b := take _ _).
    assert (bytes_ok b) as Hbok by (apply Forall_take, Forall_drop, Hb).
    assert (length b = 4%nat) as Hl.
    { unfold b. rewrite length_take, length_drop. unfold len in *. lia. }
    destruct b as [|b0 [|b1 [|b2 [|b3 [|]]]]]; try done.
    apply Forall_cons in Hbok as [? [? [? [? _]%Forall_cons]%Forall_cons]%Forall_cons].
    eexists. split; [done|]. by apply le32_bytes_u32. }
  destruct (Hs 4) as (id & E1 & Hid); [lia|lia|]. destruct (Hs 16) as (api & E2 & Hapi); [lia|lia|].
  change (4 + 4) with 8 in E1. change (16 + 4) with 20 in E2. right. rewrite E1, E2. go_bind.
  eexists _, _. split; [done|]. split; [done|]. destruct (Z.eqb_spec (api * 1000) 0); [done|widths; lia].
Qed.

Lemma new_conn_ref_fresh h : h !! new_conn_ref h = None.
Proof.
  apply (not_elem_of_dom (D := gset nat)). rewrite <-elem_of_elements.
  unfold new_conn_ref. apply infinite_is_fresh.
Qed.

Lemma Open_ok now cfg s :
  scan_ok s -> cfg_ok cfg ->
  let '(r, s') := Open SendCIPRequest peer_addr now cfg s in
  r <> Panic /\ scan_ok s' /\ evolves s s'.
Proof.
  intros Hok [Ho Ht]. unfold Open, next_ids, originator, mbind, SM_bind.
  set (s1 := mkScanner _ _ _ _ _ _ _ _).
  assert (scan_ok s1 /\ evolves s s1) as [Hok1 He1].
  { destruct Hok. split; [by split|]. intros ref c Hc. by exists c. }
  match goal with |- context [wrap_err ?f (cip_send _ ?q) s1] =>
    pose proof (cip_send_ok f q s1) as Hs; destruct (wrap_err f _ s1) as [r s2] end.
  destruct Hs as (Hp & Hb & H1 & H2 & _).
  assert (scan_ok s2 /\ evolves s s2) as [Hok2 He2].
  { destruct Hok1 as [Hh1 Ht1]. split; [split|]; rewrite ?H1, ?H2; try done.
    intros ref1 c1 Hc1. rewrite H1. by apply He1. }
  destruct r as [resp|e|]; [|done|done]. unfold pure.
  destruct (open_response_cases cfg resp (Hb resp eq_refl)) as [[e ->]|(id & api & -> & Hid & _)]; [done|].
  unfold target_addr, add_conn.
  assert (forall addr, let c := mkIOConn (u32 (nextOTID s + 1)) id (u16 (u32 (nextSerial s + 1)))
      (vendorID s1) (originatorSN s1) (replicate (Z.to_nat (OTSize cfg)) 0)
      (replicate (Z.to_nat (TOSize cfg)) 0) api 0 now (cfg_TimeoutMultiplier cfg)
      (cfg_RunIdleHeader cfg) addr false in
    scan_ok (with_conns (<[new_conn_ref (heap s2) := c]> (heap s2))
               (<[id := new_conn_ref (heap s2)]> (scan_conns s2)) s2) /\
    evolves s (with_conns (<[new_conn_ref (heap s2) := c]> (heap s2))
                 (<[id := new_conn_ref (heap s2)]> (scan_conns s2)) s2)) as Hadd.
  { intros addr c. assert (heap s2 !! new_conn_ref (heap s2) = None) as Hnew.
    { apply new_conn_ref_fresh. }
    destruct Hok2 as [Hh2 Ht2]. split; [split|].
    - intros ref1 c1. cbn [heap with_conns]. rewrite lookup_insert. case_decide; [|apply Hh2].
      intros [= <-]. unfold c, conn_ok. cbn. rewrite !len_replicate. widths. repeat split; dlia.
    - intros id1 ref1. cbn [scan_conns heap with_conns]. rewrite lookup_insert. case_decide as Hi.
      + intros [= <-]. exists c. rewrite lookup_insert_eq. by subst id1.
      + intros Hid1. destruct (Ht2 id1 ref1 Hid1) as (c1 & Hc1 & H3). exists c1.
        rewrite lookup_insert_ne by congruence. done.
    - intros ref1 c1 Hc1. destruct (He2 ref1 c1 Hc1) as (c2 & Hc2 & Hs2). exists c2.
      cbn [heap with_conns]. by rewrite lookup_insert_ne by congruence. }
  destruct (TargetAddr cfg) as [a|]; [by split; [|apply Hadd]|].
  destruct (peer_addr (session s2)) as [a|]; [by split; [|apply Hadd]|done].
Qed.

Lemma packet_scan_ok now data (s : scanner S) :
  scan_ok s -> bytes_ok data ->
  exists s', handleIncomingPacket now data s = Ok s' /\ scan_ok s' /\ evolves s s' /\
    scan_conns s' = scan_conns s.
Proof.
  intros Hok Hb.
  assert (forall s', s' = s -> exists s'', Ok s' = Ok s'' /\ scan_ok s'' /\ evolves s s'' /\
    scan_conns s'' = scan_conns s) as Hsame.
  { intros s' ->. exists s. split; [done|]. split; [done|]. by split. }
  unfold handleIncomingPacket. destruct (Z.ltb_spec (len data) 16); [by apply Hsame|].
  destruct (le16_at_in data 0 2) as (n & -> & _); try done; try lia. go_bind.
  destruct (negb (n =? 2)); [by apply Hsame|].
  assert (exists b id, go_slice data 6 10 = Ok b /\ get_le32 b = Ok id) as (b & id & -> & ->).
  { destruct data as [|b0 [|b1 [|b2 [|b3 [|b4 [|b5 [|b6 [|b7 [|b8 [|b9 data]]]]]]]]]];
      try (exfalso; repeat (rewrite len_cons in *); change (len (@nil Z)) with 0 in *; lia).
    exists [b6; b7; b8; b9]. eexists.
    split; [by apply (go_slice_mid [b0; b1; b2; b3; b4; b5] [b6; b7; b8; b9] data 6 10)|done]. }
  destruct (le16_at_in data 12 14) as (dl & -> & Hdl); try done; try lia. go_bind.
  destruct (Z.ltb_spec (len data) (14 + dl)); [by apply Hsame|].
  unfold go_slice at 1. rewrite decide_True by (widths; lia). set (payload := take _ _).
  destruct (scan_conns s !! id) as [ref|] eqn:Er; [|by apply Hsame].
  destruct (so_table s Hok id ref Er) as (c & Hc & Hid & Hst). rewrite Hc.
  destruct (Z.ltb_spec (len payload) (if runIdleHeader c then 6 else 2)) as [|Hl]; [by apply Hsame|].
  unfold go_slice. rewrite decide_True by (destruct (runIdleHeader c); lia). set (d := take _ _).
  eexists. split; [done|].
  destruct (update_ok s ref c (set_input now (if len d =? len (inputData c) then d else inputData c) c))
    as [H1 H2]; try done.
  - repeat split; try done. cbn. destruct (Z.eqb_spec (len d) (len (inputData c))); done.
  - destruct (so_heap s Hok ref c Hc) as (A1 & A2 & A3 & A4 & A5 & A6).
    refine (conj A1 (conj A2 (conj A3 (conj A4 (conj A5 _))))). cbn [inputData set_input].
    destruct (Z.eqb_spec (len d) (len (inputData c))); lia.
Qed.

Lemma step_ok s s' : scan_ok s -> step s s' -> scan_ok s' /\ evolves s s'.
Proof.
  intros Hok Hs. destruct Hs as [now cfg r s' Hcfg E|ref c r s' Hc E|ref data r s' E|ref r s' E
    |now data s' Hb E|r s' E].
  - pose proof (Open_ok now cfg s Hok Hcfg) as H. rewrite E in H. by destruct H as (_ & H1 & H2).
  - pose proof (Close_ok ref s c Hok Hc) as H. rewrite E in H. by destruct H as (_ & H1 & H2 & _).
  - unfold on_conn in E. destruct (heap s !! ref) as [c|] eqn:Hc; [|done]. unfold SetOutput in E.
    destruct (so_heap s Hok ref c Hc) as (A1 & A2 & A3 & A4 & A5 & A6).
    destruct (Z.eqb_spec (len data) (len (outputData c))) as [El|]; cbn [negb] in E; injection E as <- <-.
    + apply (update_ok s ref c); try done.
      refine (conj A1 (conj A2 (conj A3 (conj A4 (conj _ A6))))). cbn [outputData set_output]. lia.
    + by apply (update_ok s ref c).
  - unfold on_conn in E. destruct (heap s !! ref) as [c|] eqn:Hc; [|done]. cbn in E. injection E as <- <-.
    destruct (so_heap s Hok ref c Hc) as (A1 & A2 & A3 & A4 & A5 & A6).
    apply (update_ok s ref c); try done.
    refine (conj A1 (conj A2 (conj A3 (conj _ (conj A5 A6))))). cbn. auto with go.
  - destruct (packet_scan_ok now data s Hok Hb) as (s1 & E1 & H1 & H2 & _).
    rewrite E in E1. injection E1 as <-. by split.
  - unfold Shutdown in E. pose proof (close_all_ok (map snd (map_to_list (scan_conns s))) None s Hok) as H.
    destruct (close_all _ _ None s) as [r1 s1]. destruct H as (_ & H1 & H2 & _).
    { intros ref ([id ref'] & -> & Hin)%list_elem_of_fmap. apply elem_of_map_to_list in Hin.
      destruct (so_table s Hok id ref' Hin) as (c & Hc & _). by exists c. }
    destruct r1 as [e|e|]; [destruct (done s1)|..]; injection E as <- <-; try by split.
    split; [destruct H1; by split|exact H2].
Qed.

(** C30: Whatever connections are opened, closed and shut down, whatever the device
    answers and whatever packets arrive, the scanner stays well formed: its table
    leads to running connections under the identifier they were given, a
    connection keeps its identity and the sizes of its assemblies for good, once
    stopped it stays stopped, and no received packet crashes it. *)
Theorem scanner_well_formed x vendor orig s s' :
  rtc step (NewIOScanner x vendor orig) s -> rtc step s s' ->
  scan_ok s' /\ evolves s s' /\
  (forall now data, bytes_ok data -> exists s'', handleIncomingPacket now data s' = Ok s'').
Proof.
  assert (forall a b, rtc step a b -> scan_ok a -> scan_ok b /\ evolves a b) as Hrtc.
  { induction 1 as [a|a b c Hab _ IH]; intros Ha; [by split|].
    destruct (step_ok a b Ha Hab) as [Hb He]. destruct (IH Hb) as [Hc He']. split; [done|]. by etrans. }
  intros H1 H2. destruct (Hrtc _ _ H1) as [Hs _]; [by split|].
  destruct (Hrtc _ _ H2 Hs) as [Hs' He]. split; [done|]. split; [done|].
  intros now data Hb. destruct (packet_scan_ok now data s' Hs' Hb) as (s2 & E & _). by exists s2.
Qed.
End Steps.

Lemma scanner_well_formed_witness :
  let send (req : MessageRouterRequest) (x : unit) : outcome MessageRouterResponse * unit :=
    (Ok (mkMRResp 0xD4 0 0 0 [] (replicate 26 1)), x) in
  let cfg := mkIOConfig 100 101 0 4 4 10000000 0 false (Some 7) None in
  let s := (Open send (fun _ => None) 0 cfg (NewIOScanner tt 1 1)).2 in
  map fst (map_to_list (scan_conns s)) = [0x01010101] /\ scan_ok s.
Proof.
  intros send cfg s. split; [reflexivity|].
  refine (proj1 (scanner_well_formed send (fun _ => None) _ tt 1 1 s s _ _)).
  - intros req x. vm_compute. repeat constructor; vm_compute; congruence.
  - apply rtc_once. apply (step_open _ _ _ 0 cfg (Ok 0%nat)); [split; decided|]. reflexivity.
  - constructor.
Defined.
