(* ===== verification/ScanLife.v ===== *)
(** * The goroutines of the I/O scanner

    Models the concurrency of [protocol/ethernetip/io.go]: the [receiveLoop] that
    [NewIOScanner] starts, one [produceLoop] per connection that [Open] starts, and
    [Shutdown] step by step: the snapshot of the table, a Forward_Close for each
    connection, closing the [done] channel and the socket, and waiting for the
    goroutines.  Between any two steps other calls and goroutines run.  The
    operations on the data are those of [IOScanner]. *)
From S2P Require Import Prelude Bytes Cip CipObjects IORuntime IOScanner.

Inductive producer_pc : Type := PStart | PSelect | PGone.
Inductive shutdown_pc : Type :=
| SIdle
| SClosing (refs : list nat) (firstErr : option error)
| SWaiting (firstErr : option error)
| SReturned (firstErr : option error).

Section ScanLife.
Context {S : Type}.
Variable SendCIPRequest : MessageRouterRequest -> SM S MessageRouterResponse.
Variable peer_addr : S -> option Z.

Record life : Type := mkLife {
  lf_scan : scanner S;
  lf_prods : list (nat * producer_pc);   (** the connection of a producer and where it is *)
  lf_recv : bool;                        (** [receiveLoop] is running *)
  lf_shut : shutdown_pc
}.
Definition new_life (x : S) (vendor orig : Z) : life :=
  mkLife (NewIOScanner x vendor orig) [] true SIdle.

Definition with_scan (s : life) (sc : scanner S) : life := mkLife sc (lf_prods s) (lf_recv s) (lf_shut s).
Definition with_prod (s : life) (i : nat) (ref : nat) (pc : producer_pc) : life :=
  mkLife (lf_scan s) (<[i := (ref, pc)]> (lf_prods s)) (lf_recv s) (lf_shut s).
Definition with_shut (s : life) (p : shutdown_pc) : life :=
  mkLife (lf_scan s) (lf_prods s) (lf_recv s) p.
Definition stop_receiver (s : life) : life := mkLife (lf_scan s) (lf_prods s) false (lf_shut s).
(** [close(s.done)] and [s.udpConn.Close()] *)
Definition close_done (sc : scanner S) : outcome (scanner S) :=
  if done sc then Panic
  else Ok (mkScanner (session sc) (vendorID sc) (originatorSN sc) (heap sc) (scan_conns sc)
             (nextOTID sc) (nextSerial sc) true).

Definition gone (p : nat * producer_pc) : bool := match p.2 with PGone => true | _ => false end.
Definition wg_zero (s : life) : bool := forallb gone (lf_prods s) && negb (lf_recv s).

Inductive event : Type :=
| EOpen (now : Z) (cfg : IOConnectionConfig) | EClose (ref : nat)
| ESetOutput (ref : nat) (data : bytes)
| EPacket (now : Z) (data : bytes) | EReadError
| ETick (i : nat)                    (** the ticker of producer [i] *)
| EShutdown                          (** [Shutdown] is called and takes its snapshot *)
| EStart (i : nat) | EStop (i : nat) | ERecvExit
| EShutClose | EShutDone | EShutWait.
(** The moves of the goroutines and of [Shutdown] itself. *)
Definition internal (e : event) : bool :=
  match e with
  | EStart _ | EStop _ | ERecvExit | EShutClose | EShutDone | EShutWait => true
  | _ => false
  end.

Definition lstep (e : event) (s : life) : option (outcome life) :=
  match e with
  | EOpen now cfg =>
      match Open SendCIPRequest peer_addr now cfg (lf_scan s) with
      | (Ok ref, sc) => Some (Ok (mkLife sc (lf_prods s ++ [(ref, PStart)]) (lf_recv s) (lf_shut s)))
      | (Err _, sc) => Some (Ok (with_scan s sc))
      | (Panic, _) => Some Panic
      end
  | EClose ref =>
      match Close SendCIPRequest ref (lf_scan s) with
      | (Panic, _) => Some Panic
      | (_, sc) => Some (Ok (with_scan s sc))
      end
  | ESetOutput ref data =>
      match on_conn (SetOutput data) ref (lf_scan s) with
      | Some (_, sc) => Some (Ok (with_scan s sc))
      | None => None
      end
  | EPacket now data =>
      if lf_recv s && negb (done (lf_scan s)) then
        match handleIncomingPacket now data (lf_scan s) with
        | Ok sc => Some (Ok (with_scan s sc))
        | _ => Some Panic
        end
      else None
  | EReadError => if lf_recv s then Some (Ok (stop_receiver s)) else None
  | ETick i =>
      match lf_prods s !! i with
      | Some (ref, PSelect) =>
          match on_conn sendPacket ref (lf_scan s) with
          | Some (_, sc) => Some (Ok (with_scan s sc))
          | None => None
          end
      | _ => None
      end
  | EShutdown =>
      match lf_shut s with
      | SIdle => Some (Ok (with_shut s (SClosing (map snd (map_to_list (scan_conns (lf_scan s)))) None)))
      | _ => None
      end
  | EStart i =>
      match lf_prods s !! i with
      | Some (ref, PStart) =>
          match heap (lf_scan s) !! ref with
          | Some c => match new_ticker c with Panic => Some Panic | _ => Some (Ok (with_prod s i ref PSelect)) end
          | None => None
          end
      | _ => None
      end
  | EStop i =>
      match lf_prods s !! i with
      | Some (ref, PSelect) =>
          match heap (lf_scan s) !! ref with
          | Some c => if stopped c || done (lf_scan s) then Some (Ok (with_prod s i ref PGone)) else None
          | None => None
          end
      | _ => None
      end
  | ERecvExit => if lf_recv s && done (lf_scan s) then Some (Ok (stop_receiver s)) else None
  | EShutClose =>
      match lf_shut s with
      | SClosing (ref :: refs) firstErr =>
          match Close SendCIPRequest ref (lf_scan s) with
          | (Ok _, sc) => Some (Ok (with_shut (with_scan s sc) (SClosing refs firstErr)))
          | (Err e, sc) =>
              Some (Ok (with_shut (with_scan s sc)
                (SClosing refs (match firstErr with Some f => Some f | None => Some e end))))
          | (Panic, _) => Some Panic
          end
      | _ => None
      end
  | EShutDone =>
      match lf_shut s with
      | SClosing [] firstErr =>
          match close_done (lf_scan s) with
          | Ok sc => Some (Ok (with_shut (with_scan s sc) (SWaiting firstErr)))
          | _ => Some Panic
          end
      | _ => None
      end
  | EShutWait =>
      match lf_shut s with
      | SWaiting firstErr => if wg_zero s then Some (Ok (with_shut s (SReturned firstErr))) else None
      | _ => None
      end
  end.

Fixpoint lrun (s : life) (es : list event) : option (outcome life) :=
  match es with
  | [] => Some (Ok s)
  | e :: es =>
      match lstep e s with
      | Some (Ok s) => lrun s es
      | Some r => Some r
      | None => None
      end
  end.
Lemma lrun_app es1 es2 : forall s,
  lrun s (es1 ++ es2) = match lrun s es1 with Some (Ok s) => lrun s es2 | r => r end.
Proof.
  induction es1 as [|e es1 IH]; intros s; cbn; [done|]. by destruct (lstep e s) as [[s1| |]|].
Qed.
Definition at_rest (s : life) : Prop := forall e, internal e = true -> lstep e s = None.

(** ** Without interleaving, the steps are [Shutdown] *)
Lemma closing_steps refs : forall err s sc err' sc',
  lf_shut s = SClosing refs err -> close_all SendCIPRequest refs err sc = (Ok err', sc') -> lf_scan s = sc ->
  lrun s (replicate (length refs) EShutClose) = Some (Ok (with_shut (with_scan s sc') (SClosing [] err'))).
Proof.
  induction refs as [|ref refs IH]; intros err s sc err' sc' Hs E Hsc; cbn in *.
  - injection E as <- <-. destruct s; cbn in *. by subst.
  - rewrite Hs, Hsc. destruct (Close SendCIPRequest ref sc) as [[u|e|] sc1]; [| |done];
      (etransitivity; [eapply IH; [reflexivity|exact E|reflexivity]|done]).
Qed.
Lemma shutdown_refines s err sc' :
  lf_shut s = SIdle -> Shutdown SendCIPRequest (lf_scan s) = (Ok err, sc') ->
  lrun s (EShutdown :: replicate (size (scan_conns (lf_scan s))) EShutClose ++ [EShutDone]) =
    Some (Ok (with_shut (with_scan s sc') (SWaiting err))).
Proof.
  intros Hs E. unfold Shutdown in E. cbn [lrun lstep]. rewrite Hs.
  destruct (close_all _ _ None _) as [[err1|e|] sc1] eqn:Ec; [|done|done].
  destruct (done sc1) eqn:Ed; [done|]. injection E as <- <-.
  assert (size (scan_conns (lf_scan s)) = length (map snd (map_to_list (scan_conns (lf_scan s))))) as ->
    by (by rewrite length_map, length_map_to_list).
  rewrite lrun_app. erewrite closing_steps; [|reflexivity|exact Ec|reflexivity]. cbn.
  unfold close_done. by rewrite Ed.
Qed.


(** ** Every reachable state *)
Hypothesis Hsend : forall req x,
  match (SendCIPRequest req x).1 with
  | Ok resp => bytes_ok (ResponseData resp)
  | Err _ => True
  | Panic => False
  end.

(** [A] stands for what is known of the configurations: where it holds, every
    connection has a positive interval. *)
Definition rpi_ok (A : Prop) (sc : scanner S) : Prop :=
  A -> forall ref c, heap sc !! ref = Some c -> 0 < conn_RPI c.
Record linv (A : Prop) (s : life) : Prop := {
  li_ok : scan_ok (lf_scan s);
  li_rpi : rpi_ok A (lf_scan s);
  li_prods : Forall (fun p => is_Some (heap (lf_scan s) !! p.1)) (lf_prods s);
  li_refs : match lf_shut s with
            | SClosing refs _ => Forall (fun ref => is_Some (heap (lf_scan s) !! ref)) refs
            | _ => True
            end;
  li_done : done (lf_scan s) = match lf_shut s with SWaiting _ | SReturned _ => true | _ => false end
}.

(** What the environment passes in: sizes within 16 bits and packets of bytes. *)
Definition event_ok (e : event) : Prop :=
  match e with
  | EOpen _ cfg => cfg_ok cfg
  | EPacket _ data => bytes_ok data
  | _ => True
  end.
(** A configuration with a positive interval; nothing in the code asks for it. *)
Definition positive_rpi (e : event) : Prop :=
  match e with EOpen _ cfg => 0 < cfg_RPI cfg | _ => True end.
(** A producer that is about to call [time.NewTicker] with an interval it refuses. *)
Definition bad_interval (s : life) (e : event) : Prop :=
  exists i ref c, e = EStart i /\ lf_prods s !! i = Some (ref, PStart) /\
    heap (lf_scan s) !! ref = Some c /\ conn_RPI c <= 0.

Lemma evolves_some (sc sc' : scanner S) ref :
  evolves sc sc' -> is_Some (heap sc !! ref) -> is_Some (heap sc' !! ref).
Proof. intros He [c Hc]. destruct (He ref c Hc) as (c' & Hc' & _). by exists c'. Qed.

(** An operation on the scanner that keeps its connections. *)
Lemma carry A s sc :
  linv A s -> scan_ok sc -> rpi_ok A sc -> evolves (lf_scan s) sc -> done sc = done (lf_scan s) ->
  linv A (with_scan s sc).
Proof.
  intros [I1 I2 I3 I4 I5] H1 H2 He Hd. split; cbn; [done|done| | |by rewrite Hd].
  - eapply Forall_impl; [exact I3|]. intros p. by apply evolves_some.
  - destruct (lf_shut s); try done. eapply Forall_impl; [exact I4|]. intros ref. by apply evolves_some.
Qed.

Lemma Open_life A now cfg sc :
  scan_ok sc -> rpi_ok A sc -> cfg_ok cfg -> (A -> 0 < cfg_RPI cfg) ->
  let '(r, sc') := Open SendCIPRequest peer_addr now cfg sc in
  r <> Panic /\ scan_ok sc' /\ evolves sc sc' /\ done sc' = done sc /\ rpi_ok A sc' /\
  (forall ref, r = Ok ref -> exists c, heap sc' !! ref = Some c /\ (0 < cfg_RPI cfg -> 0 < conn_RPI c)).
Proof.
  intros Hok Hr Hcfg Hpos. pose proof (Open_ok _ peer_addr Hsend now cfg sc Hok Hcfg) as Hopen.
  revert Hopen. unfold Open, next_ids, originator, mbind, SM_bind. set (s1 := mkScanner _ _ _ _ _ _ _ _).
  match goal with |- context [wrap_err ?f (cip_send _ ?q) s1] =>
    pose proof (cip_send_ok _ Hsend f q s1) as Hs; destruct (wrap_err f _ s1) as [r s2] end.
  destruct Hs as (_ & Hb & H1 & _ & H3). assert (rpi_ok A s2) as Hr2 by (unfold rpi_ok; rewrite H1; exact Hr).
  assert (done s2 = done sc) as Hd2 by (rewrite H3; done).
  destruct r as [resp|e|]; [|naive_solver|naive_solver]. unfold pure.
  destruct (open_response_cases cfg resp (Hb resp eq_refl)) as [[e ->]|(id & api & -> & _ & Hapi)];
    [naive_solver|].
  assert (forall c, conn_RPI c = api -> rpi_ok A (with_conns (<[new_conn_ref (heap s2) := c]> (heap s2))
    (<[id := new_conn_ref (heap s2)]> (scan_conns s2)) s2)) as Hr3.
  { intros c Hc HA ref1 c1. cbn [heap with_conns]. rewrite lookup_insert. case_decide; [|by apply Hr2].
    intros [= <-]. rewrite Hc. auto. }
  assert (forall c, conn_RPI c = api -> exists c', heap (with_conns (<[new_conn_ref (heap s2) := c]> (heap s2))
    (<[id := new_conn_ref (heap s2)]> (scan_conns s2)) s2) !! new_conn_ref (heap s2) = Some c' /\
    (0 < cfg_RPI cfg -> 0 < conn_RPI c')) as Hin.
  { intros c Hc. cbn [heap with_conns]. rewrite lookup_insert_eq. exists c. by rewrite Hc. }
  unfold target_addr, add_conn.
  destruct (TargetAddr cfg) as [a|]; [|destruct (peer_addr (session s2)) as [a|]; [|naive_solver]];
    intros (? & ? & ?); split_and!; try done; try (by apply Hr3); intros ref [= <-]; by apply Hin.
Qed.

Lemma Close_life A ref sc c :
  scan_ok sc -> rpi_ok A sc -> heap sc !! ref = Some c ->
  let '(r, sc') := Close SendCIPRequest ref sc in
  r <> Panic /\ scan_ok sc' /\ evolves sc sc' /\ done sc' = done sc /\ rpi_ok A sc'.
Proof.
  intros Hok Hr Hc. pose proof (Close_ok _ Hsend ref sc c Hok Hc) as H.
  destruct (Close SendCIPRequest ref sc) as [r sc']. destruct H as (? & ? & ? & ? & _ & Hh).
  split_and!; try done. intros HA ref1 c1. rewrite Hh, lookup_insert. case_decide; [|by apply Hr].
  intros [= <-]. by apply (Hr HA ref c).
Qed.

(** A method of one connection that leaves its interval alone. *)
Lemma on_conn_life A {T} (f : IOConn -> T * IOConn) ref sc a sc' :
  on_conn f ref sc = Some (a, sc') -> (forall c, conn_RPI (f c).2 = conn_RPI c) -> rpi_ok A sc ->
  rpi_ok A sc' /\ done sc' = done sc.
Proof.
  unfold on_conn. intros E Hf Hr. destruct (heap sc !! ref) as [c|] eqn:Hc; [|done].
  specialize (Hf c). destruct (f c) as [a' c']. injection E as <- <-. split; [|done].
  intros HA ref1 c1. cbn [heap with_conns]. rewrite lookup_insert. case_decide; [|by apply Hr].
  intros [= <-]. cbn in Hf. rewrite Hf. by apply (Hr HA ref c).
Qed.
Lemma packet_life A now data (sc sc' : scanner S) :
  handleIncomingPacket now data sc = Ok sc' -> rpi_ok A sc -> rpi_ok A sc' /\ done sc' = done sc.
Proof.
  intros E Hr. unfold handleIncomingPacket, mbind, outcome_bind in E.
  repeat match goal with
  | H : (if ?b then _ else _) = Ok _ |- _ => destruct b; [by injection H as <-|]
  | H : (match ?m with Ok _ => _ | Err _ => _ | Panic => _ end) = Ok _ |- _ => destruct m; try done
  end.
  destruct (scan_conns sc !! _) as [ref|]; [|by injection E as <-].
  destruct (heap sc !! ref) as [c|] eqn:Hc; [|done].
  destruct (_ <? _); [by injection E as <-|]. destruct (go_slice _ _ _) as [d| |]; try done.
  injection E as <-. split; [|done]. intros HA ref1 c1. cbn [heap with_conns]. rewrite lookup_insert.
  case_decide; [|by apply Hr]. intros [= <-]. by apply (Hr HA ref c).
Qed.

Lemma with_prod_linv A s i ref pc pc' :
  linv A s -> lf_prods s !! i = Some (ref, pc) -> linv A (with_prod s i ref pc').
Proof.
  intros [I1 I2 I3 I4 I5] Hi. split; cbn; try done. apply Forall_insert; [done|].
  exact (Forall_lookup_1 _ _ _ _ I3 Hi).
Qed.

(** Nothing crashes but closing a connection the scanner never gave out and a
    producer's call of [time.NewTicker]. *)
Lemma lstep_linv A e s r :
  linv A s -> event_ok e -> (A -> positive_rpi e) -> lstep e s = Some r ->
  match r with
  | Ok s' => linv A s'
  | Err _ => False
  | Panic => (exists ref, e = EClose ref) \/ (~ A /\ bad_interval s e)
  end.
Proof.
  intros I He Hp E. pose proof I as [I1 I2 I3 I4 I5].
  destruct e as [now cfg|ref|ref data|now data| |i| |i|i| | | |]; cbn [lstep event_ok positive_rpi internal] in *.
  - pose proof (Open_life A now cfg (lf_scan s) I1 I2 He Hp) as H.
    destruct (Open _ _ _ _ _) as [[ref|e|] sc]; injection E as <-; [| |naive_solver];
      destruct H as (_ & H1 & H2 & H3 & H4 & H5); destruct (carry A s sc) as [C1 C2 C3 C4 C5]; try done.
    split; try done. cbn. apply Forall_app. split; [done|]. apply Forall_singleton.
    destruct (H5 ref eq_refl) as (c & Hc & _). by exists c.
  - destruct (heap (lf_scan s) !! ref) as [c|] eqn:Hc.
    + pose proof (Close_life A ref (lf_scan s) c I1 I2 Hc) as H.
      destruct (Close _ _ _) as [[u|e|] sc]; injection E as <-; [| |naive_solver];
        destruct H as (_ & H1 & H2 & H3 & H4); by apply carry.
    + unfold Close in E. rewrite Hc in E. injection E as <-. left. by exists ref.
  - destruct (on_conn _ ref _) as [[a sc]|] eqn:Eo; [|done]. injection E as <-.
    destruct (step_ok _ peer_addr Hsend (lf_scan s) sc I1) as [H1 H2]; [by eapply step_output|].
    destruct (on_conn_life A _ _ _ _ _ Eo) as [H3 H4]; [|done|by apply carry].
    intros c. unfold SetOutput. by destruct (negb _).
  - destruct (lf_recv s && _); [|done].
    destruct (packet_scan_ok now data (lf_scan s) I1 He) as (sc & E1 & H1 & H2 & _). rewrite E1 in E.
    injection E as <-. destruct (packet_life A _ _ _ _ E1 I2). by apply carry.
  - destruct (lf_recv s); [|done]. injection E as <-. by split.
  - destruct (lf_prods s !! i) as [[ref [| |]]|]; try done.
    destruct (on_conn _ ref _) as [[a sc]|] eqn:Eo; [|done]. injection E as <-.
    destruct (step_ok _ peer_addr Hsend (lf_scan s) sc I1) as [H1 H2]; [by eapply step_tick|].
    destruct (on_conn_life A _ _ _ _ _ Eo) as [H3 H4]; [done|done|by apply carry].
  - destruct (lf_shut s) eqn:Es; try done. injection E as <-. split; cbn; try done.
    apply Forall_forall. intros ref ([id ref'] & -> & Hin)%list_elem_of_fmap.
    apply elem_of_map_to_list in Hin. destruct (so_table _ I1 id ref' Hin) as (c & Hc & _). by exists c.
  - destruct (lf_prods s !! i) as [[ref [| |]]|] eqn:Ei; try done.
    destruct (heap _ !! ref) as [c|] eqn:Hc; [|done]. unfold new_ticker in E.
    destruct (Z.leb_spec (conn_RPI c) 0) as [Hle|Hlt]; injection E as <-; [|by eapply with_prod_linv].
    right. split; [intros HA; pose proof (I2 HA ref c Hc); lia|]. by exists i, ref, c.
  - destruct (lf_prods s !! i) as [[ref [| |]]|] eqn:Ei; try done.
    destruct (heap _ !! ref) as [c|]; [|done]. destruct (stopped c || _); [|done].
    injection E as <-. by eapply with_prod_linv.
  - destruct (lf_recv s && _); [|done]. injection E as <-. by split.
  - destruct (lf_shut s) as [|[|ref refs] err| |] eqn:Es; try done.
    apply Forall_cons in I4 as [[c Hc] I4].
    pose proof (Close_life A ref (lf_scan s) c I1 I2 Hc) as H.
    destruct (Close _ _ _) as [[u|e|] sc]; [| |naive_solver]; injection E as <-;
      destruct H as (_ & H1 & H2 & H3 & H4); split; cbn; try done; try congruence;
      try (eapply Forall_impl; [exact I3|]; intros p; by apply evolves_some);
      (eapply Forall_impl; [exact I4|]; intros r; by apply evolves_some).
  - destruct (lf_shut s) as [|[|ref refs] err| |] eqn:Es; try done. unfold close_done in E. rewrite I5 in E.
    injection E as <-. destruct I1 as [Hh Ht]. by split.
  - destruct (lf_shut s) as [| |err|] eqn:Es; try done. destruct (wg_zero s); [|done].
    injection E as <-. by split.
Qed.

Lemma scan_new_linv A x vendor orig : linv A (new_life x vendor orig).
Proof. by split. Qed.

Lemma lrun_linv A es : forall s s',
  linv A s -> Forall event_ok es -> (A -> Forall positive_rpi es) -> lrun s es = Some (Ok s') -> linv A s'.
Proof.
  induction es as [|e es IH]; intros s s' I He Hp E; cbn in E; [by injection E as <-|].
  apply Forall_cons in He as [He Hes]. destruct (lstep e s) as [r|] eqn:E1; [|done].
  assert (A -> positive_rpi e /\ Forall positive_rpi es) as Hp' by (intros HA; by apply Forall_cons, Hp).
  pose proof (lstep_linv A e s r I He (fun HA => proj1 (Hp' HA)) E1) as H. destruct r as [s1| |]; try done.
  eapply IH; [exact H|exact Hes| |exact E]. intros HA. by apply Hp'.
Qed.

(** ** [Shutdown] returns *)
Definition producer_weight (p : nat * producer_pc) : nat :=
  match p.2 with PStart => 2 | PSelect => 1 | PGone => 0 end.
Definition shutdown_weight (p : shutdown_pc) : nat :=
  match p with SClosing refs _ => 2 + length refs | SWaiting _ => 1 | _ => 0 end.
Definition scan_work (s : life) : nat :=
  sum_list_with producer_weight (lf_prods s) + (if lf_recv s then 1 else 0) + shutdown_weight (lf_shut s).

Lemma internal_works e s s' :
  internal e = true -> lstep e s = Some (Ok s') -> (scan_work s' < scan_work s)%nat.
Proof.
  intros Hi E. destruct e as [| | | | | | |i|i| | | |]; try done; cbn [lstep] in E; unfold scan_work.
  - destruct (lf_prods s !! i) as [[ref [| |]]|] eqn:Ei; try done.
    destruct (heap _ !! ref) as [c|]; [|done]. destruct (new_ticker c); try done; injection E as <-; cbn;
      pose proof (sum_list_insert producer_weight _ _ _ (ref, PSelect) Ei) as H; cbn in H; lia.
  - destruct (lf_prods s !! i) as [[ref [| |]]|] eqn:Ei; try done.
    destruct (heap _ !! ref) as [c|]; [|done]. destruct (stopped c || _); [|done]. injection E as <-. cbn.
    pose proof (sum_list_insert producer_weight _ _ _ (ref, PGone) Ei) as H. cbn in H. lia.
  - destruct (lf_recv s); [|done]. cbn in E. destruct (done _); [|done]. injection E as <-. cbn. lia.
  - destruct (lf_shut s) as [|[|ref refs] err| |]; try done.
    destruct (Close _ _ _) as [[u|e|] sc]; try done; injection E as <-; cbn; lia.
  - destruct (lf_shut s) as [|[|ref refs] err| |]; try done.
    destruct (close_done _); try done. injection E as <-. cbn. lia.
  - destruct (lf_shut s) as [| |err|]; try done. destruct (wg_zero s); [|done]. injection E as <-. cbn. lia.
Qed.

Lemma scan_rest_returned A s :
  linv A s -> lf_shut s <> SIdle -> at_rest s ->
  (exists err, lf_shut s = SReturned err) /\ Forall (fun p => p.2 = PGone) (lf_prods s) /\ lf_recv s = false.
Proof.
  intros [I1 I2 I3 I4 I5] Hn Hr.
  assert (done (lf_scan s) = true) as Hd.
  { destruct (lf_shut s) as [|[|ref refs] err| |] eqn:Es; try done.
    - specialize (Hr EShutDone eq_refl). cbn in Hr. rewrite Es in Hr. unfold close_done in Hr. by rewrite I5 in Hr.
    - specialize (Hr EShutClose eq_refl). cbn in Hr. rewrite Es in Hr.
      by destruct (Close _ _ _) as [[]]. }
  assert (Forall (fun p => p.2 = PGone) (lf_prods s)) as Hp.
  { apply Forall_lookup. intros i [ref pc] Hi. destruct (Forall_lookup_1 _ _ _ _ I3 Hi) as [c Hc].
    destruct pc; [| |done].
    - specialize (Hr (EStart i) eq_refl). cbn in Hr, Hc. rewrite Hi, Hc in Hr. by destruct (new_ticker c).
    - specialize (Hr (EStop i) eq_refl). cbn in Hr, Hc. by rewrite Hi, Hc, Hd, orb_true_r in Hr. }
  assert (lf_recv s = false) as Hrecv.
  { specialize (Hr ERecvExit eq_refl). cbn in Hr. rewrite Hd in Hr. by destruct (lf_recv s). }
  split_and!; [|done|done]. destruct (lf_shut s) as [| |err|err] eqn:Es; try done; [congruence| |by eauto].
  specialize (Hr EShutWait eq_refl). cbn in Hr. rewrite Es in Hr. unfold wg_zero in Hr.
  rewrite Hrecv, (proj2 (forallb_forall _ _)) in Hr; [done|].
  intros p Hin%list_elem_of_In. rewrite Forall_forall in Hp. unfold gone. by rewrite (Hp p Hin).
Qed.

(** The moves from a state in which [Shutdown] is under way: they are bounded and end
    with [Shutdown] returned, unless a producer asks for an impossible ticker. *)
Lemma moves_return A es' : Forall (fun e => internal e = true) es' -> forall s r,
  linv A s -> lf_shut s <> SIdle -> lrun s es' = Some r ->
  match r with
  | Ok s' => (length es' <= scan_work s)%nat /\
      (at_rest s' -> (exists err, lf_shut s' = SReturned err) /\
         Forall (fun p => p.2 = PGone) (lf_prods s') /\ lf_recv s' = false)
  | Err _ => False
  | Panic => ~ A /\ exists es1 e es2 s1,
      es' = es1 ++ e :: es2 /\ lrun s es1 = Some (Ok s1) /\ bad_interval s1 e
  end.
Proof.
  induction 1 as [|e es' He _ IH]; intros s r I Hn E'; cbn in E'.
  { injection E' as <-. split_and!; [cbn; lia|]. by eapply scan_rest_returned. }
  destruct (lstep e s) as [r1|] eqn:E1; [|done].
  assert (event_ok e) as Hok by (by destruct e). assert (positive_rpi e) as Hp by (by destruct e).
  pose proof (lstep_linv A e s r1 I Hok (fun _ => Hp) E1) as H1.
  destruct r1 as [s1|e1|]; [|done|].
  - assert (lf_shut s1 <> SIdle) as Hn1.
    { clear IH H1. destruct e as [| | | | | | |i|i| | | |]; try done; cbn [lstep] in E1;
        repeat (case_match; try done); simplify_eq; cbn; congruence. }
    pose proof (IH s1 r H1 Hn1 E') as H. destruct r as [s'|e'|]; [|done|].
    + pose proof (internal_works e s s1 He E1). destruct H as [Hl Hrest]. split; [cbn [length]; lia|done].
    + destruct H as (HA & es1 & e2 & es2 & s2 & -> & E2 & Hb). split; [done|].
      exists (e :: es1), e2, es2, s2. split_and!; [done| |done]. cbn. by rewrite E1.
  - injection E' as <-. destruct H1 as [[ref ->]|[HA Hb]]; [done|]. split; [done|].
    exists [], e, es', s. by split_and!.
Qed.

(** C31: [Shutdown] of the scanner returns.  Whatever connections were opened and
    closed, packets and ticks came and goroutines have run before, once a call of
    [Shutdown] is under way its moves and those of the goroutines are at most
    [scan_work s], and when none can move, [Shutdown] has returned and the receiver
    and every producer are gone.  One thing can come between: a producer that has
    not made its ticker yet crashes when the interval of its connection is not
    positive; this needs an [Open] whose configuration has no positive RPI. *)
Theorem scanner_shutdown_returns x vendor orig es s es' r :
  lrun (new_life x vendor orig) es = Some (Ok s) -> Forall event_ok es -> lf_shut s <> SIdle ->
  Forall (fun e => internal e = true) es' -> lrun s es' = Some r ->
  match r with
  | Ok s' => (length es' <= scan_work s)%nat /\
      (at_rest s' -> (exists err, lf_shut s' = SReturned err) /\
         Forall (fun p => p.2 = PGone) (lf_prods s') /\ lf_recv s' = false)
  | Err _ => False
  | Panic => ~ Forall positive_rpi es /\ exists es1 e es2 s1,
      es' = es1 ++ e :: es2 /\ lrun s es1 = Some (Ok s1) /\ bad_interval s1 e
  end.
Proof.
  intros E Hes Hn Hi E'. eapply moves_return; [exact Hi| |exact Hn|exact E'].
  eapply lrun_linv; [apply scan_new_linv|exact Hes|done|exact E].
Qed.

(** ** Opening after [Shutdown] *)
Lemma close_all_no_err refs : forall err sc e, (close_all SendCIPRequest refs err sc).1 <> Err e.
Proof.
  induction refs as [|ref refs IH]; intros err sc e; cbn; [done|].
  destruct (Close _ _ _) as [[]]; by try apply IH.
Qed.
Lemma Shutdown_again sc : scan_ok sc -> done sc = true -> (Shutdown SendCIPRequest sc).1 = Panic.
Proof.
  intros Hok Hd. unfold Shutdown.
  pose proof (close_all_ok _ Hsend (map snd (map_to_list (scan_conns sc))) None sc Hok) as H.
  pose proof (close_all_no_err (map snd (map_to_list (scan_conns sc))) None sc) as Hne.
  destruct (close_all _ _ None sc) as [[err|e|] sc1]; cbn in *; [|by destruct (Hne e)|done].
  destruct H as (_ & _ & _ & -> & _); [|by rewrite Hd].
  intros ref ([id ref'] & -> & Hin)%list_elem_of_fmap. apply elem_of_map_to_list in Hin.
  destruct (so_table _ Hok id ref' Hin) as (c & Hc & _). by exists c.
Qed.
Lemma Open_table now cfg sc ref sc' :
  Open SendCIPRequest peer_addr now cfg sc = (Ok ref, sc') -> exists id, scan_conns sc' !! id = Some ref.
Proof.
  unfold Open, next_ids, originator, mbind, SM_bind, pure, target_addr, add_conn. intros E.
  repeat (case_match; try done); simplify_eq; eexists; cbn [scan_conns with_conns TOConnectionID];
    apply lookup_insert_eq.
Qed.

(** the scanner does not refuse a connection after [Shutdown]: [Open] opens it
    on the device and enters it in the table, while its producer may end at once,
    and the only call that would close all connections, another [Shutdown], panics
    on the closed channel. *)
Theorem open_after_shutdown A s now cfg ref sc :
  linv A s -> (exists err, lf_shut s = SReturned err) -> cfg_ok cfg -> 0 < cfg_RPI cfg ->
  Open SendCIPRequest peer_addr now cfg (lf_scan s) = (Ok ref, sc) ->
  exists s1 s2, lstep (EOpen now cfg) s = Some (Ok s1) /\ lf_scan s1 = sc /\
    (exists id, scan_conns sc !! id = Some ref) /\
    lrun s1 [EStart (length (lf_prods s)); EStop (length (lf_prods s))] = Some (Ok s2) /\
    lf_scan s2 = sc /\ lf_prods s2 !! length (lf_prods s) = Some (ref, PGone) /\
    (Shutdown SendCIPRequest sc).1 = Panic.
Proof.
  intros [I1 I2 I3 I4 I5] [err Hs] Hc Hp E. pose proof (Open_life A now cfg _ I1 I2 Hc (fun _ => Hp)) as H.
  rewrite E in H. destruct H as (_ & H1 & H2 & H3 & H4 & H5). rewrite I5, Hs in H3.
  destruct (H5 ref eq_refl) as (c & Hcr & Hpos). set (n := length (lf_prods s)).
  exists (mkLife sc (lf_prods s ++ [(ref, PStart)]) (lf_recv s) (lf_shut s)),
    (mkLife sc (lf_prods s ++ [(ref, PGone)]) (lf_recv s) (lf_shut s)).
  cbn [lstep lrun lf_scan lf_prods]. rewrite E. split_and!; try done.
  - by eapply Open_table.
  - rewrite list_lookup_middle by done. rewrite Hcr. unfold new_ticker.
    rewrite (proj2 (Z.leb_gt _ _) (Hpos Hp)). unfold with_prod. cbn [lf_prods lf_scan].
    assert (forall x, (<[n := x]> (lf_prods s ++ [(ref, PStart)]) : list _) = lf_prods s ++ [x]) as Hins.
    { intros x. unfold n. by rewrite insert_app_r_alt, Nat.sub_diag by lia. }
    rewrite Hins, list_lookup_middle by done. rewrite Hcr, H3, orb_true_r. unfold with_prod.
    cbn [lf_prods lf_scan lf_recv lf_shut]. by rewrite insert_app_r_alt, Nat.sub_diag by lia.
  - by rewrite list_lookup_middle by done.
  - by apply Shutdown_again.
Qed.
End ScanLife.

(** ** A run *)
Definition ok_send (req : MessageRouterRequest) (x : unit) : outcome MessageRouterResponse * unit :=
  (Ok (mkMRResp 0xD4 0 0 0 [] (replicate 26 1)), x).
Lemma ok_send_ok req x :
  match (ok_send req x).1 with Ok resp => bytes_ok (ResponseData resp) | Err _ => True | Panic => False end.
Proof. cbn. repeat constructor; vm_compute; congruence. Qed.
Definition demo_cfg : IOConnectionConfig := mkIOConfig 100 101 0 4 4 10000000 0 false (Some 7) None.
Definition demo_before : list event := [EOpen 0 demo_cfg; EStart 0; ETick 0; EShutdown].
Definition demo_after : list event := [EShutClose; EShutDone; EStop 0; ERecvExit; EShutWait].
Definition demo_state (es : list event) : life :=
  match lrun ok_send (fun _ => None) (new_life tt 1 1) es with Some (Ok s) => s | _ => new_life tt 1 1 end.

Lemma scanner_shutdown_returns_witness :
  lrun ok_send (fun _ => None) (demo_state demo_before) demo_after = Some (Ok (demo_state (demo_before ++ demo_after))) /\
  lf_shut (demo_state (demo_before ++ demo_after)) = SReturned None /\
  (length demo_after <= scan_work (demo_state demo_before))%nat.
Proof.
  split; [reflexivity|]. split; [reflexivity|].
  apply (scanner_shutdown_returns ok_send (fun _ => None) ok_send_ok tt 1 1 demo_before
    (demo_state demo_before) demo_after (Ok (demo_state (demo_before ++ demo_after)))); try reflexivity.
  - repeat constructor; decided.
  - discriminate.
  - repeat constructor.
Defined.

(** The interval of a configuration that leaves it out is zero.  A device that grants
    no interval of its own then brings the program down when the producer starts. *)
Definition api_zero_send (req : MessageRouterRequest) (x : unit) : outcome MessageRouterResponse * unit :=
  (Ok (mkMRResp 0xD4 0 0 0 [] (replicate 16 1 ++ replicate 10 0)), x).
Definition zero_cfg : IOConnectionConfig := mkIOConfig 100 101 0 4 4 0 0 false (Some 7) None.
Example zero_interval_panics :
  lrun api_zero_send (fun _ => None) (new_life tt 1 1) [EOpen 0 zero_cfg; EStart 0] = Some Panic.
Proof. reflexivity. Qed.

Lemma open_after_shutdown_witness :
  exists s1, lstep ok_send (fun _ => None) (EOpen 1 demo_cfg) (demo_state (demo_before ++ demo_after)) = Some (Ok s1) /\
    (Shutdown ok_send (lf_scan s1)).1 = Panic.
Proof.
  destruct (open_after_shutdown ok_send (fun _ => None) ok_send_ok True
    (demo_state (demo_before ++ demo_after)) 1 demo_cfg 1%nat
    (Open ok_send (fun _ => None) 1 demo_cfg (lf_scan (demo_state (demo_before ++ demo_after)))).2)
    as (s1 & s2 & H1 & H2 & _ & _ & _ & _ & H3).
  - apply (lrun_linv ok_send (fun _ => None) ok_send_ok True (demo_before ++ demo_after) (new_life tt 1 1));
      [apply scan_new_linv|repeat constructor; decided|repeat constructor; decided|reflexivity].
  - exists None. reflexivity.
  - split; decided.
  - decided.
  - reflexivity.
  - exists s1. split; [exact H1|]. rewrite H2. exact H3.
Defined.
