(* ===== verification/Adapter.v ===== *)
(** * An I/O adapter, and a scanner that talks to it

    Models [examples/ethernetip/adapter/main.go], the program that puts the
    connection manager, the assembly object, the runtime and the scheduler
    together into a device: the callbacks that enter a connection in the runtime,
    the router, and the application loop.  The theorems run the scanner of
    [IOScanner] against it, over a session with the server of [EipServer] for the
    requests and over datagrams for the cyclic data.  The clock is part of the
    state; what the program prints is in [IoTools]. *)
From S2P Require Import Prelude Bytes Cip CipObjects EipCodec EipServer EipSession IORuntime IOScanner.

Record Adapter : Type := mkAdapter {
  ad_cm : ConnMgr.ConnectionManager;
  ad_rt : Runtime;              (** with the assembly object in it *)
  activeConns : Z;
  cycle : Z;
  clock : Z
}.

Definition ad_ao (w : Adapter) : Assembly.AssemblyObject := assemblyObj (ad_rt w).
Definition with_rt (rt : Runtime) (w : Adapter) : Adapter :=
  mkAdapter (ad_cm w) rt (activeConns w) (cycle w) (clock w).
Definition with_ao (ao : Assembly.AssemblyObject) (w : Adapter) : Adapter :=
  with_rt (mkRuntime (io_conns (ad_rt w)) ao (stopped_conns (ad_rt w))) w.
Definition with_clock (now : Z) (w : Adapter) : Adapter :=
  mkAdapter (ad_cm w) (ad_rt w) (activeConns w) (cycle w) now.

(** [main] up to its loop, with the two sizes of its flags. *)
Definition new_adapter (otSize toSize now : Z) : outcome Adapter :=
  ot ← go_make otSize;
  let ao := Assembly.RegisterAssembly 100 ot Assembly.NewAssemblyObject in
  to ← go_make toSize;
  let ao := Assembly.RegisterAssembly 101 to ao in
  Ok (mkAdapter ConnMgr.NewConnectionManager (NewRuntime ao) 0 0 now).

Definition rpi_of (req : ConnMgr.ForwardOpenRequest) : Z :=
  let rpi := ConnMgr.OTRPI req * 1000 in if rpi <? 1000000 then 10000000 else rpi.

(** The two entries a connection gets in the runtime. *)
Definition consumer (ao : Assembly.AssemblyObject) (c : ConnMgr.Connection)
    (req : ConnMgr.ForwardOpenRequest) : IOConnection :=
  mkIO (ConnMgr.cn_OTConnectionID c) (rpi_of req) 0 false None
    (Assembly.ID <$> Assembly.GetInstance 100 ao) 0 0 (ConnMgr.ConnectionTimeoutMultiplier req)
    false true OpenChan.
Definition producer (ao : Assembly.AssemblyObject) (c : ConnMgr.Connection)
    (req : ConnMgr.ForwardOpenRequest) : IOConnection :=
  mkIO (ConnMgr.cn_TOConnectionID c) (rpi_of req) 0 false None
    (Assembly.ID <$> Assembly.GetInstance 101 ao) 0 0 0 true false OpenChan.

Definition on_open (c : ConnMgr.Connection) (req : ConnMgr.ForwardOpenRequest) (w : Adapter) : Adapter :=
  let rt := AddConnection (clock w) (consumer (ad_ao w) c req) (ad_rt w) in
  let rt := AddConnection (clock w) (producer (ad_ao w) c req) rt in
  mkAdapter (ad_cm w) rt (i32 (activeConns w + 1)) (cycle w) (clock w).
Definition on_close (c : ConnMgr.Connection) (w : Adapter) : Adapter :=
  let rt := RemoveConnection (ConnMgr.cn_OTConnectionID c) (ad_rt w) in
  let rt := RemoveConnection (ConnMgr.cn_TOConnectionID c) rt in
  mkAdapter (ad_cm w) rt (i32 (activeConns w - 1)) (cycle w) (clock w).

(** The connection manager with its callbacks: each event of a request runs its
    callback before the request is answered. *)
Definition callback (w : Adapter) (e : ConnMgr.event) : Adapter :=
  match e with
  | ConnMgr.Opened c req => on_open c req w
  | ConnMgr.ClosedConn c => on_close c w
  end.
Definition mgr_object : Object Adapter := fun service path data w =>
  let '(r, cm) := ConnMgr.HandleRequest service path data (ad_cm w) in
  let events := drop (length (ConnMgr.hooks (ad_cm w))) (ConnMgr.hooks cm) in
  (r, fold_left callback events (mkAdapter cm (ad_rt w) (activeConns w) (cycle w) (clock w))).
Definition assembly_object : Object Adapter := fun service path data w =>
  let '(r, ao) := Assembly.HandleRequest service path data (ad_ao w) in (r, with_ao ao w).

Definition adapter_router : MessageRouter Adapter :=
  RegisterObject ClassAssembly assembly_object
    (RegisterObject ClassConnectionMgr mgr_object NewMessageRouter).

(** The 100 ms case of the application loop: the consumed data is echoed behind a
    cycle counter. *)
Definition produce_data (toSize cycle : Z) (consumed : bytes) : outcome bytes :=
  produce ← go_make toSize;
  produce ← (if 2 <=? len produce then put_at produce 0 (le16 cycle) else Ok produce);
  let copyLen := if len produce - 2 <? len consumed then len produce - 2 else len consumed in
  if 0 <? copyLen then
    _ ← go_slice produce 2 (2 + copyLen);
    put_at produce 2 (take (Z.to_nat copyLen) consumed)
  else Ok produce.
Definition app_tick (toSize : Z) (w : Adapter) : outcome Adapter :=
  if activeConns w =? 0 then Ok w else
  let w := mkAdapter (ad_cm w) (ad_rt w) (activeConns w) (u16 (cycle w + 1)) (clock w) in
  match Assembly.GetAttributeSingle 100 3 (ad_ao w) with
  | Err _ => Ok w
  | Panic => Panic
  | Ok consumed =>
      produce ← produce_data toSize (cycle w) consumed;
      Ok (with_ao (Assembly.SetAttributeSingle 101 3 produce (ad_ao w)).2 w)
  end.

(** What can happen to the adapter: a request of some session, a datagram, a tick
    of the scheduler, of the watchdog or of the application, and time. *)
Inductive astep (toSize : Z) (w : Adapter) : Adapter -> Prop :=
| astep_request req : astep toSize w (Dispatch adapter_router req w).2
| astep_packet data rt : bytes_ok data -> handlePacket (clock w) data (ad_rt w) = Ok rt ->
    astep toSize w (with_rt rt w)
| astep_schedule : astep toSize w (with_rt (processTick (clock w) (ad_rt w)).2 w)
| astep_watchdog : astep toSize w (with_rt (io_checkTimeouts (clock w) (ad_rt w)) w)
| astep_app w' : app_tick toSize w = Ok w' -> astep toSize w w'
| astep_time now : clock w <= now -> astep toSize w (with_clock now w).

(** ** The adapter's invariant

    The assemblies keep the identifiers and the sizes they were registered with,
    and no connection of the runtime has an address to send to. *)
Definition asm_inv (otSize toSize : Z) (ao : Assembly.AssemblyObject) : Prop :=
  Assembly.sizes ao = <[101 := toSize]> {[100 := otSize]} /\
  map_Forall (fun i inst => Assembly.ID inst = i) (Assembly.instances ao).
Definition silent (r : Runtime) : Prop := map_Forall (fun _ c => RemoteAddr c = None) (io_conns r).
Record ad_inv (otSize toSize : Z) (w : Adapter) : Prop := {
  ai_assembly : asm_inv otSize toSize (ad_ao w);
  ai_silent : silent (ad_rt w)
}.

Lemma Set_asm_inv ot to i a d ao :
  asm_inv ot to ao -> asm_inv ot to (Assembly.SetAttributeSingle i a d ao).2.
Proof.
  intros [Hz Hk]. split; [by rewrite Assembly.Set_sizes|].
  destruct (Assembly.Set_cases i a d ao) as [[e ->]|(inst & Hi & _ & _ & ->)]; [done|].
  apply map_Forall_insert_2; [exact (Hk i inst Hi)|done].
Qed.
Lemma silent_insert r k c ao st :
  silent r -> RemoteAddr c = None -> silent (mkRuntime (<[k := c]> (io_conns r)) ao st).
Proof. intros Hs Hc. by apply map_Forall_insert_2. Qed.
Lemma silent_remove k r :
  silent r -> silent (RemoveConnection k r) /\ assemblyObj (RemoveConnection k r) = assemblyObj r.
Proof.
  intros Hs. unfold RemoveConnection. destruct (_ !! _); [|done].
  split; [by apply map_Forall_delete|done].
Qed.
Lemma callback_inv ot to w e : ad_inv ot to w -> ad_inv ot to (callback w e).
Proof.
  intros [Hz Hs]. destruct e as [c req|c]; cbn [callback].
  - split; [exact Hz|]. apply silent_insert; [|done]. by apply silent_insert.
  - destruct (silent_remove (ConnMgr.cn_OTConnectionID c) (ad_rt w) Hs) as [H1 E1].
    destruct (silent_remove (ConnMgr.cn_TOConnectionID c) _ H1) as [H2 E2].
    split; [|exact H2]. unfold ad_ao, on_close. cbn [ad_rt]. by rewrite E2, E1.
Qed.
Lemma callbacks_inv ot to es w : ad_inv ot to w -> ad_inv ot to (fold_left callback es w).
Proof. revert w. induction es; intros w H; [done|]. apply IHes, callback_inv, H. Qed.

Lemma mgr_object_safe ot to : object_safe (ad_inv ot to) mgr_object.
Proof.
  intros service path data w [Hz Hs]. unfold mgr_object.
  pose proof (ConnMgr.HandleRequest_ext service path data (ad_cm w)) as He.
  destruct (ConnMgr.HandleRequest _ _ _ _) as [r cm]. split; [exact He|].
  by apply callbacks_inv.
Qed.
Lemma assembly_object_safe ot to : object_safe (ad_inv ot to) assembly_object.
Proof.
  intros service path data w [Hz Hs]. unfold assembly_object.
  destruct (Assembly.HandleRequest_safe (asm_inv ot to) (Set_asm_inv ot to) service path data (ad_ao w) Hz)
    as [H1 H2].
  destruct (Assembly.HandleRequest _ _ _ _) as [r ao]. split; [exact H1|]. by split.
Qed.
Lemma adapter_router_safe ot to : router_safe (ad_inv ot to) adapter_router.
Proof.
  split; [|done]. unfold adapter_router, RegisterObject, NewMessageRouter. cbn [objects].
  repeat apply map_Forall_insert_2; [apply assembly_object_safe|apply mgr_object_safe|].
  apply map_Forall_empty.
Qed.

(** The application's data: the counter, then the consumed bytes that fit. *)
Lemma produce_data_ok toSize c consumed :
  0 <= toSize ->
  exists d, produce_data toSize c consumed = Ok d /\ len d = toSize /\
    (2 <= toSize ->
     d = le16 c ++ take (Z.to_nat (toSize - 2)) consumed ++
         replicate (Z.to_nat (toSize - 2 - len consumed)) 0).
Proof.
  intros Hz. unfold produce_data, go_make. rewrite decide_True by done. go_bind. lens.
  destruct (Z.leb_spec 2 (Z.of_nat (Z.to_nat toSize))) as [H2|H2].
  - replace (Z.to_nat toSize) with (2 + Z.to_nat (toSize - 2))%nat by lia.
    rewrite replicate_add. rewrite <-(app_nil_l (replicate 2 0 ++ _)), put_at_mid by done.
    go_bind. rewrite app_nil_l. lens.
    pose proof (len_nonneg consumed) as Hc.
    set (n := Z.to_nat (toSize - 2)).
    set (m := if _ <? len consumed then _ else _).
    assert (m = Z.min (toSize - 2) (len consumed)) as Hm.
    { unfold m. change (len (le16 c)) with 2. destruct (Z.ltb_spec (2 + Z.of_nat n - 2) (len consumed)); lia. }
    clearbody m. subst m.
    destruct (Z.ltb_spec 0 (Z.min (toSize - 2) (len consumed))) as [Hp|Hp].
    + assert (replicate n 0 = replicate (Z.to_nat (Z.min (toSize - 2) (len consumed))) 0 ++
        replicate (Z.to_nat (toSize - 2 - len consumed)) 0) as ->.
      { rewrite <-replicate_add. f_equal. lia. }
      rewrite go_slice_mid by (change (len (le16 c)) with 2; lens; lia). go_bind.
      rewrite put_at_mid; [|done|rewrite length_replicate, length_take; unfold len in *; lia].
      eexists. split; [done|].
      assert (take (Z.to_nat (Z.min (toSize - 2) (len consumed))) consumed = take n consumed) as ->.
      { unfold n. destruct (decide (toSize - 2 <= len consumed)).
        - by rewrite Z.min_l.
        - rewrite Z.min_r by lia. rewrite !take_ge; unfold len in *; try done; lia. }
      split; [|done]. unfold len. rewrite !length_app, length_take, length_replicate.
      change (length (le16 c)) with 2%nat. unfold n, len in *. lia.
    + eexists. split; [done|].
      assert (take n consumed = []) as ->.
      { destruct (decide (toSize = 2)) as [->|]; [done|].
        destruct consumed; [by destruct n|]. revert Hp. rewrite len_cons.
        pose proof (len_nonneg consumed). lia. }
      assert (Z.to_nat (toSize - 2 - len consumed) = n \/ n = 0%nat) as Hn by lia.
      split; [lens; change (len (le16 c)) with 2; lia|]. intros _. rewrite app_nil_l.
      destruct Hn as [-> | Hn]; [done|]. rewrite Hn.
      by replace (Z.to_nat (toSize - 2 - len consumed)) with 0%nat by lia.
  - go_bind. lens. rewrite (proj2 (Z.ltb_ge _ _)).
    { eexists. split; [done|]. split; [lens; lia|]. lia. }
    pose proof (len_nonneg consumed). destruct (Z.ltb_spec (Z.of_nat (Z.to_nat toSize) - 2) (len consumed)); lia.
Qed.

Lemma new_adapter_ok ot to now :
  0 <= ot -> 0 <= to ->
  exists w, new_adapter ot to now = Ok w /\ ad_inv ot to w /\ ad_cm w = ConnMgr.NewConnectionManager /\
    io_conns (ad_rt w) = ∅ /\ clock w = now.
Proof.
  intros H1 H2. unfold new_adapter, go_make. rewrite !decide_True by done. go_bind.
  eexists. split; [done|]. split; [|done]. split; [|apply map_Forall_empty].
  split.
  - unfold ad_ao, Assembly.sizes. cbn. rewrite !fmap_insert, fmap_empty. cbn. lens.
    by rewrite !Z2Nat.id by done.
  - by repeat apply map_Forall_insert_2.
Qed.

(** An instance by its size. *)
Lemma sized_instance ot to ao i n :
  asm_inv ot to ao -> (<[101 := to]> {[100 := ot]} : gmap Z Z) !! i = Some n ->
  exists inst, Assembly.GetInstance i ao = Some inst /\ Assembly.ID inst = i /\
    len (Assembly.as_Data inst) = n.
Proof.
  intros [<- Hk] Hi. unfold Assembly.sizes in Hi. rewrite lookup_fmap in Hi.
  apply fmap_Some in Hi as (inst & Hi & ->). exists inst. split; [done|]. split; [|done].
  exact (Hk i inst Hi).
Qed.
Lemma set_exact i (d : bytes) ao inst :
  Assembly.GetInstance i ao = Some inst -> len d = len (Assembly.as_Data inst) ->
  Assembly.SetAttributeSingle i 3 d ao =
    (Ok tt, Assembly.mkAssembly (<[i := Assembly.mkInstance (Assembly.ID inst) d]> (Assembly.instances ao))).
Proof.
  intros Hi Hl. unfold Assembly.SetAttributeSingle, Assembly.GetInstance in *. rewrite Hi.
  change (3 =? 3) with true. by rewrite Hl, Z.eqb_refl.
Qed.

Lemma app_tick_ok ot to w :
  ad_inv ot to w -> 0 <= to -> exists w', app_tick to w = Ok w' /\ ad_inv ot to w'.
Proof.
  intros [Hz Hs] Ht. unfold app_tick. destruct (_ =? 0); [by exists w|].
  destruct (sized_instance ot to _ 100 ot Hz) as (inst & Hi & _ & Hl); [done|].
  unfold ad_ao, Assembly.GetAttributeSingle, Assembly.GetInstance in *. cbn [ad_rt cycle]. rewrite Hi.
  change (3 =? 3) with true. cbv iota.
  destruct (produce_data_ok to (u16 (cycle w + 1)) (Assembly.as_Data inst) Ht) as (d & -> & _).
  go_bind. eexists. split; [done|]. split; [|exact Hs].
  by apply Set_asm_inv.
Qed.

(** A packet only touches the receive time of connections that are there. *)
Lemma handlePacket_silent ot to now data r r' :
  bytes_ok data -> silent r -> asm_inv ot to (assemblyObj r) -> handlePacket now data r = Ok r' ->
  silent r' /\ asm_inv ot to (assemblyObj r').
Proof.
  intros Hb Hs Ha E. unfold handlePacket in E. destruct (parse_packet_total data Hb) as [p Ep].
  rewrite Ep in E. cbn in E. destruct p as [[id payload]|]; [|by injection E as <-].
  unfold consume in E. destruct (io_conns r !! id) as [c|] eqn:Ec; [|by injection E as <-].
  destruct (process_data_total (RunIdleHeader c) payload) as [d Ed]. rewrite Ed in E. cbn in E.
  injection E as <-. pose proof (Hs id c Ec) as Hc.
  destruct d as [d|], (AssemblyID c); (split; [by apply silent_insert|]); try exact Ha.
  by apply Set_asm_inv.
Qed.

Lemma astep_inv ot to w w' : 0 <= to -> ad_inv ot to w -> astep to w w' -> ad_inv ot to w'.
Proof.
  intros Ht I Hstep. destruct Hstep as [req|data rt Hb E| | |w' E|now Hn].
  - by apply Dispatch_safe; [apply adapter_router_safe|].
  - destruct I as [Hz Hs]. by destruct (handlePacket_silent ot to _ _ _ _ Hb Hs Hz E).
  - destruct I as [Hz Hs]. split; [exact Hz|]. intros k c Hc. cbn in Hc. rewrite lookup_fmap in Hc.
    apply fmap_Some in Hc as (c0 & Hc0 & ->). unfold tick_conn. pose proof (Hs k c0 Hc0).
    by destruct (due _ c0).
  - destruct I as [Hz Hs]. split; [exact Hz|]. intros k c [Hc _]%map_lookup_filter_Some. by apply (Hs k).
  - destruct (app_tick_ok ot to w I Ht) as (w1 & E1 & I1). rewrite E in E1. by injection E1 as ->.
  - by destruct I.
Qed.

Lemma silent_tick now r : silent r -> (processTick now r).1 = Ok [].
Proof.
  intros Hs. unfold processTick. cbn [fst].
  assert (mapO sendPacketFromSnapshot (tick_snapshots now r) =
          Ok (map (fun _ => None) (tick_snapshots now r))) as ->.
  { rewrite <-mapO_Ok. apply mapO_ext. intros s Hin. unfold tick_snapshots in Hin.
    apply list_elem_of_omap in Hin as (c & Hc & E). apply list_elem_of_fmap in Hc as ([k c'] & -> & Hk).
    apply elem_of_map_to_list in Hk. unfold sendPacketFromSnapshot. unfold snapshot in E.
    destruct (due _ _); [|done]. destruct (AssemblyID _); [|done]. destruct (Assembly.GetAttributeSingle _ _ _); [|done|done].
    injection E as <-. cbn [sn_RemoteAddr]. cbn [snd]. by rewrite (Hs k c' Hk). }
  f_equal. by induction (tick_snapshots now r).
Qed.

(** The adapter never produces.  Its producers are entered in the runtime
    without an address, in the belief that the runtime records the sender of the
    first packet; the runtime does not.  So whatever requests and packets reach
    the adapter, and however often its loops run, no tick of the scheduler sends
    anything; the assemblies keep their sizes and no step of the application
    crashes. *)
Theorem adapter_never_sends ot to now :
  0 <= ot -> 0 <= to ->
  exists w0, new_adapter ot to now = Ok w0 /\
    forall w, rtc (astep to) w0 w ->
      (processTick (clock w) (ad_rt w)).1 = Ok [] /\
      Assembly.sizes (ad_ao w) = <[101 := to]> {[100 := ot]} /\
      is_ok (app_tick to w) = true.
Proof.
  intros H1 H2. destruct (new_adapter_ok ot to now H1 H2) as (w0 & E & I & _).
  exists w0. split; [done|]. intros w Hr.
  assert (ad_inv ot to w) as Iw.
  { clear E. induction Hr as [|a b c Hab _ IH]; [done|]. by apply IH, (astep_inv ot to a). }
  split; [apply silent_tick, (ai_silent _ _ _ Iw)|]. split; [apply (ai_assembly _ _ _ Iw)|].
  by destruct (app_tick_ok ot to w Iw H2) as (w' & -> & _).
Qed.

(** ** The scanner over a session with the adapter's server *)
Lemma adapter_replies_fit ot to :
  0 <= ot <= 60000 -> 0 <= to <= 60000 -> replies_fit adapter_router (ad_inv ot to).
Proof.
  intros Ho Ht. apply (replies_fit_bounded _ _ 60000); [apply adapter_router_safe| |done|lia|lia].
  unfold adapter_router, RegisterObject, NewMessageRouter. cbn [objects].
  repeat apply map_Forall_insert_2; [..|apply map_Forall_empty];
    intros service path data w [[Hz _] _]; unfold assembly_object, mgr_object.
  - pose proof (assembly_reply 60000 service path data (ad_ao w) ltac:(lia)) as H.
    destruct (Assembly.HandleRequest _ _ _ _). apply H. rewrite Hz.
    by repeat apply map_Forall_insert_2; cbn; try lia.
  - pose proof (connmgr_reply 60000 service path data (ad_cm w) ltac:(lia)).
    by destruct (ConnMgr.HandleRequest _ _ _ _).
Qed.

(** What a request changes: the connection manager's own state, then the callbacks. *)
Lemma mgr_object_events service path data w r cm es :
  ConnMgr.HandleRequest service path data (ad_cm w) = (r, cm) ->
  ConnMgr.hooks cm = ConnMgr.hooks (ad_cm w) ++ es ->
  mgr_object service path data w =
    (r, fold_left callback es (mkAdapter cm (ad_rt w) (activeConns w) (cycle w) (clock w))).
Proof. intros E Hh. unfold mgr_object. rewrite E, Hh. by rewrite drop_app_length. Qed.

Lemma RemoveConnection_conns k r : io_conns (RemoveConnection k r) = delete k (io_conns r).
Proof.
  unfold RemoveConnection. destruct (io_conns r !! k) eqn:E; [done|]. by rewrite delete_id.
Qed.

Section Plant.
Variable identity : ListIdentityItem.
#[local] Instance plant_wire : Wire (Served Adapter) := Served_Wire adapter_router identity.
Variable peer_addr : Session (Served Adapter) -> option Z.
Variables ot to : Z.
Hypothesis Hot : 0 <= ot <= 60000.
Hypothesis Hto : 0 <= to <= 60000.

Definition plant : Type := scanner (Session (Served Adapter)).
Definition device (s : plant) : Adapter := world (served_sh (conn (session s))).
(** The scanner's session is registered and nothing is in flight. *)
Definition connected (s : plant) : Prop :=
  exists h wr n w, is_u32 h /\ h <> 0 /\ ad_inv ot to w /\
    session s = mkSession h (mkServed [] [] (mkCS h wr) (mkShared n w) true).

Definition manager_path : bytes := logical_segment LogicalTypeInstance 1.

Lemma mgr_send fmt service data (s : plant) d w' :
  connected s -> is_u8 service -> bytes_ok data -> len data <= 600 ->
  mgr_object service manager_path data (device s) = (Ok d, w') ->
  exists x, wrap_err fmt (cip_send SendCIPRequest (mgr_request service data)) s =
      (Ok (mkMRResp (Z.lor service 0x80) 0 Status.Success 0 [] d), with_session x s) /\
    connected (with_session x s) /\ device (with_session x s) = w'.
Proof.
  intros (h & wr & n & w & Hh & Hne & Hw & Es) Hsv Hd Hl Hm. unfold device in Hm.
  rewrite Es in Hm. cbn [conn served_sh world] in Hm.
  assert (Dispatch adapter_router (mgr_request service data) w =
          (Ok (mkMRResp (Z.lor service 0x80) 0 Status.Success 0 [] d), w')) as Ed.
  { unfold mgr_request, AddInstance, AddClass. rewrite app_nil_l.
    rewrite (Dispatch_class adapter_router service ClassConnectionMgr _ data mgr_object) by done.
    fold manager_path. unfold call. by rewrite Hm. }
  assert (request_fits (mgr_request service data)) as Hf.
  { split.
    - split; [decided|]. by split.
    - unfold MRReq_Encode, maxPacketSize. cbn [RequestPath RequestData mgr_request mq_Service].
      change (AddInstance (AddClass [] ClassConnectionMgr) 1) with [32; 6; 36; 1]. lens. lia. }
  pose proof (SendCIPRequest_served adapter_router identity (ad_inv ot to) (adapter_router_safe ot to)
    (adapter_replies_fit ot to Hot Hto) (mgr_request service data) h wr n w Hf Hh Hne Hw) as H.
  rewrite Ed in H. destruct H as [Hw' [wr' E]].
  unfold wrap_err, cip_send, plant_wire. rewrite Es, E. eexists. split; [done|].
  split; [|done]. by exists h, wr', n, w'.
Qed.

(** A configuration as Go's types allow it, with a path that fits a request. *)
Definition full_cfg_ok (cfg : IOConnectionConfig) : Prop :=
  cfg_ok cfg /\ is_u8 (cfg_TimeoutMultiplier cfg) /\ path_ok (connection_path cfg).

Lemma open_params_u16 n : is_u16 n -> is_u16 (open_params n).
Proof.
  intros Hn. unfold open_params, is_u16 in *.
  change (Z.lor ConnParamPointToPoint ConnParamFixedSize) with (2 ^ 14).
  assert (0 <= Z.lor (2 ^ 14) n < 2 ^ 16) as [H1 H2]; [|lia].
  split; [apply Z.lor_nonneg; lia|].
  apply Z.log2_lt_pow2; [apply Z.le_neq; split; [apply Z.lor_nonneg; lia|]|].
  - intros H0. symmetry in H0. by apply Z.lor_eq_0_iff in H0 as [H0 _].
  - rewrite Z.log2_lor by lia. destruct (decide (n = 0)) as [->|]; [done|].
    apply Z.max_lub_lt; [done|]. apply Z.log2_lt_pow2; lia.
Qed.
Lemma open_request_ok cfg otid serial vendor orig :
  full_cfg_ok cfg -> is_u32 otid -> is_u16 serial -> is_u16 vendor -> is_u32 orig ->
  let r := open_request_of cfg otid serial vendor orig in
  ConnMgr.open_ok r /\ bytes_ok (ConnMgr.Open_Encode r) /\ len (ConnMgr.Open_Encode r) <= 600.
Proof.
  intros ([Ho Ht] & Hm & Hp) H1 H2 H3 H4 r. pose proof Hp as (Hb & He & Hl).
  assert (u8 (len (connection_path cfg) / 2) = len (connection_path cfg) / 2) as E.
  { apply u8_small. unfold is_u8. dlia. }
  split; [|split].
  - unfold ConnMgr.open_ok. split_and!; try done; try apply u32_range; by apply open_params_u16.
  - unfold ConnMgr.Open_Encode. repeat apply Forall_app_2; try auto with go; try done;
      try (apply Forall_cons_2; [first [done|exact Hm|apply u8_range]|try constructor]); auto with go.
    all: by repeat constructor.
  - unfold ConnMgr.Open_Encode. cbn [r open_request_of ConnMgr.fo_Reserved ConnMgr.fo_ConnectionPath].
    lens. change (len [0; 0; 0]) with 3. lia.
Qed.
Lemma close_request_ok c :
  is_u16 (ConnectionSerialNumber c) -> is_u16 (io_VendorID c) -> is_u32 (io_OriginatorSerialNumber c) ->
  let r := close_request_of c in
  ConnMgr.close_ok r /\ bytes_ok (ConnMgr.Close_Encode r) /\ len (ConnMgr.Close_Encode r) <= 600.
Proof.
  intros H1 H2 H3 r. split; [|split].
  - unfold ConnMgr.close_ok. split_and!; try done. decided.
  - unfold ConnMgr.Close_Encode. repeat apply Forall_app_2; try auto with go; by repeat constructor.
  - unfold ConnMgr.Close_Encode. lens. done.
Qed.

Lemma open_response_reply cfg (req : ConnMgr.ForwardOpenRequest) id service :
  is_u32 id -> is_u32 (ConnMgr.OTRPI req) ->
  open_response cfg (mkMRResp service 0 Status.Success 0 [] (ConnMgr.open_reply req id)) =
    Ok (id, if ConnMgr.OTRPI req * 1000 =? 0 then cfg_RPI cfg else ConnMgr.OTRPI req * 1000).
Proof.
  intros Hid Hr. unfold open_response. cbn [ResponseData].
  change (negb (IsSuccess _)) with false. cbv iota. set (d := ConnMgr.open_reply req id).
  change (len d <? 26) with false. cbv iota.
  assert (go_slice d 4 8 = Ok (le32 id)) as -> by (by apply (go_slice_mid (le32 _))).
  assert (go_slice d 16 20 = Ok (le32 (ConnMgr.OTRPI req))) as ->.
  { unfold d, ConnMgr.open_reply. do 4 rewrite app_assoc. by apply go_slice_mid. }
  go_bind. rewrite <-(app_nil_r (le32 id)), get_le32_le32 by done.
  rewrite <-(app_nil_r (le32 _)), get_le32_le32 by done. done.
Qed.

(** The identifiers the scanner takes next, and the request it sends. *)
Definition next_otid (s : plant) : Z := u32 (nextOTID s + 1).
Definition next_serial (s : plant) : Z := u16 (u32 (nextSerial s + 1)).
Definition next_request (cfg : IOConnectionConfig) (s : plant) : ConnMgr.ForwardOpenRequest :=
  open_request_of cfg (next_otid s) (next_serial s) (vendorID s) (originatorSN s).
Definition next_toid (s : plant) : Z := u32 (ConnMgr.nextConnID (ad_cm (device s)) + 1).
Definition next_conn (s : plant) : ConnMgr.Connection :=
  ConnMgr.mkConnection (next_otid s) (next_toid s) (next_serial s) (vendorID s) (originatorSN s).
Definition next_triad (s : plant) : Z * Z * Z := (next_serial s, vendorID s, originatorSN s).

(** The scanner may open: its identity is in range, its triad is new to the
    device and the manager has not run out of identifiers. *)
Definition can_open (s : plant) : Prop :=
  connected s /\ is_u16 (vendorID s) /\ is_u32 (originatorSN s) /\
  ConnMgr.inv (ad_cm (device s)) /\
  Z.of_nat (length (ConnMgr.opened (ConnMgr.hooks (ad_cm (device s))))) < 4294967295 /\
  next_triad s ∉ map ConnMgr.triad (ConnMgr.current (ad_cm (device s))).

(** The manager after the connection is entered. *)
Definition mgr_with (conn : ConnMgr.Connection) (req : ConnMgr.ForwardOpenRequest)
    (cm : ConnMgr.ConnectionManager) : ConnMgr.ConnectionManager :=
  let id := ConnMgr.cn_TOConnectionID conn in
  ConnMgr.mkMgr (<[id := conn]> (ConnMgr.connections cm)) id
    (ConnMgr.hooks cm ++ [ConnMgr.Opened conn req]).
Definition with_cm (cm : ConnMgr.ConnectionManager) (w : Adapter) : Adapter :=
  mkAdapter cm (ad_rt w) (activeConns w) (cycle w) (clock w).

Lemma scanner_open now cfg addr s :
  can_open s -> full_cfg_ok cfg -> TargetAddr cfg = Some addr ->
  let req := next_request cfg s in
  let api := if ConnMgr.OTRPI req * 1000 =? 0 then cfg_RPI cfg else ConnMgr.OTRPI req * 1000 in
  let ref := new_conn_ref (heap s) in
  let c := mkIOConn (next_otid s) (next_toid s) (next_serial s) (vendorID s) (originatorSN s)
             (replicate (Z.to_nat (OTSize cfg)) 0) (replicate (Z.to_nat (TOSize cfg)) 0) api 0 now
             (cfg_TimeoutMultiplier cfg) (cfg_RunIdleHeader cfg) addr false in
  exists s1, Open SendCIPRequest peer_addr now cfg s = (Ok ref, s1) /\
    heap s1 = <[ref := c]> (heap s) /\ scan_conns s1 = <[next_toid s := ref]> (scan_conns s) /\
    connected s1 /\
    device s1 = on_open (next_conn s) req (with_cm (mgr_with (next_conn s) req (ad_cm (device s))) (device s)).
Proof.
  intros (Hc & Hv & Ho & Hinv & Hn & Hf) Hcfg Ha req api ref c.
  assert (is_u32 (next_otid s) /\ is_u16 (next_serial s)) as [Hot' Hser].
  { split; [apply u32_range|apply u16_range]. }
  destruct (open_request_ok cfg _ _ _ _ Hcfg Hot' Hser Hv Ho) as (Hok & Hb & Hl). fold req in Hok, Hb, Hl.
  unfold Open. rewrite (SM_bind_Ok next_ids _ s (next_otid s, next_serial s) _ eq_refl).
  set (s0 := mkScanner _ _ _ _ _ _ _ _).
  rewrite (SM_bind_Ok originator _ s0 (vendorID s, originatorSN s) s0 eq_refl).
  fold (next_request cfg s). fold req.
  assert (ConnMgr.HandleRequest ConnMgr.ServiceForwardOpen manager_path (ConnMgr.Open_Encode req)
    (ad_cm (device s)) = (Ok (ConnMgr.open_reply req (next_toid s)),
     mgr_with (next_conn s) req (ad_cm (device s)))) as Em.
  { rewrite ConnMgr.open_request by done. unfold ConnMgr.open_connection.
    by rewrite ConnMgr.find_triad_fresh. }
  destruct (mgr_send "Forward_Open send: %w" ConnMgr.ServiceForwardOpen (ConnMgr.Open_Encode req) s0
    (ConnMgr.open_reply req (next_toid s))
    (on_open (next_conn s) req (with_cm (mgr_with (next_conn s) req (ad_cm (device s))) (device s))))
    as (x & Es & Hcon & Hdev); [exact Hc|done|done|done| |].
  { change (device s0) with (device s).
    by rewrite (mgr_object_events _ _ _ _ _ _ [ConnMgr.Opened (next_conn s) req] Em eq_refl). }
  rewrite (SM_bind_Ok _ _ _ _ _ Es).
  rewrite (SM_bind_Ok _ _ _ (next_toid s, api) (with_session x s0)).
  2: { unfold pure. by rewrite open_response_reply by (apply u32_range || apply Hok). }
  rewrite (SM_bind_Ok _ _ _ addr (with_session x s0)) by (unfold target_addr; by rewrite Ha).
  eexists. split; [reflexivity|]. by split.
Qed.

(** The manager with the new connection is well formed, and the identifier it gave
    was free. *)
Lemma mgr_with_inv cfg s : can_open s ->
  ConnMgr.inv (mgr_with (next_conn s) (next_request cfg s) (ad_cm (device s))) /\
  ConnMgr.connections (ad_cm (device s)) !! next_toid s = None.
Proof.
  intros (_ & _ & _ & I & Hn & Hf). split.
  - pose proof (ConnMgr.open_connection_inv (next_request cfg s) (ad_cm (device s)) I Hn) as H.
    unfold ConnMgr.open_connection in H. by rewrite ConnMgr.find_triad_fresh in H.
  - unfold next_toid. rewrite (ConnMgr.next_id _ I). by apply ConnMgr.fresh_id.
Qed.

(** Closing a connection of the scanner that the manager knows. *)
Lemma scanner_close s ref c conn :
  connected s -> ConnMgr.inv (ad_cm (device s)) -> heap s !! ref = Some c -> 
  ConnMgr.connections (ad_cm (device s)) !! ConnMgr.cn_TOConnectionID conn = Some conn ->
  ConnMgr.triad conn = (ConnectionSerialNumber c, io_VendorID c, io_OriginatorSerialNumber c) ->
  is_u16 (ConnectionSerialNumber c) -> is_u16 (io_VendorID c) -> is_u32 (io_OriginatorSerialNumber c) ->
  exists s', Close SendCIPRequest ref s = (Ok tt, s') /\ connected s' /\
    heap s' = <[ref := set_stopped c]> (heap s) /\
    scan_conns s' = delete (TOConnectionID c) (scan_conns s) /\
    ConnMgr.connections (ad_cm (device s')) =
      delete (ConnMgr.cn_TOConnectionID conn) (ConnMgr.connections (ad_cm (device s))) /\
    io_conns (ad_rt (device s')) =
      delete (ConnMgr.cn_TOConnectionID conn)
        (delete (ConnMgr.cn_OTConnectionID conn) (io_conns (ad_rt (device s)))) /\
    ad_ao (device s') = ad_ao (device s).
Proof.
  intros Hc I Hh Hk Ht H1 H2 H3. destruct (close_request_ok c H1 H2 H3) as (Hok & Hb & Hl).
  unfold Close. rewrite Hh. set (s1 := with_conns _ _ s).
  pose proof (ConnMgr.find_triad_unique _ _ _ _ _ _ I Hk Ht) as Ef.
  set (cm' := ConnMgr.mkMgr (delete (ConnMgr.cn_TOConnectionID conn) (ConnMgr.connections (ad_cm (device s))))
    (ConnMgr.nextConnID (ad_cm (device s)))
    (ConnMgr.hooks (ad_cm (device s)) ++ [ConnMgr.ClosedConn conn])).
  assert (ConnMgr.HandleRequest ConnMgr.ServiceForwardClose manager_path
    (ConnMgr.Close_Encode (close_request_of c)) (ad_cm (device s)) =
    (Ok (ConnMgr.close_reply (close_request_of c)), cm')) as Em.
  { rewrite ConnMgr.close_request by done. unfold ConnMgr.close_connection.
    cbn [ConnMgr.fc_ConnectionSerialNumber ConnMgr.fc_VendorID ConnMgr.fc_OriginatorSerialNumber close_request_of].
    by rewrite Ef. }
  destruct (mgr_send "Forward_Close send: %w" ConnMgr.ServiceForwardClose
    (ConnMgr.Close_Encode (close_request_of c)) s1
    (ConnMgr.close_reply (close_request_of c)) (on_close conn (with_cm cm' (device s))))
    as (x & Es & Hcon & Hdev); [exact Hc|done|done|done| |].
  { change (device s1) with (device s).
    by rewrite (mgr_object_events _ _ _ _ _ _ [ConnMgr.ClosedConn conn] Em eq_refl). }
  rewrite (SM_bind_Ok _ _ _ _ _ Es). exists (with_session x s1). split; [done|].
  split; [done|]. split; [done|]. split; [done|]. rewrite Hdev. split; [done|].
  unfold on_close, ad_ao. cbn [ad_rt with_cm]. rewrite !RemoveConnection_conns. split; [done|].
  unfold RemoveConnection. by repeat case_match.
Qed.

(** A connection's life across the network.  When the scanner's next triad is
    new to the device, [Open] over the session enters the connection at both ends:
    in the scanner's table under the identifier the connection manager assigned,
    in the manager's table with the scanner's identifiers, and in the runtime as a
    consumer of assembly 100 under the scanner's identifier and a producer of
    assembly 101 under the manager's.  [Close] then succeeds and takes it out of
    all three tables, leaving the other connections and the assembly data. *)
Theorem scanner_adapter_lifecycle now cfg addr s :
  can_open s -> full_cfg_ok cfg -> TargetAddr cfg = Some addr ->
  let otid := next_otid s in
  let toid := next_toid s in
  let conns s := ConnMgr.connections (ad_cm (device s)) in
  let ios s := io_conns (ad_rt (device s)) in
  exists ref c cc pc s1 s2,
    Open SendCIPRequest peer_addr now cfg s = (Ok ref, s1) /\
    heap s !! ref = None /\ heap s1 = <[ref := c]> (heap s) /\ 
    scan_conns s1 = <[toid := ref]> (scan_conns s) /\
    OTConnectionID c = otid /\ TOConnectionID c = toid /\ stopped c = false /\
    conns s !! toid = None /\ conns s1 = <[toid := next_conn s]> (conns s) /\
    ios s1 = <[toid := pc]> (<[otid := cc]> (ios s)) /\
    (IsConsumer cc = true /\ AssemblyID cc = Some 100 /\ RunIdleHeader cc = false) /\
    (IsProducer pc = true /\ AssemblyID pc = Some 101 /\ RunIdleHeader pc = false) /\
    Close SendCIPRequest ref s1 = (Ok tt, s2) /\
    heap s2 = <[ref := set_stopped c]> (heap s) /\ scan_conns s2 = delete toid (scan_conns s) /\
    conns s2 = conns s /\ ios s2 = delete toid (delete otid (ios s)) /\
    ad_ao (device s2) = ad_ao (device s).
Proof.
  intros Hcan Hcfg Ha otid toid conns ios.
  destruct (scanner_open now cfg addr s Hcan Hcfg Ha) as (s1 & Eo & Hh & Ht & Hc1 & Hd1).
  destruct (mgr_with_inv cfg s Hcan) as [I1 Hfree].
  set (req := next_request cfg s) in *. set (ref := new_conn_ref (heap s)) in *.
  set (c := mkIOConn _ _ _ _ _ _ _ _ _ _ _ _ _ _) in *.
  destruct Hcan as ((h & wr & n & w & _ & _ & [Hasm _] & Es) & Hv & Hor & I & Hn & Hf).
  assert (device s = w) as Ew by (unfold device; by rewrite Es).
  destruct (sized_instance ot to _ 100 ot Hasm) as (i100 & G100 & D100 & _); [done|].
  destruct (sized_instance ot to _ 101 to Hasm) as (i101 & G101 & D101 & _); [done|].
  assert (heap s !! ref = None) as Hnone by apply new_conn_ref_fresh.
  destruct (scanner_close s1 ref c (next_conn s) Hc1) as (s2 & Ec & _ & Hh2 & Ht2 & Hk2 & Hi2 & Ha2).
  - by rewrite Hd1.
  - rewrite Hh. apply lookup_insert_eq.
  - rewrite Hd1. cbn [ad_cm on_open with_cm mgr_with ConnMgr.connections]. apply lookup_insert_eq.
  - done.
  - apply u16_range.
  - exact Hv.
  - exact Hor.
  - exists ref, c, (set_received (clock w) (consumer (ad_ao w) (next_conn s) req)),
      (set_received (clock w) (producer (ad_ao w) (next_conn s) req)), s1, s2.
    unfold conns, ios in *. rewrite Hh2, Ht2, Hk2, Hi2, Ha2, Hd1, Hh, Ht. rewrite Ew.
    rewrite Ew in Hfree. split_and!; try done.
    + cbn. rewrite G100. cbn. by rewrite D100.
    + cbn. rewrite G101. cbn. by rewrite D101.
    + by rewrite insert_insert_eq.
    + cbn. by rewrite delete_insert_eq.
    + by apply delete_insert_id.
    + cbn -[delete insert]. apply map_eq. intros k. rewrite !lookup_delete, !lookup_insert.
      by repeat case_decide.
Qed.
End Plant.

(** ** Cyclic data between the scanner and a runtime *)

(** The datagram of the scanner, as a packet of the runtime's format. *)
Definition scanner_snap (c : IOConn) : connSnapshot :=
  mkSnap (OTConnectionID c) (u16 (sequenceCount c + 1)) (runIdleHeader c) (Some (remoteAddr c)) (outputData c).

Lemma sendPacket_packet c :
  snap_ok (scanner_snap c) ->
  sendPacket c = ((remoteAddr c, packet_of (scanner_snap c)), set_seq (u16 (sequenceCount c + 1)) c).
Proof.
  intros (_ & _ & Hl). cbn in Hl. pose proof (len_nonneg (outputData c)).
  unfold sendPacket, packet_of, scanner_snap. cbn [set_seq runIdleHeader OTConnectionID sequenceCount
    outputData remoteAddr sn_ConnectionID sn_SequenceCount sn_RunIdleHeader AssemblyData].
  rewrite u16_small; [done|]. unfold is_u16. destruct (runIdleHeader c); lia.
Qed.

(** A packet that addresses a consumer of its format and size is stored. *)
Lemma packet_consumed now sn rx cc aid inst :
  snap_ok sn -> io_conns rx !! sn_ConnectionID sn = Some cc -> RunIdleHeader cc = sn_RunIdleHeader sn ->
  AssemblyID cc = Some aid -> Assembly.GetInstance aid (assemblyObj rx) = Some inst ->
  len (Assembly.as_Data inst) = len (AssemblyData sn) ->
  handlePacket now (packet_of sn) rx =
    Ok (mkRuntime (<[sn_ConnectionID sn := set_received now cc]> (io_conns rx))
          (Assembly.SetAttributeSingle aid 3 (AssemblyData sn) (assemblyObj rx)).2 (stopped_conns rx)) /\
  Assembly.GetAttributeSingle aid 3 (Assembly.SetAttributeSingle aid 3 (AssemblyData sn) (assemblyObj rx)).2
    = Ok (AssemblyData sn).
Proof.
  intros Hok Hc Hr Ha Hi Hl. split.
  - unfold handlePacket. rewrite parse_packet_of by done. cbn [mbind outcome_bind].
    unfold consume. rewrite Hc, Hr, process_data_of by done. go_bind. by rewrite Ha.
  - rewrite (set_exact aid _ _ inst Hi) by done. unfold Assembly.GetAttributeSingle. cbn.
    by rewrite lookup_insert_eq.
Qed.

(** Data of another size than the assembly's is dropped without a word. *)
Lemma packet_size_dropped now sn rx cc aid inst :
  snap_ok sn -> io_conns rx !! sn_ConnectionID sn = Some cc -> RunIdleHeader cc = sn_RunIdleHeader sn ->
  AssemblyID cc = Some aid -> Assembly.GetInstance aid (assemblyObj rx) = Some inst ->
  len (Assembly.as_Data inst) <> len (AssemblyData sn) ->
  handlePacket now (packet_of sn) rx =
    Ok (mkRuntime (<[sn_ConnectionID sn := set_received now cc]> (io_conns rx)) (assemblyObj rx) (stopped_conns rx)).
Proof.
  intros Hok Hc Hr Ha Hi Hl. unfold handlePacket. rewrite parse_packet_of by done. cbn [mbind outcome_bind].
  unfold consume. rewrite Hc, Hr, process_data_of by done. go_bind. rewrite Ha. do 2 f_equal.
  cbn [assemblyObj]. unfold Assembly.SetAttributeSingle. unfold Assembly.GetInstance in Hi. rewrite Hi. cbn.
  by rewrite (proj2 (Z.eqb_neq _ _)) by congruence.
Qed.

(** A packet that addresses a connection of the scanner sets its input. *)
Lemma packet_received {S} now sn (s : scanner S) ref c :
  snap_ok sn -> scan_conns s !! sn_ConnectionID sn = Some ref -> heap s !! ref = Some c ->
  runIdleHeader c = sn_RunIdleHeader sn -> len (inputData c) = len (AssemblyData sn) ->
  handleIncomingPacket now (packet_of sn) s =
    Ok (with_conns (<[ref := set_input now (AssemblyData sn) c]> (heap s)) (scan_conns s) s).
Proof.
  intros Hok Ht Hc Hr Hl. destruct Hok as (Hid & Hseq & Hlen).
  pose proof (len_nonneg (AssemblyData sn)) as H0.
  set (n := (if sn_RunIdleHeader sn then 6 else 2) + len (AssemblyData sn)).
  assert (len (payload_of sn) = n) as En.
  { unfold payload_of, n. destruct (sn_RunIdleHeader sn); lens; lia. }
  assert (is_u16 n) as Hn by (unfold n; destruct (sn_RunIdleHeader sn); width_lia).
  assert (packet_of sn = le16 2 ++ (le16 0x00A1 ++ le16 4) ++ le32 (sn_ConnectionID sn) ++
            le16 0x00B1 ++ le16 n ++ payload_of sn) as -> by done.
  assert (2 <= n) as Hn2 by (unfold n; destruct (sn_RunIdleHeader sn); lia).
  unfold handleIncomingPacket. replace (_ <? 16) with false by (symmetry; lens; lia).
  rewrite le16_at_head by done. go_bind. change (negb (2 =? 2)) with false. cbv iota.
  rewrite (app_assoc (le16 2)). rewrite go_slice_mid by (by lens).
  rewrite <-(app_nil_r (le32 _)) at 1. rewrite get_le32_le32 by done.
  rewrite (app_assoc _ (le32 _)), (app_assoc _ (le16 0x00B1)).
  rewrite le16_at_mid by (by lens || done).
  replace (_ <? 14 + n) with false by (symmetry; lens; lia).
  rewrite (app_assoc _ (le16 n)). rewrite go_slice_suffix by (lens; lia).
  rewrite Ht, Hc, Hr, En. replace (n <? _) with false by (symmetry; destruct (sn_RunIdleHeader sn); lia).
  assert (go_slice (payload_of sn) (if sn_RunIdleHeader sn then 6 else 2) n = Ok (AssemblyData sn)) as ->.
  { unfold payload_of, n. rewrite app_assoc. apply go_slice_suffix; destruct (sn_RunIdleHeader sn); by lens. }
  by rewrite Hl, Z.eqb_refl.
Qed.

(** What the application makes of consumed data. *)
Definition echo_of (toSize cycle : Z) (d : bytes) : bytes :=
  le16 (u16 (cycle + 1)) ++ take (Z.to_nat (toSize - 2)) d ++ replicate (Z.to_nat (toSize - 2 - len d)) 0.

Lemma app_tick_echo ot to w d :
  ad_inv ot to w -> 2 <= to -> activeConns w <> 0 -> Assembly.GetAttributeSingle 100 3 (ad_ao w) = Ok d ->
  exists w', app_tick to w = Ok w' /\ len (echo_of to (cycle w) d) = to /\
    Assembly.GetAttributeSingle 101 3 (ad_ao w') = Ok (echo_of to (cycle w) d) /\
    io_conns (ad_rt w') = io_conns (ad_rt w) /\ clock w' = clock w.
Proof.
  intros [Ha _] Ht Hn Hd. unfold app_tick. rewrite (proj2 (Z.eqb_neq _ _) Hn).
  destruct (sized_instance ot to _ 101 to Ha) as (inst & Hi & _ & Hl); [done|].
  unfold ad_ao in *. cbn [ad_rt cycle]. rewrite Hd.
  destruct (produce_data_ok to (u16 (cycle w + 1)) d ltac:(lia)) as (e & -> & Hle & He).
  rewrite He in * by lia. go_bind. eexists. split; [done|]. split; [exact Hle|].
  cbn [ad_rt with_ao with_rt assemblyObj]. split; [|done].
  rewrite (set_exact 101 _ _ inst Hi) by lia. unfold Assembly.GetAttributeSingle. cbn.
  by rewrite lookup_insert_eq.
Qed.

(** C29: A cycle of data through both ends.  Take a connection that is open at both
    ends without a run/idle header: entered in the scanner's table, and in the
    adapter's runtime as a consumer of assembly 100 under the one identifier and as
    a producer of assembly 101 under the other, with buffers of the scanner as long
    as the assemblies, at most 2032 bytes each.  The output the scanner sets arrives
    in assembly 100 by the scanner's next datagram, and the application's next pass
    puts it into assembly 101 behind its cycle counter.  If the producer is given an
    address and is due, its datagram sets exactly that data as the scanner's input.
    ([packet_size_dropped] is what happens where the sizes differ.) *)
Theorem cyclic_echo {S} ot to (s : scanner S) ref c w cc pc d addr now :
  0 <= ot <= 2032 -> 2 <= to <= 2032 -> ad_inv ot to w -> activeConns w <> 0 -> conn_ok c ->
  heap s !! ref = Some c -> scan_conns s !! TOConnectionID c = Some ref -> runIdleHeader c = false ->
  len (outputData c) = ot -> len (inputData c) = to -> len d = ot ->
  io_conns (ad_rt w) !! OTConnectionID c = Some cc -> AssemblyID cc = Some 100 -> RunIdleHeader cc = false ->
  io_conns (ad_rt w) !! TOConnectionID c = Some pc -> AssemblyID pc = Some 101 -> RunIdleHeader pc = false ->
  IsProducer pc = true -> ConnectionID pc = TOConnectionID c -> OTConnectionID c <> TOConnectionID c ->
  RPI pc <= clock w - LastSend pc ->
  exists c1 pkt c2 rt w' sn pkt' s',
    SetOutput d c = (Ok tt, c1) /\ sendPacket c1 = ((remoteAddr c, pkt), c2) /\
    handlePacket (clock w) pkt (ad_rt w) = Ok rt /\
    Assembly.GetAttributeSingle 100 3 (assemblyObj rt) = Ok d /\
    app_tick to (with_rt rt w) = Ok w' /\
    let rt' := SetProducerAddr (TOConnectionID c) (Some addr) (ad_rt w') in
    (snapshot (clock w') (assemblyObj rt') <$> io_conns rt' !! TOConnectionID c) = Some (Some sn) /\
    sendPacketFromSnapshot sn = Ok (Some (addr, pkt')) /\
    handleIncomingPacket now pkt' s = Ok s' /\
    (Input <$> heap s' !! ref) = Some (echo_of to (cycle w) d).
Proof.
  intros Hot Hto Iw Hact Hc Hh Ht Hr Ho Hi Hd Hcc Hcca Hccr Hpc Hpca Hpcr Hprod Hpid Hne Hdue.
  assert (SetOutput d c = (Ok tt, set_output d c)) as Eset.
  { unfold SetOutput. by rewrite Hd, Ho, Z.eqb_refl. }
  pose proof Hc as (Hc1 & Hc2 & _).
  assert (snap_ok (scanner_snap (set_output d c))) as Hsn.
  { split; [exact Hc1|]. split; [apply u16_range|]. cbn. rewrite Hr. lia. }
  destruct (sized_instance ot to _ 100 ot (ai_assembly _ _ _ Iw)) as (i100 & G100 & _ & L100); [done|].
  destruct (packet_consumed (clock w) _ (ad_rt w) cc 100 i100 Hsn Hcc) as [Ep Eg]; try done.
  { cbn. by rewrite Hccr, Hr. }
  { cbn. lia. }
  set (rt := mkRuntime _ _ _) in *. cbn [AssemblyData scanner_snap outputData set_output] in Eg.
  assert (ad_inv ot to (with_rt rt w)) as I1.
  { destruct Iw as [Ha Hs]. split; [by apply Set_asm_inv|]. apply silent_insert; [done|]. exact (Hs _ _ Hcc). }
  destruct (app_tick_echo ot to (with_rt rt w) d I1 ltac:(lia) Hact Eg) as (w' & Ea & Le & G101 & Hio & Hck).
  set (sn := mkSnap (TOConnectionID c) (u16 (SequenceCount pc + 1)) false (Some addr) (echo_of to (cycle w) d)).
  assert (snap_ok sn) as Hsn2.
  { split; [exact Hc2|]. split; [apply u16_range|]. cbn [AssemblyData sn sn_RunIdleHeader].
    cbn [cycle with_rt] in Le. lia. }
  assert (io_conns (ad_rt w') !! TOConnectionID c = Some pc) as Hpc'.
  { rewrite Hio. cbn. by rewrite lookup_insert_ne. }
  exists (set_output d c), (packet_of (scanner_snap (set_output d c))),
    (set_seq (u16 (sequenceCount c + 1)) (set_output d c)), rt, w', sn, (packet_of sn),
    (with_conns (<[ref := set_input now (AssemblyData sn) c]> (heap s)) (scan_conns s) s).
  split; [done|]. split; [by rewrite sendPacket_packet|]. split; [done|]. split; [done|]. split; [done|].
  cbv zeta. split_and!.
  - unfold SetProducerAddr. rewrite Hpc'. cbn [io_conns assemblyObj]. rewrite lookup_insert_eq. cbn [fmap option_fmap option_map].
    unfold snapshot, due. cbn [set_addr IsProducer LastSend RPI AssemblyID ConnectionID SequenceCount
      RunIdleHeader RemoteAddr]. rewrite Hprod, Hpca, Hck. cbn [clock with_rt].
    rewrite (proj2 (Z.ltb_ge _ _)) by lia. cbn [negb andb]. unfold ad_ao in G101. rewrite G101, Hpid, Hpcr. done.
  - unfold sendPacketFromSnapshot. cbn [sn_RemoteAddr sn]. by rewrite packet_bytes_ok.
  - apply packet_received; try done. cbn [AssemblyData sn]. cbn [cycle with_rt] in Le. lia.
  - cbn. by rewrite lookup_insert_eq.
Qed.

(** ** Witnesses: an adapter with four-byte assemblies *)
Definition demo_adapter : Adapter :=
  match new_adapter 4 4 1000000000 with Ok w => w | _ => mkAdapter ConnMgr.NewConnectionManager (NewRuntime Assembly.NewAssemblyObject) 0 0 0 end.
Definition demo_plant : plant :=
  NewIOScanner (mkSession 5 (mkServed [] [] (mkCS 5 []) (mkShared 5 demo_adapter) true)) 1 1.
Definition demo_cfg : IOConnectionConfig := mkIOConfig 100 101 0 4 4 10000000 0 false (Some 7) None.

Lemma adapter_never_sends_witness :
  exists w0, new_adapter 4 4 0 = Ok w0 /\ (processTick (clock w0) (ad_rt w0)).1 = Ok [].
Proof.
  destruct (adapter_never_sends 4 4 0 ltac:(lia) ltac:(lia)) as (w0 & E & H).
  exists w0. split; [exact E|]. apply (H w0). constructor.
Defined.

Lemma demo_can_open : can_open 4 4 demo_plant.
Proof.
  split.
  - exists 5, [], 5, demo_adapter. split; [decided|]. split; [done|]. split; [|done].
    destruct (new_adapter_ok 4 4 1000000000 ltac:(lia) ltac:(lia)) as (w & E & I & _).
    unfold demo_adapter. by rewrite E.
  - split; [decided|]. split; [decided|]. split; [apply ConnMgr.new_mgr_inv|]. split; [done|].
    intros H. by apply elem_of_nil in H.
Qed.

Lemma scanner_adapter_lifecycle_witness :
  exists ref s1 s2,
    Open (@SendCIPRequest _ (Served_Wire adapter_router no_identity)) (fun _ => None) 0 demo_cfg demo_plant = (Ok ref, s1) /\
    scan_conns s1 = {[0x80000001 := ref]} /\
    dom (io_conns (ad_rt (device s1))) = ({[0x80000001; 1]} : gset Z) /\
    Close (@SendCIPRequest _ (Served_Wire adapter_router no_identity)) ref s1 = (Ok tt, s2) /\
    io_conns (ad_rt (device s2)) = ∅.
Proof.
  destruct (scanner_adapter_lifecycle no_identity (fun _ => None) 4 4 ltac:(lia) ltac:(lia) 0 demo_cfg 7
    demo_plant demo_can_open) as (ref & c & cc & pc & s1 & s2 & E1 & _ & _ & E2 & _ & _ & _ & _ & _ & E3 & _ & _ & E4 & _ & _ & _ & E5 & _).
  - split; [split; decided|]. split; decided.
  - reflexivity.
  - exists ref, s1, s2. split; [exact E1|]. split; [exact E2|]. split; [|split; [exact E4|]].
    + rewrite E3. rewrite !dom_insert_L. vm_compute. reflexivity.
    + rewrite E5. reflexivity.
Defined.

Definition demo_io : IOConn := mkIOConn 1 0x80000001 1 1 1 [0; 0; 0; 0] [0; 0; 0; 0] 10000000 0 0 0 false 7 false.
Definition demo_scanner : scanner unit := mkScanner tt 1 1 {[0%nat := demo_io]} {[0x80000001 := 0%nat]} 1 1 false.
Definition demo_open_adapter : Adapter :=
  on_open (ConnMgr.mkConnection 1 0x80000001 1 1 1) (open_request_of demo_cfg 1 1 1 1) demo_adapter.

Lemma cyclic_echo_witness :
  exists sn pkt' s',
    sendPacketFromSnapshot sn = Ok (Some (9, pkt')) /\
    handleIncomingPacket 3 pkt' demo_scanner = Ok s' /\
    (Input <$> heap s' !! 0%nat) = Some [1; 0; 11; 22].
Proof.
  assert (ad_inv 4 4 demo_open_adapter) as I.
  { apply (callback_inv 4 4 demo_adapter (ConnMgr.Opened _ _)).
    destruct (new_adapter_ok 4 4 1000000000 ltac:(lia) ltac:(lia)) as (w & E & I & _).
    unfold demo_adapter. by rewrite E. }
  destruct (cyclic_echo 4 4 demo_scanner 0%nat demo_io demo_open_adapter
    (set_received 1000000000 (consumer (ad_ao demo_adapter) (ConnMgr.mkConnection 1 0x80000001 1 1 1) (open_request_of demo_cfg 1 1 1 1)))
    (set_received 1000000000 (producer (ad_ao demo_adapter) (ConnMgr.mkConnection 1 0x80000001 1 1 1) (open_request_of demo_cfg 1 1 1 1)))
    [11; 22; 33; 44] 9 3) as (c1 & pkt & c2 & rt & w' & sn & pkt' & s' & _ & _ & _ & _ & _ & _ & E1 & E2 & E3);
    try reflexivity; try lia; try exact I; try discriminate.
  - unfold conn_ok. split_and!; try decided; done.
  - exists sn, pkt', s'. split; [exact E1|]. split; [exact E2|exact E3].
Defined.

(** Two scanners that are new both call their first connection 1: the second
    replaces the first one's entry as a consumer in the runtime, and closing it
    leaves the first connection open without a consumer. *)
Example originators_collide :
  let request service data w := (mgr_object service (logical_segment LogicalTypeInstance 1) data w).2 in
  let w1 := request ConnMgr.ServiceForwardOpen
              (ConnMgr.Open_Encode (open_request_of demo_cfg 1 1 1 1)) demo_adapter in
  let w2 := request ConnMgr.ServiceForwardOpen
              (ConnMgr.Open_Encode (open_request_of demo_cfg 1 1 1 2)) w1 in
  let w3 := request ConnMgr.ServiceForwardClose
              (ConnMgr.Close_Encode (close_request_of (mkIOConn 1 0x80000002 1 1 2 [] [] 0 0 0 0 false 0 false))) w2 in
  map ConnMgr.cn_OTConnectionID (ConnMgr.current (ad_cm w2)) = [1; 1] /\
  size (io_conns (ad_rt w2)) = 3%nat /\
  map ConnMgr.cn_OTConnectionID (ConnMgr.current (ad_cm w3)) = [1] /\
  map fst (map_to_list (io_conns (ad_rt w3))) = [0x80000001].
Proof. vm_compute. split_and!; reflexivity. Qed.
