(* ===== verification/Options.v ===== *)
(** * Functional options and the client constructors

    Models [transport/options.go], [protocol/modbus/options.go],
    [protocol/ethernetip/options.go] (with the two options of [pccc.go]), the
    options of the two servers, and the constructors that take a mixed list of
    options: [modbus.Connect], [ethernetip.Connect] and
    [ethernetip.NewReconnectingClient].  An option is a function on the
    configuration, as in Go.  A variadic argument of type [any] is a value of
    [any_option]; the type switch routes it to its layer and drops values of
    other types.  Loggers, sockets and writers are opaque; [None] is a nil
    interface.  Dialling is a parameter.  [net.SplitHostPort] of the standard
    library, which every dial applies to its address, is written out. *)
From S2P Require Import Prelude Bytes ModbusTypes ModbusNames Transport MonitorCluster EipCodec Pccc.
From S2P Require Import CipTags EipClient.

(** The loop over the options of a constructor. *)
Definition apply_all {S : Type} (opts : list (S -> S)) (s : S) : S :=
  fold_left (fun s opt => opt s) opts s.

Lemma apply_all_app {S : Type} (os1 os2 : list (S -> S)) s :
  apply_all (os1 ++ os2) s = apply_all os2 (apply_all os1 s).
Proof. apply fold_left_app. Qed.

(** ** The last setting of a field wins

    [pick o] is the value the setting [o] gives to a field; [d] is its default. *)
Definition chosen {O A : Type} (d : A) (pick : O -> option A) (os : list O) : A :=
  default d (last (omap pick os)).

Lemma chosen_snoc {O A : Type} (d : A) (pick : O -> option A) os o :
  chosen d pick (os ++ [o]) = default (chosen d pick os) (pick o).
Proof.
  unfold chosen. rewrite omap_app. cbn.
  destruct (pick o); cbn; [by rewrite last_snoc|by rewrite app_nil_r].
Qed.

(** ** Options of mixed types *)
Inductive any_option (CO KO TO : Type) : Type :=
| AConn (o : CO) | AClient (o : KO) | ATransport (o : TO) | AOther.
Arguments AConn {CO KO TO}.
Arguments AClient {CO KO TO}.
Arguments ATransport {CO KO TO}.
Arguments AOther {CO KO TO}.

Section Routing.
Context {CO KO TO : Type}.
Abbreviation routed := (list CO * list KO * list TO)%type.

Definition route_one (acc : routed) (o : any_option CO KO TO) : routed :=
  let '(connOpts, clientOpts, transportOpts) := acc in
  match o with
  | AConn v => (connOpts ++ [v], clientOpts, transportOpts)
  | AClient v => (connOpts, clientOpts ++ [v], transportOpts)
  | ATransport v => (connOpts, clientOpts, transportOpts ++ [v])
  | AOther => acc
  end.
Definition route (opts : list (any_option CO KO TO)) : routed := fold_left route_one opts ([], [], []).

Definition conn_part (o : any_option CO KO TO) : option CO := if o is AConn v then Some v else None.
Definition client_part (o : any_option CO KO TO) : option KO := if o is AClient v then Some v else None.
Definition transport_part (o : any_option CO KO TO) : option TO :=
  if o is ATransport v then Some v else None.

Lemma route_spec opts :
  route opts = (omap conn_part opts, omap client_part opts, omap transport_part opts).
Proof.
  unfold route. induction opts as [|o opts IH] using rev_ind; [done|].
  rewrite fold_left_app, IH, !omap_app. by destruct o; cbn; rewrite ?app_nil_r.
Qed.
End Routing.

(** ** transport/options.go *)
Section Hooks.
Context {W : Type}.

(** A callback acts on the caller's state and may panic. *)
Record Config : Type := mkConfig {
  cfg_OnConnect : list (W -> outcome W);
  cfg_OnDisconnect : list (option error -> W -> outcome W)
}.
Definition TransportOption : Type := Config -> Config.
Definition WithOnConnect (fn : W -> outcome W) : TransportOption := fun cfg =>
  mkConfig (cfg_OnConnect cfg ++ [fn]) (cfg_OnDisconnect cfg).
Definition WithOnDisconnect (fn : option error -> W -> outcome W) : TransportOption := fun cfg =>
  mkConfig (cfg_OnConnect cfg) (cfg_OnDisconnect cfg ++ [fn]).

Fixpoint call_all (fns : list (W -> outcome W)) (w : W) : outcome W :=
  match fns with [] => Ok w | fn :: fns => w ← fn w; call_all fns w end.
Definition fireOnConnect (cfg : Config) (w : W) : outcome W := call_all (cfg_OnConnect cfg) w.
Definition fireOnDisconnect (cfg : Config) (err : option error) (w : W) : outcome W :=
  call_all ((fun fn => fn err) <$> cfg_OnDisconnect cfg) w.
Definition applyOptions (opts : list TransportOption) : Config := apply_all opts (mkConfig [] []).

(** The hooks a transport recorded, called where it fires them. *)
Definition fire {C} (cfg : Config) (h : hook C) (w : W) : outcome W :=
  match h with OnConnect _ => fireOnConnect cfg w | OnDisconnect _ err => fireOnDisconnect cfg err w end.
Fixpoint fire_all {C} (cfg : Config) (hs : list (hook C)) (w : W) : outcome W :=
  match hs with [] => Ok w | h :: hs => w ← fire cfg h w; fire_all cfg hs w end.

(** A transport option as a caller writes it. *)
Inductive hook_setting : Type :=
| SOnConnect (fn : W -> outcome W) | SOnDisconnect (fn : option error -> W -> outcome W).
Definition hook_option (s : hook_setting) : TransportOption :=
  match s with SOnConnect fn => WithOnConnect fn | SOnDisconnect fn => WithOnDisconnect fn end.
Definition connect_fn (s : hook_setting) : option (W -> outcome W) :=
  if s is SOnConnect fn then Some fn else None.
Definition disconnect_fn (s : hook_setting) : option (option error -> W -> outcome W) :=
  if s is SOnDisconnect fn then Some fn else None.

(** Every registered callback is kept, in the order of registration. *)
Lemma applyOptions_spec ss :
  applyOptions (hook_option <$> ss) = mkConfig (omap connect_fn ss) (omap disconnect_fn ss).
Proof.
  induction ss as [|s ss IH] using rev_ind; [done|]. unfold applyOptions, TransportOption in *.
  rewrite fmap_app, apply_all_app, IH, !omap_app. by destruct s; cbn; rewrite ?app_nil_r.
Qed.
End Hooks.
Arguments Config : clear implicits.
Arguments TransportOption : clear implicits.
Arguments hook_setting : clear implicits.

(** ** Dial addresses

    [net.SplitHostPort]: 58 is ':', 91 is '[', 93 is ']'. *)
Definition has (c : Z) (s : bytes) : bool := bool_decide (c ∈ s).
Fixpoint index_of (c : Z) (s : bytes) : option nat :=
  match s with
  | [] => None
  | b :: s => if b =? c then Some O else S <$> index_of c s
  end.
Definition last_index_of (c : Z) (s : bytes) : option nat :=
  (fun i => (length s - 1 - i)%nat) <$> index_of c (reverse s).
Definition SplitHostPort (hostport : bytes) : outcome (bytes * bytes) :=
  match last_index_of 58 hostport with
  | None => Err (Errorf "missing port in address")
  | Some i =>
      '(host, j, k) ←
        (if bool_decide (hostport !! 0%nat = Some 91) then
           match index_of 93 hostport with
           | None => Err (Errorf "missing ']' in address")
           | Some e =>
               if bool_decide (S e = length hostport) then Err (Errorf "missing port in address")
               else if bool_decide (S e = i) then
                 Ok (take (e - 1) (drop 1 hostport), 1%nat, S e)
               else if bool_decide (hostport !! S e = Some 58)
                    then Err (Errorf "too many colons in address")
                    else Err (Errorf "missing port in address")
           end
         else if has 58 (take i hostport) then Err (Errorf "too many colons in address")
         else Ok (take i hostport, 0%nat, 0%nat));
      if has 91 (drop j hostport) then Err (Errorf "unexpected '[' in address")
      else if has 93 (drop k hostport) then Err (Errorf "unexpected ']' in address")
      else Ok (host, drop (S i) hostport)
  end.

(** [fmt.Sprintf] of ["%s:%d"], in [connect] of the Modbus connection. *)
Definition modbus_dial_address (host : bytes) (port : Z) : bytes := host ++ [58] ++ itoa port.
(** The default port in [NewTCPConn] of the EtherNet/IP package. *)
Definition eip_dial_address (address : bytes) : bytes :=
  if has 58 address then address else address ++ str ":44818".

Lemma has_true c s : has c s = true <-> c ∈ s.
Proof. unfold has. apply bool_decide_eq_true. Qed.
Lemma has_false c s : c ∉ s -> has c s = false.
Proof. intros H. unfold has. by rewrite bool_decide_false. Qed.

Lemma index_of_first c s t : c ∉ s -> index_of c (s ++ c :: t) = Some (length s).
Proof.
  induction s as [|b s IH]; intros H; cbn; [by rewrite Z.eqb_refl|].
  destruct (Z.eqb_spec b c); [set_solver|]. rewrite IH by set_solver. done.
Qed.
Lemma last_index_of_last c s t : c ∉ t -> last_index_of c (s ++ c :: t) = Some (length s).
Proof.
  intros H. unfold last_index_of. rewrite reverse_app, reverse_cons, <- app_assoc. cbn [app].
  rewrite index_of_first by (rewrite elem_of_reverse; done). cbn [fmap option_fmap option_map].
  rewrite length_app, length_reverse. cbn [length]. f_equal. lia.
Qed.

(** An address without brackets is cut at its last colon. *)
Lemma split_plain host port :
  91 ∉ host -> 93 ∉ host -> 58 ∉ port -> 91 ∉ port -> 93 ∉ port ->
  SplitHostPort (host ++ 58 :: port) =
    if has 58 host then Err (Errorf "too many colons in address") else Ok (host, port).
Proof.
  intros H1 H2 H3 H4 H5. unfold SplitHostPort. rewrite last_index_of_last by done.
  rewrite bool_decide_false by (destruct host; cbn; [done|intros [= ->]; set_solver]).
  rewrite take_app_length. destruct (has 58 host); [done|]. cbn [mbind outcome_bind].
  rewrite !drop_0, !has_false by set_solver. do 2 f_equal.
  replace (S (length host)) with (length (host ++ [58])) by (rewrite length_app; cbn; lia).
  change (58 :: port) with ([58] ++ port). by rewrite app_assoc, drop_app_length.
Qed.

(** A port has digits only. *)
Lemma itoa_clean c n : is_u32 n -> isDigit c = false -> c ∉ itoa n.
Proof.
  intros H Hc Hin. destruct (itoa_u32 n H) as [Hd%digits_plain _].
  rewrite Forall_forall in Hd. specialize (Hd c Hin). cbv beta in Hd. congruence.
Qed.

(** A bracketed host followed by a port. *)
Lemma split_bracketed h port :
  91 ∉ h -> 93 ∉ h -> 58 ∉ port -> 91 ∉ port -> 93 ∉ port ->
  SplitHostPort (([91] ++ h ++ [93]) ++ 58 :: port) = Ok (h, port).
Proof.
  intros H1 H2 H3 H4 H5. unfold SplitHostPort. rewrite last_index_of_last by done.
  rewrite bool_decide_true by done.
  replace (([91] ++ h ++ [93]) ++ 58 :: port) with ((91 :: h) ++ 93 :: 58 :: port)
    by (cbn; by rewrite <- app_assoc).
  rewrite index_of_first by set_solver. rewrite !length_app. cbn [length app].
  rewrite bool_decide_false by lia. rewrite bool_decide_true by (cbn; lia).
  cbn [mbind outcome_bind drop].
  replace (drop (S (length h)) (h ++ 93 :: 58 :: port)) with (58 :: port).
  2: { change (93 :: 58 :: port) with ([93] ++ 58 :: port). rewrite app_assoc.
       replace (S (length h)) with (length (h ++ [93])) by (rewrite length_app; cbn; lia).
       by rewrite drop_app_length. }
  rewrite !has_false by set_solver.
  replace (S (length h) - 1)%nat with (length h) by lia. rewrite drop_0, take_app_length. do 2 f_equal.
  change (93 :: 58 :: port) with ([93; 58] ++ port). rewrite app_assoc.
  replace (length h + 1)%nat with (S (length h)) by lia.
  replace (1 + S (length h))%nat with (length (h ++ [93; 58])) by (rewrite length_app; cbn; lia).
  cbn [drop]. by rewrite drop_app_length.
Qed.

(** a host name or an IPv4 address is dialled at its port by both
    packages.  A bracketed IPv6 address is, too, by the Modbus client; the
    EtherNet/IP client takes the colons of the address for a port, adds none,
    and the dial fails.  An IPv6 address without brackets fails in both. *)
Theorem dial_addresses (host : bytes) (port : Z) :
  is_u32 port -> 91 ∉ host -> 93 ∉ host ->
  (58 ∉ host ->
     SplitHostPort (modbus_dial_address host port) = Ok (host, itoa port) /\
     SplitHostPort (eip_dial_address host) = Ok (host, str "44818")) /\
  (58 ∈ host ->
     SplitHostPort (modbus_dial_address host port) = Err (Errorf "too many colons in address") /\
     eip_dial_address host = host) /\
  SplitHostPort (modbus_dial_address ([91] ++ host ++ [93]) port) = Ok (host, itoa port) /\
  (58 ∈ host ->
     SplitHostPort (eip_dial_address ([91] ++ host ++ [93])) = Err (Errorf "missing port in address")).
Proof.
  intros Hp H1 H2. pose proof (fun c => itoa_clean c port Hp) as Hi.
  assert ((58 ∉ itoa port) /\ (91 ∉ itoa port) /\ (93 ∉ itoa port)) as (Hi1 & Hi2 & Hi3) by (split_and!; by apply Hi).
  unfold modbus_dial_address, eip_dial_address.
  split_and!.
  - intros H. cbn [app]. rewrite split_plain, !has_false by done. split; [done|].
    change (str ":44818") with (58 :: str "44818").
    rewrite split_plain by (done || (apply (bool_decide_unpack _); vm_compute; exact I)).
    by rewrite has_false.
  - intros H%has_true. cbn [app]. rewrite split_plain, H by done. done.
  - by apply split_bracketed.
  - intros H. rewrite (proj2 (has_true _ _)) by set_solver.
    apply list_elem_of_split_r in H as (a & b & -> & Hb). unfold SplitHostPort.
    replace ([91] ++ (a ++ 58 :: b) ++ [93]) with ((91 :: a) ++ 58 :: (b ++ [93]))
      by (cbn; by rewrite <- app_assoc).
    rewrite last_index_of_last by set_solver. cbn [app lookup list_lookup].
    rewrite bool_decide_true by done.
    replace (91 :: a ++ 58 :: b ++ [93]) with ((91 :: a ++ 58 :: b) ++ [93])
      by (cbn; by rewrite <- app_assoc).
    rewrite index_of_first by set_solver. rewrite bool_decide_true; [done|].
    rewrite length_app. cbn. lia.
Qed.

Lemma dial_addresses_witness :
  SplitHostPort (eip_dial_address (str "[fe80::1]")) = Err (Errorf "missing port in address") /\
  SplitHostPort (modbus_dial_address (str "plc.local") 502) = Ok (str "plc.local", str "502").
Proof.
  split.
  - refine (proj2 (proj2 (proj2 (dial_addresses (str "fe80::1") 502 _ _ _))) _);
      try (apply (bool_decide_unpack _); vm_compute; exact I).
  - refine (proj1 (proj1 (dial_addresses (str "plc.local") 502 _ _ _) _));
      try (apply (bool_decide_unpack _); vm_compute; exact I).
Defined.

(** ** Modbus *)
Module ModbusOpts.
Section Modbus.
Context {Logger NetConn Writer C W H : Type} `{EqDecision C}.
Variable NewNopLogger : Logger.

(** The fields of [TCPConn] that options set. *)
Record TCPConn : Type := mkTCPConn {
  c_logger : option Logger; host : bytes; port : Z; timeout : Z;
  hexDumper : option Writer; injectedConn : option NetConn
}.
Definition TCPConnOption : Type := TCPConn -> TCPConn.
Definition WithPort (p : Z) : TCPConnOption := fun c =>
  mkTCPConn (c_logger c) (host c) p (timeout c) (hexDumper c) (injectedConn c).
Definition WithTimeout (t : Z) : TCPConnOption := fun c =>
  mkTCPConn (c_logger c) (host c) (port c) t (hexDumper c) (injectedConn c).
Definition WithConn (conn : option NetConn) : TCPConnOption := fun c =>
  mkTCPConn (c_logger c) (host c) (port c) (timeout c) (hexDumper c) conn.
Definition WithConnLogger (logger : option Logger) : TCPConnOption := fun c =>
  mkTCPConn logger (host c) (port c) (timeout c) (hexDumper c) (injectedConn c).
Definition WithHexDump (out : Writer) : TCPConnOption := fun c =>
  mkTCPConn (c_logger c) (host c) (port c) (timeout c) (Some out) (injectedConn c).
(** [NewTCPConn]; durations in nanoseconds. *)
Definition NewTCPConn (h : bytes) (options : list TCPConnOption) : TCPConn :=
  apply_all options (mkTCPConn (Some NewNopLogger) h DefaultTCPPort 30000000000 None None).

Record Client : Type := mkClient {
  k_logger : option Logger; unitID : Z; retries : Z; retryDelay : Z
}.
Definition ClientOption : Type := Client -> Client.
Definition WithRetries (n : Z) : ClientOption := fun c =>
  mkClient (k_logger c) (unitID c) n (retryDelay c).
Definition WithRetryDelay (d : Z) : ClientOption := fun c =>
  mkClient (k_logger c) (unitID c) (retries c) d.
Definition WithLogger (logger : option Logger) : ClientOption := fun c =>
  mkClient logger (unitID c) (retries c) (retryDelay c).
Definition WithUnitID (u : Z) : ClientOption := fun c =>
  mkClient (k_logger c) u (retries c) (retryDelay c).
Definition NewClient (opts : list ClientOption) : Client :=
  apply_all opts (mkClient (Some NewNopLogger) 0 0 500000000).

(** [TCPConnector.Connect]: a new [TCPConn] for every connection, made with the
    same options; [connect] is [TCPConn.Connect]. *)
Variable zero : C.
Variable connect : TCPConn -> W -> outcome C * W.
Definition TCPConnector_Connect (h : bytes) (options : list TCPConnOption) (w : W) : outcome C * W :=
  connect (NewTCPConn h options) w.

(** [Connect]; [x] is the state the caller's callbacks act on. *)
Definition Connect (h : bytes) (opts : list (any_option TCPConnOption ClientOption (TransportOption H)))
    (w : W) (x : H) : outcome (Client * @ReconnectingTransport C W * Config H * H) * W :=
  let '(connOpts, clientOpts, transportOpts) := route opts in
  let cfg := applyOptions transportOpts in
  match DialReconnectingTransport zero (TCPConnector_Connect h connOpts) w with
  | (Ok tp, w) => (x ← fire_all cfg (r_hooks tp) x; Ok (NewClient clientOpts, tp, cfg, x), w)
  | (Err err, w) => (Err (Wrapf "modbus connect: %w" err), w)
  | (Panic, w) => (Panic, w)
  end.

(** Options as a caller writes them. *)
Inductive setting : Type :=
| SPort (p : Z) | STimeout (t : Z) | SConn (c : option NetConn) | SConnLogger (l : option Logger)
| SHexDump (out : Writer) | SRetries (n : Z) | SRetryDelay (d : Z) | SLogger (l : option Logger)
| SUnitID (u : Z) | SHook (h : hook_setting H) | SUnknown.
Definition option_of (s : setting) : any_option TCPConnOption ClientOption (TransportOption H) :=
  match s with
  | SPort p => AConn (WithPort p) | STimeout t => AConn (WithTimeout t)
  | SConn c => AConn (WithConn c) | SConnLogger l => AConn (WithConnLogger l)
  | SHexDump out => AConn (WithHexDump out)
  | SRetries n => AClient (WithRetries n) | SRetryDelay d => AClient (WithRetryDelay d)
  | SLogger l => AClient (WithLogger l) | SUnitID u => AClient (WithUnitID u)
  | SHook h => ATransport (hook_option h)
  | SUnknown => AOther
  end.

(** What a list of settings amounts to. *)
Definition conn_config (h : bytes) (ss : list setting) : TCPConn :=
  mkTCPConn (chosen (Some NewNopLogger) (fun s => if s is SConnLogger l then Some l else None) ss) h
    (chosen 502 (fun s => if s is SPort p then Some p else None) ss)
    (chosen 30000000000 (fun s => if s is STimeout t then Some t else None) ss)
    (chosen None (fun s => if s is SHexDump out then Some (Some out) else None) ss)
    (chosen None (fun s => if s is SConn c then Some c else None) ss).
Definition client_config (ss : list setting) : Client :=
  mkClient (chosen (Some NewNopLogger) (fun s => if s is SLogger l then Some l else None) ss)
    (chosen 0 (fun s => if s is SUnitID u then Some u else None) ss)
    (chosen 0 (fun s => if s is SRetries n then Some n else None) ss)
    (chosen 500000000 (fun s => if s is SRetryDelay d then Some d else None) ss).
Definition hooks_of (ss : list setting) : list (hook_setting H) :=
  omap (fun s => if s is SHook h then Some h else None) ss.

Lemma route_settings h ss :
  let '(co, ko, to) := route (option_of <$> ss) in
  NewTCPConn h co = conn_config h ss /\ NewClient ko = client_config ss /\
  to = hook_option <$> hooks_of ss.
Proof.
  rewrite route_spec. induction ss as [|s ss IH] using rev_ind; [done|]. destruct IH as (I1 & I2 & I3).
  unfold NewTCPConn, NewClient, conn_config, client_config, hooks_of in *.
  rewrite !fmap_app, !omap_app, !fmap_app, I3, !chosen_snoc. unfold TCPConnOption, ClientOption in *.
  rewrite !apply_all_app, I1, I2. by destruct s; cbn; rewrite ?app_nil_r.
Qed.

(** Connect gives every layer the options of its own type, wherever they
    stand in the list: of options for one field the last one counts, callbacks
    are all kept in order, values of other types are ignored.  If the connection
    so configured can be made, the client holds it and the connect callbacks have
    run once each; if it cannot, there is no client and no callback has run. *)
Theorem connect_options h ss w x :
  (forall c w' x', connect (conn_config h ss) w = (Ok c, w') ->
     call_all (omap connect_fn (hooks_of ss)) x = Ok x' ->
     exists tp cfg, Connect h (option_of <$> ss) w x = (Ok (client_config ss, tp, cfg, x'), w') /\
       r_conn tp = c /\ r_hooks tp = [OnConnect c] /\
       cfg_OnConnect cfg = omap connect_fn (hooks_of ss) /\
       cfg_OnDisconnect cfg = omap disconnect_fn (hooks_of ss)) /\
  (forall err w', connect (conn_config h ss) w = (Err err, w') ->
     Connect h (option_of <$> ss) w x =
       (Err (Wrapf "modbus connect: %w" (Wrapf "reconnecting transport dial: %w" err)), w')).
Proof.
  unfold Connect. pose proof (route_settings h ss) as R.
  destruct (route (option_of <$> ss)) as [[co ko] to]. destruct R as (R1 & R2 & ->).
  rewrite applyOptions_spec, R2. unfold DialReconnectingTransport, Reconn_Conn, conn_fast.
  cbn [NewReconnectingTransport r_closed r_conn]. rewrite bool_decide_false by tauto.
  unfold conn_slow. cbn [NewReconnectingTransport r_closed r_conn r_world r_hooks].
  rewrite bool_decide_false by tauto.
  unfold TCPConnector_Connect. rewrite R1. split.
  - intros c w' x' -> Hx. cbn. unfold fireOnConnect. cbn. rewrite Hx. cbn. eexists _, _. by split_and!.
  - intros err w' ->. done.
Qed.
End Modbus.
End ModbusOpts.

Lemma connect_options_witness :
  exists tp cfg,
    ModbusOpts.Connect (Logger := nat) (NetConn := nat) (Writer := nat) 0%nat 0
      (fun c w => (Ok (ModbusOpts.port c), (w + 1)%nat)) (str "plc")
      (ModbusOpts.option_of <$>
         [ModbusOpts.SUnitID 3; ModbusOpts.SPort 5020; ModbusOpts.SUnknown;
          ModbusOpts.SHook (SOnConnect (fun x => Ok (x ++ [1]))); ModbusOpts.SUnitID 7;
          ModbusOpts.SHook (SOnConnect (fun x => Ok (x ++ [2])))]) 0%nat [] =
      (Ok (ModbusOpts.mkClient (Some 0%nat) 7 0 500000000, tp, cfg, [1; 2]), 1%nat) /\
    r_conn tp = 5020.
Proof.
  destruct (proj1 (ModbusOpts.connect_options (Logger := nat) (NetConn := nat) (Writer := nat)
    0%nat 0 (fun c w => (Ok (ModbusOpts.port c), (w + 1)%nat)) (str "plc")
    [ModbusOpts.SUnitID 3; ModbusOpts.SPort 5020; ModbusOpts.SUnknown;
     ModbusOpts.SHook (SOnConnect (fun x => Ok (x ++ [1]))); ModbusOpts.SUnitID 7;
     ModbusOpts.SHook (SOnConnect (fun x => Ok (x ++ [2])))] 0%nat []) 5020 1%nat [1; 2])
    as (tp & cfg & H1 & H2 & _); [reflexivity|reflexivity|].
  exists tp, cfg. split; [exact H1|exact H2].
Defined.

(** ** EtherNet/IP *)
Module EipOpts.
Section Eip.
Context {Logger NetConn Writer C W H : Type} `{EqDecision C}.
Variable NewNopLogger : Logger.

Record connConfig : Type := mkConnConfig {
  cc_conn : option NetConn; dialTimeout : Z; cc_hexDumper : option Writer
}.
Definition ConnOption : Type := connConfig -> connConfig.
Definition WithConn (conn : option NetConn) : ConnOption := fun cfg =>
  mkConnConfig conn (dialTimeout cfg) (cc_hexDumper cfg).
Definition WithDialTimeout (d : Z) : ConnOption := fun cfg =>
  mkConnConfig (cc_conn cfg) d (cc_hexDumper cfg).
Definition WithHexDump (out : Writer) : ConnOption := fun cfg =>
  mkConnConfig (cc_conn cfg) (dialTimeout cfg) (Some out).

(** [NewTCPConn]: the socket and, when traffic is traced, the writer it is
    traced to. *)
Variable dial : bytes -> Z -> W -> outcome NetConn * W.
Definition dial_config (cfg : connConfig) (address : bytes) (w : W)
  : outcome (NetConn * option Writer) * W :=
  match cc_conn cfg with
  | Some conn => (Ok (conn, cc_hexDumper cfg), w)
  | None =>
      match dial (eip_dial_address address) (dialTimeout cfg) w with
      | (Ok c, w) => (Ok (c, cc_hexDumper cfg), w)
      | (Err err, w) => (Err err, w)
      | (Panic, w) => (Panic, w)
      end
  end.
Definition new_config (opts : list ConnOption) : connConfig :=
  apply_all opts (mkConnConfig None 5000000000 None).
Definition NewTCPConn (address : bytes) (opts : list ConnOption) (w : W)
  : outcome (NetConn * option Writer) * W := dial_config (new_config opts) address w.

Record Client : Type := mkClient { k_logger : Logger; retryDelay : Z; k_cfg : EipClient.Client }.
Definition ClientOption : Type := Client -> Client.
Definition WithRetries (n : Z) : ClientOption := fun c =>
  mkClient (k_logger c) (retryDelay c)
    (mkClientCfg n (cipVendorID (k_cfg c)) (cipSerialNumber (k_cfg c))).
Definition WithRetryDelay (d : Z) : ClientOption := fun c => mkClient (k_logger c) d (k_cfg c).
(** A nil logger is not taken. *)
Definition WithLogger (l : option Logger) : ClientOption := fun c =>
  match l with Some l => mkClient l (retryDelay c) (k_cfg c) | None => c end.
Definition WithCIPVendorID (id : Z) : ClientOption := fun c =>
  mkClient (k_logger c) (retryDelay c) (mkClientCfg (retries (k_cfg c)) id (cipSerialNumber (k_cfg c))).
Definition WithCIPSerialNumber (sn : Z) : ClientOption := fun c =>
  mkClient (k_logger c) (retryDelay c) (mkClientCfg (retries (k_cfg c)) (cipVendorID (k_cfg c)) sn).
Definition NewClient (opts : list ClientOption) : Client :=
  apply_all opts (mkClient NewNopLogger 1000000000 (EipClient.NewClient 0)).

(** [SessionConnector.Connect]: [register] is [NewSession] with the client's
    logger and [Register] on the connection. *)
Variable zero : C.
Variable register : Logger -> NetConn * option Writer -> W -> outcome C * W.
Definition SessionConnector_Connect (address : bytes) (logger : Logger) (connOpts : list ConnOption)
    (w : W) : outcome C * W :=
  match NewTCPConn address connOpts w with
  | (Ok tc, w) => register logger tc w
  | (Err err, w) => (Err err, w)
  | (Panic, w) => (Panic, w)
  end.

Abbreviation options := (list (any_option ConnOption ClientOption (TransportOption H))).

Definition Connect (address : bytes) (opts : options) (w : W) (x : H)
  : outcome (Client * @DirectTransport C W * Config H * H) * W :=
  let '(connOpts, clientOpts, transportOpts) := route opts in
  let c := NewClient clientOpts in
  let cfg := applyOptions transportOpts in
  match NewDirectTransport (SessionConnector_Connect address (k_logger c) connOpts) w with
  | (Ok dt, w) => (x ← fire_all cfg (d_hooks dt) x; Ok (c, dt, cfg, x), w)
  | (Err err, w) => (Err err, w)
  | (Panic, w) => (Panic, w)
  end.

(** [NewReconnectingClient]: the client, its transport and the connector the
    transport will use. *)
Definition NewReconnectingClient (address : bytes) (opts : options) (w : W)
  : Client * @ReconnectingTransport C W * (W -> outcome C * W) * Config H :=
  let '(connOpts, clientOpts, transportOpts) := route opts in
  let c := NewClient clientOpts in
  (c, NewReconnectingTransport zero w, SessionConnector_Connect address (k_logger c) connOpts,
   applyOptions transportOpts).

(** Options as a caller writes them. *)
Inductive setting : Type :=
| SConn (c : option NetConn) | SDialTimeout (d : Z) | SHexDump (out : Writer)
| SRetries (n : Z) | SRetryDelay (d : Z) | SLogger (l : option Logger)
| SCIPVendorID (id : Z) | SCIPSerialNumber (sn : Z)
| SHook (h : hook_setting H) | SUnknown.
Definition option_of (s : setting) : any_option ConnOption ClientOption (TransportOption H) :=
  match s with
  | SConn c => AConn (WithConn c) | SDialTimeout d => AConn (WithDialTimeout d)
  | SHexDump out => AConn (WithHexDump out)
  | SRetries n => AClient (WithRetries n) | SRetryDelay d => AClient (WithRetryDelay d)
  | SLogger l => AClient (WithLogger l) | SCIPVendorID id => AClient (WithCIPVendorID id)
  | SCIPSerialNumber sn => AClient (WithCIPSerialNumber sn)
  | SHook h => ATransport (hook_option h)
  | SUnknown => AOther
  end.

(** What a list of settings amounts to. *)
Definition conn_config (ss : list setting) : connConfig :=
  mkConnConfig (chosen None (fun s => if s is SConn c then Some c else None) ss)
    (chosen 5000000000 (fun s => if s is SDialTimeout d then Some d else None) ss)
    (chosen None (fun s => if s is SHexDump out then Some (Some out) else None) ss).
Definition client_config (ss : list setting) : Client :=
  mkClient (chosen NewNopLogger (fun s => if s is SLogger l then l else None) ss)
    (chosen 1000000000 (fun s => if s is SRetryDelay d then Some d else None) ss)
    (mkClientCfg (chosen 0 (fun s => if s is SRetries n then Some n else None) ss)
       (chosen DefaultCIPVendorID (fun s => if s is SCIPVendorID id then Some id else None) ss)
       (chosen DefaultCIPSerialNumber (fun s => if s is SCIPSerialNumber sn then Some sn else None) ss)).
Definition hooks_of (ss : list setting) : list (hook_setting H) :=
  omap (fun s => if s is SHook h then Some h else None) ss.

Lemma eip_route_settings ss :
  let '(co, ko, to) := route (option_of <$> ss) in
  new_config co = conn_config ss /\
  NewClient ko = client_config ss /\ to = hook_option <$> hooks_of ss.
Proof.
  rewrite route_spec. induction ss as [|s ss IH] using rev_ind; [done|]. destruct IH as (I1 & I2 & I3).
  unfold new_config, NewClient, conn_config, client_config, hooks_of in *.
  rewrite !fmap_app, !omap_app, !fmap_app, I3, !chosen_snoc. unfold ConnOption, ClientOption in *.
  rewrite !apply_all_app, I1, I2. by destruct s as [| | | | |[]| | | |]; cbn; rewrite ?app_nil_r.
Qed.

(** The session the options ask for. *)
Definition open_session (address : bytes) (ss : list setting) (w : W) : outcome C * W :=
  match dial_config (conn_config ss) address w with
  | (Ok tc, w) => register (k_logger (client_config ss)) tc w
  | (Err err, w) => (Err err, w)
  | (Panic, w) => (Panic, w)
  end.

(** both constructors of the EtherNet/IP client make the same client and the
    same sessions from a list of options: the last option for a field counts (a
    nil logger is passed over), callbacks are kept in order, other values are
    ignored.  Connect opens the session at once and runs the connect callbacks;
    NewReconnectingClient dials nothing and its first Conn opens the session. *)
Theorem eip_connect_options address ss w x :
  (forall c w' x', open_session address ss w = (Ok c, w') ->
     call_all (omap connect_fn (hooks_of ss)) x = Ok x' ->
     exists dt cfg, Connect address (option_of <$> ss) w x = (Ok (client_config ss, dt, cfg, x'), w') /\
       Direct_Conn dt = (Ok c, dt) /\ cfg_OnDisconnect cfg = omap disconnect_fn (hooks_of ss)) /\
  (forall err w', open_session address ss w = (Err err, w') ->
     Connect address (option_of <$> ss) w x = (Err (Wrapf "direct transport connect: %w" err), w')) /\
  (exists connector cfg,
     NewReconnectingClient address (option_of <$> ss) w =
       (client_config ss, mkReconn zero false w [], connector, cfg) /\
     Reconn_Peek zero (mkReconn zero false w []) = false /\
     (Reconn_Conn zero connector (mkReconn zero false w [])).1 = (open_session address ss w).1).
Proof.
  unfold Connect, NewReconnectingClient. pose proof (eip_route_settings ss) as R.
  destruct (route (option_of <$> ss)) as [[co ko] to]. destruct R as (R1 & R2 & ->).
  rewrite applyOptions_spec, R2.
  assert (forall w, SessionConnector_Connect address (k_logger (client_config ss)) co w =
    open_session address ss w) as E.
  { intros w0. unfold SessionConnector_Connect, open_session, NewTCPConn. by rewrite R1. }
  unfold NewDirectTransport. rewrite E. split_and!.
  - intros c w' x' -> Hx. cbn. unfold fireOnConnect. cbn. rewrite Hx. cbn. eexists _, _. by split_and!.
  - intros err w' ->. done.
  - eexists _, _. split; [reflexivity|]. unfold Reconn_Peek, Reconn_Conn, conn_fast, conn_slow. cbn.
    rewrite !bool_decide_false by tauto. split; [done|]. rewrite E.
    by destruct (open_session address ss w) as [[] ?].
Qed.
End Eip.
End EipOpts.

Lemma eip_connect_options_witness :
  exists dt cfg,
    EipOpts.Connect (Logger := nat) (NetConn := nat) (Writer := nat) 0%nat
      (fun address t w => (Ok (length address), (w + 1)%nat))
      (fun l tc w => (Ok (tc.1 + l)%nat, w)) (str "plc")
      (EipOpts.option_of <$>
         [EipOpts.SLogger (Some 4%nat); EipOpts.SRetries 2; EipOpts.SLogger None;
          EipOpts.SHook (SOnConnect (fun x => Ok (x ++ [1])))]) 0%nat [] =
      (Ok (EipOpts.mkClient 4%nat 1000000000 (EipClient.NewClient 2), dt, cfg, [1]), 1%nat) /\
    Direct_Conn dt = (Ok 13%nat, dt).
Proof.
  destruct (proj1 (EipOpts.eip_connect_options (Logger := nat) (NetConn := nat) (Writer := nat) 0%nat
    (fun address t w => (Ok (length address), (w + 1)%nat)) 0%nat
    (fun l tc w => (Ok (tc.1 + l)%nat, w)) (str "plc")
    [EipOpts.SLogger (Some 4%nat); EipOpts.SRetries 2; EipOpts.SLogger None;
     EipOpts.SHook (SOnConnect (fun x => Ok (x ++ [1])))] 0%nat []) 13%nat 1%nat [1])
    as (dt & cfg & H1 & H2 & _); [reflexivity|reflexivity|].
  exists dt, cfg. split; [exact H1|exact H2].
Defined.

(** ** Waiting for the connection

    The documentation of [monitor.WithConnected] and SKILL.md wire the monitor's
    gate to a connect callback that closes a channel; the state is whether the
    channel is closed. *)
Definition close_connected (closed : bool) : outcome bool := if closed then Panic else Ok true.
Definition documented_wiring : Config bool := applyOptions [WithOnConnect close_connected].

Definition connects {C} (hs : list (hook C)) : nat :=
  length (List.filter (fun h => if h is OnConnect _ then true else false) hs).

Lemma documented_wiring_fire {C} (hs : list (hook C)) : forall closed,
  fire_all documented_wiring hs closed =
    match connects hs, closed with
    | O, _ => Ok closed
    | S O, false => Ok true
    | _, _ => Panic
    end.
Proof.
  induction hs as [|[c|c err] hs IH]; intros closed; [done| |].
  - change (connects (OnConnect c :: hs)) with (S (connects hs)).
    change (fire_all documented_wiring (OnConnect c :: hs) closed) with
      (x ← (x ← close_connected closed; Ok x); fire_all documented_wiring hs x).
    destruct closed; cbn; [by destruct (connects hs)|]. rewrite IH. by destruct (connects hs) as [|[]].
  - change (connects (OnDisconnect c err :: hs)) with (connects hs). apply IH.
Qed.

(** a reconnecting transport wired as the documentation shows closes the
    channel once and panics the first time it reconnects, whatever is called on
    it in between. *)
Theorem documented_wiring_panics {C W} `{EqDecision C} (zero : C)
    (connector : W -> outcome C * W) (closer : C -> W -> option error * W) (w : W)
    (ts : list (@tcall C)) :
  let log := r_hooks (trun zero connector closer (NewReconnectingTransport zero w) ts) in
  (fire_all documented_wiring log false = Panic <-> (2 <= connects log)%nat) /\
  (connects log = 1%nat -> fire_all documented_wiring log false = Ok true).
Proof.
  cbv zeta. generalize (r_hooks (trun zero connector closer (NewReconnectingTransport zero w) ts)).
  intros log. rewrite documented_wiring_fire.
  destruct (connects log) as [|[|n]]; (split; [split|]); done || lia.
Qed.

Lemma documented_wiring_panics_witness :
  let r := trun 0 (fun w => (Ok w, w + 1)) (fun _ w => (None, w)) (NewReconnectingTransport 0 1)
             [TConnSlow; TReset 1; TConnSlow] in
  connects (r_hooks r) = 2%nat /\ r_conn r = 2 /\
  fire_all documented_wiring (r_hooks r) false = Panic.
Proof.
  split; [reflexivity|split; [reflexivity|]].
  apply (documented_wiring_panics 0 (fun w => (Ok w, w + 1)) (fun _ w => (None, w)) 1
           [TConnSlow; TReset 1; TConnSlow]). apply (bool_decide_unpack _). vm_compute. exact I.
Defined.

(** ** Server options *)
Module ServerOpts.
Section Modbus.
Context {Logger NetConn Listener Store Callback : Type}.
(** [Addr] of a listener when it is a [*net.TCPAddr]: port and IP. *)
Variable tcp_addr : Listener -> option (Z * bytes).
Variables (NewNopLogger : Logger) (NewMemoryStore : Store).

Record Server : Type := mkServer {
  address : bytes; port : Z; listener : option Listener; defaultStore : Store;
  logger : option Logger; onClientConnect : option Callback; onClientDisconnect : option Callback;
  maxClients : Z; injectedConn : option NetConn
}.
Definition ServerOption : Type := Server -> Server.
Definition WithServerPort (p : Z) : ServerOption := fun s =>
  mkServer (address s) p (listener s) (defaultStore s) (logger s) (onClientConnect s)
    (onClientDisconnect s) (maxClients s) (injectedConn s).
Definition WithServerLogger (l : option Logger) : ServerOption := fun s =>
  mkServer (address s) (port s) (listener s) (defaultStore s) l (onClientConnect s)
    (onClientDisconnect s) (maxClients s) (injectedConn s).
Definition WithServerDataStore (store : Store) : ServerOption := fun s =>
  mkServer (address s) (port s) (listener s) store (logger s) (onClientConnect s)
    (onClientDisconnect s) (maxClients s) (injectedConn s).
Definition WithServerListener (l : Listener) : ServerOption := fun s =>
  let '(p, a) := default (port s, address s) (tcp_addr l) in
  mkServer a p (Some l) (defaultStore s) (logger s) (onClientConnect s)
    (onClientDisconnect s) (maxClients s) (injectedConn s).
Definition WithServerConn (conn : option NetConn) : ServerOption := fun s =>
  mkServer (address s) (port s) (listener s) (defaultStore s) (logger s) (onClientConnect s)
    (onClientDisconnect s) (maxClients s) conn.
Definition WithMaxClients (max : Z) : ServerOption := fun s =>
  mkServer (address s) (port s) (listener s) (defaultStore s) (logger s) (onClientConnect s)
    (onClientDisconnect s) max (injectedConn s).
Definition WithOnClientConnect (fn : option Callback) : ServerOption := fun s =>
  mkServer (address s) (port s) (listener s) (defaultStore s) (logger s) fn
    (onClientDisconnect s) (maxClients s) (injectedConn s).
Definition WithOnClientDisconnect (fn : option Callback) : ServerOption := fun s =>
  mkServer (address s) (port s) (listener s) (defaultStore s) (logger s) (onClientConnect s)
    fn (maxClients s) (injectedConn s).
Definition NewServer (a : bytes) (options : list ServerOption) : Server :=
  apply_all options
    (mkServer a DefaultTCPPort None NewMemoryStore (Some NewNopLogger) None None 0 None).
Definition GetDataStore (s : Server) : Store := defaultStore s.

(** The listener part of [Start], with [listen] for [net.Listen]. *)
Definition start_listener (listen : bytes -> outcome Listener) (s : Server) : outcome Server :=
  l ← match listener s with
      | Some l => Ok l
      | None => listen (modbus_dial_address (address s) (port s))
      end;
  Ok (WithServerListener l s).

(** The server listens where its last listener option, or else its address and
    last port, say; and afterwards it reports the address it listens on. *)
Lemma start_listener_addr listen s s' :
  start_listener listen s = Ok s' ->
  exists l, listener s' = Some l /\
    match listener s with
    | Some l0 => l = l0
    | None => listen (modbus_dial_address (address s) (port s)) = Ok l
    end /\
    (forall p a, tcp_addr l = Some (p, a) -> port s' = p /\ address s' = a) /\
    defaultStore s' = defaultStore s /\ maxClients s' = maxClients s.
Proof.
  unfold start_listener, WithServerListener. intros H.
  destruct (listener s) as [l|] eqn:El; [|destruct (listen _) as [l| |] eqn:E; try done];
    cbn in H; destruct (tcp_addr l) as [[p a]|] eqn:Ea; injection H as <-; exists l; cbn;
    (split_and!; [done|done|intros ?? Ht; congruence || by simplify_eq|done|done]).
Qed.
End Modbus.
End ServerOpts.

Module EipServerOpts.
Section Eip.
Context {Logger NetConn Listener Callback : Type}.
Variable NewNopLogger : Logger.

Record Server : Type := mkServer {
  logger : option Logger; ln : option Listener; injectedConn : option NetConn;
  onClientConnect : option Callback; onClientDisconnect : option Callback;
  maxClients : Z; identity : ListIdentityItem
}.
Definition ServerOption : Type := Server -> Server.
Definition WithServerListener (l : option Listener) : ServerOption := fun s =>
  mkServer (logger s) l (injectedConn s) (onClientConnect s) (onClientDisconnect s) (maxClients s) (identity s).
Definition WithServerLogger (l : option Logger) : ServerOption := fun s =>
  mkServer l (ln s) (injectedConn s) (onClientConnect s) (onClientDisconnect s) (maxClients s) (identity s).
Definition WithServerConn (conn : option NetConn) : ServerOption := fun s =>
  mkServer (logger s) (ln s) conn (onClientConnect s) (onClientDisconnect s) (maxClients s) (identity s).
Definition WithIdentity (id : ListIdentityItem) : ServerOption := fun s =>
  mkServer (logger s) (ln s) (injectedConn s) (onClientConnect s) (onClientDisconnect s) (maxClients s) id.
Definition WithMaxClients (max : Z) : ServerOption := fun s =>
  mkServer (logger s) (ln s) (injectedConn s) (onClientConnect s) (onClientDisconnect s) max (identity s).
Definition WithOnClientConnect (fn : option Callback) : ServerOption := fun s =>
  mkServer (logger s) (ln s) (injectedConn s) fn (onClientDisconnect s) (maxClients s) (identity s).
Definition WithOnClientDisconnect (fn : option Callback) : ServerOption := fun s =>
  mkServer (logger s) (ln s) (injectedConn s) (onClientConnect s) fn (maxClients s) (identity s).
Definition default_identity : ListIdentityItem :=
  mkIdentity ItemIDListIdentity 0 1 (replicate 16 0) 0 0 0 [0; 0] 0 0 (str "GoIndustrial EIP Server") 0.
Definition NewServer (opts : list ServerOption) : Server :=
  apply_all opts (mkServer (Some NewNopLogger) None None None None 0 default_identity).
End Eip.
End EipServerOpts.

(** ** Options of the clustering reader (monitor/cluster.go) *)
Module ClusterOpts.
Definition ClusterOption : Type := ClusterConfig -> ClusterConfig.
Definition WithGapThreshold (gap : Z) : ClusterOption := fun c =>
  mkClusterConfig gap (MaxRegistersPerRead c) (MaxCoilsPerRead c) (CacheTTL c) (Enabled c).
Definition WithMaxRegistersPerRead (max : Z) : ClusterOption := fun c =>
  mkClusterConfig (GapThreshold c) max (MaxCoilsPerRead c) (CacheTTL c) (Enabled c).
Definition WithMaxCoilsPerRead (max : Z) : ClusterOption := fun c =>
  mkClusterConfig (GapThreshold c) (MaxRegistersPerRead c) max (CacheTTL c) (Enabled c).
Definition WithCacheTTL (ttl : Z) : ClusterOption := fun c =>
  mkClusterConfig (GapThreshold c) (MaxRegistersPerRead c) (MaxCoilsPerRead c) ttl (Enabled c).
Definition WithClusteringEnabled (enabled : bool) : ClusterOption := fun c =>
  mkClusterConfig (GapThreshold c) (MaxRegistersPerRead c) (MaxCoilsPerRead c) (CacheTTL c) enabled.
Definition reader_config (opts : list ClusterOption) : ClusterConfig := apply_all opts DefaultClusterConfig.

Inductive setting : Type :=
| SGap (gap : Z) | SMaxRegisters (max : Z) | SMaxCoils (max : Z) | STTL (ttl : Z) | SEnabled (b : bool).
Definition option_of (s : setting) : ClusterOption :=
  match s with
  | SGap gap => WithGapThreshold gap | SMaxRegisters max => WithMaxRegistersPerRead max
  | SMaxCoils max => WithMaxCoilsPerRead max | STTL ttl => WithCacheTTL ttl
  | SEnabled b => WithClusteringEnabled b
  end.
Definition within (s : setting) : Prop :=
  match s with
  | SMaxRegisters max => max <= MaxRegisterCount
  | SMaxCoils max => max <= MaxCoilCount
  | _ => True
  end.

(** The configuration that the transparency of clustering asks for is what the
    options give, as long as none raises a limit above that of the protocol. *)
Lemma cluster_options_ok ss : Forall within ss -> config_ok (reader_config (option_of <$> ss)).
Proof.
  unfold reader_config, ClusterOption. induction ss as [|s ss IH] using rev_ind; [done|].
  intros [H1 H2]%Forall_app. rewrite fmap_app, apply_all_app. specialize (IH H1) as [I1 I2].
  apply Forall_cons in H2 as [Hs _]. by destruct s.
Qed.
End ClusterOpts.

(** ** Options of the I/O scanner (ethernetip/io.go) *)
Module ScannerOpts.
Section Scanner.
Context {Logger : Type} (NewNopLogger : Logger).
Record config : Type := mkConfig { logger : option Logger; vendorID : Z; originatorSN : Z }.
Definition IOScannerOption : Type := config -> config.
Definition WithIOLogger (l : option Logger) : IOScannerOption := fun s =>
  mkConfig l (vendorID s) (originatorSN s).
Definition WithVendorID (id : Z) : IOScannerOption := fun s => mkConfig (logger s) id (originatorSN s).
Definition WithOriginatorSerial (sn : Z) : IOScannerOption := fun s =>
  mkConfig (logger s) (vendorID s) sn.
Definition scanner_config (opts : list IOScannerOption) : config :=
  apply_all opts (mkConfig (Some NewNopLogger) 1 1).
End Scanner.
End ScannerOpts.
