(* ===== verification/Logging.v ===== *)
(** * Logging

    Models [logging/logger.go], [logging/default.go] and [logging/noop.go]: the
    levels, the default logger with its options and fields, the lines it writes
    and its hex dump.  Text is a list of bytes.  A message is what [fmt.Sprintf]
    makes of its arguments; formatting a field value ([%v]) and quoting it ([%q])
    are parameters, as are the time stamp and the writers.  The fields are a Go
    map: they are written in some order of its entries, chosen anew for every
    line. *)
From S2P Require Import Prelude Bytes Pccc CipTags Hexdump Options.

(** ** logger.go *)
Definition LevelTrace : Z := 0.
Definition LevelDebug : Z := 1.
Definition LevelInfo : Z := 2.
Definition LevelWarn : Z := 3.
Definition LevelError : Z := 4.
Definition LevelNone : Z := 5.

Definition Level_String (l : Z) : bytes :=
  if l =? LevelTrace then str "TRACE" else if l =? LevelDebug then str "DEBUG"
  else if l =? LevelInfo then str "INFO" else if l =? LevelWarn then str "WARN"
  else if l =? LevelError then str "ERROR" else if l =? LevelNone then str "NONE"
  else str "UNKNOWN".

(** ** The lines of a hex dump *)
(** The columns of a line from the [j]-th on, [n] of them. *)
Fixpoint columns (n j : nat) (data : bytes) : bytes :=
  match n with
  | O => []
  | S n =>
      (if (j =? 8)%nat then str " |" else []) ++ [32] ++
      match data with [] => str "  " | b :: _ => hex_pad 2 b end ++ columns n (S j) (tail data)
  end.
(** The loop over the lines; [data] is what follows offset [i]. *)
Fixpoint rows (fuel : nat) (i : Z) (data : bytes) : bytes :=
  match fuel, data with
  | S fuel, _ :: _ => hex_pad 8 i ++ columns 16 0 data ++ [10] ++ rows fuel (i + 16) (drop 16 data)
  | _, _ => []
  end.
Definition hexdump_head (timestamp : bytes) : bytes :=
  str "[" ++ timestamp ++ str "] TRACE: HEXDUMP" ++ [10] ++
  str "offset   00 01 02 03 04 05 06 07 | 08 09 0a 0b 0c 0d 0e 0f" ++ [10].

(** Reading a hex dump back *)
Fixpoint read_row (n j : nat) (s : bytes) : bytes :=
  match n with
  | O => []
  | S n =>
      match drop 1 (if (j =? 8)%nat then drop 2 s else s) with
      | a :: b :: s => if a =? 32 then [] else (unhex a * 16 + unhex b) :: read_row n (S j) s
      | _ => []
      end
  end.
Fixpoint read_rows (fuel : nat) (s : bytes) : bytes :=
  match fuel, s with
  | S fuel, _ :: _ => read_row 16 0 (drop 8 s) ++ read_rows fuel (drop 59 s)
  | _, _ => []
  end.

Lemma columns_length n : forall j data, bytes_ok data ->
  length (columns n j data) = (3 * n + (if decide (j <= 8 < j + n) then 2 else 0))%nat.
Proof.
  induction n as [|n IH]; intros j data Hd; cbn [columns].
  { rewrite decide_False by lia. done. }
  rewrite !length_app, IH by (destruct data; [done|by apply Forall_cons in Hd as [_ ?]]).
  replace (length (match data with [] => str "  " | b :: _ => hex_pad 2 b end)) with 2%nat.
  2: { destruct data as [|b data]; [done|]. apply Forall_cons in Hd as [Hb _]. by rewrite hex_pad_byte. }
  destruct (Nat.eqb_spec j 8) as [->|Hj].
  - rewrite decide_False by lia. rewrite decide_True by lia. cbn [length str]. cbn. lia.
  - destruct (decide (S j <= 8 < S j + n)%nat).
    + rewrite decide_True by lia. cbn [length]. lia.
    + rewrite decide_False by lia. cbn [length]. lia.
Qed.

Lemma read_row_columns n : forall j data rest, bytes_ok data ->
  read_row n j (columns n j data ++ rest) = take n data.
Proof.
  induction n as [|n IH]; intros j data rest Hd; [done|]. cbn [columns read_row].
  assert (forall t, drop 1 (if (j =? 8)%nat
      then drop 2 (((if (j =? 8)%nat then str " |" else []) ++ [32] ++ t) ++ rest)
      else ((if (j =? 8)%nat then str " |" else []) ++ [32] ++ t) ++ rest) = t ++ rest) as ->.
  { intros t. by destruct (j =? 8)%nat. }
  destruct data as [|b data]; [done|]. apply Forall_cons in Hd as [Hb Hd]. rewrite hex_pad_byte by done.
  cbn [app tail take]. assert (0 <= b / 16 < 16 /\ 0 <= b mod 16 < 16) as [H1 H2] by (widths; dlia).
  destruct (unhex_hexdigit _ H1) as [E1 E2], (unhex_hexdigit _ H2) as [_ E3].
  rewrite (proj2 (Z.eqb_neq _ _) E1), E2, E3, IH by done. f_equal. widths. dlia.
Qed.

Lemma read_rows_rows fuel : forall fuel' i data,
  bytes_ok data -> 0 <= i -> (0 < len data -> i + len data <= 4294967296) -> (length data <= fuel)%nat ->
  (length data <= fuel')%nat -> read_rows fuel' (rows fuel i data) = data.
Proof.
  induction fuel as [|fuel IH]; intros fuel' i data Hd Hi Hlen Hf Hf'.
  { destruct data; [|cbn in Hf; lia]. by destruct fuel'. }
  destruct data as [|b data']; [by destruct fuel'|]. destruct fuel' as [|fuel']; [cbn in Hf'; lia|].
  cbn [rows]. set (data := b :: data') in *.
  assert (0 < len data) as Hpos by (unfold data; lens; pose proof (len_nonneg data'); lia).
  specialize (Hlen Hpos).
  assert (length (hex_pad 8 i) = 8%nat) as H8 by (unfold hex_pad; rewrite hex_go_length by lia; done).
  assert (length (columns 16 0 data) = 50%nat) as H50
    by (rewrite columns_length by done; by rewrite decide_True by lia).
  set (rest := rows fuel (i + 16) (drop 16 data)).
  assert (exists c s, hex_pad 8 i ++ columns 16 0 data ++ [10] ++ rest = c :: s) as (c & s & E).
  { destruct (hex_pad 8 i) as [|c s]; [done|]. eexists _, _. reflexivity. }
  cbn [read_rows]. rewrite E. cbv iota. rewrite <-E.
  rewrite (drop_app_length' (hex_pad 8 i)) by done.
  replace (drop 59 (hex_pad 8 i ++ columns 16 0 data ++ [10] ++ rest)) with rest.
  2: { rewrite !app_assoc. symmetry. apply drop_app_length'. rewrite !length_app, H8, H50. done. }
  rewrite read_row_columns by done. unfold rest. rewrite IH.
  - apply take_drop.
  - by apply Forall_drop.
  - lia.
  - unfold len in *. rewrite length_drop. lia.
  - rewrite length_drop. cbn in Hf. cbn. lia.
  - rewrite length_drop. cbn in Hf'. cbn. lia.
Qed.

(** ** default.go *)
Section Default.
Context {V Wr Out : Type} `{EqDecision Wr}.
Variables Stdout Stderr : Wr.
Variable write : Wr -> bytes -> Out -> option error * Out.
Variables (show : V -> bytes) (quote : bytes -> bytes) (show_error : error -> bytes).

Abbreviation fieldmap := (gmap bytes V).
Record DefaultLogger : Type := mkLogger { level : Z; writer : Wr; fields : fieldmap }.
Definition Option : Type := DefaultLogger -> DefaultLogger.
Definition WithLevel (lv : Z) : Option := fun l => mkLogger lv (writer l) (fields l).
Definition WithWriter (w : Wr) : Option := fun l => mkLogger (level l) w (fields l).
(** [maps.Copy]: the new fields win. *)
Definition WithLogFields (fs : fieldmap) : Option := fun l =>
  mkLogger (level l) (writer l) (fs ∪ fields l).
Definition NewDefaultLogger (options : list Option) : DefaultLogger :=
  apply_all options (mkLogger LevelInfo Stdout ∅).
Definition WithFields (l : DefaultLogger) (fs : fieldmap) : DefaultLogger :=
  NewDefaultLogger [WithLevel (level l); WithWriter (writer l); WithLogFields (fields l); WithLogFields fs].
Definition GetLevel (l : DefaultLogger) : Z := level l.
Definition SetLevel (lv : Z) (l : DefaultLogger) : DefaultLogger := mkLogger lv (writer l) (fields l).

(** [writeFields]: [order] is the order in which the loop visits the map. *)
Definition field_string (kv : bytes * V) : bytes := kv.1 ++ [61] ++ quote (show kv.2).
Fixpoint join (sep : bytes) (ss : list bytes) : bytes :=
  match ss with [] => [] | [s] => s | s :: ss => s ++ sep ++ join sep ss end.
Definition writeFields (l : DefaultLogger) (order : list (bytes * V)) (b : bytes) : bytes :=
  if bool_decide (size (fields l) = 0%nat) then b
  else b ++ [32] ++ join [32] (field_string <$> order).

Definition ends_with_newline (b : bytes) : bool := bool_decide (last b = Some 10).
(** The end of [log]: a failed write is reported on the standard error. *)
Definition deliver (w : Wr) (b : bytes) (o : Out) : Out :=
  match write w b o with
  | (Some err, o) =>
      if bool_decide (w <> Stderr)
      then (write Stderr (str "ERROR: Failed to write log entry: " ++ show_error err ++ [10]) o).2
      else o
  | (None, o) => o
  end.
Definition log (l : DefaultLogger) (timestamp : bytes) (order : list (bytes * V))
    (lv message : bytes) (o : Out) : Out :=
  let b := str "[" ++ timestamp ++ str "] " ++ lv ++ str ": " ++ message in
  let b := writeFields l order b in
  deliver (writer l) (if ends_with_newline b then b else b ++ [10]) o.

(** [Trace], [Debug], [Info], [Warn] and [Error] differ in the level and its name. *)
Definition log_at (lv : Z) (name : bytes) (l : DefaultLogger) (timestamp : bytes)
    (order : list (bytes * V)) (message : bytes) (o : Out) : Out :=
  if level l <=? lv then log l timestamp order name message o else o.
Definition Trace := log_at LevelTrace (str "TRACE").
Definition Debug := log_at LevelDebug (str "DEBUG").
Definition Info := log_at LevelInfo (str "INFO").
Definition Warn := log_at LevelWarn (str "WARN").
Definition Error := log_at LevelError (str "ERROR").

Definition hexdump_text (l : DefaultLogger) (timestamp : bytes) (order : list (bytes * V))
    (data : bytes) : bytes :=
  writeFields l order (hexdump_head timestamp ++ rows (length data) 0 data).
Definition Hexdump (l : DefaultLogger) (timestamp : bytes) (order : list (bytes * V))
    (data : bytes) (o : Out) : Out :=
  if LevelTrace <? level l then o
  else (write (writer l) (hexdump_text l timestamp order data) o).2.

(** ** Lines *)
Lemma join_in (s : bytes) ss : s ∈ ss -> exists a b, join [32] ss = a ++ s ++ b.
Proof.
  induction ss as [|t ss IH]; intros Hs; [set_solver|]. apply elem_of_cons in Hs as [->|Hs].
  - destruct ss as [|u ss]; [by exists [], []; rewrite app_nil_r|]. by exists [], ([32] ++ join [32] (u :: ss)).
  - destruct (IH Hs) as (a & b & E). destruct ss as [|u ss]; [set_solver|].
    exists (t ++ [32] ++ a), b. change (join [32] (t :: u :: ss)) with (t ++ [32] ++ join [32] (u :: ss)).
    by rewrite E, !app_assoc.
Qed.
Lemma join_snoc ss s : exists a, join [32] (ss ++ [s]) = a ++ s.
Proof.
  induction ss as [|t ss [a E]]; [by exists []|]. destruct ss as [|u ss]; cbn [app] in *.
  - exists (t ++ [32]). cbn. by rewrite <-app_assoc.
  - exists (t ++ [32] ++ a).
    change (join [32] (t :: u :: ss ++ [s])) with (t ++ [32] ++ join [32] (u :: ss ++ [s])).
    by rewrite E, !app_assoc.
Qed.
Lemma join_avoids c sep ss : c ∉ sep -> Forall (fun s => c ∉ s) ss -> c ∉ join sep ss.
Proof.
  intros Hc. induction 1 as [|s ss Hs _ IH]; cbn; [set_solver|]. destruct ss; [done|set_solver].
Qed.
Lemma no_newline_end b : 10 ∉ b -> ends_with_newline b = false.
Proof.
  intros H. unfold ends_with_newline. apply bool_decide_false. intros E.
  apply last_Some in E as [b' ->]. set_solver.
Qed.

(** What the logger relies on: quoted text is one line that ends with a quote. *)
Class Quoting : Prop := {
  quote_one_line s : 10 ∉ quote s;
  quote_closed s : last (quote s) = Some 34
}.
Context `{!Quoting}.

(** The fields, as they are appended to a line. *)
Definition fields_text (l : DefaultLogger) (order : list (bytes * V)) : bytes :=
  writeFields l order [].
Lemma writeFields_app l order b : writeFields l order b = b ++ fields_text l order.
Proof. unfold fields_text, writeFields. case_bool_decide; [by rewrite app_nil_r|done]. Qed.

Lemma fields_text_spec l order :
  order ≡ₚ map_to_list (fields l) -> (forall k v, fields l !! k = Some v -> 10 ∉ k) ->
  (10 ∉ fields_text l order) /\
  (forall k v, fields l !! k = Some v -> exists a b, fields_text l order = a ++ field_string (k, v) ++ b).
Proof.
  intros Ho Hk. unfold fields_text, writeFields. case_bool_decide as E.
  { split; [set_solver|]. intros k v Hkv. apply map_size_empty_iff in E. by rewrite E in Hkv. }
  split.
  - rewrite app_nil_l. apply not_elem_of_app. split; [set_solver|]. apply join_avoids; [set_solver|].
    apply Forall_fmap, Forall_forall. intros [k v] Hin. rewrite Ho in Hin.
    apply elem_of_map_to_list in Hin. unfold compose, field_string. cbn.
    rewrite not_elem_of_app, not_elem_of_cons. split_and!; [by eapply Hk|done|apply quote_one_line].
  - intros k v Hkv. destruct (join_in (field_string (k, v)) (field_string <$> order)) as (a & b & ->).
    { apply list_elem_of_fmap. exists (k, v). split; [done|]. rewrite Ho. by apply elem_of_map_to_list. }
    exists ([32] ++ a), b. by rewrite !app_assoc.
Qed.

(** a message below the logger's level is not written; any other is written
    as one line, with its time, the name of its level, the text and every field of
    the logger, whatever order the map of fields is visited in. *)
Theorem log_one_line l lv name ts order message o :
  10 ∉ ts -> 10 ∉ name -> 10 ∉ message ->
  (forall k v, fields l !! k = Some v -> 10 ∉ k) -> order ≡ₚ map_to_list (fields l) ->
  exists tail, (10 ∉ tail) /\
    (forall k v, fields l !! k = Some v -> exists a b, tail = a ++ field_string (k, v) ++ b) /\
    log_at lv name l ts order message o =
      if level l <=? lv
      then deliver (writer l) ((str "[" ++ ts ++ str "] " ++ name ++ str ": " ++ message ++ tail) ++ [10]) o
      else o.
Proof.
  intros Ht Hn Hm Hk Ho. destruct (fields_text_spec l order Ho Hk) as [H1 H2].
  exists (fields_text l order). split_and!; [done|done|]. unfold log_at. destruct (level l <=? lv); [|done].
  unfold log. rewrite writeFields_app, no_newline_end.
  - by rewrite <-!app_assoc.
  - rewrite !not_elem_of_app. split_and!; done || (apply (bool_decide_unpack _); vm_compute; exact I).
Qed.

(** A derived logger has the level and the writer of its parent, and its fields
    with the new ones in their place. *)
Theorem with_fields_spec l fs k :
  fields (WithFields l fs) !! k = match fs !! k with Some v => Some v | None => fields l !! k end /\
  level (WithFields l fs) = level l /\ writer (WithFields l fs) = writer l.
Proof.
  split_and!; [|done|done]. cbn. rewrite lookup_union, lookup_union, lookup_empty.
  destruct (fs !! k), (fields l !! k); done.
Qed.

(** the hex dump is written at trace level only; its lines give the data
    back; and a logger with fields appends them without ending the line. *)
Theorem hexdump_text_spec l ts order data o :
  bytes_ok data -> len data <= 4294967296 -> order ≡ₚ map_to_list (fields l) ->
  exists lines,
    Hexdump l ts order data o =
      (if LevelTrace <? level l then o
       else (write (writer l) (hexdump_head ts ++ lines ++ fields_text l order) o).2) /\
    read_rows (length data) lines = data /\
    (fields l <> ∅ -> last (hexdump_head ts ++ lines ++ fields_text l order) = Some 34).
Proof.
  intros Hd Hl Ho. exists (rows (length data) 0 data). split_and!.
  - unfold Hexdump, hexdump_text. by rewrite writeFields_app, <-app_assoc.
  - apply read_rows_rows; done || lia.
  - intros Hf. unfold fields_text, writeFields. rewrite bool_decide_false
      by (intros E; apply Hf; by apply map_size_empty_iff).
    destruct order as [|kv order' _] using rev_ind.
    { apply Permutation_nil in Ho. by apply map_to_list_empty_iff in Ho. }
    rewrite !app_assoc, fmap_app. cbn [fmap list_fmap].
    destruct (join_snoc (field_string <$> order') (field_string kv)) as [a ->].
    unfold field_string. rewrite !app_assoc. apply last_app_Some. left. apply quote_closed.
Qed.
End Default.

(** ** noop.go *)
Module NopLogger.
Section Nop.
Context {V Out : Type}.
Definition Trace (message : bytes) (o : Out) : Out := o.
Definition Debug (message : bytes) (o : Out) : Out := o.
Definition Info (message : bytes) (o : Out) : Out := o.
Definition Warn (message : bytes) (o : Out) : Out := o.
Definition Error (message : bytes) (o : Out) : Out := o.
Definition WithFields (fs : gmap bytes V) : unit := tt.
Definition GetLevel : Z := LevelNone.
Definition SetLevel (lv : Z) : unit := tt.
End Nop.
End NopLogger.

(** ** A concrete logger: text fields, quotes and control characters escaped *)
Definition demo_quote (s : bytes) : bytes :=
  [34] ++ flat_map (fun c => if (c =? 34) || (c =? 92) then [92; c] else if c =? 10 then [92; 110] else [c]) s ++ [34].
#[export] Instance demo_quoting : Quoting demo_quote.
Proof.
  split.
  - intros s. unfold demo_quote. rewrite !not_elem_of_app.
    split_and!; [by apply (bool_decide_unpack _)| |by apply (bool_decide_unpack _)].
    induction s as [|c s IH]; [by apply (bool_decide_unpack _)|]. cbn. rewrite not_elem_of_app. split; [|done].
    destruct (Z.eqb_spec c 34), (Z.eqb_spec c 92), (Z.eqb_spec c 10); subst; cbn; rewrite ?list_elem_of_singleton, ?elem_of_cons, ?elem_of_nil; naive_solver lia.
  - intros s. unfold demo_quote. rewrite app_assoc. apply last_snoc.
Qed.

Definition demo_write (w : nat) (b : bytes) (o : list (nat * bytes)) : option error * list (nat * bytes) :=
  (None, o ++ [(w, b)]).
Definition demo_fields : gmap bytes bytes := {[ str "unit" := str "7"; str "peer" := str "plc" ]}.
Definition demo_logger : DefaultLogger := mkLogger LevelInfo 1%nat demo_fields.

Lemma log_one_line_witness :
  exists tail, (10 ∉ tail) /\
    (forall k v, demo_fields !! k = Some v ->
       exists a b, tail = a ++ field_string (fun v => v) demo_quote (k, v) ++ b) /\
    log_at 2%nat demo_write (fun v => v) demo_quote (fun _ => []) LevelWarn (str "WARN") demo_logger
      (str "12:00") (map_to_list demo_fields) (str "slow") [] =
    [(1%nat, (str "[12:00] WARN: slow" ++ tail) ++ [10])].
Proof.
  destruct (log_one_line 2%nat demo_write (fun v => v) demo_quote (fun _ => []) demo_logger LevelWarn (str "WARN")
    (str "12:00") (map_to_list demo_fields) (str "slow") []) as (tail & H1 & H2 & H3);
    try (apply (bool_decide_unpack _); vm_compute; exact I).
  exists tail. split; [exact H1|split; [exact H2|]]. rewrite H3. reflexivity.
Defined.

Lemma hexdump_text_spec_witness :
  exists lines,
    Hexdump demo_write (fun v => v) demo_quote (SetLevel LevelTrace demo_logger) (str "12:00")
      (map_to_list demo_fields) [1; 2; 255] [] =
      [(1%nat, hexdump_head (str "12:00") ++ lines ++
               fields_text (fun v => v) demo_quote (SetLevel LevelTrace demo_logger) (map_to_list demo_fields))] /\
    read_rows 3 lines = [1; 2; 255].
Proof.
  destruct (hexdump_text_spec demo_write (fun v => v) demo_quote (SetLevel LevelTrace demo_logger) (str "12:00")
    (map_to_list demo_fields) [1; 2; 255] []) as (lines & H1 & H2 & _).
  - apply (bool_decide_unpack _). vm_compute. exact I.
  - apply (bool_decide_unpack _). vm_compute. exact I.
  - reflexivity.
  - exists lines. split; [exact H1|exact H2].
Defined.
