(* ===== verification/Displays.v ===== *)
(** * Names, messages and snapshots for the user

    Models the text the packages make for people: the names of PLC types and byte
    orders ([plc/plc.go]), encapsulation commands ([eip/commands.go]), PCCC status
    codes ([pccc/frame.go]), CIP errors and paths ([cip/types.go], [cip/path.go])
    and Modbus data points ([modbus/datapoint.go]); the snapshot and summary of
    connected clients ([modbus/server.go]) and the dump of the memory store
    ([modbus/datastore.go]).  Text is a list of bytes.  A Go map is visited in some
    order of its keys, which is a parameter, as is the sorting function. *)
From stdpp Require Import sorting.
From S2P Require Import Prelude Bytes ModbusTypes ModbusNames ModbusStore ModbusServer Plc ModbusClient.
From S2P Require Import EipCodec Pccc PcccClient CipTags CipTypes Logging.

Definition lookup_name (table : list (Z * bytes)) (code : Z) (otherwise : bytes) : bytes :=
  match List.find (fun e => e.1 =? code) table with Some e => e.2 | None => otherwise end.

(** ** plc.go *)
Definition plc_DataType_String (t : DataType) : bytes :=
  match t with
  | TypeUnknown => str "unknown" | TypeBool => str "bool" | TypeInt16 => str "int16"
  | TypeUint16 => str "uint16" | TypeInt32 => str "int32" | TypeUint32 => str "uint32"
  | TypeInt64 => str "int64" | TypeUint64 => str "uint64" | TypeFloat32 => str "float32"
  | TypeFloat64 => str "float64" | TypeString => str "string" | TypeBytes => str "bytes"
  end.
Definition ByteOrder_String (o : ByteOrder) : bytes :=
  match o with
  | ByteOrderBigEndian => str "big-endian" | ByteOrderLittleEndian => str "little-endian"
  | ByteOrderUnspecified => str "unspecified"
  end.

(** ** eip/commands.go *)
Definition CommandListInterfaces : Z := 0x0064.
Definition CommandIndicateStatus : Z := 0x0072.
Definition CommandCancel : Z := 0x0073.
Definition command_names : list (Z * bytes) :=
  [(Cmd.Nop, str "Nop"); (Cmd.ListServices, str "ListServices"); (Cmd.ListIdentity, str "ListIdentity");
   (CommandListInterfaces, str "ListInterfaces"); (Cmd.RegisterSession, str "RegisterSession");
   (Cmd.UnregisterSession, str "UnregisterSession"); (Cmd.SendRRData, str "SendRRData");
   (Cmd.SendUnitData, str "SendUnitData"); (CommandIndicateStatus, str "IndicateStatus");
   (CommandCancel, str "Cancel")].
Definition Command_String (c : Z) : bytes :=
  lookup_name command_names c (str "UnknownCommand(0x" ++ str (hex4 c) ++ str ")").

(** ** pccc/frame.go *)
Definition FileType_String (ft : Z) : bytes :=
  match Letter ft with
  | [] => str "FileType(0x" ++ str (hex02 ft) ++ str ")"
  | l => l ++ str "(0x" ++ str (hex02 ft) ++ str ")"
  end.
Definition localStatusMessages : list (Z * bytes) :=
  [(0x01, str "local: destination node out of buffer space");
   (0x02, str "local: cannot guarantee delivery (link layer)");
   (0x03, str "local: duplicate token holder detected");
   (0x04, str "local: local port disconnected");
   (0x05, str "local: application timed out waiting for response");
   (0x06, str "local: duplicate node detected");
   (0x07, str "local: station is offline");
   (0x08, str "local: hardware fault");
   (0x10, str "remote: illegal command or format");
   (0x20, str "remote: host has a problem and will not communicate");
   (0x30, str "remote: remote node host is missing, disconnected, or shut down");
   (0x40, str "remote: host could not complete function due to hardware fault");
   (0x50, str "remote: addressing problem or memory protect rungs");
   (0x60, str "remote: function not allowed due to command-protection selection");
   (0x70, str "remote: processor is in program mode");
   (0x80, str "remote: compatibility-mode file missing or communication-zone problem");
   (0x90, str "remote: remote node cannot buffer command");
   (0xA0, str "remote: wait ACK (1775-KA buffer full)");
   (0xB0, str "remote: remote node problem due to download");
   (0xC0, str "remote: wait ACK (1775-KA buffer full)")].
Definition extStatusMessages : list (Z * bytes) :=
  [(0x01, str "a field has an illegal value");
   (0x02, str "fewer levels specified in address than minimum");
   (0x03, str "more levels specified in address than system supports");
   (0x04, str "symbol not found");
   (0x05, str "symbol is of improper format");
   (0x06, str "address does not point to something usable");
   (0x07, str "file is wrong size");
   (0x08, str "cannot complete request; situation changed since command started");
   (0x09, str "data or file is too large");
   (0x0A, str "transaction size plus word address is too large");
   (0x0B, str "access denied, improper privilege");
   (0x0C, str "condition cannot be generated; resource is not available");
   (0x0D, str "condition already exists; resource is already available");
   (0x0E, str "command cannot be executed");
   (0x0F, str "histogram overflow");
   (0x10, str "no access");
   (0x11, str "illegal data type");
   (0x12, str "invalid parameter or invalid data");
   (0x13, str "address reference exists to deleted area");
   (0x14, str "command execution failure for unknown reason");
   (0x15, str "data conversion error");
   (0x16, str "scanner not able to communicate with 1771 rack adapter");
   (0x17, str "type mismatch");
   (0x18, str "1771 module response was not valid");
   (0x19, str "duplicated label");
   (0x1A, str "file is open; another node owns it");
   (0x1B, str "another node is the program owner");
   (0x1E, str "data table element protection violation");
   (0x1F, str "temporary internal problem")].
Definition StatusMessage (sts extSTS : Z) : bytes :=
  if sts =? 0 then str "success"
  else if sts =? StatusUseExtSTS
  then lookup_name extStatusMessages extSTS (str "extended status 0x" ++ str (hex02 extSTS))
  else lookup_name localStatusMessages sts (str "status 0x" ++ str (hex02 sts)).
Definition pccc_Error_Error (sts extSTS : Z) : bytes :=
  if sts =? StatusUseExtSTS
  then str "pccc: STS=0x" ++ str (hex02 sts) ++ str " EXT_STS=0x" ++ str (hex02 extSTS) ++ str " (" ++
       StatusMessage sts extSTS ++ str ")"
  else str "pccc: STS=0x" ++ str (hex02 sts) ++ str " (" ++ StatusMessage sts extSTS ++ str ")".

(** ** cip/types.go and cip/path.go: [%04X] of a list of words and [%X] of bytes *)
Definition cip_Error_Error (status : Z) (extStatus : list Z) : bytes :=
  match extStatus with
  | [] => str "CIP Error: Status=0x" ++ str (hex02 status)
  | _ => str "CIP Error: Status=0x" ++ str (hex02 status) ++ str " ExtStatus=[" ++
         join [32] ((fun w => str (hex4 w)) <$> extStatus) ++ str "]"
  end.
Definition Path_String (p : bytes) : bytes := flat_map (fun b => str (hex02 b)) p.

(** ** modbus/datapoint.go *)
Definition point_text (kind : bytes) (addr qty : Z) : bytes :=
  kind ++ str "(addr=" ++ itoa addr ++ str ", qty=" ++ itoa qty ++ str ")".
Definition DataPoint_String (p : DataPoint) : bytes :=
  match p with
  | HoldingRegister a q => point_text (str "HoldingRegister") a q
  | InputRegister a q => point_text (str "InputRegister") a q
  | Coil a q => point_text (str "Coil") a q
  | DiscreteInput a q => point_text (str "DiscreteInput") a q
  | OtherPoint name => str name
  end.

(** ** Connected clients (modbus/server.go) *)
Record ConnectedClient : Type := mkConnected {
  RemoteAddr : bytes; ConnectedAt : Z; RxTransactions : Z; TxTransactions : Z;
  FunctionCodeStats : gmap Z Z
}.
Definition snapshot_client (addr : bytes) (at_ : Z) (c : clientConn) : ConnectedClient :=
  mkConnected addr at_ (rxCount c) (txCount c) (fcSnapshot c).
(** [ConnectedClients]: the table of clients visited in the order [order]. *)
Definition ConnectedClients (order : list (bytes * Z * clientConn)) : list ConnectedClient :=
  (fun e => snapshot_client e.1.1 e.1.2 e.2) <$> order.

Section Summary.
(** [sort.Slice] with [<], and the text of [time.Since], truncated. *)
Variable sort : list Z -> list Z.
Variable duration : Z -> bytes.
Definition stat_text (stats : gmap Z Z) (fc : Z) : bytes :=
  str (FunctionCode_String fc) ++ str "=" ++ itoa (default 0 (stats !! fc)).
Definition ConnectedClient_String (order : list Z) (c : ConnectedClient) : bytes :=
  let s := RemoteAddr c ++ str " | connected " ++ duration (ConnectedAt c) ++ str " | rx: " ++
    itoa (RxTransactions c) ++ str " tx: " ++ itoa (TxTransactions c) in
  if bool_decide (size (FunctionCodeStats c) = 0%nat) then s
  else s ++ str " | fc: " ++ join [32] (stat_text (FunctionCodeStats c) <$> sort order).
End Summary.

(** ** The dump of the memory store (modbus/datastore.go) *)
Definition bit_line (e : Z * bool) : bytes :=
  str "  " ++ itoa e.1 ++ str ": " ++ (if e.2 then str "true" else str "false") ++ [10].
Definition register_line (e : Z * Z) : bytes :=
  str "  " ++ itoa e.1 ++ str ": " ++ itoa e.2 ++ str " (0x" ++ str (hex4 e.2) ++ str ")" ++ [10].
Definition dump_area {A} (title : bytes) (line : Z * A -> bytes) (order : list (Z * A)) : bytes :=
  match order with [] => [] | _ => title ++ [10] ++ flat_map line order end.
Definition DumpRegisters (oc od : list (Z * bool)) (oh oi : list (Z * Z)) : bytes :=
  str "Memory Store Content:" ++ [10] ++ dump_area (str "Coils:") bit_line oc ++
  dump_area (str "Discrete Inputs:") bit_line od ++
  dump_area (str "Holding Registers:") register_line oh ++
  dump_area (str "Input Registers:") register_line oi.

(** ** Theorems *)

(** Digits end where something else begins. *)
Lemma digits_cut l1 l2 r1 r2 c :
  Forall (fun b => isDigit b = true) l1 -> Forall (fun b => isDigit b = true) l2 -> isDigit c = false ->
  l1 ++ c :: r1 = l2 ++ c :: r2 -> l1 = l2 /\ r1 = r2.
Proof.
  intros H1. revert l2. induction H1 as [|b l1 Hb _ IH]; intros l2 H2 Hc E.
  - destruct H2 as [|b l2 Hb _]; cbn in E; [by simplify_eq|]. simplify_eq. congruence.
  - destruct H2 as [|b' l2 Hb' H2]; cbn in E; [simplify_eq; congruence|]. simplify_eq.
    destruct (IH l2 H2 Hc) as [-> ->]; done.
Qed.
Lemma itoa_inj m n : is_u32 m -> is_u32 n -> itoa m = itoa n -> m = n.
Proof.
  intros Hm Hn E. destruct (itoa_u32 m Hm) as [_ <-], (itoa_u32 n Hn) as [_ <-]. by rewrite E.
Qed.
Lemma point_text_inj kind a q a' q' :
  is_u16 a -> is_u16 q -> is_u16 a' -> is_u16 q' ->
  point_text kind a q = point_text kind a' q' -> a = a' /\ q = q'.
Proof.
  intros Ha Hq Ha' Hq'. assert (forall z, is_u16 z -> is_u32 z) as Hw by (intros; widths; lia).
  assert (forall z, is_u16 z -> Forall (fun b => isDigit b = true) (itoa z)) as Hd.
  { intros z Hz%Hw. apply digits_plain, (itoa_u32 z Hz). }
  unfold point_text. intros E%(inj (kind ++.))%(inj (str "(addr=" ++.)).
  apply (digits_cut _ _ _ _ 44) in E as [E1 E]; [|by apply Hd|by apply Hd|done].
  apply (inj (str " qty=" ++.)) in E. apply (digits_cut _ _ _ _ 41) in E as [E2 _]; [|by apply Hd|by apply Hd|done].
  split; apply itoa_inj; auto.
Qed.

Definition modbus_point (p : DataPoint) : Prop :=
  match p with
  | HoldingRegister a q | InputRegister a q | Coil a q | DiscreteInput a q => is_u16 a /\ is_u16 q
  | OtherPoint _ => False
  end.

(** Two Modbus points with the same name are the same point. *)
Theorem point_names_unique p p' :
  modbus_point p -> modbus_point p' -> DataPoint_String p = DataPoint_String p' -> p = p'.
Proof.
  intros Hp Hp' E. destruct p, p'; try done; destruct Hp, Hp'; cbn [DataPoint_String] in E; try discriminate E;
    apply point_text_inj in E as [-> ->]; done.
Qed.
(** The summary of a client does not depend on the order in which the map of its
    counters is visited, nor on how the codes are sorted. *)
Theorem summary_stable sort1 sort2 duration order1 order2 c :
  (forall l, sort1 l ≡ₚ l /\ StronglySorted Z.le (sort1 l)) ->
  (forall l, sort2 l ≡ₚ l /\ StronglySorted Z.le (sort2 l)) ->
  order1 ≡ₚ (map_to_list (FunctionCodeStats c)).*1 -> order2 ≡ₚ (map_to_list (FunctionCodeStats c)).*1 ->
  ConnectedClient_String sort1 duration order1 c = ConnectedClient_String sort2 duration order2 c.
Proof.
  intros H1 H2 O1 O2. unfold ConnectedClient_String. case_bool_decide; [done|].
  destruct (H1 order1) as [P1 S1], (H2 order2) as [P2 S2].
  assert (sort1 order1 = sort2 order2) as ->; [|done].
  apply (StronglySorted_unique Z.le); [done|done|]. by rewrite P1, P2, O1, O2.
Qed.
Lemma summary_stable_witness :
  let c := mkConnected (str "plc:1") 0 3 3 {[ 3 := 2; 6 := 1 ]} in
  ConnectedClient_String (merge_sort Z.le) (fun _ => str "5s") [3; 6] c =
  ConnectedClient_String (merge_sort Z.le) (fun _ => str "5s") [6; 3] c.
Proof.
  intros c. apply summary_stable; try (intros l; split; [apply merge_sort_Permutation|apply StronglySorted_merge_sort; apply _]).
  - reflexivity.
  - change (map_to_list (FunctionCodeStats c)).*1 with [3; 6]. apply Permutation_swap.
Defined.

(** Every cell of the store is in the dump. *)
Lemma dump_area_in {A} (m : gmap Z A) title line order k v :
  order ≡ₚ map_to_list m -> m !! k = Some v ->
  exists a b, dump_area title line order = a ++ line (k, v) ++ b.
Proof.
  intros Ho Hk. assert ((k, v) ∈ order) as Hin by (rewrite Ho; by apply elem_of_map_to_list).
  destruct order as [|e order]; [set_solver|]. unfold dump_area.
  apply list_elem_of_split in Hin as (l1 & l2 & ->). rewrite flat_map_app. cbn [flat_map].
  exists (title ++ [10] ++ flat_map line l1), (flat_map line l2). by rewrite !app_assoc.
Qed.

Theorem dump_complete (s : MemoryStore) oc od oh oi :
  oc ≡ₚ map_to_list (coils s) -> od ≡ₚ map_to_list (discreteInputs s) ->
  oh ≡ₚ map_to_list (holdingRegisters s) -> oi ≡ₚ map_to_list (inputRegisters s) ->
  (forall k v, coils s !! k = Some v -> exists a b, DumpRegisters oc od oh oi = a ++ bit_line (k, v) ++ b) /\
  (forall k v, holdingRegisters s !! k = Some v ->
     exists a b, DumpRegisters oc od oh oi = a ++ register_line (k, v) ++ b).
Proof.
  intros Hc Hd Hh Hi. unfold DumpRegisters. split; intros k v Hk.
  - destruct (dump_area_in _ (str "Coils:") bit_line _ k v Hc Hk) as (a & b & ->).
    eexists (str "Memory Store Content:" ++ [10] ++ a), _. by rewrite <-!app_assoc.
  - destruct (dump_area_in _ (str "Holding Registers:") register_line _ k v Hh Hk) as (a & b & ->).
    eexists (str "Memory Store Content:" ++ [10] ++ dump_area (str "Coils:") bit_line oc ++
             dump_area (str "Discrete Inputs:") bit_line od ++ a), _. by rewrite <-!app_assoc.
Qed.
