(* ===== verification/Console.v ===== *)
(** * Command-line programs

    The example programs of the repository print to a terminal, end with
    [os.Exit], [log.Fatalf] or a return of [main], and call a client in between.
    This file is what they share: what is printed, as the calls of [fmt] and [log]
    with their format strings and arguments, the ways a program ends, a total
    correctness predicate with its rules, and what the programs use of [strings]
    and [strconv]. *)
From S2P Require Import Prelude Bytes Pccc.

#[local] Set Warnings "-register-all".

(** ** Output *)
Inductive stream : Type := Stdout | Stderr | Logger.
(** An argument of a format; [AHex] are bytes printed as such, [AFloat] a float of
    the given width by its bits, [AList] a slice. *)
Inductive arg : Type :=
| AInt (z : Z) | ABool (b : bool) | AStr (s : bytes) | AHex (b : bytes) | AErr (e : error)
| AFloat (width bits : Z) | AList (l : list arg)
| AFmt (format : string) (args : list arg).   (** a string made by [fmt.Sprintf] *)
Inductive line : Type :=
| Printed (to : stream) (format : string) (args : list arg)
| Printedln (to : stream) (text : string).

Definition AText (s : string) : arg := AStr (str s).

(** ** Programs

    A program over a state [S] returns, exits with a status, crashes (a Go panic),
    or is still in a call that has not come back within its fuel. *)
Inductive ending (A : Type) : Type := Returned (a : A) | Exited (code : Z) | Crashed | Waiting.
Arguments Returned {A} a.
Arguments Exited {A} code.
Arguments Crashed {A}.
Arguments Waiting {A}.

Definition Prog (S A : Type) : Type := S -> ending A * S * list line.

#[export] Instance Prog_ret {S} : MRet (Prog S) := fun _ a s => (Returned a, s, []).
#[export] Instance Prog_bind {S} : MBind (Prog S) := fun _ _ f m s =>
  match m s with
  | (Returned a, s, out) => let '(r, s, out') := f a s in (r, s, out ++ out')
  | (Exited c, s, out) => (Exited c, s, out)
  | (Crashed, s, out) => (Crashed, s, out)
  | (Waiting, s, out) => (Waiting, s, out)
  end.

Section Actions.
Context {S : Type}.

Definition emit (l : line) : Prog S unit := fun s => (Returned tt, s, [l]).
Definition printf (fmt : string) (args : list arg) : Prog S unit := emit (Printed Stdout fmt args).
Definition println (text : string) : Prog S unit := emit (Printedln Stdout text).
Definition eprintf (fmt : string) (args : list arg) : Prog S unit := emit (Printed Stderr fmt args).
Definition eprintln (text : string) : Prog S unit := emit (Printedln Stderr text).
Definition logf (fmt : string) (args : list arg) : Prog S unit := emit (Printed Logger fmt args).
Definition exit {A} (code : Z) : Prog S A := fun s => (Exited code, s, []).
(** [log.Fatalf]. *)
Definition fatalf {A} (fmt : string) (args : list arg) : Prog S A :=
  _ ← emit (Printed Stderr fmt args); exit 1.

(** [x, err := f(...)]: errors are values of the program, a panic is not. *)
Definition call {A} (m : SM S A) : Prog S (error + A) := fun s =>
  match m s with
  | (Ok a, s) => (Returned (inr a), s, [])
  | (Err e, s) => (Returned (inl e), s, [])
  | (Panic, s) => (Crashed, s, [])
  end.
(** An expression that can only panic, such as an index. *)
Definition eval {A} (m : outcome A) : Prog S A := fun s =>
  match m with Ok a => (Returned a, s, []) | _ => (Crashed, s, []) end.
(** [defer]: runs when the function returns or panics, not after [os.Exit]. *)
Definition deferred {A} (d : S -> S) (m : Prog S A) : Prog S A := fun s =>
  match m s with
  | (Returned a, s, out) => (Returned a, d s, out)
  | (Crashed, s, out) => (Crashed, d s, out)
  | r => r
  end.
(** A loop over a slice, with the index. *)
Fixpoint each {A} (i : Z) (f : Z -> A -> Prog S unit) (l : list A) : Prog S unit :=
  match l with
  | [] => mret tt
  | x :: l => _ ← f i x; each (i + 1) f l
  end.

(** ** Total correctness: the program returns, and [Q] holds of the value, the
    state and what was printed *)
Definition wp {A} (m : Prog S A) (s : S) (Q : A -> S -> list line -> Prop) : Prop :=
  match m s with (Returned a, s', out) => Q a s' out | _ => False end.

Lemma wp_conseq {A} (m : Prog S A) s (Q Q' : A -> S -> list line -> Prop) :
  wp m s Q -> (forall a s' out, Q a s' out -> Q' a s' out) -> wp m s Q'.
Proof. unfold wp. destruct (m s) as [[[] ?] ?]; naive_solver. Qed.
Lemma wp_ret {A} (a : A) s Q : Q a s [] -> wp (mret a) s Q.
Proof. done. Qed.
Lemma wp_bind {A B} (m : Prog S A) (f : A -> Prog S B) s Q :
  wp m s (fun a s' out => wp (f a) s' (fun b s'' out' => Q b s'' (out ++ out'))) -> wp (m ≫= f) s Q.
Proof.
  unfold wp, mbind, Prog_bind. destruct (m s) as [[[a|c| |] s'] out]; try done.
  destruct (f a s') as [[[] ?] ?]; done.
Qed.
Lemma wp_emit l s Q : Q tt s [l] -> wp (emit l) s Q.
Proof. done. Qed.
Lemma wp_call {A} (m : SM S A) s a s' Q : m s = (Ok a, s') -> Q (inr a) s' [] -> wp (call m) s Q.
Proof. intros E. unfold wp, call. by rewrite E. Qed.
Lemma wp_eval {A} (m : outcome A) a s Q : m = Ok a -> Q a s [] -> wp (eval m) s Q.
Proof. intros ->. done. Qed.
Lemma wp_deferred {A} d (m : Prog S A) s Q :
  wp m s (fun a s' out => Q a (d s') out) -> wp (deferred d m) s Q.
Proof. unfold wp, deferred. destruct (m s) as [[[] ?] ?]; done. Qed.

(** A loop that prints one line per element. *)
Lemma wp_each_emit {A} (f : Z -> A -> line) (l : list A) : forall i s Q,
  Q tt s (imap (fun k x => f (i + Z.of_nat k) x) l) -> wp (each i (fun i x => emit (f i x)) l) s Q.
Proof.
  induction l as [|x l IH]; intros i s Q H; [done|]. cbn [each]. apply wp_bind, wp_emit.
  apply IH. cbn [app imap] in H |- *. rewrite Z.add_0_r in H. revert H.
  match goal with |- Q _ _ (_ :: ?a) -> Q _ _ (_ :: ?b) => replace b with a; [done|] end.
  apply imap_ext. intros k y _. cbn. f_equal. lia.
Qed.

(** A loop whose body only prints. *)
Lemma wp_each_quiet {A} (f : Z -> A -> Prog S unit) (l : list A) s :
  (forall i x, wp (f i x) s (fun _ s' _ => s' = s)) ->
  forall i, wp (each i f l) s (fun _ s' _ => s' = s).
Proof.
  intros Hf. induction l as [|x l IH]; intros i; [done|]. cbn [each]. apply wp_bind.
  eapply wp_conseq; [apply Hf|]. intros [] s' out ->. apply IH.
Qed.

(** A program that only prints: it returns, and leaves the state alone. *)
Definition quiet (m : Prog S unit) : Prop := forall s, wp m s (fun _ s' _ => s' = s).
Lemma quiet_emit l : quiet (emit l).
Proof. done. Qed.
Lemma quiet_ret : quiet (mret tt).
Proof. done. Qed.
Lemma quiet_bind (m : Prog S unit) (f : unit -> Prog S unit) : quiet m -> (forall u, quiet (f u)) -> quiet (m ≫= f).
Proof. intros Hm Hf s. apply wp_bind. eapply wp_conseq; [apply Hm|]. intros u s' out ->. apply Hf. Qed.
Lemma quiet_if (b : bool) m1 m2 : quiet m1 -> quiet m2 -> quiet (if b then m1 else m2).
Proof. by destruct b. Qed.
Lemma quiet_each {A} (f : Z -> A -> Prog S unit) (l : list A) : (forall i x, quiet (f i x)) ->
  forall i, quiet (each i f l).
Proof. intros Hf. induction l as [|x l IH]; intros i; [apply quiet_ret|]. by apply quiet_bind. Qed.

(** ** Partial statements: what any run prints *)
Definition output {A} (m : Prog S A) (s : S) : list line := (m s).2.
Definition state_after {A} (m : Prog S A) (s : S) : S := (m s).1.2.
Definition ending_of {A} (m : Prog S A) (s : S) : ending A := (m s).1.1.

Lemma wp_output {A} (m : Prog S A) s (Q : A -> Prop) (R : list line -> Prop) :
  wp m s (fun a _ out => Q a /\ R out) -> (exists a, Q a) /\ R (output m s).
Proof. unfold wp, output. destruct (m s) as [[[] ?] ?]; naive_solver. Qed.

(** Where a printed line comes from. *)
Lemma output_bind {A B} l (m : Prog S A) (f : A -> Prog S B) s : l ∈ output (m ≫= f) s ->
  l ∈ output m s \/ exists a s' out, m s = (Returned a, s', out) /\ l ∈ output (f a) s'.
Proof.
  unfold output, mbind, Prog_bind. destruct (m s) as [[[a|c| |] s'] out]; cbn; try by left.
  destruct (f a s') as [[r s''] out'] eqn:E. cbn. intros [?|?]%elem_of_app; [by left|].
  right. exists a, s', out. by rewrite E.
Qed.
Lemma wp_said (m : Prog S unit) s : quiet m -> wp m s (fun _ s' out => s' = s /\ out = output m s).
Proof. intros Hm. specialize (Hm s). revert Hm. unfold wp, output. by destruct (m s) as [[[] ?] ?]. Qed.
Lemma output_emit l l' s : l ∈ output (emit l') s -> l = l'.
Proof. apply list_elem_of_singleton. Qed.
Lemma output_call {A} l (m : SM S A) s : l ∉ output (call m) s.
Proof. unfold output, call. destruct (m s) as [[] ?]; apply not_elem_of_nil. Qed.
Lemma output_eval {A} l (m : outcome A) s : l ∉ output (eval m) s.
Proof. unfold output, eval. destruct m; apply not_elem_of_nil. Qed.
Lemma output_ret {A} l (a : A) s : l ∉ output (mret a) s.
Proof. apply not_elem_of_nil. Qed.
Lemma output_each {A} l (f : Z -> A -> Prog S unit) xs : forall i s,
  l ∈ output (each i f xs) s -> exists i x s', l ∈ output (f i x) s'.
Proof.
  induction xs as [|x xs IH]; intros i s Hl; [by apply output_ret in Hl|].
  apply output_bind in Hl as [Hl|(a & s' & out & _ & Hl)]; [by eauto|by eapply IH].
Qed.
Lemma call_returned {A} (m : SM S A) s r s' out : call m s = (Returned r, s', out) ->
  match r with inr a => m s = (Ok a, s') | inl e => m s = (Err e, s') end.
Proof. unfold call. destruct (m s) as [[] ?]; intros E; simplify_eq; done. Qed.
Lemma call_same {A} (m : SM S A) s r s' out : call m s = (Returned r, s', out) -> s' = (m s).2.
Proof. unfold call. destruct (m s) as [[] ?]; intros E; by simplify_eq. Qed.
Lemma emit_returned l (s : S) r s' out : emit l s = (Returned r, s', out) -> s' = s.
Proof. unfold emit. congruence. Qed.
End Actions.

(** Which statement of a program printed the line of [H]: prints of other lines,
    calls and expressions are ruled out. *)
Ltac not_printed H :=
  solve [ apply output_emit in H; discriminate H | by apply output_call in H | by apply output_eval in H
        | by apply output_ret in H ].
Ltac next_statement H :=
  apply output_bind in H as [H|(? & ? & ? & ? & H)]; [not_printed H|].

(** Symbolic execution of prints. *)
Ltac wp_print := repeat (apply wp_bind, wp_emit).
#[export] Hint Resolve wp_ret : go.
Create HintDb quiet.
#[export] Hint Resolve quiet_emit quiet_ret quiet_bind quiet_if quiet_each : quiet.
#[export] Hint Unfold printf println eprintf eprintln logf : quiet.

(** ** Strings

    [strings.TrimSpace]: the number of bytes of a leading white space rune of a
    text, and of a trailing one of the reversed text. *)
Definition space_rune (s : bytes) : nat :=
  match s with
  | 194 :: b :: _ => if (b =? 0x85) || (b =? 0xA0) then 2 else 0
  | 225 :: 154 :: 128 :: _ => 3
  | 226 :: 128 :: b :: _ =>
      if ((0x80 <=? b) && (b <=? 0x8A)) || (b =? 0xA8) || (b =? 0xA9) || (b =? 0xAF) then 3 else 0
  | 226 :: 129 :: 159 :: _ => 3
  | 227 :: 128 :: 128 :: _ => 3
  | b :: _ => if is_space b then 1 else 0
  | [] => 0
  end.
Definition space_rune_rev (s : bytes) : nat :=
  match s with
  | b :: 194 :: _ => if (b =? 0x85) || (b =? 0xA0) then 2 else if is_space b then 1 else 0
  | 128 :: 154 :: 225 :: _ => 3
  | b :: 128 :: 226 :: _ =>
      if ((0x80 <=? b) && (b <=? 0x8A)) || (b =? 0xA8) || (b =? 0xA9) || (b =? 0xAF) then 3
      else if is_space b then 1 else 0
  | 159 :: 129 :: 226 :: _ => 3
  | 128 :: 128 :: 227 :: _ => 3
  | b :: _ => if is_space b then 1 else 0
  | [] => 0
  end.
Fixpoint trim_by (f : bytes -> nat) (fuel : nat) (s : bytes) : bytes :=
  match fuel with
  | O => s
  | S fuel => match f s with O => s | n => trim_by f fuel (drop n s) end
  end.
Definition TrimSpace (s : bytes) : bytes :=
  let s := trim_by space_rune (length s) s in
  reverse (trim_by space_rune_rev (length s) (reverse s)).

(** [strings.ToLower], as far as a comparison with the words below can tell: no
    other rune has one of their letters as its lower case. *)
Definition lower (b : Z) : Z := if (65 <=? b) && (b <=? 90) then b + 32 else b.
Definition ToLower (s : bytes) : bytes := map lower s.

(** [strings.Split] at a one-byte separator: never empty. *)
Fixpoint Split (sep : Z) (s : bytes) : list bytes :=
  match s with
  | [] => [[]]
  | b :: s =>
      if b =? sep then [] :: Split sep s
      else match Split sep s with
           | part :: parts => (b :: part) :: parts
           | [] => [[b]]
           end
  end.

(** ** Numbers (strconv)

    [ParseUint] and [ParseInt] in base 10 for a width: syntax and range. *)
Definition ErrSyntax : error := Sentinel "invalid syntax".
Definition ErrRange : error := Sentinel "value out of range".
Definition ParseUint (width : Z) (s : bytes) : outcome Z :=
  if negb (isAllDigits s) then Err ErrSyntax else
  if digits_value s <? 2 ^ width then Ok (digits_value s) else Err ErrRange.
Definition ParseInt (width : Z) (s : bytes) : outcome Z :=
  let '(neg, ds) :=
    match s with
    | b :: rest => if b =? 45 then (true, rest) else if b =? 43 then (false, rest) else (false, s)
    | [] => (false, [])
    end in
  if negb (isAllDigits ds) then Err ErrSyntax else
  let n := digits_value ds in
  if neg : bool then (if n <=? 2 ^ (width - 1) then Ok (- n) else Err ErrRange)
  else if n <? 2 ^ (width - 1) then Ok n else Err ErrRange.
Definition ParseBool (s : bytes) : outcome bool :=
  if existsb (fun w => bool_decide (s = str w)) ["1"; "t"; "T"; "TRUE"; "true"; "True"]%string then Ok true
  else if existsb (fun w => bool_decide (s = str w)) ["0"; "f"; "F"; "FALSE"; "false"; "False"]%string
  then Ok false
  else Err ErrSyntax.

(** ** Lemmas: decimal numbers of any size up to 20 digits *)
Lemma digits_value_acc ds acc :
  fold_left (fun acc b => acc * 10 + (b - 48)) ds acc = acc * 10 ^ len ds + digits_value ds.
Proof.
  unfold digits_value. revert acc. induction ds as [|d ds IH]; intros acc.
  - change (len (@nil Z)) with 0. cbn. lia.
  - cbn [fold_left]. rewrite (IH (acc * 10 + (d - 48))), (IH (0 * 10 + (d - 48))).
    replace (len (d :: ds)) with (Z.succ (len ds)) by (unfold len; cbn; lia).
    rewrite Z.pow_succ_r by (unfold len; lia). lia.
Qed.
Lemma all_digits ds : forallb isDigit ds = true -> ds <> [] -> isAllDigits ds = true.
Proof. by destruct ds. Qed.
Lemma itoa_digits_reads fuel : forall n acc, 0 <= n < 10 ^ Z.of_nat fuel -> forallb isDigit acc = true ->
  (0 < fuel)%nat ->
  forallb isDigit (itoa_digits fuel n acc) = true /\ itoa_digits fuel n acc <> [] /\
  digits_value (itoa_digits fuel n acc) = n * 10 ^ len acc + digits_value acc.
Proof.
  induction fuel as [|fuel IH]; intros n acc Hn Ha Hf; [lia|]. cbn [itoa_digits].
  pose proof (Z.mod_pos_bound n 10 ltac:(lia)) as Hm. pose proof (Z.div_mod n 10 ltac:(lia)) as Hd.
  assert (forallb isDigit ((48 + n mod 10) :: acc) = true) as Ha'.
  { cbn [forallb]. rewrite Ha. unfold isDigit. lia. }
  assert (digits_value ((48 + n mod 10) :: acc) = n mod 10 * 10 ^ len acc + digits_value acc) as Hv.
  { unfold digits_value at 1. cbn [fold_left]. rewrite digits_value_acc. lia. }
  assert (10 ^ len ((48 + n mod 10) :: acc) = 10 * 10 ^ len acc) as Hp.
  { replace (len ((48 + n mod 10) :: acc)) with (Z.succ (len acc)) by (unfold len; cbn; lia).
    apply Z.pow_succ_r. unfold len. lia. }
  destruct (Z.eqb_spec (n / 10) 0) as [E|E].
  - split_and!; [done|done|]. rewrite Hv. nia.
  - rewrite Nat2Z.inj_succ, Z.pow_succ_r in Hn by lia.
    destruct fuel as [|fuel]; [cbn in Hn; lia|].
    destruct (IH (n / 10) ((48 + n mod 10) :: acc)) as (H1 & H2 & H3); [lia|done|lia|].
    split_and!; [done|done|]. rewrite H3, Hv, Hp. nia.
Qed.

Lemma itoa_nonneg n : 0 <= n < 10 ^ 20 -> isAllDigits (itoa n) = true /\ digits_value (itoa n) = n.
Proof.
  intros Hn. unfold itoa. destruct (Z.ltb_spec n 0); [lia|].
  destruct (itoa_digits_reads 20 n []) as (H1 & H2 & H3); [cbn; lia|done|lia|].
  split; [|rewrite H3; change (len (@nil Z)) with 0; cbn; lia].
  by apply all_digits.
Qed.

(** Printing and parsing an unsigned number of any width up to 64. *)
Lemma ParseUint_itoa width n : 0 <= width <= 64 -> 0 <= n < 2 ^ width -> ParseUint width (itoa n) = Ok n.
Proof.
  intros Hw Hn. assert (2 ^ width <= 2 ^ 64) by (apply Z.pow_le_mono_r; lia).
  destruct (itoa_nonneg n) as [H1 H2]; [lia|]. unfold ParseUint. rewrite H1, H2. cbn [negb].
  destruct (Z.ltb_spec n (2 ^ width)); [done|lia].
Qed.
Lemma ParseInt_itoa width n : 0 < width <= 64 -> - 2 ^ (width - 1) <= n < 2 ^ (width - 1) ->
  ParseInt width (itoa n) = Ok n.
Proof.
  intros Hw Hn. assert (2 ^ (width - 1) <= 2 ^ 63) by (apply Z.pow_le_mono_r; lia).
  assert (2 ^ 63 < 10 ^ 20) by (vm_compute; reflexivity).
  destruct (Z.ltb_spec n 0) as [Hneg|Hpos].
  - unfold itoa. destruct (Z.ltb_spec n 0); [|lia].
    destruct (itoa_digits_reads 20 (- n) []) as (D1 & D2 & D3); [cbn; lia|done|lia|].
    assert (isAllDigits (itoa_digits 20 (- n) []) = true) as Ha.
    { by apply all_digits. }
    unfold ParseInt. rewrite Z.eqb_refl, Ha, D3. cbn [negb]. change (len (@nil Z)) with 0. change (digits_value []) with 0.
    destruct (Z.leb_spec (- n * 10 ^ 0 + 0) (2 ^ (width - 1))); [f_equal; lia|lia].
  - destruct (itoa_nonneg n) as [D1 D2]; [lia|]. unfold ParseInt.
    destruct (itoa n) as [|b ds] eqn:E; [done|].
    assert (isDigit b = true) as Hb.
    { unfold isAllDigits in D1. cbn in D1. by apply andb_true_iff in D1 as [? _]. }
    unfold isDigit in Hb. destruct (Z.eqb_spec b 45); [lia|]. destruct (Z.eqb_spec b 43); [lia|].
    rewrite D1, D2. cbn [negb]. destruct (Z.ltb_spec n (2 ^ (width - 1))); [done|lia].
Qed.
