(* ===== verification/ModbusTools.v ===== *)
(** * The Modbus command-line programs

    Models the programs under [examples/modbus] that read and write a device from
    the command line: [write_coils], [write_registers], [read_write_registers],
    [read_coils], [read_registers] and [device_identification].  A program takes
    the values of its flags and runs over the transport of its client; dialling is
    the transport's [Conn], whose failure ends the program.  Contexts and their
    time-outs are part of what a call of the client returns.  [now] is the time
    stamp of requests, on which no result depends. *)
From S2P Require Import Prelude Bytes ModbusTypes ModbusFrame ModbusProtocol Transport Plc ModbusStore.
From S2P Require Import ModbusHandlers ModbusSpec ModbusClient ModbusNames Pccc Console.
Import Handler.
#[local] Open Scope string_scope.
#[local] Open Scope Z_scope.

Definition dq : string := String (Ascii.ascii_of_nat 34) EmptyString.
Definition on_off (v : bool) : arg := AText (if v then "ON" else "OFF").

Section Preamble.
Context {C T : Type} `{Transport C T} `{Link C T}.

(** [client.Close()], deferred. *)
Definition close_client (t : T) : T := (Close t).2.

(** The preamble of every program: connect with two retries, or exit. *)
Definition connected (addr : bytes) (port uid : Z) (body : Client -> Prog T unit) : Prog T unit :=
  _ ← printf "Connecting to Modbus TCP server at %s:%d (unit ID %d)...\n" [AStr addr; AInt port; AInt uid];
  r ← call Client_Connect;
  match r with
  | inl err => _ ← eprintf "Failed to connect: %v\n" [AErr err]; exit 1
  | inr _ =>
      deferred close_client
        (_ ← println "Connected successfully."; _ ← println ""; body (mkClientCfg (u8 uid) 2))
  end.

(** The loop over the comma-separated parts of a flag: [p] parses a part, [bad]
    reports the first one that does not parse. *)
Fixpoint parse_list {A} (p : bytes -> outcome A) (bad : Z -> bytes -> error -> Prog T (list A))
  (i : Z) (parts : list bytes) : Prog T (list A) :=
  match parts with
  | [] => mret []
  | part :: parts =>
      let part := TrimSpace part in
      match p part with
      | Ok v => rest ← parse_list p bad (i + 1) parts; mret (v :: rest)
      | Err err => bad i part err
      | Panic => eval Panic
      end
  end.

(** The comparison loop: the values written, from index [i] on, against those read
    back; [row] prints one line of the table. *)
Fixpoint verify_rows {A} `{EqDecision A} (row : Z -> A -> A -> string -> line)
  (i : Z) (values after : list A) (allMatch : bool) : Prog T bool :=
  match values with
  | [] => mret allMatch
  | v :: values =>
      r ← eval (go_index after i);
      _ ← emit (row i v r (if bool_decide (r = v) then "OK" else "MISMATCH"));
      verify_rows row (i + 1) values after (if bool_decide (r = v) then allMatch else false)
  end.
End Preamble.

(** ** write_coils *)
Module WriteCoils.
Section Program.
Context {C T : Type} `{Transport C T} `{Link C T}.
Variable now : Z.

Definition parse_coil (s : bytes) : outcome bool :=
  let s := ToLower s in
  if existsb (fun w => bool_decide (s = str w)) ["1"; "on"; "true"] then Ok true
  else if existsb (fun w => bool_decide (s = str w)) ["0"; "off"; "false"] then Ok false
  else Err ErrSyntax.

Definition parse_parts : Z -> list bytes -> Prog T (list bool) :=
  parse_list parse_coil (fun i part _ =>
    _ ← eprintf "Error: invalid coil value at position %d (%q). Use 1/0, on/off, or true/false\n" [AInt i; AStr part];
    exit 1).

Definition handleError (operation : string) (err : error) : Prog T unit :=
  if IsModbusError err then
    _ ← eprintf "  %s: Modbus exception: %v\n" [AText operation; AErr err];
    _ ← (if IsExceptionError err ExceptionDataAddressNotAvailable then
           eprintf "  Hint: The target coil address is not writable or does not exist.\n" [] else mret tt);
    if IsExceptionError err ExceptionInvalidDataValue then
      eprintf "  Hint: The server rejected the coil value.\n" [] else mret tt
  else eprintf "  %s: error: %v\n" [AText operation; AErr err].

Definition writeSingleCoil (c : Client) (address : Z) (value : bool) : Prog T unit :=
  _ ← printf "--- Writing single coil (FC 0x05) ---\n" [];
  _ ← printf "  Address: %d\n" [AInt address];
  _ ← printf "  Value:   %s\n" [on_off value];
  _ ← println "";
  _ ← println "  Reading current coil state before write...";
  before ← call (Client_ReadCoils c now address 1);
  _ ← match before with
      | inl err => eprintf "  Warning: could not read current state: %v\n" [AErr err]
      | inr before => b ← eval (go_index before 0); printf "  Current state: %s\n" [on_off b]
      end;
  _ ← println "";
  _ ← printf "  Writing coil %d to %s...\n" [AInt address; on_off value];
  r ← call (Client_WriteSingleCoil c now address value);
  match r with
  | inl err => handleError "WriteSingleCoil" err
  | inr _ =>
      _ ← println "  Write successful.";
      _ ← println "";
      _ ← println "  Reading back to verify...";
      after ← call (Client_ReadCoils c now address 1);
      match after with
      | inl err => handleError "ReadCoils (verify)" err
      | inr after =>
          b ← eval (go_index after 0);
          _ ← printf "  Read-back state: %s\n" [on_off b];
          if Bool.eqb b value then println "  Verification: PASS -- read-back matches written value."
          else printf "  Verification: MISMATCH -- wrote %s but read %s.\n" [on_off value; on_off b]
      end
  end.

Definition print_value (i : Z) (v : bool) : Prog T unit :=
  _ ← (if 0 <? i then printf "," [] else mret tt); if v then printf "1" [] else printf "0" [].
Definition state_row (address i : Z) (v : bool) : line :=
  Printed Stdout "  %-10d %-10s\n" [AInt (address + i); on_off v].

Definition verify (address : Z) : list bool -> list bool -> Prog T bool := fun values after =>
  verify_rows (fun i v r match_ =>
    Printed Stdout "  %-10d %-10s %-10s %-10s\n" [AInt (address + i); on_off v; on_off r; AText match_])
    0 values after true.

Definition writeMultipleCoils (c : Client) (address : Z) (values : list bool) : Prog T unit :=
  let qty := len values in
  _ ← printf "--- Writing %d coils (FC 0x0F) ---\n" [AInt qty];
  _ ← printf "  Starting address: %d\n" [AInt address];
  _ ← printf "  Values: " [];
  _ ← each 0 print_value values;
  _ ← println "";
  _ ← println "";
  _ ← println "  Reading current coil states before write...";
  before ← call (Client_ReadCoils c now address (u16 qty));
  _ ← match before with
      | inl err => eprintf "  Warning: could not read current states: %v\n" [AErr err]
      | inr before =>
          _ ← printf "  %-10s %-10s\n" [AText "Address"; AText "Current"];
          _ ← printf "  %-10s %-10s\n" [AText "-------"; AText "-------"];
          each 0 (fun i v => emit (state_row address i v)) before
      end;
  _ ← println "";
  _ ← printf "  Writing %d coils starting at address %d...\n" [AInt qty; AInt address];
  r ← call (Client_WriteMultipleCoils c now address values);
  match r with
  | inl err => handleError "WriteMultipleCoils" err
  | inr _ =>
      _ ← println "  Write successful.";
      _ ← println "";
      _ ← println "  Reading back to verify...";
      after ← call (Client_ReadCoils c now address (u16 qty));
      match after with
      | inl err => handleError "ReadCoils (verify)" err
      | inr after =>
          _ ← printf "  %-10s %-10s %-10s %-10s\n" [AText "Address"; AText "Written"; AText "Read Back"; AText "Match"];
          _ ← printf "  %-10s %-10s %-10s %-10s\n" [AText "-------"; AText "-------"; AText "---------"; AText "-----"];
          allMatch ← verify address values after;
          _ ← println "";
          if allMatch : bool then println "  Verification: PASS -- all coils match."
          else println "  Verification: FAIL -- some coils do not match."
      end
  end.

Definition parse_single (value : bytes) : Prog T bool :=
  match parse_coil (TrimSpace value) with
  | Ok b => mret b
  | _ =>
      _ ← eprintf ("Error: invalid coil value %q. Use " ++ dq ++ "on" ++ dq ++ "/" ++ dq ++ "off" ++ dq ++ ", "
            ++ dq ++ "true" ++ dq ++ "/" ++ dq ++ "false" ++ dq ++ ", or " ++ dq ++ "1" ++ dq ++ "/" ++ dq ++ "0"
            ++ dq ++ "\n") [AStr value];
      exit 1
  end.
Definition parse_multi (values : bytes) : Prog T (list bool) :=
  multiValues ← parse_parts 0 (Split 44 values);
  if len multiValues =? 0 then
    _ ← eprintln "Error: -values must contain at least one value"; exit 1
  else if MaxWriteCoilCount <? len multiValues then
    _ ← eprintf "Error: cannot write more than %d coils in a single request\n" [AInt MaxWriteCoilCount]; exit 1
  else mret multiValues.

(** [main], with the values of [-addr], [-port], [-unit], [-address], [-value] and
    [-values]. *)
Definition main (addr : bytes) (port uid address : Z) (value values : bytes) : Prog T unit :=
  if bool_decide (value = []) && bool_decide (values = []) then
    _ ← eprintln "Error: specify -value for single coil write or -values for multiple coil write";
    _ ← eprintln "  Example single:   -address 0 -value on";
    _ ← eprintln ("  Example multiple: -address 0 -values " ++ dq ++ "1,0,1,1,0" ++ dq);
    exit 1
  else
    singleValue ← (if bool_decide (value = []) then mret false else parse_single value);
    multiValues ← (if bool_decide (values = []) then mret [] else parse_multi values);
    connected addr port uid (fun c =>
      _ ← (if negb (bool_decide (value = [])) && bool_decide (values = [])
           then writeSingleCoil c (u16 address) singleValue
           else writeMultipleCoils c (u16 address) multiValues);
      _ ← println "";
      println "Done.").
End Program.
End WriteCoils.

(** ** write_registers *)
Module WriteRegisters.
Section Program.
Context {C T : Type} `{Transport C T} `{Link C T}.
Variable now : Z.

Definition parse_parts : Z -> list bytes -> Prog T (list Z) :=
  parse_list (ParseUint 16) (fun i part err =>
    _ ← eprintf "Error: invalid value at position %d (%q): %v\n" [AInt i; AStr part; AErr err];
    _ ← eprintln "  Values must be integers in the range 0-65535";
    exit 1).

Definition handleError (operation : string) (err : error) : Prog T unit :=
  if IsModbusError err then
    _ ← eprintf "  %s: Modbus exception: %v\n" [AText operation; AErr err];
    _ ← (if IsExceptionError err ExceptionDataAddressNotAvailable then
           eprintf "  Hint: The target register address is not writable or does not exist.\n" [] else mret tt);
    if IsExceptionError err ExceptionInvalidDataValue then
      eprintf "  Hint: The server rejected the value. Check the device's valid range.\n" [] else mret tt
  else eprintf "  %s: error: %v\n" [AText operation; AErr err].

Definition writeSingleRegister (c : Client) (address value : Z) : Prog T unit :=
  _ ← printf "--- Writing single register (FC 0x06) ---\n" [];
  _ ← printf "  Address: %d\n" [AInt address];
  _ ← printf "  Value:   %d (0x%04X)\n" [AInt value; AInt value];
  _ ← println "";
  _ ← println "  Reading current value before write...";
  before ← call (Client_ReadHoldingRegisters c now address 1);
  _ ← match before with
      | inl err => eprintf "  Warning: could not read current value: %v\n" [AErr err]
      | inr before => b ← eval (go_index before 0); printf "  Current value: %d (0x%04X)\n" [AInt b; AInt b]
      end;
  _ ← println "";
  _ ← printf "  Writing value %d to register %d...\n" [AInt value; AInt address];
  r ← call (Client_WriteSingleRegister c now address value);
  match r with
  | inl err => handleError "WriteSingleRegister" err
  | inr _ =>
      _ ← println "  Write successful.";
      _ ← println "";
      _ ← println "  Reading back to verify...";
      after ← call (Client_ReadHoldingRegisters c now address 1);
      match after with
      | inl err => handleError "ReadHoldingRegisters (verify)" err
      | inr after =>
          b ← eval (go_index after 0);
          _ ← printf "  Read-back value: %d (0x%04X)\n" [AInt b; AInt b];
          if b =? value then println "  Verification: PASS -- read-back matches written value."
          else
            _ ← printf "  Verification: MISMATCH -- wrote %d but read %d.\n" [AInt value; AInt b];
            println "  (The device may have clamped or rejected the value.)"
      end
  end.

Definition print_value (i v : Z) : Prog T unit :=
  _ ← (if 0 <? i then printf ", " [] else mret tt); printf "%d" [AInt v].
Definition state_row (address i v : Z) : line :=
  Printed Stdout "  %-10d %-10d (0x%04X)\n" [AInt (address + i); AInt v; AInt v].

Definition verify (address : Z) : list Z -> list Z -> Prog T bool := fun values after =>
  verify_rows (fun i v r match_ =>
    Printed Stdout "  %-10d %-15d %-15d %-10s\n" [AInt (address + i); AInt v; AInt r; AText match_])
    0 values after true.

Definition writeMultipleRegisters (c : Client) (address : Z) (values : list Z) : Prog T unit :=
  let qty := len values in
  _ ← printf "--- Writing %d registers (FC 0x10) ---\n" [AInt qty];
  _ ← printf "  Starting address: %d\n" [AInt address];
  _ ← printf "  Values: " [];
  _ ← each 0 print_value values;
  _ ← println "";
  _ ← println "";
  _ ← println "  Reading current values before write...";
  before ← call (Client_ReadHoldingRegisters c now address (u16 qty));
  _ ← match before with
      | inl err => eprintf "  Warning: could not read current values: %v\n" [AErr err]
      | inr before =>
          _ ← printf "  %-10s %-15s\n" [AText "Address"; AText "Current Value"];
          _ ← printf "  %-10s %-15s\n" [AText "-------"; AText "-------------"];
          each 0 (fun i v => emit (state_row address i v)) before
      end;
  _ ← println "";
  _ ← printf "  Writing %d registers starting at address %d...\n" [AInt qty; AInt address];
  r ← call (Client_WriteMultipleRegisters c now address values);
  match r with
  | inl err => handleError "WriteMultipleRegisters" err
  | inr _ =>
      _ ← println "  Write successful.";
      _ ← println "";
      _ ← println "  Reading back to verify...";
      after ← call (Client_ReadHoldingRegisters c now address (u16 qty));
      match after with
      | inl err => handleError "ReadHoldingRegisters (verify)" err
      | inr after =>
          _ ← printf "  %-10s %-15s %-15s %-10s\n" [AText "Address"; AText "Written"; AText "Read Back"; AText "Match"];
          _ ← printf "  %-10s %-15s %-15s %-10s\n" [AText "-------"; AText "-------"; AText "---------"; AText "-----"];
          allMatch ← verify address values after;
          _ ← println "";
          if allMatch : bool then println "  Verification: PASS -- all values match."
          else println "  Verification: FAIL -- some values do not match."
      end
  end.

Definition parse_multi (values : bytes) : Prog T (list Z) :=
  multiValues ← parse_parts 0 (Split 44 values);
  if len multiValues =? 0 then
    _ ← eprintln "Error: -values must contain at least one value"; exit 1
  else if MaxWriteRegisterCount <? len multiValues then
    _ ← eprintf "Error: cannot write more than %d registers in a single request\n" [AInt MaxWriteRegisterCount];
    exit 1
  else mret multiValues.

Definition main (addr : bytes) (port uid address value : Z) (values : bytes) : Prog T unit :=
  if (value <? 0) && bool_decide (values = []) then
    _ ← eprintln "Error: specify -value for single register write or -values for multiple register write";
    _ ← eprintln "  Example single:   -address 0 -value 1234";
    _ ← eprintln ("  Example multiple: -address 0 -values " ++ dq ++ "100,200,300" ++ dq);
    exit 1
  else
    multiValues ← (if bool_decide (values = []) then mret [] else parse_multi values);
    connected addr port uid (fun c =>
      _ ← (if negb (bool_decide (values = [])) then writeMultipleRegisters c (u16 address) multiValues
           else writeSingleRegister c (u16 address) (u16 value));
      _ ← println "";
      println "Done.").
End Program.
End WriteRegisters.

(** ** read_write_registers *)
Module ReadWriteRegisters.
Section Program.
Context {C T : Type} `{Transport C T} `{Link C T}.
Variable now : Z.

Definition parse_parts : Z -> list bytes -> Prog T (list Z) :=
  parse_list (ParseUint 16) (fun i part err =>
    _ ← eprintf "Error: invalid write value at position %d (%q): %v\n" [AInt i; AStr part; AErr err];
    exit 1).

Definition handleError (operation : string) (err : error) : Prog T unit :=
  if IsModbusError err then
    _ ← eprintf "  %s: Modbus exception: %v\n" [AText operation; AErr err];
    _ ← (if IsExceptionError err ExceptionFunctionCodeNotSupported then
           _ ← eprintf "  Hint: FC 0x17 (ReadWriteMultipleRegisters) is not supported by this device.\n" [];
           _ ← eprintf "  Many devices only support FC 0x03 (ReadHoldingRegisters) and FC 0x10 (WriteMultipleRegisters).\n" [];
           eprintf "  Use separate read and write operations instead.\n" [] else mret tt);
    if IsExceptionError err ExceptionDataAddressNotAvailable then
      eprintf "  Hint: One of the address ranges (read or write) is not available on this device.\n" [] else mret tt
  else eprintf "  %s: error: %v\n" [AText operation; AErr err].

Definition print_value (i v : Z) : Prog T unit :=
  _ ← (if 0 <? i then printf ", " [] else mret tt); printf "%d" [AInt v].
Definition state_row (address i v : Z) : line :=
  Printed Stdout "    Address %d = %d (0x%04X)\n" [AInt (address + i); AInt v; AInt v].
Definition result_row (address i v : Z) : line :=
  Printed Stdout "  %-10d %-10d 0x%04X\n" [AInt (address + i); AInt v; AInt v].

Definition verify (address : Z) : list Z -> list Z -> Prog T bool := fun values after =>
  verify_rows (fun i v r match_ =>
    Printed Stdout "  %-10d %-12d %-12d %-10s\n" [AInt (address + i); AInt v; AInt r; AText match_])
    0 values after true.

(** The current values at an address, as far as they can be read. *)
Definition show_current (c : Client) (address quantity : Z) : Prog T unit :=
  regs ← call (Client_ReadHoldingRegisters c now (u16 address) (u16 quantity));
  match regs with
  | inl err => eprintf "  Warning: could not read current state: %v\n" [AErr err]
  | inr regs => each 0 (fun i v => emit (state_row address i v)) regs
  end.

Definition verify_write (c : Client) (writeAddress : Z) (writeVals : list Z) : Prog T unit :=
  r ← call (Client_ReadHoldingRegisters c now (u16 writeAddress) (u16 (len writeVals)));
  match r with
  | inl err => handleError "ReadHoldingRegisters (verify)" err
  | inr verifyRegs =>
      _ ← printf "  %-10s %-12s %-12s %-10s\n" [AText "Address"; AText "Written"; AText "Read Back"; AText "Match"];
      _ ← printf "  %-10s %-12s %-12s %-10s\n" [AText "-------"; AText "-------"; AText "---------"; AText "-----"];
      allMatch ← verify writeAddress writeVals verifyRegs;
      _ ← println "";
      if allMatch : bool then println "  Verification: PASS -- all written values confirmed."
      else println "  Verification: FAIL -- some written values do not match."
  end.

Definition exchange (readAddress readCount writeAddress : Z) (writeVals : list Z) (c : Client) : Prog T unit :=
  _ ← println "--- Read/Write Multiple Registers (FC 0x17) ---";
  _ ← println "";
  _ ← println "This function performs an atomic write-then-read in a single transaction.";
  _ ← println "The write is executed BEFORE the read on the server side.";
  _ ← println "";
  _ ← printf "  Write: %d register(s) starting at address %d\n" [AInt (len writeVals); AInt writeAddress];
  _ ← printf "  Write values: " [];
  _ ← each 0 print_value writeVals;
  _ ← println "";
  _ ← printf "  Read:  %d register(s) starting at address %d\n" [AInt readCount; AInt readAddress];
  _ ← println "";
  _ ← println "  Current state of write-target registers:";
  _ ← show_current c writeAddress (len writeVals);
  _ ← println "";
  _ ← println "  Current state of read-target registers:";
  _ ← show_current c readAddress readCount;
  _ ← println "";
  _ ← println "  Executing ReadWriteMultipleRegisters (FC 0x17)...";
  r ← call (Client_ReadWriteMultipleRegisters c now (u16 readAddress) (u16 readCount) (u16 writeAddress) writeVals);
  match r with
  | inl err => _ ← handleError "ReadWriteMultipleRegisters" err; exit 1
  | inr readResults =>
      _ ← println "  Operation successful.";
      _ ← println "";
      _ ← println "  Read results (from the FC 0x17 response):";
      _ ← printf "  %-10s %-10s %-10s\n" [AText "Address"; AText "Decimal"; AText "Hex"];
      _ ← printf "  %-10s %-10s %-10s\n" [AText "-------"; AText "-------"; AText "------"];
      _ ← each 0 (fun i v => emit (result_row readAddress i v)) readResults;
      _ ← println "";
      _ ← println "  Verifying write by reading back written registers (FC 0x03):";
      _ ← verify_write c writeAddress writeVals;
      _ ← println "";
      println "Done."
  end.

Definition main (addr : bytes) (port uid readAddress readCount writeAddress : Z) (writeValues : bytes)
  : Prog T unit :=
  if (readCount <? 1) || (MaxReadWriteReadCount <? readCount) then
    _ ← eprintf "Error: read-count must be between 1 and %d\n" [AInt MaxReadWriteReadCount]; exit 1
  else
    writeVals ← (if bool_decide (writeValues = []) then mret [] else parse_parts 0 (Split 44 writeValues));
    if len writeVals =? 0 then
      _ ← eprintln "Error: -write-values must contain at least one value"; exit 1
    else if MaxReadWriteWriteCount <? len writeVals then
      _ ← eprintf "Error: cannot write more than %d registers in a read/write request\n" [AInt MaxReadWriteWriteCount];
      exit 1
    else connected addr port uid (exchange readAddress readCount writeAddress writeVals).
End Program.
End ReadWriteRegisters.

(** ** read_coils *)
Module ReadCoils.
Section Program.
Context {C T : Type} `{Transport C T} `{Link C T}.
Variable now : Z.

Definition handleError (operation : string) (err : error) : Prog T unit :=
  if IsModbusError err then
    _ ← eprintf "  %s: Modbus exception: %v\n" [AText operation; AErr err];
    _ ← (if IsExceptionError err ExceptionDataAddressNotAvailable then
           eprintf "  Hint: The requested coil/input address range does not exist on this device.\n" [] else mret tt);
    if IsExceptionError err ExceptionFunctionCodeNotSupported then
      _ ← eprintf "  Hint: This device does not support this function code.\n" [];
      eprintf "  Some devices do not implement discrete inputs (FC 0x02).\n" [] else mret tt
  else eprintf "  %s: error: %v\n" [AText operation; AErr err].

Definition state_row (startAddress i : Z) (v : bool) : line :=
  Printed Stdout "  %-10d %-8s %-6s\n" [AInt (startAddress + i); on_off v; AText (if v then "1" else "0")].

(** The bits [startBit], ..., [endBit - 1] of [values] as a byte. *)
Fixpoint byte_of (n : nat) (startBit bitIdx : Z) (values : list bool) (byteVal : Z) : outcome Z :=
  match n with
  | O => Ok byteVal
  | S n =>
      v ← go_index values bitIdx;
      byte_of n startBit (bitIdx + 1) values
        (if v : bool then Z.lor byteVal (u8 (Z.shiftl 1 (bitIdx - startBit))) else byteVal)
  end.
(** The digits, most significant first; '.' beyond the end (46), '0' is 48. *)
Definition bit_text (startBit byteVal : Z) (count : Z) : bytes :=
  map (fun bitIdx =>
         if startBit + bitIdx <? count
         then if Z.land (Z.shiftr byteVal bitIdx) 1 =? 1 then 49 else 48
         else 46) [7; 6; 5; 4; 3; 2; 1; 0].
Definition byte_row (startAddress byteIdx : Z) (values : list bool) : outcome line :=
  let startBit := byteIdx * 8 in
  let endBit := if len values <? startBit + 8 then len values else startBit + 8 in
  byteVal ← byte_of (Z.to_nat (endBit - startBit)) startBit startBit values 0;
  Ok (Printed Stdout "  Byte %2d (addr %d-%d): %s = 0x%02X\n"
        [AInt byteIdx; AInt (startAddress + startBit); AInt (startAddress + endBit - 1);
         AStr (bit_text startBit byteVal (len values)); AInt byteVal]).
(** The loop [for byteIdx := 0; byteIdx*8 < len(values); byteIdx++]. *)
Fixpoint byte_rows (fuel : nat) (startAddress byteIdx : Z) (values : list bool) : Prog T unit :=
  match fuel with
  | O => mret tt
  | S fuel =>
      if byteIdx * 8 <? len values then
        l ← eval (byte_row startAddress byteIdx values);
        _ ← emit l;
        byte_rows fuel startAddress (byteIdx + 1) values
      else mret tt
  end.

Definition displayBoolValues (label : string) (startAddress : Z) (values : list bool) : Prog T unit :=
  _ ← printf "  %-10s %-8s %-6s\n" [AText "Address"; AText "State"; AText "Bit"];
  _ ← printf "  %-10s %-8s %-6s\n" [AText "-------"; AText "-----"; AText "---"];
  _ ← each 0 (fun i v => emit (state_row startAddress i v)) values;
  _ ← println "";
  _ ← println "  Bit-level view (wire format, LSB first within each byte):";
  _ ← println "";
  _ ← byte_rows (S (length values)) startAddress 0 values;
  _ ← println "";
  printf "  Summary: %d of %d %ss are ON\n"
    [AInt (len (filter (fun v => v = true) values)); AInt (len values); AText label].

Definition readCoils (c : Client) (address quantity : Z) : Prog T unit :=
  _ ← printf "--- Reading %d coils starting at address %d (FC 0x01) ---\n" [AInt quantity; AInt address];
  _ ← println "";
  r ← call (Client_ReadCoils c now address quantity);
  match r with
  | inl err => handleError "ReadCoils" err
  | inr coils => displayBoolValues "Coil" address coils
  end.
Definition readDiscreteInputs (c : Client) (address quantity : Z) : Prog T unit :=
  _ ← printf "--- Reading %d discrete inputs starting at address %d (FC 0x02) ---\n" [AInt quantity; AInt address];
  _ ← println "";
  r ← call (Client_ReadDiscreteInputs c now address quantity);
  match r with
  | inl err => handleError "ReadDiscreteInputs" err
  | inr inputs => displayBoolValues "Input" address inputs
  end.

Definition main (addr : bytes) (port uid address count : Z) (discrete : bool) : Prog T unit :=
  if (count <? 1) || (MaxCoilCount <? count) then
    _ ← eprintf "Error: count must be between 1 and %d\n" [AInt MaxCoilCount]; exit 1
  else connected addr port uid (fun c =>
    _ ← (if discrete then readDiscreteInputs c (u16 address) (u16 count)
         else readCoils c (u16 address) (u16 count));
    _ ← println "";
    println "Done.").
End Program.
End ReadCoils.

(** ** read_registers *)
Module ReadRegisters.
Section Program.
Context {C T : Type} `{Transport C T} `{Link C T}.
Variable now : Z.

Definition handleError (operation : string) (err : error) : Prog T unit :=
  if IsModbusError err then
    _ ← eprintf "  %s: Modbus exception: %v\n" [AText operation; AErr err];
    _ ← (if IsExceptionError err ExceptionDataAddressNotAvailable then
           _ ← eprintf "  Hint: The requested address range is not available on this device.\n" [];
           eprintf "  Check the device's register map documentation.\n" [] else mret tt);
    if IsExceptionError err ExceptionFunctionCodeNotSupported then
      eprintf "  Hint: This device does not support this function code.\n" [] else mret tt
  else eprintf "  %s: error: %v\n" [AText operation; AErr err].

Definition row (address i v : Z) : line :=
  Printed Stdout "  %-10d %-10d 0x%04X\n" [AInt (address + i); AInt v; AInt v].
Definition table (operation : string) (address : Z) (r : error + list Z) : Prog T unit :=
  match r with
  | inl err => handleError operation err
  | inr registers =>
      _ ← printf "  %-10s %-10s %-10s\n" [AText "Address"; AText "Decimal"; AText "Hex"];
      _ ← printf "  %-10s %-10s %-10s\n" [AText "-------"; AText "-------"; AText "------"];
      each 0 (fun i v => emit (row address i v)) registers
  end.

Definition main (addr : bytes) (port uid address count : Z) : Prog T unit :=
  if (count <? 1) || (MaxRegisterCount <? count) then
    _ ← eprintf "Error: count must be between 1 and %d\n" [AInt MaxRegisterCount]; exit 1
  else connected addr port uid (fun c =>
    _ ← printf "--- Reading single holding register at address %d ---\n" [AInt address];
    registers ← call (Client_ReadHoldingRegisters c now (u16 address) 1);
    _ ← match registers with
        | inl err => handleError "ReadHoldingRegisters (single)" err
        | inr registers =>
            v ← eval (go_index registers 0);
            printf "  Address %d = %d (0x%04X)\n" [AInt address; AInt v; AInt v]
        end;
    _ ← println "";
    _ ← printf "--- Reading %d holding registers starting at address %d ---\n" [AInt count; AInt address];
    registers ← call (Client_ReadHoldingRegisters c now (u16 address) (u16 count));
    _ ← table "ReadHoldingRegisters (multiple)" address registers;
    _ ← println "";
    _ ← printf "--- Reading %d input registers starting at address %d ---\n" [AInt count; AInt address];
    inputRegisters ← call (Client_ReadInputRegisters c now (u16 address) (u16 count));
    _ ← table "ReadInputRegisters" address inputRegisters;
    _ ← println "";
    println "Done.").
End Program.
End ReadRegisters.

(** ** device_identification *)
Module DeviceId.
Section Program.
Context {C T : Type} `{Transport C T} `{Link C T}.
Variable now : Z.

Definition handleError (operation : string) (err : error) : Prog T unit :=
  if IsModbusError err then
    _ ← eprintf "  %s: Modbus exception: %v\n" [AText operation; AErr err];
    _ ← (if IsExceptionError err ExceptionFunctionCodeNotSupported then
           _ ← eprintf "\n" [];
           _ ← eprintf "  This device does not support Read Device Identification (FC 0x2B/0x0E).\n" [];
           _ ← eprintf "  This is common with simpler Modbus devices that only implement basic\n" [];
           _ ← eprintf "  read/write function codes (FC 0x01-0x10).\n" [];
           _ ← eprintf "\n" [];
           _ ← eprintf "  Device identification is part of the Modbus Encapsulated Interface (MEI),\n" [];
           eprintf "  which is optional per the Modbus specification.\n" [] else mret tt);
    if IsExceptionError err ExceptionInvalidDataValue then
      eprintf "  Hint: The requested Read Device ID code or object ID is not supported.\n" [] else mret tt
  else eprintf "  %s: error: %v\n" [AText operation; AErr err].

Definition object_row (obj : DeviceIDObject) : line :=
  Printed Stdout "    0x%02X   %-25s %s\n"
    [AInt (obj_ID obj); AText (DeviceIDObjectCode_String (obj_ID obj)); AStr (obj_Value obj)].
(** An optional field is printed when it is not empty. *)
Definition field (fmt : string) (v : bytes) : Prog T unit :=
  if bool_decide (v = []) then mret tt else printf fmt [AStr v].

Definition continuation (c : Client) (deviceID : DeviceIdentification) : Prog T unit :=
  if dev_MoreFollows deviceID =? MoreFollowsYes then
    _ ← printf "  Note: The device has additional identification objects.\n" [];
    _ ← printf "  Request again with object ID 0x%02X to continue.\n" [AInt (dev_NextObjectID deviceID)];
    _ ← println "";
    _ ← println "  Fetching additional objects...";
    r ← call (Client_ReadDeviceIdentification c now ReadDeviceIDBasicStream (dev_NextObjectID deviceID));
    match r with
    | inl err => eprintf "  Warning: could not fetch additional objects: %v\n" [AErr err]
    | inr moreID => _ ← each 0 (fun _ obj => emit (object_row obj)) (dev_Objects moreID); println ""
    end
  else mret tt.

Definition show (c : Client) (deviceID : DeviceIdentification) : Prog T unit :=
  _ ← println "  Response Metadata:";
  _ ← printf "    Conformity Level: %s\n" [AText (ConformityLevel_String (dev_ConformityLevel deviceID))];
  _ ← printf "    More Follows:     %s\n" [AText (MoreFollows_String (dev_MoreFollows deviceID))];
  _ ← printf "    Next Object ID:   0x%02X\n" [AInt (dev_NextObjectID deviceID)];
  _ ← printf "    Number of Objects: %d\n" [AInt (dev_NumberOfObjects deviceID)];
  _ ← println "";
  _ ← println "  Device Identification Objects:";
  _ ← printf "    %-6s %-25s %s\n" [AText "ID"; AText "Name"; AText "Value"];
  _ ← printf "    %-6s %-25s %s\n" [AText "------"; AText "-------------------------"; AText "-----"];
  _ ← each 0 (fun _ obj => emit (object_row obj)) (dev_Objects deviceID);
  _ ← println "";
  _ ← println "  Parsed Fields:";
  _ ← printf "    Vendor Name: %s\n" [AStr (GetVendorName deviceID)];
  _ ← printf "    Product Code: %s\n" [AStr (GetProductCode deviceID)];
  _ ← printf "    Revision: %s\n" [AStr (GetRevision deviceID)];
  _ ← field "    Vendor URL: %s\n" (GetVendorURL deviceID);
  _ ← field "    Product Name: %s\n" (GetProductName deviceID);
  _ ← field "    Model Name: %s\n" (GetModelName deviceID);
  _ ← field "    User App Name: %s\n" (GetUserApplicationName deviceID);
  _ ← println "";
  continuation c deviceID.

Definition main (addr : bytes) (port uid : Z) : Prog T unit :=
  connected addr port uid (fun c =>
    _ ← println "--- Reading Device Identification (FC 0x2B/0x0E) ---";
    _ ← println "";
    _ ← println "Requesting basic identification (mandatory objects)...";
    _ ← println "";
    r ← call (Client_ReadDeviceIdentification c now ReadDeviceIDBasicStream DeviceIDVendorName);
    match r with
    | inl err => _ ← handleError "ReadDeviceIdentification" err; exit 1
    | inr deviceID => _ ← show c deviceID; println "Done."
    end).
End Program.
End DeviceId.
