(* ===== verification/ModbusToolsOk.v ===== *)
(** * The Modbus command-line programs are right

    Properties of the programs of [ModbusTools]: what the user types reaches the
    device and is confirmed, a confirmation is never printed wrongly, tables show
    what the device holds. *)
From S2P Require Import Prelude Bytes ModbusTypes ModbusFrame ModbusProtocol Transport Plc ModbusStore.
From S2P Require Import ModbusHandlers ModbusSpec ModbusClient ModbusNames Pccc Console ModbusTools.
Import Handler.
#[local] Open Scope string_scope.
#[local] Open Scope Z_scope.
#[local] Open Scope list_scope.

(** ** What a user types: numbers separated by commas *)
Fixpoint join_comma (parts : list bytes) : bytes :=
  match parts with
  | [] => []
  | [p] => p
  | p :: parts => p ++ 44 :: join_comma parts
  end.

Lemma Split_plain p : Forall (fun b => b <> 44) p -> Split 44 p = [p].
Proof.
  induction 1 as [|b p Hb Hp IH]; [done|]. cbn [Split].
  rewrite (proj2 (Z.eqb_neq b 44) Hb). by rewrite IH.
Qed.
Lemma Split_app p rest : Forall (fun b => b <> 44) p -> Split 44 (p ++ 44 :: rest) = p :: Split 44 rest.
Proof.
  induction 1 as [|b p Hb Hp IH]; [done|]. cbn [app Split].
  rewrite (proj2 (Z.eqb_neq b 44) Hb). by rewrite IH.
Qed.
Lemma Split_join parts : parts <> [] -> Forall (Forall (fun b => b <> 44)) parts ->
  Split 44 (join_comma parts) = parts.
Proof.
  induction parts as [|p [|p' parts] IH]; intros Hne Hp; [done|..].
  - inversion_clear Hp. by apply Split_plain.
  - apply Forall_cons in Hp as [Hp Hps]. change (join_comma (p :: p' :: parts)) with (p ++ 44 :: join_comma (p' :: parts)).
    rewrite Split_app by done. f_equal. by apply IH.
Qed.

(** White space is only trimmed where there is some. *)
Lemma digit_cases b : isDigit b = true -> b ∈ [48; 49; 50; 51; 52; 53; 54; 55; 56; 57].
Proof.
  unfold isDigit. intros Hb. assert (b = 48 \/ b = 49 \/ b = 50 \/ b = 51 \/ b = 52 \/ b = 53 \/ b = 54 \/ b = 55 \/
    b = 56 \/ b = 57) as Hc by lia.
  destruct_or! Hc; subst; decided.
Qed.
Lemma digit_no_space b s : isDigit b = true -> space_rune (b :: s) = O.
Proof.
  intros Hb%digit_cases. repeat (apply elem_of_cons in Hb as [->|Hb]; [done|]). by apply elem_of_nil in Hb.
Qed.
Lemma digit_no_space_rev b s : isDigit b = true -> space_rune_rev (b :: s) = O.
Proof.
  intros Hb%digit_cases. repeat (apply elem_of_cons in Hb as [->|Hb]; [|]).
  all: try by apply elem_of_nil in Hb.
  all: destruct s as [|x s]; [done|]; cbn [space_rune_rev].
  all: repeat (match goal with |- context [match ?y with _ => _ end] => is_var y; destruct y end; try done).
Qed.
Lemma TrimSpace_digits ds : forallb isDigit ds = true -> TrimSpace ds = ds.
Proof.
  intros Hd. assert (trim_by space_rune (length ds) ds = ds) as E.
  { destruct ds as [|b ds]; [done|]. cbn [length trim_by]. rewrite digit_no_space; [done|].
    cbn in Hd. by apply andb_true_iff in Hd as [? _]. }
  unfold TrimSpace. rewrite E. rewrite <-(reverse_involutive ds) at 3. f_equal.
  assert (forallb isDigit (reverse ds) = true) as Hr.
  { rewrite forallb_forall in *. intros x Hx. apply Hd. apply list_elem_of_In, elem_of_reverse.
    by apply list_elem_of_In. }
  destruct ds as [|b0 ds0] eqn:Ed; [done|]. destruct (reverse (b0 :: ds0)) as [|b rs] eqn:Er.
  { apply (f_equal length) in Er. by rewrite length_reverse in Er. }
  cbn [length trim_by]. rewrite digit_no_space_rev; [done|]. cbn in Hr. by apply andb_true_iff in Hr as [? _].
Qed.
Lemma digits_no_comma ds : forallb isDigit ds = true -> Forall (fun b => b <> 44) ds.
Proof.
  rewrite forallb_forall, Forall_forall. intros Hd x Hx Hc. subst.
  specialize (Hd 44). rewrite list_elem_of_In in Hx. by apply Hd in Hx.
Qed.
Lemma itoa_all_digits n : is_u16 n -> forallb isDigit (itoa n) = true.
Proof.
  unfold is_u16. intros Hn. destruct (itoa_nonneg n) as [Hd _]; [lia|]. unfold isAllDigits in Hd. by destruct (itoa n).
Qed.

Section Parsing.
Context {S : Type}.

(** Every part parses: the values, and nothing is printed. *)
Lemma parse_list_ok {A} (p : bytes -> outcome A) bad parts (vs : list A) : forall i (s : S) Q,
  Forall2 (fun part v => p (TrimSpace part) = Ok v) parts vs -> Q vs s [] ->
  wp (parse_list p bad i parts) s Q.
Proof.
  intros i s Q Hp. revert i Q. induction Hp as [|part v parts vs E Hp IH]; intros i Q HQ; [done|].
  cbn [parse_list]. rewrite E. apply wp_bind, IH, wp_ret. exact HQ.
Qed.
End Parsing.

Definition coil_digit (b : bool) : bytes := if b then str "1" else str "0".
Lemma coils_text (vs : list bool) : vs <> [] ->
  Forall2 (fun part v => WriteCoils.parse_coil (TrimSpace part) = Ok v)
    (Split 44 (join_comma (map coil_digit vs))) vs.
Proof.
  intros Hne. rewrite Split_join.
  - clear Hne. induction vs as [|[] vs IH]; constructor; done.
  - by destruct vs.
  - apply Forall_forall. intros p (b & -> & _)%list_elem_of_fmap. destruct b; by apply digits_no_comma.
Qed.
Lemma registers_text (vs : list Z) : vs <> [] -> Forall is_u16 vs ->
  Forall2 (fun part v => ParseUint 16 (TrimSpace part) = Ok v) (Split 44 (join_comma (map itoa vs))) vs.
Proof.
  intros Hne Hv. rewrite Split_join.
  - clear Hne. induction Hv as [|v vs Hv Hvs IH]; constructor; [|done].
    rewrite TrimSpace_digits by by apply itoa_all_digits.
    apply ParseUint_itoa; [lia|]. unfold is_u16 in Hv. lia.
  - by destruct vs.
  - apply Forall_forall. intros p (v & -> & Hin)%list_elem_of_fmap. apply digits_no_comma, itoa_all_digits.
    rewrite Forall_forall in Hv. by apply Hv.
Qed.

Lemma registers_text_nonempty (vs : list Z) : vs <> [] -> Forall is_u16 vs -> join_comma (map itoa vs) <> [].
Proof.
  intros Hne Hvs E. pose proof (registers_text vs Hne Hvs) as H2. rewrite E in H2. cbn in H2.
  inversion H2 as [|? v ? ? Hp]. by vm_compute in Hp.
Qed.
Lemma len_pos {A} (l : list A) : l <> [] -> 0 < len l.
Proof. intros Hne. destruct l; [done|]. rewrite len_cons. pose proof (len_nonneg l). lia. Qed.

(** ** The comparison loop *)
Section Verify.
Context {S A : Type} `{EqDecision A}.

(** It never reads beyond what was read back, prints only rows of the table, and
    its verdict is whether everything is equal. *)
Lemma verify_rows_wp (row : Z -> A -> A -> string -> line) after : forall values i allMatch (s : S) Q,
  0 <= i -> i + len values <= len after ->
  (forall out, Forall (fun l => exists i v r m, l = row i v r m) out ->
     Q (allMatch && bool_decide (take (length values) (drop (Z.to_nat i) after) = values)) s out) ->
  wp (verify_rows row i values after allMatch) s Q.
Proof.
  induction values as [|v values IH]; intros i allMatch s Q Hi Hl HQ.
  - specialize (HQ [] (Forall_nil_2 _)). cbn [take length] in HQ. rewrite bool_decide_true, andb_true_r in HQ by done.
    exact HQ.
  - pose proof (len_nonneg values) as Hn. rewrite len_cons in Hl. cbn [verify_rows].
    destruct (go_index_in after i) as (r & Hr & Hg); [lia|].
    eapply wp_bind, wp_eval; [exact Hg|]. apply wp_bind, wp_emit. apply IH; [lia|lia|].
    intros out Hout. specialize (HQ (row i v r (if bool_decide (r = v) then "OK" else "MISMATCH") :: out)).
    rewrite (drop_S _ _ _ Hr) in HQ. replace (Z.to_nat (i + 1)) with (Datatypes.S (Z.to_nat i)) by lia.
    cbn [take length] in HQ. match goal with |- Q ?b _ _ => replace b with
      (allMatch && bool_decide (r :: take (length values) (drop (Datatypes.S (Z.to_nat i)) after) = v :: values)) end.
    + apply HQ. constructor; [by eauto|done].
    + destruct (decide (r = v)) as [->|Hne].
      * rewrite (bool_decide_true (v = v)) by done. rewrite (bool_decide_ext (take _ _ = values) (v :: take (length values) (drop (Datatypes.S (Z.to_nat i)) after) = v :: values)); [done|]. split; congruence.
      * rewrite (bool_decide_false (r = v)) by done. rewrite (bool_decide_false (r :: _ = _)) by congruence.
        by rewrite andb_false_r.
Qed.

(** A slice as long as the values is compared as a whole. *)
Lemma verify_whole (row : Z -> A -> A -> string -> line) values after (s : S) Q :
  len after = len values ->
  (forall out, Forall (fun l => exists i v r m, l = row i v r m) out -> Q (bool_decide (after = values)) s out) ->
  wp (verify_rows row 0 values after true) s Q.
Proof.
  intros Hl HQ. apply verify_rows_wp; [lia|lia|]. intros out Hout. specialize (HQ out Hout).
  rewrite drop_0, andb_true_l, take_ge by (unfold len in Hl; lia). exact HQ.
Qed.
End Verify.

(** ** More operations of the client over a link to a device *)
Section DeviceOps.
Context {C T : Type} `{DeviceLink C T}.
Variable c : Client.
Variable now : Z.
Hypothesis retries_ok : 0 <= retries c.

Lemma WriteSingleCoil_device a v t : is_u16 a -> link_ok t ->
  exists t', Client_WriteSingleCoil c now a v t = (Ok tt, t') /\
    link_ok t' /\ device t' ≡ write_coils (device t) a [v].
Proof.
  intros Ha Ht. destruct (client_op c now retries_ok (OpWriteSingleCoil a v)
    (fun r => x ← pure (ParseWriteSingleCoilResponse (Data (resp_PDU r)));
              match x.2 with Some err => pure (Err err) | None => mret tt end) t)
    as (resp & t' & E & Hp & Ht' & He); [done|done|].
  exists t'. split; [|done]. etransitivity; [exact E|]. cbn [parse] in Hp.
  destruct (ParseWriteSingleCoilResponse _) as [[[a' v'] err]| |]; try done.
  revert Hp. go_bind. by destruct err.
Qed.
Lemma WriteMultipleCoils_device a vs t : is_u16 a -> 0 < len vs <= MaxWriteCoilCount -> link_ok t ->
  exists t', Client_WriteMultipleCoils c now a vs t = (Ok tt, t') /\
    link_ok t' /\ device t' ≡ write_coils (device t) a vs.
Proof.
  intros Ha Hl Ht. destruct (client_op c now retries_ok (OpWriteMultipleCoils a vs)
    (fun r => _ ← pure (ParseWriteMultipleCoilsResponse (Data (resp_PDU r))); mret tt) t)
    as (resp & t' & E & Hp & Ht' & He); [done|done|].
  exists t'. split; [|done]. etransitivity; [exact E|]. cbn [parse] in Hp.
  by destruct (ParseWriteMultipleCoilsResponse _).
Qed.
Lemma ReadWrite_device ra rq wa vs t :
  is_u16 ra -> 0 < rq <= MaxReadWriteReadCount -> is_u16 wa -> 0 < len vs <= MaxReadWriteWriteCount ->
  Forall is_u16 vs -> link_ok t ->
  exists t', Client_ReadWriteMultipleRegisters c now ra rq wa vs t =
      (Ok (cells (write_cells (holding (device t)) wa vs) ra rq), t') /\
    link_ok t' /\ device t' ≡ write_holding (device t) wa vs.
Proof.
  intros Hra Hrq Hwa Hl Hvs Ht. destruct (client_op c now retries_ok (OpReadWriteMultipleRegisters ra rq wa vs)
    (fun r => pure (ParseReadWriteMultipleRegistersResponse (Data (resp_PDU r)) rq)) t)
    as (resp & t' & E & Hp & Ht' & He); [done|done|].
  exists t'. split; [|done]. etransitivity; [exact E|]. cbn [parse answer] in Hp.
  unfold pure. destruct (ParseReadWriteMultipleRegistersResponse _ rq); cbn in Hp; simplify_eq.
  f_equal. f_equal. apply cells_ext. intros x Hx. by apply (He x Hx).
Qed.

(** Reading back what was written. *)
Lemma coils_read_back a vs t t1 : is_u16 a -> 0 < len vs <= MaxWriteCoilCount -> link_ok t1 ->
  device t1 ≡ write_coils (device t) a vs ->
  exists t2, Client_ReadCoils c now a (len vs) t1 = (Ok vs, t2) /\ link_ok t2 /\ device t2 ≡ device t1.
Proof.
  intros Ha Hl Ht Hd. unfold MaxWriteCoilCount in Hl.
  destruct (ReadCoils_device c now retries_ok a (len vs) t1) as (t2 & E & H2 & Hd2);
    [done|unfold MaxCoilCount; lia|done|].
  exists t2. split; [|done]. rewrite E. do 2 f_equal.
  rewrite (cells_ext _ (write_cells (coil (device t)) a vs)) by (intros x Hx; apply (Hd x Hx)).
  apply cells_write_same. lia.
Qed.
Lemma registers_read_back a vs t t1 : is_u16 a -> 0 < len vs <= MaxWriteRegisterCount -> link_ok t1 ->
  device t1 ≡ write_holding (device t) a vs ->
  exists t2, Client_ReadHoldingRegisters c now a (len vs) t1 = (Ok vs, t2) /\ link_ok t2 /\ device t2 ≡ device t1.
Proof.
  intros Ha Hl Ht Hd. unfold MaxWriteRegisterCount in Hl.
  destruct (ReadHoldingRegisters_device c now retries_ok a (len vs) t1) as (t2 & E & H2 & Hd2);
    [done|unfold MaxRegisterCount; lia|done|].
  exists t2. split; [|done]. rewrite E. do 2 f_equal.
  rewrite (cells_ext _ (write_cells (holding (device t)) a vs)) by (intros x Hx; apply (Hd x Hx)).
  apply cells_write_same. lia.
Qed.
End DeviceOps.

(** Find a line in what was printed: it is after everything unknown. *)
Ltac printed := repeat first [apply list_elem_of_here | apply list_elem_of_further | apply elem_of_app; right].
(** One call of the client, whose result is known. *)
Ltac wp_known E := apply wp_bind; eapply wp_call; [exact E|].

(** ** From the command line to the device and back *)
Section Programs.
Context {C T : Type} `{DeviceLink C T}.
(** Closing the connection leaves the device alone. *)
Hypothesis close_quiet : forall t, device (close_client t) = device t.
Variable now : Z.

Lemma connected_wp addr port uid (body : Client -> Prog T unit) t Q : link_ok t ->
  wp (body (mkClientCfg (u8 uid) 2)) t (fun a t' out => forall pre, Q a (close_client t') (pre ++ out)) ->
  wp (connected addr port uid body) t Q.
Proof.
  intros Ht Hb. unfold connected. destruct (link_conn t Ht) as [conn Hc]. wp_print.
  apply wp_bind. eapply wp_call.
  { unfold Client_Connect. rewrite Hc. reflexivity. }
  apply wp_deferred. wp_print. eapply wp_conseq; [exact Hb|]. cbn beta. intros a t' out HQ.
  apply (HQ [_; _; _]).
Qed.

Lemma writeMultipleCoils_wp (c : Client) a vs t Q : 0 <= retries c -> is_u16 a ->
  0 < len vs <= MaxWriteCoilCount -> link_ok t ->
  (forall t' pre, device t' ≡ write_coils (device t) a vs ->
     Q tt t' (pre ++ [Printedln Stdout "  Verification: PASS -- all coils match."])) ->
  wp (WriteCoils.writeMultipleCoils now c a vs) t Q.
Proof.
  intros Hr Ha Hl Ht HQ. assert (u16 (len vs) = len vs) as Eq.
  { apply u16_small. unfold is_u16, MaxWriteCoilCount in *. lia. }
  destruct (ReadCoils_device c now Hr a (len vs) t) as (t1 & E1 & K1 & D1);
    [done|unfold MaxWriteCoilCount, MaxCoilCount in *; lia|done|].
  destruct (WriteMultipleCoils_device c now Hr a vs t1) as (t2 & E2 & K2 & D2); [done..|].
  destruct (coils_read_back c now Hr a vs t1 t2) as (t3 & E3 & K3 & D3); [done..|].
  unfold WriteCoils.writeMultipleCoils. rewrite Eq. wp_print.
  apply wp_bind. eapply (wp_conseq _ _ (fun _ s _ => s = t)).
  { apply wp_each_quiet. intros i v. unfold WriteCoils.print_value. apply wp_bind. by destruct (0 <? i), v. }
  intros [] s out1 ->. wp_print. wp_known E1. apply wp_bind. wp_print. apply wp_each_emit. wp_print.
  wp_known E2. wp_print. wp_known E3. wp_print. apply wp_bind. unfold WriteCoils.verify.
  apply verify_whole; [done|]. intros out2 _. rewrite bool_decide_true by done. wp_print. apply wp_emit.
  rewrite ?app_assoc. apply HQ. by rewrite D3, D2, D1.
Qed.

Lemma writeMultipleRegisters_wp (c : Client) a vs t Q : 0 <= retries c -> is_u16 a ->
  0 < len vs <= MaxWriteRegisterCount -> Forall is_u16 vs -> link_ok t ->
  (forall t' pre, device t' ≡ write_holding (device t) a vs ->
     Q tt t' (pre ++ [Printedln Stdout "  Verification: PASS -- all values match."])) ->
  wp (WriteRegisters.writeMultipleRegisters now c a vs) t Q.
Proof.
  intros Hr Ha Hl Hvs Ht HQ. assert (u16 (len vs) = len vs) as Eq.
  { apply u16_small. unfold is_u16, MaxWriteRegisterCount in *. lia. }
  destruct (ReadHoldingRegisters_device c now Hr a (len vs) t) as (t1 & E1 & K1 & D1);
    [done|unfold MaxWriteRegisterCount, MaxRegisterCount in *; lia|done|].
  destruct (WriteMultipleRegisters_device c now Hr a vs t1) as (t2 & E2 & K2 & D2); [done..|].
  destruct (registers_read_back c now Hr a vs t1 t2) as (t3 & E3 & K3 & D3); [done..|].
  unfold WriteRegisters.writeMultipleRegisters. rewrite Eq. wp_print.
  apply wp_bind. eapply (wp_conseq _ _ (fun _ s _ => s = t)).
  { apply wp_each_quiet. intros i v. unfold WriteRegisters.print_value. apply wp_bind. by destruct (0 <? i). }
  intros [] s out1 ->. wp_print. wp_known E1. apply wp_bind. wp_print. apply wp_each_emit. wp_print.
  wp_known E2. wp_print. wp_known E3. wp_print. apply wp_bind. unfold WriteRegisters.verify.
  apply verify_whole; [done|]. intros out2 _. rewrite bool_decide_true by done. wp_print. apply wp_emit.
  rewrite ?app_assoc. apply HQ. by rewrite D3, D2, D1.
Qed.

(** Coils typed as digits separated by commas: the program returns, the device's
    coils are what was typed and nothing else has changed, and the program says
    so. *)
Theorem write_coils_verified addr port uid address vs t :
  vs <> [] -> len vs <= MaxWriteCoilCount -> link_ok t ->
  wp (WriteCoils.main now addr port uid address [] (join_comma (map coil_digit vs))) t
    (fun _ t' out => device t' ≡ write_coils (device t) (u16 address) vs /\
       Printedln Stdout "  Verification: PASS -- all coils match." ∈ out).
Proof.
  intros Hne Hl Ht. pose proof (len_pos vs Hne) as Hpos.
  assert (join_comma (map coil_digit vs) <> []) as Hj.
  { destruct vs as [|v [|v' vs]]; [done|by destruct v|]. cbn. by destruct v. }
  unfold WriteCoils.main. rewrite (bool_decide_false (join_comma _ = [])), (bool_decide_true ([] = [])) by done.
  cbn [andb negb]. apply wp_bind, wp_ret, wp_bind. unfold WriteCoils.parse_multi. apply wp_bind.
  apply (parse_list_ok _ _ _ vs); [by apply coils_text|].
  destruct (Z.eqb_spec (len vs) 0); [lia|]. destruct (Z.ltb_spec MaxWriteCoilCount (len vs)); [lia|]. apply wp_ret.
  apply connected_wp; [done|]. apply wp_bind. apply writeMultipleCoils_wp; [done|apply u16_range|lia|done|].
  intros t' pre Hd. wp_print. apply wp_emit. intros pre'. rewrite close_quiet. split; [done|]. rewrite <-!app_assoc. printed.
Qed.

(** Registers typed in decimal, likewise. *)
Theorem write_registers_verified addr port uid address value vs t :
  vs <> [] -> len vs <= MaxWriteRegisterCount -> Forall is_u16 vs -> link_ok t ->
  wp (WriteRegisters.main now addr port uid address value (join_comma (map itoa vs))) t
    (fun _ t' out => device t' ≡ write_holding (device t) (u16 address) vs /\
       Printedln Stdout "  Verification: PASS -- all values match." ∈ out).
Proof.
  intros Hne Hl Hvs Ht.
  pose proof (len_pos vs Hne) as Hpos. pose proof (registers_text_nonempty vs Hne Hvs) as Hj.
  unfold WriteRegisters.main. rewrite (bool_decide_false (join_comma _ = [])) by done.
  rewrite andb_false_r. cbn [negb]. apply wp_bind. unfold WriteRegisters.parse_multi. apply wp_bind.
  apply (parse_list_ok _ _ _ vs); [by apply registers_text|].
  destruct (Z.eqb_spec (len vs) 0); [lia|]. destruct (Z.ltb_spec MaxWriteRegisterCount (len vs)); [lia|]. apply wp_ret.
  apply connected_wp; [done|]. apply wp_bind. apply writeMultipleRegisters_wp; [done|apply u16_range|lia|done|done|].
  intros t' pre Hd. wp_print. apply wp_emit. intros pre'. rewrite close_quiet. split; [done|]. rewrite <-!app_assoc. printed.
Qed.

(** A single value is taken modulo 65536, whatever the flag's help says, and the
    program confirms the value it wrote. *)
Theorem write_register_wraps addr port uid address value t :
  0 <= value -> link_ok t ->
  wp (WriteRegisters.main now addr port uid address value []) t
    (fun _ t' out => device t' ≡ write_holding (device t) (u16 address) [u16 value] /\
       Printedln Stdout "  Verification: PASS -- read-back matches written value." ∈ out).
Proof.
  intros Hv Ht. unfold WriteRegisters.main. destruct (Z.ltb_spec value 0); [lia|]. cbn [andb negb].
  rewrite (bool_decide_true ([] = [])) by done. apply wp_bind, wp_ret. apply connected_wp; [done|].
  set (c := mkClientCfg (u8 uid) 2). assert (0 <= retries c) as Hr by done. set (a := u16 address).
  assert (is_u16 a) as Ha by apply u16_range. pose proof (u16_range value) as Hu. set (v := u16 value) in *.
  destruct (ReadHoldingRegisters_device c now Hr a 1 t) as (t1 & E1 & K1 & D1); [done|done|done|].
  destruct (WriteSingleRegister_device c now Hr a v t1) as (t2 & E2 & K2 & D2); [done..|].
  destruct (registers_read_back c now Hr a [v] t1 t2) as (t3 & E3 & K3 & D3); [done..|].
  cbn [negb]. apply wp_bind. unfold WriteRegisters.writeSingleRegister. wp_print. wp_known E1. apply wp_bind, wp_bind.
  eapply wp_eval; [reflexivity|]. apply wp_emit. wp_print. wp_known E2. wp_print. wp_known E3.
  apply wp_bind. eapply wp_eval; [reflexivity|]. wp_print. rewrite Z.eqb_refl. apply wp_emit. wp_print. apply wp_emit.
  intros pre. rewrite close_quiet. split; [by rewrite D3, D2, D1|]. cbn [app]. printed.
Qed.

(** The combined operation writes first: the results shown are the device's
    registers after the write, and the write is confirmed. *)
Theorem exchange_reads_written addr port uid ra rc wa vs t :
  1 <= rc <= MaxReadWriteReadCount -> vs <> [] -> len vs <= MaxReadWriteWriteCount -> Forall is_u16 vs -> link_ok t ->
  wp (ReadWriteRegisters.main now addr port uid ra rc wa (join_comma (map itoa vs))) t
    (fun _ t' out => device t' ≡ write_holding (device t) (u16 wa) vs /\
       Printedln Stdout "  Verification: PASS -- all written values confirmed." ∈ out /\
       forall k v, cells (write_cells (holding (device t)) (u16 wa) vs) (u16 ra) rc !! k = Some v ->
         ReadWriteRegisters.result_row ra (Z.of_nat k) v ∈ out).
Proof.
  intros Hrc Hne Hl Hvs Ht. unfold MaxReadWriteReadCount, MaxReadWriteWriteCount in *.
  pose proof (len_pos vs Hne) as Hpos. pose proof (registers_text_nonempty vs Hne Hvs) as Hj.
  unfold ReadWriteRegisters.main. replace ((rc <? 1) || (MaxReadWriteReadCount <? rc)) with false
    by (unfold MaxReadWriteReadCount; lia).
  rewrite (bool_decide_false (join_comma _ = [])) by done. apply wp_bind.
  apply (parse_list_ok _ _ _ vs); [by apply registers_text|].
  destruct (Z.eqb_spec (len vs) 0); [lia|]. destruct (Z.ltb_spec MaxReadWriteWriteCount (len vs)) as [Hx|_];
    [unfold MaxReadWriteWriteCount in Hx; lia|].
  apply connected_wp; [done|]. set (c := mkClientCfg (u8 uid) 2). assert (0 <= retries c) as Hr by done.
  assert (u16 rc = rc /\ u16 (len vs) = len vs) as [Er El] by (split; apply u16_small; unfold is_u16; lia).
  pose proof (u16_range ra) as Hra. pose proof (u16_range wa) as Hwa.
  destruct (ReadHoldingRegisters_device c now Hr (u16 wa) (len vs) t) as (t1 & E1 & K1 & D1);
    [done|unfold MaxRegisterCount; lia|done|].
  destruct (ReadHoldingRegisters_device c now Hr (u16 ra) rc t1) as (t2 & E2 & K2 & D2);
    [done|unfold MaxRegisterCount; lia|done|].
  destruct (ReadWrite_device c now Hr (u16 ra) rc (u16 wa) vs t2) as (t3 & E3 & K3 & D3);
    [done|unfold MaxReadWriteReadCount; lia|done|unfold MaxReadWriteWriteCount; lia|done|done|].
  destruct (registers_read_back c now Hr (u16 wa) vs t2 t3) as (t4 & E4 & K4 & D4);
    [done|unfold MaxWriteRegisterCount; lia|done|done|].
  unfold ReadWriteRegisters.exchange, ReadWriteRegisters.show_current, ReadWriteRegisters.verify_write. rewrite Er, El.
  wp_print. apply wp_bind. eapply (wp_conseq _ _ (fun _ s _ => s = t)).
  { apply wp_each_quiet. intros i v. unfold ReadWriteRegisters.print_value. apply wp_bind. by destruct (0 <? i). }
  intros [] s out1 ->. wp_print. apply wp_bind. wp_known E1. apply wp_each_emit. wp_print. apply wp_bind. wp_known E2.
  apply wp_each_emit. wp_print. wp_known E3. wp_print. apply wp_bind, wp_each_emit. wp_print. apply wp_bind.
  wp_known E4. wp_print. apply wp_bind. unfold ReadWriteRegisters.verify. apply verify_whole; [done|]. intros out2 _.
  rewrite bool_decide_true by done. wp_print. apply wp_emit. intros pre.
  rewrite close_quiet. split_and!; [by rewrite D4, D3, D2, D1|cbn [app]; rewrite <-?app_assoc; printed|].
  intros k v Hk. assert (forall x, is_u16 x -> holding (device t2) x = holding (device t) x) as Hsame.
  { intros x Hx. transitivity (holding (device t1) x); [by apply (D2 x Hx)|by apply (D1 x Hx)]. }
  rewrite (cells_ext _ (write_cells (holding (device t2)) (u16 wa) vs)) in Hk
    by (intros x Hx; unfold write_cells; by rewrite Hsame).
  assert (ReadWriteRegisters.result_row ra (Z.of_nat k) v ∈
    imap (fun k x => ReadWriteRegisters.result_row ra (0 + Z.of_nat k) x)
      (cells (write_cells (holding (device t2)) (u16 wa) vs) (u16 ra) rc)) as Hin.
  { apply elem_of_lookup_imap. exists k, v. by rewrite Z.add_0_l. }
  repeat first [apply elem_of_app; left; exact Hin | apply list_elem_of_further | apply elem_of_app; right].
Qed.
End Programs.

(** ** A confirmation can be trusted

    Over any link, whatever it answers. *)
Section Verdict.
Context {C T : Type} `{Transport C T} `{Link C T}.
Variables (c : Client) (now : Z).

Lemma mapO_length {A B} (f : A -> outcome B) l : forall r, mapO f l = Ok r -> length r = length l.
Proof.
  induction l as [|x l IH]; intros r E; cbn in E; [by simplify_eq|].
  apply bind_Ok in E as (y & _ & E). apply bind_Ok in E as (ys & Hys & E). simplify_eq. cbn. f_equal. by apply IH.
Qed.
(** A successful read returns as many values as were asked for. *)
Lemma registers_read_length a q t regs t' : 0 <= q ->
  Client_ReadHoldingRegisters c now a q t = (Ok regs, t') -> len regs = q.
Proof.
  intros Hq E. unfold Client_ReadHoldingRegisters in E. unfold mbind, SM_bind, pure in E.
  destruct (GenerateReadHoldingRegistersRequest a q); [|done..].
  destruct (send c now FuncReadHoldingRegisters _ t) as [[resp| |] t1]; [|done..].
  injection E as E _. unfold ParseReadHoldingRegistersResponse in E. apply bind_Ok in E as (vs & E & Ev).
  injection Ev as <-. unfold parseRegisterResponse in E. destruct (len _ =? 0); [done|].
  apply bind_Ok in E as (n & _ & E). destruct (negb _); [done|]. destruct (negb _); [done|].
  apply mapO_length in E. unfold len. rewrite length_map, E. unfold iota. rewrite length_map, length_seq. lia.
Qed.

Lemma handle_silent op e text (t : T) : Printedln Stdout text ∉ output (WriteRegisters.handleError op e) t.
Proof.
  unfold WriteRegisters.handleError. intros Hp. destruct (IsModbusError e); [|not_printed Hp].
  next_statement Hp. apply output_bind in Hp as [Hp|(? & ? & ? & _ & Hp)]; destruct (IsExceptionError _ _); not_printed Hp.
Qed.

(** The program says that all values match only if the device acknowledged the
    write of exactly these values and a read that followed returned them. *)
Theorem verdict_sound a vs t : len vs <= MaxWriteRegisterCount ->
  Printedln Stdout "  Verification: PASS -- all values match." ∈
    output (WriteRegisters.writeMultipleRegisters now c a vs) t ->
  exists t1 t2 t3, Client_WriteMultipleRegisters c now a vs t1 = (Ok tt, t2) /\
    Client_ReadHoldingRegisters c now a (len vs) t2 = (Ok vs, t3).
Proof.
  intros Hl Hp. pose proof (len_nonneg vs) as Hn. unfold WriteRegisters.writeMultipleRegisters in Hp.
  rewrite u16_small in Hp by (unfold is_u16, MaxWriteRegisterCount in *; lia).
  do 3 next_statement Hp. apply output_bind in Hp as [Hp|(? & ? & ? & _ & Hp)].
  { apply output_each in Hp as (i & v & s & Hp). apply output_bind in Hp as [Hp|(? & ? & ? & _ & Hp)];
      [destruct (0 <? i)|]; not_printed Hp. }
  do 4 next_statement Hp. apply output_bind in Hp as [Hp|(? & ? & ? & _ & Hp)].
  { match goal with r : error + list Z |- _ => destruct r as [?|before] end; [not_printed Hp|].
    do 2 next_statement Hp. apply output_each in Hp as (i & v & s & Hp). not_printed Hp. }
  do 2 next_statement Hp. apply output_bind in Hp as [Hp|(r & t2 & ? & Ew & Hp)]; [not_printed Hp|].
  match type of Ew with _ ?t1 = _ => exists t1, t2 end. apply call_returned in Ew.
  destruct r as [e|[]]; [exfalso; by eapply handle_silent|].
  do 3 (apply output_bind in Hp as [Hp|(? & ? & ? & <-%emit_returned & Hp)]; [not_printed Hp|]).
  apply output_bind in Hp as [Hp|(r & t3 & ? & Er & Hp)]; [not_printed Hp|].
  apply call_returned in Er. destruct r as [e|after]; [exfalso; by eapply handle_silent|]. exists t3. split; [done|].
  do 2 next_statement Hp. apply registers_read_length in Er as Ha; [|done].
  assert (forall s : T, wp (WriteRegisters.verify a vs after) s (fun b _ out => b = bool_decide (after = vs) /\
    Printedln Stdout "  Verification: PASS -- all values match." ∉ out)) as Hv.
  { intros s. apply verify_whole; [done|]. intros out Hout. split; [done|]. intros Hin.
    rewrite Forall_forall in Hout. by destruct (Hout _ Hin) as (? & ? & ? & ? & [=]). }
  apply output_bind in Hp as [Hp|(b & t4 & out & Ev & Hp)].
  - exfalso. revert Hp. match goal with |- context [output _ ?s] => by destruct (wp_output _ _ _ _ (Hv s)) as [_ ?] end.
  - match type of Ev with _ ?s = _ => specialize (Hv s) end. unfold wp in Hv. rewrite Ev in Hv.
    destruct Hv as [-> _]. next_statement Hp. case_bool_decide; [by subst|]. not_printed Hp.
Qed.
End Verdict.

(** ** The bit-level view of [read_coils] *)
Lemma lor_next_bit acc j : 0 <= j -> 0 <= acc < 2 ^ j -> Z.lor acc (2 ^ j) = acc + 2 ^ j.
Proof.
  intros Hj Ha. rewrite <-Z.add_lor_land. enough (Z.land acc (2 ^ j) = 0) by lia.
  apply Z.bits_inj'. intros i Hi. rewrite Z.land_spec, Z.pow2_bits_eqb, Z.bits_0 by lia.
  destruct (Z.eqb_spec j i) as [<-|]; [|by rewrite andb_false_r].
  destruct (Z.eq_dec acc 0) as [->|]; [by rewrite Z.bits_0|].
  rewrite (Z.bits_above_log2 acc j); [done|lia|]. apply Z.log2_lt_pow2; lia.
Qed.

(** The loop over the bits of a byte computes the packed byte. *)
Lemma byte_of_spec bs : forall pre post sb j acc, len pre = sb + j -> 0 <= j -> j + len bs <= 8 -> 0 <= acc < 2 ^ j ->
  ReadCoils.byte_of (length bs) sb (sb + j) (pre ++ bs ++ post) acc = Ok (acc + 2 ^ j * byte_of_bits bs).
Proof.
  induction bs as [|b bs IH]; intros pre post sb j acc Hl Hj H8 Ha; cbn [length ReadCoils.byte_of byte_of_bits].
  { f_equal. lia. }
  rewrite len_cons in H8. pose proof (len_nonneg bs).
  change (pre ++ (b :: bs) ++ post) with (pre ++ [b] ++ (bs ++ post)).
  rewrite go_index_mid by lia. go_bind. replace (sb + j - sb) with j by lia.
  assert (2 ^ (j + 1) = 2 * 2 ^ j) as Hp by (rewrite Z.pow_add_r; lia).
  assert (u8 (Z.shiftl 1 j) = 2 ^ j) as Hu.
  { rewrite Z.shiftl_1_l. apply u8_small. unfold is_u8. split; [lia|]. change 256 with (2 ^ 8). apply Z.pow_lt_mono_r; lia. }
  rewrite Hu, lor_next_bit by lia. replace (sb + j + 1) with (sb + (j + 1)) by lia.
  replace (pre ++ [b] ++ bs ++ post) with ((pre ++ [b]) ++ bs ++ post) by by rewrite <-app_assoc.
  rewrite IH; [destruct b; f_equal; cbn; lia|rewrite len_app; change (len [b]) with 1; lia|lia|lia|destruct b; lia].
Qed.

Definition wire_row (startAddress : Z) (values : list bool) (k : nat) (b : Z) : line :=
  let endBit := Z.min (len values) (Z.of_nat k * 8 + 8) in
  Printed Stdout "  Byte %2d (addr %d-%d): %s = 0x%02X\n"
    [AInt (Z.of_nat k); AInt (startAddress + Z.of_nat k * 8); AInt (startAddress + endBit - 1);
     AStr (ReadCoils.bit_text (Z.of_nat k * 8) b (len values)); AInt b].
Lemma byte_row_spec a values k b : bits_to_bytes values !! k = Some b ->
  ReadCoils.byte_row a (Z.of_nat k) values = Ok (wire_row a values k b).
Proof.
  intros Hb. assert (Z.of_nat k * 8 < len values) as Hk.
  { apply lookup_lt_Some in Hb. rewrite length_bits_to_bytes in Hb. unfold ceil8 in Hb. dlia. }
  unfold bits_to_bytes in Hb. rewrite list_lookup_fmap in Hb. apply fmap_Some in Hb as (k' & Hk' & ->).
  apply lookup_seq in Hk' as [-> _]. cbn [Nat.add]. unfold ReadCoils.byte_row, wire_row.
  set (sb := Z.of_nat k * 8). set (e := if len values <? sb + 8 then len values else sb + 8).
  assert (e = Z.min (len values) (sb + 8)) as -> by (unfold e; destruct (Z.ltb_spec (len values) (sb + 8)); lia).
  set (bs := take 8 (drop (8 * k) values)).
  assert (len bs = Z.min (len values) (sb + 8) - sb) as Hlb.
  { unfold bs, len. rewrite length_take, length_drop. unfold len in *. lia. }
  assert (values = take (8 * k) values ++ bs ++ drop 8 (drop (8 * k) values)) as Ev.
  { unfold bs. by rewrite take_drop, take_drop. }
  replace (Z.to_nat _) with (length bs) by (unfold len in *; lia).
  pose proof (byte_of_spec bs (take (8 * k) values) (drop 8 (drop (8 * k) values)) sb 0 0) as Hs.
  rewrite Z.add_0_r, <-Ev in Hs. rewrite Hs; [|unfold len; rewrite length_take; unfold len in *; lia|lia|lia|cbn; lia].
  go_bind. cbn [Z.pow Z.pow_pos Pos.iter]. rewrite Z.mul_1_l. done.
Qed.

Section Display.
Context {C T : Type} `{DeviceLink C T}.
Variable now : Z.

Lemma byte_rows_spec a values : forall rest k fuel (t : T) Q,
  drop k (bits_to_bytes values) = rest -> (length rest < fuel)%nat ->
  Q tt t (imap (fun j b => wire_row a values (k + j) b) rest) ->
  wp (ReadCoils.byte_rows fuel a (Z.of_nat k) values) t Q.
Proof.
  induction rest as [|b rest IH]; intros k fuel t Q Hd Hf HQ; (destruct fuel as [|fuel]; [lia|]); cbn [ReadCoils.byte_rows].
  - destruct (Z.ltb_spec (Z.of_nat k * 8) (len values)); [|exact HQ]. exfalso.
    apply (f_equal length) in Hd. rewrite length_drop, length_bits_to_bytes in Hd. unfold ceil8 in Hd. cbn in Hd. dlia.
  - assert (bits_to_bytes values !! k = Some b) as Hb.
    { rewrite <-(Nat.add_0_r k), <-lookup_drop, Hd. done. }
    pose proof (byte_row_spec a values k b Hb) as Hr. destruct (Z.ltb_spec (Z.of_nat k * 8) (len values)) as [_|Hge].
    2:{ exfalso. apply lookup_lt_Some in Hb. rewrite length_bits_to_bytes in Hb. unfold ceil8 in Hb. dlia. }
    eapply wp_bind, wp_eval; [exact Hr|]. apply wp_bind, wp_emit.
    replace (Z.of_nat k + 1) with (Z.of_nat (S k)) by lia. eapply IH; [|cbn in Hf; lia|].
    + change rest with (drop 1 (b :: rest)). rewrite <-Hd, drop_drop. f_equal. lia.
    + cbn [imap app] in HQ |- *. rewrite Nat.add_0_r in HQ. revert HQ.
      match goal with |- Q _ _ (_ :: ?x) -> Q _ _ (_ :: ?y) => replace y with x; [done|] end.
      apply imap_ext. intros j x _. cbn. f_equal. lia.
Qed.

(** Reading coils shows every coil the device holds, and the bit-level view shows
    exactly the bytes of the wire format. *)
Theorem coils_shown (c : Client) a q t :
  0 <= retries c -> is_u16 a -> 0 < q <= MaxCoilCount -> link_ok t ->
  wp (ReadCoils.readCoils now c a q) t (fun _ t' out => device t' ≡ device t /\
    (forall k v, cells (coil (device t)) a q !! k = Some v -> ReadCoils.state_row a (Z.of_nat k) v ∈ out) /\
    (forall k b, bits_to_bytes (cells (coil (device t)) a q) !! k = Some b ->
       wire_row a (cells (coil (device t)) a q) k b ∈ out)).
Proof.
  intros Hr Ha Hq Ht. destruct (ReadCoils_device c now Hr a q t) as (t1 & E1 & K1 & D1); [done..|].
  set (vs := cells (coil (device t)) a q) in *.
  unfold ReadCoils.readCoils. wp_print. wp_known E1. unfold ReadCoils.displayBoolValues. wp_print.
  apply wp_bind, wp_each_emit. wp_print. apply wp_bind. apply (byte_rows_spec a vs (bits_to_bytes vs) 0); [done| |].
  { rewrite length_bits_to_bytes. unfold ceil8, len. dlia. }
  wp_print. apply wp_emit. split_and!; [done|..]; intros k x Hk.
  - assert (ReadCoils.state_row a (Z.of_nat k) x ∈ imap (fun k v => ReadCoils.state_row a (0 + Z.of_nat k) v) vs) as Hin.
    { apply elem_of_lookup_imap. exists k, x. by rewrite Z.add_0_l. }
    repeat first [apply elem_of_app; left; exact Hin | apply list_elem_of_further | apply elem_of_app; right].
  - assert (wire_row a vs k x ∈ imap (fun j b => wire_row a vs (0 + j) b) (bits_to_bytes vs)) as Hin.
    { apply elem_of_lookup_imap. by exists k, x. }
    repeat first [apply elem_of_app; left; exact Hin | apply list_elem_of_further | apply elem_of_app; right].
Qed.
End Display.
