(* ===== verification/ModbusDemo.v ===== *)
(** * The Modbus demonstration programs

    Models [examples/modbus/server] (the store it is filled with), its counterpart
    [examples/modbus/all_data_types], which runs every operation of the client, and
    the polling loop of [examples/modbus/reconnecting].  The closures of
    [all_data_types] that clear the variable [allOK] return whether they succeeded;
    the polling loop runs on the list of ticks and signals its [select] receives. *)
From S2P Require Import Prelude Bytes ModbusTypes ModbusFrame ModbusProtocol Transport Plc ModbusStore.
From S2P Require Import ModbusHandlers ModbusSpec ModbusClient ModbusNames Pccc Console ModbusTools ModbusToolsOk.
Import Handler.
#[local] Open Scope string_scope.
#[local] Open Scope Z_scope.

(** ** The store of the example server *)
Module DemoServer.
Import Mem.
Definition fill {A} (set : Z -> A -> MemoryStore -> MemoryStore) (vs : list A) (s : MemoryStore) : MemoryStore :=
  fold_left (fun s iv => set iv.1 iv.2 s) (imap (fun i v => (Z.of_nat i, v)) vs) s.
Definition coils_data : list bool := [true; false; true; true; false; true; false; false; true; false].
Definition inputs_data : list bool := [true; true; false; true; false; true; true; false].
Definition holding_data : list Z := [1000; 500; 60; 100; 4000; 2048; 0; 1; 300; 50].
Definition input_data : list Z := [985; 487; 59; 97; 3950; 2100; 24; 1250; 12345; 42].
Definition store : MemoryStore :=
  fill SetInputRegister input_data
    (fill SetHoldingRegister holding_data
      (fill SetDiscreteInput inputs_data (fill SetCoil coils_data NewMemoryStore))).
End DemoServer.

(** A deferred function that reports, closes the client and reports a failure. *)
Definition closing {C T} `{Transport C T} (text : string) (m : Prog T unit) : Prog T unit := fun t =>
  let after out t :=
    match Close t with
    | (Some err, t) => (t, out ++ [Printed Logger text []; Printed Logger "Error closing client: %v" [AErr err]])%list
    | (None, t) => (t, out ++ [Printed Logger text []])%list
    end in
  match m t with
  | (Returned a, t, out) => let '(t, out) := after out t in (Returned a, t, out)
  | (Crashed, t, out) => let '(t, out) := after out t in (Crashed, t, out)
  | r => r
  end.

(** ** all_data_types *)
Module AllDataTypes.
Section Program.
Context {C T : Type} `{Transport C T} `{Link C T}.
Variable now : Z.

(** [strings.Repeat("=", n)]; '=' is 61. *)
Definition Repeat (n : Z) : outcome bytes := if n <? 0 then Panic else Ok (replicate (Z.to_nat n) 61).

Definition printSection (title : string) : Prog T unit :=
  let width := 72 in
  bar ← eval (Repeat width);
  _ ← printf "%s\n" [AStr bar];
  let padding := Z.quot (width - len (str title) - 2) 2 in
  let padding := if padding <? 0 then 0 else padding in
  left ← eval (Repeat padding);
  right ← eval (Repeat (width - padding - len (str title) - 2));
  _ ← printf "%s %s %s\n" [AStr left; AText title; AStr right];
  _ ← printf "%s\n" [AStr bar];
  println "".
Definition printSubsection (title : string) : Prog T unit := printf "--- %s ---\n" [AText title].
(** 91 and 93 are the brackets, 44 and 32 a comma and a space. *)
Definition formatBools (vals : list bool) : bytes :=
  [91] ++ mjoin (imap (fun i v => (if bool_decide (i = 0%nat) then [] else [44; 32]) ++ str (if v : bool then "ON" else "OFF"))%list vals) ++ [93].

(** A closure: its call of the client, and what it prints of the result. *)
Definition try_call {A} (op : SM T A) (show : A -> Prog T unit) : Prog T bool :=
  r ← call op;
  match r with
  | inl err => _ ← printf "  ERROR: %v\n\n" [AErr err]; mret false
  | inr a => _ ← show a; _ ← println ""; mret true
  end.
Definition bit_lines (fmt : string) (vals : list bool) : Prog T unit :=
  each 0 (fun i v => emit (Printed Stdout fmt [AInt i; on_off v])) vals.
Definition reg_lines (fmt : string) (base : Z) (vals : list Z) : Prog T unit :=
  each 0 (fun i v => emit (Printed Stdout fmt [AInt (base + i); AInt v; AInt v])) vals.

Definition coilPattern : list bool := [true; false; true; false; true; true; false; true].
Definition regValues : list Z := [100; 200; 300; 400; 500].
Definition writeVals : list Z := [9999; 8888].

Definition coils_section (c : Client) : Prog T bool :=
  _ ← printSection "COILS (Boolean, Read/Write)";
  _ ← printSubsection "Read Coils (FC 01)";
  _ ← println "Reading 10 coils from address 0...";
  ok1 ← try_call (Client_ReadCoils c now 0 10) (bit_lines "  Coil %d = %s\n");
  _ ← printSubsection "Write Single Coil (FC 05)";
  _ ← println "Writing coil 5 = ON...";
  ok2 ← try_call (Client_WriteSingleCoil c now 5 true) (fun _ => println "  Success: coil 5 is now ON");
  _ ← printSubsection "Write Multiple Coils (FC 0F)";
  _ ← printf "Writing 8 coils starting at address 0: %v\n" [AStr (formatBools coilPattern)];
  ok3 ← try_call (Client_WriteMultipleCoils c now 0 coilPattern) (fun _ => println "  Success: 8 coils written");
  _ ← printSubsection "Verify Coil Writes (FC 01)";
  _ ← println "Reading back 10 coils from address 0 to verify writes...";
  ok4 ← try_call (Client_ReadCoils c now 0 10) (bit_lines "  Coil %d = %s\n");
  mret (ok1 && ok2 && ok3 && ok4).

Definition inputs_section (c : Client) : Prog T bool :=
  _ ← printSection "DISCRETE INPUTS (Boolean, Read-Only)";
  _ ← printSubsection "Read Discrete Inputs (FC 02)";
  _ ← println "Reading 8 discrete inputs from address 0...";
  try_call (Client_ReadDiscreteInputs c now 0 8) (bit_lines "  Discrete Input %d = %s\n").

Definition holding_section (c : Client) : Prog T bool :=
  _ ← printSection "HOLDING REGISTERS (uint16, Read/Write)";
  _ ← printSubsection "Read Holding Registers (FC 03)";
  _ ← println "Reading 10 holding registers from address 0...";
  ok1 ← try_call (Client_ReadHoldingRegisters c now 0 10) (reg_lines "  Holding Register %d = %d (0x%04X)\n" 0);
  _ ← printSubsection "Write Single Register (FC 06)";
  _ ← println "Writing holding register 0 = 42...";
  ok2 ← try_call (Client_WriteSingleRegister c now 0 42) (fun _ => println "  Success: holding register 0 is now 42");
  _ ← printSubsection "Write Multiple Registers (FC 10)";
  _ ← printf "Writing 5 holding registers starting at address 5: %v\n" [AList (map AInt regValues)];
  ok3 ← try_call (Client_WriteMultipleRegisters c now 5 regValues)
          (fun _ => println "  Success: 5 holding registers written");
  _ ← printSubsection "Verify Register Writes (FC 03)";
  _ ← println "Reading back 10 holding registers from address 0 to verify writes...";
  ok4 ← try_call (Client_ReadHoldingRegisters c now 0 10) (reg_lines "  Holding Register %d = %d (0x%04X)\n" 0);
  mret (ok1 && ok2 && ok3 && ok4).

Definition input_section (c : Client) : Prog T bool :=
  _ ← printSection "INPUT REGISTERS (uint16, Read-Only)";
  _ ← printSubsection "Read Input Registers (FC 04)";
  _ ← println "Reading 10 input registers from address 0...";
  try_call (Client_ReadInputRegisters c now 0 10) (reg_lines "  Input Register %d = %d (0x%04X)\n" 0).

Definition exchange_section (c : Client) : Prog T bool :=
  _ ← printSection "READ/WRITE MULTIPLE REGISTERS (FC 17)";
  _ ← printSubsection "ReadWriteMultipleRegisters (FC 17)";
  _ ← println "Simultaneously:";
  _ ← println "  - Reading 3 holding registers from address 0";
  _ ← printf "  - Writing 2 holding registers to address 8: %v\n" [AList (map AInt writeVals)];
  ok1 ← try_call (Client_ReadWriteMultipleRegisters c now 0 3 8 writeVals)
          (fun readBack => _ ← println "  Read result:"; reg_lines "    Holding Register %d = %d (0x%04X)\n" 0 readBack);
  _ ← printSubsection "Verify FC 17 Write (FC 03)";
  _ ← println "Reading holding registers 8-9 to verify FC 17 write...";
  ok2 ← try_call (Client_ReadHoldingRegisters c now 8 2) (reg_lines "  Holding Register %d = %d (0x%04X)\n" 8);
  mret (ok1 && ok2).

(** A Modbus exception is expected here and does not count as a failure. *)
Definition status_section (c : Client) : Prog T bool :=
  _ ← printSection "READ EXCEPTION STATUS (FC 07)";
  _ ← printSubsection "ReadExceptionStatus (FC 07)";
  _ ← println "Reading exception status from server...";
  r ← call (Client_ReadExceptionStatus c now);
  match r with
  | inl err =>
      if IsModbusError err then
        _ ← printf "  Server returned Modbus exception: %v\n" [AErr err];
        _ ← println "  (This is normal - many servers do not implement FC 07)";
        _ ← println "";
        mret true
      else
        _ ← printf "  ERROR: %v\n" [AErr err];
        _ ← println "";
        mret false
  | inr status =>
      _ ← printf "  Exception Status: %s\n" [AText (ExceptionStatus_String status)];
      _ ← printf "  Raw value: 0x%02X (binary: %08b)\n" [AInt status; AInt status];
      _ ← println "";
      mret true
  end.

Definition demonstrations (c : Client) : Prog T unit :=
  _ ← logf "Connected successfully. Running all data type demonstrations.\n" [];
  ok1 ← coils_section c;
  ok2 ← inputs_section c;
  ok3 ← holding_section c;
  ok4 ← input_section c;
  ok5 ← exchange_section c;
  ok6 ← status_section c;
  _ ← printSection "SUMMARY";
  _ ← (if ok1 && ok2 && ok3 && ok4 && ok5 && ok6 then println "All operations completed successfully."
       else println "Some operations failed. Review the output above for ERROR lines.");
  _ ← println "";
  logf "All data type demonstrations complete." [].

Definition main (addr : bytes) (port uid : Z) : Prog T unit :=
  _ ← logf "Connecting to Modbus TCP server at %s:%d (unit %d)" [AStr addr; AInt port; AInt uid];
  r ← call Client_Connect;
  match r with
  | inl err => _ ← logf "Failed to connect: %v" [AErr err]; exit 1
  | inr _ => closing "Disconnecting from server" (demonstrations (mkClientCfg (u8 uid) 0))
  end.
End Program.
End AllDataTypes.

(** ** reconnecting *)
Module Reconnecting.
Inductive event : Type := Tick | Signal.
Section Program.
Context {C T : Type} `{Transport C T} `{Link C T}.
Variable now : Z.

Definition register_row (address i v : Z) : line :=
  Printed Stdout "  Register %d = %d (0x%04X)\n" [AInt (address + i); AInt v; AInt v].

(** One tick of the ticker: the poll of number [n]. *)
Definition poll (c : Client) (address n : Z) : Prog T unit :=
  _ ← logf "[Poll #%d] Reading 5 holding registers from address %d..." [AInt n; AInt address];
  r ← call (Client_ReadHoldingRegisters c now (u16 address) 5);
  match r with
  | inl err =>
      if IsModbusError err then
        _ ← logf "[Poll #%d] Modbus protocol error (will NOT retry): %v" [AInt n; AErr err];
        if IsExceptionError err ExceptionDataAddressNotAvailable then
          _ ← logf "[Poll #%d] The requested address range is not available on the server." [AInt n];
          logf "[Poll #%d] Check that the server has data at address %d." [AInt n; AInt address]
        else mret tt
      else
        _ ← logf "[Poll #%d] Transport error after retries: %v" [AInt n; AErr err];
        logf "[Poll #%d] Will retry on next poll cycle." [AInt n]
  | inr registers =>
      _ ← printf "[Poll #%d] Successfully read 5 holding registers:\n" [AInt n];
      _ ← each 0 (fun i v => emit (register_row address i v)) registers;
      println ""
  end.

(** The loop on the events the [select] receives; a program that is given no
    further event waits. *)
Fixpoint poll_loop (c : Client) (address pollCount : Z) (events : list event) : Prog T unit :=
  match events with
  | [] => fun t => (Waiting, t, [])
  | Signal :: _ => logf "Received signal: %v. Stopping poll loop." []
  | Tick :: events =>
      _ ← poll c address (pollCount + 1);
      poll_loop c address (pollCount + 1) events
  end.

Definition main (addr : bytes) (port uid address : Z) (events : list event) : Prog T unit :=
  _ ← logf "Building reconnecting transport to %s:%d" [AStr addr; AInt port];
  closing "Closing client and transport"
    (_ ← logf "Starting polling loop: reading 5 holding registers from address %d every %s" [AInt address];
     _ ← logf "Press Ctrl+C to stop." [];
     poll_loop (mkClientCfg (u8 uid) 3) address 0 events).
End Program.
End Reconnecting.

(** ** Properties *)
#[local] Open Scope list_scope.
Lemma wp_closing {C T} `{Transport C T} text (m : Prog T unit) t Q :
  wp m t (fun a t' out => forall post, Q a (Close t').2 (out ++ post)) -> wp (closing text m) t Q.
Proof.
  unfold wp, closing. destruct (m t) as [[[a|c| |] t'] out]; try done. intros HQ.
  destruct (Close t') as [[err|] t''] eqn:Ec; specialize (HQ (match (Close t').1 with
    Some err => [Printed Logger text []; Printed Logger "Error closing client: %v" [AErr err]] | None => [Printed Logger text []] end));
    rewrite Ec in HQ; exact HQ.
Qed.

Section Demo.
Context {S : Type} `{DataStoreLaws S}.
#[local] Existing Instance served_transport.
#[local] Existing Instance served_link.
#[local] Existing Instance served_device.
Variable now : Z.

Lemma try_call_wp {A} (op : SM S A) (show : A -> Prog S unit) (t t' : S) a Q :
  op t = (Ok a, t') -> wp (show a) t' (fun _ s _ => s = t') -> (forall out, Q true t' out) ->
  wp (AllDataTypes.try_call op show) t Q.
Proof.
  intros E Hs HQ. unfold AllDataTypes.try_call. apply wp_bind. eapply wp_call; [exact E|]. apply wp_bind.
  eapply wp_conseq; [exact Hs|]. intros [] s out ->. wp_print. apply wp_ret. apply HQ.
Qed.
Lemma bit_lines_quiet fmt vals (t : S) : wp (AllDataTypes.bit_lines fmt vals) t (fun _ s _ => s = t).
Proof. by apply wp_each_emit. Qed.
Lemma reg_lines_quiet fmt base vals (t : S) : wp (AllDataTypes.reg_lines fmt base vals) t (fun _ s _ => s = t).
Proof. by apply wp_each_emit. Qed.
Lemma section_quiet title (t : S) Q : len (str title) <= 70 -> (forall out, Q tt t out) ->
  wp (AllDataTypes.printSection title) t Q.
Proof.
  intros Hl HQ. pose proof (len_nonneg (str title)) as Hn. unfold AllDataTypes.printSection, AllDataTypes.Repeat.
  rewrite Z.quot_div_nonneg by lia. destruct (Z.ltb_spec ((72 - len (str title) - 2) / 2) 0); [dlia|].
  apply wp_bind. eapply wp_eval; [reflexivity|]. wp_print. apply wp_bind.
  destruct (Z.ltb_spec ((72 - len (str title) - 2) / 2) 0); [dlia|]. eapply wp_eval; [reflexivity|].
  apply wp_bind. destruct (Z.ltb_spec (72 - (72 - len (str title) - 2) / 2 - len (str title) - 2) 0); [dlia|].
  eapply wp_eval; [reflexivity|]. wp_print. apply wp_emit. apply HQ.
Qed.

(** A closure of the demonstration that succeeds; then go on. *)
Ltac demo_call E quiet := apply wp_bind; eapply try_call_wp; [exact E|quiet|]; intros ?; wp_print.
Ltac demo_section := apply wp_bind, section_quiet; [by vm_compute|]; intros ?; wp_print.
Ltac says := by apply wp_emit.

Variable c : Client.
Hypothesis retries_ok : 0 <= retries c.

Lemma coils_section_wp t : store_ok t ->
  wp (AllDataTypes.coils_section now c) t (fun b t' _ => b = true /\ store_ok t' /\
    view t' ≡ write_coils (write_coils (view t) 5 [true]) 0 AllDataTypes.coilPattern).
Proof.
  intros Ht. destruct (ReadCoils_device c now retries_ok 0 10 t) as (t1 & E1 & K1 & D1); [done..|].
  destruct (WriteSingleCoil_device c now retries_ok 5 true t1) as (t2 & E2 & K2 & D2); [done..|].
  destruct (WriteMultipleCoils_device c now retries_ok 0 AllDataTypes.coilPattern t2) as (t3 & E3 & K3 & D3); [done..|].
  destruct (ReadCoils_device c now retries_ok 0 10 t3) as (t4 & E4 & K4 & D4); [done..|].
  unfold AllDataTypes.coils_section. demo_section. demo_call E1 ltac:(apply bit_lines_quiet). demo_call E2 says.
  demo_call E3 says. demo_call E4 ltac:(apply bit_lines_quiet). apply wp_ret. split_and!; [done|done|].
  cbn [device served_device] in *. by rewrite D4, D3, D2, D1.
Qed.
Lemma inputs_section_wp t : store_ok t ->
  wp (AllDataTypes.inputs_section now c) t (fun b t' _ => b = true /\ store_ok t' /\ view t' ≡ view t).
Proof.
  intros Ht. destruct (ReadDiscreteInputs_device c now retries_ok 0 8 t) as (t1 & E1 & K1 & D1); [done..|].
  unfold AllDataTypes.inputs_section. demo_section. eapply try_call_wp; [exact E1|apply bit_lines_quiet|done].
Qed.
Lemma holding_section_wp t : store_ok t ->
  wp (AllDataTypes.holding_section now c) t (fun b t' _ => b = true /\ store_ok t' /\
    view t' ≡ write_holding (write_holding (view t) 0 [42]) 5 AllDataTypes.regValues).
Proof.
  intros Ht. destruct (ReadHoldingRegisters_device c now retries_ok 0 10 t) as (t1 & E1 & K1 & D1); [done..|].
  destruct (WriteSingleRegister_device c now retries_ok 0 42 t1) as (t2 & E2 & K2 & D2); [done..|].
  destruct (WriteMultipleRegisters_device c now retries_ok 5 AllDataTypes.regValues t2) as (t3 & E3 & K3 & D3);
    [done|done|decided|done|].
  destruct (ReadHoldingRegisters_device c now retries_ok 0 10 t3) as (t4 & E4 & K4 & D4); [done..|].
  unfold AllDataTypes.holding_section. demo_section. demo_call E1 ltac:(apply reg_lines_quiet). demo_call E2 says.
  demo_call E3 says. demo_call E4 ltac:(apply reg_lines_quiet). apply wp_ret. split_and!; [done|done|].
  cbn [device served_device] in *. by rewrite D4, D3, D2, D1.
Qed.
Lemma input_section_wp t : store_ok t ->
  wp (AllDataTypes.input_section now c) t (fun b t' _ => b = true /\ store_ok t' /\ view t' ≡ view t).
Proof.
  intros Ht. destruct (ReadInputRegisters_device c now retries_ok 0 10 t) as (t1 & E1 & K1 & D1); [done..|].
  unfold AllDataTypes.input_section. demo_section. eapply try_call_wp; [exact E1|apply reg_lines_quiet|done].
Qed.
Lemma exchange_section_wp t : store_ok t ->
  wp (AllDataTypes.exchange_section now c) t (fun b t' _ => b = true /\ store_ok t' /\
    view t' ≡ write_holding (view t) 8 AllDataTypes.writeVals).
Proof.
  intros Ht. destruct (ReadWrite_device c now retries_ok 0 3 8 AllDataTypes.writeVals t) as (t1 & E1 & K1 & D1);
    [done|done|done|done|decided|done|].
  destruct (ReadHoldingRegisters_device c now retries_ok 8 2 t1) as (t2 & E2 & K2 & D2); [done..|].
  unfold AllDataTypes.exchange_section. demo_section.
  demo_call E1 ltac:(apply wp_bind, wp_emit; apply reg_lines_quiet).
  demo_call E2 ltac:(apply reg_lines_quiet). apply wp_ret. split_and!; [done|done|].
  cbn [device served_device] in *. by rewrite D2, D1.
Qed.
(** The server has no handler for the exception status: its exception is the
    expected outcome. *)
Lemma status_section_wp (t : S) :
  wp (AllDataTypes.status_section now c) t (fun b t' _ => b = true /\ t' = t).
Proof.
  unfold AllDataTypes.status_section. demo_section. apply wp_bind. unfold wp, call.
  assert (Client_ReadExceptionStatus c now t = (Err (ModbusErr (Z.lor 7 ExceptionBit) (u8 1)), t)) as E.
  { unfold Client_ReadExceptionStatus, GenerateReadExceptionStatusRequest, mbind, SM_bind, pure.
    rewrite (served_exception c now FuncReadExceptionStatus [] t 1 t); [done|decided|done|reflexivity]. }
  rewrite E. done.
Qed.
End Demo.

(** Against the library's server over any lawful store, the program that runs
    every operation returns, reports that all of them succeeded, and leaves the
    store with its writes in order. *)
Theorem demo_succeeds {S} `{DataStoreLaws S} now addr port uid (t : S) : store_ok t ->
  wp (@AllDataTypes.main unit S served_transport served_link now addr port uid) t (fun _ t' out =>
    Printedln Stdout "All operations completed successfully." ∈ out /\
    view t' ≡ write_holding (write_holding (write_holding
      (write_coils (write_coils (view t) 5 [true]) 0 AllDataTypes.coilPattern) 0 [42]) 5 AllDataTypes.regValues)
      8 AllDataTypes.writeVals).
Proof.
  intros Ht. unfold AllDataTypes.main. wp_print. apply wp_bind. eapply wp_call; [reflexivity|]. apply wp_closing.
  set (c := mkClientCfg (u8 uid) 0). assert (0 <= retries c) as Hr by done.
  unfold AllDataTypes.demonstrations. wp_print. apply wp_bind.
  eapply wp_conseq; [by apply coils_section_wp|]. intros ? t1 ? (-> & K1 & D1). apply wp_bind.
  eapply wp_conseq; [by apply inputs_section_wp|]. intros ? t2 ? (-> & K2 & D2). apply wp_bind.
  eapply wp_conseq; [by apply holding_section_wp|]. intros ? t3 ? (-> & K3 & D3). apply wp_bind.
  eapply wp_conseq; [by apply input_section_wp|]. intros ? t4 ? (-> & K4 & D4). apply wp_bind.
  eapply wp_conseq; [by apply exchange_section_wp|]. intros ? t5 ? (-> & K5 & D5). apply wp_bind.
  eapply wp_conseq; [by apply status_section_wp|]. intros ? ? ? (-> & ->). apply wp_bind.
  apply section_quiet; [by vm_compute|]. intros ?. cbn [andb]. wp_print. apply wp_emit. intros post. split.
  - rewrite <-?app_assoc. cbn [app]. repeat first [apply list_elem_of_here | apply list_elem_of_further | apply elem_of_app; right].
  - cbn [Close served_transport snd]. by rewrite D5, D4, D3, D2, D1.
Qed.

(** The demonstration against the store the example server is filled with. *)
Lemma demo_succeeds_witness :
  exists t' out, @AllDataTypes.main unit MemoryStore served_transport served_link 0 (str "127.0.0.1") 5020 0 DemoServer.store =
      (Returned tt, t', out) /\ Printedln Stdout "All operations completed successfully." ∈ out.
Proof.
  assert (store_ok DemoServer.store) as Hok by (split; decided).
  pose proof (demo_succeeds 0 (str "127.0.0.1") 5020 0 DemoServer.store Hok) as Hw. unfold wp in Hw.
  destruct (AllDataTypes.main _ _ _ _ _) as [[[[]| | |] t'] out]; [|destruct Hw..].
  exists t', out. split; [reflexivity|exact (proj1 Hw)].
Defined.
