(* ===== verification/EipTools.v ===== *)
(** * The EtherNet/IP command-line programs

    Models the programs under [examples/ethernetip] that read and write tags from
    the command line: [write_tag], [read_tag], [read_tag_typed], [timer_counter],
    [program_scoped_tag], [list_tags], [list_identity] and the reporting of
    [reconnecting].  Calls of the client take fuel, as in [EipClient]; a call that
    has not come back leaves the program waiting.  [ParseFloat] is
    [strconv.ParseFloat], with the bits of its result for the given width; floats
    printed with [%f] are arguments by their bits. *)
From S2P Require Import Prelude Bytes Transport Plc EipCodec Cip Pccc PcccClient CipTags EipClient CipTypes.
From S2P Require Import Floats LuaVM LuaEip Console.
#[local] Open Scope string_scope.
#[local] Open Scope Z_scope.

(** A call of the client. *)
Definition callR {T A} (m : Run T A) : Prog T (error + A) := fun t =>
  match m t with
  | Some (Ok a, t) => (Returned (inr a), t, [])
  | Some (Err e, t) => (Returned (inl e), t, [])
  | Some (Panic, t) => (Crashed, t, [])
  | None => (Waiting, t, [])
  end.

(** A Go value as an argument of [%v]. *)
Definition show_value (v : GoValue) : arg :=
  match v with
  | GBool b => ABool b
  | GInt8 z | GInt16 z | GInt32 z | GInt64 z | GUint8 z | GUint16 z | GUint32 z | GUint64 z => AInt z
  | GFloat32 b => AFloat 32 b
  | GFloat64 b => AFloat 64 b
  | GString s => AStr s
  | GCodec _ _ | GOther => AList []
  end.
(** A type code as an argument of [%s], in a program that registers no types. *)
Definition show_type (dt : Z) : arg := AText (DataType_String ∅ dt).

Section Preamble.
Context {C T : Type} `{Transport C T} `{SessionLink C T}.
Definition eip_close (t : T) : T := (Close t).2.
(** Connect with two retries, or end the program. *)
Definition eip_connected (failed : string) (addr : bytes) (body : Client -> Prog T unit) : Prog T unit :=
  r ← call Client_Connect;
  match r with
  | inl err => fatalf failed [AStr addr; AErr err]
  | inr _ => deferred eip_close (body (NewClient 2))
  end.
End Preamble.

(** ** write_tag *)
Module WriteTag.
Section Values.
Variable ParseFloat : Z -> bytes -> outcome Z.

Definition parseValue (typeName s : bytes) : outcome GoValue :=
  match parse_hint typeName with
  | Some HBOOL => v ← ParseBool s; Ok (GBool v)
  | Some HSINT => v ← ParseInt 8 s; Ok (GInt8 (signed 8 v))
  | Some HINT => v ← ParseInt 16 s; Ok (GInt16 (signed 16 v))
  | Some HDINT => v ← ParseInt 32 s; Ok (GInt32 (signed 32 v))
  | Some HLINT => v ← ParseInt 64 s; Ok (GInt64 v)
  | Some HUSINT => v ← ParseUint 8 s; Ok (GUint8 (u8 v))
  | Some HUINT => v ← ParseUint 16 s; Ok (GUint16 (u16 v))
  | Some HUDINT => v ← ParseUint 32 s; Ok (GUint32 (u32 v))
  | Some HULINT => v ← ParseUint 64 s; Ok (GUint64 v)
  | Some HREAL => v ← ParseFloat 32 s; Ok (GFloat32 v)
  | Some HLREAL => v ← ParseFloat 64 s; Ok (GFloat64 v)
  | Some HSTRING => Ok (GString s)
  | None => Err (Errorf "unsupported CIP type %q")
  end.

(** The first [n] bytes as a number, or the error of a short payload. *)
Definition with_bytes (n : Z) (fmt : string) (data : bytes) (k : Z -> GoValue) : outcome GoValue :=
  if len data <? n then Err (Errorf fmt) else
  b ← go_slice data 0 n; Ok (k (le_uint b)).

Definition decodeValue (typeName raw : bytes) : outcome GoValue :=
  if len raw <? 2 then Err (Errorf "raw data too short") else
  typeCode ← type_code raw;
  let hdrLen := if CipType.STRUCT <=? typeCode then 4 else 2 in
  if len raw <? hdrLen then Err (Errorf "raw data too short for header") else
  data ← go_slice raw hdrLen (len raw);
  match parse_hint typeName with
  | Some HBOOL => with_bytes 1 "not enough data for BOOL" data (fun z => GBool (negb (z =? 0)))
  | Some HSINT => with_bytes 1 "not enough data for SINT" data (fun z => GInt8 (signed 8 z))
  | Some HINT => with_bytes 2 "not enough data for INT" data (fun z => GInt16 (signed 16 z))
  | Some HDINT => with_bytes 4 "not enough data for DINT" data (fun z => GInt32 (signed 32 z))
  | Some HLINT => with_bytes 8 "not enough data for LINT" data (fun z => GInt64 (signed 64 z))
  | Some HUSINT => with_bytes 1 "not enough data for USINT" data GUint8
  | Some HUINT => with_bytes 2 "not enough data for UINT" data GUint16
  | Some HUDINT => with_bytes 4 "not enough data for UDINT" data GUint32
  | Some HULINT => with_bytes 8 "not enough data for ULINT" data GUint64
  | Some HREAL => with_bytes 4 "not enough data for REAL" data GFloat32
  | Some HLREAL => with_bytes 8 "not enough data for LREAL" data GFloat64
  | Some HSTRING =>
      if len data <? 4 then Err (Errorf "not enough data for STRING length prefix") else
      b ← go_slice data 0 4;
      let strLen := le_uint b in
      if len data <? 4 + strLen then Err (Errorf "not enough data for STRING body (need %d, have %d)") else
      s ← go_slice data 4 (u32 (4 + strLen)); Ok (GString s)
  | None => Err (Errorf "unsupported CIP type %q for decoding")
  end.
End Values.

Section Program.
Context {C T : Type} `{Transport C T} `{SessionLink C T}.
Variable ParseFloat : Z -> bytes -> outcome Z.
Variable fuel : nat.

(** Write, read back, show both. *)
Definition write_and_verify (tagName typeName : bytes) (goValue : GoValue) (c : Client) : Prog T unit :=
  _ ← printf "Writing tag %q = %v (type %s)\n" [AStr tagName; show_value goValue; AStr typeName];
  r ← callR (EipClient.WriteTag c fuel tagName goValue);
  match r with
  | inl err => fatalf "WriteTag failed: %v" [AErr err]
  | inr _ =>
      _ ← println "Write successful.";
      _ ← println "\n--- Read-back verification ---";
      r ← callR (ReadTag c fuel tagName);
      match r with
      | inl err => fatalf "ReadTag (verification) failed: %v" [AErr err]
      | inr raw =>
          if len raw <? 2 then fatalf "Response too short (%d bytes)" [AInt (len raw)] else
          typeCode ← eval (type_code raw);
          _ ← printf "Type Code:  0x%04X (%s)\n" [AInt typeCode; show_type typeCode];
          _ ← printf "Raw bytes:  % X\n" [AHex raw];
          match decodeValue typeName raw with
          | Ok readBack => _ ← printf "Read-back:  %v\n" [show_value readBack]; println "\nDone."
          | Err err => fatalf "Failed to decode read-back: %v" [AErr err]
          | Panic => eval Panic
          end
      end
  end.

(** [main] with [-addr], [-tag], [-type] and [-value]; [flag.Usage] prints the
    flags. *)
Definition main (addr tagName typeName value : bytes) : Prog T unit :=
  if bool_decide (tagName = []) || bool_decide (value = []) then
    _ ← eprintln "error: -tag and -value are required"; exit 1
  else
    match parseValue ParseFloat typeName value with
    | Err err => fatalf "Failed to parse value %q as %s: %v" [AStr value; AStr typeName; AErr err]
    | Panic => eval Panic
    | Ok goValue =>
        eip_connected "Failed to connect to %s: %v" addr (fun c =>
          _ ← printf "Connected to %s\n\n" [AStr addr];
          write_and_verify tagName typeName goValue c)
    end.
End Program.
End WriteTag.

(** ** read_tag *)
Module ReadTagTool.
Section Program.
Context {C T : Type} `{Transport C T} `{SessionLink C T}.
Variable fuel : nat.

(** A value of a fixed shape as an argument of [%v]. *)
Definition show_gval (s : shape) (v : gval) : arg :=
  match s, v with
  | SBool, VBool b => ABool b
  | SFloat w, VNum z => AFloat (8 * Z.of_nat w) z
  | _, VNum z => AInt z
  | _, _ => AList []
  end.

Definition typedRead (c : Client) (s : shape) (type_name : string) (tag : bytes) (count : Z) : Prog T unit :=
  if count =? 1 then
    r ← callR (ReadT c fuel tag (TBinary s id));
    match r with
    | inl err => fatalf "Typed Read failed: %v" [AErr err]
    | inr val => printf "Value (%T): %v\n" [AText type_name; show_gval s val]
    end
  else
    r ← callR (ReadSlice c fuel tag count s);
    match r with
    | inl err => fatalf "Typed ReadSlice failed: %v" [AErr err]
    | inr vals => printf "Values (%T): %v\n" [AText type_name; AList (map (show_gval s) vals)]
    end.

(** The type switch: the Go type of a CIP type code. *)
Definition go_type (typeCode : Z) : option (shape * string) :=
  if typeCode =? CipType.BOOL then Some (SBool, "bool")
  else if typeCode =? CipType.SINT then Some (SInt true 1, "int8")
  else if typeCode =? CipType.INT then Some (SInt true 2, "int16")
  else if typeCode =? CipType.DINT then Some (SInt true 4, "int32")
  else if typeCode =? CipType.LINT then Some (SInt true 8, "int64")
  else if typeCode =? CipType.USINT then Some (SInt false 1, "uint8")
  else if typeCode =? CipType.UINT then Some (SInt false 2, "uint16")
  else if typeCode =? CipType.UDINT then Some (SInt false 4, "uint32")
  else if typeCode =? CipType.ULINT then Some (SInt false 8, "uint64")
  else if typeCode =? CipType.REAL then Some (SFloat 4, "float32")
  else if typeCode =? CipType.LREAL then Some (SFloat 8, "float64")
  else None.

Definition read_and_show (tagName : bytes) (count : Z) (c : Client) : Prog T unit :=
  _ ← println "--- Raw byte read ---";
  r ← (if count =? 1 then callR (ReadTag c fuel tagName)
       else callR (ReadTagElements c fuel tagName (u16 count)));
  match r with
  | inl err => fatalf "ReadTag failed: %v" [AErr err]
  | inr raw =>
      if len raw <? 2
      then fatalf "Response too short (%d bytes) - expected at least 2 for type code" [AInt (len raw)] else
      typeCode ← eval (type_code raw);
      data ← eval (go_slice raw 2 (len raw));
      _ ← printf "Tag:        %s\n" [AStr tagName];
      _ ← printf "Type Code:  0x%04X (%s)\n" [AInt typeCode; show_type typeCode];
      _ ← printf "Raw bytes:  % X\n" [AHex raw];
      _ ← printf "Data bytes: % X\n" [AHex data];
      _ ← println "\n--- Typed read ---";
      _ ← match go_type typeCode with
          | Some (s, name) => typedRead c s name tagName (u16 count)
          | None => printf "No typed read for type code 0x%04X; use raw bytes above.\n" [AInt typeCode]
          end;
      println "\nDone."
  end.

Definition main (addr tagName : bytes) (count : Z) : Prog T unit :=
  if bool_decide (tagName = []) then _ ← eprintln "error: -tag is required"; exit 1
  else eip_connected "Failed to connect to %s: %v" addr (fun c =>
    _ ← printf "Connected to %s\n\n" [AStr addr];
    read_and_show tagName count c).
End Program.
End ReadTagTool.

(** ** read_tag_typed *)
Module ReadTagTyped.
Section Program.
Context {C T : Type} `{Transport C T} `{SessionLink C T}.
Variable fuel : nat.

(** One case of the switch: a scalar with [Read], several with [ReadSlice]. *)
Definition read_case (c : Client) (tagName : bytes) (elements : Z) (s : shape)
  (scalar_failed scalar slice_failed slice : string) : Prog T unit :=
  if elements =? 1 then
    r ← callR (ReadT c fuel tagName (TBinary s id));
    match r with
    | inl err => fatalf scalar_failed [AErr err]
    | inr val => printf scalar [ReadTagTool.show_gval s val]
    end
  else
    r ← callR (ReadSlice c fuel tagName elements s);
    match r with
    | inl err => fatalf slice_failed [AErr err]
    | inr vals => printf slice [AList (map (ReadTagTool.show_gval s) vals)]
    end.

Definition read_timer (c : Client) (tagName : bytes) : Prog T unit :=
  _ ← println "--- Using ReadTagInto for Timer ---";
  r ← callR (ReadTagInto c fuel tagName (TUnmarshaler Logix.DecodeTimer));
  match r with
  | inl err => fatalf "ReadTagInto (Timer) failed: %v" [AErr err]
  | inr timer =>
      _ ← printf "Timer:\n" [];
      _ ← printf "  PRE (preset):      %d ms\n" [AInt (Logix.PRE timer)];
      _ ← printf "  ACC (accumulated):  %d ms\n" [AInt (Logix.ACC timer)];
      _ ← printf "  EN  (enable):       %v\n" [ABool (Logix.EN timer)];
      _ ← printf "  TT  (timer timing): %v\n" [ABool (Logix.TT timer)];
      printf "  DN  (done):         %v\n" [ABool (Logix.DN timer)]
  end.
Definition read_counter (c : Client) (tagName : bytes) : Prog T unit :=
  _ ← println "--- Using ReadTagInto for Counter ---";
  r ← callR (ReadTagInto c fuel tagName (TUnmarshaler Logix.DecodeCounter));
  match r with
  | inl err => fatalf "ReadTagInto (Counter) failed: %v" [AErr err]
  | inr counter =>
      _ ← printf "Counter:\n" [];
      _ ← printf "  PRE (preset):     %d\n" [AInt (Logix.c_PRE counter)];
      _ ← printf "  ACC (accumulated): %d\n" [AInt (Logix.c_ACC counter)];
      _ ← printf "  CU  (count up):    %v\n" [ABool (Logix.CU counter)];
      _ ← printf "  CD  (count down):  %v\n" [ABool (Logix.CD counter)];
      _ ← printf "  DN  (done):        %v\n" [ABool (Logix.c_DN counter)];
      _ ← printf "  OV  (overflow):    %v\n" [ABool (Logix.OV counter)];
      printf "  UN  (underflow):   %v\n" [ABool (Logix.UN counter)]
  end.

Definition read_typed (tagName typeName : bytes) (elements : Z) (c : Client) : Prog T unit :=
  let named name := bool_decide (ToUpper typeName = str name) in
  let run := read_case c tagName elements in
  _ ← (if named "BOOL" then run SBool "Read[bool] failed: %v" "BOOL value: %v\n" "ReadSlice[bool] failed: %v" "BOOL values: %v\n"
       else if named "SINT" then run (SInt true 1) "Read[int8] failed: %v" "SINT value: %d\n" "ReadSlice[int8] failed: %v" "SINT values: %v\n"
       else if named "INT" then run (SInt true 2) "Read[int16] failed: %v" "INT value: %d\n" "ReadSlice[int16] failed: %v" "INT values: %v\n"
       else if named "DINT" then run (SInt true 4) "Read[int32] failed: %v" "DINT value: %d\n" "ReadSlice[int32] failed: %v" "DINT values: %v\n"
       else if named "LINT" then run (SInt true 8) "Read[int64] failed: %v" "LINT value: %d\n" "ReadSlice[int64] failed: %v" "LINT values: %v\n"
       else if named "USINT" then run (SInt false 1) "Read[uint8] failed: %v" "USINT value: %d\n" "ReadSlice[uint8] failed: %v" "USINT values: %v\n"
       else if named "UINT" then run (SInt false 2) "Read[uint16] failed: %v" "UINT value: %d\n" "ReadSlice[uint16] failed: %v" "UINT values: %v\n"
       else if named "UDINT" then run (SInt false 4) "Read[uint32] failed: %v" "UDINT value: %d\n" "ReadSlice[uint32] failed: %v" "UDINT values: %v\n"
       else if named "ULINT" then run (SInt false 8) "Read[uint64] failed: %v" "ULINT value: %d\n" "ReadSlice[uint64] failed: %v" "ULINT values: %v\n"
       else if named "REAL" then run (SFloat 4) "Read[float32] failed: %v" "REAL value: %f\n" "ReadSlice[float32] failed: %v" "REAL values: %v\n"
       else if named "LREAL" then run (SFloat 8) "Read[float64] failed: %v" "LREAL value: %f\n" "ReadSlice[float64] failed: %v" "LREAL values: %v\n"
       else if named "TIMER" then read_timer c tagName
       else if named "COUNTER" then read_counter c tagName
       else
         _ ← eprintf "Unsupported type: %s\n" [AStr typeName];
         _ ← eprintln "Supported: BOOL, SINT, INT, DINT, LINT, USINT, UINT, UDINT, ULINT, REAL, LREAL, TIMER, COUNTER";
         exit 1);
  println "\nDone.".

Definition main (addr tagName typeName : bytes) (count : Z) : Prog T unit :=
  if bool_decide (tagName = []) then _ ← eprintln "error: -tag is required"; exit 1
  else eip_connected "Failed to connect to %s: %v" addr (fun c =>
    _ ← printf "Connected to %s\n\n" [AStr addr];
    read_typed tagName typeName (u16 count) c).
End Program.
End ReadTagTyped.

(** ** timer_counter *)
Module TimerCounter.
Section Program.
Context {C T : Type} `{Transport C T} `{SessionLink C T}.
Variable fuel : nat.
(** [float64(a)/1000.0] and [float64(acc)/float64(pre)*100.0], clipped at 100 for
    timers. *)
Variables (seconds : Z -> arg) (percent clipped_percent : Z -> Z -> arg).

Definition printTimer (t : Logix.Timer) : Prog T unit :=
  _ ← printf "  PRE (Preset):       %d ms" [AInt (Logix.PRE t)];
  _ ← (if 0 <? Logix.PRE t then printf "  (%.1f seconds)" [seconds (Logix.PRE t)] else mret tt);
  _ ← println "";
  _ ← printf "  ACC (Accumulated):  %d ms" [AInt (Logix.ACC t)];
  _ ← (if 0 <? Logix.ACC t then printf "  (%.1f seconds)" [seconds (Logix.ACC t)] else mret tt);
  _ ← println "";
  _ ← (if 0 <? Logix.PRE t
       then printf "  Progress:           %.1f%%\n" [clipped_percent (Logix.ACC t) (Logix.PRE t)] else mret tt);
  _ ← println "";
  _ ← printf "  EN  (Enable):       %v\n" [ABool (Logix.EN t)];
  _ ← printf "  TT  (Timer Timing): %v\n" [ABool (Logix.TT t)];
  _ ← printf "  DN  (Done):         %v\n" [ABool (Logix.DN t)];
  _ ← printf "\n  State: " [];
  if negb (Logix.EN t) then println "Idle (timer is not enabled)"
  else if Logix.TT t && negb (Logix.DN t) then println "Timing (actively counting up)"
  else if Logix.DN t then println "Done (preset reached)"
  else println "Unknown".

Definition printCounter (c : Logix.Counter) : Prog T unit :=
  _ ← printf "  PRE (Preset):       %d\n" [AInt (Logix.c_PRE c)];
  _ ← printf "  ACC (Accumulated):  %d\n" [AInt (Logix.c_ACC c)];
  _ ← (if 0 <? Logix.c_PRE c
       then printf "  Progress:           %.1f%%\n" [percent (Logix.c_ACC c) (Logix.c_PRE c)] else mret tt);
  _ ← println "";
  _ ← printf "  CU  (Count Up):     %v\n" [ABool (Logix.CU c)];
  _ ← printf "  CD  (Count Down):   %v\n" [ABool (Logix.CD c)];
  _ ← printf "  DN  (Done):         %v\n" [ABool (Logix.c_DN c)];
  _ ← printf "  OV  (Overflow):     %v\n" [ABool (Logix.OV c)];
  _ ← printf "  UN  (Underflow):    %v\n" [ABool (Logix.UN c)];
  _ ← printf "\n  State: " [];
  if Logix.OV c then println "Overflow (ACC wrapped past max int32)"
  else if Logix.UN c then println "Underflow (ACC wrapped past min int32)"
  else if Logix.c_DN c then println "Done (preset reached)"
  else if Logix.CU c || Logix.CD c then println "Counting"
  else println "Idle".

Definition main (addr timerTag counterTag : bytes) : Prog T unit :=
  if bool_decide (timerTag = []) && bool_decide (counterTag = []) then
    println "error: at least one of -timer-tag or -counter-tag is required"
  else eip_connected "Failed to connect to %s: %v" addr (fun c =>
    _ ← printf "Connected to %s\n\n" [AStr addr];
    _ ← (if bool_decide (timerTag = []) then mret tt else
           _ ← printf "=== Timer: %s ===\n\n" [AStr timerTag];
           r ← callR (ReadTimer c fuel timerTag);
           match r with
           | inl err => fatalf "ReadTimer(%q) failed: %v" [AStr timerTag; AErr err]
           | inr timer => _ ← printTimer timer; println ""
           end);
    _ ← (if bool_decide (counterTag = []) then mret tt else
           _ ← printf "=== Counter: %s ===\n\n" [AStr counterTag];
           r ← callR (ReadTagInto c fuel counterTag (TUnmarshaler Logix.DecodeCounter));
           match r with
           | inl err => fatalf "ReadTagInto(%q) failed: %v" [AStr counterTag; AErr err]
           | inr counter => _ ← printCounter counter; println ""
           end);
    println "Done.").
End Program.
End TimerCounter.

(** ** program_scoped_tag *)
Module ProgramScoped.
Section Program.
Context {C T : Type} `{Transport C T} `{SessionLink C T}.
Variable fuel : nat.

(** This program connects with the default of no retries; '.' is 46. *)
Definition main (addr tag member : bytes) : Prog T unit :=
  r ← call Client_Connect;
  match r with
  | inl err => fatalf "connect %s: %v" [AStr addr; AErr err]
  | inr _ =>
      let client := NewClient 0 in
      deferred eip_close (
        _ ← printf "Connected to %s\n\n" [AStr addr];
        _ ← printf "--- Whole struct: %s ---\n" [AStr tag];
        r ← callR (ReadCounter client fuel tag);
        match r with
        | inl err => fatalf "ReadCounter: %v" [AErr err]
        | inr c =>
            _ ← printf "PRE=%d  ACC=%d\n" [AInt (Logix.c_PRE c); AInt (Logix.c_ACC c)];
            _ ← printf "CU=%t  CD=%t  DN=%t  OV=%t  UN=%t\n\n"
                  [ABool (Logix.CU c); ABool (Logix.CD c); ABool (Logix.c_DN c); ABool (Logix.OV c); ABool (Logix.UN c)];
            if bool_decide (member = []) then mret tt else
            let full := (tag ++ 46 :: member)%list in
            _ ← printf "--- Member read: %s ---\n" [AStr full];
            r ← callR (ReadT client fuel full (TBinary (SInt true 4) id));
            match r with
            | inl err => fatalf "Read[int32](%s): %v" [AStr full; AErr err]
            | inr val => printf "%s = %d\n" [AStr member; ReadTagTool.show_gval (SInt true 4) val]
            end
        end)
  end.
End Program.
End ProgramScoped.
