(* ===== verification/EipProbe.v ===== *)
(** * The device probe

    Models [examples/ethernetip/probe/main.go]: a program that registers a session
    with a device, asks its identity, network and connection-manager objects for
    their attributes, scans the assembly instances and the object classes, and
    with [-tags] lists and reads tags over two clients of its own.  The session is
    that of [EipSession] over any wire, the clients those of [EipClient]; the
    fields are decoded with the source's widths, which is what the theorems on
    crashes and on the scan are about.  Calls of the clients and the scan take
    fuel. *)
From S2P Require Import Prelude Bytes Transport Plc EipCodec Cip CipTags CipObjects EipServer EipSession EipClient.
From S2P Require Import EipPlant Console EipTools.
#[local] Open Scope string_scope.
#[local] Open Scope Z_scope.

Module Probe.

(** ** Names *)
Definition vendorName (id : Z) : arg :=
  if id =? 1 then AText "Rockwell Automation"
  else if id =? 424 then AText "Teknic"
  else AText "Unknown".

Definition deviceTypeName (dt : Z) : arg :=
  if dt =? 0 then AText "Generic"
  else if dt =? 2 then AText "AC Drive"
  else if dt =? 7 then AText "General Purpose Discrete I/O"
  else if dt =? 12 then AText "Communications Adapter"
  else if dt =? 14 then AText "Programmable Logic Controller"
  else if dt =? 22 then AText "Safety Discrete I/O"
  else if dt =? 24 then AText "HMI"
  else if dt =? 33 then AText "Generic Safety"
  else if dt =? 43 then AText "Servo Drive"
  else if dt =? 150 then AText "AC/DC Drive (vendor specific)"
  else AFmt "Type %d" [AInt dt].

(** [cipTypeName]: the recursive call is on a code without the array bit. *)
Definition scalar_name (t : Z) : arg :=
  if t =? CipType.BOOL then AText "BOOL"
  else if t =? CipType.SINT then AText "SINT"
  else if t =? CipType.INT then AText "INT"
  else if t =? CipType.DINT then AText "DINT"
  else if t =? CipType.LINT then AText "LINT"
  else if t =? CipType.REAL then AText "REAL"
  else if t =? CipType.LREAL then AText "LREAL"
  else if t =? CipType.STRING then AText "STRING"
  else if 0x0100 <=? t then AText "STRUCT"
  else AFmt "0x%04X" [AInt t].
Definition cipTypeName (t : Z) : arg :=
  if negb (Z.land t 0x8000 =? 0) then AFmt "%s[]" [scalar_name (Z.land t 0x0FFF)]
  else scalar_name t.

(** [formatTagValue]: the payload after the type header as the type says, or all
    the bytes when there are too few. *)
Definition formatTagValue (data : bytes) (dt : Z) : outcome arg :=
  let raw := AFmt "% X" [AHex data] in
  if len data <? 2 then Ok raw else
  typeCode ← type_code data;
  let hdrLen := if 0x02A0 <=? typeCode then 4 else 2 in
  if len data <? hdrLen then Ok raw else
  payload ← go_slice data hdrLen (len data);
  let number (n : Z) (k : Z -> arg) :=
    if n <=? len payload then b ← go_slice payload 0 n; Ok (k (le_uint b)) else Ok raw in
  if dt =? CipType.BOOL then number 1 (fun z => AText (if negb (z =? 0) then "true" else "false"))
  else if dt =? CipType.SINT then number 1 (fun z => AFmt "%d" [AInt (signed 8 z)])
  else if dt =? CipType.INT then number 2 (fun z => AFmt "%d" [AInt (signed 16 z)])
  else if dt =? CipType.DINT then number 4 (fun z => AFmt "%d" [AInt (signed 32 z)])
  else if dt =? CipType.LINT then number 8 (fun z => AFmt "%d" [AInt (signed 64 z)])
  else if dt =? CipType.REAL then number 4 (fun z => AFmt "%.4f" [AFloat 32 z])
  else if dt =? CipType.LREAL then number 8 (fun z => AFmt "%.6f" [AFloat 64 z])
  else Ok raw.

(** The classes of the class scan. *)
Definition classes : list (Z * string) :=
  [(0x01, "Identity"); (0x02, "Message Router"); (0x03, "DeviceNet"); (0x04, "Assembly");
   (0x05, "Connection"); (0x06, "Connection Manager"); (0x07, "Register");
   (0x08, "Discrete Input Point"); (0x09, "Discrete Output Point"); (0x0A, "Analog Input Point");
   (0x0B, "Analog Output Point"); (0x0F, "Parameter"); (0x10, "Parameter Group");
   (0x1D, "Discrete Input Group"); (0x1E, "Discrete Output Group"); (0x1F, "Discrete Group");
   (0x20, "Analog Input Group"); (0x21, "Analog Output Group"); (0x22, "Analog Group");
   (0x28, "Motor Data"); (0x29, "Control Supervisor"); (0x2A, "AC/DC Drive");
   (0x2B, "Acknowledge Handler"); (0x37, "S-Analog Sensor"); (0x38, "S-Analog Actuator");
   (0x39, "S-Single Stage Controller"); (0x3A, "S-Gas Calibration"); (0x6B, "Symbol");
   (0xAC, "IO (Logix)"); (0xB2, "Logix5000"); (0xF5, "TCP/IP Interface"); (0xF6, "Ethernet Link")].

Section Program.
Context {P C T : Type} `{Wire P} `{Transport C T} `{SessionLink C T}.
(** [net.Dial] of an address, and closing what it gave. *)
Variable dial : bytes -> outcome P.
Variable hang_up : P -> P.
Variable fuel : nat.

(** The probe's own session, and the links of its two clients. *)
Record World : Type := mkWorld { probe : Session P; first : T; second : T }.

Definition on_probe {A} (m : SM (Session P) A) : SM World A := fun w =>
  let '(r, s) := m (probe w) in (r, mkWorld s (first w) (second w)).
Definition on_first {A} (m : Prog T A) : Prog World A := fun w =>
  let '(r, t, out) := m (first w) in (r, mkWorld (probe w) t (second w), out).
Definition on_second {A} (m : Prog T A) : Prog World A := fun w =>
  let '(r, t, out) := m (second w) in (r, mkWorld (probe w) (first w) t, out).
Definition waiting {A} : Prog World A := fun w => (Waiting, w, []).

Definition title (text : string) : Prog World unit :=
  _ ← println "═══════════════════════════════════════════════════════════════";
  _ ← println text;
  println "═══════════════════════════════════════════════════════════════".
Definition section (text : string) : Prog World unit := _ ← println ""; title text.

Definition cipReq (service : Z) (path data : bytes) : Prog World (error + MessageRouterResponse) :=
  call (on_probe (SendCIPRequest (mkMRReq service path data))).
(** [err == nil && resp.IsSuccess() && len(resp.ResponseData) >= n]. *)
Definition answered (n : Z) (r : error + MessageRouterResponse) : option bytes :=
  match r with
  | inr resp => if IsSuccess resp && (n <=? len (ResponseData resp)) then Some (ResponseData resp) else None
  | inl _ => None
  end.
Definition attribute (class attr n : Z) (k : bytes -> Prog World unit) : Prog World unit :=
  r ← cipReq Svc.GetAttributeSingle (BuildPath class 1 attr) [];
  match answered n r with Some d => k d | None => mret tt end.

(** ** Identity: [15+nameLen] is computed in a byte *)
Definition identity_name (d : bytes) : outcome bytes :=
  nameLen ← go_index d 14;
  if u8 (15 + nameLen) <=? len d then go_slice d 15 (u8 (15 + nameLen)) else Ok [].
Definition show_identity (d : bytes) : Prog World unit :=
  vendorID ← eval (b ← go_slice d 0 2; get_le16 b);
  devType ← eval (b ← go_slice d 2 4; get_le16 b);
  prodCode ← eval (b ← go_slice d 4 6; get_le16 b);
  revMajor ← eval (go_index d 6);
  revMinor ← eval (go_index d 7);
  status ← eval (b ← go_slice d 8 10; get_le16 b);
  serial ← eval (b ← go_slice d 10 14; get_le32 b);
  name ← eval (identity_name d);
  _ ← printf "  Product Name:    %s\n" [AStr name];
  _ ← printf "  Vendor ID:       %d (%s)\n" [AInt vendorID; vendorName vendorID];
  _ ← printf "  Device Type:     %d (%s)\n" [AInt devType; deviceTypeName devType];
  _ ← printf "  Product Code:    %d\n" [AInt prodCode];
  _ ← printf "  Revision:        %d.%d\n" [AInt revMajor; AInt revMinor];
  _ ← printf "  Serial Number:   0x%08X\n" [AInt serial];
  printf "  Status:          0x%04X\n" [AInt status].
Definition identity_section : Prog World unit :=
  _ ← title "  DEVICE IDENTITY";
  r ← cipReq Svc.GetAttributeAll (BuildPath 0x01 1 0) [];
  match answered 15 r with
  | Some d => show_identity d
  | None => println "  (identity read failed)"
  end.

(** ** Network *)
Definition capability_flags (cap : Z) : list arg :=
  let flag mask name := if negb (Z.land cap mask =? 0) then [AText name] else [] in
  (flag 0x01 "BOOTP" ++ flag 0x02 "DNS" ++ flag 0x04 "DHCP" ++ flag 0x10 "HW-Configurable" ++
   flag 0x20 "ACD")%list.
(** [strings.Join(flags, ", ")]. *)
Fixpoint joined (l : list arg) : arg :=
  match l with
  | [] => AText ""
  | [a] => a
  | a :: l => AFmt "%s, %s" [a; joined l]
  end.
Definition capability (d : bytes) : Prog World unit :=
  cap ← eval (get_le32 d);
  _ ← printf "  Config Capability: 0x%08X" [AInt cap];
  _ ← (if 0 <? len (capability_flags cap) then printf " [%s]" [joined (capability_flags cap)] else mret tt);
  println "".
(** A [net.IP] of the four bytes at [i], last first. *)
Definition ip_at (d : bytes) (i : Z) : outcome arg :=
  b0 ← go_index d (i + 3); b1 ← go_index d (i + 2); b2 ← go_index d (i + 1); b3 ← go_index d i;
  Ok (AFmt "%d.%d.%d.%d" [AInt b0; AInt b1; AInt b2; AInt b3]).
Definition interface_config (d : bytes) : Prog World unit :=
  ip ← eval (ip_at d 0); mask ← eval (ip_at d 4); gw ← eval (ip_at d 8);
  _ ← printf "  IP Address:      %s\n" [ip];
  _ ← printf "  Subnet Mask:     %s\n" [mask];
  printf "  Gateway:         %s\n" [gw].
(** [2+strLen] is computed in 16 bits; no line for a name that does not fit, or
    for an empty one. *)
Definition hostname (d : bytes) : outcome bytes :=
  strLen ← (b ← go_slice d 0 2; get_le16 b);
  if u16 (2 + strLen) <=? len d then go_slice d 2 (u16 (2 + strLen)) else Ok [].
Definition show_hostname (d : bytes) : Prog World unit :=
  name ← eval (hostname d);
  if bool_decide (name = []) then mret tt else printf "  Hostname:        %s\n" [AStr name].
Definition tcpip_section : Prog World unit :=
  _ ← section "  TCP/IP INTERFACE";
  _ ← attribute 0xF5 1 4 (fun d => status ← eval (get_le32 d); printf "  Interface Status: 0x%08X\n" [AInt status]);
  _ ← attribute 0xF5 3 4 capability;
  _ ← attribute 0xF5 5 12 interface_config;
  attribute 0xF5 6 2 show_hostname.

Definition link_status (d : bytes) : Prog World unit :=
  flags ← eval (get_le32 d);
  printf "  Link Status:     %s, %s duplex\n"
    [AText (if negb (Z.land flags 0x02 =? 0) then "active" else "inactive");
     AText (if negb (Z.land flags 0x01 =? 0) then "full" else "half")].
Definition mac_address (d : bytes) : Prog World unit :=
  mac ← eval (go_slice d 0 6);
  printf "  MAC Address:     %02X:%02X:%02X:%02X:%02X:%02X\n" (map AInt mac).
Definition ethernet_section : Prog World unit :=
  _ ← section "  ETHERNET LINK";
  _ ← attribute 0xF6 1 4 (fun d => speed ← eval (get_le32 d); printf "  Interface Speed: %d Mbps\n" [AInt speed]);
  _ ← attribute 0xF6 2 4 link_status;
  attribute 0xF6 3 6 mac_address.

(** ** Assemblies: the loop variable is 16 bits wide *)
Definition show_instance (inst : Z) (data : bytes) : Prog World unit :=
  _ ← printf "  Instance %3d:  %3d bytes" [AInt inst; AInt (len data)];
  preview ← eval (if 24 <? len data then go_slice data 0 24 else Ok data);
  _ ← printf "  [% X" [AHex preview];
  _ ← (if 24 <? len data then printf "..." [] else mret tt);
  _ ← printf "]" [];
  _ ← (if len data =? 12 then
         w0 ← eval (b ← go_slice data 0 2; get_le16 b);
         w1 ← eval (b ← go_slice data 2 4; get_le16 b);
         printf "  (word0=0x%04X word1=0x%04X)" [AInt w0; AInt w1]
       else mret tt);
  println "".
Fixpoint scan (steps : nat) (inst max found : Z) : Prog World Z :=
  if inst <=? max then
    match steps with
    | O => waiting
    | S steps =>
        r ← cipReq Svc.GetAttributeSingle (BuildPath ClassAssembly inst 3) [];
        match answered 0 r with
        | Some data => _ ← show_instance inst data; scan steps (u16 (inst + 1)) max (found + 1)
        | None => scan steps (u16 (inst + 1)) max found
        end
    end
  else mret found.
Definition assembly_section (steps : nat) (maxAssembly : Z) : Prog World unit :=
  _ ← section "  ASSEMBLY INSTANCES";
  found ← scan steps 1 (u16 maxAssembly) 0;
  if found =? 0 then println "  (none found — device may need I/O module configured)"
  else printf "  Total: %d instances\n" [AInt found].

(** ** Connection manager and classes *)
Definition counter (attr : Z) (fmt : string) : Prog World unit :=
  attribute 0x06 attr 2 (fun d => n ← eval (get_le16 d); printf fmt [AInt n]).
Definition connmgr_section : Prog World unit :=
  _ ← section "  CONNECTION MANAGER";
  _ ← counter 1 "  Open Requests:   %d\n";
  _ ← counter 2 "  Format Rejects:  %d\n";
  _ ← counter 3 "  Resource Rejects: %d\n";
  _ ← counter 4 "  Other Rejects:   %d\n";
  counter 5 "  Close Requests:  %d\n".

Definition show_class (c : Z * string) : Prog World unit :=
  let show d := printf "  0x%02X  %-28s  (%d bytes)\n" [AInt c.1; AText c.2; AInt (len d)] in
  r ← cipReq Svc.GetAttributeAll (BuildPath c.1 0 0) [];
  match answered 0 r with
  | Some d => show d
  | None =>
      r ← cipReq Svc.GetAttributeAll (BuildPath c.1 1 0) [];
      match answered 0 r with Some d => show d | None => mret tt end
  end.
Definition class_section : Prog World unit :=
  _ ← section "  CIP OBJECT CLASSES"; each 0 (fun _ => show_class) classes.

(** ** Tags *)
Definition show_tags (tags : list SymbolInstance) : Prog T unit :=
  if len tags =? 0 then println "  (no tags found)" else
  _ ← printf "  Found %d tags:\n" [AInt (len tags)];
  let show := if 50 <? len tags then 50 else len tags in
  _ ← each 0 (fun _ t =>
        printf "    %-40s  type=0x%04X (%s)\n" [AStr (Name t); AInt (sy_Type t); cipTypeName (sy_Type t)])
        (take (Z.to_nat show) tags);
  if show <? len tags then printf "    ... and %d more\n" [AInt (len tags - show)] else mret tt.
Definition close_first (w : World) : World := mkWorld (probe w) (eip_close (first w)) (second w).
Definition close_second (w : World) : World := mkWorld (probe w) (first w) (eip_close (second w)).
(** The clients stay open until [main] returns, so the rest runs inside. *)
Definition tags_section (rest : Prog World unit) : Prog World unit :=
  _ ← section "  TAGS (LOGIX)";
  r ← on_first (call Client_Connect);
  match r with
  | inl err => _ ← printf "  (connect for tag list failed: %v)\n" [AErr err]; rest
  | inr _ =>
      deferred close_first (
        r ← on_first (callR (ListTags (NewClient 0) fuel));
        _ ← match r with
            | inl err => printf "  (list tags failed: %v)\n" [AErr err]
            | inr tags => on_first (show_tags tags)
            end;
        rest)
  end.

Definition sampled (t : Z) : bool :=
  (t =? CipType.DINT) || (t =? CipType.REAL) || (t =? CipType.INT) || (t =? CipType.BOOL).
(** At most ten values. *)
Fixpoint sample (count : Z) (tags : list SymbolInstance) : Prog T Z :=
  match tags with
  | [] => mret count
  | t :: tags =>
      if 10 <=? count then mret count else
      if sampled (sy_Type t) then
        r ← callR (ReadTag (NewClient 0) fuel (Name t));
        match r with
        | inl _ => sample count tags
        | inr data =>
            valStr ← eval (formatTagValue data (sy_Type t));
            _ ← printf "    %-40s = %s\n" [AStr (Name t); valStr];
            sample (count + 1) tags
        end
      else sample count tags
  end.
Definition sample_section (rest : Prog World unit) : Prog World unit :=
  _ ← section "  SAMPLE TAG VALUES";
  r ← on_second (call Client_Connect);
  match r with
  | inl _ => rest
  | inr _ =>
      deferred close_second (
        r ← on_second (callR (ListTags (NewClient 0) fuel));
        let tags := match r with inr tags => tags | inl _ => [] end in
        count ← on_second (sample 0 tags);
        _ ← (if count =? 0 then println "  (no readable scalar tags found)" else mret tt);
        rest)
  end.

Definition complete : Prog World unit := section "  PROBE COMPLETE".
Definition report (steps : nat) (maxAssembly : Z) (probeTags : bool) : Prog World unit :=
  _ ← identity_section;
  _ ← tcpip_section;
  _ ← ethernet_section;
  _ ← assembly_section steps maxAssembly;
  _ ← connmgr_section;
  _ ← class_section;
  if probeTags then tags_section (sample_section complete) else complete.

Definition set_probe (s : Session P) (w : World) : World := mkWorld s (first w) (second w).
(** [main] with the flags and the positional arguments; ':' is 58. *)
Definition main (steps : nat) (maxAssembly : Z) (probeTags : bool) (args : list bytes) : Prog World unit :=
  match args with
  | [] => _ ← eprintln "Usage: go run . <PLC_IP> [flags]"; exit 1
  | addr :: _ =>
      let tcpAddr := if bool_decide (58 ∈ addr) then addr else (addr ++ str ":44818")%list in
      match dial tcpAddr with
      | Err err => _ ← eprintf "Connect to %s: %v\n" [AStr addr; AErr err]; exit 1
      | Panic => eval Panic
      | Ok tc =>
          fun w =>
          (deferred (fun w => set_probe (mkSession (handle (probe w)) (hang_up (conn (probe w)))) w) (
             r ← call (on_probe Register);
             match r with
             | inl err => _ ← eprintf "Register session: %v\n" [AErr err]; exit 1
             | inr _ => deferred (fun w => (on_probe Unregister w).2) (report steps maxAssembly probeTags)
             end)) (set_probe (NewSession tc) w)
      end
  end.
End Program.
End Probe.

(** ** Field widths

    Where the arithmetic of the source wraps. *)
Module ProbeFields.
Import Probe.

(** The name of an identity: read when it is all there and its length byte is
    below 241; from 241 on the end of the slice wraps below its start. *)
Lemma identity_name_spec d nameLen : 15 <= len d -> d !! 14%nat = Some nameLen -> is_u8 nameLen ->
  identity_name d =
    if 241 <=? nameLen then Panic
    else if 15 + nameLen <=? len d then Ok (take (Z.to_nat nameLen) (drop 15 d)) else Ok [].
Proof.
  intros Hd Hn Hu. unfold identity_name, is_u8 in *. destruct (go_index_in d 14) as (b & Hb & ->); [lia|].
  change (Z.to_nat 14) with 14%nat in Hb. simplify_eq. go_bind.
  destruct (Z.leb_spec 241 nameLen).
  - assert (u8 (15 + nameLen) = nameLen - 241) as ->.
    { unfold u8. symmetry. apply (Z.mod_unique _ _ 1); [left|]; cbn; lia. }
    destruct (Z.leb_spec (nameLen - 241) (len d)); [|lia]. unfold go_slice. by rewrite decide_False by lia.
  - rewrite u8_small by (unfold is_u8; lia). destruct (Z.leb_spec (15 + nameLen) (len d)); [|done].
    unfold go_slice. rewrite decide_True by lia.
    by replace (15 + nameLen - 15) with nameLen by lia.
Qed.
(** The host name, with its 16-bit length. *)
Lemma hostname_spec strLen rest : is_u16 strLen ->
  hostname (le16 strLen ++ rest) =
    if 65534 <=? strLen then Panic
    else if strLen <=? len rest then Ok (take (Z.to_nat strLen) rest) else Ok [].
Proof.
  intros Hu. pose proof (len_nonneg rest). unfold hostname. rewrite go_slice_prefix by done. go_bind.
  rewrite <-(app_nil_r (le16 strLen)) at 1. rewrite get_le16_le16 by done. go_bind. unfold is_u16 in *.
  destruct (Z.leb_spec 65534 strLen).
  - assert (u16 (2 + strLen) = strLen - 65534) as ->.
    { unfold u16. symmetry. apply (Z.mod_unique _ _ 1); [left|]; cbn; lia. }
    destruct (Z.leb_spec (strLen - 65534) (len (le16 strLen ++ rest))); [|lens; lia].
    unfold go_slice. by rewrite decide_False by lia.
  - rewrite u16_small by (unfold is_u16; lia). lens.
    destruct (Z.leb_spec (2 + strLen) (2 + len rest)), (Z.leb_spec strLen (len rest)); try lia; [|done].
    unfold go_slice. lens. rewrite decide_True by lia. by replace (2 + strLen - 2) with strLen by lia.
Qed.

Section Crash.
Context {P C T : Type} `{Wire P} `{Transport C T} `{SessionLink C T}.

(** Statements that can only panic, before one that does. *)
Lemma eval_crash {S A B} (m : outcome A) (f : A -> Prog S B) s :
  (forall a, f a s = (Crashed, s, [])) -> (eval m ≫= f) s = (Crashed, s, []).
Proof. intros Hf. unfold mbind, Prog_bind, eval. destruct m; [by rewrite Hf|done|done]. Qed.

Lemma bind_crashed {S A B} (m : Prog S A) (f : A -> Prog S B) s s' out :
  m s = (Crashed, s', out) -> (m ≫= f) s = (Crashed, s', out).
Proof. intros E. unfold mbind, Prog_bind. by rewrite E. Qed.

(** The probe ends with a panic, after printing nothing but the first title, on a
    device whose identity has a name length of 241 or more. *)
Theorem identity_crash fuel steps maxAssembly probeTags (w : World) service s' d nameLen :
  SendCIPRequest (mkMRReq Svc.GetAttributeAll (BuildPath 0x01 1 0) []) (probe w) =
    (Ok (mkMRResp service 0 Status.Success 0 [] d), s') ->
  15 <= len d -> d !! 14%nat = Some nameLen -> 241 <= nameLen <= 255 ->
  ending_of (report fuel steps maxAssembly probeTags) w = Crashed /\
  length (output (report fuel steps maxAssembly probeTags) w) = 3%nat.
Proof.
  intros Hr Hd Hn Hu. set (w' := mkWorld s' (first w) (second w)).
  assert (show_identity d w' = (Crashed, w', [])) as Hc.
  { unfold show_identity. do 7 (apply eval_crash; intros ?). unfold mbind, Prog_bind, eval.
    rewrite (identity_name_spec d nameLen Hd Hn ltac:(unfold is_u8; lia)).
    by destruct (Z.leb_spec 241 nameLen); [|lia]. }
  assert (exists out, identity_section w = (Crashed, w', out) /\ length out = 3%nat) as (out & Hi & Hl).
  { unfold identity_section, title, println, emit, cipReq, call, on_probe, mbind, Prog_bind.
    cbv beta iota. rewrite Hr. fold w'.
    unfold answered, IsSuccess. cbn [GeneralStatus ResponseData]. change (Status.Success =? Status.Success) with true.
    destruct (Z.leb_spec 15 (len d)); [|lia]. cbn [andb]. rewrite Hc. by eexists. }
  unfold ending_of, output, report. by rewrite (bind_crashed _ _ _ _ _ Hi).
Qed.
End Crash.
End ProbeFields.

(** ** The scan of the assemblies *)
Module ProbeScan.
Import Probe.

Section Endless.
Context {P C T : Type} `{Wire P} `{Transport C T} `{SessionLink C T}.

Lemma scan_full (steps : nat) : forall inst found (w : @World P T) n w' out,
  is_u16 inst -> scan steps inst 65535 found w <> (Returned n, w', out).
Proof.
  induction steps as [|steps IH]; intros inst found w n w' out Hi E; cbn [scan] in E;
    destruct (Z.leb_spec inst 65535); try (unfold is_u16 in Hi; lia); [done|].
  unfold mbind, Prog_bind in E. destruct (cipReq _ _ _ w) as [[[r|?| |] w1] o1]; try done.
  assert (is_u16 (u16 (inst + 1))) as Hi' by (unfold is_u16, u16; pose proof (Z.mod_pos_bound (inst + 1) 65536); lia).
  destruct (answered 0 r) as [data|].
  - destruct (show_instance inst data w1) as [[[a|?| |] w2] o2]; try done.
    destruct (scan steps _ _ _ w2) as [[[] ?] ?] eqn:E'; try done. by eapply IH.
  - destruct (scan steps _ _ _ w1) as [[[] ?] ?] eqn:E'; try done. by eapply IH.
Qed.

(** With [-assemblies=65535], or any other bound that is 65535 in 16 bits, such as
    -1, the scan never ends: no number of steps is enough, whatever the device
    answers, since the 16-bit instance number cannot pass the bound. *)
Theorem scan_endless steps maxAssembly (w : @World P T) : maxAssembly mod 65536 = 65535 ->
  forall a w' out, assembly_section steps maxAssembly w <> (Returned a, w', out).
Proof.
  intros Hm a w' out E. unfold assembly_section in E.
  assert (u16 maxAssembly = 65535) as Hu by exact Hm. rewrite Hu in E.
  unfold mbind at 1, Prog_bind at 1 in E. destruct (section _ w) as [[[] w1] ?]; try done.
  unfold mbind, Prog_bind in E. destruct (scan steps 1 65535 0 w1) as [[[n|?| |] w2] o2] eqn:Es; try done.
  eapply scan_full, Es. width_lia.
Qed.
End Endless.

(** What is printed of an instance. *)
Definition words_line (data : bytes) : list line :=
  match data with
  | [b0; b1; b2; b3; _; _; _; _; _; _; _; _] =>
      [Printed Stdout "  (word0=0x%04X word1=0x%04X)"
         [AInt (Z.lor b0 (Z.shiftl b1 8)); AInt (Z.lor b2 (Z.shiftl b3 8))]]
  | _ => []
  end.
Definition instance_lines (inst : Z) (data : bytes) : list line :=
  ([Printed Stdout "  Instance %3d:  %3d bytes" [AInt inst; AInt (len data)];
    Printed Stdout "  [% X" [AHex (take 24 data)]] ++
   (if 24 <? len data then [Printed Stdout "..." []] else []) ++
   [Printed Stdout "]" []] ++ words_line data ++ [Printedln Stdout ""])%list.

Lemma show_instance_wp {P T} inst data (x : @World P T) :
  wp (show_instance inst data) x (fun _ x' out => x' = x /\ out = instance_lines inst data).
Proof.
  unfold show_instance, instance_lines, printf, println. apply wp_bind, wp_emit, wp_bind.
  apply (wp_eval _ (take 24 data)).
  { destruct (Z.ltb_spec 24 (len data)).
    - unfold go_slice. by rewrite decide_True by lia.
    - rewrite take_ge; [done|]. unfold len in *. lia. }
  apply wp_bind, wp_emit, wp_bind.
  apply (wp_conseq _ _ (fun _ x' out => x' = x /\ out = if 24 <? len data then [Printed Stdout "..." []] else [])).
  { by destruct (24 <? len data). }
  intros _ _ out [-> ->]. apply wp_bind, wp_emit, wp_bind.
  apply (wp_conseq _ _ (fun _ x' out => x' = x /\ out = words_line data)).
  { destruct (Z.eqb_spec (len data) 12) as [El|Hne].
    - do 13 (destruct data as [|? data]; [cbn in El; unfold len in El; cbn in El; lia || done|]).
      exfalso. unfold len in El. cbn in El. lia.
    - split; [done|]. do 13 (destruct data as [|? data]; try done). }
  intros _ _ out [-> ->]. by apply wp_emit.
Qed.

(** ** Against a device

    Over a session with the adapter of [EipSession]. *)
Section Device.
Context {C T : Type} `{Transport C T} `{SessionLink C T}.
Variable identity : ListIdentityItem.
#[local] Instance served : Wire (Served Device) := Served_Wire adapter identity.
Variables (h n : Z) (w : Device) (one two : T).
Hypothesis Hh : is_u32 h /\ h <> 0.
Hypothesis Hw : adapter_inv w.

Definition live (x : World) : Prop :=
  first x = one /\ second x = two /\ exists wr, probe x = mkSession h (mkServed [] [] (mkCS h wr) (mkShared n w) true).

Lemma assembly_asked i (x : @World (Served Device) T) : is_u16 i -> live x ->
  wp (cipReq Svc.GetAttributeSingle (BuildPath ClassAssembly i 3) []) x (fun r x' out =>
    live x' /\ out = [] /\ answered 0 r = Assembly.as_Data <$> Assembly.instances w.1 !! i).
Proof.
  intros Hi (Ho & Ht & wr & Hp). unfold cipReq, wp, Console.call, on_probe. rewrite Hp.
  set (req := mkMRReq Svc.GetAttributeSingle (BuildPath ClassAssembly i 3) []).
  assert (request_fits req) as Hf.
  { destruct (BuildPath_ok ClassAssembly i 3) as (Hb & Hl & Hl').
    split; [split_and!; [done|constructor|done]|]. unfold maxPacketSize.
    unfold req, MRReq_Encode. cbn [mq_Service RequestPath RequestData]. unfold path_ok in *. lens. lia. }
  pose proof (SendCIPRequest_served adapter identity adapter_inv adapter_safe adapter_fits req h wr n w Hf
    (proj1 Hh) (proj2 Hh) Hw) as Hs.
  assert (Dispatch adapter req w = Cip.call on_assembly Svc.GetAttributeSingle
    (logical_segment LogicalTypeInstance i ++ logical_segment LogicalTypeAttribute 3) [] w) as Ed.
  { unfold req. rewrite BuildPath_shape. change (negb (3 =? 0)) with true. cbv iota.
    by apply (Dispatch_class adapter Svc.GetAttributeSingle ClassAssembly). }
  rewrite Ed in Hs. unfold Cip.call, on_assembly, Assembly.HandleRequest, mbind, SM_bind, pure in Hs.
  rewrite Assembly.decode_built_path in Hs by (done || width_lia). cbn in Hs.
  unfold Assembly.GetAttributeSingle in Hs. change (3 =? 3) with true in Hs.
  destruct (Assembly.instances w.1 !! i) as [inst|]; cbn in Hs; destruct Hs as [_ [wr' Hs]].
  all: rewrite <-surjective_pairing in Hs; unfold served; rewrite Hs;
    (split; [split_and!; [done..|]; by exists wr'|split; [done|]]).
  2: done.
  unfold answered, IsSuccess. cbn. pose proof (len_nonneg (Assembly.as_Data inst)).
  by destruct (Z.leb_spec 0 (len (Assembly.as_Data inst))); [|lia].
Qed.

(** The lines of the instances among [ids], in order, and how many there are. *)
Definition scanned (ids : list Z) : list line :=
  flat_map (fun i => match Assembly.instances w.1 !! i with
                     | Some a => instance_lines i (Assembly.as_Data a)
                     | None => []
                     end) ids.
Definition present (ids : list Z) : Z :=
  len (filter (fun i => is_Some (Assembly.instances w.1 !! i)) ids).

Lemma scan_wp (k : nat) : forall steps inst found (x : @World (Served Device) T),
  1 <= inst -> inst + Z.of_nat k <= 65535 -> (k <= steps)%nat -> live x ->
  wp (scan steps inst (inst + Z.of_nat k - 1) found) x (fun r x' out =>
    live x' /\ out = scanned (seqZ inst (Z.of_nat k)) /\ r = found + present (seqZ inst (Z.of_nat k))).
Proof.
  induction k as [|k IH]; intros steps inst found x Hi Hk Hs Hx.
  - destruct steps; cbn [scan]; (destruct (Z.leb_spec inst (inst + Z.of_nat 0 - 1)); [lia|]);
      (split; [done|]; split; [done|]; change (found = found + 0); lia).
  - destruct steps as [|steps]; [lia|]. cbn [scan].
    destruct (Z.leb_spec inst (inst + Z.of_nat (S k) - 1)); [|lia].
    apply wp_bind. eapply wp_conseq; [apply assembly_asked; [width_lia|done]|].
    intros r x' out (Hx' & -> & ->). rewrite u16_small by width_lia.
    replace (inst + Z.of_nat (S k) - 1) with (inst + 1 + Z.of_nat k - 1) by lia.
    rewrite (seqZ_cons inst) by lia. replace (Z.pred (Z.of_nat (S k))) with (Z.of_nat k) by lia.
    unfold scanned, present. cbn [flat_map]. rewrite filter_cons.
    destruct (Assembly.instances w.1 !! inst) as [a|] eqn:Ea; cbn [fmap option_fmap option_map].
    + apply wp_bind. eapply wp_conseq; [apply show_instance_wp|]. intros _ _ out [-> ->].
      eapply wp_conseq; [apply (IH steps (Z.succ inst) (found + 1)); (lia || done)|].
      intros r'' x'' out (Hl & -> & ->). split; [done|]. split; [done|].
      rewrite decide_True by eauto. unfold present. lens. lia.
    + eapply wp_conseq; [apply (IH steps (Z.succ inst) found); (lia || done)|].
      intros r'' x'' out (Hl & -> & ->). split; [done|]. split; [done|].
      by rewrite decide_False by (intros [? ?]; done).
Qed.

Definition heading (text : string) : list line :=
  [Printedln Stdout "";
   Printedln Stdout "═══════════════════════════════════════════════════════════════";
   Printedln Stdout text;
   Printedln Stdout "═══════════════════════════════════════════════════════════════"].

(** C33: The assemblies of a device.  Over a registered session with a device, with a
    bound below 65535, the scan ends, prints of every assembly instance from 1 to
    the bound, in order, its number, its size and its data, and of nothing else,
    and then their number; the session and the device are as before. *)
Theorem probe_lists_assemblies steps maxAssembly (x : @World (Served Device) T) :
  0 <= maxAssembly < 65535 -> (Z.to_nat maxAssembly <= steps)%nat -> live x ->
  wp (assembly_section steps maxAssembly) x (fun _ x' out =>
    live x' /\
    out = (heading "  ASSEMBLY INSTANCES" ++ scanned (seqZ 1 maxAssembly) ++
           [if present (seqZ 1 maxAssembly) =? 0
            then Printedln Stdout "  (none found — device may need I/O module configured)"
            else Printed Stdout "  Total: %d instances\n" [AInt (present (seqZ 1 maxAssembly))]])%list).
Proof.
  intros Hm Hs Hx. unfold assembly_section, section, title, println, printf.
  apply wp_bind. wp_print. apply wp_emit, wp_bind. rewrite u16_small by width_lia.
  replace maxAssembly with (1 + Z.of_nat (Z.to_nat maxAssembly) - 1) at 1 by lia.
  eapply wp_conseq; [apply scan_wp; (lia || done)|]. rewrite Z2Nat.id by lia.
  intros found x' out (Hx' & -> & ->). rewrite Z.add_0_l.
  by destruct (present (seqZ 1 maxAssembly) =? 0); apply wp_emit.
Qed.
End Device.
End ProbeScan.

(** ** Concrete devices *)
Module ProbeDemo.
Import Probe ProbeFields ProbeScan.

(** A device whose identity claims a name of 241 bytes, and sends none of it. *)
Definition long_identity : bytes := (replicate 14 0 ++ [241])%list.
Definition identity_router : MessageRouter unit :=
  RegisterObject 1 (fun _ _ _ w => (Ok long_identity, w)) NewMessageRouter.
#[local] Instance identity_wire : Wire (Served unit) := Served_Wire identity_router no_identity.
Definition registered {W} (w : W) : @World (Served W) Bench.bench :=
  mkWorld (mkSession 42 (mkServed [] [] (mkCS 42 []) (mkShared 42 w) true)) Bench.plant Bench.plant.

Lemma identity_crash_witness :
  ending_of (report 5 300 255 true) (registered tt) = Crashed /\
  length (output (report 5 300 255 true) (registered tt)) = 3%nat.
Proof.
  refine (identity_crash 5 300 255 true (registered tt) 0x81
    (SendCIPRequest (mkMRReq Svc.GetAttributeAll (BuildPath 0x01 1 0) []) (probe (registered tt))).2
    long_identity 241 _ _ _ _).
  - vm_compute. reflexivity.
  - vm_compute. discriminate.
  - reflexivity.
  - lia.
Defined.

#[local] Instance adapter_wire : Wire (Served Device) := Served_Wire adapter no_identity.
Lemma scan_endless_witness :
  forall a w' out, assembly_section 1000 (-1) (registered demo_world) <> (Returned a, w', out).
Proof. apply scan_endless. reflexivity. Defined.

Lemma probe_lists_assemblies_witness :
  wp (assembly_section 255 255) (registered demo_world) (fun _ _ out =>
    out = (heading "  ASSEMBLY INSTANCES" ++ instance_lines 100 [0; 0] ++
           [Printed Stdout "  Total: %d instances\n" [AInt 1]])%list).
Proof.
  eapply wp_conseq.
  - apply (probe_lists_assemblies no_identity 42 42 demo_world Bench.plant Bench.plant
      ltac:(split; [unfold is_u32; lia|lia]) ltac:(decided) 255 255 (registered demo_world));
      [lia|vm_compute; lia|].
    split; [reflexivity|]. split; [reflexivity|]. exists []. reflexivity.
  - intros a x' out [_ ->]. vm_compute. reflexivity.
Defined.
End ProbeDemo.
