(* ===== verification/EipBrowse.v ===== *)
(** * EtherNet/IP programs: browsing, polling and a custom type

    Models [examples/ethernetip/list_tags], [list_identity], [reconnecting] (its
    transport hooks only log, and are left out) and [custom_type], whose codec for
    a site-specific structure and its registration are shown to fit the typed
    read of the client in [EipToolsOk]. *)
From S2P Require Import Prelude Bytes Transport Plc EipCodec Cip Pccc CipTags Hexdump EipClient CipTypes.
From S2P Require Import Console EipTools.
#[local] Open Scope string_scope.
#[local] Open Scope Z_scope.

(** ** list_tags *)
Module ListTagsTool.
Section Program.
Context {C T : Type} `{Transport C T} `{SessionLink C T}.
Variable fuel : nat.

Definition tag_row (tag : SymbolInstance) : line :=
  Printed Stdout "  %-10d  %-40s  %s (0x%04X)\n"
    [AInt (InstanceID tag); AStr (Name tag); show_type (sy_Type tag); AInt (sy_Type tag)].
Definition show (tags : list SymbolInstance) : Prog T unit :=
  if len tags =? 0 then
    _ ← println "No tags found on the controller.";
    _ ← println "This can happen if:";
    _ ← println "  - The controller has no user-defined tags";
    _ ← println "  - External access is restricted for all tags";
    println "  - The controller firmware does not support symbol enumeration"
  else
    _ ← printf "Found %d tags:\n\n" [AInt (len tags)];
    _ ← printf "  %-10s  %-40s  %s\n" [AText "Instance"; AText "Name"; AText "Type"];
    _ ← printf "  %-10s  %-40s  %s\n" [AText "--------"; AText "----"; AText "----"];
    _ ← each 0 (fun _ tag => emit (tag_row tag)) tags;
    _ ← printf "\nTotal: %d tags\n" [AInt (len tags)];
    println "\nDone.".
Definition main (addr : bytes) : Prog T unit :=
  eip_connected "Failed to connect to %s: %v" addr (fun c =>
    _ ← printf "Connected to %s\n" [AStr addr];
    _ ← println "Enumerating tags via CIP Symbol Object (class 0x6B)...";
    _ ← println "";
    r ← callR (ListTags c fuel);
    match r with
    | inl err => fatalf "ListTags failed: %v" [AErr err]
    | inr tags => show tags
    end).
End Program.
End ListTagsTool.

(** ** list_identity *)
Module ListIdentityTool.
Section Program.
Context {C T : Type} `{Transport C T} `{SessionLink C T}.
Variable fuel : nat.

Definition vendor_line (vendorID : Z) : Prog T unit :=
  if vendorID =? 1 then printf "  Vendor:         Rockwell Automation / Allen-Bradley\n" []
  else if vendorID =? 9 then printf "  Vendor:         Schneider Electric\n" []
  else if vendorID =? 47 then printf "  Vendor:         WAGO\n" []
  else if vendorID =? 283 then printf "  Vendor:         Beckhoff\n" []
  else mret tt.
Definition class_line (deviceType : Z) : Prog T unit :=
  if deviceType =? 0x00 then printf "  Device Class:   Generic Device\n" []
  else if deviceType =? 0x0C then printf "  Device Class:   Communications Adapter\n" []
  else if deviceType =? 0x0E then printf "  Device Class:   Programmable Logic Controller\n" []
  else if deviceType =? 0x21 then printf "  Device Class:   CIP Motion Drive\n" []
  else mret tt.
Definition show_identity (several : bool) (i : Z) (id : ListIdentityItem) : Prog T unit :=
  _ ← (if several then printf "--- Device %d ---\n" [AInt (i + 1)] else mret tt);
  _ ← printf "  Product Name:   %s\n" [AStr (ProductName id)];
  _ ← printf "  Vendor ID:      %d\n" [AInt (li_VendorID id)];
  _ ← printf "  Device Type:    %d\n" [AInt (DeviceType id)];
  _ ← printf "  Product Code:   %d\n" [AInt (ProductCode id)];
  major ← eval (go_index (Revision id) 0);
  minor ← eval (go_index (Revision id) 1);
  _ ← printf "  Revision:       %d.%d\n" [AInt major; AInt minor];
  _ ← printf "  Serial Number:  0x%08X\n" [AInt (SerialNumber id)];
  _ ← printf "  Status:         0x%04X\n" [AInt (li_Status id)];
  _ ← printf "  State:          %d\n" [AInt (li_State id)];
  _ ← vendor_line (li_VendorID id);
  _ ← class_line (DeviceType id);
  println "".
Definition show_service (svc : ListServicesItem) : Prog T unit :=
  _ ← printf "  Service Name:    %s\n" [AStr (ls_Name svc)];
  _ ← printf "  Type ID:         0x%04X\n" [AInt (ls_TypeID svc)];
  _ ← printf "  Version:         %d\n" [AInt (ls_Version svc)];
  _ ← printf "  Capabilities:    0x%04X\n" [AInt (CapabilityFlags svc)];
  _ ← (if status_bit (CapabilityFlags svc) 5 then printf "    - Supports CIP encapsulation via TCP\n" [] else mret tt);
  _ ← (if status_bit (CapabilityFlags svc) 8 then printf "    - Supports CIP encapsulation via UDP\n" [] else mret tt);
  println "".

Definition main (addr : bytes) : Prog T unit :=
  eip_connected "Failed to connect to %s: %v" addr (fun c =>
    _ ← printf "Connected to %s\n\n" [AStr addr];
    _ ← println "=== ListIdentity ===";
    _ ← println "";
    r ← callR (Client_ListIdentity c fuel);
    match r with
    | inl err => fatalf "ListIdentity failed: %v" [AErr err]
    | inr identities =>
        _ ← (if len identities =? 0 then println "No identity items returned." else mret tt);
        _ ← each 0 (show_identity (1 <? len identities)) identities;
        _ ← println "=== ListServices ===";
        _ ← println "";
        r ← callR (Client_ListServices c fuel);
        match r with
        | inl err => fatalf "ListServices failed: %v" [AErr err]
        | inr services =>
            _ ← (if len services =? 0 then println "No service items returned." else mret tt);
            _ ← each 0 (fun _ => show_service) services;
            println "Done."
        end
    end).
End Program.
End ListIdentityTool.

(** ** reconnecting *)
Module EipReconnecting.

(** [errors.As(err, &cipErr)]: the CIP error in a chain. *)
Fixpoint as_cip_error (err : error) : option (Z * list Z) :=
  match err with
  | CipErr status ext => Some (status, ext)
  | Wrapf _ err => as_cip_error err
  | _ => None
  end.

Definition formatValue (dataType : Z) (valueBytes : bytes) : outcome arg :=
  let raw := AFmt "0x%X (type=0x%04X)" [AHex valueBytes; AInt dataType] in
  let number (n : Z) (k : Z -> arg) :=
    if n <=? len valueBytes then b ← go_slice valueBytes 0 n; Ok (k (le_uint b)) else Ok raw in
  if dataType =? CipType.DINT then number 4 (fun z => AFmt "%d" [AInt (signed 32 z)])
  else if dataType =? CipType.REAL then number 4 (fun z => AFmt "%.4f" [AFloat 32 z])
  else if dataType =? CipType.INT then number 2 (fun z => AFmt "%d" [AInt (signed 16 z)])
  else if dataType =? CipType.STRING then
    if 2 <=? len valueBytes then
      b ← go_slice valueBytes 0 2;
      let strLen := le_uint b in
      if 2 + strLen <=? len valueBytes
      then s ← go_slice valueBytes 2 (2 + strLen); Ok (AFmt "%q" [AStr s])
      else Ok raw
    else Ok raw
  else if dataType =? CipType.BOOL then number 1 (fun z => AText (if negb (z =? 0) then "true" else "false"))
  else Ok raw.

Section Program.
Context {C T : Type} `{Transport C T} `{SessionLink C T}.
Variable fuel : nat.

(** A reading at time [clock]; [cancelled] is [ctx.Err() != nil] after it. *)
Definition readAndPrint (client : Client) (tagName : bytes) (clock : arg) (cancelled : bool) : Prog T unit :=
  r ← callR (ReadTag client fuel tagName);
  match r with
  | inl err =>
      match as_cip_error err with
      | Some (status, ext) =>
          _ ← printf "[%s] CIP ERROR reading %q: status=0x%02X (%v)\n" [clock; AStr tagName; AInt status; AErr (CipErr status ext)];
          if status =? Status.PathDestinationUnknown
          then println "  -> Tag does not exist on the PLC. Check the tag name."
          else if status =? Status.ServiceNotSupported
          then println "  -> The target object does not support the ReadTag service."
          else if status =? Status.ObjectDoesNotExist
          then println "  -> The target CIP object class does not exist."
          else mret tt
      | None =>
          if cancelled then mret tt
          else printf "[%s] TRANSPORT ERROR reading %q: %v\n" [clock; AStr tagName; AErr err]
      end
  | inr data =>
      if len data <? 2
      then printf "[%s] Unexpected: response too short (%d bytes)\n" [clock; AInt (len data)] else
      dataType ← eval (type_code data);
      valueBytes ← eval (go_slice data 2 (len data));
      valueStr ← eval (formatValue dataType valueBytes);
      printf "[%s] %s (%s) = %s\n" [clock; AStr tagName; show_type dataType; valueStr]
  end.

(** What the [select] of the loop receives; without a further event it waits. *)
Inductive event : Type := Tick (clock : arg) (cancelled : bool) | Done.
Fixpoint poll_loop (client : Client) (tag : bytes) (events : list event) : Prog T unit :=
  match events with
  | [] => fun t => (Waiting, t, [])
  | Done :: _ => println "\nPolling loop stopped."
  | Tick clock cancelled :: events => _ ← readAndPrint client tag clock cancelled; poll_loop client tag events
  end.
(** [main]: an infinitely patient client over a reconnecting transport; the first
    reading comes before the loop. *)
Definition main (tag : bytes) (interval clock : arg) (cancelled : bool) (events : list event) : Prog T unit :=
  let client := NewClient (-1) in
  _ ← printf "Starting polling loop: reading tag %q every %v\n" [AStr tag; interval];
  _ ← println "Press Ctrl+C to stop.";
  _ ← println "";
  _ ← readAndPrint client tag clock cancelled;
  _ ← poll_loop client tag events;
  _ ← println "Closing client...";
  err ← (fun t => let '(e, t) := Close t in (Returned e, t, []));
  _ ← match err with
      | Some err => eprintf "Error closing client: %v\n" [AErr err]
      | None => mret tt
      end;
  println "Done.".
End Program.
End EipReconnecting.

(** ** custom_type *)
Module CustomType.
Record SetOn3Timer : Type := mkSetOn3 {
  PRE : Z; ACC : Z; EN : bool; EN2 : bool; EN3 : bool; TT : bool; DN : bool }.
Definition setOn3EN : Z := 31.
Definition setOn3EN2 : Z := 28.
Definition setOn3EN3 : Z := 27.
Definition setOn3TT : Z := 30.
Definition setOn3DN : Z := 29.

Definition UnmarshalCIP (data : bytes) : outcome SetOn3Timer :=
  if len data <? 12 then Err (Errorf "SET_ON_3_TMR: need 12 bytes, got %d") else
  status ← le32_at data 0; pre ← le32_at data 4; acc ← le32_at data 8;
  Ok (mkSetOn3 (i32 pre) (i32 acc) (status_bit status setOn3EN) (status_bit status setOn3EN2)
        (status_bit status setOn3EN3) (status_bit status setOn3TT) (status_bit status setOn3DN)).
Definition MarshalCIP (s : SetOn3Timer) : bytes :=
  let status := or_bit 0 setOn3EN (EN s) in
  let status := or_bit status setOn3EN2 (EN2 s) in
  let status := or_bit status setOn3EN3 (EN3 s) in
  let status := or_bit status setOn3TT (TT s) in
  let status := or_bit status setOn3DN (DN s) in
  (le32 status ++ le32 (u32 (PRE s)) ++ le32 (u32 (ACC s)))%list.

(** The codec and its registration in [init]. *)
Definition codec : TypeCodec :=
  mkCodec 0x2F83 (Some "SET_ON_3_TMR") SetOn3Timer UnmarshalCIP (fun s => Ok (MarshalCIP s)).
Definition init : registry -> outcome registry := RegisterType 0x2F83 codec.

Section Program.
Context {T : Type}.
(** [float64(x)/1000] and the clipped [float64(acc)/float64(pre)*100]. *)
Variables (seconds : Z -> arg) (percent : Z -> Z -> arg).

Definition printSetOn3Timer (s : SetOn3Timer) : Prog T unit :=
  _ ← printf "  PRE: %d ms" [AInt (PRE s)];
  _ ← (if 0 <? PRE s then printf "  (%.1f s)" [seconds (PRE s)] else mret tt);
  _ ← println "";
  _ ← printf "  ACC: %d ms" [AInt (ACC s)];
  _ ← (if 0 <? ACC s then printf "  (%.1f s)" [seconds (ACC s)] else mret tt);
  _ ← println "";
  _ ← (if 0 <? PRE s then printf "  Progress: %.1f%%\n" [percent (ACC s) (PRE s)] else mret tt);
  _ ← println "";
  _ ← printf "  EN:  %v\n" [ABool (EN s)];
  _ ← printf "  EN2: %v\n" [ABool (EN2 s)];
  _ ← printf "  EN3: %v\n" [ABool (EN3 s)];
  _ ← printf "  TT:  %v\n" [ABool (TT s)];
  _ ← printf "  DN:  %v\n" [ABool (DN s)];
  _ ← println "";
  _ ← println "  Raw bytes:";
  each 0 (fun _ ln => if 0 <? len ln then printf "    %s\n" [AStr ln] else mret tt)
    (Split 10 (Dump (MarshalCIP s) DirWrite [])).

(** The program without [-addr]; [reg] is the registry after [init]. *)
Definition sample : SetOn3Timer := mkSetOn3 8000 0 true true false true false.
Definition offlineDemo (reg : registry) : Prog T unit :=
  let dt_name dt := AText (DataType_String reg dt) in
  _ ← println "=== Custom CIP Type Registry Demo ===";
  _ ← println "";
  _ ← printf "DataType(0x2F83).String() = %s\n" [dt_name 0x2F83];
  _ ← printf "DataType(0xAF83).String() = %s  (array variant)\n" [dt_name 0xAF83];
  _ ← println "";
  match LookupType 0x2F83 reg with
  | None => fatalf "LookupType returned nil — registration failed" []
  | Some _ =>
      _ ← printf "LookupType(0x2F83) -> %T\n" [AText "*main.SetOn3Timer"];
      _ ← println "";
      let encoded := MarshalCIP sample in
      _ ← printf "Encoded wire bytes (%d bytes):\n" [AInt (len encoded)];
      _ ← println "";
      _ ← printf "%s" [AStr (formatDump encoded DirWrite)];
      _ ← println "";
      match UnmarshalCIP encoded with
      | Err err => fatalf "UnmarshalCIP: %v" [AErr err]
      | Panic => eval Panic
      | Ok decoded =>
          _ ← println "Decoded fields:";
          _ ← printSetOn3Timer decoded;
          match GoTypeToCIPType (GCodec (tc_CIPType codec) (Ok (MarshalCIP decoded))) with
          | Err err => fatalf "GoTypeToCIPType: %v" [AErr err]
          | Panic => eval Panic
          | Ok dt =>
              _ ← printf "\nGoTypeToCIPType(*SetOn3Timer) = %s (0x%04X)\n" [dt_name dt; AInt dt];
              _ ← println "";
              _ ← println "Simulated ListTags output:";
              _ ← printf "  %-10s  %-40s  %s (0x%04X)\n" [AText "Instance"; AText "Name"; AText "Type"; AInt 0];
              _ ← printf "  %-10s  %-40s  %s (0x%04X)\n" [AText "--------"; AText "----"; AText "----"; AInt 0];
              _ ← printf "  %-10d  %-40s  %s (0x%04X)\n" [AInt 432; AText "MyCustomTimer"; dt_name 0xAF83; AInt 0xAF83];
              printf "  %-10d  %-40s  %s (0x%04X)\n" [AInt 100; AText "MyDINT"; dt_name 0x00C4; AInt 0x00C4]
          end
      end
  end.

Context {C : Type} `{Transport C T} `{SessionLink C T}.
Variable fuel : nat.
Definition main (reg : registry) (addr tag : bytes) : Prog T unit :=
  if bool_decide (addr = []) then offlineDemo reg else
  r ← call Client_Connect;
  match r with
  | inl err => fatalf "connect: %v" [AErr err]
  | inr _ => deferred eip_close (
      r ← callR (ReadT (NewClient 2) fuel tag (TUnmarshaler UnmarshalCIP));
      match r with
      | inl err => fatalf "read %q: %v" [AStr tag; AErr err]
      | inr val => _ ← printf "\n%s:\n" [AStr tag]; printSetOn3Timer val
      end)
  end.
End Program.
End CustomType.
