(* ===== verification/EipToolsOk.v ===== *)
(** * EtherNet/IP programs: properties

    What the programs of [EipTools] and [EipBrowse] do on a device that holds the
    tags they are asked for: [write_tag] writes the number it was given as text and
    shows the number it reads back, a STRING can never be written, and the custom
    structure of [custom_type] is read and shown field by field. *)
From S2P Require Import Prelude Bytes Transport Plc EipCodec Cip Pccc CipTags Hexdump EipClient CipTypes.
From S2P Require Import LuaVM LuaEip EipPlant Console EipTools EipBrowse.
#[local] Open Scope string_scope.
#[local] Open Scope Z_scope.

(** ** Programs on a device *)
Lemma wp_callR {T A} (m : Run T A) t a t' Q : m t = Some (Ok a, t') -> Q (inr a) t' [] -> wp (callR m) t Q.
Proof. intros E. unfold wp, callR. by rewrite E. Qed.

Section OnDevice.
Context {C T W : Type} `{CipDevice C T W} `{!TagDevice answers}.

Lemma Connect_live sess t : live sess t -> Client_Connect t = (Ok tt, t).
Proof. intros Hl. unfold Client_Connect. by rewrite (live_conn sess t Hl). Qed.
Lemma eip_connected_wp failed addr body sess t Q : live sess t ->
  wp (body (NewClient 2)) t (fun _ t' out => Q tt (eip_close t') out) ->
  wp (eip_connected failed addr body) t Q.
Proof.
  intros Hl Hb. unfold eip_connected. apply wp_bind. eapply wp_call; [by eapply Connect_live|].
  apply wp_deferred. eapply wp_conseq; [exact Hb|]. by intros [] ? ?.
Qed.

(** The first element of a tag, with its type code. *)
Lemma ReadTag_live c fuel name p dt el els sess t :
  0 <= retries c < 2147483647 -> live sess t -> ParseTagPath name = Ok p ->
  tag (device t) p = Some (dt, el :: els) -> fits (NewReadTagRequest p 1) ->
  exists t', ReadTag c (S fuel) name t = Some (Ok (le16 dt ++ el)%list, t') /\ device t' = device t.
Proof.
  intros Hr Hl Hp Ht Hf. pose proof (read_answer _ _ _ _ 1 Ht ltac:(done)) as Hrd.
  change (Z.to_nat 1) with 1%nat in Hrd. cbn [take concat] in Hrd. rewrite app_nil_r in Hrd.
  destruct (do_request c fuel _ (fun resp => Ok (ResponseData resp)) sess t _ _ _ _ Hl Hf
    (Hrd ltac:(lens; pose proof (len_nonneg els); lia)) eq_refl) as (t' & E & Hd & _); [by left|].
  exists t'. split; [|done]. unfold ReadTag, ReadTagElements. change (1 =? 0) with false. cbv iota.
  rewrite (Run_bind_Ok _ _ _ p t) by (unfold local; by rewrite Hp). by rewrite E.
Qed.
End OnDevice.

(** ** write_tag *)
Module WriteTagOk.
Import WriteTag.

(** The integer types: signedness, bytes, and the Go value of a number. *)
Definition int_hint (h : hint_type) : option (bool * nat * (Z -> GoValue)) :=
  match h with
  | HSINT => Some (true, 1%nat, GInt8)
  | HINT => Some (true, 2%nat, GInt16)
  | HDINT => Some (true, 4%nat, GInt32)
  | HLINT => Some (true, 8%nat, GInt64)
  | HUSINT => Some (false, 1%nat, GUint8)
  | HUINT => Some (false, 2%nat, GUint16)
  | HUDINT => Some (false, 4%nat, GUint32)
  | HULINT => Some (false, 8%nat, GUint64)
  | _ => None
  end.
Definition in_range (sg : bool) (w : nat) (z : Z) : Prop :=
  if sg then - 2 ^ (8 * Z.of_nat w - 1) <= z < 2 ^ (8 * Z.of_nat w - 1) else 0 <= z < 2 ^ (8 * Z.of_nat w).

Lemma signed_in bits z : 0 < bits -> - 2 ^ (bits - 1) <= z < 2 ^ (bits - 1) -> signed bits z = z.
Proof.
  intros Hb Hz. unfold signed. assert (2 ^ bits = 2 * 2 ^ (bits - 1)) as ->.
  { rewrite <-Z.pow_succ_r by lia. f_equal. lia. }
  rewrite Z.mod_small by lia. lia.
Qed.

Lemma parse_int_value ParseFloat typeName h sg w mk z :
  parse_hint typeName = Some h -> int_hint h = Some (sg, w, mk) -> in_range sg w z ->
  parseValue ParseFloat typeName (itoa z) = Ok (mk z) /\ go_shape (mk z) = Some (SInt sg w, VNum z) /\
  show_value (mk z) = AInt z.
Proof.
  intros Hh Hi Hz. unfold parseValue. rewrite Hh.
  destruct h; try done; injection Hi as <- <- <-; unfold in_range in Hz; simpl in Hz;
    (rewrite ParseInt_itoa || rewrite ParseUint_itoa); try (simpl; lia); (split; [|done]); go_bind;
    rewrite ?signed_in, ?u8_small, ?u16_small, ?u32_small; try done;
    unfold is_u8, is_u16, is_u32; simpl; lia.
Qed.

Lemma decode_int typeName h sg w mk z dt :
  parse_hint typeName = Some h -> int_hint h = Some (sg, w, mk) -> in_range sg w z ->
  GoTypeToCIPType (mk z) = Ok dt ->
  decodeValue typeName (le16 dt ++ le_bytes w z) = Ok (mk z).
Proof.
  intros Hh Hi Hz Hd.
  assert (0 <= dt < CipType.STRUCT) as Hdt.
  { destruct h; try done; injection Hi as <- <- <-; injection Hd as <-; (split; [vm_compute; discriminate|reflexivity]). }
  assert (len (le_bytes w z) = Z.of_nat w) as Hl by (unfold len; by rewrite length_cip_bytes).
  unfold decodeValue. rewrite (proj2 (Z.ltb_ge _ _)) by (lens; lia).
  rewrite type_code_le16 by (unfold is_u16, CipType.STRUCT in *; lia). go_bind.
  rewrite (proj2 (Z.leb_gt _ _)) by lia. rewrite (proj2 (Z.ltb_ge _ _)) by (lens; lia).
  rewrite go_slice_suffix by (lens; done || lia). go_bind. rewrite Hh.
  destruct h; try done; injection Hi as <- <- <-; unfold with_bytes; rewrite Hl;
    cbn [Z.of_nat Pos.of_succ_nat Z.ltb Z.compare Pos.compare Pos.compare_cont Pos.succ];
    (rewrite <-(app_nil_r (le_bytes _ _)), go_slice_prefix by (by rewrite Hl)); go_bind;
    rewrite le_uint_bytes; unfold in_range in Hz;
    first [rewrite cip_signed_mod by (simpl in *; lia)|rewrite Z.mod_small by done]; done.
Qed.

Lemma itoa_nonempty z : itoa z <> [].
Proof.
  assert (forall fuel n acc, acc <> [] \/ fuel <> O -> itoa_digits fuel n acc <> []) as Hd.
  { induction fuel as [|fuel IH]; intros n acc Ha; [by destruct Ha|]. cbn [itoa_digits].
    case_match; [done|]. apply IH. by left. }
  unfold itoa. destruct (z <? 0); [done|]. apply Hd. by right.
Qed.

Section OnDevice.
Context {C T W : Type} `{CipDevice C T W} `{!TagDevice answers}.
Variable ParseFloat : Z -> bytes -> outcome Z.

(** C32: write_tag on a device.  Given an integer type by name, in any case, and a
    number in the range of the type as text, for a tag of the matching CIP type,
    the program returns; the tag then holds the little-endian bytes of the number,
    its other elements are as before, and the program has shown the number it read
    back, which is the one it was given. *)
Theorem write_tag_verified fuel addr name p typeName h sg w mk z dt el els sess t :
  name <> [] -> ParseTagPath name = Ok p ->
  parse_hint typeName = Some h -> int_hint h = Some (sg, w, mk) -> in_range sg w z ->
  GoTypeToCIPType (mk z) = Ok dt -> live sess t ->
  tag (device t) p = Some (dt, el :: els) -> length el = w ->
  fits (NewWriteTagRequest p dt 1 (le_bytes w z)) -> fits (NewReadTagRequest p 1) ->
  wp (main ParseFloat (S fuel) addr name typeName (itoa z)) t (fun _ t' out =>
    exists t1, t' = eip_close t1 /\ tag (device t1) p = Some (dt, le_bytes w z :: els) /\
      Printed Stdout "Read-back:  %v\n" [AInt z] ∈ out).
Proof.
  intros Hn Hp Hh Hi Hz Hdt Hl Ht Hel Hfw Hfr.
  destruct (parse_int_value ParseFloat typeName h sg w mk z Hh Hi Hz) as (Hv & Hs & Hshow).
  pose proof (decode_int typeName h sg w mk z dt Hh Hi Hz Hdt) as Hdec.
  assert (has_shape (SInt sg w) (VNum z)) as Hg.
  { destruct h; try done; injection Hi as <- <- <-; unfold in_range in Hz; cbn in Hz |- *; lia. }
  destruct (write_then_raw (NewClient 2) fuel name p (mk z) (SInt sg w) (VNum z) dt el els sess t)
    as (t1 & t2 & Ew & Ht1 & Er & Hd); try done.
  unfold main. rewrite !bool_decide_eq_false_2 by (done || apply itoa_nonempty). cbn [orb]. rewrite Hv.
  eapply eip_connected_wp; [done|]. apply wp_bind, wp_emit. unfold write_and_verify.
  apply wp_bind, wp_emit, wp_bind. eapply wp_callR; [exact Ew|]. apply wp_bind, wp_emit, wp_bind, wp_emit, wp_bind.
  eapply wp_callR; [exact Er|]. cbn [binary_put put_uint] in *.
  rewrite (proj2 (Z.ltb_ge _ _)) by (lens; pose proof (len_nonneg (le_bytes w z)); lia).
  apply wp_bind. eapply (wp_eval _ dt); [apply type_code_le16; by eapply tag_type|].
  apply wp_bind, wp_emit, wp_bind, wp_emit. rewrite Hdec. apply wp_bind, wp_emit, wp_emit.
  exists t2. split; [done|]. split; [by rewrite Hd|]. rewrite Hshow. set_solver.
Qed.

(** A STRING cannot be written.  Whatever the tag and the text, once connected the
    program ends with an error and status 1; it has sent no request, and the
    session is left open. *)
Theorem write_string_fails fuel addr name p typeName text t t1 :
  name <> [] -> text <> [] -> ParseTagPath name = Ok p -> parse_hint typeName = Some HSTRING ->
  Client_Connect t = (Ok tt, t1) ->
  ending_of (main ParseFloat fuel addr name typeName text) t = Exited 1 /\
  state_after (main ParseFloat fuel addr name typeName text) t = t1 /\
  Printedln Stdout "Write successful." ∉ output (main ParseFloat fuel addr name typeName text) t.
Proof.
  intros Hn Hx Hp Hh Hc.
  set (err := Wrapf "cip: binary.Write failed: %w" (Errorf "binary.Write: some values are not fixed-sized in type %s")).
  assert (EipClient.WriteTag (NewClient 2) fuel name (GString text) t1 = Some (Err err, t1)) as E.
  { unfold EipClient.WriteTag. by rewrite (Run_bind_Ok _ _ _ p t1) by (unfold local; by rewrite Hp). }
  assert (main ParseFloat fuel addr name typeName text t = (Exited 1, t1,
    [Printed Stdout "Connected to %s\n\n" [AStr addr];
     Printed Stdout "Writing tag %q = %v (type %s)\n" [AStr name; AStr text; AStr typeName];
     Printed Stderr "WriteTag failed: %v" [AErr err]])) as Hm.
  { unfold main, parseValue. rewrite Hh, !bool_decide_eq_false_2 by done. cbn [orb].
    unfold eip_connected, call. unfold mbind at 1, Prog_bind at 1. rewrite Hc.
    unfold deferred, write_and_verify, callR, mbind, Prog_bind, printf, emit. by rewrite E. }
  unfold ending_of, state_after, output. rewrite Hm. cbn. split_and!; [done..|]. set_solver.
Qed.
End OnDevice.

Lemma write_tag_verified_witness :
  wp (main (fun _ _ => Err ErrSyntax) 3 (str "plc:44818") (str "Speed") (str "int") (itoa (-300))) Bench.plant (fun _ t' out =>
    exists t1, t' = eip_close t1 /\ tag (device t1) Bench.speed_path = Some (CipType.INT, le_bytes 2 (-300) :: [[2; 0]; [3; 0]]) /\
      Printed Stdout "Read-back:  %v\n" [AInt (-300)] ∈ out).
Proof.
  pose proof (write_tag_verified (fun _ _ => Err ErrSyntax) 2 (str "plc:44818") (str "Speed") Bench.speed_path
    (str "int") HINT true 2 GInt16 (-300) CipType.INT [1; 0] [[2; 0]; [3; 0]] tt Bench.plant) as H.
  apply H; [discriminate|reflexivity..|cbn; lia|reflexivity|exact I|reflexivity|reflexivity|exact I|exact I].
Defined.
Lemma write_string_fails_witness :
  ending_of (main (fun _ _ => Err ErrSyntax) 3 (str "plc:44818") (str "MyStr") (str "STRING") (str "Hello PLC")) Bench.plant
    = Exited 1.
Proof.
  apply (write_string_fails (C := unit) (fun _ _ => Err ErrSyntax) 3 (str "plc:44818") (str "MyStr") (AddSymbolicSegment [] (str "MyStr"))
    (str "STRING") (str "Hello PLC") Bench.plant Bench.plant); discriminate || reflexivity.
Defined.
End WriteTagOk.

Module CustomTypeOk.
Import CustomType LogixCodecs.

Lemma custom_unmarshal_marshal (s : SetOn3Timer) suf : is_i32 (PRE s) -> is_i32 (ACC s) ->
  UnmarshalCIP (MarshalCIP s ++ suf) = Ok s.
Proof.
  intros Hp Ha. pose proof (len_nonneg suf). unfold UnmarshalCIP, MarshalCIP. rewrite <-!app_assoc.
  rewrite (proj2 (Z.ltb_ge _ _)) by (lens; lia).
  match goal with |- context [le32 (or_bit ?a ?b ?c)] => set (st := or_bit a b c) end.
  assert (is_u32 st) as Hst by (unfold st; status_range). pose proof (le32_at_mid [] (le32 (u32 (PRE s)) ++ le32 (u32 (ACC s)) ++ suf) st 0 eq_refl Hst) as E0.
  cbn [app] in E0. rewrite E0. go_bind.
  rewrite (le32_at_mid (le32 st)) by (done || auto with go). go_bind.
  rewrite (app_assoc (le32 st)), le32_at_mid by (lens; lia || auto with go). go_bind. unfold st.
  rewrite !i32_u32 by done. read_status. by destruct s.
Qed.

(** Registration: after [init] on a registry that does not know the code, the
    type and its array variant have the type's name, the codec is found under both
    codes, and the other codes are as before; a second registration panics. *)
Theorem custom_registered reg : reg !! 0x2F83 = None ->
  exists reg', init reg = Ok reg' /\
    DataType_String reg' 0x2F83 = "SET_ON_3_TMR" /\ DataType_String reg' 0xAF83 = "SET_ON_3_TMR[]" /\
    LookupType 0x2F83 reg' = Some codec /\ LookupType 0xAF83 reg' = Some codec /\
    (forall dt, Base dt <> 0x2F83 -> LookupType dt reg' = LookupType dt reg) /\
    init reg' = Panic.
Proof.
  intros Hn. exists (<[0x2F83 := mkEntry codec "SET_ON_3_TMR"]> reg).
  unfold init, RegisterType, LookupType, DataType_String, lookupTypeName.
  change (Base 0x2F83) with 0x2F83. change (Base 0xAF83) with 0x2F83. rewrite Hn.
  assert (typeNames_map !! 0x2F83 = None) as -> by (vm_compute; reflexivity).
  rewrite !lookup_insert_eq. split_and!; try done.
  intros dt Hd. by rewrite lookup_insert_ne.
Qed.

Lemma print_quiet {T} seconds percent s : quiet (S := T) (printSetOn3Timer seconds percent s).
Proof. unfold printSetOn3Timer, printf, println. auto 40 with quiet. Qed.

(** The header of a structure is four bytes long. *)
Lemma strip_header_struct dt crc payload : 0x02A0 <= dt < 65536 ->
  strip_header (le16 dt ++ le16 crc ++ payload) = Ok payload.
Proof.
  intros Hdt. pose proof (len_nonneg payload). unfold strip_header.
  rewrite (proj2 (Z.ltb_ge _ _)) by (lens; lia). rewrite type_code_le16 by (unfold is_u16; lia). go_bind.
  unfold header_len, CipType.STRUCT. rewrite (proj2 (Z.leb_le _ _)) by lia.
  rewrite (proj2 (Z.ltb_ge _ _)) by (lens; lia). rewrite app_assoc. by rewrite go_slice_suffix by (lens; lia).
Qed.

Section EndToEnd.
Context {C T W : Type} `{CipDevice C T W} `{!TagDevice answers}.

(** The program on a device.  Where the tag holds a structure of the custom type,
    behind the four bytes of a structure header, the program returns, and prints
    the fields the structure was encoded from. *)
Theorem custom_type_read seconds percent fuel reg addr name p dt (crc : Z) (s : SetOn3Timer) els sess t :
  addr <> [] -> is_i32 (PRE s) -> is_i32 (ACC s) ->
  ParseTagPath name = Ok p -> 0x02A0 <= dt < 65536 -> live sess t ->
  tag (device t) p = Some (dt, (le16 crc ++ MarshalCIP s)%list :: els) ->
  fits (NewReadTagRequest p 1) ->
  wp (main seconds percent (S fuel) reg addr name) t (fun _ t' out =>
    exists t1, t' = eip_close t1 /\ device t1 = device t /\
      out = Printed Stdout "\n%s:\n" [AStr name] :: output (printSetOn3Timer seconds percent s) t1).
Proof.
  intros Ha Hp Hac Hpa Hdt Hl Ht Hf. unfold main. rewrite bool_decide_eq_false_2 by done.
  destruct (ReadTag_live (NewClient 2) fuel name p dt _ els sess t ltac:(cbn; lia) Hl Hpa Ht Hf) as (t1 & Er & Hd).
  assert (ReadT (NewClient 2) (S fuel) name (TUnmarshaler UnmarshalCIP) t = Some (Ok s, t1)) as E.
  { unfold ReadT. rewrite (Run_bind_Ok _ _ _ _ _ Er).
    rewrite (Run_bind_Ok _ _ _ (MarshalCIP s) t1) by (unfold local; by rewrite strip_header_struct).
    unfold local, Unmarshal. rewrite <-(app_nil_r (MarshalCIP s)). by rewrite custom_unmarshal_marshal. }
  apply wp_bind. eapply wp_call; [by eapply Connect_live|]. apply wp_deferred, wp_bind.
  eapply wp_callR; [exact E|]. apply wp_bind, wp_emit.
  eapply wp_conseq; [apply wp_said, print_quiet|]. intros [] t' out [-> ->]. by exists t1.
Qed.
End EndToEnd.
End CustomTypeOk.
