(* ===== verification/ConditionMonitor.v ===== *)
(** * The condition monitor

    Models [examples/lua/condition_monitor/main.go]: the built-in script, which
    samples four tags of a controller in every scan, keeps since when each signal
    has had its value, and fires callbacks when conditions with hold times become
    true or false.  A scan is a function of the time and of what the four reads
    returned ([None] for a read that raised an error, which [pcall] catches); the
    controller and the clock are the environment.  The theorems say what a hold
    time guarantees, in terms of the readings that were made. *)
From stdpp Require Import sorting.
From S2P Require Import Prelude Bytes LuaVM.
#[local] Open Scope string_scope.
#[local] Open Scope Z_scope.

(** A Lua value as far as [==] of the script tells them apart; a tag that is not
    boolean gives some other value. *)
Inductive value : Type := Nil | Bool (b : bool) | Other (id : Z).
#[export] Instance value_EqDecision : EqDecision value.
Proof. solve_decision. Defined.

(** ** Signal tracker

    [val] and [since] of [sig]; an absent key reads as nil. *)
Record signals : Type := mkSignals { val : gmap string value; since : gmap string Z }.
Definition no_signals : signals := mkSignals ∅ ∅.

Definition sig_get (s : signals) (name : string) : value := default Nil (val s !! name).
Definition sig_set (s : signals) (name : string) (new_val : value) (now : Z) : signals :=
  let since1 := if bool_decide (sig_get s name <> new_val) then <[name := now]> (since s) else since s in
  let since2 := match since1 !! name with None => <[name := now]> since1 | Some _ => since1 end in
  mkSignals (<[name := new_val]> (val s)) since2.
Definition sig_held (s : signals) (name : string) (expected : value) (ms now : Z) : bool :=
  if bool_decide (sig_get s name <> expected) then false
  else ms <=? now - default now (since s !! name).

(** ** Condition engine

    A condition is its name and its expression; the callbacks print one line,
    recorded here as an event.  No expression of the script raises an error. *)
Record condition : Type := mkCondition { c_name : string; c_eval : signals -> Z -> bool }.
Inductive fired : Type := Active (name : string) | Cleared (name : string).
#[export] Instance fired_EqDecision : EqDecision fired.
Proof. solve_decision. Defined.

Definition evaluate_one (c : condition) (s : signals) (now : Z) (active : gset string)
  : gset string * list fired :=
  let result := c_eval c s now in
  if result && negb (bool_decide (c_name c ∈ active)) then ({[c_name c]} ∪ active, [Active (c_name c)])
  else if negb result && bool_decide (c_name c ∈ active) then (active ∖ {[c_name c]}, [Cleared (c_name c)])
  else (active, []).
Fixpoint evaluate (conditions : list condition) (s : signals) (now : Z) (active : gset string)
  : gset string * list fired :=
  match conditions with
  | [] => (active, [])
  | c :: conditions =>
      let '(active, ev) := evaluate_one c s now active in
      let '(active, evs) := evaluate conditions s now active in (active, ev ++ evs)%list
  end.

(** ** The script's tags and conditions *)
Definition tags : list (string * string) :=
  [("estop", "EStop"); ("is_running", "MachineRunning"); ("estop_clear", "EStopReset");
   ("drive_ready", "DriveReady")].

Definition is_value (s : signals) (name : string) (b : bool) : bool := bool_decide (sig_get s name = Bool b).
Definition safe_to_run : condition := mkCondition "safe_to_run" (fun s now =>
  is_value s "estop" false && is_value s "is_running" true &&
  sig_held s "estop_clear" (Bool true) 500 now && sig_held s "is_running" (Bool true) 1000 now).
Definition drive_fault : condition := mkCondition "drive_fault" (fun s now =>
  is_value s "is_running" true && sig_held s "drive_ready" (Bool false) 200 now).
Definition estop_active : condition := mkCondition "estop_active" (fun s _ => is_value s "estop" true).
Definition conditions : list condition := [safe_to_run; drive_fault; estop_active].

(** ** Scan loop *)
Record cycle : Type := mkCycle { at_ms : Z; reads : list (option value) }.
(** The reads of a scan, in the order of [tags]. *)
Fixpoint set_all (names : list string) (rs : list (option value)) (now : Z) (s : signals) : signals :=
  match names, rs with
  | name :: names, r :: rs =>
      set_all names rs now (match r with Some v => sig_set s name v now | None => s end)
  | _, _ => s
  end.
Definition scan (c : cycle) (st : signals * gset string) : (signals * gset string) * list fired :=
  let s := set_all (map fst tags) (reads c) (at_ms c) st.1 in
  let '(active, evs) := evaluate conditions s (at_ms c) st.2 in ((s, active), evs).
(** The loop on the scans the environment provides; at most [MAX_CYCLES] of them
    when that is positive. *)
Fixpoint scans (cs : list cycle) (st : signals * gset string) : (signals * gset string) * list fired :=
  match cs with
  | [] => (st, [])
  | c :: cs => let '(st, ev) := scan c st in let '(st, evs) := scans cs st in (st, ev ++ evs)%list
  end.
Definition run (maxCycles : Z) (cs : list cycle) : (signals * gset string) * list fired :=
  scans (if 0 <? maxCycles then take (Z.to_nat maxCycles) cs else cs) (no_signals, ∅).

(** The host functions of the Go program: [clock_ms] and the check of [sleep_ms]. *)
Section Host.
Context {V Tb : Type} `{LuaVM V Tb}.
Definition clock_ms (elapsed_ns : Z) : V := NewInt (Z.quot elapsed_ns 1000000).
Definition sleep_ms (args : Z -> V) : outcome Z :=
  if negb (IsNumber (args 1)) then Err (Errorf "bad argument #1 to 'sleep_ms' (number expected)")
  else Ok (AsInt (args 1)).
End Host.

(** ** The readings of a signal

    What was read of the [i]th signal in a run: the successful readings with their
    times, in order. *)
Fixpoint readings (i : nat) (cs : list cycle) : list (Z * value) :=
  match cs with
  | [] => []
  | c :: cs =>
      match reads c !! i with
      | Some (Some v) => (at_ms c, v) :: readings i cs
      | _ => readings i cs
      end
  end.
Definition replay (name : string) (rs : list (Z * value)) (s : signals) : signals :=
  fold_left (fun s r => sig_set s name r.2 r.1) rs s.

(** ** Lemmas: one signal *)
Lemma get_set_same s name v now : sig_get (sig_set s name v now) name = v.
Proof. unfold sig_get, sig_set. cbn [val]. by rewrite lookup_insert_eq. Qed.
Lemma get_set_other s name name' v now : name <> name' -> sig_get (sig_set s name v now) name' = sig_get s name'.
Proof. intros Hne. unfold sig_get, sig_set. cbn [val]. by rewrite lookup_insert_ne. Qed.
Lemma since_set_same s name v now : since (sig_set s name v now) !! name =
  if bool_decide (sig_get s name = v) then Some (default now (since s !! name)) else Some now.
Proof.
  unfold sig_set. cbn [since]. repeat case_bool_decide; try done.
  - by rewrite !lookup_insert_eq.
  - destruct (since s !! name) eqn:E; [by rewrite E|by rewrite lookup_insert_eq].
Qed.
Lemma since_set_other s name name' v now : name <> name' ->
  since (sig_set s name v now) !! name' = since s !! name'.
Proof.
  intros Hne. unfold sig_set. cbn [since]. repeat (case_match || case_bool_decide);
    rewrite ?lookup_insert_ne by done; done.
Qed.

(** The run of equal values at the end of the readings, newest first: when it
    began. *)
Definition run_of (rs : list (Z * value)) : option (Z * value) :=
  fold_left (fun acc r => match acc with
                          | Some (t, v) => if bool_decide (v = r.2) then Some (t, v) else Some r
                          | None => Some r
                          end) rs None.

Lemma replay_run name rs : 
  match run_of rs with
  | Some (t, v) => sig_get (replay name rs no_signals) name = v /\ since (replay name rs no_signals) !! name = Some t
  | None => rs = [] 
  end.
Proof.
  induction rs as [|[t v] rs IH] using rev_ind; [done|].
  unfold run_of, replay in *. rewrite !fold_left_app. cbn [fold_left fst snd].
  destruct (fold_left _ rs None) as [[t0 v0]|]; [|subst rs].
  - destruct IH as [Hg Hs]. case_bool_decide as Hv.
    + split; [by rewrite get_set_same|]. rewrite since_set_same, Hg, bool_decide_eq_true_2 by done.
      by rewrite Hs.
    + split; [by rewrite get_set_same|]. rewrite since_set_same, Hg. by rewrite bool_decide_eq_false_2.
  - split; [by rewrite get_set_same|]. rewrite since_set_same. cbn. rewrite lookup_empty. by case_bool_decide.
Qed.

(** Where the run begins, for readings in order of time: the readings split at it. *)
Lemma run_of_split rs t v : run_of rs = Some (t, v) ->
  exists before rest, rs = (before ++ (t, v) :: rest)%list /\ Forall (fun r => r.2 = v) rest /\
    match last before with Some r => r.2 <> v | None => True end.
Proof.
  revert t v. induction rs as [|[t1 v1] rs IH] using rev_ind; intros t v; [done|].
  unfold run_of in *. rewrite fold_left_app. cbn [fold_left snd].
  destruct (fold_left _ rs None) as [[t0 v0]|] eqn:E.
  - destruct (IH t0 v0 eq_refl) as (before & rest & Hrs & Hrest & Hb). case_bool_decide as Hv; intros [= <- <-].
    + exists before, (rest ++ [(t1, v1)])%list. rewrite Hrs, <-app_assoc. split; [done|].
      split; [|done]. apply Forall_app. split; [done|]. by constructor.
    + exists rs, []. split; [done|]. split; [done|]. rewrite Hrs, last_app_cons.
      destruct rest as [|r rest' _] using rev_ind; [by cbn|]. rewrite app_comm_cons, last_snoc.
      apply Forall_app in Hrest as [_ Hr]. apply Forall_inv in Hr. cbn in *. congruence.
  - intros [= <- <-]. exists rs, []. split; [done|]. split; [done|].
    destruct rs as [|r rs' _] using rev_ind; [done|]. rewrite fold_left_app in E. cbn in E.
    by destruct (fold_left _ rs' None) as [[]|]; [case_bool_decide|].
Qed.

(** ** Holding

    In time order, a signal is held at an expected value (not nil) for [ms] at
    [now] exactly when at some reading at least [ms] before [now] it had the value,
    and at every reading since. *)
Definition in_order (rs : list (Z * value)) : Prop := StronglySorted (fun a b => a.1 <= b.1) rs.

Lemma run_of_in rs t v : run_of rs = Some (t, v) -> (t, v) ∈ rs.
Proof. intros (before & rest & -> & _)%run_of_split. set_solver. Qed.

Lemma run_of_since rs expected now ms : in_order rs ->
  (exists before t rest, rs = (before ++ (t, expected) :: rest)%list /\
     Forall (fun r => r.2 = expected) rest /\ ms <= now - t) ->
  exists t, run_of rs = Some (t, expected) /\ ms <= now - t.
Proof.
  induction rs as [|[t1 v1] rs IH] using rev_ind; intros Ho (before & t & rest & Hrs & Hrest & Hm).
  { by destruct before. }
  unfold run_of in *. rewrite fold_left_app. cbn [fold_left snd].
  destruct rest as [|x rest _] using rev_ind.
  - apply app_inj_tail in Hrs as [-> [= -> ->]].
    destruct (fold_left _ before None) as [[t0 v0]|] eqn:E; [|by exists t].
    case_bool_decide as Hv; [|by exists t]. exists t0. split; [by rewrite Hv|].
    apply run_of_in in E. pose proof (StronglySorted_app_1_elem_of _ _ _ _ _ Ho E (list_elem_of_here _ _)) as Hle.
    cbn in Hle. lia.
  - rewrite app_comm_cons, app_assoc in Hrs. apply app_inj_tail in Hrs as [Hrs <-].
    apply Forall_app in Hrest as [Hrest Hx]. apply Forall_inv in Hx. cbn in Hx. subst v1.
    destruct IH as (t0 & E & Hm0); [by eapply StronglySorted_app_1_l|by exists before, t, rest|].
    rewrite E. rewrite bool_decide_eq_true_2 by done. by exists t0.
Qed.

Theorem held_spec name expected ms now rs : expected <> Nil -> in_order rs ->
  sig_held (replay name rs no_signals) name expected ms now = true <->
  exists before t rest, rs = (before ++ (t, expected) :: rest)%list /\
    Forall (fun r => r.2 = expected) rest /\ ms <= now - t.
Proof.
  intros Hn Ho. unfold sig_held. pose proof (replay_run name rs) as Hr. split.
  - destruct (run_of rs) as [[t v]|] eqn:E.
    + destruct Hr as [-> ->]. case_bool_decide as Hv; [done|]. intros Hm%Z.leb_le.
      destruct (decide (v = expected)) as [->|]; [|by destruct Hv].
      destruct (run_of_split rs t expected E) as (before & rest & Hrs & Hrest & _). by exists before, t, rest.
    + subst rs. cbn. case_bool_decide as Hv; [done|]. unfold sig_get in Hv. cbn in Hv. by destruct Hv.
  - intros (t & E & Hm)%run_of_since; [|done]. rewrite E in Hr. destruct Hr as [-> ->].
    rewrite bool_decide_eq_false_2 by (by intros []). by apply Z.leb_le.
Qed.

(** ** Lemmas: runs *)

(** Two trackers agree on a signal. *)
Definition agree (name : string) (s s' : signals) : Prop :=
  sig_get s name = sig_get s' name /\ since s !! name = since s' !! name.
#[export] Instance agree_equivalence name : Equivalence (agree name).
Proof. split; [done|by intros ? ? []|]. intros ? ? ? [] []. split; congruence. Qed.

Lemma agree_set name s s' v now : agree name s s' -> agree name (sig_set s name v now) (sig_set s' name v now).
Proof. intros [Hg Hs]. split; [by rewrite !get_set_same|]. by rewrite !since_set_same, Hg, Hs. Qed.
Lemma agree_set_other name name' s v now : name' <> name -> agree name (sig_set s name' v now) s.
Proof. intros Hne. split; [by apply get_set_other|by apply since_set_other]. Qed.
Lemma agree_held name s s' e ms now : agree name s s' -> sig_held s name e ms now = sig_held s' name e ms now.
Proof. intros [Hg Hs]. unfold sig_held. by rewrite Hg, Hs. Qed.

Lemma set_all_skip names : forall rs now s name, name ∉ names -> agree name (set_all names rs now s) s.
Proof.
  induction names as [|n names IH]; intros rs now s name Hn; [done|]. destruct rs as [|r rs]; [done|].
  cbn [set_all]. apply not_elem_of_cons in Hn as [Hne Hn]. etrans; [by apply IH|].
  destruct r; [|done]. apply agree_set_other. congruence.
Qed.
Lemma set_all_one names : forall rs now s i name, NoDup names -> names !! i = Some name ->
  agree name (set_all names rs now s)
    (match rs !! i with Some (Some v) => sig_set s name v now | _ => s end).
Proof.
  induction names as [|n names IH]; intros rs now s i name Hd Hi; [done|]. destruct rs as [|r rs]; [done|].
  apply NoDup_cons in Hd as [Hn Hd]. cbn [set_all]. destruct i as [|i]; cbn in Hi |- *.
  - injection Hi as ->. etrans; [by apply set_all_skip|]. by destruct r.
  - assert (name <> n) as Hne by (intros ->; apply Hn; by eapply list_elem_of_lookup_2).
    etrans; [by apply IH|]. destruct (rs !! i) as [[v|]|].
    + apply agree_set. destruct r; [|done]. by apply agree_set_other.
    + destruct r; [|done]. by apply agree_set_other.
    + destruct r; [|done]. by apply agree_set_other.
Qed.

Lemma replay_agree name rs : forall s s', agree name s s' -> agree name (replay name rs s) (replay name rs s').
Proof. induction rs as [|r rs IH]; intros s s' Ha; [done|]. apply IH. by apply agree_set. Qed.

Lemma scans_cons c cs st : (scans (c :: cs) st).1 = (scans cs (scan c st).1).1.
Proof. cbn [scans]. destruct (scan c st) as [st1 ev]. cbn [fst]. by destruct (scans cs st1) as [[] ]. Qed.
Lemma scan_signals c st : (scan c st).1.1 = set_all (map fst tags) (reads c) (at_ms c) st.1.
Proof. unfold scan. by destruct (evaluate _ _ _ _). Qed.

(** After a run, a signal is what its readings make it. *)
Lemma scans_signal i name cs : map fst tags !! i = Some name -> forall st,
  agree name (scans cs st).1.1 (replay name (readings i cs) st.1).
Proof.
  intros Hi. induction cs as [|c cs IH]; intros st; [done|]. rewrite scans_cons. etrans; [apply IH|].
  rewrite scan_signals. assert (NoDup (map fst tags)) as Hd by (apply (bool_decide_unpack _); by vm_compute).
  pose proof (set_all_one (map fst tags) (reads c) (at_ms c) st.1 i name Hd Hi) as Ha.
  cbn [readings]. destruct (reads c !! i) as [[v|]|]; [|by apply replay_agree..].
  change (replay name ((at_ms c, v) :: readings i cs) st.1)
    with (replay name (readings i cs) (sig_set st.1 name v (at_ms c))). by apply replay_agree.
Qed.

(** Evaluation: a condition is active afterwards exactly when its expression is
    true, and says so when that is new. *)
Lemma evaluate_one_spec c s now active :
  let '(active', ev) := evaluate_one c s now active in
  (c_name c ∈ active' <-> c_eval c s now = true) /\
  (forall n, n <> c_name c -> (n ∈ active' <-> n ∈ active)) /\
  ev = if bool_decide (c_name c ∈ active) then (if c_eval c s now then [] else [Cleared (c_name c)])
       else (if c_eval c s now then [Active (c_name c)] else []).
Proof.
  unfold evaluate_one. destruct (c_eval c s now); case_bool_decide; cbn [negb andb]; split_and!;
    try done; set_solver.
Qed.

Lemma evaluate_spec cs s now : NoDup (map c_name cs) -> forall active,
  let '(active', evs) := evaluate cs s now active in
  (forall c, c ∈ cs -> (c_name c ∈ active' <-> c_eval c s now = true)) /\
  (forall n, n ∉ map c_name cs -> (n ∈ active' <-> n ∈ active)).
Proof.
  induction cs as [|c cs IH]; intros Hd active; [split; [by intros ? ?%not_elem_of_nil|done]|].
  cbn [map] in Hd. apply NoDup_cons in Hd as [Hn Hd]. cbn [evaluate].
  pose proof (evaluate_one_spec c s now active) as H1. destruct (evaluate_one c s now active) as [active1 ev].
  specialize (IH Hd active1). destruct (evaluate cs s now active1) as [active2 evs].
  destruct H1 as (Hc & Ho & _), IH as [Hin Hout]. split.
  - intros c' [->|Hc']%elem_of_cons; [|by apply Hin]. by rewrite Hout.
  - cbn [map]. intros n [Hne Hn']%not_elem_of_cons. rewrite Hout by done. by apply Ho.
Qed.

(** ** What the conditions mean

    In terms of the readings of a run: the last reading of a signal, and a value
    that was read at least [ms] ago and at every reading since. *)
Definition last_reading (i : nat) (b : bool) (cs : list cycle) : Prop :=
  exists before t, readings i cs = (before ++ [(t, Bool b)])%list.
Definition held_for (i : nat) (b : bool) (ms now : Z) (cs : list cycle) : Prop :=
  exists before t rest, readings i cs = (before ++ (t, Bool b) :: rest)%list /\
    Forall (fun r => r.2 = Bool b) rest /\ ms <= now - t.
Definition clock_ok (cs : list cycle) : Prop := StronglySorted (fun a b => at_ms a <= at_ms b) cs.

Lemma readings_times i cs r : r ∈ readings i cs -> exists c, c ∈ cs /\ at_ms c = r.1.
Proof.
  induction cs as [|c cs IH]; cbn [readings]; [by intros ?%not_elem_of_nil|].
  assert (r ∈ readings i cs -> exists c', c' ∈ c :: cs /\ at_ms c' = r.1) as Hr.
  { intros (c' & Hc & E)%IH. exists c'. split; [set_solver|done]. }
  destruct (reads c !! i) as [[v|]|]; [|done|done]. intros [->|?]%elem_of_cons; [|auto].
  exists c. split; [set_solver|done].
Qed.
Lemma readings_in_order i cs : clock_ok cs -> in_order (readings i cs).
Proof.
  unfold clock_ok, in_order. induction 1 as [|c cs Hs IH Hc]; [constructor|]. cbn [readings].
  destruct (reads c !! i) as [[v|]|]; [|done|done]. constructor; [done|].
  apply Forall_forall. intros r (c' & Hc' & <-)%readings_times. cbn.
  by eapply (proj1 (Forall_forall _ _)) in Hc.
Qed.

Lemma get_last i name b cs : map fst tags !! i = Some name ->
  is_value (scans cs (no_signals, ∅)).1.1 name b = true <-> last_reading i b cs.
Proof.
  intros Hi. destruct (scans_signal i name cs Hi (no_signals, ∅)) as [Hg _]. unfold is_value. rewrite Hg, bool_decide_eq_true.
  cbn [fst]. unfold last_reading. destruct (readings i cs) as [|[t v] rs _] using rev_ind.
  - split; [done|]. intros (before & t & E). by destruct before.
  - unfold replay. rewrite fold_left_app. cbn [fold_left fst snd]. rewrite get_set_same. split.
    + intros ->. by exists rs, t.
    + intros (before & t' & E). apply app_inj_tail in E as [_ E]. congruence.
Qed.
Lemma held_readings i name b ms now cs : map fst tags !! i = Some name -> clock_ok cs ->
  sig_held (scans cs (no_signals, ∅)).1.1 name (Bool b) ms now = true <-> held_for i b ms now cs.
Proof.
  intros Hi Ho. rewrite (agree_held name _ _ _ _ _ (scans_signal i name cs Hi (no_signals, ∅))). cbn [fst].
  apply held_spec; [done|by apply readings_in_order].
Qed.

Lemma scans_app cs cs' st : (scans (cs ++ cs') st).1 = (scans cs' (scans cs st).1).1.
Proof.
  revert st. induction cs as [|c cs IH]; intros st; [done|]. cbn [app]. by rewrite !scans_cons, IH.
Qed.
Lemma last_scan c cs cond : cond ∈ conditions ->
  c_name cond ∈ (scans (cs ++ [c]) (no_signals, ∅)).1.2 <->
  c_eval cond (scans (cs ++ [c]) (no_signals, ∅)).1.1 (at_ms c) = true.
Proof.
  intros Hc. rewrite scans_app. set (st := (scans cs (no_signals, ∅)).1). rewrite scans_cons. cbn [scans fst].
  unfold scan. assert (NoDup (map c_name conditions)) as Hd by (apply (bool_decide_unpack _); by vm_compute).
  pose proof (evaluate_spec conditions (set_all (map fst tags) (reads c) (at_ms c) st.1) (at_ms c) Hd st.2) as He.
  destruct (evaluate _ _ _ _) as [active evs]. destruct He as [He _]. by apply He.
Qed.

(** When [safe_to_run] is active after a scan. *)
Lemma safe_to_run_active cs c : clock_ok (cs ++ [c]) ->
  let all := (cs ++ [c])%list in
  "safe_to_run" ∈ (scans all (no_signals, ∅)).1.2 <->
    last_reading 0 false all /\ last_reading 1 true all /\
    held_for 2 true 500 (at_ms c) all /\ held_for 1 true 1000 (at_ms c) all.
Proof.
  intros Ho all. etrans; [apply (last_scan c cs safe_to_run); set_solver|]. unfold safe_to_run. cbn [c_eval]. fold all.
  rewrite !andb_true_iff, !(get_last 0 "estop"), !(get_last 1 "is_running"), !(held_readings 2 "estop_clear"),
    !(held_readings 1 "is_running") by done. tauto.
Qed.

(** C34: The conditions after a scan.  With a clock that does not go back, after every
    scan: [safe_to_run] is active exactly when the last reading of the emergency
    stop was false and the last reading of the run signal true, the reset signal
    was read true at least 500 ms ago and at every reading since, and the run
    signal likewise for 1000 ms; [drive_fault] when the run signal was last read
    true and the drive was read not ready at least 200 ms ago and at every reading
    since; [estop_active] when the emergency stop was last read true. *)
Theorem conditions_meaning cs c : clock_ok (cs ++ [c]) ->
  let all := (cs ++ [c])%list in
  let active := (scans all (no_signals, ∅)).1.2 in
  ("safe_to_run" ∈ active <->
     last_reading 0 false all /\ last_reading 1 true all /\
     held_for 2 true 500 (at_ms c) all /\ held_for 1 true 1000 (at_ms c) all) /\
  ("drive_fault" ∈ active <-> last_reading 1 true all /\ held_for 3 false 200 (at_ms c) all) /\
  ("estop_active" ∈ active <-> last_reading 0 true all).
Proof.
  intros Ho all active. split_and!.
  - by apply safe_to_run_active.
  - etrans; [apply (last_scan c cs drive_fault); set_solver|]. unfold drive_fault. cbn [c_eval]. fold all.
    by rewrite !andb_true_iff, !(get_last 1 "is_running"), !(held_readings 3 "drive_ready") by done.
  - etrans; [apply (last_scan c cs estop_active); set_solver|]. unfold estop_active. cbn [c_eval]. fold all.
    by rewrite (get_last 0 "estop") by done.
Qed.

(** ** Transitions *)

(** The callbacks of a condition among events, from a state: whether they
    alternate, and the state they end in. *)
Fixpoint alternates (n : string) (on : bool) (evs : list fired) : option bool :=
  match evs with
  | [] => Some on
  | Active m :: evs => if bool_decide (m = n) then (if on then None else alternates n true evs) else alternates n on evs
  | Cleared m :: evs => if bool_decide (m = n) then (if on then alternates n false evs else None) else alternates n on evs
  end.
Lemma alternates_app n evs evs' : forall on,
  alternates n on (evs ++ evs') = alternates n on evs ≫= fun on => alternates n on evs'.
Proof.
  induction evs as [|[m|m] evs IH]; intros on; [done|..]; cbn [app alternates]; case_bool_decide; auto;
    by destruct on.
Qed.

Lemma evaluate_one_alternates n c s now active :
  alternates n (bool_decide (n ∈ active)) (evaluate_one c s now active).2 =
    Some (bool_decide (n ∈ (evaluate_one c s now active).1)).
Proof.
  pose proof (evaluate_one_spec c s now active) as Hs. destruct (evaluate_one c s now active) as [active' ev].
  destruct Hs as (Hc & Ho & ->). cbn [fst snd]. destruct (decide (n = c_name c)) as [->|Hne].
  - rewrite (bool_decide_ext (c_name c ∈ active') _ Hc).
    destruct (c_eval c s now); case_bool_decide; cbn [alternates]; rewrite ?bool_decide_eq_true_2 by done; done.
  - rewrite (bool_decide_ext _ _ (Ho n Hne)).
    repeat case_match; cbn [alternates]; rewrite ?(bool_decide_eq_false_2 (c_name c = n)) by congruence; done.
Qed.
Lemma evaluate_alternates n cs s now : forall active,
  alternates n (bool_decide (n ∈ active)) (evaluate cs s now active).2 =
    Some (bool_decide (n ∈ (evaluate cs s now active).1)).
Proof.
  induction cs as [|c cs IH]; intros active; [done|]. cbn [evaluate].
  pose proof (evaluate_one_alternates n c s now active) as H1.
  destruct (evaluate_one c s now active) as [active1 ev]. specialize (IH active1).
  destruct (evaluate cs s now active1) as [active2 evs]. cbn [fst snd] in *.
  by rewrite alternates_app, H1.
Qed.

(** The callbacks of every condition alternate, beginning with [on_active], however
    the readings and the clock go, and the condition is active at the end exactly
    when the last of them was [on_active]. *)
Theorem callbacks_alternate n maxCycles cs :
  alternates n false (run maxCycles cs).2 = Some (bool_decide (n ∈ (run maxCycles cs).1.2)).
Proof.
  unfold run. generalize (if 0 <? maxCycles then take (Z.to_nat maxCycles) cs else cs). clear cs. intros cs.
  assert (forall st, alternates n (bool_decide (n ∈ st.2)) (scans cs st).2 =
    Some (bool_decide (n ∈ (scans cs st).1.2))) as Hall.
  2: { rewrite <-Hall. done. }
  induction cs as [|c cs IH]; intros st; [done|]. cbn [scans]. unfold scan.
  pose proof (evaluate_alternates n conditions (set_all (map fst tags) (reads c) (at_ms c) st.1) (at_ms c) st.2) as He.
  destruct (evaluate _ _ _ _) as [active evs]. specialize (IH (set_all (map fst tags) (reads c) (at_ms c) st.1, active)).
  destruct (scans cs _) as [st' evs']. cbn [fst snd] in *. by rewrite alternates_app, He.
Qed.

(** ** Lost contact

    A read that fails leaves its signal as it was, and its hold time runs on: one
    good scan, and then only failed reads, make the machine safe to run a second
    later. *)
Lemma readings_app i cs cs' : readings i (cs ++ cs') = (readings i cs ++ readings i cs')%list.
Proof.
  induction cs as [|c cs IH]; [done|]. cbn [app readings]. rewrite IH. by destruct (reads c !! i) as [[]|].
Qed.
Theorem stale_safe_to_run cs c0 c r : clock_ok (cs ++ [c0; c]) ->
  reads c0 = [Some (Bool false); Some (Bool true); Some (Bool true); r] -> reads c = replicate 4 None ->
  at_ms c0 + 1000 <= at_ms c ->
  "safe_to_run" ∈ (scans (cs ++ [c0; c]) (no_signals, ∅)).1.2.
Proof.
  intros Ho Hr0 Hr Ht. change [c0; c] with ([c0] ++ [c])%list in *. rewrite app_assoc in *.
  apply (safe_to_run_active (cs ++ [c0]) c Ho).
  assert (forall i b, reads c0 !! i = Some (Some (Bool b)) ->
    readings i ((cs ++ [c0]) ++ [c]) = (readings i cs ++ [(at_ms c0, Bool b)])%list) as Hlast.
  { intros i b Hi. rewrite !readings_app. cbn [readings]. rewrite Hi, Hr.
    destruct (replicate 4 None !! i) as [[v|]|] eqn:E; [|by rewrite app_nil_r..].
    apply lookup_replicate in E as [? _]. done. }
  split_and!; [exists (readings 0 cs), (at_ms c0)|exists (readings 1 cs), (at_ms c0)
    |exists (readings 2 cs), (at_ms c0), []|exists (readings 1 cs), (at_ms c0), []];
    (split_and! || idtac); try (apply Hlast; by rewrite Hr0); try done; lia.
Qed.

(** ** Concrete runs *)
Definition good (t : Z) : cycle := mkCycle t [Some (Bool false); Some (Bool true); Some (Bool true); Some (Bool true)].
Definition lost (t : Z) : cycle := mkCycle t (replicate 4 None).

Lemma conditions_meaning_witness :
  "safe_to_run" ∈ (scans [good 0; good 500; good 1000] (no_signals, ∅)).1.2.
Proof.
  assert (clock_ok ([good 0; good 500] ++ [good 1000])) as Ho.
  { repeat constructor; cbn; lia. }
  destruct (conditions_meaning [good 0; good 500] (good 1000) Ho) as [Hs _]. apply Hs. split_and!.
  - exists [(0, Bool false); (500, Bool false)], 1000. reflexivity.
  - exists [(0, Bool true); (500, Bool true)], 1000. reflexivity.
  - exists [], 0, [(500, Bool true); (1000, Bool true)]. split; [reflexivity|]. split; [repeat constructor|cbn; lia].
  - exists [], 0, [(500, Bool true); (1000, Bool true)]. split; [reflexivity|]. split; [repeat constructor|cbn; lia].
Defined.
Lemma stale_safe_to_run_witness :
  (run 0 [good 0; lost 1000]).2 = [Active "safe_to_run"] /\
  "safe_to_run" ∈ (scans [good 0; lost 1000] (no_signals, ∅)).1.2.
Proof.
  split; [vm_compute; reflexivity|].
  apply (stale_safe_to_run [] (good 0) (lost 1000) (Some (Bool true))); [|reflexivity..|cbn; lia].
  repeat constructor; cbn; lia.
Defined.
