(* ===== verification/PcccTools.v ===== *)
(** * The PCCC programs

    Models [examples/ethernetip/pccc_read], [pccc_write] and [pccc_monitor]: SLC
    and MicroLogix data-table addresses over Execute_PCCC.  The transaction number
    of [pccc_read] comes from the clock, an argument here; [ParseFloat] is
    [strconv.ParseFloat] to 32 bits, with the bits of its result. *)
From S2P Require Import Prelude Bytes Transport Plc EipCodec Cip Pccc PcccClient Displays EipClient EipPlant.
From S2P Require Import MonitorSubs MonitorEvents Console EipTools.
#[local] Open Scope string_scope.
#[local] Open Scope Z_scope.

(** ** pccc_read *)
Module PcccRead.
(** The bytes to ask for: a word of a timer, counter or control when a field or a
    bit was named, otherwise the whole element. *)
Definition elementBytes (a : Address) : Z :=
  if FileType a =? FileTypeFloat then 4
  else if isTimerLike (FileType a) then if (0 <? SubElement a) || (0 <=? BitNum a) then 2 else 6
  else 2.

Section Program.
Context {C T : Type} `{Transport C T} `{SessionLink C T}.
Variable fuel : nat.

(** The default case: a word, or a bit of it. *)
Definition print_word (a : Address) (data : bytes) : Prog T unit :=
  if len data <? 2 then printf "(short reply: %d bytes)\n" [AInt (len data)] else
  word ← eval (b ← go_slice data 0 2; get_le16 b);
  if 0 <=? BitNum a then
    printf "%s = %d  (bit %d of 0x%04X)\n"
      [AStr (Address_String a); AInt (Z.land (Z.shiftr word (BitNum a)) 1); AInt (BitNum a); AInt word]
  else printf "%s = %d (0x%04X)\n" [AStr (Address_String a); AInt (signed 16 word); AInt word].
Definition printValue (a : Address) (data : bytes) : Prog T unit :=
  if FileType a =? FileTypeFloat then
    if len data <? 4 then printf "(short reply for F: %d bytes)\n" [AInt (len data)] else
    f ← eval (b ← go_slice data 0 4; get_le32 b);
    printf "%s = %g  (REAL)\n" [AStr (Address_String a); AFloat 32 f]
  else if isTimerLike (FileType a) && ((SubElement a =? 0) && (BitNum a <? 0)) then
    if len data <? 6
    then printf "(short reply for full %s element: %d bytes)\n" [AStr (Letter (FileType a)); AInt (len data)] else
    ctl ← eval (b ← go_slice data 0 2; get_le16 b);
    pre ← eval (b ← go_slice data 2 4; get_le16 b);
    acc ← eval (b ← go_slice data 4 6; get_le16 b);
    printf "%s = { control: 0x%04X, PRE: %d, ACC: %d }\n"
      [AStr (Address_String a); AInt ctl; AInt (signed 16 pre); AInt (signed 16 acc)]
  else print_word a data.

Definition main (addr tag : bytes) (clock : Z) : Prog T unit :=
  if bool_decide (tag = []) then _ ← eprintln "error: -tag is required"; exit 1 else
  match ParseAddress tag with
  | Err err => fatalf "parse address %q: %v" [AStr tag; AErr err]
  | Panic => eval Panic
  | Ok a =>
      _ ← printf "Parsed address: %s\n" [AStr (Address_String a)];
      _ ← printf "  FileType:   %s\n" [AStr (FileType_String (FileType a))];
      _ ← printf "  FileNumber: %d\n" [AInt (FileNumber a)];
      _ ← printf "  Element:    %d\n" [AInt (Element a)];
      _ ← printf "  SubElement: %d\n" [AInt (SubElement a)];
      _ ← (if 0 <=? BitNum a then printf "  Bit:        %d\n" [AInt (BitNum a)] else mret tt);
      let byteSize := elementBytes a in
      _ ← printf "  Read size:  %d bytes\n" [AInt byteSize];
      eip_connected "connect %s: %v" addr (fun client =>
        _ ← printf "\nConnected to %s\n" [AStr addr];
        let tns := u16 clock in
        match EncodeTypedRead tns byteSize (FileNumber a) (FileType a) (Element a) (SubElement a) with
        | Err err => fatalf "encode PCCC read: %v" [AErr err]
        | Panic => eval Panic
        | Ok cmd =>
            _ ← printf "PCCC request:   % X\n" [AHex cmd];
            r ← callR (ExecutePCCC client fuel cmd);
            match r with
            | inl err => fatalf "ExecutePCCC: %v" [AErr err]
            | inr rawReply =>
                _ ← printf "PCCC reply:     % X\n" [AHex rawReply];
                match DecodeReply rawReply with
                | Err err =>
                    if IsPCCCError err then fatalf "PCCC error: %v" [AErr err]
                    else fatalf "decode PCCC reply: %v" [AErr err]
                | Panic => eval Panic
                | Ok reply =>
                    _ ← (if negb (rp_TNS reply =? tns)
                         then logf "warning: TNS mismatch (sent 0x%04X, got 0x%04X)" [AInt tns; AInt (rp_TNS reply)]
                         else mret tt);
                    _ ← println "";
                    _ ← println "--- Decoded value ---";
                    printValue a (rp_Data reply)
                end
            end
        end)
  end.
End Program.
End PcccRead.

(** ** pccc_write *)
Module PcccWrite.
Section Program.
Context {C T : Type} `{Transport C T} `{SessionLink C T}.
Variable ParseFloat : bytes -> outcome Z.
Variables (float32_of_int float32_of_float64 : Z -> Z).
Variable fuel : nat.

Definition show_any (v : any) : arg :=
  match v with
  | PcccClient.ABool b => ABool b
  | PcccClient.AInt z | AInt16 z | AInt32 z | AInt64 z | AUint z | AByte z | AUint16 z | AUint32 z
  | AUint64 z => AInt z
  | AFloat32 f => AFloat 32 f
  | AFloat64 f => AFloat 64 f
  | AOther => AList []
  end.
(** [-value] as the type of the address; an integer is cut to 16 bits. *)
Definition coerce (a : Address) (val : bytes) : Prog T any :=
  let said w := bool_decide (ToLower val = str w) in
  if 0 <=? BitNum a then
    if said "1" || said "true" || said "on" || said "high" then mret (PcccClient.ABool true)
    else if said "0" || said "false" || said "off" || said "low" then mret (PcccClient.ABool false)
    else fatalf "bit write: -value must be 0 or 1 (got %q)" [AStr val]
  else if FileType a =? FileTypeFloat then
    match ParseFloat val with
    | Ok f => mret (AFloat32 f)
    | Err err => fatalf "float write: %v" [AErr err]
    | Panic => eval Panic
    end
  else
    match atoi val with
    | Some n => mret (AInt16 (signed 16 n))
    | None => fatalf "integer write: %v" []
    end.
(** A call of the PCCC client, which is fresh. *)
Definition on_pccc {A} (eip : Client) (m : SM (client T) A) : Prog T (error + A) := call (fun t =>
  let '(r, k) := m (PcccClient.NewClient t) in (r, executor k)).
Definition main (addr tag val : bytes) : Prog T unit :=
  match ParseAddress tag with
  | Err err => fatalf "parse %q: %v" [AStr tag; AErr err]
  | Panic => eval Panic
  | Ok a =>
      goVal ← coerce a val;
      eip_connected "connect %s: %v" addr (fun eip =>
        _ ← printf "Connected to %s\n" [AStr addr];
        r ← on_pccc eip (WriteAddress (pccc_exec eip fuel) float32_of_int float32_of_float64 tag goVal);
        match r with
        | inl err => fatalf "WriteAddress %s = %v: %v" [AStr tag; show_any goVal; AErr err]
        | inr _ => printf "wrote %s = %v\n" [AStr tag; show_any goVal]
        end)
  end.
End Program.
End PcccWrite.

(** ** pccc_monitor

    The subscriptions, and the loop on what the subscriber's channel and the signal
    channel deliver. *)
(** A call of the monitor's [Subscribe], to its return: the critical section, then
    the registration of the point and the start of the goroutine. *)
Definition subscribe_call {P} (point : option P) (opts : list (SubscriptionOption P)) : SM (Monitor P) Z := fun m =>
  match Subscribe point opts m with
  | (Ok id, m) => match call_step (AStart id) m with Some (Ok m) => (Ok id, m) | _ => (Panic, m) end
  | r => r
  end.

Module PcccMonitor.
(** [File.String]. *)
Definition point_String (p : point) : arg :=
  match p with
  | File addr count => if 1 <? count then AFmt "File(%s, count=%d)" [AStr addr; AInt count] else AFmt "File(%s)" [AStr addr]
  | OtherDP => AText ""
  end.
Definition formatValue (v : Value point) : arg :=
  let raw := AFmt "% X" [AHex (Raw v)] in
  match v_Type v with
  | TypeBool => AFmt "%v" [ABool (Bool v)]
  | TypeFloat32 => match Float32_bits v with Ok f => AFmt "%g" [AFloat 32 f] | _ => raw end
  | TypeInt16 => match Int v with Ok i => AFmt "%d" [AInt i] | _ => raw end
  | _ => raw
  end.

Section Program.
Context {C T : Type} `{Transport C T} `{SessionLink C T}.
(** The client's link and the monitor. *)
Abbreviation state := (T * Monitor point)%type.
Variable freq : Z.
(** [mon.Close] and [sub.Done] run to their return: the state to which their steps,
    those of [MonitorSubs], lead under the scheduling of the goroutines. *)
Variables (Monitor_Close : Monitor point -> Monitor point) (Subscriber_Done : nat -> Monitor point -> Monitor point).

Definition on_link {A} (m : Prog T A) : Prog state A := fun st =>
  let '(r, t, out) := m st.1 in (r, (t, st.2), out).
Definition on_monitor {A} (m : SM (Monitor point) A) : Prog state (error + A) := call (fun st =>
  let '(r, mon) := m st.2 in (r, (st.1, mon))).

Definition split_tags (tagList : bytes) : list bytes := map TrimSpace (Split 44 tagList).
Definition subscribe_tag (t : bytes) : Prog state unit :=
  r ← on_monitor (subscribe_call (Some (File t 0)) [WithFrequency freq]);
  match r with
  | inl err => fatalf "subscribe %q: %v" [AStr t; AErr err]
  | inr _ => printf "  subscribed %s @ %s\n" [AStr t; AInt freq]
  end.

Inductive input : Type := Signalled | Received (clock : arg) (ev : Event point).
Definition show_event (clock : arg) (ev : Event point) : Prog state unit :=
  let sn := ev_Snapshot ev in
  match ev_Err ev with
  | Some err => printf "[%s] %s: error: %v\n" [clock; point_String (Point sn); AErr err]
  | None =>
      if negb (Changed ev) then mret tt
      else printf "[%s] %s = %s\n" [clock; point_String (Point sn); formatValue (sn_Value sn)]
  end.
Fixpoint event_loop (inputs : list input) : Prog state unit :=
  match inputs with
  | [] => fun st => (Waiting, st, [])
  | Signalled :: _ => println "\nstopping…"
  | Received clock ev :: inputs => _ ← show_event clock ev; event_loop inputs
  end.

Definition main (addr tagList : bytes) (inputs : list input) : Prog state unit :=
  let tags := split_tags tagList in
  match tags with
  | [] | [] :: _ => _ ← eprintln "error: -tags is required"; exit 1
  | _ =>
      r ← on_link (call Client_Connect);
      match r with
      | inl err => fatalf "connect %s: %v" [AStr addr; AErr err]
      | inr _ =>
          deferred (fun st => (eip_close st.1, st.2)) (
          _ ← printf "Connected to %s\n" [AStr addr];
          r ← call (fun st => match NewMonitor true None None with
                              | Ok mon => (Ok tt, (st.1, mon))
                              | Err e => (Err e, st)
                              | Panic => (Panic, st)
                              end);
          match r with
          | inl err => fatalf "NewMonitor: %v" [AErr err]
          | inr _ =>
              deferred (fun st => (st.1, Monitor_Close st.2)) (
              r ← on_monitor (NewSubscriber 64);
              match r with
              | inl err => fatalf "NewSubscriber: %v" [AErr err]
              | inr sub =>
                  deferred (fun st => (st.1, Subscriber_Done sub st.2)) (
                  _ ← each 0 (fun _ => subscribe_tag) tags;
                  _ ← println "Polling — Ctrl-C to stop.";
                  event_loop inputs)
              end)
          end)
      end
  end.
End Program.
End PcccMonitor.

(** ** What pccc_monitor prints

    The program subscribes without a change detector, and then every successful
    read is an event that is marked as changed. *)
Module PcccMonitorOk.
Import PcccMonitor.
Section Printed.
Context {C T : Type} `{Transport C T} `{SessionLink C T}.

(** In every state of the monitor, each successful read in the history of a
    subscription with the options of [pccc_monitor] is printed when it is received,
    whether or not its value differs from the one before. *)
Theorem every_poll_printed size gate freq (m : Monitor point) id s e clock (st : T * Monitor point) :
  mreach (new_monitor size gate) m -> heap m !! id = Some s ->
  apply_options [WithFrequency freq] defaultSubConfig = inr (s_cfg s) ->
  e ∈ s_events s -> ev_Err e = None ->
  show_event clock e st =
    (Returned tt, st, [Printed Stdout "[%s] %s = %s\n"
       [clock; point_String (s_point s); formatValue (sn_Value (ev_Snapshot e))]]).
Proof.
  intros Hr Hs Hc (es & es' & He)%list_elem_of_split Hok.
  destruct (oi_history _ (reach_oinv size gate m Hr) id s Hs) as [Hh _].
  destruct (Hh es e es' He) as (_ & Hp & Hm). cbn in Hc. unfold WithFrequency in Hc.
  destruct (freq <=? 0); [done|]. injection Hc as Hc. unfold marked in Hm. rewrite Hok, <-Hc in Hm. cbn in Hm.
  unfold show_event. rewrite Hok, Hm, Hp. done.
Qed.
End Printed.
End PcccMonitorOk.

(** Two polls of N7:0 that read the same value: both are printed. *)
Module PcccMonitorDemo.
Import PcccMonitor.
Definition seven : Value point := mkValue (Some (File (str "N7:0") 0)) [7; 0] TypeInt16 ByteOrderLittleEndian.
Definition one_poll (ts : Z) : list (act point) :=
  [GTimer 1; GRead 1 ts (inr [seven]); GCheck 1; GLock 1; GUnlock 1; GEvents 1; GLoop 1 0].
Definition polling : option (Monitor point) :=
  exec ([ASubscribe (Some (File (str "N7:0") 0)) [WithFrequency 500]; AStart 1] ++ one_poll 1 ++ one_poll 2)%list
    (new_monitor None None).
Definition polled : Monitor point := default (new_monitor None None) polling.
Lemma polled_reach : mreach (new_monitor None None) polled.
Proof.
  assert (is_Some polling) as [m E] by (apply (bool_decide_unpack _); by vm_compute).
  unfold polled. rewrite E. eapply exec_reach; [constructor|exact E].
Qed.

Lemma every_poll_printed_witness :
  match heap polled !! 1 with
  | Some s => map (fun e => (show_event (T := unit) (AText "t") e (tt, polled)).2) (s_events s) =
      replicate 2 [Printed Stdout "[%s] %s = %s\n" [AText "t"; point_String (File (str "N7:0") 0); formatValue seven]]
  | None => False
  end.
Proof.
  destruct (heap polled !! 1) as [s|] eqn:E; [|vm_compute in E; discriminate E].
  pose proof (PcccMonitorOk.every_poll_printed (T := unit) None None 500 polled 1 s) as H.
  pose proof (fun e => H e (AText "t") (tt, polled) polled_reach E) as H'. clear H.
  vm_compute in E. injection E as <-. cbn [map s_events].
  rewrite !H' by (first [reflexivity | apply list_elem_of_here | apply list_elem_of_further, list_elem_of_here]).
  reflexivity.
Defined.
End PcccMonitorDemo.
