(* ===== verification/PlcPrograms.v ===== *)
(** * Programs over the PLC interface, and over the monitor

    Models [examples/plc_interface], [examples/monitor_subscriber] and
    [examples/monitor_polling].  The interface [plc.PLC] is a class of programs'
    calls, with the Modbus and the EtherNet/IP client as its instances; what the
    protocol-agnostic part of [plc_interface] relies on is the class [PLCLaws],
    which both instances satisfy on a device. *)
From S2P Require Import Prelude Bytes ModbusTypes ModbusFrame ModbusProtocol Transport Plc ModbusStore.
From S2P Require Import ModbusHandlers ModbusSpec ModbusClient ModbusNames Pccc Displays.
From S2P Require Import EipCodec Cip CipTags EipClient EipPlant.
From S2P Require Import MonitorSubs Console ModbusTools EipTools PcccTools.
Import Handler.
#[local] Open Scope string_scope.
#[local] Open Scope Z_scope.

(** ** plc.PLC *)
Class PLC (D T : Type) : Type := {
  plc_Read : list D -> Prog T (error + list (Value D));
  plc_Write : D -> bytes -> Prog T (error + unit);
  plc_Disconnect : Prog T (option error);
  plc_IsConnected : T -> bool;
  plc_String : D -> arg }.

Section ModbusPLC.
Context {C T : Type} `{Transport C T} `{Link C T}.
Variable c : ModbusClient.Client.
Variable now : Z.
Definition modbus_plc : PLC ModbusClient.DataPoint T := {|
  plc_Read := fun ps => call (ModbusClient.Client_Read c now ps);
  plc_Write := fun p data => call (ModbusClient.Client_Write c now p data);
  plc_Disconnect := fun t => let '(e, t) := Close t in (Returned e, t, []);
  plc_IsConnected := ModbusClient.Client_IsConnected;
  plc_String := fun p => AStr (DataPoint_String p) |}.
End ModbusPLC.

Section EipPLC.
Context {C T : Type} `{Transport C T} `{SessionLink C T}.
Variable c : EipClient.Client.
Variable fuel : nat.
(** [Tag.String] is the name. *)
Definition eip_plc : PLC EipClient.DataPoint T := {|
  plc_Read := fun ps => callR (EipClient.Client_Read c fuel ps);
  plc_Write := fun p data => callR (EipClient.Client_Write c fuel p data);
  plc_Disconnect := fun t => let '(e, t) := Close t in (Returned e, t, []);
  plc_IsConnected := EipClient.Client_IsConnected;
  plc_String := fun p => match p with Tag name _ => AStr name | EipClient.OtherPoint => AText "" end |}.
End EipPLC.

(** ** plc_interface *)
Module PlcInterface.
Section Agnostic.
Context {D T : Type} `{PLC D T}.

Definition interpretValue (val : Value D) : Prog T unit :=
  let raw := Raw val in
  if len raw =? 1 then
    b ← eval (go_index raw 0);
    _ ← printf "    -> as uint8:  %d\n" [AInt b];
    printf "    -> as bool:   %v\n" [ABool (negb (b =? 0))]
  else if len raw =? 2 then
    beval ← eval (get_be16 raw);
    leval ← eval (get_le16 raw);
    _ ← printf "    -> as uint16 (big-endian):    %d\n" [AInt beval];
    printf "    -> as uint16 (little-endian): %d\n" [AInt leval]
  else if len raw =? 4 then
    _ ← printf "    -> as uint32 (big-endian):    %d\n" [AInt (be_uint raw)];
    _ ← printf "    -> as uint32 (little-endian): %d\n" [AInt (le_uint raw)];
    printf "    -> as int32  (little-endian): %d\n" [AInt (signed 32 (le_uint raw))]
  else if 6 <=? len raw then
    typeCode ← eval (b ← go_slice raw 0 2; get_le16 b);
    _ ← printf "    -> possible CIP type code: 0x%04X\n" [AInt typeCode];
    rest ← eval (go_slice raw 2 (len raw));
    printf "    -> value bytes: 0x%X\n" [AHex rest]
  else mret tt.

(** [val.DataPoint.String()]; a nil data point would be a nil dereference. *)
Definition value_point (val : Value D) : Prog T arg :=
  match v_DataPoint val with Some p => mret (plc_String p) | None => eval Panic end.
Definition show_value (val : Value D) : Prog T unit :=
  p ← value_point val;
  _ ← printf "  %s = 0x%X (%d bytes)\n" [p; AHex (Raw val); AInt (len (Raw val))];
  interpretValue val.
Definition readFromDevice (point : D) : Prog T unit :=
  _ ← printf "  Reading %s...\n" [plc_String point];
  r ← plc_Read [point];
  match r with
  | inl err => eprintf "  Read error: %v\n" [AErr err]
  | inr values => each 0 (fun _ => show_value) values
  end.
Definition writeToDevice (point : D) (data : bytes) : Prog T unit :=
  _ ← printf "  Writing %d bytes to %s...\n" [AInt (len data); plc_String point];
  r ← plc_Write point data;
  match r with
  | inl err => eprintf "  Write error: %v\n" [AErr err]
  | inr _ => println "  Write successful."
  end.
Definition batchRead (points : list D) : Prog T unit :=
  _ ← printf "  Batch reading %d point(s)...\n" [AInt (len points)];
  r ← plc_Read points;
  match r with
  | inl err => eprintf "  Batch read error: %v\n" [AErr err]
  | inr values =>
      each 0 (fun i val =>
        p ← value_point val;
        printf "  [%d] %s = 0x%X (%d bytes)\n" [AInt i; p; AHex (Raw val); AInt (len (Raw val))]) values
  end.

(** The protocol-agnostic part of [main]. *)
Definition disconnecting (m : Prog T unit) : Prog T unit := fun t =>
  let finish (t : T) :=
    (_ ← println "Disconnecting...";
     e ← plc_Disconnect;
     match e with Some err => eprintf "Error disconnecting: %v\n" [AErr err] | None => mret tt end) t in
  match m t with
  | (Returned a, t, out) => let '(_, t, out') := finish t in (Returned a, t, out ++ out')%list
  | (Crashed, t, out) => let '(_, t, out') := finish t in (Crashed, t, out ++ out')%list
  | r => r
  end.
Definition steps (readPoint writePoint : D) (writeData : bytes) : Prog T unit :=
  connected ← (fun t => (Returned (plc_IsConnected t), t, []));
  _ ← printf "Connection status: connected=%v\n" [ABool connected];
  _ ← println "";
  _ ← println "--- Step 1: Read current value ---";
  _ ← readFromDevice readPoint;
  _ ← println "";
  _ ← println "--- Step 2: Write new value (42) ---";
  _ ← writeToDevice writePoint writeData;
  _ ← println "";
  _ ← println "--- Step 3: Read back to confirm write ---";
  _ ← readFromDevice readPoint;
  _ ← println "";
  _ ← println "--- Step 4: Batch read (same point twice for demo) ---";
  _ ← batchRead [readPoint];
  _ ← println "";
  println "Done.".
End Agnostic.

(** The branches of the [switch] in [main]: the client, the point and the data. *)
Section Branches.
Context {C T : Type} `{Transport C T} `{Link C T}.
Variable now : Z.
Definition modbus_branch (addr : bytes) (port register unit_ : Z) : Prog T unit :=
  _ ← printf "Creating %s client for %s:%d (unit ID %d)...\n" [AText "Modbus TCP"; AStr addr; AInt port; AInt unit_];
  r ← call ModbusClient.Client_Connect;
  match r with
  | inl err => _ ← eprintf "Failed to connect via Modbus: %v\n" [AErr err]; exit 1
  | inr _ =>
      let point := HoldingRegister (u16 register) 1 in
      _ ← printf "Connected via %s.\n" [AText "Modbus TCP"];
      _ ← println "";
      disconnecting (H := modbus_plc (ModbusClient.mkClientCfg (u8 unit_) 0) now)
        (steps (H := modbus_plc (ModbusClient.mkClientCfg (u8 unit_) 0) now) point point (be16 42))
  end.
End Branches.
Section EipBranch.
Context {C T : Type} `{Transport C T} `{SessionLink C T}.
Variable fuel : nat.
Definition eip_branch (addr tag : bytes) : Prog T unit :=
  _ ← printf "Creating %s client for %s...\n" [AText "EtherNet/IP"; AStr addr];
  r ← call EipClient.Client_Connect;
  match r with
  | inl err => _ ← eprintf "Failed to connect via EtherNet/IP: %v\n" [AErr err]; exit 1
  | inr _ =>
      let point := Tag tag 1 in
      _ ← printf "Connected via %s.\n" [AText "EtherNet/IP"];
      _ ← println "";
      disconnecting (H := eip_plc (EipClient.NewClient 0) fuel)
        (steps (H := eip_plc (EipClient.NewClient 0) fuel) point point (le16 CipType.DINT ++ le32 42)%list)
  end.
End EipBranch.

(** [main], over the links of both protocols. *)
Section Main.
Context {C1 T1 C2 T2 : Type} `{Transport C1 T1} `{Link C1 T1} `{Transport C2 T2} `{SessionLink C2 T2}.
Variables (now : Z) (fuel : nat).
Definition main (protocol addr tag : bytes) (port register unit_ : Z) : Prog (T1 * T2) unit := fun st =>
  if bool_decide (protocol = str "modbus") then
    let '(r, t, out) := modbus_branch now addr port register unit_ st.1 in (r, (t, st.2), out)
  else if bool_decide (protocol = str "ethernetip") then
    let '(r, t, out) := eip_branch fuel addr tag st.2 in (r, (st.1, t), out)
  else
    (_ ← eprintf "Unknown protocol %q. Use 'modbus' or 'ethernetip'.\n" [AStr protocol]; exit 1) st.
End Main.
End PlcInterface.

(** ** monitor_subscriber *)
Module MonitorSubscriber.
Definition formatRegister (raw : bytes) : outcome arg :=
  if 2 <=? len raw then val ← get_be16 raw; Ok (AFmt "%d (0x%04X)" [AInt val; AInt val])
  else Ok (AFmt "0x%X" [AHex raw]).

Section Program.
Context {S : Type}.
Abbreviation event := (Event ModbusClient.DataPoint).
Variable timestamp : Z -> arg.
Definition point_text (sn : Snapshot ModbusClient.DataPoint) : arg := AStr (DataPoint_String (Point sn)).

(** Goroutine A, one event after the other; [All] ends when the channel is closed. *)
Fixpoint subscriber_A (count : Z) (events : list event) : Prog S unit :=
  match events with
  | [] => println "[A] subscriber done"
  | evt :: events =>
      let count := count + 1 in
      let sn := ev_Snapshot evt in
      _ ← match ev_Err evt with
          | Some err => printf "[A] %s  #%d  ERROR: %v\n" [timestamp (Timestamp sn); AInt count; AErr err]
          | None =>
              val ← eval (formatRegister (Raw (sn_Value sn)));
              printf "[A] %s  #%d  %s = %s%s\n"
                [timestamp (Timestamp sn); AInt count; point_text sn; val; AText (if Changed evt then " *" else "  ")]
          end;
      subscriber_A count events
  end.
(** Goroutine B: changes only. *)
Fixpoint subscriber_B (events : list event) : Prog S unit :=
  match events with
  | [] => println "[B] subscriber done"
  | evt :: events =>
      let sn := ev_Snapshot evt in
      _ ← (if bool_decide (ev_Err evt <> None) || negb (Changed evt) then mret tt else
             val ← eval (formatRegister (Raw (sn_Value sn)));
             printf "[B] %s  CHANGED  %s → %s\n" [timestamp (Timestamp sn); point_text sn; val]);
      subscriber_B events
  end.
End Program.

(** [main] up to the two goroutines: a monitor with a buffer of 128 events, one
    subscription without initial delay, and two subscribers, whose goroutines run
    [body]; what is deferred runs in the opposite order. *)
Section Main.
Context {C T : Type} `{Transport C T} `{Link C T}.
Abbreviation state := (T * Monitor ModbusClient.DataPoint)%type.
Variables (Monitor_Close : Monitor ModbusClient.DataPoint -> Monitor ModbusClient.DataPoint)
  (Subscriber_Done : nat -> Monitor ModbusClient.DataPoint -> Monitor ModbusClient.DataPoint).
Definition on_mon {A} (m : SM (Monitor ModbusClient.DataPoint) A) : Prog state (error + A) := call (fun st =>
  let '(r, mon) := m st.2 in (r, (st.1, mon))).
Definition try_ {A} (m : Prog state (error + A)) (text : string) (k : A -> Prog state unit) : Prog state unit :=
  r ← m;
  match r with
  | inl err => _ ← eprintf text [AErr err]; exit 1
  | inr a => k a
  end.
Definition setup (register interval : Z) (body : nat -> nat -> Prog state unit) : Prog state unit :=
  try_ (call (fun st => match NewMonitor true (Some 128) None with
                        | Ok mon => (Ok tt, (st.1, mon))
                        | Err e => (Err e, st)
                        | Panic => (Panic, st)
                        end)) "Failed to create monitor: %v\n" (fun _ =>
  deferred (fun st => (st.1, Monitor_Close st.2)) (
  let point := HoldingRegister (u16 register) 1 in
  try_ (on_mon (subscribe_call (Some point)
          [WithFrequency interval; WithReadVariance 10000000; WithChangeDetector (Some ByteChangeDetector);
           WithInitialRead 0])) "Failed to subscribe: %v\n" (fun _ =>
  try_ (on_mon (NewSubscriber 128)) "Failed to create subscriber A: %v\n" (fun subA =>
  deferred (fun st => (st.1, Subscriber_Done subA st.2)) (
  try_ (on_mon (NewSubscriber 128)) "Failed to create subscriber B: %v\n" (fun subB =>
  deferred (fun st => (st.1, Subscriber_Done subB st.2)) (
  _ ← printf "Monitoring %s with 2 subscribers — poll every %s\n" [AStr (DataPoint_String point); AInt interval];
  _ ← println "Press Ctrl+C to stop.";
  _ ← println "";
  body subA subB))))))).
Definition main (addr : bytes) (port register interval : Z) (body : nat -> nat -> Prog state unit) : Prog state unit :=
  _ ← printf "Connecting to Modbus TCP server at %s:%d...\n" [AStr addr; AInt port];
  r ← call (fun st => let '(r, t) := ModbusClient.Client_Connect st.1 in (r, (t, st.2)));
  match r with
  | inl err =>
      _ ← eprintf "Failed to connect: %v\n" [AErr err];
      _ ← eprintln "Hint: start a server with: go run ../modbus/server -port 5020";
      exit 1
  | inr _ =>
      deferred (fun st => (close_client st.1, st.2)) (
      _ ← println "Connected.";
      setup register interval body)
  end.
(** The end of [main]: the signal, the monitor closed, both goroutines waited for. *)
Definition shutdown (sig : arg) (wait : Prog state unit) : Prog state unit :=
  _ ← printf "\nReceived %v, shutting down...\n" [sig];
  _ ← (fun st => (Returned tt, (st.1, Monitor_Close st.2), []));
  _ ← wait;
  println "Done.".
End Main.
End MonitorSubscriber.

(** ** monitor_polling *)
Module MonitorPolling.
Section Program.
Context {S P : Type}.
Variables (timestamp : Z -> arg) (point_String : P -> arg).

Definition printEvent (protocol : string) (event : Event P) : Prog S unit :=
  let sn := ev_Snapshot event in
  match ev_Err event with
  | Some err =>
      printf "[%s] EVENT [%s] sub=%d ERROR: %v\n"
        [timestamp (Timestamp sn); AText protocol; AInt (SubscriptionID event); AErr err]
  | None =>
      printf "[%s] EVENT [%s] sub=%d %s point=%s value=0x%X (%d bytes)\n"
        [timestamp (Timestamp sn); AText protocol; AInt (SubscriptionID event);
         AText (if Changed event then "CHANGED" else "unchanged"); point_String (Point sn);
         AHex (Raw (sn_Value sn)); AInt (len (Raw (sn_Value sn)))]
  end.
End Program.

(** The links and the monitors of both protocols. *)
Record World (T1 T2 : Type) : Type := mkWorld {
  modbusClient : T1; modbusMon : Monitor ModbusClient.DataPoint;
  eipClient : T2; eipMon : Monitor EipClient.DataPoint }.
Arguments mkWorld {T1 T2}. Arguments modbusClient {T1 T2}. Arguments modbusMon {T1 T2}.
Arguments eipClient {T1 T2}. Arguments eipMon {T1 T2}.

Section Loop.
Context {T1 T2 : Type}.
Abbreviation S := (World T1 T2).
Variable timestamp : Z -> arg.
(** [Close] of the two monitors, run to its return. *)
Variables (close_modbus : Monitor ModbusClient.DataPoint -> Monitor ModbusClient.DataPoint)
  (close_eip : Monitor EipClient.DataPoint -> Monitor EipClient.DataPoint).
Definition set_modbus (m : Monitor ModbusClient.DataPoint) (w : S) : S := mkWorld (modbusClient w) m (eipClient w) (eipMon w).
Definition set_eip (m : Monitor EipClient.DataPoint) (w : S) : S := mkWorld (modbusClient w) (modbusMon w) (eipClient w) m.
Definition tag_text (p : EipClient.DataPoint) : arg :=
  match p with Tag name _ => AStr name | EipClient.OtherPoint => AText "" end.

(** The handlers of the two subscriptions. *)
Definition modbus_handler (snap : Snapshot ModbusClient.DataPoint) : Prog S unit :=
  if 2 <=? len (Raw (sn_Value snap)) then
    val ← eval (get_be16 (Raw (sn_Value snap)));
    printf "[%s] HANDLER: Modbus %s = %d (0x%04X)\n"
      [timestamp (Timestamp snap); AStr (DataPoint_String (Point snap)); AInt val; AInt val]
  else mret tt.
Definition eip_handler (snap : Snapshot EipClient.DataPoint) : Prog S unit :=
  printf "[%s] HANDLER: EtherNet/IP %s = 0x%X (%d bytes)\n"
    [timestamp (Timestamp snap); tag_text (Point snap); AHex (Raw (sn_Value snap)); AInt (len (Raw (sn_Value snap)))].

(** What the [select] of the loop receives; a closed channel is received from again
    and again. *)
Inductive input : Type :=
| CtxDone_
| FromModbus (e : option (Event ModbusClient.DataPoint))
| FromEip (e : option (Event EipClient.DataPoint)).
Fixpoint event_loop (inputs : list input) : Prog S unit :=
  match inputs with
  | [] => fun s => (Waiting, s, [])
  | CtxDone_ :: _ =>
      _ ← println "\nShutting down monitors...";
      _ ← (fun w => (Returned tt, set_eip (close_eip (eipMon w)) (set_modbus (close_modbus (modbusMon w)) w), []));
      _ ← println "Monitors stopped.";
      println "Done."
  | FromModbus e :: inputs =>
      _ ← match e with
          | Some e => printEvent timestamp (fun p => AStr (DataPoint_String p)) "Modbus" e
          | None => mret tt
          end;
      event_loop inputs
  | FromEip e :: inputs =>
      _ ← match e with Some e => printEvent timestamp tag_text "EtherNet/IP" e | None => mret tt end;
      event_loop inputs
  end.
End Loop.

(** The options of both subscriptions. *)
Definition options {P} (interval : Z) : list (SubscriptionOption P) :=
  [WithFrequency interval; WithReadVariance 10000000; WithChangeDetector (Some ByteChangeDetector);
   WithHandler true; WithInitialRead 0].

Section Main.
Context {C1 T1 C2 T2 : Type} `{Transport C1 T1} `{Link C1 T1} `{Transport C2 T2} `{SessionLink C2 T2}.
Abbreviation S := (World T1 T2).
Variable timestamp : Z -> arg.
Variables (close_modbus : Monitor ModbusClient.DataPoint -> Monitor ModbusClient.DataPoint)
  (close_eip : Monitor EipClient.DataPoint -> Monitor EipClient.DataPoint).
Definition try_ {A} (m : SM S A) (text : string) (hints : list string) (k : A -> Prog S unit) : Prog S unit :=
  r ← call m;
  match r with
  | inl err => _ ← eprintf text [AErr err]; _ ← each 0 (fun _ => eprintln) hints; exit 1
  | inr a => k a
  end.
Definition on_modbus {A} (m : SM (Monitor ModbusClient.DataPoint) A) : SM S A := fun w =>
  let '(r, x) := m (modbusMon w) in (r, set_modbus x w).
Definition on_eip {A} (m : SM (Monitor EipClient.DataPoint) A) : SM S A := fun w =>
  let '(r, x) := m (eipMon w) in (r, set_eip x w).
(** [NewMonitor(client, WithEventBuffer(128))] *)
Definition create {P} : SM (Monitor P) unit := fun m =>
  match NewMonitor true (Some 128) None with Ok m => (Ok tt, m) | Err e => (Err e, m) | Panic => (Panic, m) end.

(** From the monitors to the end of [main]. *)
Definition monitors (register interval : Z) (eipTag : bytes) (inputs : list input) : Prog S unit :=
  try_ (on_modbus create) "Failed to create Modbus monitor: %v\n" [] (fun _ =>
  deferred (fun w => set_modbus (close_modbus (modbusMon w)) w) (
  try_ (on_eip create) "Failed to create EtherNet/IP monitor: %v\n" [] (fun _ =>
  deferred (fun w => set_eip (close_eip (eipMon w)) w) (
  let modbusPoint := HoldingRegister (u16 register) 1 in
  _ ← printf "Subscribing to Modbus %s...\n" [AStr (DataPoint_String modbusPoint)];
  try_ (on_modbus (subscribe_call (Some modbusPoint) (options interval)))
    "Failed to subscribe to Modbus register: %v\n" [] (fun _ =>
  _ ← printf "Subscribing to EtherNet/IP tag %q...\n" [AStr eipTag];
  try_ (on_eip (subscribe_call (Some (Tag eipTag 1)) (options interval)))
    "Failed to subscribe to EtherNet/IP tag: %v\n" [] (fun _ =>
  _ ← println "";
  _ ← println "Monitor is running. Press Ctrl+C to stop.";
  _ ← println "Events from both protocols will appear below:";
  _ ← println "";
  event_loop timestamp close_modbus close_eip inputs)))))).
Definition main (modbusAddr eipAddr eipTag : bytes) (modbusPort register interval : Z) (inputs : list input) : Prog S unit :=
  _ ← printf "Connecting to Modbus TCP server at %s:%d...\n" [AStr modbusAddr; AInt modbusPort];
  try_ (fun w => let '(r, t) := ModbusClient.Client_Connect (modbusClient w) in
                 (r, mkWorld t (modbusMon w) (eipClient w) (eipMon w)))
    "Failed to connect to Modbus server: %v\n"
    ["Hint: Make sure a Modbus TCP server is running.";
     "You can use the modbus/server example: go run ../../modbus/server"] (fun _ =>
  deferred (fun w => mkWorld (close_client (modbusClient w)) (modbusMon w) (eipClient w) (eipMon w)) (
  _ ← println "Modbus client connected.";
  _ ← printf "Connecting to EtherNet/IP server at %s...\n" [AStr eipAddr];
  try_ (fun w => let '(r, t) := EipClient.Client_Connect (eipClient w) in
                 (r, mkWorld (modbusClient w) (modbusMon w) t (eipMon w)))
    "Failed to connect to EtherNet/IP server: %v\n"
    ["Hint: Make sure an EtherNet/IP server is running.";
     "You can use the ethernetip/server example: go run ../../ethernetip/server"] (fun _ =>
  deferred (fun w => mkWorld (modbusClient w) (modbusMon w) (eip_close (eipClient w)) (eipMon w)) (
  _ ← println "EtherNet/IP client connected.";
  _ ← println "";
  monitors register interval eipTag inputs)))).
End Main.
End MonitorPolling.

(** ** What the agnostic part relies on

    A point that is ready can be read, and gives its contents; data that a ready
    point accepts as [raw] makes [raw] its contents.  Reads change neither. *)
Class PLCLaws (D T : Type) `{PLC D T} : Type := {
  ready : D -> T -> Prop;
  contents : D -> T -> bytes;
  accepts : D -> bytes -> bytes -> T -> Prop;
  read_law p t : ready p t -> exists t' v,
    plc_Read [p] t = (Returned (inr [v]), t', []) /\ v_DataPoint v = Some p /\ Raw v = contents p t /\
    ready p t' /\ contents p t' = contents p t /\ (forall data raw, accepts p data raw t -> accepts p data raw t');
  write_law p data raw t : ready p t -> accepts p data raw t -> exists t',
    plc_Write p data t = (Returned (inr tt), t', []) /\ ready p t' /\ contents p t' = raw }.

Module PlcInterfaceOk.
Import PlcInterface.
Section Agnostic.
Context {D T : Type} `{PLCLaws D T}.

Lemma interpret_quiet (v : Value D) : quiet (S := T) (interpretValue v).
Proof.
  unfold interpretValue. assert (forall n, len (Raw v) = n -> length (Raw v) = Z.to_nat n) as Hl by (unfold len; lia).
  destruct (Z.eqb_spec (len (Raw v)) 1) as [E|].
  { destruct (Raw v) as [|b [|]]; (apply Hl in E; done). }
  destruct (Z.eqb_spec (len (Raw v)) 2) as [E|].
  { destruct (Raw v) as [|b [|b' [|]]]; (apply Hl in E; done). }
  destruct (Z.eqb_spec (len (Raw v)) 4); [unfold printf; auto with quiet|].
  destruct (Z.leb_spec 6 (len (Raw v))); [|apply quiet_ret]. intros t.
  apply wp_bind. destruct (Raw v) as [|b [|b' raw]] eqn:Er; try (unfold len in *; cbn in *; lia).
  eapply wp_eval; [change (b :: b' :: raw) with ([b; b'] ++ raw)%list; by rewrite go_slice_prefix|].
  apply wp_bind, wp_emit, wp_bind. eapply wp_eval; [|by apply wp_emit].
  change (b :: b' :: raw) with ([b; b'] ++ raw)%list. apply go_slice_suffix; [done|lens; lia].
Qed.

(** A reading of a ready point shows the contents. *)
Lemma readFromDevice_wp p t Q : ready p t ->
  (forall t' out out', ready p t' -> contents p t' = contents p t ->
    (forall data raw, accepts p data raw t -> accepts p data raw t') ->
    out = [Printed Stdout "  Reading %s...\n" [plc_String p];
           Printed Stdout "  %s = 0x%X (%d bytes)\n"
             [plc_String p; AHex (contents p t); AInt (len (contents p t))]] -> Q tt t' (out ++ out')%list) ->
  wp (readFromDevice p) t Q.
Proof.
  intros Hr HQ. destruct (read_law p t Hr) as (t' & v & E & Hv & Hraw & Hr' & Hc & Ha).
  unfold readFromDevice. apply wp_bind, wp_emit, wp_bind. unfold wp at 1. rewrite E. cbn [each].
  apply wp_bind. unfold show_value, value_point. rewrite Hv. apply wp_bind, wp_ret, wp_bind, wp_emit.
  eapply wp_conseq; [apply interpret_quiet|]. intros [] s' out ->. apply wp_ret. rewrite Hraw.
  apply (HQ t' _ (out ++ [])%list Hr' Hc Ha eq_refl).
Qed.
Lemma batchRead_wp p t Q : ready p t ->
  (forall t' out, ready p t' -> contents p t' = contents p t -> Q tt t' out) -> wp (batchRead [p]) t Q.
Proof.
  intros Hr HQ. destruct (read_law p t Hr) as (t' & v & E & Hv & Hraw & Hr' & Hc & Ha).
  unfold batchRead. apply wp_bind, wp_emit, wp_bind. unfold wp at 1. rewrite E. cbn [each].
  apply wp_bind. unfold value_point. rewrite Hv. apply wp_bind, wp_ret, wp_emit, wp_ret. by apply HQ.
Qed.

(** C39: The program over any PLC.  For a ready point and data that it accepts as [raw],
    the protocol-agnostic part of [plc_interface] returns, the point then holds
    [raw], and the program has shown the contents before, that the write was
    successful, and [raw] after it. *)
Theorem agnostic_confirms p data raw t : ready p t -> accepts p data raw t ->
  wp (steps p p data) t (fun _ t' out =>
    ready p t' /\ contents p t' = raw /\
    exists l1 l2 l3,
      out = (l1 ++ [Printed Stdout "  %s = 0x%X (%d bytes)\n" [plc_String p; AHex (contents p t); AInt (len (contents p t))]] ++
             l2 ++ [Printedln Stdout "  Write successful."; Printedln Stdout "";
                    Printedln Stdout "--- Step 3: Read back to confirm write ---";
                    Printed Stdout "  Reading %s...\n" [plc_String p];
                    Printed Stdout "  %s = 0x%X (%d bytes)\n" [plc_String p; AHex raw; AInt (len raw)]] ++ l3)%list).
Proof.
  intros Hr Ha. unfold steps. apply wp_bind. unfold wp at 1. cbv beta iota.
  do 3 (apply wp_bind, wp_emit). apply wp_bind, readFromDevice_wp; [done|].
  intros t1 out1 rest1 Hr1 Hc1 Ha1 ->. do 2 (apply wp_bind, wp_emit). apply wp_bind. unfold writeToDevice.
  destruct (write_law p data raw t1 Hr1 (Ha1 _ _ Ha)) as (t2 & Ew & Hr2 & Hc2).
  apply wp_bind, wp_emit, wp_bind. unfold wp at 1. rewrite Ew. apply wp_emit.
  do 2 (apply wp_bind, wp_emit). apply wp_bind, readFromDevice_wp; [done|].
  intros t3 out3 rest3 Hr3 Hc3 _ ->. do 2 (apply wp_bind, wp_emit). apply wp_bind, batchRead_wp; [done|].
  intros t4 out4 Hr4 Hc4. apply wp_bind, wp_emit, wp_emit. split; [done|]. split; [congruence|].
  rewrite Hc2. eexists [_; _; _; _], (rest1 ++ [_; _; _])%list, _. cbn [app]. rewrite <-!app_assoc. cbn [app].
  reflexivity.
Qed.
End Agnostic.
End PlcInterfaceOk.

(** ** The Modbus client on a device *)
Section ModbusLaws.
Context {C T : Type} `{DeviceLink C T}.
Variables (c : ModbusClient.Client) (now : Z).
Hypothesis limited : 0 <= ModbusClient.retries c.
#[local] Instance modbus_device : PLC ModbusClient.DataPoint T := modbus_plc c now.

(** Registers are written as they are read: big-endian. *)
Definition modbus_accepts (p : ModbusClient.DataPoint) (data raw : bytes) (t : T) : Prop :=
  raw = data /\ exists a vs, p = HoldingRegister a (len vs) /\ data = regs_to_bytes vs /\
    is_u16 a /\ 0 < len vs <= MaxWriteRegisterCount /\ Forall is_u16 vs.
#[export] Instance modbus_laws : PLCLaws ModbusClient.DataPoint T.
Proof.
  refine {| ready := fun p t => point_ok p /\ link_ok t;
            contents := fun p t => Raw (point_value (ModbusClient.device t) p);
            accepts := modbus_accepts |}.
  - intros p t [Hp Ht]. destruct (Client_Read_device c now limited [p] t) as (t' & E & Ht' & Hd); [by constructor|done|].
    exists t', (point_value (ModbusClient.device t) p). cbn [plc_Read modbus_device modbus_plc]. unfold call. rewrite E.
    split; [done|]. split; [by destruct p|]. split; [done|]. split; [done|]. split; [by rewrite Hd|done].
  - intros p data raw t [Hp Ht] (-> & a & vs & -> & -> & Ha & Hl & Hvs).
    destruct (write_regs_device c now limited a vs t Ha Hl Hvs Ht) as (t' & E & Ht' & Hd).
    exists t'. cbn [plc_Write modbus_device modbus_plc]. unfold call. rewrite E. split; [done|]. split; [done|].
    cbn [point_value Raw]. f_equal. rewrite (cells_ext _ (write_cells (holding (ModbusClient.device t)) a vs)) by (intros x Hx; apply (Hd x Hx)).
    apply cells_write_same. unfold MaxWriteRegisterCount in *; lia.
Defined.
End ModbusLaws.

(** ** The EtherNet/IP client on a device *)
Section EipLaws.
Context {C T W : Type} `{CipDevice C T W} `{!TagDevice answers}.
Variables (c : EipClient.Client) (fuel : nat).
Hypothesis limited : 0 <= EipClient.retries c < 2147483647.
#[local] Instance eip_device : PLC EipClient.DataPoint T := eip_plc c (S fuel).

Definition eip_ready (p : EipClient.DataPoint) (t : T) : Prop :=
  match p with
  | Tag name n => n = 1 /\ exists sess path dt el els, live sess t /\ ParseTagPath name = Ok path /\
      tag (EipClient.device t) path = Some (dt, el :: els) /\ dt < CipType.STRUCT /\ fits (NewReadTagRequest path 1)
  | EipClient.OtherPoint => False
  end.
Definition eip_contents (p : EipClient.DataPoint) (t : T) : bytes :=
  match p with
  | Tag name _ =>
      match ParseTagPath name with
      | Ok path => match tag (EipClient.device t) path with Some (_, el :: _) => el | _ => [] end
      | _ => []
      end
  | EipClient.OtherPoint => []
  end.
(** A tag is written with its type code in front of the bytes it is read as. *)
Definition eip_accepts (p : EipClient.DataPoint) (data raw : bytes) (t : T) : Prop :=
  match p with
  | Tag name _ => exists path dt el els, ParseTagPath name = Ok path /\
      tag (EipClient.device t) path = Some (dt, el :: els) /\ data = (le16 dt ++ raw)%list /\ len raw = len el /\
      fits (NewWriteTagRequest path dt 1 raw)
  | EipClient.OtherPoint => False
  end.

Lemma eip_read_live name path dt el els sess t :
  live sess t -> ParseTagPath name = Ok path -> tag (EipClient.device t) path = Some (dt, el :: els) ->
  dt < CipType.STRUCT -> fits (NewReadTagRequest path 1) ->
  exists t', EipClient.Client_Read c (S fuel) [Tag name 1] t =
      Some (Ok [mkValue (Some (Tag name 1)) el (cipTypeToPlcType dt) ByteOrderLittleEndian], t') /\
    EipClient.device t' = EipClient.device t /\ live sess t'.
Proof.
  intros Hl Hp Ht Hd Hf. pose proof (tag_type _ _ _ _ Ht) as Hdt.
  pose proof (read_answer _ _ _ _ 1 Ht ltac:(done)) as Hrd.
  change (Z.to_nat 1) with 1%nat in Hrd. cbn [take concat] in Hrd. rewrite app_nil_r in Hrd.
  destruct (do_request c fuel _ (fun resp => Ok (ResponseData resp)) sess t _ _ _ _ Hl Hf
    (Hrd ltac:(lens; pose proof (len_nonneg els); lia)) eq_refl) as (t' & E & Hdv & Hl'); [by left|].
  assert (ReadTagElements c (S fuel) name 1 t = Some (Ok (le16 dt ++ el)%list, t')) as E1.
  { unfold ReadTagElements. change (1 =? 0) with false. cbv iota.
    rewrite (Run_bind_Ok _ _ _ path t) by (unfold local; by rewrite Hp). exact E. }
  exists t'. split; [|done]. cbn [EipClient.Client_Read]. change (1 =? 0) with false. cbv iota.
  rewrite (Run_bind_Ok _ _ _ _ _ E1).
  by rewrite (Run_bind_Ok _ _ _ _ t' (f_equal (fun r => Some (r, t')) (tag_value_atomic (Tag name 1) dt el Hdt Hd))).
Qed.
Lemma eip_write_live name path dt el els raw sess t :
  live sess t -> ParseTagPath name = Ok path -> tag (EipClient.device t) path = Some (dt, el :: els) ->
  len raw = len el -> fits (NewWriteTagRequest path dt 1 raw) ->
  exists t', EipClient.Client_Write c (S fuel) (Tag name 1) (le16 dt ++ raw) t = Some (Ok tt, t') /\
    tag (EipClient.device t') path = Some (dt, raw :: els) /\ live sess t'.
Proof.
  intros Hl Hp Ht Hr Hf. pose proof (tag_type _ _ _ _ Ht) as Hdt. pose proof (len_nonneg raw).
  destruct (write_answer _ _ _ _ [raw] Ht) as (w & Hw & Ht1);
    [done|lens; pose proof (len_nonneg els); lia|by constructor|].
  cbn [concat] in Hw. rewrite app_nil_r in Hw. cbn [length drop app] in Ht1.
  destruct (do_request c fuel _ (fun _ => Ok tt) sess t _ _ _ tt Hl Hf Hw) as (t' & E & Hd & Hl'); [done|by left|].
  exists t'. split; [|by rewrite Hd, Ht1, drop_0]. unfold EipClient.Client_Write.
  rewrite (proj2 (Z.ltb_ge _ _)) by (lens; lia).
  rewrite (Run_bind_Ok _ _ _ dt t) by (unfold local; by rewrite type_code_le16).
  rewrite (Run_bind_Ok _ _ _ path t) by (unfold local; by rewrite Hp).
  rewrite (Run_bind_Ok _ _ _ raw t) by (unfold local; rewrite go_slice_suffix by (lens; lia); done).
  exact E.
Qed.

#[export] Instance eip_laws : PLCLaws EipClient.DataPoint T.
Proof.
  refine {| ready := eip_ready; contents := eip_contents; accepts := eip_accepts |}.
  - intros [name n|] t; [|done]. intros (-> & sess & path & dt & el & els & Hl & Hp & Ht & Hd & Hf).
    destruct (eip_read_live name path dt el els sess t Hl Hp Ht Hd Hf) as (t' & E & Hdv & Hl').
    eexists t', _. cbn [plc_Read eip_device eip_plc]. unfold callR. rewrite E. split; [done|]. split; [done|].
    unfold eip_contents, eip_accepts, eip_ready. rewrite Hp, Hdv, Ht. split; [done|]. split; [|done].
    split; [done|]. by exists sess, path, dt, el, els.
  - intros [name n|] data raw t; [|done]. intros (-> & sess & path & dt & el & els & Hl & Hp & Ht & Hd & Hf).
    intros (path' & dt' & el' & els' & Hp' & Ht' & -> & Hlen & Hfw). rewrite Hp in Hp'. injection Hp' as <-.
    rewrite Ht in Ht'. injection Ht' as <- <- <-.
    destruct (eip_write_live name path dt el els raw sess t Hl Hp Ht Hlen Hfw) as (t' & E & Ht1 & Hl').
    exists t'. cbn [plc_Write eip_device eip_plc]. unfold callR. rewrite E. split; [done|].
    unfold eip_contents. rewrite Hp, Ht1. split; [|done]. split; [done|]. by exists sess, path, dt, raw, els.
Defined.
End EipLaws.

(** ** Concrete devices: a register of an in-memory server, and a tag *)
Lemma agnostic_confirms_witness :
  (wp (PlcInterface.steps (H := @modbus_plc unit MemoryStore ModbusClient.served_transport ModbusClient.served_link (ModbusClient.mkClientCfg 1 0) 0) (HoldingRegister 5 1) (HoldingRegister 5 1) (be16 42)) NewMemoryStore
     (fun _ t' _ => Raw (point_value (@ModbusClient.device unit MemoryStore ModbusClient.served_transport ModbusClient.served_link ModbusClient.served_device t') (HoldingRegister 5 1)) = [0; 42])) /\
  (wp (PlcInterface.steps (H := eip_plc (C := unit) (EipClient.NewClient 0) 1) (Tag (str "Speed") 1) (Tag (str "Speed") 1)
         (le16 CipType.INT ++ [42; 0])%list) Bench.plant
     (fun _ t' _ => eip_contents (C := unit) (Tag (str "Speed") 1) t' = [42; 0])).
Proof.
  split.
  - eapply wp_conseq.
    + apply (PlcInterfaceOk.agnostic_confirms (H0 := @modbus_laws unit MemoryStore ModbusClient.served_transport ModbusClient.served_link ModbusClient.served_device (ModbusClient.mkClientCfg 1 0) 0 (Z.le_refl 0)) (HoldingRegister 5 1) (be16 42) (be16 42) NewMemoryStore).
      * split; [|split; apply map_Forall_empty]. split; [decided|]. vm_compute; split; congruence.
      * split; [reflexivity|]. exists 5, [42]. split; [reflexivity|]. split; [reflexivity|]. split; [decided|].
        split; [vm_compute; split; congruence|]. repeat constructor; vm_compute; congruence.
    + intros a t' out (_ & Hc & _). exact Hc.
  - eapply wp_conseq.
    + apply (PlcInterfaceOk.agnostic_confirms (H0 := eip_laws (C := unit) (EipClient.NewClient 0) 0 ltac:(cbn; lia))
        (Tag (str "Speed") 1) (le16 CipType.INT ++ [42; 0])%list [42; 0] Bench.plant).
      * split; [reflexivity|]. exists tt, Bench.speed_path, CipType.INT, [1; 0], [[2; 0]; [3; 0]].
        split; [exact I|]. split; [reflexivity|]. split; [reflexivity|]. split; [reflexivity|exact I].
      * exists Bench.speed_path, CipType.INT, [1; 0], [[2; 0]; [3; 0]].
        split; [reflexivity|]. split; [reflexivity|]. split; [reflexivity|]. split; [reflexivity|exact I].
    + intros a t' out (_ & Hc & _). exact Hc.
Defined.
