(* ===== verification/IoTools.v ===== *)
(** * The I/O programs

    Models [examples/ethernetip/io_scanner], the display of
    [examples/ethernetip/adapter], and the programs around a server
    ([examples/modbus/server], [examples/ethernetip/server]).  The scanner program
    is a program over the scanner and its goroutines as [ScanLife] has them: [Open]
    starts a producer, a panic of any goroutine ends the process, and [Shutdown]
    waits for all of them.  What the other goroutines and the device do while the
    program waits is given with what it waits for.  The theorems run the program
    against the adapter. *)
From S2P Require Import Prelude Bytes Transport Pccc Cip CipObjects EipCodec EipServer EipSession IORuntime IOScanner ScanLife.
From S2P Require Import Options Adapter Console EipTools.
#[local] Open Scope string_scope.
#[local] Open Scope Z_scope.

(** A change of the state that prints nothing. *)
Definition update {S} (f : S -> S) : Prog S unit := fun s => (Returned tt, f s, []).

(** ** io_scanner *)
Module ScannerTool.
Record Flags : Type := mkFlags {
  otInstance : Z; toInstance : Z; cfgInstance : Z; otSize : Z; toSize : Z; rpi : Z; timeoutMult : Z;
  cycles : Z; udpPort : Z }.

(** [net.JoinHostPort]. *)
Definition JoinHostPort (host port : bytes) : bytes :=
  if has 58 host then ([91] ++ host ++ [93; 58] ++ port)%list else (host ++ [58] ++ port)%list.
Definition tcp_address (addr : bytes) : bytes :=
  match SplitHostPort addr with Ok _ => addr | _ => JoinHostPort addr (str "44818") end.

Definition connPath (f : Flags) : bytes :=
  let p := AddClass [] ClassAssembly in
  let p := if 0 <? cfgInstance f then AddInstance p (u16 (cfgInstance f)) else AddInstance p 1 in
  let p := AddConnectionPoint p (u16 (otInstance f)) in
  AddConnectionPoint p (u16 (toInstance f)).
Definition config (f : Flags) (targetUDP : Z) : IOConnectionConfig :=
  mkIOConfig (u16 (otInstance f)) (u16 (toInstance f)) (u16 (cfgInstance f)) (u16 (otSize f)) (u16 (toSize f))
    (rpi f) (u8 (timeoutMult f)) false (Some targetUDP) (Some (connPath f)).

Section Program.
Context {P : Type} `{Wire P}.
(** [net.Dial] of an address, and closing what it gave. *)
Variable dial : bytes -> outcome P.
Variable hang_up : P -> P.
(** [net.ResolveUDPAddr], and whether the local UDP socket can be bound. *)
Variable ResolveUDPAddr : bytes -> outcome Z.
Variable listen_udp : outcome unit.
Variable peer_addr : Session P -> option Z.
Abbreviation state := (@life (Session P)).

Definition on_scan {A} (m : SM (IOScanner (Session P)) A) : SM state A := fun s =>
  let '(r, sc) := m (lf_scan s) in (r, with_scan s sc).
Definition on_session {A} (m : SM (Session P) A) : SM state A := on_scan (fun sc =>
  let '(r, x) := m (session sc) in (r, with_session x sc)).

(** ** The goroutines of the scanner *)
Definition goroutine (e : event) : bool :=
  match e with EStart _ | EStop _ | ETick _ | EPacket _ _ | EReadError | ERecvExit => true | _ => false end.
(** A turn of another goroutine: it moves when it can.  Its panic ends the process
    with status 2 and without the deferred calls of [main]. *)
Definition turn (e : event) : Prog state unit := fun s =>
  if goroutine e then
    match lstep SendCIPRequest peer_addr e s with
    | None => (Returned tt, s, [])
    | Some (Ok s') => (Returned tt, s', [])
    | Some _ => (Exited 2, s, [])
    end
  else (Returned tt, s, []).
Fixpoint turns (es : list event) : Prog state unit :=
  match es with
  | [] => mret tt
  | e :: es => _ ← turn e; turns es
  end.
(** [go conn.produceLoop()] at the end of [Open]. *)
Definition start_producer (ref : nat) : Prog state unit :=
  update (fun s => mkLife (lf_scan s) (lf_prods s ++ [(ref, PStart)])%list (lf_recv s) (lf_shut s)).
Definition open (now : Z) (cfg : IOConnectionConfig) : Prog state (error + nat) :=
  r ← call (on_scan (Open SendCIPRequest peer_addr now cfg));
  match r with
  | inl err => mret (inl err)
  | inr ref => _ ← start_producer ref; mret (inr ref)
  end.
(** [Shutdown] up to its [wg.Wait()]. *)
Definition close_scanner : Prog state (option error) := fun s =>
  match Shutdown SendCIPRequest (lf_scan s) with
  | (Ok err, sc) => (Returned err, with_shut (with_scan s sc) (SWaiting err), [])
  | _ => (Crashed, s, [])
  end.
Definition wait_goroutines (err : option error) : Prog state unit := fun s =>
  if wg_zero s then (Returned tt, with_shut s (SReturned err), []) else (Waiting, s, []).
(** [Shutdown]; [others] are the turns the goroutines get while it waits. *)
Definition shutdown_scanner (others : list event) : Prog state unit :=
  err ← close_scanner;
  _ ← turns others;
  wait_goroutines err.

Definition show_parameters (f : Flags) : Prog state unit :=
  _ ← println "";
  _ ← println "Connection parameters:";
  _ ← printf "  O→T assembly:  instance %d, %d bytes\n" [AInt (otInstance f); AInt (otSize f)];
  _ ← printf "  T→O assembly:  instance %d, %d bytes\n" [AInt (toInstance f); AInt (toSize f)];
  _ ← (if 0 <? cfgInstance f then printf "  Config assembly: instance %d\n" [AInt (cfgInstance f)] else mret tt);
  _ ← printf "  RPI:           %s\n" [AInt (rpi f)];
  (** A negative shift count panics. *)
  if timeoutMult f <? 0 then eval Panic
  else printf "  Timeout mult:  %d (timeout = %s)\n"
         [AInt (timeoutMult f); AInt (i64 (rpi f * i64 (Z.shiftl 4 (timeoutMult f))))].
Definition read_identity : Prog state unit :=
  _ ← println "";
  r ← call (on_session (SendCIPRequest (mkMRReq Svc.GetAttributeAll (BuildPath 0x01 1 0) [])));
  match r with
  | inl err => printf "Warning: Identity read failed: %v\n" [AErr err]
  | inr resp =>
      if IsSuccess resp then printf "Identity object read OK (%d bytes)\n" [AInt (len (ResponseData resp))]
      else printf "Warning: Identity read status 0x%02X\n" [AInt (GeneralStatus resp)]
  end.

(** What the [select] of the display loop receives, with the turns of the scanner's
    goroutines before it and what the device has done. *)
Inductive input : Type :=
| Cancelled (others : list event)
| Tick (now : Z) (others : list event) (moved : Session P -> Session P).
(** The connection is an object the program shares with the scanner. *)
Definition show_tick (cycle now : Z) (ref : nat) : Prog state unit := fun s =>
  match heap (lf_scan s) !! ref with
  | None => (Crashed, s, [])
  | Some c =>
      printf "[%4d] T→O: % X  (age: %6s)%s\n"
        [AInt cycle; AHex (Input c); AInt (Z.quot (InputAge now c) 1000000 * 1000000);
         AText (if IsTimedOut now c then " [TIMED OUT]" else "")] s
  end.
Fixpoint display (maxCycles cycle : Z) (ref : nat) (inputs : list input) : Prog state unit :=
  match inputs with
  | [] => fun s => (Waiting, s, [])
  | Cancelled others :: _ => _ ← turns others; println "\nShutting down..."
  | Tick now others moved :: inputs =>
      _ ← turns others;
      _ ← update (fun s => with_scan s (with_session (moved (session (lf_scan s))) (lf_scan s)));
      let cycle := cycle + 1 in
      if (0 <? maxCycles) && (maxCycles <? cycle) then mret tt
      else _ ← show_tick cycle now ref; display maxCycles cycle ref inputs
  end.
Definition shutdown (ref : nat) (closing others : list event) : Prog state unit :=
  _ ← println "\n--- Shutting down ---";
  _ ← println "Sending Forward_Close...";
  r ← call (on_scan (Close SendCIPRequest ref));
  _ ← match r with
      | inl err => printf "Forward_Close: %v\n" [AErr err]
      | inr _ => println "Forward_Close succeeded."
      end;
  _ ← turns closing;
  _ ← shutdown_scanner others;
  println "Done.".

(** From Forward_Open to the end of [main]; [closing] and [others] are the turns of
    the goroutines while the program closes the connection and the scanner. *)
Definition cyclic (f : Flags) (targetUDP now : Z) (inputs : list input) (closing others : list event)
  : Prog state unit :=
  _ ← printf "\nSending Forward_Open...\n" [];
  let cfg := config f targetUDP in
  _ ← printf "  Connection path: % X\n" [AHex (connPath f)];
  r ← open now cfg;
  match r with
  | inl err =>
      _ ← eprintf "Forward_Open failed: %v\n" [AErr err];
      _ ← each 0 (fun _ => eprintln)
            ["\nCommon causes:"; "  - Wrong assembly instance numbers for this PLC"; "  - Wrong assembly sizes";
             "  - PLC not configured for I/O connections"; "  - Another scanner already owns this connection"];
      _ ← shutdown_scanner others;
      exit 1
  | inr ref =>
      _ ← printf "Forward_Open succeeded!\n" [];
      _ ← (fun s => match heap (lf_scan s) !! ref with
                    | None => (Crashed, s, [])
                    | Some c =>
                        (_ ← printf "  OT Connection ID: 0x%08X\n" [AInt (OTConnectionID c)];
                         _ ← printf "  TO Connection ID: 0x%08X\n" [AInt (TOConnectionID c)];
                         printf "  Actual RPI:       %s\n" [AInt (conn_RPI c)]) s
                    end);
      _ ← printf "\nCyclic I/O running. Displaying input assembly:\n" [];
      _ ← println "---";
      _ ← display (cycles f) 0 ref inputs;
      shutdown ref closing others
  end.

(** [NewIOScanner] with the default identity. *)
Definition new_scanner : SM state unit := fun s =>
  match listen_udp with
  | Ok _ => (Ok tt, new_life (session (lf_scan s)) 1 1)
  | Err e => (Err e, s)
  | Panic => (Panic, s)
  end.
Definition connected_session (f : Flags) (tcpAddr : bytes) (now : Z) (inputs : list input)
    (closing others : list event) : Prog state unit :=
  _ ← printf "TCP session registered.\n" [];
  _ ← show_parameters f;
  _ ← read_identity;
  let host := match SplitHostPort tcpAddr with Ok (h, _) => h | _ => [] end in
  match ResolveUDPAddr (host ++ [58] ++ itoa (udpPort f))%list with
  | Err err => _ ← eprintf "Resolve UDP addr: %v\n" [AErr err]; exit 1
  | Panic => eval Panic
  | Ok targetUDP =>
      r ← call new_scanner;
      match r with
      | inl err => _ ← eprintf "NewIOScanner: %v\n" [AErr err]; exit 1
      | inr _ => cyclic f targetUDP now inputs closing others
      end
  end.
Definition set_conn (x : Session P) (s : state) : state := with_scan s (with_session x (lf_scan s)).
Definition main (f : Flags) (addr : bytes) (now : Z) (inputs : list input) (closing others : list event) : Prog state unit :=
  if bool_decide (addr = []) then
    _ ← eprintln "Usage: go run . -addr <PLC_IP> [options]";
    _ ← eprintln "  Example: go run . -addr 192.168.1.20"; exit 1
  else
  _ ← printf "Connecting to %s...\n" [AStr addr];
  let tcpAddr := tcp_address addr in
  match dial tcpAddr with
  | Err err => _ ← eprintf "NewTCPConn: %v\n" [AErr err]; exit 1
  | Panic => eval Panic
  | Ok tc =>
      _ ← update (set_conn (NewSession tc));
      r ← call (on_session Register);
      match r with
      | inl err => _ ← eprintf "Register session: %v\n" [AErr err]; exit 1
      | inr _ =>
          deferred (fun s => let s := (on_session Unregister s).2 in
                             set_conn (mkSession (handle (session (lf_scan s))) (hang_up (conn (session (lf_scan s))))) s)
            (connected_session f tcpAddr now inputs closing others)
      end
  end.
End Program.
End ScannerTool.

(** ** The adapter's terminal output and its loop *)
Module AdapterTool.
Definition identity : ListIdentityItem :=
  mkIdentity ItemIDListIdentity 0 1 (replicate 16 0) 1 7 1 [1; 0] 0 0 (str "GoIndustrial Adapter") 0.
Definition preview (d : bytes) : arg :=
  if 16 <? len d then AFmt "% X..." [AHex (take 16 d)] else AFmt "% X" [AHex d].
Definition show_open (c : ConnMgr.Connection) (req : ConnMgr.ForwardOpenRequest) : Prog Adapter unit :=
  _ ← printf "\n[OPEN] Connection from scanner\n" [];
  _ ← printf "  OT Connection ID: 0x%08X\n" [AInt (ConnMgr.cn_OTConnectionID c)];
  _ ← printf "  TO Connection ID: 0x%08X\n" [AInt (ConnMgr.cn_TOConnectionID c)];
  _ ← printf "  RPI:              %s\n" [AInt (rpi_of req)];
  _ ← printf "  Serial:           0x%04X\n" [AInt (ConnMgr.cn_ConnectionSerialNumber c)];
  update (on_open c req).
Definition show_close (c : ConnMgr.Connection) : Prog Adapter unit :=
  _ ← printf "\n[CLOSE] Connection 0x%08X / 0x%08X\n"
        [AInt (ConnMgr.cn_OTConnectionID c); AInt (ConnMgr.cn_TOConnectionID c)];
  update (on_close c).

(** The data of a failed read is nil. *)
Definition data_of (i : Z) (w : Adapter) : outcome bytes :=
  match Assembly.GetAttributeSingle i 3 (ad_ao w) with Ok d => Ok d | Err _ => Ok [] | Panic => Panic end.
Definition display_tick : Prog Adapter unit := fun w =>
  if activeConns w =? 0 then (Returned tt, w, []) else
  (consumed ← eval (data_of 100 w);
   produced ← eval (data_of 101 w);
   printf "[cycle %5d] consume=%-40s produce=%s\n" [AInt (cycle w); preview consumed; preview produced]) w.

(** What the [select] of the loop receives, after what the other goroutines did. *)
Inductive input : Type := Interrupted (moved : Adapter -> Adapter) | AppTick (moved : Adapter -> Adapter)
  | DisplayTick (moved : Adapter -> Adapter).
Fixpoint loop (toSize : Z) (inputs : list input) : Prog Adapter unit :=
  match inputs with
  | [] => fun w => (Waiting, w, [])
  | Interrupted moved :: _ =>
      _ ← println "\nShutting down...";
      _ ← (fun w => printf "\nActive connections: %d\n" [AInt (activeConns (moved w))] (moved w));
      println "Done."
  | AppTick moved :: inputs =>
      _ ← (fun w => match app_tick toSize (moved w) with Ok w' => (Returned tt, w', []) | _ => (Crashed, moved w, []) end);
      loop toSize inputs
  | DisplayTick moved :: inputs =>
      _ ← (fun w => display_tick (moved w));
      loop toSize inputs
  end.

(** [main]; [start_udp] and [start_tcp] are what binding the sockets gives. *)
Definition main (start_udp start_tcp : outcome unit) (rt_addr tcpAddr : bytes) (otSize toSize now : Z)
  (inputs : list input) : Prog Adapter unit := fun w =>
  match new_adapter otSize toSize now with
  | Ok w0 =>
      (_ ← printf "Assembly instances:\n" [];
       _ ← printf "  Instance 100 (consume): %d bytes\n" [AInt otSize];
       _ ← printf "  Instance 101 (produce): %d bytes\n" [AInt toSize];
       match start_udp with
       | Err err => _ ← eprintf "UDP runtime start: %v\n" [AErr err]; exit 1
       | Panic => eval Panic
       | Ok _ =>
           _ ← printf "UDP runtime listening on %s\n" [AStr rt_addr];
           match start_tcp with
           | Err err => _ ← eprintf "TCP server start: %v\n" [AErr err]; exit 1
           | Panic => eval Panic
           | Ok _ =>
               _ ← printf "EIP server listening on %s\n" [AStr tcpAddr];
               _ ← println "";
               _ ← println "Waiting for scanner connections (Forward_Open)...";
               _ ← println "Press Ctrl+C to stop.";
               _ ← println "";
               loop toSize inputs
           end
       end) w0
  | _ => (Crashed, w, [])
  end.
End AdapterTool.

(** ** The scanner program against the adapter *)
Module ScannerToolOk.
Import ScannerTool.

(** The path the program builds is the one [Open] would build for it. *)
Lemma path_is_default f addr : 0 <= cfgInstance f < 65536 ->
  connPath f = connection_path
    (mkIOConfig (u16 (otInstance f)) (u16 (toInstance f)) (u16 (cfgInstance f)) (u16 (otSize f)) (u16 (toSize f))
       (rpi f) (u8 (timeoutMult f)) false (Some addr) None).
Proof.
  intros Hc. unfold connPath, connection_path. cbn [cfg_ConnectionPath ConfigInstance OTConnectionPoint TOConnectionPoint].
  rewrite (u16_small (cfgInstance f)) by (unfold is_u16; lia). by destruct (0 <? cfgInstance f).
Qed.
Lemma connPath_ok f : path_ok (connPath f).
Proof.
  unfold connPath, AddConnectionPoint, AddInstance, AddClass.
  set (i := if 0 <? cfgInstance f then _ else _).
  assert (exists n, i = ([] ++ logical_segment LogicalTypeClass ClassAssembly) ++ logical_segment LogicalTypeInstance n)%list
    as [n ->] by (unfold i; destruct (0 <? cfgInstance f); eauto).
  destruct (logical_segment_ok LogicalTypeClass ClassAssembly) as [H1 L1]; [done|].
  destruct (logical_segment_ok LogicalTypeInstance n) as [H2 L2]; [done|].
  destruct (logical_segment_ok LogicalTypePoint (u16 (otInstance f))) as [H3 L3]; [done|].
  destruct (logical_segment_ok LogicalTypePoint (u16 (toInstance f))) as [H4 L4]; [done|].
  split; [|rewrite !len_app; change (len (@nil Z)) with 0; split; [|lia]].
  - repeat apply Forall_app_2; done.
  - destruct L1 as [-> | ->], L2 as [-> | ->], L3 as [-> | ->], L4 as [-> | ->]; reflexivity.
Qed.
(** Whatever the flags, the configuration is one that Forward_Open can carry. *)
Lemma config_ok f addr : full_cfg_ok (config f addr).
Proof.
  split; [split; apply u16_range|]. split; [apply u8_range|]. apply connPath_ok.
Qed.

(** ** What a turn of a goroutine keeps

    The turns send no request over the session, so that the invariant of [ScanLife]
    carries over to them for every session. *)
Section Turns.
Context {P : Type} `{Wire P}.
Variable peer_addr : Session P -> option Z.
#[local] Abbreviation state := (@life (Session P)).

Record io_kept (s s' : state) : Prop := {
  ik_session : session (lf_scan s') = session (lf_scan s);
  ik_conns : scan_conns (lf_scan s') = scan_conns (lf_scan s);
  ik_done : done (lf_scan s') = done (lf_scan s);
  ik_shut : lf_shut s' = lf_shut s;
  ik_evolves : evolves (lf_scan s) (lf_scan s');
  ik_recv : lf_recv s' = true -> lf_recv s = true;
  ik_length : length (lf_prods s') = length (lf_prods s);
  ik_prods : forall i p', lf_prods s' !! i = Some p' -> exists p, lf_prods s !! i = Some p /\
               p'.1 = p.1 /\ (producer_weight p' <= producer_weight p)%nat
}.
#[local] Instance io_kept_preorder : PreOrder io_kept.
Proof.
  split.
  - intros s. split; try done. intros i p' Hp. exists p'. by split_and!.
  - intros a b c [H1 H2 H3 H4 H5 H6 H7 H8] [K1 K2 K3 K4 K5 K6 K7 K8]. split; try congruence; [by etrans|auto|].
    intros i p' Hp. destruct (K8 i p' Hp) as (p & Hp2 & E2 & W2). destruct (H8 i p Hp2) as (p0 & Hp0 & E0 & W0).
    exists p0. split_and!; [done|congruence|lia].
Qed.

Definition no_session (req : MessageRouterRequest) : SM (Session P) MessageRouterResponse := pure (Err EOF).
Lemma no_session_ok req x :
  match (no_session req x).1 with Ok resp => bytes_ok (ResponseData resp) | Err _ => True | Panic => False end.
Proof. done. Qed.
Lemma goroutine_no_session e s : goroutine e = true ->
  lstep SendCIPRequest peer_addr e s = lstep no_session peer_addr e s.
Proof. by destruct e. Qed.

Lemma packet_session now data (sc sc' : IOScanner (Session P)) :
  handleIncomingPacket now data sc = Ok sc' -> session sc' = session sc.
Proof.
  intros E. unfold handleIncomingPacket, mbind, outcome_bind in E.
  repeat (case_match; try done); by simplify_eq.
Qed.
Lemma with_prod_kept (s : state) i ref pc pc' :
  lf_prods s !! i = Some (ref, pc) -> (producer_weight (ref, pc') <= producer_weight (ref, pc))%nat ->
  io_kept s (with_prod s i ref pc').
Proof.
  intros Hi Hw. split; try done; cbn; [by rewrite length_insert|]. intros j p' Hp.
  destruct (decide (j = i)) as [->|Hne].
  - rewrite list_lookup_insert_eq in Hp by (by eapply lookup_lt_Some). injection Hp as <-. by exists (ref, pc).
  - rewrite list_lookup_insert_ne in Hp by done. by exists p'.
Qed.
Lemma scan_kept (s : state) sc :
  session sc = session (lf_scan s) -> scan_conns sc = scan_conns (lf_scan s) -> done sc = done (lf_scan s) ->
  evolves (lf_scan s) sc -> io_kept s (with_scan s sc).
Proof. intros. split; try done. intros i p' Hp. by exists p'. Qed.

Lemma lstep_kept e s s' : goroutine e = true -> event_ok e -> linv True s ->
  lstep no_session peer_addr e s = Some (Ok s') -> io_kept s s'.
Proof.
  intros Hg He [I1 I2 _ _ _] E. destruct e as [| | |now data| |i| |i|i| | | |]; try done; cbn [lstep] in E.
  - destruct (lf_recv s && _); [|done].
    destruct (packet_scan_ok now data (lf_scan s) I1 He) as (sc & E1 & H1 & H2 & H3).
    rewrite E1 in E. injection E as <-. destruct (packet_life True _ _ _ _ E1 I2) as [_ Hd].
    apply scan_kept; [by eapply packet_session|done|done|done].
  - destruct (lf_recv s); [|done]. injection E as <-. split; try done. intros i p' Hp. by exists p'.
  - destruct (lf_prods s !! i) as [[ref [| |]]|]; try done.
    destruct (on_conn _ ref _) as [[a sc]|] eqn:Eo; [|done]. injection E as <-.
    destruct (step_ok no_session peer_addr no_session_ok (lf_scan s) sc I1) as [_ H2]; [by eapply step_tick|].
    unfold on_conn in Eo. destruct (heap _ !! ref) as [c|]; [|done]. destruct (sendPacket c). injection Eo as _ <-.
    by apply scan_kept.
  - destruct (lf_prods s !! i) as [[ref [| |]]|] eqn:Ei; try done. destruct (heap _ !! ref) as [c|]; [|done].
    destruct (new_ticker c); try done; injection E as <-; (eapply with_prod_kept; [exact Ei|cbn; lia]).
  - destruct (lf_prods s !! i) as [[ref [| |]]|] eqn:Ei; try done. destruct (heap _ !! ref) as [c|]; [|done].
    destruct (stopped c || _); [|done]. injection E as <-. eapply with_prod_kept; [exact Ei|cbn; lia].
  - destruct (lf_recv s && _) eqn:Er; [|done]. injection E as <-. split; try done. intros i p' Hp. by exists p'.
Qed.

(** What a turn achieves: a producer leaves its start, a producer in its [select]
    and the receiver end once the scanner is closed. *)
Definition settled (e : event) (s s' : state) : Prop :=
  match e with
  | EStart i => forall p', lf_prods s' !! i = Some p' -> (producer_weight p' <= 1)%nat
  | EStop i => done (lf_scan s) = true -> forall p', lf_prods s' !! i = Some p' -> producer_weight p' <> 1%nat
  | ERecvExit => done (lf_scan s) = true -> lf_recv s' = false
  | _ => True
  end.
Lemma insert_weight (s : state) i ref pc pc' p' :
  lf_prods s !! i = Some (ref, pc) -> lf_prods (with_prod s i ref pc') !! i = Some p' -> p' = (ref, pc').
Proof. intros Hi. cbn. rewrite list_lookup_insert_eq by (by eapply lookup_lt_Some). congruence. Qed.
Lemma lstep_settled e s : linv True s ->
  match lstep no_session peer_addr e s with
  | Some (Ok s') => settled e s s'
  | None => settled e s s
  | _ => True
  end.
Proof.
  intros [_ _ I3 _ _]. destruct (lstep no_session peer_addr e s) as [[s'| |]|] eqn:E; try done;
    destruct e as [| | |now data| |i| |i|i| | | |]; try done; cbn [lstep settled] in *.
  - destruct (lf_prods s !! i) as [[ref [| |]]|] eqn:Ei; try done. destruct (heap _ !! ref) as [c|]; [|done].
    destruct (new_ticker c); try done; injection E as <-; intros p' ->%(insert_weight _ _ _ _ _ _ Ei); cbn; lia.
  - destruct (lf_prods s !! i) as [[ref [| |]]|] eqn:Ei; try done. destruct (heap _ !! ref) as [c|]; [|done].
    destruct (stopped c || _); [|done]. injection E as <-. by intros _ p' ->%(insert_weight _ _ _ _ _ _ Ei).
  - destruct (lf_recv s && _); [|done]. by injection E as <-.
  - intros [ref pc] Hp. destruct (Forall_lookup_1 _ _ _ _ I3 Hp) as [c Hc]. rewrite Hp in E.
    destruct pc; cbn; try lia. cbn in Hc. rewrite Hc in E. by destruct (new_ticker c).
  - intros Hd [ref pc] Hp. destruct (Forall_lookup_1 _ _ _ _ I3 Hp) as [c Hc]. rewrite Hp in E.
    destruct pc; try done. cbn in Hc. by rewrite Hc, Hd, orb_true_r in E.
  - intros Hd. rewrite Hd in E. by destruct (lf_recv s).
Qed.

(** A turn does not bring the program down when every interval is positive. *)
Lemma turn_wp e s : goroutine e = true -> event_ok e -> linv True s ->
  wp (turn peer_addr e) s (fun _ s' _ => linv True s' /\ io_kept s s' /\ settled e s s').
Proof.
  intros Hg He I. unfold wp, turn. rewrite Hg, (goroutine_no_session e s Hg).
  pose proof (lstep_settled e s I) as Hs. destruct (lstep no_session peer_addr e s) as [r|] eqn:E; [|done].
  assert (True -> positive_rpi e) as Hp by (by destruct e).
  pose proof (lstep_linv no_session peer_addr no_session_ok True e s r I He Hp E) as H1.
  destruct r as [s'|e1|]; [|done|].
  - split_and!; [done|by eapply lstep_kept|done].
  - destruct H1 as [[ref ->]|[H1 _]]; [done|]. by destruct H1.
Qed.
Definition turns_ok (es : list event) : Prop := Forall (fun e => goroutine e = true /\ event_ok e) es.
Lemma turns_wp es : turns_ok es -> forall s, linv True s ->
  wp (turns peer_addr es) s (fun _ s' _ => linv True s' /\ io_kept s s').
Proof.
  induction 1 as [|e es [Hg He] _ IH]; intros s I; cbn [turns]; [by apply wp_ret|].
  apply wp_bind. eapply wp_conseq; [by apply turn_wp|]. intros [] s1 out (I1 & K1 & _).
  eapply wp_conseq; [by apply IH|]. intros [] s2 out' (I2 & K2). split; [done|by etrans].
Qed.
Lemma turns_app_wp es1 es2 s Q :
  wp (turns peer_addr es1) s (fun _ s' _ => wp (turns peer_addr es2) s' (fun _ s'' _ => Q s'')) ->
  wp (turns peer_addr (es1 ++ es2)) s (fun _ s' _ => Q s').
Proof.
  revert s. induction es1 as [|e es1 IH]; intros s H1; [exact H1|]. cbn [turns app] in *. unfold wp, mbind, Prog_bind in *.
  destruct (turn peer_addr e s) as [[[[]| | |] s1] out]; try done. specialize (IH s1).
  destruct (turns peer_addr es1 s1) as [[[[]| | |] s2] out2]; try done. specialize (IH H1).
  by destruct (turns peer_addr (es1 ++ es2)%list s1) as [[[[]| | |] s3] out3].
Qed.
(** One turn somewhere in the list. *)
Lemma turns_at_wp es1 e es2 s : turns_ok (es1 ++ e :: es2) -> linv True s ->
  wp (turns peer_addr (es1 ++ e :: es2)) s (fun _ s' _ => exists s1 s2,
    linv True s1 /\ io_kept s s1 /\ linv True s2 /\ io_kept s1 s2 /\ settled e s1 s2 /\ linv True s' /\ io_kept s2 s').
Proof.
  intros [H1 [[Hg He] H2]%Forall_cons]%Forall_app I. apply turns_app_wp.
  eapply wp_conseq; [by apply turns_wp|]. intros [] s1 _ (I1 & K1). cbn [turns]. apply wp_bind.
  eapply wp_conseq; [by apply turn_wp|]. intros [] s2 _ (I2 & K2 & Hs).
  eapply wp_conseq; [by apply turns_wp|]. intros [] s3 _ (I3 & K3). by exists s1, s2.
Qed.
Lemma wp_and {A} (m : Prog state A) s (Q R : A -> state -> list line -> Prop) :
  wp m s Q -> wp m s R -> wp m s (fun a s' out => Q a s' out /\ R a s' out).
Proof. unfold wp. by destruct (m s) as [[[] ?] ?]. Qed.

(** Every goroutine gets its turns: a producer two, the receiver one. *)
Definition fair (n : nat) (es : list event) : Prop :=
  (forall i, (i < n)%nat -> [EStart i; EStop i] `sublist_of` es) /\ ERecvExit ∈ es.
Lemma producer_ends es i s : turns_ok es -> linv True s -> done (lf_scan s) = true ->
  [EStart i; EStop i] `sublist_of` es ->
  wp (turns peer_addr es) s (fun _ s' _ => forall p, lf_prods s' !! i = Some p -> gone p = true).
Proof.
  intros Hes I Hd (es1 & es2 & -> & (es3 & es4 & -> & _)%sublist_cons_l)%sublist_cons_l.
  change (EStart i :: es3 ++ EStop i :: es4)%list with ((EStart i :: es3) ++ EStop i :: es4)%list in *.
  rewrite app_assoc in *. apply Forall_app in Hes as [Ha Hb]. apply turns_app_wp.
  eapply wp_conseq; [by apply turns_at_wp|]. intros [] t1 _ (a & b & Ia & Ka & Ib & Kb & Hs & I1 & K1).
  eapply wp_conseq; [by apply (turns_at_wp [])|]. intros [] t2 _ (c & d & Ic & Kc & Id & Kd & Hs2 & I2 & K2).
  intros p Hp. destruct (ik_prods _ _ K2 i p Hp) as (p1 & Hp1 & _ & W1). destruct (ik_prods _ _ Kd i p1 Hp1) as (p2 & Hp2 & _ & W2).
  destruct (ik_prods _ _ Kc i p2 Hp2) as (p3 & Hp3 & _ & W3). destruct (ik_prods _ _ K1 i p3 Hp3) as (p4 & Hp4 & _ & W4).
  specialize (Hs p4 Hp4). assert (done (lf_scan c) = true) as Hdc.
  { by rewrite (ik_done _ _ Kc), (ik_done _ _ K1), (ik_done _ _ Kb), (ik_done _ _ Ka). }
  specialize (Hs2 Hdc p1 Hp1). unfold gone, producer_weight in *. destruct (p.2), (p1.2); done || lia.
Qed.
Lemma receiver_ends es s : turns_ok es -> linv True s -> done (lf_scan s) = true -> ERecvExit ∈ es ->
  wp (turns peer_addr es) s (fun _ s' _ => lf_recv s' = false).
Proof.
  intros Hes I Hd (es1 & es2 & ->)%list_elem_of_split. eapply wp_conseq; [by apply turns_at_wp|].
  intros [] s' _ (a & b & Ia & Ka & Ib & Kb & Hs & I1 & K1).
  assert (lf_recv b = false) as Hb by (apply Hs; by rewrite (ik_done _ _ Ka)).
  destruct (lf_recv s') eqn:Er; [|done]. rewrite (ik_recv _ _ K1 Er) in Hb. done.
Qed.
Lemma fair_ends es s : turns_ok es -> linv True s -> done (lf_scan s) = true -> fair (length (lf_prods s)) es ->
  wp (turns peer_addr es) s (fun _ s' _ => linv True s' /\ io_kept s s' /\ wg_zero s' = true).
Proof.
  intros Hes I Hd [Hf Hr]. pose proof (wp_and _ _ _ _ (turns_wp es Hes s I) (receiver_ends es s Hes I Hd Hr)) as Hw.
  assert (forall i, (i < length (lf_prods s))%nat ->
    wp (turns peer_addr es) s (fun _ s' _ => forall p, lf_prods s' !! i = Some p -> gone p = true)) as Hp
    by (intros i Hi; apply producer_ends; auto).
  unfold wp in *. destruct (turns peer_addr es s) as [[[[]| | |] s'] out]; try done. destruct Hw as [[I' K] Hrecv].
  split_and!; [done|done|]. unfold wg_zero. rewrite Hrecv, andb_true_r. apply forallb_forall.
  intros p [i Hi]%list_elem_of_In%list_elem_of_lookup. apply (Hp i); [|done]. rewrite <- (ik_length _ _ K).
  by eapply lookup_lt_Some.
Qed.
(** [Shutdown] returns. *)
Lemma shutdown_scanner_wp es s err sc Q :
  Shutdown SendCIPRequest (lf_scan s) = (Ok err, sc) -> linv True (with_shut (with_scan s sc) (SWaiting err)) ->
  turns_ok es -> fair (length (lf_prods s)) es ->
  (forall s' out, io_kept (with_shut (with_scan s sc) (SWaiting err)) s' -> wg_zero s' = true -> Q tt (with_shut s' (SReturned err)) out) ->
  wp (shutdown_scanner peer_addr es) s Q.
Proof.
  intros E I Hes Hf HQ. unfold shutdown_scanner. apply wp_bind. unfold wp at 1, close_scanner. rewrite E. cbv beta iota.
  apply wp_bind. eapply wp_conseq; [apply (fair_ends es _ Hes I)|].
  - by rewrite (li_done _ _ I).
  - done.
  - intros [] s' out (_ & K & Hz). unfold wp, wait_goroutines. rewrite Hz. by apply HQ.
Qed.
End Turns.
Section Device.
Variable identity : ListIdentityItem.
#[local] Instance device_wire : Wire (Served Adapter) := Served_Wire adapter_router identity.
Variable peer_addr : Session (Served Adapter) -> option Z.
Variables ot to : Z.
Hypothesis Hot : 0 <= ot <= 60000.
Hypothesis Hto : 0 <= to <= 60000.
#[local] Abbreviation connected := (connected ot to).
#[local] Abbreviation state := (@life (Session (Served Adapter))).

(** What the device does meanwhile: its connection manager gets no other requests. *)
Definition device_moved (moved : Session (Served Adapter) -> Session (Served Adapter)) : Prop :=
  forall sc : plant, connected sc ->
    connected (with_session (moved (session sc)) sc) /\
    ad_cm (device (with_session (moved (session sc)) sc)) = ad_cm (device sc).
Definition io_input (i : input (P := Served Adapter)) : Prop :=
  match i with
  | Cancelled others => turns_ok others
  | Tick _ others moved => turns_ok others /\ device_moved moved
  end.
Definition cancelled (i : input (P := Served Adapter)) : Prop :=
  match i with Cancelled _ => True | _ => False end.

(** What the goroutines and the device do between two ticks: data arrives and is
    sent, the table and the connections' identities stay. *)
Record io_moved (s s' : state) : Prop := {
  im_connected : connected (lf_scan s');
  im_manager : ad_cm (device (lf_scan s')) = ad_cm (device (lf_scan s));
  im_conns : scan_conns (lf_scan s') = scan_conns (lf_scan s);
  im_done : done (lf_scan s') = done (lf_scan s);
  im_shut : lf_shut s' = lf_shut s;
  im_evolves : evolves (lf_scan s) (lf_scan s');
  im_length : length (lf_prods s') = length (lf_prods s)
}.
#[local] Instance io_moved_trans : Transitive io_moved.
Proof. intros a b c [H1 H2 H3 H4 H5 H6 H7] [K1 K2 K3 K4 K5 K6 K7]. split; try congruence. by etrans. Qed.
Lemma kept_moved (s s' : state) : connected (lf_scan s) -> io_kept s s' -> io_moved s s'.
Proof.
  intros Hc [K1 K2 K3 K4 K5 K6 K7 K8]. split; try done.
  - unfold Adapter.connected in *. by rewrite K1.
  - unfold device. by rewrite K1.
Qed.
Lemma session_linv (s : state) x : linv True s -> linv True (with_scan s (with_session x (lf_scan s))).
Proof. intros [I1 I2 I3 I4 I5]. split; try done. by apply with_session_ok. Qed.

Lemma show_tick_wp cycle now ref (s : state) c Q :
  heap (lf_scan s) !! ref = Some c -> (forall out, Q tt s out) -> wp (show_tick cycle now ref) s Q.
Proof. intros Hc HQ. unfold wp, show_tick. rewrite Hc. apply HQ. Qed.

(** The display returns when it is cancelled, and nothing but data has changed. *)
Lemma display_wp n ref inputs : Exists cancelled inputs -> Forall io_input inputs ->
  forall cycle s, linv True s -> connected (lf_scan s) -> is_Some (heap (lf_scan s) !! ref) ->
  wp (display peer_addr n cycle ref inputs) s (fun _ s' _ => linv True s' /\ io_moved s s').
Proof.
  induction inputs as [|i inputs IH]; [intros H; by apply Exists_nil in H|].
  intros Hin [Hi Hrest]%Forall_cons cycle s I Hc Hs. destruct i as [others|now others moved]; cbn [display].
  { apply wp_bind. eapply wp_conseq; [by apply turns_wp|]. intros [] s1 _ (I1 & K1). apply wp_emit.
    split; [done|by apply kept_moved]. }
  apply Exists_cons in Hin as [[]|Hin]. destruct Hi as [Hi Hm].
  apply wp_bind. eapply wp_conseq; [by apply turns_wp|]. intros [] s1 _ (I1 & K1%kept_moved); [|done].
  apply wp_bind. unfold wp at 1, update. destruct (Hm (lf_scan s1) (im_connected _ _ K1)) as [Hc2 Hcm].
  set (s2 := with_scan s1 _). assert (linv True s2) as I2 by (by apply session_linv).
  assert (io_moved s1 s2) as K2 by (split; try done; by apply with_session_ok, I1).
  assert (io_moved s s2) as K by (by etrans). destruct (_ && _); [by split|].
  destruct Hs as [c Hs]. destruct (im_evolves _ _ K ref c Hs) as (c' & Hc' & _). apply wp_bind.
  apply (show_tick_wp _ _ _ _ c'); [done|]. intros out. eapply wp_conseq; [apply (IH Hin Hrest); [done|exact (im_connected _ _ K)|by exists c']|].
  intros [] s' _ [I' K']. split; [done|by etrans].
Qed.

(** Neither [Open] nor [Close] ends the scanner. *)
Definition keeps_done {A} (m : SM plant A) : Prop := forall s, done (m s).2 = done s.
Lemma keeps_bind {A B} (m : SM plant A) (k : A -> SM plant B) :
  keeps_done m -> (forall a, keeps_done (k a)) -> keeps_done (m ≫= k).
Proof.
  intros Hm Hk s. specialize (Hm s). unfold mbind, SM_bind in *. destruct (m s) as [[a| |] s']; cbn in *; [|done|done].
  by rewrite Hk.
Qed.
Lemma keeps_pure {A} (r : outcome A) : keeps_done (pure r).
Proof. done. Qed.
Lemma keeps_send fmt req : keeps_done (wrap_err fmt (cip_send SendCIPRequest req)).
Proof. intros s. unfold wrap_err, cip_send. by destruct (SendCIPRequest req (session s)) as [[] ?]. Qed.
Lemma Open_done now cfg : keeps_done (Open SendCIPRequest peer_addr now cfg).
Proof.
  unfold Open. repeat (apply keeps_bind; [|intros []]); try done; try apply keeps_send; try apply keeps_pure.
  intros s. unfold target_addr. by repeat case_match.
Qed.
Lemma Close_done ref : keeps_done (Close SendCIPRequest ref).
Proof.
  intros s. unfold Close. destruct (heap s !! ref) as [c|]; [|done].
  match goal with |- done (?m ?s1).2 = _ => assert (keeps_done m) as H end.
  { apply keeps_bind; [apply keeps_send|]. intros r. by destruct (negb _). }
  by rewrite H.
Qed.

Lemma wp_on_scan {A} (m : SM plant A) (s : state) a sc Q :
  m (lf_scan s) = (Ok a, sc) -> Q (inr a) (with_scan s sc) [] -> wp (call (on_scan m)) s Q.
Proof. intros E HQ. eapply wp_call; [|exact HQ]. unfold on_scan. by rewrite E. Qed.

(** The scanner's invariant after a connection is entered, and after one is taken out. *)
Lemma entered_linv (s : state) (sc : plant) id c : linv True s -> conn_ok c -> TOConnectionID c = id -> stopped c = false ->
  0 < conn_RPI c -> heap sc = <[new_conn_ref (heap (lf_scan s)) := c]> (heap (lf_scan s)) ->
  scan_conns sc = <[id := new_conn_ref (heap (lf_scan s))]> (scan_conns (lf_scan s)) -> done sc = done (lf_scan s) ->
  linv True (mkLife sc (lf_prods s ++ [(new_conn_ref (heap (lf_scan s)), PStart)])%list (lf_recv s) (lf_shut s)).
Proof.
  intros [[Hh Ht] I2 I3 I4 I5] Hok Hid Hst Hr Eh Et Ed. set (ref := new_conn_ref (heap (lf_scan s))) in *.
  assert (heap (lf_scan s) !! ref = None) as Hnew by apply new_conn_ref_fresh.
  assert (forall r, is_Some (heap (lf_scan s) !! r) -> is_Some (heap sc !! r)) as Hsome.
  { intros r Hs. rewrite Eh, lookup_insert. case_decide; [by eauto|done]. }
  split; cbn [lf_scan lf_prods lf_shut].
  - split.
    + intros r c'. rewrite Eh, lookup_insert. case_decide; [by intros [= <-]|apply Hh].
    + intros i r. rewrite Et, Eh, lookup_insert. case_decide.
      * intros [= <-]. exists c. by rewrite lookup_insert_eq; subst.
      * intros Hi. destruct (Ht i r Hi) as (c' & Hc' & Hrest). exists c'. by rewrite lookup_insert_ne by congruence.
  - intros _ r c'. rewrite Eh, lookup_insert. case_decide; [by intros [= <-]|by apply I2].
  - apply Forall_app. split; [eapply Forall_impl; [exact I3|]; intros p; apply Hsome|]. apply Forall_singleton. cbn. rewrite Eh, lookup_insert_eq. eauto.
  - destruct (lf_shut s); try done. by eapply Forall_impl; [exact I4|].
  - by rewrite Ed.
Qed.
Lemma taken_linv (s : state) (sc : plant) ref c : linv True s -> heap (lf_scan s) !! ref = Some c ->
  heap sc = <[ref := set_stopped c]> (heap (lf_scan s)) -> scan_conns sc = ∅ -> done sc = done (lf_scan s) ->
  linv True (with_scan s sc).
Proof.
  intros [[Hh Ht] I2 I3 I4 I5] Hc Eh Et Ed.
  assert (forall r, is_Some (heap (lf_scan s) !! r) -> is_Some (heap sc !! r)) as Hsome.
  { intros r Hs. rewrite Eh, lookup_insert. case_decide; [by eauto|done]. }
  split; cbn [lf_scan lf_prods lf_shut with_scan].
  - split; [|intros i r; rewrite Et; by rewrite lookup_empty].
    intros r c'. rewrite Eh, lookup_insert. case_decide; [intros [= <-]; apply (Hh ref c Hc)|apply Hh].
  - intros _ r c'. rewrite Eh, lookup_insert. case_decide; [intros [= <-]; by apply (I2 Logic.I ref c)|by apply I2].
  - eapply Forall_impl; [exact I3|]. intros p. apply Hsome.
  - destruct (lf_shut s); try done. by eapply Forall_impl; [exact I4|].
  - by rewrite Ed.
Qed.
Lemma done_linv (s : state) (sc : plant) err : linv True s -> heap sc = heap (lf_scan s) -> scan_conns sc = scan_conns (lf_scan s) ->
  done sc = true -> linv True (with_shut (with_scan s sc) (SWaiting err)).
Proof.
  intros [[Hh Ht] I2 I3 I4 I5] Eh Et Ed. split; cbn [lf_scan lf_prods lf_shut with_scan with_shut]; try done.
  - split; [by rewrite Eh|by rewrite Et, Eh].
  - unfold rpi_ok. by rewrite Eh.
  - by rewrite Eh.
Qed.

(** [Open] of the program: the connection is entered at both ends and its producer
    is started. *)
Lemma open_wp f target now (s : state) :
  can_open ot to (lf_scan s) -> linv True s -> 0 < rpi f ->
  wp (open peer_addr now (config f target)) s (fun r s1 _ => exists ref c, r = inr ref /\
    linv True s1 /\ connected (lf_scan s1) /\ heap (lf_scan s1) !! ref = Some c /\
    (TOConnectionID c = next_toid (lf_scan s) /\ ConnMgr.triad (next_conn (lf_scan s)) =
       (ConnectionSerialNumber c, io_VendorID c, io_OriginatorSerialNumber c)) /\
    is_u16 (ConnectionSerialNumber c) /\
    scan_conns (lf_scan s1) = <[next_toid (lf_scan s) := ref]> (scan_conns (lf_scan s)) /\
    ad_cm (device (lf_scan s1)) =
      mgr_with (next_conn (lf_scan s)) (next_request (config f target) (lf_scan s)) (ad_cm (device (lf_scan s))) /\
    lf_shut s1 = lf_shut s /\ length (lf_prods s1) = S (length (lf_prods s))).
Proof.
  intros Hcan I Hr.
  destruct (scanner_open identity peer_addr ot to Hot Hto now (config f target) target (lf_scan s) Hcan
    (config_ok f target) eq_refl) as (s1 & Eo & Hh & Ht & Hc1 & Hd1).
  change (plant_wire identity) with device_wire in Eo.
  pose proof (Open_done now (config f target) (lf_scan s)) as Hdone1. rewrite Eo in Hdone1. cbn [snd] in Hdone1.
  set (ref := new_conn_ref (heap (lf_scan s))) in *. set (c := mkIOConn _ _ _ _ _ _ _ _ _ _ _ _ _ _) in *.
  assert (conn_ok c) as Hok.
  { unfold conn_ok, c. cbn. rewrite !len_replicate. pose proof (u16_range (otSize f)). pose proof (u16_range (toSize f)).
    unfold next_otid, next_toid, next_serial. widths. repeat split; dlia. }
  assert (0 < conn_RPI c) as Hpos.
  { cbn. pose proof (u32_range (Z.quot (rpi f) 1000)). destruct (Z.eqb_spec (u32 (Z.quot (rpi f) 1000) * 1000) 0); [done|widths; lia]. }
  unfold open. apply wp_bind. eapply wp_on_scan; [exact Eo|]. cbv beta iota. apply wp_bind.
  unfold wp at 1, start_producer, update. cbv beta iota. apply wp_ret. exists ref, c. split_and!; try done.
  - by apply (entered_linv s s1 (next_toid (lf_scan s)) c).
  - cbn. rewrite Hh. apply lookup_insert_eq.
  - apply u16_range.
  - cbn. by rewrite Hd1.
  - cbn. rewrite length_app. cbn. lia.
Qed.

(** Nothing is left to close. *)
Lemma shutdown_empty (s : plant) : scan_conns s = ∅ -> done s = false ->
  exists s', Shutdown SendCIPRequest s = (Ok None, s') /\ session s' = session s /\ heap s' = heap s /\
    scan_conns s' = scan_conns s /\ done s' = true.
Proof. intros Hs Hd. unfold Shutdown. rewrite Hs, map_to_list_empty. cbn. rewrite Hd. by eexists. Qed.

(** The end of the program: the connection is closed on the device, then the scanner. *)
Lemma shutdown_wp ref c conn closing others (s : state) :
  linv True s -> connected (lf_scan s) -> ConnMgr.inv (ad_cm (device (lf_scan s))) ->
  heap (lf_scan s) !! ref = Some c -> lf_shut s = SIdle ->
  scan_conns (lf_scan s) = {[TOConnectionID c := ref]} ->
  ConnMgr.connections (ad_cm (device (lf_scan s))) !! ConnMgr.cn_TOConnectionID conn = Some conn ->
  ConnMgr.triad conn = (ConnectionSerialNumber c, io_VendorID c, io_OriginatorSerialNumber c) ->
  is_u16 (ConnectionSerialNumber c) /\ is_u16 (io_VendorID c) /\ is_u32 (io_OriginatorSerialNumber c) ->
  turns_ok closing -> turns_ok others -> fair (length (lf_prods s)) others ->
  wp (shutdown peer_addr ref closing others) s (fun _ s' out =>
    lf_shut s' = SReturned None /\ wg_zero s' = true /\ scan_conns (lf_scan s') = ∅ /\ done (lf_scan s') = true /\
    ConnMgr.connections (ad_cm (device (lf_scan s'))) =
      delete (ConnMgr.cn_TOConnectionID conn) (ConnMgr.connections (ad_cm (device (lf_scan s)))) /\
    io_conns (ad_rt (device (lf_scan s'))) =
      delete (ConnMgr.cn_TOConnectionID conn)
        (delete (ConnMgr.cn_OTConnectionID conn) (io_conns (ad_rt (device (lf_scan s))))) /\
    Printedln Stdout "Forward_Close succeeded." ∈ out).
Proof.
  intros I Hc Hm Hh Hs Ht Hk Etr (R1 & R2 & R3) Hcl Ho Hf.
  destruct (scanner_close identity ot to Hot Hto (lf_scan s) ref c conn Hc Hm Hh Hk Etr R1 R2 R3)
    as (s3 & Ec & Hc3 & Hh3 & Ht3 & Hk3 & Hi3 & _).
  change (plant_wire identity) with device_wire in Ec.
  pose proof (Close_done ref (lf_scan s)) as Hd3. rewrite Ec in Hd3. cbn [snd] in Hd3.
  assert (scan_conns s3 = ∅) as He by (by rewrite Ht3, Ht, delete_singleton_eq).
  pose proof (taken_linv s s3 ref c I Hh Hh3 He Hd3) as I3.
  unfold shutdown. do 2 (apply wp_bind, wp_emit). apply wp_bind. eapply wp_on_scan; [exact Ec|].
  apply wp_bind, wp_emit, wp_bind. eapply wp_conseq; [by apply turns_wp|]. intros [] s4 out4 (I4 & K4).
  assert (done (lf_scan s4) = false) as Hd4.
  { rewrite (ik_done _ _ K4). cbn. by rewrite Hd3, (li_done _ _ I), Hs. }
  destruct (shutdown_empty (lf_scan s4)) as (s5 & Es & Esess & Eh5 & Et5 & Hd5); [by rewrite (ik_conns _ _ K4)|done|].
  apply wp_bind. eapply shutdown_scanner_wp; [exact Es|by apply done_linv|exact Ho| |].
  { by rewrite (ik_length _ _ K4). }
  intros s6 out6 K6 Hz. apply wp_emit.
  assert (session (lf_scan s6) = session s3) as Esn.
  { rewrite (ik_session _ _ K6). cbn. by rewrite Esess, (ik_session _ _ K4). }
  assert (device (lf_scan (with_shut s6 (SReturned None))) = device s3) as -> by (unfold device; cbn; by rewrite Esn).
  split_and!; try done.
  - cbn. by rewrite (ik_conns _ _ K6); cbn; rewrite Et5, (ik_conns _ _ K4).
  - cbn. by rewrite (ik_done _ _ K6).
  - cbn [app]. do 2 apply list_elem_of_further. apply list_elem_of_here.
Qed.

(** C28: The program on the adapter, from Forward_Open to its end.  Its requested
    interval is positive; its other flags are arbitrary.  For a scanner that has no
    connections and whose next triad is new to the device, and whatever its
    goroutines and the cyclic data do meanwhile (nobody else asks anything of the
    device's connection manager), once the program is cancelled and the
    goroutines have had their turns it returns, and none of them has crashed it: it
    has announced that Forward_Open succeeded and that Forward_Close succeeded, the
    scanner is shut down without connections and all its goroutines have ended, the
    device's connection manager has the connections it had before, and its runtime
    neither consumes nor produces under the identifiers of the connection. *)
Theorem scanner_program_on_adapter f target now inputs closing others (s : state) :
  0 < rpi f -> linv True s -> lf_shut s = SIdle ->
  can_open ot to (lf_scan s) -> scan_conns (lf_scan s) = ∅ ->
  Exists cancelled inputs -> Forall io_input inputs ->
  turns_ok closing -> turns_ok others -> fair (S (length (lf_prods s))) others ->
  wp (cyclic peer_addr f target now inputs closing others) s (fun _ s' out =>
    lf_shut s' = SReturned None /\ wg_zero s' = true /\ scan_conns (lf_scan s') = ∅ /\ done (lf_scan s') = true /\
    ConnMgr.connections (ad_cm (device (lf_scan s'))) = ConnMgr.connections (ad_cm (device (lf_scan s))) /\
    io_conns (ad_rt (device (lf_scan s'))) !! next_otid (lf_scan s) = None /\
    io_conns (ad_rt (device (lf_scan s'))) !! next_toid (lf_scan s) = None /\
    Printed Stdout "Forward_Open succeeded!\n" [] ∈ out /\ Printedln Stdout "Forward_Close succeeded." ∈ out).
Proof.
  intros Hrpi I Hs Hcan Hempty Hcancel Hin Hcl Ho Hf.
  destruct (mgr_with_inv ot to (config f target) (lf_scan s) Hcan) as [I1 Hfree].
  pose proof Hcan as (_ & Hv & Hor & _).
  unfold cyclic. do 2 (apply wp_bind, wp_emit). apply wp_bind.
  eapply wp_conseq; [by apply (open_wp f target now s)|].
  intros r s1 out1 (ref & c & -> & Is1 & Hc1 & Hh1 & (Hid & Etr) & Hser & Ht1 & Ecm & Hs1 & Hl1).
  apply wp_bind, wp_emit, wp_bind. unfold wp at 1. rewrite Hh1. cbn [mbind Prog_bind printf emit].
  do 2 (apply wp_bind, wp_emit). apply wp_bind.
  eapply wp_conseq; [apply (display_wp (cycles f) ref inputs Hcancel Hin 0 s1 Is1 Hc1); by exists c|].
  intros [] s2 shown (Is2 & [M1 M2 M3 M4 M5 M6 M7]). destruct (M6 ref c Hh1) as (c2 & Hc2 & S1 & S2 & S3 & S4 & S5 & _).
  eapply wp_conseq.
  - apply (shutdown_wp ref c2 (next_conn (lf_scan s)) closing others s2); try done.
    + by rewrite M2, Ecm.
    + congruence.
    + by rewrite M3, Ht1, Hempty, S2, Hid.
    + rewrite M2, Ecm. apply lookup_insert_eq.
    + by rewrite S3, S4, S5.
    + injection Etr as E1 E2 E3. by rewrite S3, S4, S5, <- E2, <- E3.
    + by rewrite M7, Hl1.
  - intros [] s' out (E1 & E2 & E3 & E4 & E5 & E6 & E7). split_and!; try done.
    + rewrite E5, M2, Ecm. cbn. by rewrite delete_insert_id.
    + rewrite E6, lookup_delete. case_decide; [done|]. apply lookup_delete_eq.
    + rewrite E6. apply lookup_delete_eq.
    + cbn [app]. do 2 apply list_elem_of_further. apply elem_of_app. right. apply list_elem_of_here.
    + cbn [app]. repeat (apply list_elem_of_further || (apply elem_of_app; right)). exact E7.
Qed.
End Device.
End ScannerToolOk.

(** A scanner on an adapter with four-byte assemblies, displaying one tick. *)
Definition demo_flags (rpi : Z) : ScannerTool.Flags := ScannerTool.mkFlags 100 101 0 4 4 rpi 3 0 2222.
Definition demo_life : @life (Session (Served Adapter)) := mkLife demo_plant [] true SIdle.
Definition demo_inputs : list (ScannerTool.input (P := Served Adapter)) :=
  [ScannerTool.Tick 500000000 [EStart 0; ETick 0] (fun x => x); ScannerTool.Cancelled []].
Definition demo_turns : list event := [EStart 0; ERecvExit; EStop 0].
Definition demo_run (rpi : Z) : Prog (@life (Session (Served Adapter))) unit :=
  ScannerTool.cyclic (H := Served_Wire adapter_router no_identity) (fun _ => None) (demo_flags rpi) 7 0 demo_inputs
    [] demo_turns.

Lemma scanner_program_on_adapter_witness :
  wp (demo_run 10000000) demo_life (fun _ s' out =>
    ConnMgr.connections (ad_cm (device (lf_scan s'))) = ∅ /\ wg_zero s' = true /\
    Printedln Stdout "Forward_Close succeeded." ∈ out).
Proof.
  eapply wp_conseq.
  - apply (ScannerToolOk.scanner_program_on_adapter no_identity (fun _ => None) 4 4 ltac:(lia) ltac:(lia)
      (demo_flags 10000000) 7 0 demo_inputs [] demo_turns demo_life).
    + reflexivity.
    + apply (scan_new_linv True).
    + reflexivity.
    + exact demo_can_open.
    + reflexivity.
    + right. left. exact Logic.I.
    + repeat constructor; done.
    + constructor.
    + repeat constructor.
    + split; [|right; left].
      intros i Hi. destruct i as [|i]; [|cbn in Hi; lia]. repeat constructor.
  - intros a s' out (_ & Hz & _ & _ & Hc & _ & _ & _ & Ho). split; [rewrite Hc; reflexivity|]. split; [exact Hz|exact Ho].
Defined.

(** With [-rpi 0] the device grants no interval, the producer asks for a ticker of
    zero length and its panic ends the program before it shows anything. *)
Example zero_rpi_program :
  exists s out, demo_run 0 demo_life = (Exited 2, s, out) /\ Printed Stdout "Forward_Open succeeded!\n" [] ∈ out.
Proof.
  do 2 eexists. split; [vm_compute; reflexivity|]. repeat (apply list_elem_of_here || apply list_elem_of_further).
Qed.

(** A negative [-timeout-mult] is a negative shift count. *)
Example negative_mult_program (s : @life (Session (Served Adapter))) :
  (ScannerTool.show_parameters (ScannerTool.mkFlags 100 101 0 4 4 10000000 (-1) 0 2222) s).1.1 = Crashed.
Proof. reflexivity. Qed.
