(* ===== verification/LuaModules.v ===== *)
(** * The Lua modules

    Models [lua/lua.go] and the registration half of [lua/modbus.go] and
    [lua/ethernetip.go]: the globals [modbus] and [eip], their [connect] functions,
    and the client tables, which hold a function per method under its Lua name.  A
    function value is what the interpreter makes of a native function
    ([NewNativeFunc]); [run_modbus] and [run_eip] are what calling it does, the
    methods of [LuaModbus] and [LuaEip].  Of the connections' options, the
    durations are left out. *)
From S2P Require Import Prelude Bytes ModbusTypes Transport Plc Cip Pccc PcccClient EipClient CipTypes ModbusClient.
From S2P Require Import ModbusHandlers ModbusSpec ModbusStore LuaVM LuaModbus LuaEip ModbusToolsOk.
#[local] Open Scope string_scope.
#[local] Open Scope Z_scope.

(** The methods of the two client tables. *)
Inductive modbus_method : Type :=
| MReadHoldingRegisters | MReadInputRegisters | MReadCoils | MReadDiscreteInputs | MWriteRegister
| MWriteRegisters | MWriteCoil | MWriteCoils | MReadWriteRegisters | MReadDeviceId | MToInt32 | MToFloat32 | MClose.
Inductive eip_method : Type :=
| EReadTag | EReadTagRaw | EReadTags | EWriteTag | EReadTimer | EReadCounter | EListTags | EClose.
#[export] Instance modbus_method_EqDecision : EqDecision modbus_method.
Proof. solve_decision. Defined.
#[export] Instance eip_method_EqDecision : EqDecision eip_method.
Proof. solve_decision. Defined.
(** The native functions the package makes; a method closes over its client. *)
Inductive native : Type :=
| ModbusConnect | EipConnect
| ModbusMethod (c : ModbusClient.Client) (m : modbus_method)
| EipMethod (c : EipClient.Client) (m : eip_method).

Class NativeVM (V Tb : Type) `{LuaVM V Tb} : Type := {
  NewNativeFunc : native -> V;
  AsNative : V -> option native }.
(** Function values are kept as they are, and so are the entries of a table under
    other string keys. *)
Class NativeLaws (V Tb : Type) `{NativeVM V Tb} : Prop := {
  native_law f : AsNative (NewNativeFunc f) = Some f /\ IsNil (NewNativeFunc f) = false;
  get_set_string t k v : IsNil v = false -> TGet (TSet t (NewString k) v) (NewString k) = v;
  get_set_other t k k' v : k <> k' -> TGet (TSet t (NewString k) v) (NewString k') = TGet t (NewString k') }.

Definition modbus_methods : list (string * modbus_method) :=
  [("read_holding_registers", MReadHoldingRegisters); ("read_input_registers", MReadInputRegisters);
   ("read_coils", MReadCoils); ("read_discrete_inputs", MReadDiscreteInputs); ("write_register", MWriteRegister);
   ("write_registers", MWriteRegisters); ("write_coil", MWriteCoil); ("write_coils", MWriteCoils);
   ("read_write_registers", MReadWriteRegisters); ("read_device_id", MReadDeviceId); ("to_int32", MToInt32);
   ("to_float32", MToFloat32); ("close", MClose)].
Definition eip_methods : list (string * eip_method) :=
  [("read_tag", EReadTag); ("read_tag_raw", EReadTagRaw); ("read_tags", EReadTags); ("write_tag", EWriteTag);
   ("read_timer", EReadTimer); ("read_counter", EReadCounter); ("list_tags", EListTags); ("close", EClose)].
Definition type_names : list string :=
  ["BOOL"; "SINT"; "INT"; "DINT"; "LINT"; "USINT"; "UINT"; "UDINT"; "ULINT"; "REAL"; "LREAL"; "STRING"].

Section Modules.
Context {V Tb : Type} `{NativeVM V Tb}.

(** [SetString] for each of a list of entries. *)
Definition set_strings {A} (f : A -> V) (entries : list (string * A)) (t : Tb) : Tb :=
  fold_left (fun t e => TSet t (NewString (str e.1)) (f e.2)) entries t.
Definition modbusClientToLua (c : ModbusClient.Client) : Tb :=
  set_strings (fun m => NewNativeFunc (ModbusMethod c m)) modbus_methods NewEmptyTable.
Definition eipClientToLua (c : EipClient.Client) : Tb :=
  set_strings (fun m => NewNativeFunc (EipMethod c m)) eip_methods NewEmptyTable.

(** The globals of the interpreter. *)
Abbreviation globals := (gmap bytes V).
Definition openModbus (g : globals) : globals :=
  <[str "modbus" := NewTable (TSet NewEmptyTable (NewString (str "connect")) (NewNativeFunc ModbusConnect))]> g.
Definition eip_types : Tb := set_strings (fun n => NewString (str n)) (map (fun n => (n, n)) type_names) NewEmptyTable.
Definition openEIP (g : globals) : globals :=
  let m := TSet NewEmptyTable (NewString (str "connect")) (NewNativeFunc EipConnect) in
  let m := TSet m (NewString (str "types")) (NewTable eip_types) in
  <[str "eip" := NewTable m]> g.
Definition Open (g : globals) : globals := openEIP (openModbus g).

(** ** Calls *)
Section ModbusCalls.
Context {C T : Type} `{Transport C T} `{Link C T}.
Variable now : Z.
Definition modbusConnect (args : Z -> V) : SM T (option V) :=
  '(_, _, c) ← pure (modbusConnect_opts args);
  _ ← lua_error "modbus.connect: %s" ModbusClient.Client_Connect;
  mret (Some (NewTable (modbusClientToLua c))).
Definition run_modbus (c : ModbusClient.Client) (m : modbus_method) (args : Z -> V) : SM T (option V) :=
  match m with
  | MReadHoldingRegisters => lua_read_holding_registers c now args
  | MReadInputRegisters => lua_read_input_registers c now args
  | MReadCoils => lua_read_coils c now args
  | MReadDiscreteInputs => lua_read_discrete_inputs c now args
  | MWriteRegister => lua_write_register c now args
  | MWriteRegisters => lua_write_registers c now args
  | MWriteCoil => lua_write_coil c now args
  | MWriteCoils => lua_write_coils c now args
  | MReadWriteRegisters => lua_read_write_registers c now args
  | MReadDeviceId => lua_read_device_id c now
  | MToInt32 => v ← pure (lua_to_int32 args); mret (Some v)
  | MToFloat32 => v ← pure (lua_to_float32 args); mret (Some v)
  | MClose => lua_close
  end.
(** [client:name(...)] in a script, for a client of this module; [None] when the
    table has no such function. *)
Definition call_modbus (client : V) (name : string) (args : Z -> V) : option (SM T (option V)) :=
  match AsNative (TGet (AsTable client) (NewString (str name))) with
  | Some (ModbusMethod c m) => Some (run_modbus c m args)
  | Some ModbusConnect => Some (modbusConnect args)
  | _ => None
  end.
End ModbusCalls.

Section EipCalls.
Context {C T : Type} `{Transport C T} `{SessionLink C T}.
Variable fuel : nat.
Definition connect_call : Run T unit := fun t => Some (lua_error "eip.connect: %s" EipClient.Client_Connect t).
Definition eipConnect (args : Z -> V) : Run T (option V) :=
  '(_, c) ← local (eipConnect_opts args);
  _ ← connect_call;
  mret (Some (NewTable (eipClientToLua c))).
Definition run_eip (c : EipClient.Client) (m : eip_method) (args : Z -> V) : Run T (option V) :=
  match m with
  | EReadTag => lua_read_tag c fuel args
  | EReadTagRaw => lua_read_tag_raw c fuel args
  | EReadTags => lua_read_tags c fuel args
  | EWriteTag => lua_write_tag c fuel args
  | EReadTimer => lua_read_timer c fuel args
  | EReadCounter => lua_read_counter c fuel args
  | EListTags => lua_list_tags c fuel
  | EClose => lua_eip_close
  end.
Definition call_eip (client : V) (name : string) (args : Z -> V) : option (Run T (option V)) :=
  match AsNative (TGet (AsTable client) (NewString (str name))) with
  | Some (EipMethod c m) => Some (run_eip c m args)
  | Some EipConnect => Some (eipConnect args)
  | _ => None
  end.
End EipCalls.
End Modules.

(** ** Names

    Every function of a module is found under its name. *)
Section Names.
Context {V Tb : Type} `{NativeLaws V Tb}.

Lemma set_strings_other {A} (f : A -> V) entries k : k ∉ map (fun e => str e.1) entries ->
  forall t, TGet (set_strings f entries t) (NewString k) = TGet t (NewString k).
Proof.
  induction entries as [|e entries IH]; intros Hk t; [done|]. cbn [map] in Hk.
  apply not_elem_of_cons in Hk as [Hne Hk]. cbn [set_strings fold_left].
  etransitivity; [apply (IH Hk)|]. by apply get_set_other.
Qed.
Lemma set_strings_get {A} (f : A -> V) entries name a : NoDup (map (fun e => str e.1) entries) ->
  (name, a) ∈ entries -> IsNil (f a) = false ->
  forall t, TGet (set_strings f entries t) (NewString (str name)) = f a.
Proof.
  induction entries as [|e entries IH]; intros Hnd Hin Hn t; [by apply elem_of_nil in Hin|].
  cbn [map] in Hnd. apply NoDup_cons in Hnd as [Hfresh Hnd]. cbn [set_strings fold_left].
  apply elem_of_cons in Hin as [<-|Hin]; [|by apply (IH Hnd Hin Hn)].
  etransitivity; [by apply set_strings_other|]. by apply get_set_string.
Qed.
End Names.

Section Scripts.
Context {V Tb : Type} `{!LuaVM V Tb} `{!NativeVM V Tb} `{!LuaLaws V Tb} `{!NativeLaws V Tb}.

Section ModbusScripts.
Context {C T : Type} `{Transport C T} `{Link C T}.
Lemma call_modbus_method now c name m args : (name, m) ∈ modbus_methods ->
  call_modbus now (NewTable (modbusClientToLua c)) name args = Some (run_modbus now c m args).
Proof.
  intros Hin. unfold call_modbus. destruct (table_law (modbusClientToLua c)) as (_ & -> & _).
  unfold modbusClientToLua. rewrite (set_strings_get _ _ name m); [|by apply (bool_decide_unpack _)|done|].
  - by destruct (native_law (ModbusMethod c m)) as [-> _].
  - by destruct (native_law (ModbusMethod c m)).
Qed.
Lemma call_modbus_connect now g args :
  exists client, Open g !! str "modbus" = Some client /\
    call_modbus now client "connect" args = Some (modbusConnect args).
Proof.
  eexists. split; [unfold Open, openEIP, openModbus; rewrite lookup_insert_ne by done; apply lookup_insert_eq|].
  unfold call_modbus. destruct (table_law (TSet NewEmptyTable (NewString (str "connect")) (NewNativeFunc ModbusConnect)))
    as (_ & -> & _).
  destruct (native_law ModbusConnect) as [Hn Hnil]. by rewrite get_set_string, Hn.
Qed.
End ModbusScripts.

(** The constants of [eip.types] are the hints that [write_tag] knows: each is a
    string that is parsed as a type, and every type has its constant. *)
Theorem types_are_hints g :
  exists m, Open g !! str "eip" = Some (NewTable m) /\
    (forall name, name ∈ type_names ->
       TGet (AsTable (TGet m (NewString (str "types")))) (NewString (str name)) = NewString (str name) /\
       is_Some (parse_hint (str name))) /\
    forall ht, exists name, name ∈ type_names /\ parse_hint (str name) = Some ht.
Proof.
  eexists. split; [apply lookup_insert_eq|]. split.
  - intros name Hin.
    destruct (table_law eip_types) as (_ & Ht & Hnil). rewrite get_set_string, Ht by done. split.
    + apply (set_strings_get (fun n => NewString (str n))).
      * by apply (bool_decide_unpack _).
      * by apply (list_elem_of_fmap_2 (fun n => (n, n))).
      * apply string_law.
    + revert name Hin. apply Forall_forall. by apply (bool_decide_unpack _).
  - intros ht. assert (forall name, name ∈ type_names -> parse_hint (str name) = Some ht ->
      exists name, name ∈ type_names /\ parse_hint (str name) = Some ht) as K by eauto.
    destruct ht; [apply (K "BOOL")|apply (K "SINT")|apply (K "INT")|apply (K "DINT")|apply (K "LINT")|apply (K "USINT")
      |apply (K "UINT")|apply (K "UDINT")|apply (K "ULINT")|apply (K "REAL")|apply (K "LREAL")|apply (K "STRING")];
      first [reflexivity | by apply (bool_decide_unpack _)].
Qed.

(** C36: A script on a device.  On a live link, the global [modbus] has a function
    [connect] that returns a client; calling its methods [write_coils] and
    [read_coils] by name, with a table of booleans and then with its length,
    leaves the booleans in the device and returns a table with the same
    elements. *)
Theorem script_coils {C T : Type} `{DeviceLink C T} now g args args1 args2 host a vals t :
  link_ok t -> is_u16 a -> 0 < len vals <= MaxWriteCoilCount ->
  args 1 = NewString host -> IsTable (args 2) = false ->
  args1 2 = NewInt a -> args1 3 = NewTable (boolsToLuaTable vals) ->
  args2 2 = NewInt a -> args2 3 = NewInt (len vals) ->
  exists modbus connect client t0 write t1 read t2,
    Open g !! str "modbus" = Some modbus /\
    call_modbus now modbus "connect" args = Some connect /\ connect t = (Ok (Some client), t0) /\
    call_modbus now client "write_coils" args1 = Some write /\ write t0 = (Ok None, t1) /\
    cells (coil (device t1)) a (len vals) = vals /\
    call_modbus now client "read_coils" args2 = Some read /\
    read t1 = (Ok (Some (NewTable (boolsToLuaTable vals))), t2).
Proof.
  intros Ht Ha Hl A1 A2 B1 B2 D1 D2. unfold MaxWriteCoilCount in Hl.
  destruct (call_modbus_connect now g args) as (modbus & Hg & Hc).
  destruct (link_conn t Ht) as [cn Ecn].
  assert (u16 a = a) as Hua by (by apply u16_small).
  assert (u16 (len vals) = len vals) as Hul by (apply u16_small; widths; lia).
  set (c := mkClientCfg (u8 1) 0).
  destruct (WriteMultipleCoils_device c now ltac:(done) a vals t Ha ltac:(unfold MaxWriteCoilCount; lia) Ht) as (t1 & E1 & K1 & Hd).
  destruct (ReadCoils_device c now ltac:(done) a (len vals) t1) as (t2 & E2 & _);
    [done|unfold MaxCoilCount; lia|done|].
  assert (cells (coil (device t1)) a (len vals) = vals) as Hcells.
  { rewrite (cells_ext _ (write_cells (coil (device t)) a vals)) by (intros x Hx; apply (Hd x Hx)).
    apply cells_write_same. lia. }
  exists modbus, (modbusConnect args), (NewTable (modbusClientToLua c)), t,
    (run_modbus now c MWriteCoils args1), t1, (run_modbus now c MReadCoils args2), t2.
  split; [done|]. split; [done|]. split.
  { unfold modbusConnect, modbusConnect_opts. rewrite (getString_string _ _ host A1). cbn [mbind outcome_bind]. rewrite A2.
    rewrite SM_bind_pure_Ok.
    rewrite (SM_bind_Ok _ _ t tt t); [done|]. unfold lua_error, Client_Connect. by rewrite Ecn. }
  split; [apply call_modbus_method; by apply (bool_decide_unpack _)|]. split.
  { cbn [run_modbus]. unfold lua_write_coils. rewrite (getInt_int _ _ a B1) by (by apply u16_i64).
    rewrite SM_bind_pure_Ok, (getTable_table _ _ _ B2), SM_bind_pure_Ok.
    rewrite coils_back; [|by destruct vals|lia]. rewrite SM_bind_pure_Ok, Hua.
    by rewrite (SM_bind_Ok _ _ _ _ _ (lua_error_Ok _ _ _ _ _ E1)). }
  split; [done|]. split; [apply call_modbus_method; by apply (bool_decide_unpack _)|].
  cbn [run_modbus]. unfold lua_read_coils, lua_read_bits. rewrite (getInt_int _ _ a D1) by (by apply u16_i64).
  rewrite SM_bind_pure_Ok, (getInt_int _ _ (len vals) D2) by (unfold is_i64; lia). rewrite SM_bind_pure_Ok, Hua, Hul.
  rewrite (SM_bind_Ok _ _ _ _ _ (lua_error_Ok _ _ _ _ _ E2)), Hcells. done.
Qed.
End Scripts.

(** ** A small interpreter with native functions

    A function value is a table with a key no script can write, nil. *)
Module MiniNative.
Import MiniLua.
Definition modbus_of (n : Z) : option modbus_method := (modbus_methods !! Z.to_nat n) ≫= fun e => Some e.2.
Definition eip_of (n : Z) : option eip_method := (eip_methods !! Z.to_nat n) ≫= fun e => Some e.2.
Definition modbus_index (m : modbus_method) : Z :=
  match list_find (fun e => e.2 = m) modbus_methods with Some (i, _) => Z.of_nat i | None => 0 end.
Definition eip_index (m : eip_method) : Z :=
  match list_find (fun e => e.2 = m) eip_methods with Some (i, _) => Z.of_nat i | None => 0 end.
Definition fields (l : list Z) : lval := LTable (map (fun z => (LNil, LInt z)) l).
Definition encode (f : native) : lval :=
  match f with
  | ModbusConnect => fields [0]
  | EipConnect => fields [1]
  | ModbusMethod c m => fields [2; unitID c; ModbusClient.retries c; modbus_index m]
  | EipMethod c m => fields [3; EipClient.retries c; cipVendorID c; cipSerialNumber c; eip_index m]
  end.
Definition decode (v : lval) : option native :=
  match v with
  | LTable [(LNil, LInt 0)] => Some ModbusConnect
  | LTable [(LNil, LInt 1)] => Some EipConnect
  | LTable [(LNil, LInt 2); (LNil, LInt u); (LNil, LInt r); (LNil, LInt m)] =>
      ModbusMethod (ModbusClient.mkClientCfg u r) <$> modbus_of m
  | LTable [(LNil, LInt 3); (LNil, LInt r); (LNil, LInt i); (LNil, LInt n); (LNil, LInt m)] =>
      EipMethod (EipClient.mkClientCfg r i n) <$> eip_of m
  | _ => None
  end.
#[export] Instance mini_native : NativeVM lval (list (lval * lval)) := {| NewNativeFunc := encode; AsNative := decode |}.
#[export] Instance mini_native_laws : NativeLaws lval (list (lval * lval)).
Proof.
  split.
  - intros [| |[u r] m|[r i n] m]; (split; [|done]); [done|done|destruct m; reflexivity|destruct m; reflexivity].
  - intros t k v Hv. cbn. by rewrite bool_decide_eq_true_2.
  - intros t k k' v Hne. cbn. by rewrite bool_decide_eq_false_2.
Qed.

Lemma script_coils_witness :
  exists client write t1 read t2,
    @call_modbus lval _ _ _ unit MemoryStore served_transport served_link 0 client "write_coils"
      (stack [LNil; LInt 3; LTable (boolsToLuaTable [true; false])]) = Some write /\
    write NewMemoryStore = (Ok None, t1) /\
    @call_modbus lval _ _ _ unit MemoryStore served_transport served_link 0 client "read_coils"
      (stack [LNil; LInt 3; LInt 2]) = Some read /\
    read t1 = (Ok (Some (LTable (boolsToLuaTable [true; false]))), t2).
Proof.
  destruct (@script_coils lval _ _ _ _ _ unit MemoryStore served_transport served_link served_device 0 ∅
    (stack [LStr (str "10.0.0.1")]) (stack [LNil; LInt 3; LTable (boolsToLuaTable [true; false])])
    (stack [LNil; LInt 3; LInt 2]) (str "10.0.0.1") 3 [true; false] NewMemoryStore)
    as (modbus & connect & client & t0 & write & t1 & read & t2 & Hm & Hc & Et0 & Hw & Ew & _ & Hr & Er).
  - split; apply map_Forall_empty.
  - decided.
  - vm_compute. split; congruence.
  - reflexivity.
  - reflexivity.
  - reflexivity.
  - reflexivity.
  - reflexivity.
  - reflexivity.
  - exists client, write, t1, read, t2. split; [exact Hw|]. split; [|split; [exact Hr|exact Er]].
    assert (t0 = NewMemoryStore) as <-; [|exact Ew].
    vm_compute in Hm. injection Hm as <-. vm_compute in Hc. injection Hc as <-. vm_compute in Et0.
    injection Et0 as _ <-. reflexivity.
Defined.
End MiniNative.
