(* ===== verification/ServerTools.v ===== *)
(** * Programs around a server or a dump

    Models [examples/modbus/server] (the callbacks, the status report and the end;
    its data store is in [ModbusDemo]), [examples/ethernetip/server] around the tag
    object of [TagServer], and the two [hexdump] programs.  What [Start] and [Stop]
    return is an argument: the servers' lives are in [ModbusLife] and [EipLife].
    The bytes a hex dump writes are those of [Hexdump]; here are the programs'
    own lines. *)
From S2P Require Import Prelude Bytes ModbusTypes ModbusProtocol Transport Plc ModbusStore ModbusClient.
From S2P Require Import EipCodec Cip EipClient TagServer Displays Console ModbusTools EipTools ModbusDemo.
#[local] Open Scope string_scope.
#[local] Open Scope Z_scope.

(** ** modbus/server *)
Module ModbusServerTool.
Section Program.
Context {S : Type}.
(** [ConnectedClient.String] of [Displays], for the current time and map order. *)
Variable client_String : ConnectedClient -> bytes.

Definition on_connect (client : ConnectedClient) : Prog S unit :=
  logf "CLIENT CONNECTED: %s" [AStr (RemoteAddr client)].
Definition on_disconnect (client : ConnectedClient) : Prog S unit :=
  logf "CLIENT DISCONNECTED: %s (rx=%d, tx=%d)"
    [AStr (RemoteAddr client); AInt (RxTransactions client); AInt (TxTransactions client)].
(** One tick of the status report, on the clients connected then. *)
Definition status (clients : list ConnectedClient) : Prog S unit :=
  if len clients =? 0 then logf "[STATUS] Server running | No clients connected" []
  else
    _ ← logf "[STATUS] Server running | %d client(s) connected:" [AInt (len clients)];
    each 0 (fun i c => logf "[STATUS]   Client %d: %s" [AInt (i + 1); AStr (client_String c)]) clients.

(** [main] after the data store: started, reported on until a signal, stopped;
    [dump] is the text of [DumpRegisters]. *)
Definition main (addr : bytes) (port : Z) (start stop : outcome unit) (reports : list (list ConnectedClient))
  (sig : arg) (dump : S -> bytes) : Prog S unit :=
  _ ← logf "Pre-populating data store with sample data" [];
  _ ← logf "Starting Modbus TCP server on %s:%d" [AStr addr; AInt port];
  match start with
  | Err err => _ ← logf "Failed to start server: %v" [AErr err]; exit 1
  | Panic => eval Panic
  | Ok _ =>
      _ ← logf "Server is running. Press Ctrl+C to stop." [];
      _ ← each 0 (fun _ => status) reports;
      _ ← logf "Received signal: %v. Shutting down..." [sig];
      match stop with
      | Err err => _ ← logf "Error stopping server: %v" [AErr err]; exit 1
      | Panic => eval Panic
      | Ok _ =>
          _ ← println "\n--- Final Data Store State ---";
          _ ← (fun s => printf "%s\n" [AStr (dump s)] s);
          logf "Server stopped cleanly. Goodbye." []
      end
  end.
End Program.
End ModbusServerTool.

(** ** ethernetip/server *)
Module TagServerTool.
Definition main (addr : bytes) (start stop : outcome unit) (sig : arg) : Prog TagObject unit := fun _ =>
  (_ ← println "Pre-populated tags:";
   _ ← println "  MyDINT   (DINT)   = 12345";
   _ ← println "  MyREAL   (REAL)   = 3.14";
   _ ← printf "  MySTRING (STRING) = %q\n" [AText "Hello, EIP!"];
   _ ← println "  Counter  (DINT)   = 0";
   _ ← println "";
   _ ← printf "Starting EtherNet/IP server on %s...\n" [AStr addr];
   match start with
   | Err err => _ ← eprintf "Failed to start server: %v\n" [AErr err]; exit 1
   | Panic => eval Panic
   | Ok _ =>
       _ ← println "Server is running. Press Ctrl+C to stop.";
       _ ← println "";
       _ ← printf "\nReceived signal: %v\n" [sig];
       _ ← println "Shutting down server...";
       match stop with
       | Err err => _ ← eprintf "Error stopping server: %v\n" [AErr err]; exit 1
       | Panic => eval Panic
       | Ok _ => println "Server stopped."
       end
   end) demo_tags.
End TagServerTool.

(** ** The log file of the hex dumps: [create] is what [os.Create] gives *)
Definition dump_to {S} (logFile : bytes) (create : outcome unit) (rest : Prog S unit) : Prog S unit :=
  if bool_decide (logFile = []) then rest
  else match create with
       | Err err => _ ← eprintf "Failed to create log file: %v\n" [AErr err]; exit 1
       | Panic => eval Panic
       | Ok _ => _ ← printf "Hex dump output also written to %s\n\n" [AStr logFile]; rest
       end.

Module ModbusHexdumpTool.
Section Program.
Context {C T : Type} `{Transport C T} `{Link C T}.
Variable now : Z.
Definition exchange (c : ModbusClient.Client) : Prog T unit :=
  _ ← println "--- Reading 3 holding registers at address 0 ---";
  _ ← println "";
  r ← call (Client_ReadHoldingRegisters c now 0 3);
  match r with
  | inl err => _ ← eprintf "ReadHoldingRegisters: %v\n" [AErr err]; exit 1
  | inr regs =>
      _ ← println "";
      _ ← println "--- Decoded values ---";
      _ ← each 0 (fun i v => printf "  Register %d = %d (0x%04X)\n" [AInt i; AInt v; AInt v]) regs;
      _ ← println "";
      _ ← println "--- Writing register 100 = 0x1234 ---";
      _ ← println "";
      r ← call (Client_WriteSingleRegister c now 100 0x1234);
      match r with
      | inl err => _ ← eprintf "WriteSingleRegister: %v\n" [AErr err]; exit 1
      | inr _ => _ ← println ""; println "Done."
      end
  end.
Definition main (addr logFile : bytes) (port unit_ : Z) (create : outcome unit) : Prog T unit :=
  dump_to logFile create (
  _ ← printf "Connecting to Modbus TCP server at %s:%d...\n\n" [AStr addr; AInt port];
  r ← call ModbusClient.Client_Connect;
  match r with
  | inl err => _ ← eprintf "Failed to connect: %v\n" [AErr err]; exit 1
  | inr _ => deferred close_client (exchange (ModbusClient.mkClientCfg (u8 unit_) 0))
  end).
End Program.
End ModbusHexdumpTool.

Module EipHexdumpTool.
Section Program.
Context {C T : Type} `{Transport C T} `{SessionLink C T}.
Variable fuel : nat.
Definition main (addr tag logFile : bytes) (create : outcome unit) : Prog T unit :=
  dump_to logFile create (
  _ ← printf "Connecting to %s...\n\n" [AStr addr];
  r ← call EipClient.Client_Connect;
  match r with
  | inl err => _ ← eprintf "Failed to connect: %v\n" [AErr err]; exit 1
  | inr _ =>
      deferred eip_close (
      _ ← println "--- Reading tag ---";
      _ ← println "";
      r ← callR (ReadTag (EipClient.NewClient 2) fuel tag);
      match r with
      | inl err => _ ← eprintf "ReadTag: %v\n" [AErr err]; exit 1
      | inr data =>
          _ ← println "";
          _ ← println "--- Decoded ---";
          _ ← printf "  Tag:  %s\n" [AStr tag];
          _ ← printf "  Data: % X\n" [AHex data];
          _ ← println "";
          println "Done."
      end)
  end).
End Program.
End EipHexdumpTool.
