(* ===== verification/TestUtil.v ===== *)
(** * Test utilities

    Models [internal/testutil/mock_logger.go], the logger that records what a test
    logs.  [fmt.Sprintf] is a parameter.  The helpers of [loopback.go] only call
    the operating system. *)
From S2P Require Import Prelude Bytes Logging.

Section Mock.
Context {A : Type}.
Variable Sprintf : bytes -> list A -> bytes.

Record LogMessage : Type := mkMessage { lm_Level : Z; Message : bytes }.
Record MockLogger : Type := mkMock { Messages : list LogMessage; level : Z }.
Definition NewMockLogger : MockLogger := mkMock [] LevelTrace.

Definition record (lv : Z) (format : bytes) (args : list A) (l : MockLogger) : MockLogger :=
  if lv <? level l then l else
  let msg := match args with [] => format | _ => Sprintf format args end in
  mkMock (Messages l ++ [mkMessage lv msg]) (level l).
Definition Mock_Trace (format : bytes) (args : list A) : MockLogger -> MockLogger := record LevelTrace format args.
Definition Mock_Debug (format : bytes) (args : list A) : MockLogger -> MockLogger := record LevelDebug format args.
Definition Mock_Info (format : bytes) (args : list A) : MockLogger -> MockLogger := record LevelInfo format args.
Definition Mock_Warn (format : bytes) (args : list A) : MockLogger -> MockLogger := record LevelWarn format args.
Definition Mock_Error (format : bytes) (args : list A) : MockLogger -> MockLogger := record LevelError format args.
Definition Mock_WithFields (l : MockLogger) : MockLogger := l.
Definition Mock_GetLevel (l : MockLogger) : Z := level l.
Definition Mock_SetLevel (lv : Z) (l : MockLogger) : MockLogger := mkMock (Messages l) lv.

(** What a test does with the logger. *)
Inductive action : Type := Log (lv : Z) (format : bytes) (args : list A) | Set_ (lv : Z).
Definition run_action (l : MockLogger) (a : action) : MockLogger :=
  match a with Log lv format args => record lv format args l | Set_ lv => Mock_SetLevel lv l end.
Definition run_actions (l : MockLogger) (acts : list action) : MockLogger := fold_left run_action acts l.

(** The level in force after some actions. *)
Definition level_after (acts : list action) : Z :=
  default LevelTrace (last (omap (fun a => match a with Set_ lv => Some lv | Log _ _ _ => None end) acts)).

Lemma level_run acts : level (run_actions NewMockLogger acts) = level_after acts.
Proof.
  unfold run_actions, level_after. induction acts as [|a acts IH] using rev_ind; [done|].
  rewrite fold_left_app, omap_app. cbn [fold_left]. destruct a as [lv format args|lv]; cbn [run_action omap list_omap].
  - rewrite app_nil_r, <-IH. unfold record. by destruct (_ <? _).
  - by rewrite last_snoc.
Qed.

(** The recorded messages are the logged ones, in order, less those below the level
    that was in force when they were logged: a call is recorded if and only if its
    level is at least that. *)
Theorem mock_records acts lv format args :
  Messages (run_actions NewMockLogger (acts ++ [Log lv format args])) =
    Messages (run_actions NewMockLogger acts) ++
    (if level_after acts <=? lv
     then [mkMessage lv (match args with [] => format | _ => Sprintf format args end)] else []) /\
  forall lv', Messages (run_actions NewMockLogger (acts ++ [Set_ lv'])) = Messages (run_actions NewMockLogger acts).
Proof.
  unfold run_actions. rewrite !fold_left_app. split; [|intros lv'; by rewrite fold_left_app].
  cbn [fold_left run_action]. unfold record. rewrite <-level_run. fold (run_actions NewMockLogger acts).
  rewrite Z.ltb_antisym. destruct (_ <=? _); cbn; by rewrite ?app_nil_r.
Qed.
End Mock.
